(* ===== verification/_CoqProject ===== *)
-Q . S2P
Prelude.v
Js.v
Hash.v
State.v
Sample.v
ApprovalQueue.v
Authorization.v
AuthorizationProps.v
AuthorizationSafety.v
Receipts.v
GrantKey.v
Json.v
AuthorizationClaims.v
Normalization.v
Recovery.v
RecoveryReducer.v
RecoveryProps.v
RecoveryInvariant.v
HashCorrect.v
RecoveryClaims.v
RecoveryResponse.v
NormalizationClaims.v
NormalizationEvents.v
RecoveryReducerClaims.v
Lease.v
LeaseProps.v
LeaseClaims.v
Traits.v
Scheduler.v
Work.v
Completion.v
CompletionReducer.v
Verification.v
Intent.v
CompletionProps.v
SchedulerProps.v
SchedulerClaims.v
CompletionClaims.v
Lifecycle.v
LifecycleProps.v
LifecycleClaims.v
Interaction.v
InteractionClaims.v
Capability.v
CapabilityClaims.v
Context.v
ContextClaims.v
Governance.v
GovernanceClaims.v
GovernanceBinding.v
JsonParse.v
JsonRoundtrip.v
Events.v
Evidence.v
Invariants.v
Codec.v
PlanCommand.v
PlanCommandClaims.v
PlanRuntime.v
PlanRuntimeProps.v
PlanRuntimeClaims.v
IntentClaims.v
VerificationClaims.v
Kernel.v
EffectAdmission.v
EffectAdmissionClaims.v
Restart.v
KernelClaims.v
TranscriptClaims.v
CodecClaims.v
InvariantsClaims.v
