(* ===== verification/Prelude.v ===== *)
(** * A verified model of the Kite Code agent kernel

    Kite Code is a coding agent.  Its core, [src/packages/agent-kernel/src], is a
    pure state machine: a host submits candidate events, the kernel admits them
    into a session's history, eleven domain reducers fold each admitted event
    into the [AgentState], and a scheduler names the next effect the host may
    perform (call the model, run tools, ask the user, finish).  The kernel never
    performs I/O; that an effect is safe to perform is decided here, from the
    approval queue, the resource ledger and the scheduling facts.  This library
    models that core and proves what the rest of the program relies on.

    ** Files and the code they model

    - [Prelude.v]: results of code that may throw ([res], [let*]), record update,
      string equality, insertion-ordered maps ([ordmap], the JavaScript object
      used as a map), folds, and the tactics [bool_hyps], [split_match], [res_inv].
    - [Js.v], [Json.v]: the values of the language ([val], [obj]), the accessors
      of [reducer-utils.ts], double arithmetic on integers ([fl], [fadd]),
      [JSON.stringify] and its injectivity, [String], [Date.parse] of ISO texts,
      sorting.  Class [JsHost] holds what depends on the engine: other date
      texts, [localeCompare], and [Number] of other texts.
    - [Hash.v] / [HashCorrect.v]: [hash.ts]; SHA-256 and its UTF-8 encoder, and
      their correctness against FIPS 180-4 and against UTF-8 decoding.
    - [State.v] / [Sample.v]: [state.ts]; the state record, its constructor and
      selectors, and a sample session for the instances.
    - [ApprovalQueue.v], [Authorization.v]: [approval-queue.ts], [doom-loop.ts]
      and [core/authorization/reducer.ts]; one definition per event, composed by
      [reduceAuthorizationState].
    - [AuthorizationProps.v], [AuthorizationSafety.v], [Receipts.v],
      [GrantKey.v], [AuthorizationClaims.v]: the abstract approval queue machine
      ([queue_step]) and the refinement, the queue and receipt invariants over
      histories ([run]), and the injectivity of grant keys.
    - [Normalization.v], [NormalizationClaims.v], [NormalizationEvents.v]:
      [normalization.ts] and [terminal-outcome.ts]; how the kernel turns the
      candidate that ends a call into a typed outcome.
    - [Recovery.v], [RecoveryReducer.v] and [RecoveryProps.v],
      [RecoveryInvariant.v], [RecoveryClaims.v], [RecoveryResponse.v],
      [RecoveryReducerClaims.v]: [recovery.ts] and its domain reducer; the
      failure journal, its budgets and its progress guard.
    - [Lease.v], [LeaseProps.v], [LeaseClaims.v]: [core/lease/reducer.ts]; the
      resource budget, its waiters and provider readiness, the ledger invariant
      ([ledger_inv]) and the abstract ledger steps ([ledger_step]).
    - [Traits.v]: [execution-traits.ts]; which effects may run together.
    - [Scheduler.v], [SchedulerProps.v], [SchedulerClaims.v]: [scheduler.ts] and
      [effects.ts]; one stage per block of [decideNextEffect], in source order.
      Class [CompletionPort] is what the scheduler asks of the completion guard.
    - [Work.v]: [work-scope.ts] and [domains/work/reducer.ts].
    - [Completion.v], [CompletionReducer.v], [CompletionProps.v],
      [CompletionClaims.v]: [completion.ts] and its reducer; the guard of the
      final answer, which is the instance [completionGuardPort] of that class.
    - [Verification.v], [VerificationClaims.v]: the verification reducer, its
      policy and its lifecycle.
    - [Intent.v], [IntentClaims.v]: the intent reducer; the calls the model asks
      for, their work lists and their transcript.
    - [Lifecycle.v], [LifecycleProps.v], [LifecycleClaims.v]: the lifecycle
      reducer; tasks, turns and plan documents.
    - [Interaction.v], [InteractionClaims.v]: the interaction reducer; what the
      user is shown and answers, and the queue of provider admissions.
    - [Capability.v], [CapabilityClaims.v]: the capability reducer; bindings,
      invocations, their sandbox and subagent evidence, skills.
    - [Context.v], [ContextClaims.v], [TranscriptClaims.v]: the context reducer;
      messages, model invocations, compaction and its restoration.
    - [Governance.v], [GovernanceClaims.v], [GovernanceBinding.v]:
      [tool-governance.ts] and [auto-review.ts]; whether a call may run, and the
      digest that binds an approval to one call.
    - [JsonParse.v], [JsonRoundtrip.v]: [JSON.parse], its round trip with
      [JSON.stringify] and the fuel it needs.
    - [Events.v], [Evidence.v], [Codec.v], [CodecClaims.v]: the table of
      [events.ts], the evidence validators of [invariants.ts] and [codec.ts].
    - [Invariants.v], [InvariantsClaims.v]: [invariants.ts]; the checker the host
      runs on every decision, over the whole state.
    - [PlanCommand.v], [PlanCommandClaims.v]: [plan-command.ts]; admission of the
      plan commands.
    - [PlanRuntime.v], [PlanRuntimeProps.v], [PlanRuntimeClaims.v]: the
      [update_plan] action of the service ([plan-runtime.ts]) and the facts the
      runtime host supplies ([kernel-adapter/plan-command.ts]).
    - [EffectAdmission.v], [EffectAdmissionClaims.v]: [effect-admission.ts]; the
      completion of batches that end calls and the checks of concurrent batches.
    - [Kernel.v], [Restart.v], [KernelClaims.v]: [kernel.ts] and [reducer.ts];
      [decide], [reduce], the fixed list of eleven reducers and the restart of a
      session.  Class [KernelPorts] is the two assertions the kernel asks of the
      event codec; its instance [codecPorts] is the codec of [Codec.v].

    ** How code becomes definitions

    An event is the JSON object it is at run time and is read field by field, as
    the reducers read it; a [switch] on the event type is a chain of tests on
    [ev_type].  The state is a typed record whose event-supplied payloads stay
    JSON.  A thrown error is a [Throw] with its message.  A history is a list of
    events folded over a state; in the ledger's histories an event that throws
    leaves the state as it was, as the caller discards it.  Texts are sequences
    of code units below 256, except in [Hash.v], where [utf8Bytes] ranges over all
    16-bit units.  Numbers are integers rounded to doubles (or [NaN]), so sums
    beyond [2^53] round as in the source; the one fraction the kernel computes, the
    reduction ratio of a compaction, is a binary64 number of its own; infinities and
    negative zero do not occur in the other fields modelled.  Objects keep insertion order; the
    language's reordering of integer-like keys and the inherited keys of
    [Object.prototype] are left out.

    ** What the theorems show

    - Authorization: every event refines the abstract queue machine; nothing is
      released or run without an event that authorizes that very waiter; settled
      approvals are final and running ones only settle; stale decisions do
      nothing; withdrawal and abort do what they promise; receipts are immutable;
      the focus is the least waiter; equal grant keys mean equal commands.
    - Ledger: for each additive quantity the exact sum of open upper bounds and
      reconciled usage never exceeds the limit in any history; admission by
      doubles equals admission by integers; reservations follow their lifecycle,
      one open per invocation; waiters are first come, first served; readiness
      attempts are bounded.
    - Scheduler: every dispatch is admissible, batches are pairwise compatible,
      an open interaction is a barrier and is presented, the final answer is
      guarded, runnable work progresses, and a decision is always reached.
    - Kernel: applied decisions extend the history contiguously, the journal is a
      bounded tail, redelivery is idempotent, an opening message opens the
      allocated task, and no decision loses or rewrites a message.
    - Checker: an accepted state is coherent in its tasks, tool lists, interaction,
      approvals, invocations and counters; a new session is accepted; on a ledger of
      the reducer the checker's sums are exact and it can object to the elapsed time
      only.
    - Codec: every admitted event passes the codec and is read back from its
      stored text; the types listed as not projected change nothing.
    - Lifecycle and plans: every event refines the plan machine; approval executes
      the document that was reviewed; documents stay valid; a completed plan is one
      the completion guard accepts; an admitted write fits the plan it names, and
      an admitted [update_plan] is realised by the events the service submits.
    - Interaction: plan reviews are settled once, and provider admissions stay
      consistent.
    - Capability and effect admission: invocations follow the dispatch protocol, a
      batch that ends a call settles its invocations, and the moments the kernel
      asks for are exactly those it needs.
    - Context: model invocations refine a bounded retry protocol, contexts survive
      restoration, and the guard of automatic compactions counts a window.
    - Governance: a call that runs has its gates open and a named authority, which
      an order-free specification characterises; an approval binds one call.
    - Normalization: the outcome of a call keeps to the terminal schema, and a
      replay of it changes nothing.
    - Recovery: in every history the journal stays well formed, admitted
      recovery stays within the policy's attempts, the root search of a failure
      chain ends, and a blocked chain is released only by progress.
    - Completion: the final answer ends only finished work, a blocked answer is
      corrected once and only once, and only a guarded event ends a task.
    - Verification: every event refines the lifecycle of a check; a required
      check passes only when it was earned.
    - Intent: an ended call is final, the work lists hold open calls, and the
      transcript reports endings in the order the calls were made.
    - Digests: [sha256HexBytes] is SHA-256; [utf8Bytes] decodes back.
    - Some theorems state behaviour that departs from what the code intends: the
      automatic review breaker that no approval resets, the unreachable replay
      branch of a waiter enqueue, a trailing lone surrogate, the array form of
      unknown access, the terminal outcome of a process limit, the call that a
      clock set back cannot end, the block of a failure chain lifted from outside of
      it, the uncertain shell call of full mode, the demand for the user in the form
      of a list, the count of event types, the elapsed time that the checker adds
      and the reducer does not, and the bound of the compaction history that is
      never tested.

    ** Bounds

    Three definitions run on fuel: the JSON parser, whose fuel is twice the length of
    the text and two ([parse_fuel] shows that more changes nothing), the walk to the root of a failure chain
    ([rootWalk]) and the closure of a root ([closureWalk]) of [Recovery.v]; the
    fuel is the number of failures of the journal and one or two more, and
    [root_search_terminates] and [closureWalk_spec] show that it never runs out.
    Every other loop is a fold or a structural recursion over a list.
    [scheduler_is_total] asks that the work lists fit in an array ([2^53 - 1]
    entries), [decisions_are_contiguous] that the revision stays below [2^53],
    where [+ 1] is exact.

    ** Not modelled

    The reading of stored states of this and older formats ([state-codec.ts],
    [state-migration.ts]) and the observability reports of the kernel.  The runtime host, storage, protocol, tools and user interfaces around
    the kernel are asynchronous code over I/O; of them only the [update_plan] action
    is modelled. *)

From stdpp Require Import prelude strings list.
From Stdlib Require Import ZArith Lia.

#[export] Set Default Proof Using "Type".

(** ** Results: a value or the message of a thrown [Error] *)

Inductive res (A : Type) : Type :=
| Ok (a : A)
| Throw (msg : string).
Arguments Ok {A} _.
Arguments Throw {A} _.

Definition res_bind {A B} (m : res A) (k : A -> res B) : res B :=
  match m with Ok a => k a | Throw e => Throw e end.

Definition res_ok {A} (m : res A) : bool :=
  match m with Ok _ => true | Throw _ => false end.

Declare Scope kite_scope.
Delimit Scope kite_scope with kite.
Open Scope kite_scope.

Notation "'let*' x ':=' m 'in' k" := (res_bind m (fun x => k))
  (at level 10, x name, m at level 100, k at level 200) : kite_scope.

(** [throw_if b msg] is [if (b) throw new Error(msg)]. *)
Definition throw_if (b : bool) (msg : string) : res unit :=
  if b then Throw msg else Ok tt.
Notation "'throw' msg 'when' b 'in' k" := (res_bind (throw_if b msg) (fun _ => k))
  (at level 10, msg at level 0, b at level 100, k at level 200) : kite_scope.

Fixpoint res_iter {A} (f : A -> res unit) (l : list A) : res unit :=
  match l with
  | [] => Ok tt
  | x :: l' => let* _ := f x in res_iter f l'
  end.

Fixpoint res_fold {A S} (f : S -> A -> res S) (l : list A) (s : S) : res S :=
  match l with
  | [] => Ok s
  | x :: l' => let* s' := f s x in res_fold f l' s'
  end.

Lemma bind_ok {A B} (m : res A) (k : A -> res B) b :
  res_bind m k = Ok b -> exists a, m = Ok a /\ k a = Ok b.
Proof. destruct m as [a|]; simpl; [by exists a | discriminate]. Qed.

(** A guard that let the body continue was false. *)
Lemma guard_ok {B} c msg (k : unit -> res B) b :
  res_bind (throw_if c msg) k = Ok b -> c = false /\ k tt = Ok b.
Proof. destruct c; simpl; [discriminate | done]. Qed.

(** ** Record update

    [r <| f := v |>] is the object spread [{ ...r, f: v }].  A record type
    provides its eta expansion; the setter of a field is found by abstracting
    the field's projection in it. *)

Class Eta (R : Type) := eta : R -> R.
Class Setter {R T : Type} (proj : R -> T) := set_field : (T -> T) -> R -> R.
Arguments set_field {R T} proj {_} _ _.

Ltac derive_setter :=
  match goal with
  | |- @Setter ?R ?T ?proj =>
      let f := fresh "f" in let r := fresh "r" in
      intros f r;
      let e := constr:(@eta R _ r) in
      let h := eval hnf in e in
      let b := eval cbv beta in (proj r) in
      match eval pattern b in h with
      | ?g _ => let t := eval cbv beta in (g (f b)) in exact t
      end
  end.
#[export] Hint Extern 1 (Setter _) => derive_setter : typeclass_instances.

Notation "r <| f := v |>" := (set_field f (fun _ => v) r)
  (at level 1, f at level 9, left associativity, format "r  <| f  :=  v |>") : kite_scope.

(** ** String equality as the source's [===] *)

Notation "a =s b" := (String.eqb a b) (at level 70, no associativity) : kite_scope.

Definition str_in (s : string) (l : list string) : bool := existsb (String.eqb s) l.

Definition str_nonempty (s : string) : bool :=
  match s with EmptyString => false | _ => true end.

(** JavaScript truthiness of an optional string. *)
Definition opt_nonempty (o : option string) : option string :=
  match o with Some s => if str_nonempty s then Some s else None | None => None end.

Definition opt_str_eqb (a b : option string) : bool :=
  match a, b with
  | Some x, Some y => x =s y
  | None, None => true
  | _, _ => false
  end.

Definition is_some {A} (o : option A) : bool := match o with Some _ => true | None => false end.

Lemma eqb_true (a b : string) : (a =s b) = true <-> a = b.
Proof. apply String.eqb_eq. Qed.

Lemma eqb_false (a b : string) : (a =s b) = false <-> a <> b.
Proof. apply String.eqb_neq. Qed.

Lemma eqb_refl (a : string) : (a =s a) = true.
Proof. apply String.eqb_refl. Qed.

Lemma str_in_true s l : str_in s l = true <-> In s l.
Proof.
  unfold str_in. rewrite existsb_exists. split.
  - intros (x & Hx & He). apply eqb_true in He. by subst.
  - intros Hs. exists s. split; [done | apply eqb_refl].
Qed.

Lemma opt_str_eqb_true a b : opt_str_eqb a b = true <-> a = b.
Proof.
  destruct a, b; simpl; try (split; [discriminate | congruence]); [| tauto].
  rewrite eqb_true. split; congruence.
Qed.

Lemma opt_nonempty_some o s : opt_nonempty o = Some s -> o = Some s /\ s <> ""%string.
Proof. destruct o as [[|]|]; simpl; intros H; inversion H; subst; done. Qed.

(** ** Insertion-ordered maps

    A JavaScript [Map], and a plain object used as a dictionary, remembers the
    order in which its keys were first set; setting a present key keeps its
    place. *)

Definition ordmap (A : Type) : Type := list (string * A).

Section OrdMap.
Context {A : Type}.
Implicit Types (m : ordmap A) (k : string) (v : A).

Fixpoint oget (k : string) (m : ordmap A) : option A :=
  match m with
  | [] => None
  | (k', v) :: m' => if k =s k' then Some v else oget k m'
  end.

Fixpoint oset (k : string) (v : A) (m : ordmap A) : ordmap A :=
  match m with
  | [] => [(k, v)]
  | (k', v') :: m' => if k =s k' then (k, v) :: m' else (k', v') :: oset k v m'
  end.

Definition odelete (k : string) (m : ordmap A) : ordmap A :=
  List.filter (fun '(k', _) => negb (k =s k')) m.

Definition ohas (k : string) (m : ordmap A) : bool := is_some (oget k m).
Definition okeys (m : ordmap A) : list string := List.map fst m.
Definition ovalues (m : ordmap A) : list A := List.map snd m.

Lemma oget_oset_eq m k v : oget k (oset k v m) = Some v.
Proof.
  induction m as [|[k' v'] m IH]; simpl.
  - by rewrite eqb_refl.
  - destruct (k =s k') eqn:E; simpl; [by rewrite eqb_refl | by rewrite E].
Qed.

Lemma oget_oset_ne m k k' v : k <> k' -> oget k (oset k' v m) = oget k m.
Proof.
  intros Hne. induction m as [|[k2 v2] m IH]; simpl.
  - apply eqb_false in Hne. by rewrite Hne.
  - destruct (k' =s k2) eqn:E; simpl.
    + apply eqb_true in E as <-. apply eqb_false in Hne. by rewrite Hne.
    + destruct (k =s k2); [done | apply IH].
Qed.

Lemma oget_oset m k k' v :
  oget k (oset k' v m) = if k =s k' then Some v else oget k m.
Proof.
  destruct (k =s k') eqn:E.
  - apply eqb_true in E as ->. apply oget_oset_eq.
  - apply oget_oset_ne. by apply eqb_false.
Qed.

Lemma oget_In m k v : oget k m = Some v -> In (k, v) m.
Proof.
  induction m as [|[k' v'] m IH]; simpl; [done|].
  destruct (k =s k') eqn:E; intros H.
  - apply eqb_true in E as ->. left. congruence.
  - right. by apply IH.
Qed.

Lemma In_oget m k v : NoDup (okeys m) -> In (k, v) m -> oget k m = Some v.
Proof.
  induction m as [|[k' v'] m IH]; simpl; [done|].
  intros Hnd [Heq|Hin].
  - injection Heq as -> ->. by rewrite eqb_refl.
  - apply NoDup_cons in Hnd as [Hni Hnd].
    destruct (k =s k') eqn:E; [|by apply IH].
    apply eqb_true in E as ->. exfalso. apply Hni.
    apply list_elem_of_In. apply in_map_iff. by exists (k', v).
Qed.

Lemma In_oset m k v k' v' :
  In (k', v') (oset k v m) -> (k' = k /\ v' = v) \/ In (k', v') m.
Proof.
  induction m as [|[k2 v2] m IH]; simpl.
  - intros [H|[]]. left. split; congruence.
  - destruct (k =s k2) eqn:E; simpl; intros [H|H].
    + left. split; congruence.
    + auto.
    + auto.
    + destruct (IH H); auto.
Qed.

Lemma okeys_oset_present m k v : ohas k m = true -> okeys (oset k v m) = okeys m.
Proof.
  unfold ohas. induction m as [|[k2 v2] m IH]; simpl; [done|].
  destruct (k =s k2) eqn:E; simpl; intros H.
  - apply eqb_true in E as ->. done.
  - f_equal. by apply IH.
Qed.

Lemma okeys_oset_absent m k v : ohas k m = false -> oset k v m = m ++ [(k, v)].
Proof.
  unfold ohas. induction m as [|[k2 v2] m IH]; simpl; [done|].
  destruct (k =s k2) eqn:E; simpl; intros H; [done|]. f_equal. by apply IH.
Qed.

Lemma oget_None_keys m k : oget k m = None <-> ~ In k (okeys m).
Proof.
  induction m as [|[k2 v2] m IH]; simpl; [tauto|].
  destruct (k =s k2) eqn:E.
  - apply eqb_true in E as ->. split; [done | intros H; exfalso; by apply H; left].
  - apply eqb_false in E. rewrite IH. intuition congruence.
Qed.

Lemma oget_odelete_ne m k k' : k <> k' -> oget k (odelete k' m) = oget k m.
Proof.
  intros Hne. unfold odelete. induction m as [|[k2 v2] m IH]; simpl; [done|].
  destruct (String.eqb_spec k' k2) as [->|Hk]; simpl.
  - rewrite (proj2 (eqb_false k k2) Hne). exact IH.
  - destruct (k =s k2); [done|exact IH].
Qed.

Lemma oset_NoDup m k v : NoDup (okeys m) -> NoDup (okeys (oset k v m)).
Proof.
  intros Hnd. destruct (ohas k m) eqn:E.
  - by rewrite okeys_oset_present.
  - rewrite okeys_oset_absent by done. unfold okeys. rewrite map_app. simpl.
    apply NoDup_app. split; [done|]. split; [|apply NoDup_singleton].
    intros x Hx Hx'. apply list_elem_of_singleton in Hx' as ->.
    unfold ohas in E. destruct (oget k m) eqn:E'; [done|].
    apply oget_None_keys in E'. apply E'. by apply list_elem_of_In.
Qed.

(** A predicate on every entry, the shape of the map invariants. *)
Definition oall (P : string -> A -> Prop) (m : ordmap A) : Prop :=
  forall k v, In (k, v) m -> P k v.

Lemma oall_nil P : oall P [].
Proof. intros k v []. Qed.

Lemma oall_oset P m k v : oall P m -> P k v -> oall P (oset k v m).
Proof. intros Hm Hk k' v' Hin. apply In_oset in Hin as [[-> ->]|Hin]; auto. Qed.

Lemma oall_oget P m k v : oall P m -> oget k m = Some v -> P k v.
Proof. intros Hm Hk. apply Hm. by apply oget_In. Qed.

Lemma oall_impl (P Q : string -> A -> Prop) m :
  (forall k v, P k v -> Q k v) -> oall P m -> oall Q m.
Proof. intros HPQ Hm k v Hin. auto. Qed.

Lemma In_ovalues m v : In v (ovalues m) <-> exists k, In (k, v) m.
Proof.
  unfold ovalues. rewrite in_map_iff. split.
  - intros ([k v'] & <- & Hin). by exists k.
  - intros [k Hin]. by exists (k, v).
Qed.
End OrdMap.

(** The loop invariant of [for (const x of l) s = f(s, x)]. *)
Lemma fold_left_inv {S B} (f : S -> B -> S) (P : S -> Prop) l s :
  P s -> (forall s x, In x l -> P s -> P (f s x)) -> P (fold_left f l s).
Proof.
  revert s. induction l as [|x l IH]; simpl; intros s Hs Hf; [done|].
  apply IH; [apply Hf; auto|]. intros s' y Hy. apply Hf. by right.
Qed.

Lemma res_fold_inv {S B} (f : S -> B -> res S) (P : S -> Prop) l s s' :
  P s -> (forall s x t, In x l -> P s -> f s x = Ok t -> P t) ->
  res_fold f l s = Ok s' -> P s'.
Proof.
  revert s. induction l as [|x l IH]; simpl; intros s Hs Hf H; [by injection H as <-|].
  destruct (f s x) as [t|] eqn:E; simpl in H; [|done].
  eapply IH; [eapply Hf; eauto| |exact H]. intros u y w Hy. apply Hf. by right.
Qed.

(** ** Automation *)

Create HintDb kite.
#[export] Hint Resolve oall_oset oall_nil oset_NoDup : kite.

(** Split a boolean guard [a && b = true] or [a || b = false] into its parts. *)
Ltac bool_hyps :=
  repeat match goal with
  | H : _ && _ = true |- _ => apply andb_true_iff in H as [? ?]
  | H : _ || _ = false |- _ => apply orb_false_iff in H as [? ?]
  | H : negb _ = true |- _ => apply negb_true_iff in H
  | H : negb _ = false |- _ => apply negb_false_iff in H
  | H : (_ =s _) = true |- _ => apply eqb_true in H
  | H : (_ =s _) = false |- _ => apply eqb_false in H
  | H : (_ <=? _)%Z = true |- _ => apply Z.leb_le in H
  | H : (_ <=? _)%Z = false |- _ => apply Z.leb_gt in H
  | H : (_ <? _)%Z = true |- _ => apply Z.ltb_lt in H
  | H : (_ <? _)%Z = false |- _ => apply Z.ltb_ge in H
  | H : (_ =? _)%Z = true |- _ => apply Z.eqb_eq in H
  | H : (_ =? _)%Z = false |- _ => apply Z.eqb_neq in H
  | H : opt_str_eqb _ _ = true |- _ => apply opt_str_eqb_true in H
  | H : bool_decide _ = true |- _ => apply bool_decide_eq_true in H
  | H : bool_decide _ = false |- _ => apply bool_decide_eq_false in H
  end.

(** Case analysis on the next condition or match the goal or a hypothesis is stuck on. *)
Ltac split_match :=
  match goal with
  | H : context [match ?x with _ => _ end] |- _ => destruct x eqn:?
  | |- context [match ?x with _ => _ end] => destruct x eqn:?
  end.

(** Run through the statements of a fallible body that returned [Ok]. *)
Ltac res_inv :=
  repeat match goal with
  | H : Throw _ = Ok _ |- _ => discriminate H
  | H : Ok _ = Ok _ |- _ => injection H as H; try subst
  | H : res_bind (throw_if ?b _) _ = Ok _ |- _ =>
      destruct b eqn:?; simpl in H; [discriminate H|]
  | H : res_bind ?m _ = Ok _ |- _ => destruct m eqn:?; simpl in H; [|discriminate H]
  end.
