(* ===== verification/Js.v ===== *)
(** * JavaScript values as the kernel reads them

    The kernel's events and the opaque parts of its state are JSON-shaped
    JavaScript values read through the accessors of
    [packages/agent-kernel/src/reducer-utils.ts].  This file models those
    values, the accessors, the arithmetic of integer-valued doubles, and the
    parts of the language's library the kernel uses: [JSON.stringify],
    [String], [trim], [Array.prototype.sort], [Date.parse].

    Conventions: a JavaScript string is a [string], one character per UTF-16
    code unit (so code units below 256); a number is an integer-valued double
    or [NaN] (event numbers are counters, byte and token counts, and
    milliseconds).  What the language leaves to the engine (non-ISO dates and
    the collation of [localeCompare]) is the class [JsHost]. *)

From S2P Require Import Prelude.
From stdpp Require Import prelude strings list pretty.
From Stdlib Require Import ZArith Lia Ascii.
Open Scope Z_scope.
Set Warnings "-register-all".

(** ** Numbers *)

Definition two53 : Z := 2 ^ 53.
Definition MAX_SAFE_INTEGER : Z := two53 - 1.

(** Rounding of an exact integer to the nearest double, ties to even.  (The
    overflow to infinity above [2^1024] is outside the model.) *)
Definition fl_pos (z : Z) : Z :=
  if z <=? two53 then z
  else
    let e := Z.log2 z - 52 in
    let q := Z.shiftr z e in
    let r := z - Z.shiftl q e in
    let h := Z.shiftl 1 (e - 1) in
    Z.shiftl (if (h <? r) || ((r =? h) && Z.odd q) then q + 1 else q) e.

Definition fl (z : Z) : Z := if z <? 0 then - fl_pos (- z) else fl_pos z.

(** [x + y] on doubles. *)
Definition fadd (x y : Z) : Z := fl (x + y).

Definition isSafeInteger (z : Z) : bool := (- MAX_SAFE_INTEGER <=? z) && (z <=? MAX_SAFE_INTEGER).

Inductive num : Type :=
| Fin (z : Z)
| NaN.

#[export] Instance num_eq_dec : EqDecision num.
Proof. solve_decision. Defined.

Definition nadd (x y : num) : num :=
  match x, y with Fin a, Fin b => Fin (fadd a b) | _, _ => NaN end.
Definition nmax (x y : num) : num :=
  match x, y with Fin a, Fin b => Fin (Z.max a b) | _, _ => NaN end.
(** Comparisons with [NaN] are false. *)
Definition nleb (x y : num) : bool :=
  match x, y with Fin a, Fin b => a <=? b | _, _ => false end.
Definition nltb (x y : num) : bool :=
  match x, y with Fin a, Fin b => a <? b | _, _ => false end.
Definition neqb (x y : num) : bool :=
  match x, y with Fin a, Fin b => a =? b | _, _ => false end.
Definition nfinite (x : num) : bool := match x with Fin _ => true | NaN => false end.

(** ** Values *)

Inductive val : Type :=
| VUndef
| VNull
| VBool (b : bool)
| VNum (n : num)
| VStr (s : string)
| VArr (l : list val)
| VObj (o : list (string * val)).

(** A plain object, in the order of its own keys. *)
Definition obj : Type := ordmap val.

(** [o.k], [undefined] when absent. *)
Definition get (o : obj) (k : string) : val :=
  match oget k o with Some v => v | None => VUndef end.

Definition truthy (v : val) : bool :=
  match v with
  | VUndef | VNull | VNum NaN => false
  | VBool b => b
  | VNum (Fin z) => negb (z =? 0)
  | VStr s => str_nonempty s
  | VArr _ | VObj _ => true
  end.

Definition is_undef (v : val) : bool := match v with VUndef => true | _ => false end.

(** [a ?? b]. *)
Definition nullish (a b : val) : val :=
  match a with VUndef | VNull => b | _ => a end.

Definition is_str (v : val) (s : string) : bool :=
  match v with VStr t => t =s s | _ => false end.
Definition is_true (v : val) : bool := match v with VBool b => b | _ => false end.
Definition is_false (v : val) : bool := match v with VBool b => negb b | _ => false end.
Definition is_num (v : val) (z : Z) : bool :=
  match v with VNum (Fin y) => y =? z | _ => false end.

(** [v === s] for an optional string field [s]. *)
Definition eq_opt_str (v : val) (s : option string) : bool :=
  match v, s with
  | VStr t, Some s => t =s s
  | VUndef, None => true
  | _, _ => false
  end.

Definition of_opt_str (o : option string) : val :=
  match o with Some s => VStr s | None => VUndef end.

(** *** The accessors of reducer-utils.ts *)

Definition isRecord (v : val) : option obj :=
  match v with VObj o => Some o | _ => None end.

(** [v != null && typeof v === 'object']: the fields of an object; an array has
    none of the named ones. *)
Definition asObject (v : val) : option obj :=
  match v with VObj o => Some o | VArr _ => Some [] | _ => None end.

(** Total view of a value as an object, [{}] when it is not one ([jsonRecord]). *)
Definition jsonRecord (v : val) : obj := match v with VObj o => o | _ => [] end.

Definition stringField (o : obj) (f : string) : option string :=
  match get o f with VStr s => Some s | _ => None end.

Definition nonEmptyStringField (o : obj) (f : string) : option string :=
  opt_nonempty (stringField o f).

Definition numberField (o : obj) (f : string) : option Z :=
  match get o f with VNum (Fin z) => Some z | _ => None end.

Definition booleanField (o : obj) (f : string) : option bool :=
  match get o f with VBool b => Some b | _ => None end.

Definition recordField (o : obj) (f : string) : option obj := isRecord (get o f).

Definition arrayField (o : obj) (f : string) : option (list val) :=
  match get o f with VArr l => Some l | _ => None end.

(** The discriminant of an event object. *)
Definition ev_type (e : obj) : string :=
  match stringField e "type" with Some t => t | None => "" end.

(** [const { type: _type, ...data } = event]. *)
Definition eventData (e : obj) : obj := odelete "type" e.

(** [values.filter((c) => c !== value)], then [push(value)] when [present]. *)
Definition replaceStringInList (values : list string) (value : string) (present : bool)
  : list string :=
  let next := List.filter (fun c => negb (c =s value)) values in
  if present then next ++ [value] else next.

(** [numberField] followed by [Number.isSafeInteger] and a lower bound of 0. *)
Definition safeNatural (o : obj) (f : string) : option Z :=
  match numberField o f with
  | Some z => if isSafeInteger z && (0 <=? z) then Some z else None
  | None => None
  end.

(** ** Strings *)

Definition chr (n : nat) : string := String (ascii_of_nat n) "".
Definition dquote : string := chr 34.

Definition hex_digit (z : Z) : ascii :=
  if z <? 10 then ascii_of_nat (48 + Z.to_nat z) else ascii_of_nat (87 + Z.to_nat z).

(** One character of a JSON string literal. *)
Definition json_char (c : ascii) : string :=
  let n := nat_of_ascii c in
  match n with
  | 34%nat => chr 92 +:+ chr 34
  | 92%nat => chr 92 +:+ chr 92
  | 8%nat => chr 92 +:+ "b"
  | 9%nat => chr 92 +:+ "t"
  | 10%nat => chr 92 +:+ "n"
  | 12%nat => chr 92 +:+ "f"
  | 13%nat => chr 92 +:+ "r"
  | _ =>
      if (n <? 32)%nat
      then chr 92 +:+ "u00" +:+ String (hex_digit (Z.of_nat n / 16)) ""
             +:+ String (hex_digit (Z.of_nat n mod 16)) ""
      else String c ""
  end.

Fixpoint json_chars (s : string) : string :=
  match s with
  | EmptyString => ""
  | String c s' => json_char c +:+ json_chars s'
  end.

(** [JSON.stringify] of a string. *)
Definition json_quote (s : string) : string := dquote +:+ json_chars s +:+ dquote.

Definition js_join (sep : string) (l : list string) : string := String.concat sep l.

(** [JSON.stringify]: [None] for [undefined]. *)
Fixpoint json_stringify (v : val) : option string :=
  match v with
  | VUndef => None
  | VNull => Some "null"
  | VBool b => Some (if b then "true" else "false")
  | VNum (Fin z) => Some (pretty z)
  | VNum NaN => Some "null"
  | VStr s => Some (json_quote s)
  | VArr l =>
      Some ("[" +:+ js_join "," (List.map (fun x => match json_stringify x with
                                            | Some s => s | None => "null" end) l) +:+ "]")
  | VObj o =>
      Some ("{" +:+ js_join ","
        ((fix fields (o : list (string * val)) : list string :=
            match o with
            | [] => []
            | (k, x) :: o' =>
                match json_stringify x with
                | Some s => (json_quote k +:+ ":" +:+ s) :: fields o'
                | None => fields o'
                end
            end) o) +:+ "}")
  end.

(** JSON values are finite trees, so the ancestor set of the source never
    rejects one; [NaN] and [undefined] are refused. *)
Fixpoint isCanonicalJsonValue (value : val) : bool :=
  match value with
  | VUndef => false
  | VNull | VStr _ | VBool _ => true
  | VNum n => nfinite n
  | VArr l => forallb isCanonicalJsonValue l
  | VObj o =>
      (fix fields (o : list (string * val)) : bool :=
         match o with
         | [] => true
         | (_, x) :: o' => isCanonicalJsonValue x && fields o'
         end) o
  end.

(** [String(value)]. *)
Fixpoint js_string (v : val) : string :=
  match v with
  | VUndef => "undefined"
  | VNull => "null"
  | VBool b => if b then "true" else "false"
  | VNum (Fin z) => pretty z
  | VNum NaN => "NaN"
  | VStr s => s
  | VArr l => js_join "," (List.map (fun x => match x with
                                    | VUndef | VNull => ""
                                    | _ => js_string x end) l)
  | VObj _ => "[object Object]"
  end.

(** [Array.prototype.sort] on strings: stable, by code units. *)
Definition str_leb (a b : string) : bool :=
  match String.compare a b with Gt => false | _ => true end.

Fixpoint insert_by {A} (le : A -> A -> bool) (x : A) (l : list A) : list A :=
  match l with
  | [] => [x]
  | y :: l' => if le x y then x :: l else y :: insert_by le x l'
  end.

Definition sort_by {A} (le : A -> A -> bool) (l : list A) : list A :=
  List.fold_right (insert_by le) [] l.

Definition sort_strings (l : list string) : list string := sort_by str_leb l.

(** [trim]: white space and line terminators among the code units below 256. *)
Definition is_ws (c : ascii) : bool :=
  let n := nat_of_ascii c in
  ((9 <=? n)%nat && (n <=? 13)%nat) || (n =? 32)%nat || (n =? 160)%nat.

Fixpoint drop_ws (l : list ascii) : list ascii :=
  match l with c :: l' => if is_ws c then drop_ws l' else l | [] => [] end.

Definition trim (s : string) : string :=
  String.string_of_list_ascii (rev (drop_ws (rev (drop_ws (String.list_ascii_of_string s))))).

(** [/^[a-f0-9]{64}$/u.test(s)]. *)
Definition is_lower_hex (c : ascii) : bool :=
  let n := nat_of_ascii c in
  ((48 <=? n)%nat && (n <=? 57)%nat) || ((97 <=? n)%nat && (n <=? 102)%nat).

Definition isHex64 (s : string) : bool :=
  (String.length s =? 64)%nat && forallb is_lower_hex (String.list_ascii_of_string s).

(** ** Dates *)

(** What the engine, not the language, determines. *)
Class JsHost := {
  (** [Date.parse] outside the ISO form [YYYY-MM-DDTHH:mm:ss(.sss)?Z]. *)
  engineDateParse : string -> num;
  (** [String.prototype.localeCompare] of the ambient collation. *)
  localeCompare : string -> string -> comparison;
  (** [Number] of a text that is not a decimal integer. *)
  engineToNumber : string -> num
}.

Definition digit (c : ascii) : option Z :=
  let n := nat_of_ascii c in
  if (48 <=? n)%nat && (n <=? 57)%nat then Some (Z.of_nat n - 48) else None.

Fixpoint digits (n : nat) (acc : Z) (l : list ascii) : option (Z * list ascii) :=
  match n with
  | O => Some (acc, l)
  | S n' =>
      match l with
      | c :: l' => match digit c with Some d => digits n' (acc * 10 + d) l' | None => None end
      | [] => None
      end
  end.

(** [Number(v)]. *)
Definition js_number `{JsHost} (v : val) : num :=
  let text s :=
    let l := String.list_ascii_of_string (trim s) in
    match l with
    | [] => Fin 0
    | _ => match digits (length l) 0 l with
           | Some (z, _) => Fin (fl z)
           | None => engineToNumber s
           end
    end in
  match v with
  | VNum n => n
  | VUndef => NaN
  | VNull => Fin 0
  | VBool b => Fin (if b then 1 else 0)
  | VStr s => text s
  | _ => text (js_string v)
  end.

Definition expect (c : ascii) (l : list ascii) : option (list ascii) :=
  match l with c' :: l' => if Ascii.eqb c c' then Some l' else None | [] => None end.

Record IsoFields := {
  iso_year : Z; iso_month : Z; iso_day : Z;
  iso_hour : Z; iso_minute : Z; iso_second : Z; iso_milli : Z }.

(** The fields of a string matched by
    [/^\d{4}-\d{2}-\d{2}T\d{2}:\d{2}:\d{2}(?:\.\d{3})?Z$/u]. *)
Definition iso_fields (s : string) : option IsoFields :=
  '(y, l) ← digits 4 0 (String.list_ascii_of_string s); l ← expect "-" l;
  '(mo, l) ← digits 2 0 l; l ← expect "-" l;
  '(d, l) ← digits 2 0 l; l ← expect "T" l;
  '(h, l) ← digits 2 0 l; l ← expect ":" l;
  '(mi, l) ← digits 2 0 l; l ← expect ":" l;
  '(sec, l) ← digits 2 0 l;
  '(ms, l) ← (match expect "." l with Some l' => digits 3 0 l' | None => Some (0, l) end);
  l ← expect "Z" l;
  match l with
  | [] => Some (Build_IsoFields y mo d h mi sec ms)
  | _ => None
  end.

Definition leap (y : Z) : bool :=
  ((y mod 4 =? 0) && negb (y mod 100 =? 0)) || (y mod 400 =? 0).

Definition days_in_month (y m : Z) : Z :=
  if m =? 2 then (if leap y then 29 else 28)
  else if (m =? 4) || (m =? 6) || (m =? 9) || (m =? 11) then 30 else 31.

(** Days from 1970-01-01 of a proleptic Gregorian date. *)
Definition days_from_civil (y m d : Z) : Z :=
  let y' := if m <=? 2 then y - 1 else y in
  let era := y' / 400 in
  let yoe := y' - era * 400 in
  let mp := (m + 9) mod 12 in
  let doy := (153 * mp + 2) / 5 + d - 1 in
  let doe := yoe * 365 + yoe / 4 - yoe / 100 + doy in
  era * 146097 + doe - 719468.

Definition iso_in_range (f : IsoFields) : bool :=
  (1 <=? iso_month f) && (iso_month f <=? 12) &&
  (1 <=? iso_day f) && (iso_day f <=? days_in_month (iso_year f) (iso_month f)) &&
  (iso_hour f <=? 23) && (iso_minute f <=? 59) && (iso_second f <=? 59).

Definition iso_millis (f : IsoFields) : Z :=
  ((days_from_civil (iso_year f) (iso_month f) (iso_day f) * 24 + iso_hour f) * 60
   + iso_minute f) * 60000 + iso_second f * 1000 + iso_milli f.

(** [Date.parse]. *)
Definition dateParse `{JsHost} (s : string) : num :=
  match iso_fields s with
  | Some f => if iso_in_range f then Fin (iso_millis f) else engineDateParse s
  | None => engineDateParse s
  end.

Example dateParse_epoch `{JsHost} : dateParse "1970-01-01T00:00:00.000Z" = Fin 0.
Proof. reflexivity. Qed.

Example dateParse_leap `{JsHost} : dateParse "2024-02-29T12:30:15.250Z" = Fin 1709209815250.
Proof. reflexivity. Qed.

(** ** Lemmas on double arithmetic *)

Lemma fl_pos_small z : z <= two53 -> fl_pos z = z.
Proof. intros Hz. unfold fl_pos. apply Z.leb_le in Hz. by rewrite Hz. Qed.

(** Doubles are exact up to [2^53]. *)
Lemma fl_exact z : - two53 <= z <= two53 -> fl z = z.
Proof.
  intros Hz. unfold fl. destruct (z <? 0) eqn:E; bool_hyps.
  - rewrite fl_pos_small by lia. lia.
  - apply fl_pos_small. lia.
Qed.

Lemma fl_pos_large z : two53 < z -> two53 <= fl_pos z.
Proof.
  intros Hz. unfold fl_pos. destruct (z <=? two53) eqn:E; bool_hyps; [lia|].
  assert (Hl : 53 <= Z.log2 z).
  { change 53 with (Z.log2 two53). apply Z.log2_le_mono. lia. }
  set (e := Z.log2 z - 52). assert (He : 1 <= e) by (unfold e; lia).
  assert (Hq : 2 ^ 52 <= Z.shiftr z e).
  { rewrite Z.shiftr_div_pow2 by lia. apply Z.div_le_lower_bound; [lia|].
    rewrite <- Z.pow_add_r by lia. unfold e.
    replace (Z.log2 z - 52 + 52) with (Z.log2 z) by lia.
    apply Z.log2_spec. unfold two53 in *. lia. }
  assert (Hs : forall q, 2 ^ 52 <= q -> two53 <= Z.shiftl q e).
  { intros q Hq'. rewrite Z.shiftl_mul_pow2 by lia.
    assert (2 <= 2 ^ e). { change 2 with (2 ^ 1) at 1. apply Z.pow_le_mono_r; lia. }
    unfold two53. change (2 ^ 53) with (2 ^ 52 * 2). nia. }
  destruct (_ || _); apply Hs; lia.
Qed.

(** Rounding never moves a sum across the safe-integer range: a rounded value
    below [2^53] is exact. *)
Lemma fl_below z : fl z < two53 -> z < two53.
Proof.
  intros Hz. unfold fl in Hz. destruct (z <? 0) eqn:E; bool_hyps.
  - unfold two53. lia.
  - destruct (Z.lt_ge_cases two53 z); [|].
    + pose proof (fl_pos_large z). lia.
    + rewrite fl_pos_small in Hz by lia. done.
Qed.

Lemma fl_nonneg z : 0 <= z -> 0 <= fl z.
Proof.
  intros Hz. destruct (Z.le_gt_cases z two53).
  - rewrite fl_exact; unfold two53 in *; lia.
  - unfold fl. destruct (z <? 0) eqn:E; bool_hyps; [lia|].
    pose proof (fl_pos_large z). unfold two53 in *. lia.
Qed.

(** A double sum of non-negative integers that is at most a safe integer is the
    exact sum. *)
Lemma fadd_le_exact x y m :
  0 <= x -> 0 <= y -> m <= MAX_SAFE_INTEGER -> fadd x y <= m -> fadd x y = x + y /\ x + y <= m.
Proof.
  unfold fadd, MAX_SAFE_INTEGER. intros Hx Hy Hm H.
  assert (x + y < two53) by (apply fl_below; lia).
  rewrite fl_exact in H |- *; unfold two53 in *; lia.
Qed.

Lemma isSafeInteger_true z :
  isSafeInteger z = true <-> - MAX_SAFE_INTEGER <= z <= MAX_SAFE_INTEGER.
Proof. unfold isSafeInteger. rewrite andb_true_iff, !Z.leb_le. tauto. Qed.

(** At the edge of the safe range the successor is absorbed. *)
Example fadd_absorbs : fadd two53 1 = two53.
Proof. reflexivity. Qed.

Lemma fadd_succ z : 0 <= z < two53 -> fadd z 1 = z + 1.
Proof. intros Hz. unfold fadd. apply fl_exact. lia. Qed.

(** Counters advance by one up to [2^53] and stay there. *)
Lemma fadd_succ_range z : 0 <= z <= two53 -> z <= fadd z 1 <= two53.
Proof.
  intros Hz. destruct (Z.eq_dec z two53) as [->|]; [rewrite fadd_absorbs; lia|].
  rewrite fadd_succ; lia.
Qed.

(** ** Lemmas on the accessors *)

Lemma get_oset_ne o k k' v : k <> k' -> get (oset k' v o) k = get o k.
Proof. intros. unfold get. by rewrite oget_oset_ne. Qed.

Lemma get_oset_eq o k v : get (oset k v o) k = v.
Proof. unfold get. by rewrite oget_oset_eq. Qed.

Lemma stringField_of o f s : get o f = VStr s -> stringField o f = Some s.
Proof. unfold stringField. by intros ->. Qed.

Lemma stringField_some o f s : stringField o f = Some s -> get o f = VStr s.
Proof. unfold stringField. destruct (get o f); congruence. Qed.

Lemma nonEmptyStringField_some o f s :
  nonEmptyStringField o f = Some s -> get o f = VStr s /\ s <> ""%string.
Proof.
  intros H. apply opt_nonempty_some in H as [H ?]. by apply stringField_some in H.
Qed.

Lemma numberField_some o f z : numberField o f = Some z -> get o f = VNum (Fin z).
Proof. unfold numberField. destruct (get o f) as [| | |[]| | |]; congruence. Qed.

Lemma safeNatural_some o f z :
  safeNatural o f = Some z -> get o f = VNum (Fin z) /\ 0 <= z <= MAX_SAFE_INTEGER.
Proof.
  unfold safeNatural. destruct (numberField o f) as [y|] eqn:E; [|done].
  destruct (_ && _) eqn:E2; [|done]. intros [= <-]. bool_hyps.
  apply numberField_some in E. apply isSafeInteger_true in H. split; [done|lia].
Qed.

Lemma is_str_true v s : is_str v s = true <-> v = VStr s.
Proof.
  destruct v; simpl; try (split; [discriminate | congruence]).
  rewrite eqb_true. split; congruence.
Qed.

Lemma is_true_true v : is_true v = true <-> v = VBool true.
Proof. destruct v as [| |[]| | | |]; simpl; split; congruence. Qed.

Lemma eq_opt_str_true v s : eq_opt_str v s = true <-> v = of_opt_str s.
Proof.
  destruct v, s; simpl; try (split; [discriminate | congruence]); [tauto|].
  rewrite eqb_true. split; congruence.
Qed.

Lemma In_replaceStringInList l s p x :
  In x (replaceStringInList l s p) <-> (In x l /\ x <> s) \/ (p = true /\ x = s).
Proof.
  assert (Hf : In x (List.filter (fun c => negb (c =s s)) l) <-> In x l /\ x <> s).
  { rewrite filter_In, negb_true_iff, eqb_false. tauto. }
  unfold replaceStringInList. destruct p.
  - rewrite in_app_iff, Hf. simpl. intuition congruence.
  - rewrite Hf. intuition congruence.
Qed.

#[export] Hint Resolve stringField_some nonEmptyStringField_some numberField_some : kite.

(** ** Tails of arrays *)

(** [slice(-n)]. *)
Definition sliceTail {A} (n : nat) (l : list A) : list A := drop (length l - n) l.

Lemma sliceTail_length {A} n (l : list A) : (length (sliceTail n l) <= n)%nat.
Proof. unfold sliceTail. rewrite length_drop. lia. Qed.

Lemma sliceTail_short {A} n (l : list A) : (length l <= n)%nat -> sliceTail n l = l.
Proof. intros Hl. unfold sliceTail. by replace (length l - n)%nat with 0%nat by lia. Qed.

Lemma sliceTail_app {A} n (l k : list A) : sliceTail n (sliceTail n l ++ k) = sliceTail n (l ++ k).
Proof.
  unfold sliceTail. rewrite !length_app, length_drop.
  rewrite <- drop_app_le by lia. rewrite drop_drop. f_equal. lia.
Qed.
