(* ===== verification/Hash.v ===== *)
(** * The kernel's SHA-256 ([packages/agent-kernel/src/hash.ts])

    [sha256HexBytes] and [utf8Bytes] are translated with JavaScript's signed
    32-bit bit operations.  [HashCorrect] proves them against FIPS 180-4 and
    RFC 3629. *)

From S2P Require Import Prelude Js.
From stdpp Require Import prelude strings list.
From Stdlib Require Import ZArith Lia Ascii.
Open Scope Z_scope.

(** ** JavaScript's 32-bit operators *)

Definition toUint32 (z : Z) : Z := z mod 2 ^ 32.
Definition toInt32 (z : Z) : Z := (z + 2 ^ 31) mod 2 ^ 32 - 2 ^ 31.
Definition js_shl (a n : Z) : Z := toInt32 (Z.shiftl (toInt32 a) n).
Definition js_shru (a n : Z) : Z := Z.shiftr (toUint32 a) n.
Definition js_or (a b : Z) : Z := Z.lor (toInt32 a) (toInt32 b).
Definition js_and (a b : Z) : Z := Z.land (toInt32 a) (toInt32 b).
Definition js_xor (a b : Z) : Z := Z.lxor (toInt32 a) (toInt32 b).
Definition js_not (a : Z) : Z := Z.lnot (toInt32 a).

(** ** Constants *)

Definition K : list Z := List.concat [
  [0x428a2f98; 0x71374491; 0xb5c0fbcf; 0xe9b5dba5; 0x3956c25b; 0x59f111f1; 0x923f82a4; 0xab1c5ed5];
  [0xd807aa98; 0x12835b01; 0x243185be; 0x550c7dc3; 0x72be5d74; 0x80deb1fe; 0x9bdc06a7; 0xc19bf174];
  [0xe49b69c1; 0xefbe4786; 0x0fc19dc6; 0x240ca1cc; 0x2de92c6f; 0x4a7484aa; 0x5cb0a9dc; 0x76f988da];
  [0x983e5152; 0xa831c66d; 0xb00327c8; 0xbf597fc7; 0xc6e00bf3; 0xd5a79147; 0x06ca6351; 0x14292967];
  [0x27b70a85; 0x2e1b2138; 0x4d2c6dfc; 0x53380d13; 0x650a7354; 0x766a0abb; 0x81c2c92e; 0x92722c85];
  [0xa2bfe8a1; 0xa81a664b; 0xc24b8b70; 0xc76c51a3; 0xd192e819; 0xd6990624; 0xf40e3585; 0x106aa070];
  [0x19a4c116; 0x1e376c08; 0x2748774c; 0x34b0bcb5; 0x391c0cb3; 0x4ed8aa4a; 0x5b9cca4f; 0x682e6ff3];
  [0x748f82ee; 0x78a5636f; 0x84c87814; 0x8cc70208; 0x90befffa; 0xa4506ceb; 0xbef9a3f7; 0xc67178f2]].

Definition INITIAL : list Z := [
  0x6a09e667; 0xbb67ae85; 0x3c6ef372; 0xa54ff53a; 0x510e527f; 0x9b05688c; 0x1f83d9ab; 0x5be0cd19].

(** ** UTF-8 of a sequence of UTF-16 code units *)

Fixpoint utf8Bytes (value : list Z) : list Z :=
  match value with
  | [] => []
  | code :: rest =>
      if code <? 0x80 then code :: utf8Bytes rest
      else if code <? 0x800 then
        js_or 0xc0 (js_shru code 6) :: js_or 0x80 (js_and code 0x3f) :: utf8Bytes rest
      else
        let replacement tail := 0xef :: 0xbf :: 0xbd :: tail in
        match rest with
        | low :: rest' =>
            if (0xd800 <=? code) && (code <=? 0xdbff) then
              if (0xdc00 <=? low) && (low <=? 0xdfff) then
                let scalar := 0x10000 + js_shl (code - 0xd800) 10 + (low - 0xdc00) in
                js_or 0xf0 (js_shru scalar 18)
                :: js_or 0x80 (js_and (js_shru scalar 12) 0x3f)
                :: js_or 0x80 (js_and (js_shru scalar 6) 0x3f)
                :: js_or 0x80 (js_and scalar 0x3f)
                :: utf8Bytes rest'
              else replacement (utf8Bytes rest)
            else if (0xdc00 <=? code) && (code <=? 0xdfff) then replacement (utf8Bytes rest)
            else
              js_or 0xe0 (js_shru code 12) :: js_or 0x80 (js_and (js_shru code 6) 0x3f)
              :: js_or 0x80 (js_and code 0x3f) :: utf8Bytes rest
        | [] =>
            if (0xdc00 <=? code) && (code <=? 0xdfff) then replacement []
            else
              [js_or 0xe0 (js_shru code 12); js_or 0x80 (js_and (js_shru code 6) 0x3f);
               js_or 0x80 (js_and code 0x3f)]
        end
  end.

(** ** The digest *)

Definition rotr (value amount : Z) : Z :=
  js_or (js_shru value amount) (js_shl value (32 - amount)).

(** [while (bytes.length % 64 !== 56) bytes.push(0)]. *)
Fixpoint pad_zeros (fuel : nat) (bytes : list Z) : list Z :=
  if Z.of_nat (length bytes) mod 64 =? 56 then bytes
  else match fuel with O => bytes | S fuel' => pad_zeros fuel' (bytes ++ [0]) end.

(** Padding: the marker, the zeros, the 64-bit length. At most 63 zeros. *)
Definition pad (input : list Z) : list Z :=
  let bitLength := Z.of_nat (length input) * 8 in
  let bytes := pad_zeros 64 (input ++ [0x80]) in
  bytes ++ List.map (fun shift => js_and (bitLength / 2 ^ shift) 0xff)
                    [56; 48; 40; 32; 24; 16; 8; 0].

(** [schedule[i]] for the first 16 words of a block. *)
Definition block_word (block : list Z) (index : nat) : Z :=
  let b i := nth (index * 4 + i) block 0 in
  toUint32 (js_or (js_or (js_or (js_shl (b 0%nat) 24) (js_shl (b 1%nat) 16))
                         (js_shl (b 2%nat) 8)) (b 3%nat)).

Definition schedule_step (schedule : list Z) : list Z :=
  let index := length schedule in
  let valueA := nth (index - 15) schedule 0 in
  let valueB := nth (index - 2) schedule 0 in
  let sigma0 := js_xor (js_xor (rotr valueA 7) (rotr valueA 18)) (js_shru valueA 3) in
  let sigma1 := js_xor (js_xor (rotr valueB 17) (rotr valueB 19)) (js_shru valueB 10) in
  schedule ++ [toUint32 (nth (index - 16) schedule 0 + sigma0
                         + nth (index - 7) schedule 0 + sigma1)].

Definition schedule_of (block : list Z) : list Z :=
  Nat.iter 48 schedule_step (List.map (block_word block) (seq 0 16)).

Record Regs := mkRegs { ra : Z; rb : Z; rc : Z; rd : Z; re : Z; rf : Z; rg : Z; rh : Z }.

Definition round (schedule : list Z) (r : Regs) (index : nat) : Regs :=
  let sigma1 := js_xor (js_xor (rotr (re r) 6) (rotr (re r) 11)) (rotr (re r) 25) in
  let choose := js_xor (js_and (re r) (rf r)) (js_and (js_not (re r)) (rg r)) in
  let temp1 := toUint32 (rh r + sigma1 + choose + nth index K 0 + nth index schedule 0) in
  let sigma0 := js_xor (js_xor (rotr (ra r) 2) (rotr (ra r) 13)) (rotr (ra r) 22) in
  let majority :=
    js_xor (js_xor (js_and (ra r) (rb r)) (js_and (ra r) (rc r))) (js_and (rb r) (rc r)) in
  let temp2 := toUint32 (sigma0 + majority) in
  mkRegs (toUint32 (temp1 + temp2)) (ra r) (rb r) (rc r)
         (toUint32 (rd r + temp1)) (re r) (rf r) (rg r).

Definition regs_of (h : list Z) : Regs :=
  mkRegs (nth 0 h 0) (nth 1 h 0) (nth 2 h 0) (nth 3 h 0)
         (nth 4 h 0) (nth 5 h 0) (nth 6 h 0) (nth 7 h 0).

Definition compress (hash block : list Z) : list Z :=
  let r := fold_left (round (schedule_of block)) (seq 0 64) (regs_of hash) in
  let h i := nth i hash 0 in
  [toUint32 (h 0%nat + ra r); toUint32 (h 1%nat + rb r); toUint32 (h 2%nat + rc r);
   toUint32 (h 3%nat + rd r); toUint32 (h 4%nat + re r); toUint32 (h 5%nat + rf r);
   toUint32 (h 6%nat + rg r); toUint32 (h 7%nat + rh r)].

(** The block loop [for (offset = 0; offset < bytes.length; offset += 64)]. *)
Fixpoint digest_blocks (fuel : nat) (bytes hash : list Z) : list Z :=
  match fuel with
  | O => hash
  | S fuel' =>
      match bytes with
      | [] => hash
      | _ => digest_blocks fuel' (drop 64 bytes) (compress hash (take 64 bytes))
      end
  end.

Definition sha256_words (input : list Z) : list Z :=
  let bytes := pad input in digest_blocks (length bytes) bytes INITIAL.

(** [word.toString(16)] of a non-negative integer. *)
Fixpoint hex_go (fuel : nat) (z : Z) (acc : string) : string :=
  match fuel with
  | O => acc
  | S fuel' =>
      let acc' := String (hex_digit (z mod 16)) acc in
      if z / 16 =? 0 then acc' else hex_go fuel' (z / 16) acc'
  end.
Definition hex_string (z : Z) : string := hex_go 16 z "".

Fixpoint zeros (n : nat) : string :=
  match n with O => "" | S n' => String "0" (zeros n') end.
Definition padStart8 (s : string) : string := zeros (8 - String.length s) +:+ s.

Definition sha256HexBytes (input : list Z) : string :=
  js_join "" (List.map (fun word => padStart8 (hex_string word)) (sha256_words input)).

Definition code_units (s : string) : list Z :=
  List.map (fun c => Z.of_nat (nat_of_ascii c)) (String.list_ascii_of_string s).

Definition sha256Hex (value : string) : string := sha256HexBytes (utf8Bytes (code_units value)).

Example sha256_abc :
  sha256Hex "abc" = "ba7816bf8f01cfea414140de5dae2223b00361a396177a9cb410ff61f20015ad"%string.
Proof. vm_compute. reflexivity. Qed.

Example sha256_empty :
  sha256Hex "" = "e3b0c44298fc1c149afbf4c8996fb92427ae41e4649b934ca495991b7852b855"%string.
Proof. vm_compute. reflexivity. Qed.
