(* ===== verification/State.v ===== *)
(** * The State 27 record ([packages/agent-kernel/src/state.ts])

    Typed records for the parts of the state the kernel builds itself, JSON
    objects ([obj]) for the parts it stores as it received them.  Enumerated
    string unions are inductive types.  A JavaScript dictionary or [Map] is an
    insertion-ordered map. *)

From S2P Require Import Prelude Js.
From stdpp Require Import prelude strings list.
From Stdlib Require Import ZArith Lia SpecFloat.
Open Scope Z_scope.

(** ** Enumerations *)

Inductive InteractionMode : Set :=
| accept_edits | auto | full.
#[export] Instance InteractionMode_eq_dec : EqDecision InteractionMode.
Proof. solve_decision. Defined.

Inductive AgentApprovalRoute : Set :=
| route_user | route_auto.
#[export] Instance AgentApprovalRoute_eq_dec : EqDecision AgentApprovalRoute.
Proof. solve_decision. Defined.

Inductive AgentApprovalStatus : Set :=
| queued_auto | auto_reviewing | authorized_queued | queued_user | awaiting_user | approving | running | succeeded | failed | cancelled | rejected | expired.
#[export] Instance AgentApprovalStatus_eq_dec : EqDecision AgentApprovalStatus.
Proof. solve_decision. Defined.

Inductive AuthorizationSource : Set :=
| mode_full | src_approve_once | src_same_command.
#[export] Instance AuthorizationSource_eq_dec : EqDecision AuthorizationSource.
Proof. solve_decision. Defined.

Inductive DispatchState : Set :=
| before_dispatch | dispatch_acked | dispatch_unknown.
#[export] Instance DispatchState_eq_dec : EqDecision DispatchState.
Proof. solve_decision. Defined.

Inductive ApprovalGrant : Set :=
| approve_once | same_command.
#[export] Instance ApprovalGrant_eq_dec : EqDecision ApprovalGrant.
Proof. solve_decision. Defined.

Inductive ReceiptStatus : Set :=
| rcpt_authorized_queued | rcpt_running | rcpt_terminal | rcpt_unknown.
#[export] Instance ReceiptStatus_eq_dec : EqDecision ReceiptStatus.
Proof. solve_decision. Defined.

Inductive ToolCallStatus : Set :=
| t_queued | t_awaiting_user_input | t_awaiting_review | t_awaiting_approval | t_awaiting_auto_review | t_approved | t_authorized_queued | t_running | t_succeeded | t_failed | t_rejected | t_cancelled | t_exhausted.
#[export] Instance ToolCallStatus_eq_dec : EqDecision ToolCallStatus.
Proof. solve_decision. Defined.

Inductive EffectClass : Set :=
| read_only | plan_only | workspace_write | external_side_effect | effect_unknown.
#[export] Instance EffectClass_eq_dec : EqDecision EffectClass.
Proof. solve_decision. Defined.

Inductive TurnStatus : Set :=
| turn_active | turn_completed | turn_aborted.
#[export] Instance TurnStatus_eq_dec : EqDecision TurnStatus.
Proof. solve_decision. Defined.

Inductive TaskStatus : Set :=
| task_active | task_completed | task_cancelled.
#[export] Instance TaskStatus_eq_dec : EqDecision TaskStatus.
Proof. solve_decision. Defined.

Inductive ReadinessStatus : Set :=
| rd_prepared | rd_attempted | rd_ready | rd_failed.
#[export] Instance ReadinessStatus_eq_dec : EqDecision ReadinessStatus.
Proof. solve_decision. Defined.

Inductive ApprovalRisk : Set :=
| risk_read | risk_plan | risk_write_file | risk_execute_code | risk_destructive | risk_network | risk_vcs_mutation | risk_mcp | risk_unknown.
#[export] Instance ApprovalRisk_eq_dec : EqDecision ApprovalRisk.
Proof. solve_decision. Defined.

Inductive RecoveryFailureStatus : Set :=
| rf_unresolved | rf_recovered | rf_exhausted.
#[export] Instance RecoveryFailureStatus_eq_dec : EqDecision RecoveryFailureStatus.
Proof. solve_decision. Defined.

Inductive RecoveryReason : Set :=
| no_progress | journal_invalid.
#[export] Instance RecoveryReason_eq_dec : EqDecision RecoveryReason.
Proof. solve_decision. Defined.

Inductive RecoveryResolution : Set :=
| rs_recovered | rs_terminal | rs_next_response_elapsed | rs_task_closed | rs_turn_closed | rs_skipped | rs_replanned | rs_user_action | rs_provider_revision.
#[export] Instance RecoveryResolution_eq_dec : EqDecision RecoveryResolution.
Proof. solve_decision. Defined.

(** ** Records *)

Record AgentToolApprovalPayload := mkAgentToolApprovalPayload {
  ap_scope : string;
  ap_callId : option string;
  ap_cwd : string;
  ap_threadId : string;
  ap_tool : string;
  ap_command : string;
  ap_risk : ApprovalRisk;
  ap_approvalHash : string;
  ap_summary : string;
  ap_reason : string;
  ap_expectedEffects : list string;
  ap_grantOptions : list ApprovalGrant;
  ap_recommendedGrant : ApprovalGrant;
  ap_plan : option val;
  ap_subagentId : option string;
  ap_reviewFailure : option string }.
#[export] Instance AgentToolApprovalPayload_eta : Eta AgentToolApprovalPayload := fun r =>
  mkAgentToolApprovalPayload (r.(ap_scope)) (r.(ap_callId)) (r.(ap_cwd)) (r.(ap_threadId)) (r.(ap_tool)) (r.(ap_command)) (r.(ap_risk)) (r.(ap_approvalHash)) (r.(ap_summary)) (r.(ap_reason)) (r.(ap_expectedEffects)) (r.(ap_grantOptions)) (r.(ap_recommendedGrant)) (r.(ap_plan)) (r.(ap_subagentId)) (r.(ap_reviewFailure)).

Record AgentApprovalCommandIdentity := mkAgentApprovalCommandIdentity {
  ci_sessionId : string;
  ci_threadId : string;
  ci_workspace : string;
  ci_canonicalWorkspaceIdentity : string;
  ci_cwd : string;
  ci_executor : string;
  ci_environment : string;
  ci_scope : string;
  ci_effects : string;
  ci_parserRevision : string;
  ci_executorRevision : option string;
  ci_commandDigest : string }.
#[export] Instance AgentApprovalCommandIdentity_eta : Eta AgentApprovalCommandIdentity := fun r =>
  mkAgentApprovalCommandIdentity (r.(ci_sessionId)) (r.(ci_threadId)) (r.(ci_workspace)) (r.(ci_canonicalWorkspaceIdentity)) (r.(ci_cwd)) (r.(ci_executor)) (r.(ci_environment)) (r.(ci_scope)) (r.(ci_effects)) (r.(ci_parserRevision)) (r.(ci_executorRevision)) (r.(ci_commandDigest)).

Record AgentPendingApproval := mkAgentPendingApproval {
  interactionId : string;
  toolCallId : string;
  parentToolCallId : option string;
  childSubagentId : option string;
  childToolCallId : option string;
  runtimeToolCallId : option string;
  route : AgentApprovalRoute;
  fullModeBypassEligible : bool;
  fullModePolicyBypassAllowed : bool;
  bindingDigest : string;
  approval : AgentToolApprovalPayload;
  invocation : obj;
  commandIdentity : option AgentApprovalCommandIdentity;
  commandKey : option string;
  approvalHash : option string;
  sequence : Z;
  generation : Z;
  createdAt : string;
  status : AgentApprovalStatus;
  receiptId : option string;
  authorizationSource : option AuthorizationSource;
  dispatchState : option DispatchState }.
#[export] Instance AgentPendingApproval_eta : Eta AgentPendingApproval := fun r =>
  mkAgentPendingApproval (r.(interactionId)) (r.(toolCallId)) (r.(parentToolCallId)) (r.(childSubagentId)) (r.(childToolCallId)) (r.(runtimeToolCallId)) (r.(route)) (r.(fullModeBypassEligible)) (r.(fullModePolicyBypassAllowed)) (r.(bindingDigest)) (r.(approval)) (r.(invocation)) (r.(commandIdentity)) (r.(commandKey)) (r.(approvalHash)) (r.(sequence)) (r.(generation)) (r.(createdAt)) (r.(status)) (r.(receiptId)) (r.(authorizationSource)) (r.(dispatchState)).

(** The identity fields of the source's flat record are kept together. *)
Record AgentSessionCommandGrant := mkAgentSessionCommandGrant {
  g_grant : ApprovalGrant;
  g_grantKey : string;
  g_identity : AgentApprovalCommandIdentity;
  g_createdAt : string;
  g_generation : Z }.
#[export] Instance AgentSessionCommandGrant_eta : Eta AgentSessionCommandGrant := fun r =>
  mkAgentSessionCommandGrant (r.(g_grant)) (r.(g_grantKey)) (r.(g_identity)) (r.(g_createdAt)) (r.(g_generation)).

Record AgentApprovalReceipt := mkAgentApprovalReceipt {
  rc_receiptId : string;
  rc_interactionId : string;
  rc_toolCallId : string;
  rc_generation : Z;
  rc_grant : ApprovalGrant;
  rc_status : ReceiptStatus;
  rc_dispatchState : option DispatchState }.
#[export] Instance AgentApprovalReceipt_eta : Eta AgentApprovalReceipt := fun r =>
  mkAgentApprovalReceipt (r.(rc_receiptId)) (r.(rc_interactionId)) (r.(rc_toolCallId)) (r.(rc_generation)) (r.(rc_grant)) (r.(rc_status)) (r.(rc_dispatchState)).

Record AgentToolCallState := mkAgentToolCallState {
  tc_toolCallId : string;
  tc_name : string;
  tc_displayLabel : option string;
  tc_modelMessageId : string;
  tc_args : val;
  tc_modelInvocationId : option string;
  tc_ordinal : option Z;
  tc_createdAtTurnId : string;
  tc_taskId : option string;
  tc_queuedAt : option string;
  tc_startedAt : option string;
  tc_approvalRequestedAt : option string;
  tc_approvalWaitMs : option Z;
  tc_invocationFingerprint : option string;
  tc_recoveryOf : option string;
  tc_recoveryMode : option string;
  tc_recoveryAdmission : option string;
  tc_result : option obj;
  tc_error : option string;
  tc_failure : option obj;
  tc_outcome : option obj;
  tc_bindingId : option string;
  tc_capabilityId : option string;
  tc_capabilityRevision : option string;
  tc_unknownFields : option obj;
  tc_approvalHash : option string;
  tc_approvalGrant : option ApprovalGrant;
  tc_effectClass : option EffectClass;
  tc_sideEffect : option bool;
  tc_classificationReason : option string;
  tc_presentation : option string;
  tc_networkDecisions : option (list obj);
  tc_status : ToolCallStatus }.
#[export] Instance AgentToolCallState_eta : Eta AgentToolCallState := fun r =>
  mkAgentToolCallState (r.(tc_toolCallId)) (r.(tc_name)) (r.(tc_displayLabel)) (r.(tc_modelMessageId)) (r.(tc_args)) (r.(tc_modelInvocationId)) (r.(tc_ordinal)) (r.(tc_createdAtTurnId)) (r.(tc_taskId)) (r.(tc_queuedAt)) (r.(tc_startedAt)) (r.(tc_approvalRequestedAt)) (r.(tc_approvalWaitMs)) (r.(tc_invocationFingerprint)) (r.(tc_recoveryOf)) (r.(tc_recoveryMode)) (r.(tc_recoveryAdmission)) (r.(tc_result)) (r.(tc_error)) (r.(tc_failure)) (r.(tc_outcome)) (r.(tc_bindingId)) (r.(tc_capabilityId)) (r.(tc_capabilityRevision)) (r.(tc_unknownFields)) (r.(tc_approvalHash)) (r.(tc_approvalGrant)) (r.(tc_effectClass)) (r.(tc_sideEffect)) (r.(tc_classificationReason)) (r.(tc_presentation)) (r.(tc_networkDecisions)) (r.(tc_status)).

Record AgentToolsState := mkAgentToolsState {
  calls : ordmap AgentToolCallState;
  queue : list string;
  active : list string }.
#[export] Instance AgentToolsState_eta : Eta AgentToolsState := fun r =>
  mkAgentToolsState (r.(calls)) (r.(queue)) (r.(active)).

(** The plan document is the JSON object validated by the completion guard. *)
Inductive PlanningState : Type :=
| building_without_plan
| planning_empty
| planning_draft (document : obj) (revisionFeedback : option string)
| replanning_draft (document : obj) (supersedesPlanVersion : Z) (replanReason : string)
                   (revisionFeedback : option string)
| plan_awaiting_review (document : obj) (interactionId exitToolCallId : string)
| plan_executing (document : obj) (executionMode : InteractionMode) (approvedAtTurnId : string)
| plan_completed (document : obj) (completedAtTurnId : string)
| plan_cancelled (document : option obj) (reason cancelledAtTurnId : string).

Record AgentTaskState := mkAgentTaskState {
  task_taskId : string;
  task_userGoal : string;
  task_status : TaskStatus;
  task_startedAtTurnId : string;
  task_completedAtTurnId : option string;
  task_sideEffectsStarted : bool;
  task_planning : PlanningState;
  task_executionMode : option InteractionMode;
  task_planHistory : list obj }.
#[export] Instance AgentTaskState_eta : Eta AgentTaskState := fun r =>
  mkAgentTaskState (r.(task_taskId)) (r.(task_userGoal)) (r.(task_status)) (r.(task_startedAtTurnId)) (r.(task_completedAtTurnId)) (r.(task_sideEffectsStarted)) (r.(task_planning)) (r.(task_executionMode)) (r.(task_planHistory)).

Record AgentSessionState := mkAgentSessionState {
  threadId : string;
  userId : string;
  workspace : string;
  projectId : option string;
  canonicalWorkspaceDigest : option string }.
#[export] Instance AgentSessionState_eta : Eta AgentSessionState := fun r =>
  mkAgentSessionState (r.(threadId)) (r.(userId)) (r.(workspace)) (r.(projectId)) (r.(canonicalWorkspaceDigest)).

Record AgentTurnState := mkAgentTurnState {
  turnId : string;
  turnIndex : Z;
  turn_status : TurnStatus;
  abortReason : option string;
  abortCause : option string }.
#[export] Instance AgentTurnState_eta : Eta AgentTurnState := fun r =>
  mkAgentTurnState (r.(turnId)) (r.(turnIndex)) (r.(turn_status)) (r.(abortReason)) (r.(abortCause)).

Record AgentTranscriptState := mkAgentTranscriptState {
  messages : list obj;
  final : option string }.
#[export] Instance AgentTranscriptState_eta : Eta AgentTranscriptState := fun r =>
  mkAgentTranscriptState (r.(messages)) (r.(final)).

(** A finished automatic compaction; the ratio is a double. *)
Record ContextAutoGuardEntry := mkContextAutoGuardEntry {
  ge_turnIndex : Z;
  ge_reductionRatio : spec_float;
  ge_tokensAfter : Z }.

Record ContextAutoGuard := mkContextAutoGuard {
  recentAutomaticCompactions : list ContextAutoGuardEntry;
  consecutiveLowGain : Z;
  disabledUntilManualAction : bool;
  recoveryAttempted : bool }.
#[export] Instance ContextAutoGuard_eta : Eta ContextAutoGuard := fun r =>
  mkContextAutoGuard (r.(recentAutomaticCompactions)) (r.(consecutiveLowGain)) (r.(disabledUntilManualAction)) (r.(recoveryAttempted)).

Record AgentContextState := mkAgentContextState {
  activeCheckpoint : option obj;
  pendingCompaction : option obj;
  lastFailure : option obj;
  history : list obj;
  lastCompactionTurnIndex : option Z;
  hardBlock : option obj;
  autoGuard : ContextAutoGuard }.
#[export] Instance AgentContextState_eta : Eta AgentContextState := fun r =>
  mkAgentContextState (r.(activeCheckpoint)) (r.(pendingCompaction)) (r.(lastFailure)) (r.(history)) (r.(lastCompactionTurnIndex)) (r.(hardBlock)) (r.(autoGuard)).

Inductive AgentInteractionState : Type :=
| idle
| awaiting_user_input (interactionId toolCallId : string) (request : obj)
| awaiting_review (interactionId toolCallId planId : string) (version : Z)
                  (structuralDigest : string) (plan : obj) (planSummary : string)
                  (artifact : option obj)
| awaiting_tool_approval (interactionId toolCallId : string) (approval : AgentToolApprovalPayload)
| awaiting_auto_review (interactionId toolCallId toolName reason : string)
                       (approval : AgentToolApprovalPayload)
| awaiting_provider_action (interactionId providerId action originatingToolCallId status : string)
| awaiting_provider_admission (interactionId providerId source providerStatus : string)
                              (diagnosticCode : option string) (retryable : bool).

Inductive AgentRecoveryState : Type :=
| recovery_normal
| recovery_corrupted (reason : string)
| recovery_incompatible (schemaVersion : option Z) (formatEpoch : option string).

Record ResourceCounters := mkResourceCounters {
  turns : num;
  modelRequests : num;
  toolInvocations : num;
  inputTokens : num;
  outputTokens : num;
  artifactBytes : num }.
#[export] Instance ResourceCounters_eta : Eta ResourceCounters := fun r =>
  mkResourceCounters (r.(turns)) (r.(modelRequests)) (r.(toolInvocations)) (r.(inputTokens)) (r.(outputTokens)) (r.(artifactBytes)).

Record ResourceGauges := mkResourceGauges {
  elapsedRunMs : num;
  activeSubagents : num;
  activeWriters : num;
  activeToolInvocations : num;
  activeShellInvocations : num }.
#[export] Instance ResourceGauges_eta : Eta ResourceGauges := fun r =>
  mkResourceGauges (r.(elapsedRunMs)) (r.(activeSubagents)) (r.(activeWriters)) (r.(activeToolInvocations)) (r.(activeShellInvocations)).

(** A usage record; its numbers are doubles. *)
Record ResourceUsage := mkResourceUsage {
  counters : ResourceCounters;
  gauges : ResourceGauges;
  usage_source : string;
  estimatorVersion : option string }.
#[export] Instance ResourceUsage_eta : Eta ResourceUsage := fun r =>
  mkResourceUsage (r.(counters)) (r.(gauges)) (r.(usage_source)) (r.(estimatorVersion)).

(** Budget, reservations and waiters are the JSON objects the events carried. *)
Record AgentResourceBudgetActiveState := mkAgentResourceBudgetActiveState {
  rb_runId : string;
  rb_startedAt : string;
  rb_deadlineAt : string;
  rb_budget : obj;
  rb_reconciledUsage : ResourceUsage;
  rb_reservations : ordmap obj;
  rb_waiters : ordmap obj;
  rb_nextWaiterSequence : Z }.
#[export] Instance AgentResourceBudgetActiveState_eta : Eta AgentResourceBudgetActiveState := fun r =>
  mkAgentResourceBudgetActiveState (r.(rb_runId)) (r.(rb_startedAt)) (r.(rb_deadlineAt)) (r.(rb_budget)) (r.(rb_reconciledUsage)) (r.(rb_reservations)) (r.(rb_waiters)) (r.(rb_nextWaiterSequence)).

Inductive AgentResourceBudgetState : Type :=
| budget_unconfigured
| budget_active (b : AgentResourceBudgetActiveState).

Record AgentProviderReadinessWaiterState := mkAgentProviderReadinessWaiterState {
  rw_waiterId : string;
  rw_toolCallId : string;
  rw_registeredAt : string }.
#[export] Instance AgentProviderReadinessWaiterState_eta : Eta AgentProviderReadinessWaiterState := fun r =>
  mkAgentProviderReadinessWaiterState (r.(rw_waiterId)) (r.(rw_toolCallId)) (r.(rw_registeredAt)).

Record AgentProviderReadinessState := mkAgentProviderReadinessState {
  rd_readinessKey : string;
  rd_lifecycleId : string;
  rd_providerId : string;
  rd_routeRevision : string;
  rd_executionBoundaryDigest : string;
  rd_status : ReadinessStatus;
  rd_requestedAt : string;
  rd_expiresAt : string;
  rd_maxAttempts : num;
  rd_attempts : num;
  rd_waiters : ordmap AgentProviderReadinessWaiterState;
  rd_readyAt : option string;
  rd_providerDirectoryRevision : option string;
  rd_failure : val;
  rd_dispatchCertainty : option string }.
#[export] Instance AgentProviderReadinessState_eta : Eta AgentProviderReadinessState := fun r =>
  mkAgentProviderReadinessState (r.(rd_readinessKey)) (r.(rd_lifecycleId)) (r.(rd_providerId)) (r.(rd_routeRevision)) (r.(rd_executionBoundaryDigest)) (r.(rd_status)) (r.(rd_requestedAt)) (r.(rd_expiresAt)) (r.(rd_maxAttempts)) (r.(rd_attempts)) (r.(rd_waiters)) (r.(rd_readyAt)) (r.(rd_providerDirectoryRevision)) (r.(rd_failure)) (r.(rd_dispatchCertainty)).

Record PlanIdentity := mkPlanIdentity {
  pi_planId : string;
  pi_version : Z;
  pi_structuralDigest : string }.
#[export] Instance PlanIdentity_eta : Eta PlanIdentity := fun r =>
  mkPlanIdentity (r.(pi_planId)) (r.(pi_version)) (r.(pi_structuralDigest)).

Record AgentCompletionGuardState := mkAgentCompletionGuardState {
  correctionAttempts : Z;
  guardVersion : option string;
  planIdentity : option PlanIdentity }.
#[export] Instance AgentCompletionGuardState_eta : Eta AgentCompletionGuardState := fun r =>
  mkAgentCompletionGuardState (r.(correctionAttempts)) (r.(guardVersion)) (r.(planIdentity)).

Record AgentRunTerminalOutcome := mkAgentRunTerminalOutcome {
  to_status : string;
  to_reasonCode : string;
  to_knownExternalEffects : string;
  to_safeRetry : bool;
  to_recoveryEntry : string;
  to_pendingVerification : bool }.
#[export] Instance AgentRunTerminalOutcome_eta : Eta AgentRunTerminalOutcome := fun r =>
  mkAgentRunTerminalOutcome (r.(to_status)) (r.(to_reasonCode)) (r.(to_knownExternalEffects)) (r.(to_safeRetry)) (r.(to_recoveryEntry)) (r.(to_pendingVerification)).

Record ToolRecoveryFailure := mkToolRecoveryFailure {
  rf_failureInstanceId : string;
  rf_toolCallId : string;
  rf_toolName : string;
  rf_invocationFingerprint : string;
  rf_modelMessageId : string;
  rf_taskId : option string;
  rf_turnId : option string;
  rf_eligibleAfterModelMessageId : option string;
  rf_eligibleModelMessageId : option string;
  rf_eligibleToolCallId : option string;
  rf_status : RecoveryFailureStatus;
  rf_resolution : option RecoveryResolution;
  rf_outcome : obj;
  rf_modelCorrectionAttempts : Z;
  rf_automaticRetryAttempts : Z;
  rf_progressRevision : Z }.
#[export] Instance ToolRecoveryFailure_eta : Eta ToolRecoveryFailure := fun r =>
  mkToolRecoveryFailure (r.(rf_failureInstanceId)) (r.(rf_toolCallId)) (r.(rf_toolName)) (r.(rf_invocationFingerprint)) (r.(rf_modelMessageId)) (r.(rf_taskId)) (r.(rf_turnId)) (r.(rf_eligibleAfterModelMessageId)) (r.(rf_eligibleModelMessageId)) (r.(rf_eligibleToolCallId)) (r.(rf_status)) (r.(rf_resolution)) (r.(rf_outcome)) (r.(rf_modelCorrectionAttempts)) (r.(rf_automaticRetryAttempts)) (r.(rf_progressRevision)).

Record ToolRecoveryQualityGuard := mkToolRecoveryQualityGuard {
  qg_blocked : bool;
  qg_reasonCode : option RecoveryReason;
  qg_observedFailures : Z;
  qg_taskId : option string;
  qg_turnId : option string }.
#[export] Instance ToolRecoveryQualityGuard_eta : Eta ToolRecoveryQualityGuard := fun r =>
  mkToolRecoveryQualityGuard (r.(qg_blocked)) (r.(qg_reasonCode)) (r.(qg_observedFailures)) (r.(qg_taskId)) (r.(qg_turnId)).

Record ToolRecoveryJournal := mkToolRecoveryJournal {
  j_identityKey : string;
  j_failures : ordmap ToolRecoveryFailure;
  j_order : list string;
  j_progressRevision : Z;
  j_qualityGuard : ToolRecoveryQualityGuard }.
#[export] Instance ToolRecoveryJournal_eta : Eta ToolRecoveryJournal := fun r =>
  mkToolRecoveryJournal (r.(j_identityKey)) (r.(j_failures)) (r.(j_order)) (r.(j_progressRevision)) (r.(j_qualityGuard)).

Record AgentCapabilityRuntimeState := mkAgentCapabilityRuntimeState {
  cap_catalogRevision : string;
  cap_bindings : ordmap obj;
  cap_disclosures : ordmap obj;
  cap_pendingSearch : option obj;
  cap_loadedCapabilities : ordmap obj;
  cap_invocations : ordmap obj }.
#[export] Instance AgentCapabilityRuntimeState_eta : Eta AgentCapabilityRuntimeState := fun r =>
  mkAgentCapabilityRuntimeState (r.(cap_catalogRevision)) (r.(cap_bindings)) (r.(cap_disclosures)) (r.(cap_pendingSearch)) (r.(cap_loadedCapabilities)) (r.(cap_invocations)).

Record AgentSkillRuntimeState := mkAgentSkillRuntimeState {
  sk_catalogRevision : string;
  sk_frames : ordmap obj }.
#[export] Instance AgentSkillRuntimeState_eta : Eta AgentSkillRuntimeState := fun r =>
  mkAgentSkillRuntimeState (r.(sk_catalogRevision)) (r.(sk_frames)).

Record AgentProviderAdmissionState := mkAgentProviderAdmissionState {
  pa_pending : list obj;
  pa_waivers : ordmap obj }.
#[export] Instance AgentProviderAdmissionState_eta : Eta AgentProviderAdmissionState := fun r =>
  mkAgentProviderAdmissionState (r.(pa_pending)) (r.(pa_waivers)).

Record AgentAutoReviewRejectionEntry := mkAgentAutoReviewRejectionEntry {
  rej_timestamp : Z;
  rej_toolName : string;
  rej_reason : string }.
#[export] Instance AgentAutoReviewRejectionEntry_eta : Eta AgentAutoReviewRejectionEntry := fun r =>
  mkAgentAutoReviewRejectionEntry (r.(rej_timestamp)) (r.(rej_toolName)) (r.(rej_reason)).

Record AgentAutoReviewState := mkAgentAutoReviewState {
  pendingWarnings : ordmap string;
  consecutiveRejects : Z;
  rejectionHistory : list AgentAutoReviewRejectionEntry;
  circuitBreakerTripped : bool }.
#[export] Instance AgentAutoReviewState_eta : Eta AgentAutoReviewState := fun r =>
  mkAgentAutoReviewState (r.(pendingWarnings)) (r.(consecutiveRejects)) (r.(rejectionHistory)) (r.(circuitBreakerTripped)).

Record AgentDoomLoopRecord := mkAgentDoomLoopRecord {
  dl_count : Z;
  dl_lastSeenAt : Z }.
#[export] Instance AgentDoomLoopRecord_eta : Eta AgentDoomLoopRecord := fun r =>
  mkAgentDoomLoopRecord (r.(dl_count)) (r.(dl_lastSeenAt)).

(** The complete record. [verification] is the [records] dictionary of the source's wrapper. *)
Record AgentState := mkAgentState {
  activeTaskId : option string;
  tasks : ordmap AgentTaskState;
  schemaVersion : Z;
  formatEpoch : string;
  revision : Z;
  lastAppliedEventId : option string;
  appliedEventIds : list string;
  recoveryState : AgentRecoveryState;
  session : AgentSessionState;
  turn : AgentTurnState;
  transcript : AgentTranscriptState;
  context : AgentContextState;
  resourceBudget : AgentResourceBudgetState;
  modelInvocations : ordmap obj;
  providerReadiness : ordmap AgentProviderReadinessState;
  terminalOutcome : option AgentRunTerminalOutcome;
  completionGuard : AgentCompletionGuardState;
  interactions : AgentInteractionState;
  tools : AgentToolsState;
  toolRecovery : ToolRecoveryJournal;
  capabilities : AgentCapabilityRuntimeState;
  skills : AgentSkillRuntimeState;
  verification : ordmap obj;
  providerAdmission : AgentProviderAdmissionState;
  suspendedSubagents : ordmap obj;
  mode : InteractionMode;
  interactionModeRevision : Z;
  workspaceAccess : string;
  autoReview : AgentAutoReviewState;
  doomLoop : ordmap AgentDoomLoopRecord;
  pendingApprovals : ordmap AgentPendingApproval;
  activeApprovalId : option string;
  nextQueueSequence : Z;
  approvalGeneration : Z;
  sessionCommandGrants : ordmap AgentSessionCommandGrant;
  approvalReceipts : ordmap AgentApprovalReceipt }.
#[export] Instance AgentState_eta : Eta AgentState := fun r =>
  mkAgentState (r.(activeTaskId)) (r.(tasks)) (r.(schemaVersion)) (r.(formatEpoch)) (r.(revision)) (r.(lastAppliedEventId)) (r.(appliedEventIds)) (r.(recoveryState)) (r.(session)) (r.(turn)) (r.(transcript)) (r.(context)) (r.(resourceBudget)) (r.(modelInvocations)) (r.(providerReadiness)) (r.(terminalOutcome)) (r.(completionGuard)) (r.(interactions)) (r.(tools)) (r.(toolRecovery)) (r.(capabilities)) (r.(skills)) (r.(verification)) (r.(providerAdmission)) (r.(suspendedSubagents)) (r.(mode)) (r.(interactionModeRevision)) (r.(workspaceAccess)) (r.(autoReview)) (r.(doomLoop)) (r.(pendingApprovals)) (r.(activeApprovalId)) (r.(nextQueueSequence)) (r.(approvalGeneration)) (r.(sessionCommandGrants)) (r.(approvalReceipts)).

(** ** Constants, selectors, constructor *)

Definition RUNTIME_STATE_SCHEMA_VERSION : Z := 27.
Definition RUNTIME_STATE_FORMAT_EPOCH : string := "kite-runtime-saq-v2-2026-09-05".
Definition APPLIED_EVENT_ID_TAIL_LIMIT : nat := 4096.

(** [state.tasks[id]] for a possibly null identity; the empty string is falsy. *)
Definition getActiveTask (state : AgentState) : option AgentTaskState :=
  match opt_nonempty (activeTaskId state) with
  | Some id => oget id (tasks state)
  | None => None
  end.

Definition getActivePlanning (state : AgentState) : PlanningState :=
  match getActiveTask state with
  | Some t => task_planning t
  | None => building_without_plan
  end.

Definition getEffectiveInteractionMode (state : AgentState) : InteractionMode :=
  match getActiveTask state with
  | Some t => match task_executionMode t with Some m => m | None => mode state end
  | None => mode state
  end.

Record CreateAgentStateInput := {
  in_threadId : string; in_userId : string; in_workspace : string;
  in_projectId : option string; in_canonicalWorkspaceDigest : option string;
  in_turnId : string; in_recoveryIdentityKey : string;
  in_interactionMode : option InteractionMode; in_workspaceAccess : option string }.

Definition createInitialAgentState (input : CreateAgentStateInput) : res AgentState :=
  throw "State constructor requires non-empty Host session and turn facts."
    when negb (str_nonempty (in_threadId input)) || negb (str_nonempty (in_userId input))
      || negb (str_nonempty (in_workspace input)) || negb (str_nonempty (in_turnId input)) in
  throw "State tool recovery recoveryIdentityKey must be a 64-character lowercase hex value."
    when negb (isHex64 (in_recoveryIdentityKey input)) in
  Ok {|
    activeTaskId := None; tasks := [];
    schemaVersion := RUNTIME_STATE_SCHEMA_VERSION; formatEpoch := RUNTIME_STATE_FORMAT_EPOCH;
    revision := 0; lastAppliedEventId := None; appliedEventIds := [];
    recoveryState := recovery_normal;
    session := {| threadId := in_threadId input; userId := in_userId input;
                  workspace := in_workspace input;
                  projectId := opt_nonempty (in_projectId input);
                  canonicalWorkspaceDigest := opt_nonempty (in_canonicalWorkspaceDigest input) |};
    turn := {| turnId := in_turnId input; turnIndex := 0; turn_status := turn_active;
               abortReason := None; abortCause := None |};
    transcript := {| messages := []; final := None |};
    context := {| activeCheckpoint := None; pendingCompaction := None; lastFailure := None;
                  history := []; lastCompactionTurnIndex := None; hardBlock := None;
                  autoGuard := {| recentAutomaticCompactions := []; consecutiveLowGain := 0;
                                  disabledUntilManualAction := false;
                                  recoveryAttempted := false |} |};
    resourceBudget := budget_unconfigured; modelInvocations := []; providerReadiness := [];
    terminalOutcome := None;
    completionGuard := {| correctionAttempts := 0; guardVersion := None; planIdentity := None |};
    interactions := idle;
    tools := {| calls := []; queue := []; active := [] |};
    toolRecovery := {| j_identityKey := in_recoveryIdentityKey input; j_failures := [];
                       j_order := []; j_progressRevision := 0;
                       j_qualityGuard := {| qg_blocked := false; qg_reasonCode := None;
                                            qg_observedFailures := 0; qg_taskId := None;
                                            qg_turnId := None |} |};
    capabilities := {| cap_catalogRevision := ""; cap_bindings := []; cap_disclosures := [];
                       cap_pendingSearch := None; cap_loadedCapabilities := [];
                       cap_invocations := [] |};
    skills := {| sk_catalogRevision := ""; sk_frames := [] |};
    verification := [];
    providerAdmission := {| pa_pending := []; pa_waivers := [] |};
    suspendedSubagents := [];
    mode := match in_interactionMode input with Some m => m | None => accept_edits end;
    interactionModeRevision := 0;
    workspaceAccess := match in_workspaceAccess input with Some a => a | None => "write" end;
    autoReview := {| pendingWarnings := []; consecutiveRejects := 0; rejectionHistory := [];
                     circuitBreakerTripped := false |};
    doomLoop := []; pendingApprovals := []; activeApprovalId := None; nextQueueSequence := 0;
    approvalGeneration := 0; sessionCommandGrants := []; approvalReceipts := [] |}.

(** ** State updates of reducer-utils.ts *)

Definition updateTasks (state : AgentState) (taskId : string)
    (update : option AgentTaskState -> AgentTaskState) : AgentState :=
  let current := oget taskId (tasks state) in
  state <| tasks := oset taskId (update current) (tasks state) |>.

Definition updateToolCall (state : AgentState) (toolCallId : string)
    (update : option AgentToolCallState -> option AgentToolCallState) : AgentState :=
  match update (oget toolCallId (calls (tools state))) with
  | None => state
  | Some next =>
      state <| tools := (tools state) <| calls := oset toolCallId next (calls (tools state)) |> |>
  end.

(** Transient facts of one reducer pass. *)
Record AgentReducerFacts := {
  allocatedTaskId : option string;
  verificationSchemaAdmissions : val }.
