(* ===== verification/Sample.v ===== *)
(** * A sample session

    The engine and the initial state the concrete instances of the theorems are
    evaluated on. *)

From S2P Require Import Prelude Js State.
From stdpp Require Import prelude strings list.
From Stdlib Require Import ZArith.
Open Scope Z_scope.

(** An engine for the witnesses: no dates beyond ISO, code-unit collation. *)
Definition host0 : JsHost :=
  {| engineDateParse := fun _ => NaN; localeCompare := String.compare;
     engineToNumber := fun _ => NaN |}.

Definition demoInput : CreateAgentStateInput :=
  {| in_threadId := "thread"; in_userId := "user"; in_workspace := "/w";
     in_projectId := None; in_canonicalWorkspaceDigest := None; in_turnId := "turn";
     in_recoveryIdentityKey := "0123456789abcdef0123456789abcdef0123456789abcdef0123456789abcdef";
     in_interactionMode := None; in_workspaceAccess := None |}%string.

Definition demo : AgentState :=
  ltac:(let r := eval vm_compute in (createInitialAgentState demoInput) in
        match r with Ok ?s => exact s end).

Lemma demo_initial : createInitialAgentState demoInput = Ok demo.
Proof. reflexivity. Qed.
