(* ===== verification/ApprovalQueue.v ===== *)
(** * The approval queue's pure helpers ([approval-queue.ts]) and the doom-loop
    tracker ([doom-loop.ts])

    Identity of a command, the session-grant key, the choice of the approval
    that holds the human's focus, and the interaction the focus presents. *)

From S2P Require Import Prelude Js Hash State.
From stdpp Require Import prelude strings list.
From Stdlib Require Import ZArith Lia.
Open Scope Z_scope.

(** ** approval-queue.ts *)

Definition requiredString (value : val) (fallback : string) : string :=
  match value with VStr s => if str_nonempty s then s else fallback | _ => fallback end.

Definition stringOrUndefined (value : val) : option string :=
  match value with VStr s => opt_nonempty (Some s) | _ => None end.

(** [stableJson]: object keys in code-unit order, [undefined] as [null]. *)
Fixpoint stableJson (value : val) : string :=
  match value with
  | VArr l => "[" +:+ js_join "," (List.map stableJson l) +:+ "]"
  | VObj o =>
      let entries := List.map (fun '(k, v) => (k, stableJson v)) o in
      let sorted := sort_by (fun a b => str_leb (fst a) (fst b)) entries in
      "{" +:+ js_join "," (List.map (fun '(k, j) => json_quote k +:+ ":" +:+ j) sorted) +:+ "}"
  | _ => match json_stringify value with Some s => s | None => "null" end
  end.

(** The subject of a session grant: every field of the command's identity. *)
Definition grantSubject (input : AgentApprovalCommandIdentity) : val :=
  VObj [
    ("sessionId", VStr (ci_sessionId input));
    ("threadId", VStr (ci_threadId input));
    ("workspace", VStr (ci_workspace input));
    ("canonicalWorkspaceIdentity", VStr (ci_canonicalWorkspaceIdentity input));
    ("cwd", VStr (ci_cwd input));
    ("executor", VStr (ci_executor input));
    ("environment", VStr (ci_environment input));
    ("scope", VStr (ci_scope input));
    ("effects", VStr (ci_effects input));
    ("parserRevision", VStr (ci_parserRevision input));
    ("executorRevision", VStr (default "" (ci_executorRevision input)));
    ("commandDigest", VStr (ci_commandDigest input))]%string.

Definition approvalCommandGrantKey (input : AgentApprovalCommandIdentity) : string :=
  sha256Hex ("same_command:v2:" +:+ stableJson (grantSubject input)).

Definition digestCommand (command : string) : string := "sha256:" +:+ sha256Hex (trim command).

Definition commandIdentityFromApproval (state : AgentState) (approval : obj)
  : AgentApprovalCommandIdentity :=
  let supplied : option obj :=
    match isRecord (get approval "commandIdentity") with
    | Some r => Some r
    | None => if is_some (stringField approval "sessionId") then Some approval else None
    end in
  let s (f : string) : val := match supplied with Some o => get o f | None => VUndef end in
  let expectedEffects :=
    match arrayField approval "expectedEffects" with
    | Some l => js_join "," (sort_strings (List.map js_string l))
    | None => js_string (nullish (get approval "effects") (VStr "unknown"))
    end in
  let st := session state in
  {| ci_sessionId := requiredString (nullish (s "sessionId") (get approval "threadId")) (threadId st);
     ci_threadId := requiredString (nullish (s "threadId") (get approval "threadId")) (threadId st);
     ci_workspace := requiredString (s "workspace") (workspace st);
     ci_canonicalWorkspaceIdentity :=
       requiredString (nullish (s "canonicalWorkspaceIdentity")
                               (of_opt_str (canonicalWorkspaceDigest st))) (workspace st);
     ci_cwd := requiredString (nullish (s "cwd") (get approval "cwd")) (workspace st);
     ci_executor := requiredString (nullish (s "executor") (get approval "tool")) "unknown";
     ci_environment := requiredString (s "environment") "unknown";
     ci_scope := requiredString (nullish (s "scope") (get approval "scope")) "unknown";
     ci_effects := requiredString (nullish (s "effects") (VStr expectedEffects)) "unknown";
     ci_parserRevision := requiredString (s "parserRevision") "unknown";
     ci_executorRevision := match s "executorRevision" with VStr r => Some r | _ => None end;
     ci_commandDigest :=
       requiredString (s "commandDigest")
         (digestCommand (js_string (nullish (get approval "command") (VStr "")))) |}.

Definition pendingNeedsFocus (status : AgentApprovalStatus) : bool :=
  match status with
  | queued_auto | auto_reviewing | queued_user | awaiting_user | approving => true
  | _ => false
  end.

(** One iteration of the scan for the least sequence. *)
Definition focus_step (selected : option AgentPendingApproval) (pending : AgentPendingApproval)
  : option AgentPendingApproval :=
  if pendingNeedsFocus (status pending) then
    match selected with
    | None => Some pending
    | Some s => if sequence pending <? sequence s then Some pending else selected
    end
  else selected.

Definition chooseApprovalFocus (pendingApprovals : ordmap AgentPendingApproval) : option string :=
  interactionId <$> fold_left focus_step (ovalues pendingApprovals) None.

Definition focusedInteraction (pendingApprovals : ordmap AgentPendingApproval)
    (activeApprovalId : option string) : AgentInteractionState :=
  match opt_nonempty activeApprovalId with
  | None => idle
  | Some id =>
      match oget id pendingApprovals with
      | None => idle
      | Some pending =>
          if pendingNeedsFocus (status pending) then
            let approval := approval pending in
            match route pending with
            | route_auto =>
                awaiting_auto_review (interactionId pending) (toolCallId pending)
                  (requiredString (VStr (ap_tool approval)) "shell_execute")
                  (requiredString (VStr (ap_reason approval)) "auto-review") approval
            | route_user =>
                awaiting_tool_approval (interactionId pending) (toolCallId pending) approval
            end
          else idle
      end
  end.

Definition approvalPayloadFromEvent (event : obj) : obj := jsonRecord (get event "approval").

Definition approvalRisk (value : val) : ApprovalRisk :=
  if is_str value "read" then risk_read
  else if is_str value "plan" then risk_plan
  else if is_str value "write_file" then risk_write_file
  else if is_str value "execute_code" then risk_execute_code
  else if is_str value "destructive" then risk_destructive
  else if is_str value "network" then risk_network
  else if is_str value "vcs_mutation" then risk_vcs_mutation
  else if is_str value "mcp" then risk_mcp
  else risk_unknown.

Definition grantOf (value : val) : option ApprovalGrant :=
  if is_str value "approve_once" then Some approve_once
  else if is_str value "same_command" then Some same_command else None.

Definition normalizeApprovalPayload (value : obj) : AgentToolApprovalPayload :=
  let command := requiredString (get value "command") "" in
  let grantOptions :=
    match arrayField value "grantOptions" with Some l => omap grantOf l | None => [] end in
  let normalizedGrants := match grantOptions with [] => [approve_once] | _ => grantOptions end in
  let recommendedGrant :=
    match grantOf (get value "recommendedGrant") with
    | Some g => if existsb (fun x => bool_decide (x = g)) normalizedGrants then g else approve_once
    | None => approve_once
    end in
  {| ap_scope := "once";
     ap_callId := stringField value "callId";
     ap_cwd := requiredString (get value "cwd") "";
     ap_threadId := requiredString (get value "threadId") "";
     ap_tool := requiredString (nullish (get value "tool") (get value "toolName")) "shell_execute";
     ap_command := command;
     ap_risk := approvalRisk (get value "risk");
     ap_approvalHash := requiredString (get value "approvalHash") (digestCommand command);
     ap_summary := requiredString (get value "summary") command;
     ap_reason := requiredString (get value "reason") "approval required";
     ap_expectedEffects :=
       match arrayField value "expectedEffects" with
       | Some l => omap (fun v => match v with VStr s => Some s | _ => None end) l
       | None => []
       end;
     ap_grantOptions := normalizedGrants;
     ap_recommendedGrant := recommendedGrant;
     ap_plan := if is_undef (get value "plan") then None else Some (get value "plan");
     ap_subagentId := stringField value "subagentId";
     ap_reviewFailure := stringField value "reviewFailure" |}.

(** ** doom-loop.ts *)

Section DoomLoop.
Context `{JsHost}.

Fixpoint stableStringify (value : val) : string :=
  match value with
  | VArr l => "[" +:+ js_join "," (List.map stableStringify l) +:+ "]"
  | VObj o =>
      let entries := List.map (fun '(k, v) => (k, stableStringify v)) o in
      let le a b := match localeCompare (fst a) (fst b) with Gt => false | _ => true end in
      "{" +:+ js_join "," (List.map (fun '(k, j) => json_quote k +:+ ":" +:+ j)
                               (sort_by le entries)) +:+ "}"
  | _ => match json_stringify value with Some s => s | None => "undefined" end
  end.

Definition kernelToolDoomLoopFingerprint (name : string) (args : val) : string :=
  let record := jsonRecord args in
  let identityArgs :=
    if name =s "shell_execute" then
      VObj [("command", get record "command"); ("cwd", get record "cwd")]%string
    else if (name =s "write_file") || (name =s "edit_file") then
      VObj [("path", get record "path")]%string
    else args in
  sha256Hex (stableStringify (VObj [("tool", VStr name); ("args", identityArgs)]%string)).
End DoomLoop.

Record KernelDoomLoopCheck := { dc_blocked : bool; dc_count : Z }.

Definition kernelCheckDoomLoopFingerprint (tracker : ordmap AgentDoomLoopRecord)
    (fingerprint : string) (threshold windowMs observedAt : Z) : KernelDoomLoopCheck :=
  match oget fingerprint tracker with
  | Some entry =>
      let elapsed := observedAt - dl_lastSeenAt entry in
      if (0 <=? elapsed) && (elapsed <=? windowMs) then
        {| dc_blocked := threshold <=? dl_count entry; dc_count := dl_count entry |}
      else {| dc_blocked := false; dc_count := 0 |}
  | None => {| dc_blocked := false; dc_count := 0 |}
  end.

Definition kernelUpdateDoomLoopTracker (tracker : ordmap AgentDoomLoopRecord)
    (fingerprint : string) (observedAt windowMs : Z) : ordmap AgentDoomLoopRecord :=
  let next := List.filter (fun '(_, entry) => negb (120000 <? observedAt - dl_lastSeenAt entry))
                          tracker in
  let count :=
    match oget fingerprint next with
    | Some existing =>
        let elapsed := observedAt - dl_lastSeenAt existing in
        if (0 <=? elapsed) && (elapsed <=? windowMs) then fadd (dl_count existing) 1 else 1
    | None => 1
    end in
  oset fingerprint {| dl_count := count; dl_lastSeenAt := observedAt |} next.
