(* ===== verification/Authorization.v ===== *)
(** * The authorization reducer ([core/authorization/reducer.ts])

    One definition per event case of [reduceAuthorizationState], in source
    order, and the dispatcher.  [AuthorizationProps] proves the queue's
    invariants and the soundness of authorization. *)

From S2P Require Import Prelude Js Hash State ApprovalQueue.
From stdpp Require Import prelude strings list pretty.
From Stdlib Require Import ZArith Lia.
Open Scope Z_scope.

Definition EPOCH_CREATED_AT : string := "1970-01-01T00:00:00.000Z".

(** ** Auto-review circuit *)

Inductive CircuitInput : Type :=
| circuit_approval (observedAt : Z)
| circuit_rejection (observedAt : Z) (toolName reason : string).

Definition evaluateAutoReviewCircuit (state : AgentAutoReviewState) (input : CircuitInput)
  : AgentAutoReviewState :=
  let observedAt := match input with circuit_approval t | circuit_rejection t _ _ => t end in
  let windowStart := observedAt - 30000 in
  let history := List.filter (fun entry => windowStart <=? rej_timestamp entry)
                             (rejectionHistory state) in
  match input with
  | circuit_approval _ =>
      state <| consecutiveRejects := 0 |> <| rejectionHistory := history |>
            <| circuitBreakerTripped := false |>
  | circuit_rejection t toolName reason =>
      let rejects := fadd (consecutiveRejects state) 1 in
      let nextHistory := history ++ [{| rej_timestamp := t; rej_toolName := toolName;
                                        rej_reason := reason |}] in
      state <| consecutiveRejects := rejects |> <| rejectionHistory := nextHistory |>
            <| circuitBreakerTripped := circuitBreakerTripped state || (3 <=? rejects)
                                        || (20 <=? length nextHistory)%nat |>
  end.

(** ** Field readers *)

Definition interactionMode (value : option string) : option InteractionMode :=
  match value with
  | Some s => if s =s "accept_edits" then Some accept_edits
              else if s =s "auto" then Some auto
              else if s =s "full" then Some full else None
  | None => None
  end.

Definition pendingCreatedAt (payload : obj) : string :=
  default EPOCH_CREATED_AT (stringField payload "createdAt").

Definition pendingRoute (payload : obj) : AgentApprovalRoute :=
  if is_str (get payload "approvalRoute") "auto" || is_str (get payload "route") "auto"
  then route_auto else route_user.

Definition identityFields : list string :=
  ["sessionId"; "threadId"; "workspace"; "canonicalWorkspaceIdentity"; "cwd"; "executor";
   "environment"; "scope"; "effects"; "parserRevision"; "commandDigest"]%string.

Definition isCompleteCommandIdentity (value : option obj) : bool :=
  match value with
  | None => false
  | Some record =>
      forallb (fun f => is_some (nonEmptyStringField record f)) identityFields
      && match get record "executorRevision" with
         | VUndef => true
         | VStr s => str_nonempty s
         | _ => false
         end
  end.

(** The fields of an object accepted by [isCompleteCommandIdentity]. *)
Definition commandIdentityOf (record : obj) : AgentApprovalCommandIdentity :=
  let s f := default "" (stringField record f) in
  {| ci_sessionId := s "sessionId"; ci_threadId := s "threadId"; ci_workspace := s "workspace";
     ci_canonicalWorkspaceIdentity := s "canonicalWorkspaceIdentity"; ci_cwd := s "cwd";
     ci_executor := s "executor"; ci_environment := s "environment"; ci_scope := s "scope";
     ci_effects := s "effects"; ci_parserRevision := s "parserRevision";
     ci_executorRevision := stringField record "executorRevision";
     ci_commandDigest := s "commandDigest" |}%string.

Definition of_opt_num (o : option Z) : val :=
  match o with Some z => VNum (Fin z) | None => VUndef end.

Definition invocationOf (call : option AgentToolCallState) : obj :=
  match call with
  | None => []
  | Some c =>
      [("toolCallId", VStr (tc_toolCallId c)); ("name", VStr (tc_name c)); ("args", tc_args c);
       ("modelMessageId", VStr (tc_modelMessageId c));
       ("modelInvocationId", of_opt_str (tc_modelInvocationId c));
       ("ordinal", of_opt_num (tc_ordinal c));
       ("createdAtTurnId", VStr (tc_createdAtTurnId c));
       ("taskId", of_opt_str (tc_taskId c))]%string
  end.

Definition pendingFromEvent (state : AgentState) (payload : obj)
    (interactionId toolCallId : string) (route : AgentApprovalRoute)
    (status : AgentApprovalStatus) : AgentPendingApproval :=
  let approvalRecord := approvalPayloadFromEvent payload in
  let approval := normalizeApprovalPayload approvalRecord in
  let call := oget toolCallId (calls (tools state)) in
  let supplied := recordField payload "commandIdentity" in
  let complete := isCompleteCommandIdentity supplied in
  let commandIdentity :=
    commandIdentityFromApproval state
      (match supplied with
       | Some r => if complete then oset "commandIdentity" (VObj r) approvalRecord
                   else approvalRecord
       | None => approvalRecord
       end) in
  let sequence := default (nextQueueSequence state) (safeNatural payload "queueSequence") in
  let generation := default (approvalGeneration state) (safeNatural payload "queueGeneration") in
  let approvalHash := stringOrUndefined (get approvalRecord "approvalHash") in
  let owner := default [] (recordField payload "owner") in
  let childToolCallId :=
    if is_str (get owner "kind") "subagent_tool"
    then stringOrUndefined (get owner "toolCallId") else None in
  {| interactionId := interactionId; toolCallId := toolCallId;
     parentToolCallId := stringOrUndefined (get payload "parentToolCallId");
     childSubagentId := stringOrUndefined (get payload "childSubagentId");
     childToolCallId := childToolCallId;
     runtimeToolCallId := stringOrUndefined (get payload "runtimeToolCallId");
     route := route;
     fullModeBypassEligible := truthy (get payload "fullModeBypassEligible");
     fullModePolicyBypassAllowed := truthy (get payload "fullModePolicyBypassAllowed");
     bindingDigest :=
       match approvalHash with
       | Some h => h
       | None => if complete then ci_commandDigest commandIdentity else ""
       end;
     approval := approval;
     invocation := invocationOf call;
     commandIdentity := if complete then Some commandIdentity else None;
     commandKey := if complete then Some (approvalCommandGrantKey commandIdentity) else None;
     approvalHash := approvalHash;
     sequence := sequence; generation := generation;
     createdAt := pendingCreatedAt payload; status := status;
     receiptId := None; authorizationSource := None; dispatchState := None |}.

Definition ownerMatchesPending (pending : AgentPendingApproval) (owner : val) : bool :=
  match isRecord owner with
  | None => false
  | Some candidate =>
      if is_str (get candidate "kind") "root_tool" then
        negb (is_some (childSubagentId pending)) && negb (is_some (parentToolCallId pending))
        && is_str (get candidate "toolCallId") (toolCallId pending)
      else
        match opt_nonempty (childToolCallId pending) with
        | None => false
        | Some child =>
            is_str (get candidate "kind") "subagent_tool"
            && is_str (get candidate "toolCallId") child
            && eq_opt_str (get candidate "subagentId") (childSubagentId pending)
            && eq_opt_str (get candidate "parentToolCallId") (parentToolCallId pending)
        end
  end.

(** ** State helpers *)

Definition approvalQueueState (state : AgentState)
    (pendings : ordmap AgentPendingApproval) (activeId : option string) : AgentState :=
  state <| pendingApprovals := pendings |> <| activeApprovalId := activeId |>
        <| interactions := focusedInteraction pendings activeId |>.

Definition nextQueueSequence_after (state : AgentState) (pending : AgentPendingApproval) : Z :=
  Z.max (nextQueueSequence state) (fadd (sequence pending) 1).

Definition terminalApprovalStatus (s : AgentApprovalStatus) : bool :=
  match s with succeeded | failed | cancelled | rejected | expired => true | _ => false end.

(** [pending.status === s]. *)
Definition status_is (pending : AgentPendingApproval) (s : AgentApprovalStatus) : bool :=
  bool_decide (status pending = s).

Definition opt_str_same (a b : option string) : bool := default "" a =s default "" b.

Definition sameCommandIdentity (left right : option AgentApprovalCommandIdentity) : bool :=
  match left, right with
  | Some l, Some r =>
      (ci_sessionId l =s ci_sessionId r) && (ci_threadId l =s ci_threadId r)
      && (ci_workspace l =s ci_workspace r)
      && (ci_canonicalWorkspaceIdentity l =s ci_canonicalWorkspaceIdentity r)
      && (ci_cwd l =s ci_cwd r) && (ci_executor l =s ci_executor r)
      && (ci_environment l =s ci_environment r) && (ci_scope l =s ci_scope r)
      && (ci_effects l =s ci_effects r) && (ci_parserRevision l =s ci_parserRevision r)
      && opt_str_same (ci_executorRevision l) (ci_executorRevision r)
      && (ci_commandDigest l =s ci_commandDigest r)
  | _, _ => false
  end.

Definition restorePendingAfterClear (pending : AgentPendingApproval) (gen : Z)
  : AgentPendingApproval :=
  pending <| generation := gen |> <| fullModeBypassEligible := false |>
          <| authorizationSource := None |> <| receiptId := None |>
          <| status := match route pending with
                       | route_auto => auto_reviewing | route_user => awaiting_user end |>.

Definition pendingNeedsGenerationRebase (pending : AgentPendingApproval) : bool :=
  negb (terminalApprovalStatus (status pending)) && negb (status_is pending authorized_queued)
  && negb (status_is pending running).

(** A pending approval released for dispatch. *)
Definition authorizePending (pending : AgentPendingApproval) (source : AuthorizationSource)
    (receipt : option string) : AgentPendingApproval :=
  pending <| receiptId := receipt |> <| authorizationSource := Some source |>
          <| dispatchState := Some before_dispatch |> <| status := authorized_queued |>.

Definition waitingToolStatus (p : AgentPendingApproval) : ToolCallStatus :=
  match route p with route_auto => t_awaiting_auto_review | route_user => t_awaiting_approval end.

Section Reducer.
Context `{JsHost}.

Definition parse_opt (o : option string) : num :=
  match opt_nonempty o with Some s => dateParse s | None => NaN end.

Definition pendingToolStatus (state : AgentState) (toolCallId : string)
    (status : ToolCallStatus) (grant : option ApprovalGrant) (approvedAt : option string)
    (measuredApprovalWaitMs : option Z) : AgentState :=
  updateToolCall state toolCallId (fun oc =>
    match oc with
    | None => None
    | Some call =>
        let elapsedFromTimestamps :=
          match parse_opt (tc_approvalRequestedAt call), parse_opt approvedAt with
          | Fin started, Fin finished =>
              if started <=? finished then Some (finished - started) else None
          | _, _ => None
          end in
        let elapsed :=
          match elapsedFromTimestamps with
          | Some e => Some e
          | None => match measuredApprovalWaitMs with
                    | Some m => if 0 <=? m then Some m else None
                    | None => None
                    end
          end in
        let call := call <| tc_status := status |> in
        let call := match grant with
                    | Some g => call <| tc_approvalGrant := Some g |> | None => call end in
        Some (match elapsed with
              | None => call
              | Some e => call <| tc_approvalWaitMs :=
                              Some (fadd (default 0 (tc_approvalWaitMs call)) e) |>
              end)
    end).

(** *** interaction_mode.changed *)

(** The loop of the switch to Full: release what policy sealed as bypassable. *)
Definition full_step (next : AgentState)
    (acc : ordmap AgentPendingApproval * AgentToolsState) (entry : string * AgentPendingApproval)
  : ordmap AgentPendingApproval * AgentToolsState :=
  let '(pendings, tls) := acc in
  let '(id, pending) := entry in
  if negb (fullModePolicyBypassAllowed pending) || terminalApprovalStatus (status pending)
     || status_is pending authorized_queued || status_is pending running
  then acc
  else
    (oset id ((authorizePending pending mode_full None) <| fullModeBypassEligible := true |>)
       pendings,
     tools (pendingToolStatus (next <| tools := tls |>) (toolCallId pending)
              t_authorized_queued None None None)).

(** The loop of leaving Full: withdraw what only the mode authorized. *)
Definition unfull_step (next : AgentState)
    (acc : ordmap AgentPendingApproval * AgentToolsState) (entry : string * AgentPendingApproval)
  : ordmap AgentPendingApproval * AgentToolsState :=
  let '(pendings, tls) := acc in
  let '(id, pending) := entry in
  if negb (bool_decide (authorizationSource pending = Some mode_full))
     || negb (status_is pending authorized_queued)
  then acc
  else
    let restored := restorePendingAfterClear pending (generation pending) in
    (oset id restored pendings,
     tools (pendingToolStatus (next <| tools := tls |>) (toolCallId pending)
              (waitingToolStatus restored) None None None)).

Definition after_mode_loop (next : AgentState)
    (acc : ordmap AgentPendingApproval * AgentToolsState) : AgentState :=
  approvalQueueState (next <| tools := snd acc |>) (fst acc) (chooseApprovalFocus (fst acc)).

Definition interaction_mode_changed (state : AgentState) (payload : obj) : AgentState :=
  match interactionMode (stringField payload "mode"),
        nonEmptyStringField payload "changedAt" with
  | Some m, Some _ =>
      if negb (is_str (get payload "source") "user") then state
      else
        let modeChanged := negb (bool_decide (mode state = m)) in
        let next := state <| mode := m |>
          <| interactionModeRevision :=
               fadd (interactionModeRevision state) (if modeChanged then 1 else 0) |> in
        let next :=
          match getActiveTask state with
          | Some t => next <| tasks := oset (task_taskId t) (t <| task_executionMode := None |>)
                                            (tasks state) |>
          | None => next
          end in
        if modeChanged then
          let step := if bool_decide (m = full) then full_step next else unfull_step next in
          after_mode_loop next
            (fold_left step (pendingApprovals state) (pendingApprovals state, tools next))
        else next
  | _, _ => state
  end.

(** *** approval.requested and auto_review.requested *)

(** Admission of a new waiter to the queue, shared by the two requests. *)
Definition enqueuePending (state next : AgentState) (pending : AgentPendingApproval)
  : AgentState :=
  let pendings := oset (interactionId pending) pending (pendingApprovals state) in
  let activeId := match activeApprovalId state with
                  | Some a => Some a | None => chooseApprovalFocus pendings end in
  (approvalQueueState next pendings activeId)
    <| nextQueueSequence := nextQueueSequence_after state pending |>
    <| approvalGeneration := Z.max (approvalGeneration state) (generation pending) |>.

Definition approval_requested (state : AgentState) (payload : obj) : AgentState :=
  match nonEmptyStringField payload "interactionId",
        nonEmptyStringField payload "toolCallId" with
  | Some iid, Some tid =>
      if ohas iid (pendingApprovals state) then state
      else
        let route := pendingRoute payload in
        let status := match route with route_auto => queued_auto
                                  | route_user => awaiting_user end in
        let pending := pendingFromEvent state payload iid tid route status in
        if negb (ownerMatchesPending pending (get payload "owner")) then state
        else
          let next := updateToolCall state tid (fun oc =>
            match oc with
            | None => None
            | Some call =>
                let call := call <| tc_status := waitingToolStatus pending |> in
                let call := match approvalHash pending with
                            | Some h => call <| tc_approvalHash := Some h |> | None => call end in
                Some (match nonEmptyStringField payload "createdAt" with
                      | Some t => call <| tc_approvalRequestedAt := Some t |>
                      | None => call end)
            end) in
          enqueuePending state next pending
  | _, _ => state
  end.

Definition auto_review_requested (state : AgentState) (payload : obj) : AgentState :=
  match nonEmptyStringField payload "reviewId", nonEmptyStringField payload "toolCallId",
        nonEmptyStringField payload "toolName", stringField payload "reason" with
  | Some iid, Some tid, Some _, Some _ =>
      if ohas iid (pendingApprovals state) then state
      else
        let queuePayload := oset "approvalRoute" (VStr "auto") payload in
        let pending := pendingFromEvent state queuePayload iid tid route_auto auto_reviewing in
        if negb (ownerMatchesPending pending (get payload "owner")) then state
        else
          let next := updateToolCall state tid (fun oc =>
            match oc with
            | None => None
            | Some call =>
                let call := call <| tc_status := t_awaiting_auto_review |> in
                Some (match approvalHash pending with
                      | Some h => call <| tc_approvalHash := Some h |> | None => call end)
            end) in
          let fingerprint :=
            match nonEmptyStringField payload "requestFingerprint" with
            | Some f => Some f
            | None => (fun c => kernelToolDoomLoopFingerprint (tc_name c) (tc_args c))
                        <$> oget tid (calls (tools state))
            end in
          let observedAt := match parse_opt (stringField payload "createdAt") with
                            | Fin t => t | NaN => 0 end in
          let next := match fingerprint with
            | Some f => next <| doomLoop :=
                          kernelUpdateDoomLoopTracker (doomLoop next) f observedAt 60000 |>
            | None => next end in
          enqueuePending state next pending
  | _, _, _, _ => state
  end.

(** *** approval.granted and approval.rejected *)

(** The guard the two settlements share: the decision names the focused
    waiter, its call, its owner and its current generation. *)
Definition settleable (state : AgentState) (payload : obj)
  : option (string * string * Z * AgentPendingApproval) :=
  match nonEmptyStringField payload "interactionId", nonEmptyStringField payload "toolCallId",
        numberField payload "generation" with
  | Some iid, Some tid, Some gen =>
      match oget iid (pendingApprovals state) with
      | Some pending =>
          if isSafeInteger gen && opt_str_eqb (activeApprovalId state) (Some iid)
             && (toolCallId pending =s tid)
             && ownerMatchesPending pending (get payload "owner")
             && (generation pending =? gen) && negb (gen <? approvalGeneration state)
             && negb (terminalApprovalStatus (status pending))
          then Some (iid, tid, gen, pending) else None
      | None => None
      end
  | _, _, _ => None
  end.

Definition approval_granted (state : AgentState) (payload : obj) : AgentState :=
  match settleable state payload, nonEmptyStringField payload "receiptId" with
  | Some (iid, tid, gen, pending), Some rid =>
      if negb (is_str (get payload "grant") "approve_once")
         || status_is pending authorized_queued then state
      else if ohas rid (approvalReceipts state) then state
      else
        let pendings := oset iid (authorizePending pending src_approve_once (Some rid))
                              (pendingApprovals state) in
        let receipt := {| rc_receiptId := rid; rc_interactionId := iid; rc_toolCallId := tid;
                          rc_generation := gen; rc_grant := approve_once;
                          rc_status := rcpt_authorized_queued;
                          rc_dispatchState := Some before_dispatch |} in
        let next := pendingToolStatus state tid t_authorized_queued (Some approve_once)
                      (stringField payload "createdAt") None in
        (approvalQueueState next pendings (chooseApprovalFocus pendings))
          <| approvalReceipts := oset rid receipt (approvalReceipts state) |>
          <| approvalGeneration := Z.max (approvalGeneration state) gen |>
  | _, _ => state
  end.

Definition approvalRejectedFailure (reason : string) : obj :=
  [("kind", VStr "approval_rejected"); ("message", VStr reason); ("retryable", VBool false);
   ("modelFixable", VBool false); ("needsUserIntervention", VBool false);
   ("terminatesTurn", VBool false); ("journal", VBool true)]%string.

(** The terminal projection of a refused call. *)
Definition rejectCall (payload : obj) (reason : string) (failure : obj)
    (oc : option AgentToolCallState) : option AgentToolCallState :=
  match oc with
  | None => None
  | Some call =>
      let call := call <| tc_status := t_rejected |> <| tc_error := Some reason |>
                       <| tc_failure := Some failure |> in
      Some (match recordField payload "outcome" with
            | Some o => call <| tc_outcome := Some o |> | None => call end)
  end.

Definition approval_rejected (state : AgentState) (payload : obj) : AgentState :=
  match settleable state payload with
  | Some (iid, tid, _, pending) =>
      let reason := default "" (stringField payload "reason") in
      let failure := default (approvalRejectedFailure reason) (recordField payload "failure") in
      let next := updateToolCall state tid (rejectCall payload reason failure) in
      let pendings := oset iid (pending <| status := rejected |>) (pendingApprovals state) in
      approvalQueueState next pendings (chooseApprovalFocus pendings)
  | None => state
  end.

(** *** approval.batch_released *)

(** [new Map(matches ... .map((v) => [stringOrUndefined(v.interactionId), v]))]. *)
Definition matchIdsOf (matches : list val) : ordmap obj :=
  fold_left (fun m v =>
    match isRecord v with
    | Some o => match stringOrUndefined (get o "interactionId") with
                | Some id => oset id o m | None => m end
    | None => m
    end) matches [].

(** Every match names a receipt, and no receipt twice. *)
Fixpoint matchReceiptsDistinct (seen : list string) (ms : list obj) : bool :=
  match ms with
  | [] => true
  | m :: ms' =>
      match stringOrUndefined (get m "receiptId") with
      | Some r => negb (str_in r seen) && matchReceiptsDistinct (r :: seen) ms'
      | None => false
      end
  end.

Definition batchEligible (pending : AgentPendingApproval) (m : obj) (gen : Z)
    (identity : AgentApprovalCommandIdentity) : bool :=
  (generation pending =? gen)
  && match numberField m "generation" with Some g => g =? gen | None => false end
  && negb (terminalApprovalStatus (status pending))
  && negb (status_is pending running) && negb (status_is pending authorized_queued)
  && opt_str_eqb (stringOrUndefined (get m "toolCallId")) (Some (toolCallId pending))
  && ownerMatchesPending pending (get m "owner")
  && sameCommandIdentity (commandIdentity pending) (Some identity)
  && (is_undef (get m "bindingDigest") || is_str (get m "bindingDigest") (bindingDigest pending)).

Record BatchLoop := mkBatchLoop {
  bl_pendings : ordmap AgentPendingApproval;
  bl_receipts : ordmap AgentApprovalReceipt;
  bl_eligible : list string;
  bl_next : AgentState }.

Definition batch_step (matchIds : ordmap obj) (gen : Z)
    (identity : AgentApprovalCommandIdentity) (createdAt : option string)
    (acc : BatchLoop) (entry : string * AgentPendingApproval) : BatchLoop :=
  let '(pendingId, pending) := entry in
  match oget pendingId matchIds with
  | None => acc
  | Some m =>
      if negb (batchEligible pending m gen identity) then acc
      else
        match stringOrUndefined (get m "receiptId") with
        | None => acc
        | Some rid =>
            if ohas rid (bl_receipts acc) then acc
            else
              let receipt :=
                {| rc_receiptId := rid; rc_interactionId := interactionId pending;
                   rc_toolCallId := toolCallId pending; rc_generation := gen;
                   rc_grant := same_command; rc_status := rcpt_authorized_queued;
                   rc_dispatchState := Some before_dispatch |} in
              {| bl_pendings :=
                   oset pendingId (authorizePending pending src_same_command (Some rid))
                     (bl_pendings acc);
                 bl_receipts := oset rid receipt (bl_receipts acc);
                 bl_eligible := bl_eligible acc ++ [pendingId];
                 bl_next := pendingToolStatus (bl_next acc) (toolCallId pending)
                              t_authorized_queued (Some same_command) createdAt None |}
        end
  end.

(** Auto reviewers cancelled by the batch. *)
Definition cancelReview (pendings : ordmap AgentPendingApproval) (reviewId : string)
  : ordmap AgentPendingApproval :=
  match oget reviewId pendings with
  | None => pendings
  | Some pending =>
      if status_is pending authorized_queued || status_is pending running
         || terminalApprovalStatus (status pending)
         || negb (bool_decide (route pending = route_auto))
      then pendings
      else oset reviewId (pending <| status := cancelled |>) pendings
  end.

Definition stringsOf (l : list val) : list string :=
  omap (fun v => match v with VStr s => Some s | _ => None end) l.

Definition batchGuard (state : AgentState) (payload : obj)
  : option (string * string * string * Z * AgentPendingApproval) :=
  match nonEmptyStringField payload "interactionId", nonEmptyStringField payload "toolCallId",
        nonEmptyStringField payload "grantKey", numberField payload "generation",
        numberField payload "sessionRevision" with
  | Some iid, Some tid, Some key, Some gen, Some rev =>
      match oget iid (pendingApprovals state) with
      | Some focused =>
          if is_str (get payload "grant") "same_command"
             && isSafeInteger gen && isSafeInteger rev && (rev =? revision state)
             && opt_str_eqb (activeApprovalId state) (Some iid)
             && (toolCallId focused =s tid)
             && ownerMatchesPending focused (get payload "owner")
             && negb (gen <? approvalGeneration state)
             && negb (terminalApprovalStatus (status focused))
          then Some (iid, tid, key, gen, focused) else None
      | None => None
      end
  | _, _, _, _, _ => None
  end.

Definition focusedMatchOk (focused : AgentPendingApproval) (tid : string) (gen : Z)
    (m : option obj) : bool :=
  match m with
  | None => false
  | Some o =>
      opt_str_eqb (stringOrUndefined (get o "toolCallId")) (Some tid)
      && is_some (stringOrUndefined (get o "receiptId"))
      && match numberField o "generation" with Some g => g =? gen | None => false end
      && ownerMatchesPending focused (get o "owner")
  end.

Definition approval_batch_released (state : AgentState) (payload : obj) : AgentState :=
  match batchGuard state payload, recordField payload "commandIdentity" with
  | Some (iid, tid, key, gen, focused), Some supplied =>
      if negb (isCompleteCommandIdentity (Some supplied)) then state
      else
        let identity := commandIdentityOf supplied in
        let canonicalKey := approvalCommandGrantKey identity in
        if negb (key =s canonicalKey) then state
        else
          let matchIds := matchIdsOf (default [] (arrayField payload "matches")) in
          if negb (matchReceiptsDistinct [] (ovalues matchIds))
             || negb (focusedMatchOk focused tid gen (oget iid matchIds)) then state
          else
            let loop :=
              fold_left (batch_step matchIds gen identity (stringField payload "createdAt"))
                (pendingApprovals state)
                (mkBatchLoop (pendingApprovals state) (approvalReceipts state) [] state) in
            if negb (str_in iid (bl_eligible loop)) then state
            else
              let grantRecord :=
                {| g_grant := same_command; g_grantKey := key; g_identity := identity;
                   g_createdAt := default EPOCH_CREATED_AT (stringField payload "createdAt");
                   g_generation := gen |} in
              let pendings :=
                fold_left cancelReview
                  (stringsOf (default [] (arrayField payload "cancelledReviewIds")))
                  (bl_pendings loop) in
              (approvalQueueState (bl_next loop) pendings (chooseApprovalFocus pendings))
                <| sessionCommandGrants :=
                     oset canonicalKey grantRecord (sessionCommandGrants state) |>
                <| approvalReceipts := bl_receipts loop |>
                <| approvalGeneration := Z.max (approvalGeneration state) gen |>
  | _, _ => state
  end.

(** *** approval.session_grants_cleared *)

Definition clear_step (gen : Z) (acc : ordmap AgentPendingApproval * AgentState)
    (entry : string * AgentPendingApproval) : ordmap AgentPendingApproval * AgentState :=
  let '(pendings, next) := acc in
  let '(id, pending) := entry in
  if bool_decide (authorizationSource pending = Some src_same_command)
     && status_is pending authorized_queued
  then
    let restored := restorePendingAfterClear pending gen in
    let pendings := oset id restored pendings in
    (pendings, pendingToolStatus (next <| pendingApprovals := pendings |>) (toolCallId pending)
                 (waitingToolStatus restored) None None None)
  else if pendingNeedsGenerationRebase pending
  then (oset id (pending <| generation := gen |>) pendings, next)
  else acc.

Definition approval_session_grants_cleared (state : AgentState) (payload : obj) : AgentState :=
  match numberField payload "sessionRevision", numberField payload "generation" with
  | Some rev, Some gen =>
      if opt_str_eqb (nonEmptyStringField payload "sessionId") (Some (threadId (session state)))
         && isSafeInteger rev && (rev =? revision state) && isSafeInteger gen
         && (approvalGeneration state <? gen)
      then
        let '(pendings, next) :=
          fold_left (clear_step gen) (pendingApprovals state) (pendingApprovals state, state) in
        (approvalQueueState next pendings (chooseApprovalFocus pendings))
          <| sessionCommandGrants := [] |> <| approvalGeneration := gen |>
      else state
  | _, _ => state
  end.

(** *** turn.aborted *)

Definition terminalToolStatus (s : ToolCallStatus) : bool :=
  match s with t_succeeded | t_failed | t_rejected | t_cancelled | t_exhausted => true
             | _ => false end.

Definition terminateReceipt (receipts : ordmap AgentApprovalReceipt) (rid : option string)
  : ordmap AgentApprovalReceipt :=
  match opt_nonempty rid with
  | None => receipts
  | Some r => match oget r receipts with
              | Some receipt => oset r (receipt <| rc_status := rcpt_terminal |>) receipts
              | None => receipts
              end
  end.

Definition abort_step
    (acc : ordmap AgentToolCallState * ordmap AgentApprovalReceipt)
    (pending : AgentPendingApproval)
  : ordmap AgentToolCallState * ordmap AgentApprovalReceipt :=
  let '(cs, receipts) := acc in
  let receipts := terminateReceipt receipts (receiptId pending) in
  match oget (toolCallId pending) cs with
  | Some call =>
      if terminalToolStatus (tc_status call) then (cs, receipts)
      else (oset (toolCallId pending) (call <| tc_status := t_cancelled |>) cs, receipts)
  | None => (cs, receipts)
  end.

Definition turn_aborted (state : AgentState) (payload : obj) : AgentState :=
  match nonEmptyStringField payload "turnId" with
  | Some t =>
      if t =s turnId (turn state) then
        let '(cs, receipts) :=
          fold_left abort_step (ovalues (pendingApprovals state))
            (calls (tools state), approvalReceipts state) in
        state <| pendingApprovals := [] |> <| sessionCommandGrants := [] |>
              <| approvalReceipts := receipts |> <| activeApprovalId := None |>
              <| approvalGeneration := fadd (approvalGeneration state) 1 |>
              <| interactions := idle |>
              <| tools := {| calls := cs; queue := []; active := [] |} |>
              <| suspendedSubagents := [] |>
      else state
  | None => state
  end.

(** *** tool.started and the tool terminals *)

Record QueueLoop := mkQueueLoop {
  ql_pendings : ordmap AgentPendingApproval;
  ql_receipts : ordmap AgentApprovalReceipt;
  ql_changed : bool }.

Definition started_step (tid : string) (acc : QueueLoop)
    (entry : string * AgentPendingApproval) : QueueLoop :=
  let '(id, pending) := entry in
  if negb (toolCallId pending =s tid) || negb (status_is pending authorized_queued) then acc
  else
    {| ql_pendings := oset id (pending <| dispatchState := Some dispatch_acked |>
                                       <| status := running |>) (ql_pendings acc);
       ql_receipts :=
         match opt_nonempty (receiptId pending) with
         | None => ql_receipts acc
         | Some r =>
             match oget r (ql_receipts acc) with
             | Some receipt =>
                 oset r (receipt <| rc_status := rcpt_running |>
                                 <| rc_dispatchState := Some dispatch_acked |>) (ql_receipts acc)
             | None => ql_receipts acc
             end
         end;
       ql_changed := true |}.

Definition terminal_step (tid : string) (terminal : AgentApprovalStatus) (acc : QueueLoop)
    (entry : string * AgentPendingApproval) : QueueLoop :=
  let '(id, pending) := entry in
  if negb (toolCallId pending =s tid) || terminalApprovalStatus (status pending) then acc
  else
    {| ql_pendings := oset id (pending <| status := terminal |>) (ql_pendings acc);
       ql_receipts := terminateReceipt (ql_receipts acc) (receiptId pending);
       ql_changed := true |}.

Definition runQueueLoop (state : AgentState)
    (step : QueueLoop -> string * AgentPendingApproval -> QueueLoop) : AgentState :=
  let loop := fold_left step (pendingApprovals state)
                (mkQueueLoop (pendingApprovals state) (approvalReceipts state) false) in
  if ql_changed loop then
    (approvalQueueState state (ql_pendings loop) (chooseApprovalFocus (ql_pendings loop)))
      <| approvalReceipts := ql_receipts loop |>
  else state.

Definition tool_started (state : AgentState) (payload : obj) : AgentState :=
  match nonEmptyStringField payload "toolCallId" with
  | Some tid => runQueueLoop state (started_step tid)
  | None => state
  end.

Definition tool_terminal (state : AgentState) (payload : obj) (terminal : AgentApprovalStatus)
  : AgentState :=
  match nonEmptyStringField payload "toolCallId" with
  | Some tid => runQueueLoop state (terminal_step tid terminal)
  | None => state
  end.

(** *** auto_review.completed *)

Definition autoReviewRejectedFailure (reason : string) : obj :=
  [("kind", VStr "auto_review_rejected"); ("message", VStr reason); ("retryable", VBool false);
   ("modelFixable", VBool false); ("needsUserIntervention", VBool true);
   ("terminatesTurn", VBool false); ("journal", VBool true)]%string.

Definition reviewable (state : AgentState) (payload : obj)
  : option (string * string * AgentPendingApproval) :=
  match nonEmptyStringField payload "toolCallId", nonEmptyStringField payload "reviewId" with
  | Some tid, Some rid =>
      match oget rid (pendingApprovals state) with
      | Some pending =>
          if (toolCallId pending =s tid) && ownerMatchesPending pending (get payload "owner")
             && negb (terminalApprovalStatus (status pending))
             && negb (status_is pending authorized_queued) && negb (status_is pending running)
          then Some (tid, rid, pending) else None
      | None => None
      end
  | _, _ => None
  end.

Definition autoReceiptId (reviewId : string) (gen : Z) : string :=
  "auto:" +:+ reviewId +:+ ":" +:+ pretty gen.

Definition auto_review_escalated (state : AgentState) (tid rid : string)
    (pending : AgentPendingApproval) (durationMs : option Z) : AgentState :=
  let pendings := oset rid (pending <| route := route_user |> <| status := awaiting_user |>)
                       (pendingApprovals state) in
  let next := pendingToolStatus state tid t_awaiting_approval None None durationMs in
  approvalQueueState next pendings
    (match activeApprovalId state with Some a => Some a | None => chooseApprovalFocus pendings end).

Definition auto_review_approved (state : AgentState) (tid rid : string)
    (pending : AgentPendingApproval) (durationMs : option Z) : AgentState :=
  let receipt := autoReceiptId rid (generation pending) in
  if ohas receipt (approvalReceipts state) then state
  else
    let pendings := oset rid (authorizePending pending src_approve_once (Some receipt))
                         (pendingApprovals state) in
    let next := pendingToolStatus state tid t_authorized_queued (Some approve_once) None
                  durationMs in
    (approvalQueueState next pendings (chooseApprovalFocus pendings))
      <| approvalReceipts :=
           oset receipt {| rc_receiptId := receipt; rc_interactionId := rid;
                           rc_toolCallId := tid; rc_generation := generation pending;
                           rc_grant := approve_once; rc_status := rcpt_authorized_queued;
                           rc_dispatchState := Some before_dispatch |} (approvalReceipts state) |>.

Definition auto_review_refused (state : AgentState) (payload : obj) (tid rid : string)
    (pending : AgentPendingApproval) (observedAt : Z) (reason : string) : AgentState :=
  let pendings := oset rid (pending <| authorizationSource := None |> <| status := rejected |>)
                       (pendingApprovals state) in
  let next := updateToolCall state tid
                (rejectCall payload reason (autoReviewRejectedFailure reason)) in
  (approvalQueueState next pendings (chooseApprovalFocus pendings))
    <| autoReview :=
         evaluateAutoReviewCircuit (autoReview next)
           (circuit_rejection observedAt
              (default "shell_execute" (opt_nonempty (Some (ap_tool (approval pending)))))
              reason) |>.

Definition auto_review_completed (state : AgentState) (payload : obj) : AgentState :=
  match reviewable state payload with
  | None => state
  | Some (tid, rid, pending) =>
      let result := jsonRecord (get payload "result") in
      let observedAt := match parse_opt (stringField payload "createdAt") with
                        | Fin t => t | NaN => 0 end in
      let reason := default "auto-review rejected" (stringField result "reason") in
      let durationMs := numberField result "durationMs" in
      let approved := is_true (get result "approved") in
      if negb approved && is_true (get result "escalatedToUser")
      then auto_review_escalated state tid rid pending durationMs
      else if negb (is_false (get result "ok")) && approved
      then auto_review_approved state tid rid pending durationMs
      else auto_review_refused state payload tid rid pending observedAt reason
  end.

(** *** Dispatch *)

Definition reduceAuthorizationState (state : AgentState) (event : obj) : AgentState :=
  let t := ev_type event in
  if t =s "interaction_mode.changed" then interaction_mode_changed state event
  else if t =s "approval.requested" then approval_requested state event
  else if t =s "approval.granted" then approval_granted state event
  else if t =s "approval.rejected" then approval_rejected state event
  else if t =s "approval.batch_released" then approval_batch_released state event
  else if t =s "approval.session_grants_cleared" then approval_session_grants_cleared state event
  else if t =s "turn.aborted" then turn_aborted state event
  else if t =s "tool.started" then tool_started state event
  else if t =s "tool.finished" then tool_terminal state event succeeded
  else if t =s "tool.failed" then tool_terminal state event failed
  else if t =s "tool.rejected" then tool_terminal state event rejected
  else if t =s "tool.cancelled" then tool_terminal state event cancelled
  else if t =s "auto_review.requested" then auto_review_requested state event
  else if t =s "auto_review.completed" then auto_review_completed state event
  else state.
End Reducer.
