(* ===== verification/AuthorizationProps.v ===== *)
(** * Properties of the authorization reducer

    [pending_step] is the abstract state machine of one pending approval.  The
    reducer refines it; the safety theorems are read off the machine. *)

From S2P Require Import Prelude Js Hash State ApprovalQueue Authorization.
From stdpp Require Import prelude strings list pretty.
From Stdlib Require Import ZArith Lia.
Open Scope Z_scope.

(** ** Frames *)

Lemma updateToolCall_frame s tid f :
  exists t, updateToolCall s tid f = s <| tools := t |>.
Proof.
  unfold updateToolCall. destruct (f _).
  - by eexists.
  - exists (tools s). by destruct s.
Qed.

Lemma pendingToolStatus_frame `{JsHost} s tid st g a m :
  exists t, pendingToolStatus s tid st g a m = s <| tools := t |>.
Proof. apply updateToolCall_frame. Qed.

(** Replace a tool-call update by an opaque change of [tools]. *)
Ltac frame_tools :=
  repeat match goal with
  | |- context [pendingToolStatus ?s ?a ?b ?c ?d ?e] =>
      let t := fresh "t" in let E := fresh "E" in
      destruct (pendingToolStatus_frame s a b c d e) as [t E]; rewrite !E; clear E
  | H : context [pendingToolStatus ?s ?a ?b ?c ?d ?e] |- _ =>
      let t := fresh "t" in let E := fresh "E" in
      destruct (pendingToolStatus_frame s a b c d e) as [t E]; rewrite !E in H; clear E
  | |- context [updateToolCall ?s ?a ?b] =>
      let t := fresh "t" in let E := fresh "E" in
      destruct (updateToolCall_frame s a b) as [t E]; rewrite !E; clear E
  | H : context [updateToolCall ?s ?a ?b] |- _ =>
      let t := fresh "t" in let E := fresh "E" in
      destruct (updateToolCall_frame s a b) as [t E]; rewrite !E in H; clear E
  end.

(** One goal per event case of the reducer. *)
Ltac auth_dispatch :=
  unfold reduceAuthorizationState;
  repeat match goal with
  | |- context [if (?t =s ?x) then _ else _] => destruct (t =s x) eqn:?; bool_hyps
  end.

Section Machine.
Context `{JsHost}.

(** ** Loops that rewrite their own entries *)

(** Every entry of the result is an old entry or the rewriting of one, and the
    keys do not change; [Inv] is what the loop maintains besides. *)
Lemma own_key_loop {A S : Type} (proj : S -> ordmap A) (step : S -> string * A -> S)
    (Q : string -> A -> A -> Prop) (Inv : S -> Prop) (m0 : ordmap A) (s0 : S) :
  proj s0 = m0 -> Inv s0 ->
  (forall s k p, In (k, p) m0 -> Inv s -> Inv (step s (k, p)) /\
     (proj (step s (k, p)) = proj s \/
      exists p', Q k p p' /\ proj (step s (k, p)) = oset k p' (proj s))) ->
  Inv (fold_left step m0 s0)
  /\ oall (fun k p' => In (k, p') m0 \/ exists p, In (k, p) m0 /\ Q k p p')
       (proj (fold_left step m0 s0))
  /\ okeys (proj (fold_left step m0 s0)) = okeys m0.
Proof.
  intros H0 Hi Hstep.
  apply (fold_left_inv step (fun s => Inv s
    /\ oall (fun k p' => In (k, p') m0 \/ exists p, In (k, p) m0 /\ Q k p p') (proj s)
    /\ okeys (proj s) = okeys m0)).
  - rewrite H0. split; [done|]. split; [|done]. intros k p Hin. by left.
  - intros s [k p] Hin (Hs & Ha & Hk).
    destruct (Hstep s k p Hin Hs) as [Hs' [->|(p' & HQ & ->)]]; [done|].
    split; [done|]. split; [apply oall_oset; [done|]; right; by exists p|].
    rewrite okeys_oset_present; [done|]. unfold ohas.
    destruct (oget k (proj s)) eqn:E; [done|]. apply oget_None_keys in E. exfalso. apply E.
    rewrite Hk. unfold okeys. apply in_map_iff. by exists (k, p).
Qed.

(** A loop whose rewriting of an entry depends on that entry alone is a map. *)
Definition rewrite_entries {A : Type} (g : A -> option A) (m : ordmap A) : ordmap A :=
  List.map (fun '(k, p) => (k, default p (g p))) m.

Lemma oset_split {A} k (v v' : A) m1 m2 :
  ~ In k (okeys m1) -> oset k v (m1 ++ (k, v') :: m2) = m1 ++ (k, v) :: m2.
Proof.
  induction m1 as [|[k1 v1] m1 IH]; simpl; intros Hn.
  - by rewrite String.eqb_refl.
  - destruct (k =s k1) eqn:E; bool_hyps; [subst; tauto|]. f_equal. apply IH. tauto.
Qed.

Lemma okeys_rewrite {A} (g : A -> option A) m : okeys (rewrite_entries g m) = okeys m.
Proof. unfold okeys, rewrite_entries. rewrite List.map_map. apply map_ext. by intros []. Qed.

Lemma oget_rewrite {A} (g : A -> option A) m k :
  oget k (rewrite_entries g m) = (fun p => default p (g p)) <$> oget k m.
Proof.
  induction m as [|[k' p] m IH]; simpl; [done|]. by destruct (k =s k').
Qed.

Lemma own_key_map {A S : Type} (proj : S -> ordmap A) (step : S -> string * A -> S)
    (g : A -> option A) (m0 : ordmap A) (s0 : S) :
  proj s0 = m0 -> NoDup (okeys m0) ->
  (forall s k p, proj (step s (k, p)) =
     match g p with Some p' => oset k p' (proj s) | None => proj s end) ->
  proj (fold_left step m0 s0) = rewrite_entries g m0.
Proof.
  intros H0 Hnd Hstep.
  assert (forall l2 l1 s, NoDup (okeys (l1 ++ l2)) -> proj s = rewrite_entries g l1 ++ l2 ->
    proj (fold_left step l2 s) = rewrite_entries g (l1 ++ l2)) as Hgen.
  { clear s0 H0 m0 Hnd. induction l2 as [|[k p] l2 IH]; intros l1 s Hnd Hs; simpl.
    - by rewrite app_nil_r in *.
    - replace (l1 ++ (k, p) :: l2) with ((l1 ++ [(k, p)]) ++ l2) in *
        by (by rewrite <- app_assoc).
      apply IH; [done|]. rewrite Hstep, Hs. unfold rewrite_entries.
      rewrite map_app, <- app_assoc. simpl. destruct (g p); simpl; [|done].
      apply oset_split. change (~ In k (okeys (rewrite_entries g l1))). rewrite okeys_rewrite.
      unfold okeys in Hnd. rewrite <- app_assoc, map_app in Hnd.
      apply NoDup_app in Hnd as (_ & Hd & _). intros Hin%list_elem_of_In.
      apply (Hd _ Hin). simpl. apply list_elem_of_here. }
  by apply (Hgen m0 []).
Qed.

(** ** The machine *)

(** Not settled, not released, not dispatched. *)
Definition waiting (p : AgentPendingApproval) : Prop :=
  terminalApprovalStatus (status p) = false
  /\ status p <> authorized_queued /\ status p <> running.

(** A decision event that names the focused waiter, its call, its owner and a
    generation that is current. *)
Definition decides_focus (s : AgentState) (e : obj) (k : string) (p : AgentPendingApproval)
  : Prop :=
  activeApprovalId s = Some k
  /\ get e "toolCallId" = VStr (toolCallId p)
  /\ ownerMatchesPending p (get e "owner") = true
  /\ get e "generation" = VNum (Fin (generation p))
  /\ approvalGeneration s <= generation p
  /\ terminalApprovalStatus (status p) = false.

(** A batch member: the event's match for it, its identity and generation. *)
Definition batch_member (s : AgentState) (e : obj) (m : obj) (p : AgentPendingApproval) : Prop :=
  exists supplied,
    recordField e "commandIdentity" = Some supplied
    /\ isCompleteCommandIdentity (Some supplied) = true
    /\ stringField e "grantKey" = Some (approvalCommandGrantKey (commandIdentityOf supplied))
    /\ sameCommandIdentity (commandIdentity p) (Some (commandIdentityOf supplied)) = true
    /\ ownerMatchesPending p (get m "owner") = true
    /\ numberField e "generation" = Some (generation p)
    /\ approvalGeneration s <= generation p
    /\ numberField e "sessionRevision" = Some (revision s).

(** The event withdraws the session grants and opens generation [gen]. *)
Definition clears (s : AgentState) (e : obj) (gen : Z) : Prop :=
  ev_type e = "approval.session_grants_cleared"%string
  /\ numberField e "generation" = Some gen /\ approvalGeneration s < gen <= MAX_SAFE_INTEGER
  /\ numberField e "sessionRevision" = Some (revision s)
  /\ get e "sessionId" = VStr (threadId (session s)).

Inductive pending_step (s : AgentState) (e : obj) (k : string)
  : AgentPendingApproval -> AgentPendingApproval -> Prop :=
| ps_full_release p :
    ev_type e = "interaction_mode.changed"%string -> stringField e "mode" = Some "full"%string ->
    get e "source" = VStr "user" -> mode s <> full ->
    fullModePolicyBypassAllowed p = true -> waiting p ->
    pending_step s e k p ((authorizePending p mode_full None) <| fullModeBypassEligible := true |>)
| ps_full_withdraw p :
    ev_type e = "interaction_mode.changed"%string -> get e "source" = VStr "user" ->
    authorizationSource p = Some mode_full -> status p = authorized_queued ->
    pending_step s e k p (restorePendingAfterClear p (generation p))
| ps_grant p rid :
    ev_type e = "approval.granted"%string -> decides_focus s e k p ->
    get e "grant" = VStr "approve_once" -> status p <> authorized_queued ->
    get e "receiptId" = VStr rid -> ohas rid (approvalReceipts s) = false ->
    pending_step s e k p (authorizePending p src_approve_once (Some rid))
| ps_reject p :
    ev_type e = "approval.rejected"%string -> decides_focus s e k p ->
    pending_step s e k p (p <| status := rejected |>)
| ps_batch p m rid :
    ev_type e = "approval.batch_released"%string -> batch_member s e m p -> waiting p ->
    stringOrUndefined (get m "receiptId") = Some rid -> ohas rid (approvalReceipts s) = false ->
    pending_step s e k p (authorizePending p src_same_command (Some rid))
| ps_cancel_review p :
    ev_type e = "approval.batch_released"%string -> waiting p -> route p = route_auto ->
    pending_step s e k p (p <| status := cancelled |>)
| ps_clear_withdraw p gen :
    clears s e gen -> authorizationSource p = Some src_same_command -> status p = authorized_queued ->
    pending_step s e k p (restorePendingAfterClear p gen)
| ps_clear_rebase p gen :
    clears s e gen -> waiting p ->
    pending_step s e k p (p <| generation := gen |>)
| ps_start p :
    ev_type e = "tool.started"%string -> get e "toolCallId" = VStr (toolCallId p) ->
    status p = authorized_queued ->
    pending_step s e k p (p <| dispatchState := Some dispatch_acked |> <| status := running |>)
| ps_settle p terminal :
    ev_type e ∈ ["tool.finished"; "tool.failed"; "tool.rejected"; "tool.cancelled"]%string ->
    get e "toolCallId" = VStr (toolCallId p) ->
    terminalApprovalStatus (status p) = false -> terminalApprovalStatus terminal = true ->
    pending_step s e k p (p <| status := terminal |>)
| ps_escalate p :
    ev_type e = "auto_review.completed"%string -> waiting p ->
    ownerMatchesPending p (get e "owner") = true ->
    pending_step s e k p (p <| route := route_user |> <| status := awaiting_user |>)
| ps_auto_approve p :
    ev_type e = "auto_review.completed"%string -> waiting p ->
    get e "toolCallId" = VStr (toolCallId p) ->
    ownerMatchesPending p (get e "owner") = true ->
    get (jsonRecord (get e "result")) "approved" = VBool true ->
    ohas (autoReceiptId k (generation p)) (approvalReceipts s) = false ->
    pending_step s e k p
      (authorizePending p src_approve_once (Some (autoReceiptId k (generation p))))
| ps_auto_refuse p :
    ev_type e = "auto_review.completed"%string -> waiting p ->
    ownerMatchesPending p (get e "owner") = true ->
    pending_step s e k p (p <| authorizationSource := None |> <| status := rejected |>).

(** A waiter the event admits to the queue. *)
Definition pending_new (s : AgentState) (e : obj) (k : string) (p : AgentPendingApproval) : Prop :=
  interactionId p = k /\ k <> ""%string /\ get e "toolCallId" = VStr (toolCallId p)
  /\ toolCallId p <> ""%string
  /\ sequence p = default (nextQueueSequence s) (safeNatural e "queueSequence")
  /\ generation p = default (approvalGeneration s) (safeNatural e "queueGeneration")
  /\ ownerMatchesPending p (get e "owner") = true
  /\ authorizationSource p = None /\ receiptId p = None
  /\ ((ev_type e = "approval.requested"%string
       /\ ((route p = route_auto /\ status p = queued_auto)
           \/ (route p = route_user /\ status p = awaiting_user)))
      \/ (ev_type e = "auto_review.requested"%string
          /\ route p = route_auto /\ status p = auto_reviewing)).

(** What one event may do to the entry at [k]. *)
Definition entry_ok (s : AgentState) (e : obj) (k : string) (p' : AgentPendingApproval) : Prop :=
  oget k (pendingApprovals s) = Some p'
  \/ (oget k (pendingApprovals s) = None /\ pending_new s e k p')
  \/ exists p, oget k (pendingApprovals s) = Some p /\ pending_step s e k p p'.

(** What one event may do to the queue: entries change by machine steps, no
    entry is dropped but by an abort, at most one is added, at the end. *)
Definition queue_step (s : AgentState) (e : obj) (m : ordmap AgentPendingApproval) : Prop :=
  oall (entry_ok s e) m
  /\ (okeys m = okeys (pendingApprovals s)
      \/ (exists k, ohas k (pendingApprovals s) = false
                    /\ okeys m = okeys (pendingApprovals s) ++ [k])
      \/ (m = [] /\ ev_type e = "turn.aborted"%string)).

Context (s : AgentState) (e : obj).
Hypothesis Hnd : NoDup (okeys (pendingApprovals s)).

Lemma queue_same m : m = pendingApprovals s -> queue_step s e m.
Proof using Hnd. intros ->. split; [|by left]. intros k p Hin. left. by apply In_oget. Qed.

(** Setting one entry by a machine step. *)
Lemma queue_set k p p' :
  oget k (pendingApprovals s) = Some p -> pending_step s e k p p' ->
  queue_step s e (oset k p' (pendingApprovals s)).
Proof using Hnd.
  intros Hk Hs. split.
  - apply oall_oset; [by apply queue_same|]. right. right. by exists p.
  - left. apply okeys_oset_present. unfold ohas. by rewrite Hk.
Qed.

Lemma queue_add p :
  ohas (interactionId p) (pendingApprovals s) = false -> pending_new s e (interactionId p) p ->
  queue_step s e (oset (interactionId p) p (pendingApprovals s)).
Proof using Hnd.
  intros Hk Hp. split.
  - apply oall_oset; [by apply queue_same|]. right. left. split; [|done].
    unfold ohas in Hk. by destruct (oget _ _).
  - right. left. exists (interactionId p). split; [done|]. rewrite okeys_oset_absent by done.
    unfold okeys. by rewrite map_app.
Qed.

Lemma queue_loop {S : Type} (proj : S -> ordmap AgentPendingApproval)
    (step : S -> string * AgentPendingApproval -> S) (Inv : S -> Prop) s0 :
  proj s0 = pendingApprovals s -> Inv s0 ->
  (forall acc k p, In (k, p) (pendingApprovals s) -> Inv acc -> Inv (step acc (k, p)) /\
     (proj (step acc (k, p)) = proj acc \/
      exists p', pending_step s e k p p' /\ proj (step acc (k, p)) = oset k p' (proj acc))) ->
  queue_step s e (proj (fold_left step (pendingApprovals s) s0)).
Proof using Hnd.
  intros H0 Hi Hstep.
  destruct (own_key_loop proj step (pending_step s e) Inv _ _ H0 Hi Hstep) as (_ & Ha & Hk).
  split; [|by left]. eapply oall_impl; [|exact Ha].
  intros k p' [Hin|(p & Hin & Hs)].
  - left. by apply In_oget.
  - right. right. exists p. split; [by apply In_oget|done].
Qed.

Lemma waiting_of p :
  terminalApprovalStatus (status p) = false -> status_is p authorized_queued = false ->
  status_is p running = false -> waiting p.
Proof.
  unfold status_is. intros Ht Ha Hr. apply bool_decide_eq_false in Ha, Hr. by split.
Qed.

Lemma mode_changed_queue :
  ev_type e = "interaction_mode.changed"%string ->
  queue_step s e (pendingApprovals (interaction_mode_changed s e)).
Proof using Hnd.
  intros He. unfold interaction_mode_changed.
  destruct (interactionMode _) as [m|] eqn:Em; [|by apply queue_same].
  destruct (nonEmptyStringField e "changedAt"); [|by apply queue_same].
  destruct (is_str (get e "source") "user") eqn:Es; simpl; [|by apply queue_same].
  apply is_str_true in Es.
  destruct (bool_decide (mode s = m)) eqn:Ed; simpl;
    [destruct (getActiveTask s); by apply queue_same|].
  apply bool_decide_eq_false in Ed.
  destruct (bool_decide (m = full)) eqn:Ef.
  - apply bool_decide_eq_true in Ef as ->.
    apply (queue_loop fst _ (fun _ => True)); [by destruct (getActiveTask s)|done|].
    intros [ps tl] k p Hin _. split; [done|]. simpl.
    destruct (_ || _) eqn:Eg; [by left|]. right. eexists. split; [|reflexivity]. bool_hyps.
    apply ps_full_release; try done; [|by apply waiting_of].
    destruct (stringField e "mode") as [x|]; [|done]. simpl in Em.
    repeat (case_match; bool_hyps; try done). by subst.
  - apply (queue_loop fst _ (fun _ => True)); [by destruct (getActiveTask s)|done|].
    intros [ps tl] k p Hin _. split; [done|]. simpl.
    destruct (_ || _) eqn:Eg; [by left|]. right. eexists. split; [|reflexivity]. 
    unfold status_is in *. bool_hyps.
    by apply ps_full_withdraw.
Qed.

(** Requests: nothing, or the admission of one new waiter. *)
Definition enqueues (s' : AgentState) : Prop :=
  exists t d p, ohas (interactionId p) (pendingApprovals s) = false
    /\ pending_new s e (interactionId p) p
    /\ s' = enqueuePending s (s <| tools := t |> <| doomLoop := d |>) p.

Lemma requested_cases :
  ev_type e = "approval.requested"%string ->
  approval_requested s e = s \/ enqueues (approval_requested s e).
Proof.
  clear Hnd. intros He. unfold approval_requested.
  destruct (nonEmptyStringField e "interactionId") as [iid|] eqn:Ei; [|by left].
  destruct (nonEmptyStringField e "toolCallId") as [tid|] eqn:Et; [|by left].
  destruct (ohas iid _) eqn:Eh; [by left|].
  destruct (negb _) eqn:Eo; [by left|]. bool_hyps. right.
  frame_tools. exists t, (doomLoop s). eexists. split_and!; [| |destruct s; reflexivity]; [done|].
  apply nonEmptyStringField_some in Ei as [_ ?], Et as [? ?].
  split_and!; try done. left. split; [done|].
  destruct (pendingRoute e); simpl; auto.
Qed.

Lemma review_requested_cases :
  ev_type e = "auto_review.requested"%string ->
  auto_review_requested s e = s \/ enqueues (auto_review_requested s e).
Proof.
  clear Hnd. intros He. unfold auto_review_requested.
  destruct (nonEmptyStringField e "reviewId") as [iid|] eqn:Ei; [|by left].
  destruct (nonEmptyStringField e "toolCallId") as [tid|] eqn:Et; [|by left].
  destruct (nonEmptyStringField e "toolName"); [|by left].
  destruct (stringField e "reason"); [|by left].
  destruct (ohas iid _) eqn:Eh; [by left|].
  destruct (negb _) eqn:Eo; [by left|]. bool_hyps. right.
  frame_tools.
  match goal with |- enqueues (enqueuePending _ ?n _) =>
    assert (exists d, n = s <| tools := t |> <| doomLoop := d |>) as [d ->] end.
  { clear. repeat case_match; eexists; first [reflexivity | destruct s; reflexivity]. }
  exists t, d. eexists. split_and!; [| |reflexivity]; [done|].
  apply nonEmptyStringField_some in Ei as [_ ?], Et as [? ?].
  split_and!; try done; simpl; try (unfold safeNatural, numberField; by rewrite get_oset_ne).
  right. done.
Qed.

Lemma enqueues_queue s' : enqueues s' -> queue_step s e (pendingApprovals s').
Proof using Hnd. intros (t & d & p & Hh & Hn & ->). simpl. by apply queue_add. Qed.

(** Settlements. *)
Lemma settleable_focus iid tid gen p :
  settleable s e = Some (iid, tid, gen, p) ->
  oget iid (pendingApprovals s) = Some p /\ decides_focus s e iid p
  /\ tid = toolCallId p /\ gen = generation p /\ isSafeInteger gen = true.
Proof.
  unfold settleable. intros Hs.
  destruct (nonEmptyStringField e "interactionId") as [i|]; [|done].
  destruct (nonEmptyStringField e "toolCallId") as [t|] eqn:Et; [|done].
  destruct (numberField e "generation") as [g|] eqn:Eg; [|done].
  destruct (oget i _) as [q|] eqn:Eq; [|done].
  destruct (_ && _) eqn:Eb; [|done]. injection Hs as <- <- <- <-. bool_hyps.
  apply nonEmptyStringField_some in Et as [Et _].
  apply numberField_some in Eg.
  split_and!; try done. unfold decides_focus. subst.
  split_and!; try done.
Qed.

Lemma granted_queue :
  ev_type e = "approval.granted"%string ->
  queue_step s e (pendingApprovals (approval_granted s e)).
Proof using Hnd.
  intros He. unfold approval_granted.
  destruct (settleable s e) as [[[[iid tid] gen] p]|] eqn:Es; [|by apply queue_same].
  destruct (nonEmptyStringField e "receiptId") as [rid|] eqn:Er; [|by apply queue_same].
  destruct (_ || _) eqn:Eb; [by apply queue_same|].
  destruct (ohas rid _) eqn:Eh; [by apply queue_same|]. bool_hyps. simpl.
  apply settleable_focus in Es as (Hk & Hf & _). apply (queue_set iid p); [done|].
  apply nonEmptyStringField_some in Er as [Er _].
  apply ps_grant; try done; [by apply is_str_true|].
  unfold status_is in *. by bool_hyps.
Qed.

Lemma rejected_queue :
  ev_type e = "approval.rejected"%string ->
  queue_step s e (pendingApprovals (approval_rejected s e)).
Proof using Hnd.
  intros He. unfold approval_rejected.
  destruct (settleable s e) as [[[[iid tid] gen] p]|] eqn:Es; [|by apply queue_same].
  apply settleable_focus in Es as (Hk & Hf & _). simpl. apply (queue_set iid p); [done|].
  by apply ps_reject.
Qed.

(** Withdrawal of the session grants. *)
Lemma cleared_cases :
  ev_type e = "approval.session_grants_cleared"%string ->
  approval_session_grants_cleared s e = s \/
  exists gen, clears s e gen
    /\ let acc := fold_left (clear_step gen) (pendingApprovals s) (pendingApprovals s, s) in
       approval_session_grants_cleared s e =
       (approvalQueueState (snd acc) (fst acc) (chooseApprovalFocus (fst acc)))
         <| sessionCommandGrants := [] |> <| approvalGeneration := gen |>.
Proof.
  intros He. unfold approval_session_grants_cleared.
  destruct (numberField e "sessionRevision") as [rev|] eqn:Er; [|by left].
  destruct (numberField e "generation") as [gen|] eqn:Eg; [|by left].
  destruct (_ && _) eqn:Eb; [|by left]. bool_hyps. subst. right. exists gen. split.
  - match goal with H : isSafeInteger gen = true |- _ => apply isSafeInteger_true in H end.
    match goal with H : nonEmptyStringField _ _ = _ |- _ =>
      apply nonEmptyStringField_some in H as [? _] end.
    split_and!; try done; lia.
  - by destruct (fold_left _ _ _).
Qed.

Lemma cleared_queue :
  ev_type e = "approval.session_grants_cleared"%string ->
  queue_step s e (pendingApprovals (approval_session_grants_cleared s e)).
Proof using Hnd.
  intros He. destruct (cleared_cases He) as [->|(gen & Hc & ->)]; [by apply queue_same|].
  apply (queue_loop fst _ (fun _ => True)); [done|done|].
  intros [qs t] k p Hin _. split; [done|]. simpl.
  destruct (_ && _) eqn:Ec.
  - right. eexists. split; [|reflexivity]. unfold status_is in *. bool_hyps.
    by apply ps_clear_withdraw.
  - destruct (pendingNeedsGenerationRebase p) eqn:En; [|by left].
    right. eexists. split; [|reflexivity]. unfold pendingNeedsGenerationRebase in En. bool_hyps.
    apply ps_clear_rebase; try done. by apply waiting_of.
Qed.

(** Dispatch and settlement of the call. *)
Lemma run_queue_loop step :
  (forall acc k p, In (k, p) (pendingApprovals s) ->
     ql_pendings (step acc (k, p)) = ql_pendings acc \/
     exists p', pending_step s e k p p'
                /\ ql_pendings (step acc (k, p)) = oset k p' (ql_pendings acc)) ->
  queue_step s e (pendingApprovals (runQueueLoop s step)).
Proof using Hnd.
  intros Hstep. unfold runQueueLoop. destruct (ql_changed _); [|by apply queue_same].
  simpl. apply (queue_loop ql_pendings step (fun _ => True)); [done|done|]. auto.
Qed.

Lemma started_queue :
  ev_type e = "tool.started"%string -> queue_step s e (pendingApprovals (tool_started s e)).
Proof using Hnd.
  intros He. unfold tool_started.
  destruct (nonEmptyStringField e "toolCallId") as [tid|] eqn:Et; [|by apply queue_same].
  apply run_queue_loop. intros acc k p Hin. simpl.
  destruct (_ || _) eqn:Eb; [by left|]. right. eexists. split; [|reflexivity].
  unfold status_is in *. bool_hyps. subst.
  apply nonEmptyStringField_some in Et as [Et _]. by apply ps_start.
Qed.

Lemma terminal_queue t :
  ev_type e ∈ ["tool.finished"; "tool.failed"; "tool.rejected"; "tool.cancelled"]%string ->
  terminalApprovalStatus t = true ->
  queue_step s e (pendingApprovals (tool_terminal s e t)).
Proof using Hnd.
  intros He Ht. unfold tool_terminal.
  destruct (nonEmptyStringField e "toolCallId") as [tid|] eqn:Et; [|by apply queue_same].
  apply run_queue_loop. intros acc k p Hin. simpl.
  destruct (_ || _) eqn:Eb; [by left|]. right. eexists. split; [|reflexivity].
  bool_hyps. subst. apply nonEmptyStringField_some in Et as [Et _]. by apply ps_settle.
Qed.

(** Auto review. *)
Lemma reviewable_waiting tid rid p :
  reviewable s e = Some (tid, rid, p) ->
  oget rid (pendingApprovals s) = Some p /\ waiting p /\ tid = toolCallId p
  /\ get e "toolCallId" = VStr tid /\ ownerMatchesPending p (get e "owner") = true.
Proof.
  unfold reviewable. intros Hr.
  destruct (nonEmptyStringField e "toolCallId") as [t|] eqn:Et; [|done].
  destruct (nonEmptyStringField e "reviewId") as [r|]; [|done].
  destruct (oget r _) as [q|] eqn:Eq; [|done].
  destruct (_ && _) eqn:Eb; [|done]. injection Hr as <- <- <-. bool_hyps.
  apply nonEmptyStringField_some in Et as [Et _].
  split_and!; try done. by apply waiting_of.
Qed.

Lemma review_completed_queue :
  ev_type e = "auto_review.completed"%string ->
  queue_step s e (pendingApprovals (auto_review_completed s e)).
Proof using Hnd.
  intros He. unfold auto_review_completed.
  destruct (reviewable s e) as [[[tid rid] p]|] eqn:Er; [|by apply queue_same].
  apply reviewable_waiting in Er as (Hk & Hw & -> & Ht & Ho).
  destruct (_ && _) eqn:E1; [|destruct (negb (is_false _) && _) eqn:E2].
  - simpl. apply (queue_set rid p); [done|]. by apply ps_escalate.
  - unfold auto_review_approved. destruct (ohas _ _) eqn:Eh; [by apply queue_same|]. simpl.
    apply (queue_set rid p); [done|]. apply ps_auto_approve; try done. bool_hyps.
    by apply is_true_true.
  - simpl. apply (queue_set rid p); [done|]. by apply ps_auto_refuse.
Qed.

(** Batch release. *)
Lemma batchGuard_focus iid tid key gen p :
  batchGuard s e = Some (iid, tid, key, gen, p) ->
  oget iid (pendingApprovals s) = Some p /\ activeApprovalId s = Some iid
  /\ toolCallId p = tid /\ get e "grantKey" = VStr key /\ isSafeInteger gen = true
  /\ numberField e "generation" = Some gen /\ approvalGeneration s <= gen
  /\ numberField e "sessionRevision" = Some (revision s)
  /\ ownerMatchesPending p (get e "owner") = true
  /\ terminalApprovalStatus (status p) = false.
Proof.
  unfold batchGuard. intros Hb.
  destruct (nonEmptyStringField e "interactionId") as [i|]; [|done].
  destruct (nonEmptyStringField e "toolCallId") as [t|]; [|done].
  destruct (nonEmptyStringField e "grantKey") as [k|] eqn:Ek; [|done].
  destruct (numberField e "generation") as [g|]; [|done].
  destruct (numberField e "sessionRevision") as [r|]; [|done].
  destruct (oget i _) as [q|] eqn:Eq; [|done].
  destruct (_ && _) eqn:Eb; [|done]. injection Hb as <- <- <- <- <-. bool_hyps.
  apply nonEmptyStringField_some in Ek as [Ek _]. subst. by split_and!.
Qed.

Definition receipts_grow (acc : BatchLoop) : Prop :=
  forall r, ohas r (approvalReceipts s) = true -> ohas r (bl_receipts acc) = true.

(** A review is cancelled at most once, and never after its release. *)
Lemma cancel_queue ids m :
  ev_type e = "approval.batch_released"%string -> queue_step s e m ->
  queue_step s e (fold_left cancelReview ids m).
Proof using Hnd.
  intros He Hm. apply fold_left_inv; [done|]. clear m Hm. intros m id _ [Ha Hk].
  unfold cancelReview. destruct (oget id m) as [p|] eqn:Ep; [|done].
  destruct (_ || _) eqn:Eb; [done|]. unfold status_is in Eb. bool_hyps.
  assert (okeys (oset id (p <| status := cancelled |>) m) = okeys m) as Hkeys.
  { apply okeys_oset_present. unfold ohas. by rewrite Ep. }
  split; [|destruct Hk as [Hk|[(k & Hn & Hk)|[-> Hk]]]].
  - apply oall_oset; [done|]. right. right. exists p.
    destruct (oall_oget _ _ _ _ Ha Ep) as [Ho|[(Ho & Hn)|(q & Ho & Hs)]].
    + split; [done|]. by apply ps_cancel_review.
    + exfalso. destruct Hn as (_ & _ & _ & _ & _ & _ & _ & _ & _ & [[Ht _]|[Ht _]]); congruence.
    + exfalso. inversion Hs; subst; try congruence; simpl in *; try done.
      all: match goal with
      | H : ev_type e ∈ _ |- _ =>
          rewrite He, list_elem_of_In in H; simpl in H; intuition discriminate
      | H : clears _ _ _ |- _ => destruct H as [? _]; congruence
      end.
  - left. congruence.
  - right. left. exists k. split; congruence.
  - done.
Qed.

Lemma batch_loop_queue iid tid key gen focused supplied matchIds createdAt :
  ev_type e = "approval.batch_released"%string ->
  batchGuard s e = Some (iid, tid, key, gen, focused) ->
  recordField e "commandIdentity" = Some supplied ->
  isCompleteCommandIdentity (Some supplied) = true ->
  key = approvalCommandGrantKey (commandIdentityOf supplied) ->
  queue_step s e
    (bl_pendings (fold_left (batch_step matchIds gen (commandIdentityOf supplied) createdAt)
       (pendingApprovals s) (mkBatchLoop (pendingApprovals s) (approvalReceipts s) [] s))).
Proof using Hnd.
  intros He Hg Hid Hc ->. apply batchGuard_focus in Hg as (_ & _ & _ & Hk & _ & Hgen & Hle & Hr & _).
  apply (queue_loop bl_pendings _ receipts_grow); [done|by intros r|].
  intros acc k p Hin Hinv. cbn [batch_step].
  destruct (oget k matchIds) as [m|]; [|by auto].
  destruct (negb (batchEligible _ _ _ _)) eqn:Eb; [by auto|].
  destruct (stringOrUndefined _) as [rid|] eqn:Er; [|by auto].
  destruct (ohas rid _) eqn:Eh; [by auto|]. split.
  - intros r Hhas. simpl. unfold ohas. rewrite oget_oset. destruct (r =s rid); [done|].
    by apply Hinv.
  - right. eexists. split; [|reflexivity].
    unfold batchEligible in Eb. bool_hyps. subst.
    apply (ps_batch _ _ _ p m rid); try done.
    + exists supplied. split_and!; try done. by unfold stringField; rewrite Hk.
    + by apply waiting_of.
    + destruct (ohas rid (approvalReceipts s)) eqn:Eo; [|done].
      apply Hinv in Eo. congruence.
Qed.

Lemma batch_released_queue :
  ev_type e = "approval.batch_released"%string ->
  queue_step s e (pendingApprovals (approval_batch_released s e)).
Proof using Hnd.
  intros He. unfold approval_batch_released.
  destruct (batchGuard s e) as [[[[[iid tid] key] gen] focused]|] eqn:Eg; [|by apply queue_same].
  destruct (recordField e "commandIdentity") as [supplied|] eqn:Ei; [|by apply queue_same].
  destruct (negb (isCompleteCommandIdentity _)) eqn:Ec; [by apply queue_same|].
  destruct (negb (_ =s _)) eqn:Ek; [by apply queue_same|].
  destruct (negb (matchReceiptsDistinct _ _) || _); [by apply queue_same|].
  destruct (negb (str_in _ _)); [by apply queue_same|]. bool_hyps.
  apply cancel_queue; [done|]. eapply batch_loop_queue; eauto.
Qed.

Lemma aborted_queue :
  ev_type e = "turn.aborted"%string -> queue_step s e (pendingApprovals (turn_aborted s e)).
Proof using Hnd.
  intros He. unfold turn_aborted.
  destruct (nonEmptyStringField e "turnId") as [t|]; [|by apply queue_same].
  destruct (t =s _); [|by apply queue_same]. destruct (fold_left _ _ _). simpl.
  split; [apply oall_nil|]. auto.
Qed.

(** The refinement: what the whole reducer does to the queue. *)
Lemma reduce_queue_step : queue_step s e (pendingApprovals (reduceAuthorizationState s e)).
Proof using Hnd.
  auth_dispatch; first [ by apply mode_changed_queue | by destruct requested_cases as [->|?]; [|apply queue_same|apply enqueues_queue] | by apply granted_queue
        | by apply rejected_queue | by apply batch_released_queue | by apply cleared_queue
        | by apply aborted_queue | by apply started_queue | by destruct review_requested_cases as [->|?]; [|apply queue_same|apply enqueues_queue]
        | by apply review_completed_queue | by apply queue_same
        | apply terminal_queue; [set_solver | done] ].
Qed.
End Machine.
