(* ===== verification/AuthorizationSafety.v ===== *)
(** * Safety of the authorization reducer

    The theorems read off the queue machine of [AuthorizationProps]: who may
    release a call, that settled approvals stay settled, that decisions of a
    past generation do nothing, what a withdrawal and an abort leave behind,
    and the invariant that every event preserves. *)

From S2P Require Import Prelude Js Hash State ApprovalQueue Authorization AuthorizationProps.
From stdpp Require Import prelude strings list pretty.
From Stdlib Require Import ZArith Lia.
Open Scope Z_scope.

Section Safety.
Context `{JsHost}.
Implicit Types (s : AgentState) (e : obj) (k : string) (p : AgentPendingApproval).

(** ** Reading the machine *)

Lemma queue_NoDup s e :
  NoDup (okeys (pendingApprovals s)) ->
  NoDup (okeys (pendingApprovals (reduceAuthorizationState s e))).
Proof.
  intros Hnd. destruct (reduce_queue_step s e Hnd) as [_ [Hk|[(k & Hn & Hk)|[Hk _]]]].
  - by rewrite Hk.
  - rewrite Hk. apply NoDup_app. split; [done|]. split; [|apply NoDup_singleton].
    intros x Hx Hx'. apply list_elem_of_singleton in Hx' as ->.
    unfold ohas in Hn. destruct (oget k _) eqn:E; [done|].
    apply oget_None_keys in E. apply E. by apply list_elem_of_In.
  - rewrite Hk. apply NoDup_nil_2.
Qed.

Lemma queue_entry s e k p' :
  NoDup (okeys (pendingApprovals s)) ->
  oget k (pendingApprovals (reduceAuthorizationState s e)) = Some p' -> entry_ok s e k p'.
Proof.
  intros Hnd Hk. destruct (reduce_queue_step s e Hnd) as [Ha _]. by eapply oall_oget.
Qed.

(** No event but an abort drops an entry. *)
Lemma queue_keeps s e k p :
  NoDup (okeys (pendingApprovals s)) -> oget k (pendingApprovals s) = Some p ->
  ev_type e <> "turn.aborted"%string ->
  exists p', oget k (pendingApprovals (reduceAuthorizationState s e)) = Some p'
             /\ (p' = p \/ pending_step s e k p p').
Proof.
  intros Hnd Hk Hne.
  destruct (oget k (pendingApprovals (reduceAuthorizationState s e))) as [p'|] eqn:E.
  - exists p'. split; [done|]. destruct (queue_entry s e k p' Hnd E) as [Ho|[(Ho & _)|(q & Ho & ?)]].
    + left. congruence.
    + congruence.
    + right. congruence.
  - exfalso. apply oget_None_keys in E. assert (In k (okeys (pendingApprovals s))) as Hin.
    { apply oget_In in Hk. apply in_map_iff. by exists (k, p). }
    destruct (reduce_queue_step s e Hnd) as [_ [Hks|[(k' & _ & Hks)|[_ Hks]]]]; [| |done].
    + by rewrite Hks in E.
    + rewrite Hks, in_app_iff in E. tauto.
Qed.

(** What identifies a waiter never changes. *)
Definition same_waiter p p' : Prop :=
  interactionId p' = interactionId p /\ toolCallId p' = toolCallId p
  /\ parentToolCallId p' = parentToolCallId p /\ childSubagentId p' = childSubagentId p
  /\ childToolCallId p' = childToolCallId p /\ commandIdentity p' = commandIdentity p
  /\ commandKey p' = commandKey p /\ bindingDigest p' = bindingDigest p
  /\ approval p' = approval p /\ invocation p' = invocation p /\ sequence p' = sequence p
  /\ createdAt p' = createdAt p
  /\ fullModePolicyBypassAllowed p' = fullModePolicyBypassAllowed p.

Lemma step_same_waiter s e k p p' : pending_step s e k p p' -> same_waiter p p'.
Proof. intros Hs. inversion Hs; subst; by split_and!. Qed.

Lemma same_waiter_trans p1 p2 p3 : same_waiter p1 p2 -> same_waiter p2 p3 -> same_waiter p1 p3.
Proof.
  intros (?&?&?&?&?&?&?&?&?&?&?&?&?) (?&?&?&?&?&?&?&?&?&?&?&?&?). split_and!; congruence.
Qed.

Lemma new_waiting s e k p : pending_new s e k p -> waiting p.
Proof.
  intros (_&_&_&_&_&_&_&_&_&[(_ & [[_ Hs]|[_ Hs]])|(_ & _ & Hs)]);
    unfold waiting; rewrite Hs; done.
Qed.

(** An event is of one type: the machine's steps of another type are excluded. *)
Ltac step_cases Hs :=
  inversion Hs; subst;
  repeat match goal with
  | H : clears _ _ _ |- _ => destruct H as (? & ? & ? & ? & ?)
  | H : waiting _ |- _ => destruct H as (? & ? & ?)
  | H : status _ = _ |- _ => progress (simpl in H)
  | H : context [restorePendingAfterClear ?p _] |- _ =>
      unfold restorePendingAfterClear in H; destruct (route p)
  end; try congruence.

(** ** Release *)

(** The event releases the waiter [p] at [k]: the user switched to Full and
    policy sealed the call as bypassable, or decided the focused waiter, or
    released every call of the same command, or the auto reviewer of the call
    approved it. *)
Definition authorizes s e k p : Prop :=
  terminalApprovalStatus (status p) = false /\
  ((ev_type e = "interaction_mode.changed"%string /\ get e "source" = VStr "user"
    /\ stringField e "mode" = Some "full"%string /\ mode s <> full
    /\ fullModePolicyBypassAllowed p = true)
   \/ (ev_type e = "approval.granted"%string /\ get e "grant" = VStr "approve_once"
       /\ decides_focus s e k p)
   \/ (ev_type e = "approval.batch_released"%string /\ exists m, batch_member s e m p)
   \/ (ev_type e = "auto_review.completed"%string
       /\ get (jsonRecord (get e "result")) "approved" = VBool true
       /\ get e "toolCallId" = VStr (toolCallId p)
       /\ ownerMatchesPending p (get e "owner") = true)).

Lemma step_release s e k p p' :
  pending_step s e k p p' -> status p' = authorized_queued -> status p <> authorized_queued ->
  authorizes s e k p.
Proof.
  intros Hs Ha Hn. step_cases Hs; unfold authorizes; split_and?; try done; try tauto.
  - by match goal with H : decides_focus _ _ _ _ |- _ => apply H end.
  - right. right. left. split; [done|]. by eexists.
  - by subst.
Qed.

Lemma step_running s e k p p' :
  pending_step s e k p p' -> status p' = running -> status p <> running ->
  ev_type e = "tool.started"%string /\ get e "toolCallId" = VStr (toolCallId p)
  /\ status p = authorized_queued.
Proof. intros Hs Ha Hn. step_cases Hs; [done|]. by subst. Qed.

Lemma step_settled s e k p p' :
  pending_step s e k p p' -> terminalApprovalStatus (status p) = false.
Proof.
  intros Hs. step_cases Hs; try match goal with H : status p = _ |- _ => by rewrite H end.
  all: match goal with H : decides_focus _ _ _ _ |- _ => apply H end.
Qed.

(** ** Histories *)

Definition run s (es : list obj) : AgentState := fold_left reduceAuthorizationState es s.

Lemma run_snoc s es e : run s (es ++ [e]) = reduceAuthorizationState (run s es) e.
Proof. unfold run. by rewrite fold_left_app. Qed.

Lemma run_NoDup s es :
  NoDup (okeys (pendingApprovals s)) -> NoDup (okeys (pendingApprovals (run s es))).
Proof.
  intros Hs. unfold run. apply fold_left_inv; [done|]. intros s' e _ Hs'. by apply queue_NoDup.
Qed.

Definition released p : Prop := status p = authorized_queued \/ status p = running.

Lemma released_history s es k p' :
  pendingApprovals s = [] -> oget k (pendingApprovals (run s es)) = Some p' -> released p' ->
  exists es1 e es2 p, es = es1 ++ e :: es2
    /\ oget k (pendingApprovals (run s es1)) = Some p /\ authorizes (run s es1) e k p
    /\ same_waiter p p'.
Proof.
  intros H0. revert p'. induction es as [|e es IH] using rev_ind; intros p' Hk Hr.
  { simpl in Hk. by rewrite H0 in Hk. }
  rewrite run_snoc in Hk.
  assert (NoDup (okeys (pendingApprovals (run s es)))) as Hnd.
  { apply run_NoDup. rewrite H0. apply NoDup_nil_2. }
  assert (forall p, oget k (pendingApprovals (run s es)) = Some p -> released p -> same_waiter p p' ->
    exists es1 e' es2 p1, es ++ [e] = es1 ++ e' :: es2
      /\ oget k (pendingApprovals (run s es1)) = Some p1 /\ authorizes (run s es1) e' k p1
      /\ same_waiter p1 p') as Hearlier.
  { intros p Hp Hrp Hsame. destruct (IH p Hp Hrp) as (es1 & e1 & es2 & q & -> & Hq & Ha & Hw).
    exists es1, e1, (es2 ++ [e]), q. rewrite <- app_assoc. split_and!; try done.
    by eapply same_waiter_trans. }
  destruct (queue_entry _ _ _ _ Hnd Hk) as [Ho|[(_ & Hn)|(p & Ho & Hs)]].
  - by apply (Hearlier p').
  - exfalso. apply new_waiting in Hn as (_ & Hq & Hu). by destruct Hr.
  - pose proof (step_same_waiter _ _ _ _ _ Hs) as Hsame.
    destruct (decide (status p = authorized_queued \/ status p = running)) as [Hd|Hd];
      [by apply (Hearlier p)|].
    exists es, e, [], p. split_and!; try done. destruct Hr as [Hr|Hr].
    + eapply step_release; eauto.
    + exfalso. destruct (step_running _ _ _ _ _ Hs Hr) as (_ & _ & ?); tauto.
Qed.

(** ** Counters *)

Lemma batch_next_frame ms gen i c l acc :
  exists t, bl_next (fold_left (batch_step ms gen i c) l acc) = (bl_next acc) <| tools := t |>.
Proof.
  apply (fold_left_inv _ (fun a => exists t, bl_next a = (bl_next acc) <| tools := t |>)).
  - exists (tools (bl_next acc)). by destruct (bl_next acc).
  - intros a [k p] _ [t Ht]. cbn [batch_step]. repeat case_match; try by exists t.
    cbn [bl_next]. edestruct pendingToolStatus_frame as [t' ->]. exists t'. by rewrite Ht.
Qed.

Lemma clear_next_frame gen l m s :
  exists t m', snd (fold_left (clear_step gen) l (m, s)) =
    s <| tools := t |> <| pendingApprovals := m' |>.
Proof.
  apply (fold_left_inv _ (fun a => exists t m', snd a =
    s <| tools := t |> <| pendingApprovals := m' |>)).
  - exists (tools s), (pendingApprovals s). by destruct s.
  - intros [a n] [k p] _ (t & m' & Ht). cbn [clear_step snd] in *.
    repeat case_match; try by exists t, m'.
    cbn [snd]. edestruct pendingToolStatus_frame as [t' ->]. eexists t', _. by rewrite Ht.
Qed.

(** A request event. *)
Definition is_request e : bool :=
  (ev_type e =s "approval.requested") || (ev_type e =s "auto_review.requested").

Lemma runQueueLoop_frame s step :
  exists m a i r, runQueueLoop s step =
    s <| pendingApprovals := m |> <| activeApprovalId := a |> <| interactions := i |>
      <| approvalReceipts := r |>.
Proof.
  unfold runQueueLoop. case_match; [by repeat eexists|].
  exists (pendingApprovals s), (activeApprovalId s), (interactions s), (approvalReceipts s).
  by destruct s.
Qed.

(** The generation each event leaves: at least the old one, within the doubles'
    exact range; the queue counter moves with requests only. *)
Definition counters s s' : Prop :=
  nextQueueSequence s' = nextQueueSequence s
  /\ approvalGeneration s <= approvalGeneration s' <= two53.

Lemma counters_same s s' :
  0 <= approvalGeneration s <= two53 -> nextQueueSequence s' = nextQueueSequence s ->
  approvalGeneration s' = approvalGeneration s -> counters s s'.
Proof. intros Hg Hn Ha. unfold counters. rewrite Hn, Ha. split; [done|lia]. Qed.

Lemma mode_changed_counters s e :
  0 <= approvalGeneration s <= two53 -> counters s (interaction_mode_changed s e).
Proof.
  intros Hg. apply counters_same; [done| |]; unfold interaction_mode_changed;
    repeat case_match; done.
Qed.

Lemma granted_counters s e :
  0 <= approvalGeneration s <= two53 -> counters s (approval_granted s e).
Proof.
  intros Hg. unfold approval_granted.
  destruct (settleable s e) as [[[[iid tid] gen] p]|] eqn:Es; [|by apply counters_same].
  repeat case_match; try by apply counters_same.
  apply settleable_focus in Es as (_ & _ & _ & _ & Hs%isSafeInteger_true).
  frame_tools. unfold counters. simpl. unfold MAX_SAFE_INTEGER in *. lia.
Qed.

Lemma rejected_counters s e :
  0 <= approvalGeneration s <= two53 -> counters s (approval_rejected s e).
Proof.
  intros Hg. unfold approval_rejected.
  repeat case_match; try by apply counters_same. frame_tools. by apply counters_same.
Qed.

Lemma batch_counters s e :
  0 <= approvalGeneration s <= two53 -> counters s (approval_batch_released s e).
Proof.
  intros Hg. unfold approval_batch_released.
  destruct (batchGuard s e) as [[[[[iid tid] key] gen] p]|] eqn:Es; [|by apply counters_same].
  repeat case_match; try by apply counters_same.
  apply batchGuard_focus in Es as (_ & _ & _ & _ & Hs%isSafeInteger_true & _).
  edestruct batch_next_frame as [t Ht]. unfold counters. simpl. rewrite Ht. simpl.
  unfold MAX_SAFE_INTEGER in *. lia.
Qed.

Lemma cleared_counters s e :
  ev_type e = "approval.session_grants_cleared"%string ->
  0 <= approvalGeneration s <= two53 -> counters s (approval_session_grants_cleared s e).
Proof.
  intros He Hg. destruct (cleared_cases s e He) as [->|(gen & (_ & _ & Hgen & _) & ->)];
    [by apply counters_same|].
  edestruct clear_next_frame as (t & m & Ht). unfold counters. simpl. rewrite Ht. simpl.
  unfold MAX_SAFE_INTEGER in *. lia.
Qed.

Lemma aborted_counters s e :
  0 <= approvalGeneration s <= two53 -> counters s (turn_aborted s e).
Proof.
  intros Hg. unfold turn_aborted. repeat case_match; try by apply counters_same.
  unfold counters. simpl. pose proof (fadd_succ_range _ Hg). lia.
Qed.

Lemma loop_counters s step :
  0 <= approvalGeneration s <= two53 -> counters s (runQueueLoop s step).
Proof.
  intros Hg. destruct (runQueueLoop_frame s step) as (m & a & i & r & ->).
  by apply counters_same.
Qed.

Lemma review_counters s e :
  0 <= approvalGeneration s <= two53 -> counters s (auto_review_completed s e).
Proof.
  intros Hg. unfold auto_review_completed, auto_review_escalated, auto_review_approved,
    auto_review_refused.
  repeat case_match; first [by apply counters_same | frame_tools; by apply counters_same].
Qed.

Lemma request_cases s e :
  is_request e = true ->
  reduceAuthorizationState s e = s \/ enqueues s e (reduceAuthorizationState s e).
Proof.
  unfold is_request. intros Hr. apply orb_true_iff in Hr as [Hr|Hr]; bool_hyps;
    unfold reduceAuthorizationState; rewrite Hr; cbn [String.eqb Ascii.eqb Bool.eqb].
  - by apply requested_cases.
  - by apply review_requested_cases.
Qed.

Lemma reduce_counters s e :
  is_request e = false -> 0 <= approvalGeneration s <= two53 ->
  counters s (reduceAuthorizationState s e).
Proof.
  unfold is_request. intros Hr Hg. bool_hyps.
  auth_dispatch; first
  [ congruence | by apply mode_changed_counters | by apply granted_counters
  | by apply rejected_counters | by apply batch_counters | by apply cleared_counters
  | by apply aborted_counters
  | unfold tool_started, tool_terminal; case_match; [by apply loop_counters|by apply counters_same]
  | by apply review_counters | by apply counters_same ].
Qed.

(** ** The queue invariant *)

(** The focus is live, keys are identities, counters bound the entries, and an
    entry released by the mode alone is only released while the mode is Full. *)
Record queue_inv s : Prop := {
  qi_nodup : NoDup (okeys (pendingApprovals s));
  qi_identity : oall (fun k p => interactionId p = k /\ k <> ""%string
                                 /\ toolCallId p <> ""%string) (pendingApprovals s);
  qi_focus : forall k, activeApprovalId s = Some k ->
    exists p, oget k (pendingApprovals s) = Some p /\ pendingNeedsFocus (status p) = true;
  qi_generation : 0 <= approvalGeneration s <= two53
    /\ oall (fun _ p => 0 <= generation p <= approvalGeneration s) (pendingApprovals s);
  qi_sequence : 0 <= nextQueueSequence s <= two53
    /\ oall (fun _ p => 0 <= sequence p <= nextQueueSequence s
                        /\ (sequence p = nextQueueSequence s -> nextQueueSequence s = two53))
         (pendingApprovals s);
  qi_full : oall (fun _ p => authorizationSource p = Some mode_full ->
                             status p = authorized_queued -> mode s = full)
              (pendingApprovals s) }.

Lemma identity_preserved s e :
  queue_inv s ->
  oall (fun k p => interactionId p = k /\ k <> ""%string /\ toolCallId p <> ""%string)
    (pendingApprovals (reduceAuthorizationState s e)).
Proof.
  intros [Hnd Hid _ _ _ _]. destruct (reduce_queue_step s e Hnd) as [Ha _].
  eapply oall_impl; [|exact Ha]. intros k p' [Ho|[(_ & Hn)|(p & Ho & Hs)]].
  - by apply (oall_oget _ _ _ _ Hid).
  - by destruct Hn as (? & ? & _ & ? & _).
  - apply (oall_oget _ _ _ _ Hid) in Ho. by destruct (step_same_waiter _ _ _ _ _ Hs) as (-> & -> & _).
Qed.

Lemma new_generation s e k p :
  0 <= approvalGeneration s <= two53 -> pending_new s e k p -> 0 <= generation p <= two53.
Proof.
  intros Hg (_ & _ & _ & _ & _ & -> & _).
  destruct (safeNatural e "queueGeneration") as [g|] eqn:E; simpl; [|done].
  apply safeNatural_some in E as [_ E]. unfold MAX_SAFE_INTEGER in E. lia.
Qed.

(** A step keeps the generation or, in a withdrawal, opens the new one. *)
Lemma step_generation s e k p p' :
  pending_step s e k p p' -> generation p' = generation p \/ clears s e (generation p').
Proof. intros Hs. inversion Hs; subst; auto. Qed.

Lemma clears_generation s e gen :
  clears s e gen -> reduceAuthorizationState s e = s \/
  approvalGeneration (reduceAuthorizationState s e) = gen.
Proof.
  intros (He & Hg & _). unfold reduceAuthorizationState. rewrite He.
  cbn [String.eqb Ascii.eqb Bool.eqb].
  destruct (cleared_cases s e He) as [?|(g & (_ & Hg' & _) & ->)]; [auto|].
  right. simpl. congruence.
Qed.

Lemma new_is_request s e k p : pending_new s e k p -> is_request e = true.
Proof.
  intros (_&_&_&_&_&_&_&_&_&[[Ht _]|[Ht _]]); unfold is_request; by rewrite Ht.
Qed.

Lemma generation_preserved s e :
  queue_inv s -> let s' := reduceAuthorizationState s e in
  0 <= approvalGeneration s' <= two53
  /\ oall (fun _ p => 0 <= generation p <= approvalGeneration s') (pendingApprovals s').
Proof.
  intros [Hnd _ _ [Hg Ha] _ _] s'. destruct (is_request e) eqn:Er.
  - subst s'. destruct (request_cases s e Er) as [->|(t & d & p & Hh & Hn & ->)]; [done|].
    pose proof (new_generation _ _ _ _ Hg Hn). simpl. split; [lia|]. apply oall_oset; [|lia].
    eapply oall_impl; [|exact Ha]. simpl. lia.
  - destruct (reduce_counters s e Er Hg) as [_ Hc]. fold s' in Hc. split; [lia|].
    intros k p' Hin. apply In_oget in Hin; [|by apply queue_NoDup].
    destruct (queue_entry s e k p' Hnd Hin) as [Ho|[(_ & Hn)|(p & Ho & Hs)]].
    + apply (oall_oget _ _ _ _ Ha) in Ho. simpl in Ho. lia.
    + apply new_is_request in Hn. congruence.
    + apply (oall_oget _ _ _ _ Ha) in Ho as Hp. simpl in Hp.
      destruct (step_generation _ _ _ _ _ Hs) as [->|Hcl]; [lia|].
      destruct (clears_generation _ _ _ Hcl) as [Heq|Heq].
      * subst s'. rewrite Heq in Hin |- *. apply (oall_oget _ _ _ _ Ha Hin).
      * subst s'. lia.
Qed.

Lemma new_sequence s e k p :
  0 <= nextQueueSequence s <= two53 -> pending_new s e k p ->
  0 <= sequence p <= two53
  /\ (sequence p = nextQueueSequence s \/ sequence p < two53).
Proof.
  intros Hg (_ & _ & _ & _ & -> & _).
  destruct (safeNatural e "queueSequence") as [g|] eqn:E; simpl; [|auto].
  apply safeNatural_some in E as [_ E]. unfold MAX_SAFE_INTEGER in E. lia.
Qed.

Lemma sequence_preserved s e :
  queue_inv s -> let s' := reduceAuthorizationState s e in
  0 <= nextQueueSequence s' <= two53
  /\ oall (fun _ p => 0 <= sequence p <= nextQueueSequence s'
            /\ (sequence p = nextQueueSequence s' -> nextQueueSequence s' = two53))
       (pendingApprovals s').
Proof.
  intros [Hnd _ _ [Hg _] [Hq Ha] _] s'. destruct (is_request e) eqn:Er.
  - subst s'. destruct (request_cases s e Er) as [->|(t & d & p & Hh & Hn & ->)]; [done|].
    destruct (new_sequence _ _ _ _ Hq Hn) as [Hp Hp']. simpl. unfold nextQueueSequence_after.
    pose proof (fadd_succ_range (sequence p) Hp).
    assert (sequence p < two53 -> fadd (sequence p) 1 = sequence p + 1) as Hsucc
      by (intros; apply fadd_succ; lia).
    split; [lia|]. apply oall_oset; [|lia].
    eapply oall_impl; [|exact Ha]. simpl. lia.
  - destruct (reduce_counters s e Er Hg) as [Hc _]. fold s' in Hc. rewrite Hc. split; [done|].
    intros k p' Hin. apply In_oget in Hin; [|by apply queue_NoDup].
    destruct (queue_entry s e k p' Hnd Hin) as [Ho|[(_ & Hn)|(p & Ho & Hs)]].
    + apply (oall_oget _ _ _ _ Ha Ho).
    + apply new_is_request in Hn. congruence.
    + apply (oall_oget _ _ _ _ Ha) in Ho as Hp. simpl in Hp.
      destruct (step_same_waiter _ _ _ _ _ Hs) as (_&_&_&_&_&_&_&_&_&_&->&_). done.
Qed.

(** ** Focus *)

(** The scan keeps the first of the least-sequence entries that need focus. *)
Lemma focus_fold l acc :
  fold_left focus_step l acc = None /\ acc = None
    /\ Forall (fun p => pendingNeedsFocus (status p) = false) l
  \/ exists p, fold_left focus_step l acc = Some p
       /\ (acc = Some p \/ (In p l /\ pendingNeedsFocus (status p) = true))
       /\ (forall q, In q l -> pendingNeedsFocus (status q) = true -> sequence p <= sequence q)
       /\ (forall q, acc = Some q -> sequence p <= sequence q).
Proof.
  revert acc. induction l as [|q l IH]; intros acc; simpl.
  { destruct acc as [p|]; [right; exists p|left; by split_and!].
    split_and!; try done; [by left|]. intros q [= ->]. lia. }
  unfold focus_step at 2 4. destruct (pendingNeedsFocus (status q)) eqn:Eq.
  - right. set (acc' := match acc with Some s => _ | None => _ end).
    destruct (IH acc') as [(_ & Hn & _)|(p & Hp & Hin & Hmin & Hacc)].
    { subst acc'. destruct acc; [case_match; done|done]. }
    exists p. split; [done|].
    assert (acc' = Some q /\ (forall r, acc = Some r -> sequence q <= sequence r)
            \/ acc' = acc /\ exists r, acc = Some r /\ sequence r <= sequence q) as Hcase.
    { subst acc'. destruct acc as [r|]; [|left; split; done].
      destruct (sequence q <? sequence r) eqn:E; bool_hyps.
      - left. split; [done|]. intros ? [= <-]. lia.
      - right. split; [done|]. by exists r. }
    destruct Hcase as [[Ha Hr]|[Ha (r & Hr & Hle)]]; rewrite Ha in *.
    + pose proof (Hacc q eq_refl). split_and!.
      * right. destruct Hin as [[= ->]|[? ?]]; auto.
      * intros q' [<-|Hq'] Hf; [done|]. by apply Hmin.
      * intros q' Hq'. specialize (Hr _ Hq'). lia.
    + pose proof (Hacc r Hr). split_and!.
      * destruct Hin as [?|[? ?]]; auto.
      * intros q' [<-|Hq'] Hf; [lia|]. by apply Hmin.
      * done.
  - destruct (IH acc) as [(Hn & -> & Hf)|(p & Hp & Hin & Hmin & Hacc)].
    + left. split_and!; try done. by constructor.
    + right. exists p. split_and!; try done.
      * destruct Hin as [?|[? ?]]; auto.
      * intros q' [<-|Hq'] Hf; [congruence|]. by apply Hmin.
Qed.

Lemma focus_live m k :
  NoDup (okeys m) -> oall (fun k p => interactionId p = k) m ->
  chooseApprovalFocus m = Some k ->
  exists p, oget k m = Some p /\ pendingNeedsFocus (status p) = true.
Proof.
  intros Hnd Hid. unfold chooseApprovalFocus.
  destruct (focus_fold (ovalues m) None) as [(-> & _)|(p & -> & [?|[Hin Hf]] & _)]; [done|done|].
  simpl. intros [= <-]. apply In_ovalues in Hin as [k Hin]. rewrite (Hid _ _ Hin).
  exists p. split; [by apply In_oget|done].
Qed.

Definition refocuses s s' : Prop :=
  activeApprovalId s' = chooseApprovalFocus (pendingApprovals s') \/ activeApprovalId s' = None
  \/ (activeApprovalId s' = activeApprovalId s
      /\ forall k p, oget k (pendingApprovals s) = Some p -> pendingNeedsFocus (status p) = true ->
         exists p', oget k (pendingApprovals s') = Some p'
                    /\ pendingNeedsFocus (status p') = true).

Lemma refocuses_same s s' :
  activeApprovalId s' = activeApprovalId s -> pendingApprovals s' = pendingApprovals s ->
  refocuses s s'.
Proof. intros Ha Hp. right. right. split; [done|]. rewrite Hp. eauto. Qed.

Lemma enqueues_refocuses s e s' : enqueues s e s' -> refocuses s s'.
Proof.
  intros (t & d & p & Hh & Hn & ->). unfold refocuses. simpl.
  destruct (activeApprovalId s) as [a|]; [|by left]. right. right. split; [done|].
  intros k q Hk Hf. exists q. split; [|done]. rewrite oget_oset.
  destruct (k =s interactionId p) eqn:E; [|done]. bool_hyps. subst k.
  unfold ohas in Hh. by rewrite Hk in Hh.
Qed.

Lemma escalated_refocuses s tid rid p d :
  refocuses s (auto_review_escalated s tid rid p d).
Proof.
  unfold auto_review_escalated, refocuses. simpl.
  destruct (activeApprovalId s) as [a|]; [|by left]. right. right. split; [done|].
  intros k q Hk Hf. rewrite oget_oset. destruct (k =s rid); [by eexists|by exists q].
Qed.

Lemma reduce_refocuses s e : refocuses s (reduceAuthorizationState s e).
Proof.
  destruct (is_request e) eqn:Er.
  { destruct (request_cases s e Er) as [->|Hq]; [by apply refocuses_same|].
    by eapply enqueues_refocuses. }
  unfold is_request in Er. bool_hyps.
  auth_dispatch; try congruence; try (by apply refocuses_same);
    unfold interaction_mode_changed, approval_granted, approval_rejected, approval_batch_released,
      approval_session_grants_cleared, turn_aborted, tool_started, tool_terminal, runQueueLoop,
      auto_review_completed, auto_review_approved, auto_review_refused;
    repeat case_match; first [ by apply refocuses_same | apply escalated_refocuses
                             | by left | by right; left ].
Qed.

Lemma focus_preserved s e k :
  queue_inv s -> let s' := reduceAuthorizationState s e in
  activeApprovalId s' = Some k ->
  exists p, oget k (pendingApprovals s') = Some p /\ pendingNeedsFocus (status p) = true.
Proof.
  intros Hi s' Hk. destruct (reduce_refocuses s e) as [Hf|[Hf|[Hf Hl]]]; fold s' in Hf.
  - apply focus_live; [by apply queue_NoDup, Hi| |congruence].
    eapply oall_impl; [|by apply (identity_preserved s e)]. by intros ? ? [? _].
  - congruence.
  - rewrite Hf in Hk. destruct (qi_focus s Hi k Hk) as (p & Hp & Hn). by eapply Hl.
Qed.

(** ** Full mode *)

(** A field no case of the event writes is kept. *)
Ltac field_kept :=
  match goal with |- ?f (reduceAuthorizationState ?s ?e) = _ =>
    let Er := fresh "Er" in
    destruct (is_request e) eqn:Er;
    [ destruct (request_cases s e Er) as [->|(? & ? & ? & _ & _ & ->)]; reflexivity
    | unfold is_request in Er; bool_hyps; auth_dispatch; try congruence;
      unfold interaction_mode_changed, approval_granted, approval_rejected, turn_aborted,
        tool_started, tool_terminal, auto_review_completed, auto_review_escalated,
        auto_review_approved, auto_review_refused;
      try (edestruct cleared_cases as [->|(? & _ & ->)]; [done|reflexivity|];
           let Ht := fresh "Ht" in edestruct clear_next_frame as (? & ? & Ht); simpl;
           rewrite Ht; reflexivity);
      try (unfold approval_batch_released; repeat case_match; try reflexivity;
           let Ht := fresh "Ht" in edestruct batch_next_frame as [? Ht]; simpl;
           rewrite Ht; reflexivity);
      repeat case_match; try reflexivity;
      try (edestruct runQueueLoop_frame as (? & ? & ? & ? & ->); reflexivity);
      frame_tools; reflexivity ] end.

Lemma mode_kept s e :
  ev_type e <> "interaction_mode.changed"%string -> mode (reduceAuthorizationState s e) = mode s.
Proof. intros Hne. field_kept. Qed.

Lemma autoReview_kept s e :
  ev_type e <> "auto_review.completed"%string ->
  autoReview (reduceAuthorizationState s e) = autoReview s.
Proof. intros Hne. field_kept. Qed.

Lemma session_kept s e : session (reduceAuthorizationState s e) = session s.
Proof. field_kept. Qed.

Lemma transcript_kept s e : transcript (reduceAuthorizationState s e) = transcript s.
Proof. field_kept. Qed.

Lemma appliedEventIds_kept s e :
  appliedEventIds (reduceAuthorizationState s e) = appliedEventIds s.
Proof. field_kept. Qed.

(** Leaving Full withdraws every release that only the mode had authorized. *)
Lemma unfull_loop s next :
  NoDup (okeys (pendingApprovals s)) ->
  fst (fold_left (unfull_step next) (pendingApprovals s) (pendingApprovals s, tools next)) =
  rewrite_entries (fun p =>
    if bool_decide (authorizationSource p = Some mode_full) && status_is p authorized_queued
    then Some (restorePendingAfterClear p (generation p)) else None) (pendingApprovals s).
Proof.
  intros Hnd. apply own_key_map; [done|done|]. intros [m t] k p. simpl.
  destruct (bool_decide _); simpl; [|done]. by destruct (status_is _ _).
Qed.

Lemma full_preserved s e :
  queue_inv s -> let s' := reduceAuthorizationState s e in
  oall (fun _ p => authorizationSource p = Some mode_full -> status p = authorized_queued ->
                   mode s' = full) (pendingApprovals s').
Proof.
  intros [Hnd _ _ _ _ Hf] s' k p' Hin Hsrc Hst. apply In_oget in Hin; [|by apply queue_NoDup].
  destruct (decide (ev_type e = "interaction_mode.changed"%string)) as [He|He].
  - subst s'. unfold reduceAuthorizationState in *. rewrite He in *.
    cbn [String.eqb Ascii.eqb Bool.eqb] in *. unfold interaction_mode_changed in *.
    destruct (interactionMode _) as [m|]; [|by eapply (oall_oget _ _ _ _ Hf)].
    destruct (nonEmptyStringField e _); [|by eapply (oall_oget _ _ _ _ Hf)].
    destruct (negb (is_str _ _)); [by eapply (oall_oget _ _ _ _ Hf)|].
    destruct (bool_decide (mode s = m)) eqn:Em; simpl in *; bool_hyps.
    { subst m. destruct (getActiveTask s); by eapply (oall_oget _ _ _ _ Hf). }
    destruct (bool_decide (m = full)) eqn:Efull; bool_hyps.
    { subst m. by destruct (getActiveTask s). }
    exfalso. unfold after_mode_loop in Hin. simpl in Hin.
    rewrite unfull_loop, oget_rewrite in Hin by done.
    destruct (oget k (pendingApprovals s)) as [p|]; simpl in Hin; [|done].
    injection Hin as <-. destruct (_ && _) eqn:Eb; simpl in *; [by destruct (route p)|].
    apply andb_false_iff in Eb. unfold status_is in Eb.
    destruct Eb as [Eb|Eb]; by apply bool_decide_eq_false in Eb.
  - subst s'. rewrite mode_kept by done.
    destruct (queue_entry s e k p' Hnd Hin) as [Ho|[(_ & Hn)|(p & Ho & Hs)]].
    + by apply (oall_oget _ _ _ _ Hf Ho).
    + apply new_waiting in Hn as (_ & ? & _). congruence.
    + step_cases Hs; simpl in Hsrc; try congruence. by subst.
Qed.

Lemma inv_preserved s e : queue_inv s -> queue_inv (reduceAuthorizationState s e).
Proof.
  intros Hi. constructor.
  - by apply queue_NoDup, Hi.
  - by apply identity_preserved.
  - intros k. by apply focus_preserved.
  - by apply generation_preserved.
  - by apply sequence_preserved.
  - by apply full_preserved.
Qed.
End Safety.
