(* ===== verification/Receipts.v ===== *)
(** * Approval receipts

    A receipt is the durable proof of one release.  Receipts are never deleted
    or rebound, a release always writes a fresh one, and every entry that names
    a receipt names one that was issued for it. *)

From S2P Require Import Prelude Js Hash State ApprovalQueue Authorization AuthorizationProps AuthorizationSafety.
From stdpp Require Import prelude strings list pretty.
From Stdlib Require Import ZArith Lia.
Open Scope Z_scope.

Section Receipts.
Context `{JsHost}.
Implicit Types (s : AgentState) (e : obj) (k r : string) (p : AgentPendingApproval)
  (m : ordmap AgentApprovalReceipt).

Definition same_receipt (a b : AgentApprovalReceipt) : Prop :=
  rc_receiptId b = rc_receiptId a /\ rc_interactionId b = rc_interactionId a
  /\ rc_toolCallId b = rc_toolCallId a /\ rc_generation b = rc_generation a
  /\ rc_grant b = rc_grant a.

(** Every receipt of [m] is in [m'] with the same subject. *)
Definition receipts_extend m m' : Prop :=
  forall r rc, oget r m = Some rc -> exists rc', oget r m' = Some rc' /\ same_receipt rc rc'.

Lemma extend_refl m : receipts_extend m m.
Proof. intros r rc Hr. exists rc. by split_and!. Qed.

Lemma extend_trans m1 m2 m3 :
  receipts_extend m1 m2 -> receipts_extend m2 m3 -> receipts_extend m1 m3.
Proof.
  intros H12 H23 r rc Hr. destruct (H12 _ _ Hr) as (rc2 & Hr2 & (?&?&?&?&?)).
  destruct (H23 _ _ Hr2) as (rc3 & Hr3 & (?&?&?&?&?)). exists rc3.
  split; [done|]. split_and!; congruence.
Qed.

Lemma extend_fresh m r rc : ohas r m = false -> receipts_extend m (oset r rc m).
Proof.
  intros Hf r' rc' Hr. exists rc'. split; [|by split_and!]. rewrite oget_oset_ne; [done|].
  intros ->. unfold ohas in Hf. by rewrite Hr in Hf.
Qed.

Lemma extend_update m r rc rc' :
  oget r m = Some rc -> same_receipt rc rc' -> receipts_extend m (oset r rc' m).
Proof.
  intros Hr Hs r' rc1 Hr1. rewrite oget_oset. destruct (r' =s r) eqn:E; bool_hyps.
  - subst. exists rc'. split; [done|]. congruence.
  - exists rc1. by split_and!.
Qed.

Lemma terminate_extend m o : receipts_extend m (terminateReceipt m o).
Proof.
  unfold terminateReceipt. destruct (opt_nonempty o) as [r|]; [|apply extend_refl].
  destruct (oget r m) eqn:E; [|apply extend_refl]. eapply extend_update; [done|]. by split_and!.
Qed.

(** ** Loops *)

Lemma fold_extend {S B : Type} (proj : S -> ordmap AgentApprovalReceipt) (f : S -> B -> S) l a :
  (forall a x, receipts_extend (proj a) (proj (f a x))) ->
  receipts_extend (proj a) (proj (fold_left f l a)).
Proof.
  intros Hf. apply (fold_left_inv f (fun b => receipts_extend (proj a) (proj b))).
  - apply extend_refl.
  - intros b x _ Hb. by eapply extend_trans.
Qed.

Lemma batch_step_extend ms g i c acc x :
  receipts_extend (bl_receipts acc) (bl_receipts (batch_step ms g i c acc x)).
Proof.
  destruct x as [k p]. cbn [batch_step].
  repeat case_match; try apply extend_refl. by apply extend_fresh.
Qed.

Lemma abort_step_extend acc p : receipts_extend (snd acc) (snd (abort_step acc p)).
Proof.
  destruct acc as [cs m]. simpl. repeat case_match; apply terminate_extend.
Qed.

Lemma started_step_extend tid acc x :
  receipts_extend (ql_receipts acc) (ql_receipts (started_step tid acc x)).
Proof.
  destruct x as [k p]. cbn [started_step]. case_match; [apply extend_refl|]. simpl.
  destruct (opt_nonempty _) as [r|]; [|apply extend_refl].
  destruct (oget r _) eqn:E; [|apply extend_refl]. eapply extend_update; [done|]. by split_and!.
Qed.

Lemma terminal_step_extend tid t acc x :
  receipts_extend (ql_receipts acc) (ql_receipts (terminal_step tid t acc x)).
Proof.
  destruct x as [k p]. cbn [terminal_step]. case_match; [apply extend_refl|].
  apply terminate_extend.
Qed.

Lemma run_loop_extend s step :
  (forall a x, receipts_extend (ql_receipts a) (ql_receipts (step a x))) ->
  receipts_extend (approvalReceipts s) (approvalReceipts (runQueueLoop s step)).
Proof.
  intros Hs. unfold runQueueLoop. case_match; [|apply extend_refl]. simpl.
  by apply (fold_extend ql_receipts step _ (mkQueueLoop _ (approvalReceipts s) false)).
Qed.

Lemma reduce_receipts_extend s e :
  receipts_extend (approvalReceipts s) (approvalReceipts (reduceAuthorizationState s e)).
Proof.
  destruct (is_request e) eqn:Er.
  { destruct (request_cases s e Er) as [->|(t & d & p & _ & _ & ->)]; apply extend_refl. }
  unfold is_request in Er. bool_hyps.
  auth_dispatch; try congruence; try apply extend_refl.
  - unfold interaction_mode_changed. repeat case_match; apply extend_refl.
  - unfold approval_granted. repeat case_match; try apply extend_refl.
    by apply extend_fresh.
  - unfold approval_rejected. repeat case_match; try apply extend_refl.
    frame_tools. apply extend_refl.
  - unfold approval_batch_released. repeat case_match; try apply extend_refl. simpl.
    apply (fold_extend bl_receipts _ _ (mkBatchLoop _ (approvalReceipts s) _ _)).
    apply batch_step_extend.
  - edestruct cleared_cases as [->|(g & _ & ->)]; [done|apply extend_refl|].
    edestruct clear_next_frame as (t & m & Ht). simpl. rewrite Ht. apply extend_refl.
  - unfold turn_aborted. repeat case_match; try apply extend_refl. simpl.
    match goal with Hf : fold_left _ _ ?a = (?x, ?y) |- _ =>
      change y with (snd (x, y)); rewrite <- Hf;
      apply (fold_extend snd _ _ a) end. apply abort_step_extend.
  - unfold tool_started. case_match; [|apply extend_refl].
    apply run_loop_extend, started_step_extend.
  - unfold tool_terminal. case_match; [|apply extend_refl].
    apply run_loop_extend, terminal_step_extend.
  - unfold tool_terminal. case_match; [|apply extend_refl].
    apply run_loop_extend, terminal_step_extend.
  - unfold tool_terminal. case_match; [|apply extend_refl].
    apply run_loop_extend, terminal_step_extend.
  - unfold tool_terminal. case_match; [|apply extend_refl].
    apply run_loop_extend, terminal_step_extend.
  - unfold auto_review_completed, auto_review_escalated, auto_review_approved,
      auto_review_refused. repeat case_match; try apply extend_refl;
      try (frame_tools; apply extend_refl). by apply extend_fresh.
Qed.

(** ** Binding of entries to receipts *)

(** A released entry not released by the mode holds a receipt, and a receipt an
    entry holds was issued for that entry and its call. *)
Definition receipt_bound m k p : Prop :=
  (forall r, receiptId p = Some r -> exists rc, oget r m = Some rc /\ rc_receiptId rc = r
     /\ rc_interactionId rc = k /\ rc_toolCallId rc = toolCallId p)
  /\ (status p = authorized_queued -> authorizationSource p <> Some mode_full ->
      is_some (receiptId p) = true).

Definition receipt_inv s : Prop :=
  oall (receipt_bound (approvalReceipts s)) (pendingApprovals s).

Lemma bound_extend m m' k p : receipts_extend m m' -> receipt_bound m k p -> receipt_bound m' k p.
Proof.
  intros He [Hb Hs]. split; [|done]. intros r Hr.
  destruct (Hb _ Hr) as (rc & Hrc & ? & ? & ?).
  destruct (He _ _ Hrc) as (rc' & Hrc' & (?&?&?&?&?)). exists rc'. split_and!; congruence.
Qed.

Lemma bound_issue m k p r rc src :
  rc_receiptId rc = r -> rc_interactionId rc = k -> rc_toolCallId rc = toolCallId p ->
  receipt_bound (oset r rc m) k (authorizePending p src (Some r)).
Proof.
  intros Hr Hk Ht. split; [|done]. intros r' [= <-]. exists rc. rewrite oget_oset_eq.
  by split_and!.
Qed.

Lemma bound_cancel m k p : receipt_bound m k p -> receipt_bound m k (p <| status := cancelled |>).
Proof. intros [Hb _]. by split. Qed.

Lemma batch_bound ms g i c s acc :
  queue_inv s -> oall (receipt_bound (bl_receipts acc)) (bl_pendings acc) ->
  let out := fold_left (batch_step ms g i c) (pendingApprovals s) acc in
  oall (receipt_bound (bl_receipts out)) (bl_pendings out).
Proof.
  intros Hi Hacc out. apply (fold_left_inv (batch_step ms g i c)
    (fun a => oall (receipt_bound (bl_receipts a)) (bl_pendings a))); [done|].
  intros a [k p] Hin Ha. pose proof (batch_step_extend ms g i c a (k, p)) as Hext.
  cbn [batch_step] in *. repeat case_match; try done. simpl in *. apply oall_oset.
  - eapply oall_impl; [|exact Ha]. intros. by eapply bound_extend.
  - apply bound_issue; [done| |done]. by apply (qi_identity s Hi).
Qed.

Lemma cancel_bound m ids ps :
  oall (receipt_bound m) ps -> oall (receipt_bound m) (fold_left cancelReview ids ps).
Proof.
  intros Hps. apply fold_left_inv; [done|]. intros ps' id _ Ha. unfold cancelReview.
  destruct (oget id ps') eqn:E; [|done]. case_match; [done|]. apply oall_oset; [done|].
  apply bound_cancel. by apply (oall_oget _ _ _ _ Ha).
Qed.

(** The events that issue receipts. *)
Definition issues e : bool :=
  (ev_type e =s "approval.granted") || (ev_type e =s "approval.batch_released")
  || (ev_type e =s "auto_review.completed").

Lemma step_bound s e k p p' m :
  issues e = false -> pending_step s e k p p' -> receipt_bound m k p -> receipt_bound m k p'.
Proof.
  unfold issues. intros Hn Hs [Hb Hr]. bool_hyps. inversion Hs; subst; try congruence;
    split; simpl; try done.
  all: try (by match goal with |- context [route ?q] => destruct (route q) end).
  all: try (by intros ->).
  all: match goal with Hw : waiting _ |- _ => destruct Hw as (_ & ? & _) end; done.
Qed.

Lemma granted_bound s e :
  queue_inv s -> receipt_inv s -> receipt_inv (approval_granted s e).
Proof.
  intros Hi Hr. unfold approval_granted.
  destruct (settleable s e) as [[[[iid tid] gen] p]|] eqn:Es; [|done].
  repeat case_match; try done. unfold receipt_inv. simpl.
  apply settleable_focus in Es as (Hk & _ & -> & _). apply oall_oset; [|by apply bound_issue].
  eapply oall_impl; [|exact Hr]. intros. eapply bound_extend; [|done]. by apply extend_fresh.
Qed.

Lemma review_bound s e :
  queue_inv s -> receipt_inv s -> receipt_inv (auto_review_completed s e).
Proof.
  intros Hi Hr. unfold auto_review_completed.
  destruct (reviewable s e) as [[[tid rid] p]|] eqn:Es; [|done].
  apply reviewable_waiting in Es as (Hk & Hw & -> & _).
  pose proof (oall_oget _ _ _ _ Hr Hk) as [Hb _].
  destruct (_ && _); [|destruct (negb (is_false _) && _)].
  - unfold receipt_inv, auto_review_escalated. frame_tools. simpl. by apply oall_oset.
  - unfold auto_review_approved. case_match; [done|]. unfold receipt_inv. simpl.
    apply oall_oset; [|by apply bound_issue].
    eapply oall_impl; [|exact Hr]. intros. eapply bound_extend; [|done]. by apply extend_fresh.
  - unfold receipt_inv, auto_review_refused. frame_tools. simpl. by apply oall_oset.
Qed.

Lemma batch_released_bound s e :
  queue_inv s -> receipt_inv s -> receipt_inv (approval_batch_released s e).
Proof.
  intros Hi Hr. unfold approval_batch_released. repeat case_match; try done.
  unfold receipt_inv. simpl. apply cancel_bound. by apply batch_bound.
Qed.

Lemma receipt_inv_preserved s e :
  queue_inv s -> receipt_inv s -> receipt_inv (reduceAuthorizationState s e).
Proof.
  intros Hi Hr. destruct (issues e) eqn:Ei.
  - unfold issues in Ei. rewrite !orb_true_iff in Ei. unfold reduceAuthorizationState.
    destruct Ei as [[Ei|Ei]|Ei]; bool_hyps; rewrite Ei; cbn [String.eqb Ascii.eqb Bool.eqb].
    + by apply granted_bound.
    + by apply batch_released_bound.
    + by apply review_bound.
  - destruct (reduce_queue_step s e (qi_nodup s Hi)) as [Ha _].
    eapply oall_impl; [|exact Ha]. intros k p' Hent.
    eapply bound_extend; [apply reduce_receipts_extend|].
    destruct Hent as [Ho|[(_ & Hn)|(p & Ho & Hs)]].
    + by apply (oall_oget _ _ _ _ Hr).
    + pose proof (new_waiting _ _ _ _ Hn) as (_ & ? & _).
      destruct Hn as (_&_&_&_&_&_&_&_&Hn&_). split; [|done]. by rewrite Hn.
    + eapply step_bound; [done..|]. by apply (oall_oget _ _ _ _ Hr).
Qed.
End Receipts.
