(* ===== verification/GrantKey.v ===== *)
(** * The session grant key identifies the command

    [stableJson] of a grant subject determines every field of it: the quoting
    of JSON strings is a prefix code.  Two commands share a grant key only if
    they are the same command or SHA-256 collides on their subjects. *)

From S2P Require Import Prelude Js Hash State ApprovalQueue Authorization.
From stdpp Require Import prelude strings list.
From Stdlib Require Import ZArith Lia Ascii.
Open Scope Z_scope.

Definition all_chars : list ascii := List.map ascii_of_nat (seq 0 256).

Lemma all_chars_complete c : In c all_chars.
Proof.
  apply in_map_iff. exists (nat_of_ascii c). split; [apply ascii_nat_embedding|].
  apply in_seq. pose proof (nat_ascii_bounded c). lia.
Qed.

(** The code words of a quoted string: the characters and the closing quote. *)
Definition word (o : option ascii) : string :=
  match o with Some c => json_char c | None => dquote end.

Definition all_words : list (option ascii) := None :: List.map Some all_chars.

Lemma all_words_complete o : In o all_words.
Proof.
  destruct o as [c|]; [|by left]. right. apply in_map_iff. exists c.
  split; [done|apply all_chars_complete].
Qed.

Definition opt_ascii_eqb (a b : option ascii) : bool :=
  match a, b with
  | Some x, Some y => Ascii.eqb x y | None, None => true | _, _ => false end.

Lemma prefix_free_check :
  forallb (fun a => forallb (fun b =>
    implb (String.prefix (word a) (word b)) (opt_ascii_eqb a b)) all_words) all_words = true.
Proof. vm_compute. reflexivity. Qed.

Lemma word_prefix_free a b : String.prefix (word a) (word b) = true -> a = b.
Proof.
  intros Hp. pose proof prefix_free_check as Hc.
  rewrite forallb_forall in Hc. specialize (Hc a (all_words_complete a)). cbv beta in Hc.
  rewrite forallb_forall in Hc. specialize (Hc b (all_words_complete b)). cbv beta in Hc.
  rewrite Hp in Hc. simpl in Hc. destruct a as [x|], b as [y|]; simpl in Hc; try done.
  apply Ascii.eqb_eq in Hc. by subst.
Qed.

Lemma app_prefix (a b r r' : string) :
  a +:+ r = b +:+ r' -> String.prefix a b = true \/ String.prefix b a = true.
Proof.
  revert b. induction a as [|c a IH]; intros b Hab; [left; by destruct b|].
  destruct b as [|d b]; [by right|]. injection Hab as -> Hab. simpl.
  destruct (ascii_dec d d); [|done]. by apply IH.
Qed.

Lemma string_app_inj (a r r' : string) : a +:+ r = a +:+ r' -> r = r'.
Proof. induction a as [|c a IH]; intros Hr; [done|]. injection Hr as Hr. auto. Qed.

Lemma string_app_assoc (a b c : string) : (a +:+ b) +:+ c = a +:+ (b +:+ c).
Proof. induction a as [|x a IH]; [done|]. simpl. unfold "+:+" in *. simpl. by f_equal. Qed.

Lemma string_append_nil (a : string) : a +:+ "" = a.
Proof. induction a as [|c a IH]; [done|]. unfold "+:+" in *. simpl. by f_equal. Qed.

Lemma word_inj a b r r' : word a +:+ r = word b +:+ r' -> a = b /\ r = r'.
Proof.
  intros Hw. assert (a = b) as ->.
  { destruct (app_prefix _ _ _ _ Hw) as [Hp|Hp]; apply word_prefix_free in Hp; done. }
  split; [done|]. by eapply string_app_inj.
Qed.

(** A quoted string is read back unambiguously, whatever follows it. *)
Lemma json_quote_inj a b r r' : json_quote a +:+ r = json_quote b +:+ r' -> a = b /\ r = r'.
Proof.
  unfold json_quote. rewrite !string_app_assoc. intros Hq. apply string_app_inj in Hq.
  revert b Hq. induction a as [|c a IH]; intros [|d b]; simpl json_chars;
    rewrite ?string_app_assoc; intros Hq.
  - by apply (word_inj None None) in Hq as [_ ->].
  - by apply (word_inj None (Some d)) in Hq as [? _].
  - by apply (word_inj (Some c) None) in Hq as [? _].
  - apply (word_inj (Some c) (Some d)) in Hq as [[= ->] Hq].
    by apply IH in Hq as [-> ->].
Qed.

(** ** The subject *)

Lemma opt_str_same_eq a b : opt_str_same a b = true <-> default "" a = default "" b.
Proof. apply eqb_true. Qed.

Lemma sameCommandIdentity_subject i j :
  sameCommandIdentity (Some i) (Some j) = true <-> grantSubject i = grantSubject j.
Proof.
  unfold sameCommandIdentity, grantSubject. rewrite !andb_true_iff, !eqb_true, opt_str_same_eq.
  split.
  - intros [[[[[[[[[[[-> ->] ->] ->] ->] ->] ->] ->] ->] ->] ->] ->]. done.
  - intros Hij. injection Hij as -> -> -> -> -> -> -> -> -> -> Hx ->. by split_and!.
Qed.

(** A list of string fields as [stableJson] prints it. *)
Definition render (fields : list (string * string)) : string :=
  js_join "," (List.map (fun '(k, v) => json_quote k +:+ ":" +:+ json_quote v) fields).

Lemma render_cons k v f fs :
  render ((k, v) :: f :: fs) =
  json_quote k +:+ (":" +:+ (json_quote v +:+ ("," +:+ render (f :: fs)))).
Proof. unfold render, js_join. simpl. destruct f. by rewrite !string_app_assoc. Qed.

Lemma render_inj fs fs' :
  List.map fst fs = List.map fst fs' -> render fs = render fs' -> fs = fs'.
Proof.
  revert fs'. induction fs as [|[k v] fs IH]; intros [|[k' v'] fs']; try done.
  simpl. intros [= -> Hk]. destruct fs as [|f fs], fs' as [|f' fs']; try done.
  - unfold render. simpl. intros Hr. apply string_app_inj, string_app_inj in Hr.
    rewrite <- (string_append_nil (json_quote v)), <- (string_append_nil (json_quote v')) in Hr.
    by apply json_quote_inj in Hr as [-> _].
  - rewrite !render_cons. intros Hr. apply string_app_inj, string_app_inj, json_quote_inj in Hr.
    destruct Hr as [-> Hr]. apply string_app_inj in Hr. f_equal. by apply IH.
Qed.

(** The fields in the order of their names. *)
Definition subjectFields (i : AgentApprovalCommandIdentity) : list (string * string) :=
  [("canonicalWorkspaceIdentity", ci_canonicalWorkspaceIdentity i);
   ("commandDigest", ci_commandDigest i); ("cwd", ci_cwd i); ("effects", ci_effects i);
   ("environment", ci_environment i); ("executor", ci_executor i);
   ("executorRevision", default "" (ci_executorRevision i));
   ("parserRevision", ci_parserRevision i); ("scope", ci_scope i);
   ("sessionId", ci_sessionId i); ("threadId", ci_threadId i); ("workspace", ci_workspace i)]%string.

Lemma subject_text i :
  stableJson (grantSubject i) = "{" +:+ (render (subjectFields i) +:+ "}").
Proof. reflexivity. Qed.

Lemma string_length_app (a b : string) :
  String.length (a +:+ b) = (String.length a + String.length b)%nat.
Proof. induction a as [|c a IH]; [done|]. unfold "+:+" in *. simpl. by rewrite IH. Qed.

Lemma string_app_inj_r (a b r : string) : a +:+ r = b +:+ r -> a = b.
Proof.
  revert b. induction a as [|c a IH]; intros [|d b] Hab; [done| | |].
  1, 2: apply (f_equal String.length) in Hab; rewrite !string_length_app in Hab; simpl in Hab; lia.
  injection Hab as -> Hab. f_equal. by apply IH.
Qed.

Lemma subject_text_inj i j :
  stableJson (grantSubject i) = stableJson (grantSubject j) -> grantSubject i = grantSubject j.
Proof.
  rewrite !subject_text. intros Hij. apply string_app_inj, string_app_inj_r in Hij.
  apply render_inj in Hij; [|done]. unfold subjectFields in Hij. unfold grantSubject.
  by injection Hij as -> -> -> -> -> -> -> -> -> -> -> ->.
Qed.
