(* ===== verification/Json.v ===== *)
(** * [JSON.stringify] is injective on JSON values

    The kernel compares documents by their JSON texts and digests them.  On
    values without [undefined] and [NaN] the text determines the value, also in
    the order of object keys. *)

From S2P Require Import Prelude Js GrantKey.
From stdpp Require Import prelude strings list pretty.
From Stdlib Require Import ZArith Lia Ascii.
Open Scope Z_scope.

(** ** Values by nested induction *)

Section ValInd.
Variable P : val -> Prop.
Hypothesis HU : P VUndef.
Hypothesis HN : P VNull.
Hypothesis HB : forall b, P (VBool b).
Hypothesis HZ : forall n, P (VNum n).
Hypothesis HS : forall s, P (VStr s).
Hypothesis HA : forall l, Forall P l -> P (VArr l).
Hypothesis HO : forall o, Forall (fun kv => P kv.2) o -> P (VObj o).

Fixpoint val_nested_ind (v : val) : P v :=
  match v with
  | VUndef => HU | VNull => HN | VBool b => HB b | VNum n => HZ n | VStr s => HS s
  | VArr l =>
      HA l ((fix go (l : list val) : Forall P l :=
               match l with
               | [] => Forall_nil_2 _
               | x :: l' => Forall_cons_2 _ _ _ (val_nested_ind x) (go l')
               end) l)
  | VObj o =>
      HO o ((fix go (o : list (string * val)) : Forall (fun kv => P kv.2) o :=
               match o with
               | [] => Forall_nil_2 _
               | kv :: o' => Forall_cons_2 _ _ _ (val_nested_ind kv.2) (go o')
               end) o)
  end.
End ValInd.

(** ** Texts as sequences *)

Definition text (v : val) : string := default "" (json_stringify v).

(** Comma-separated items after the first. *)
Definition tail {A} (f : A -> string) (l : list A) : string :=
  foldr (fun x s => "," +:+ f x +:+ s) "" l.

Definition items {A} (f : A -> string) (l : list A) : string :=
  match l with [] => "" | x :: l' => f x +:+ tail f l' end.

Lemma join_items {A} (f : A -> string) l : js_join "," (List.map f l) = items f l.
Proof.
  unfold js_join. destruct l as [|x l]; [done|]. revert x. induction l as [|y l IH]; intros x.
  - cbn. by rewrite string_append_nil.
  - cbn [List.map items tail foldr]. change (String.concat "," (f x :: f y :: List.map f l))
      with (f x +:+ ("," +:+ String.concat "," (List.map f (y :: l)))).
    by rewrite (IH y).
Qed.

Definition field_text (kv : string * val) : string := json_quote kv.1 +:+ (":" +:+ text kv.2).

Lemma canonical_array l : isCanonicalJsonValue (VArr l) = true <->
  Forall (fun v => isCanonicalJsonValue v = true) l.
Proof. cbn. by rewrite forallb_forall, Forall_forall; setoid_rewrite list_elem_of_In. Qed.

Lemma canonical_object o : isCanonicalJsonValue (VObj o) = true <->
  Forall (fun kv => isCanonicalJsonValue kv.2 = true) o.
Proof.
  induction o as [|[k v] o IH]; [done|]. rewrite Forall_cons, <- IH. cbn.
  by rewrite andb_true_iff.
Qed.

Lemma canonical_defined v : isCanonicalJsonValue v = true -> json_stringify v = Some (text v).
Proof. unfold text. destruct v as [| | |[]| | |]; done. Qed.

Lemma text_array l : Forall (fun v => isCanonicalJsonValue v = true) l ->
  text (VArr l) = "[" +:+ items text l +:+ "]".
Proof.
  intros Hl. unfold text at 1. cbn [json_stringify default from_option]. unfold id.
  rewrite <- join_items. do 3 f_equal. apply map_ext_in. intros v Hv.
  rewrite Forall_forall in Hl. rewrite canonical_defined; [done|].
  apply Hl. by apply list_elem_of_In.
Qed.

Lemma text_object o : Forall (fun kv => isCanonicalJsonValue kv.2 = true) o ->
  text (VObj o) = "{" +:+ items field_text o +:+ "}".
Proof.
  intros Ho. unfold text at 1. cbn [json_stringify default from_option]. unfold id.
  rewrite <- join_items. do 3 f_equal. induction Ho as [|[k v] o Hv Ho IH]; [done|].
  cbn [List.map]. rewrite <- IH. cbn in Hv. by rewrite (canonical_defined v Hv).
Qed.

(** ** Delimiters *)

Definition is_delim (c : ascii) : bool := Ascii.eqb c "," || Ascii.eqb c "]" || Ascii.eqb c "}".

(** What may follow a value. *)
Definition delimited (r : string) : Prop :=
  match r with EmptyString => True | String c _ => is_delim c = true end.

(** A text that begins an item. *)
Definition opens (s : string) : Prop :=
  match s with EmptyString => False | String c _ => is_delim c = false end.

(** The items of a sequence are read back, given that each of them is. *)
Section Sequence.
Context {A : Type} (f : A -> string) (ok : A -> Prop) (close : ascii).
Hypothesis close_delim : is_delim close = true.
Hypothesis close_comma : close <> ","%char.
Hypothesis f_opens : forall x, ok x -> opens (f x).

Definition reads (x : A) : Prop :=
  forall y r r', ok y -> delimited r -> delimited r' -> f x +:+ r = f y +:+ r' -> x = y /\ r = r'.

Lemma tail_delimited l r : delimited (tail f l +:+ String close r).
Proof using close_delim. destruct l; [exact close_delim|done]. Qed.

Lemma tail_reads l l' r r' : Forall reads l -> Forall ok l' ->
  tail f l +:+ String close r = tail f l' +:+ String close r' -> l = l' /\ r = r'.
Proof using close_delim close_comma.
  intros Hl. revert l'. induction Hl as [|x l Hx Hl IH]; intros [|y l'] Hok Heq.
  - by injection Heq as ->.
  - by injection Heq as ? _.
  - injection Heq as Heq _. by destruct close_comma.
  - apply Forall_cons in Hok as [Hy Hok]. cbn [tail foldr] in Heq. injection Heq as Heq.
    fold (tail f l) (tail f l') in Heq. rewrite !string_app_assoc in Heq.
    apply Hx in Heq as [-> Heq]; [|done|apply tail_delimited..].
    by apply IH in Heq as [-> ->].
Qed.

Lemma items_reads l l' r r' : Forall ok l -> Forall reads l -> Forall ok l' ->
  items f l +:+ String close r = items f l' +:+ String close r' -> l = l' /\ r = r'.
Proof using close_delim close_comma f_opens.
  assert (Hc : forall x s r, ok x -> String close r <> f x +:+ s).
  { intros x s r0 Hx%f_opens. destruct (f x) as [|c t]; [done|]. intros [= <- _].
    simpl in Hx. congruence. }
  intros Hok Hl Hok'. destruct Hl as [|x l Hx Hl], l' as [|y l']; cbn [items]; intros Heq.
  - by injection Heq as ->.
  - apply Forall_cons in Hok' as [Hy _]. rewrite string_app_assoc in Heq. by apply Hc in Heq.
  - apply Forall_cons in Hok as [Hok _]. rewrite string_app_assoc in Heq.
    symmetry in Heq. by apply Hc in Heq.
  - apply Forall_cons in Hok' as [Hy Hok']. rewrite !string_app_assoc in Heq.
    apply Hx in Heq as [-> Heq]; [|done|apply tail_delimited..].
    by apply tail_reads in Heq as [-> ->].
Qed.
End Sequence.

(** ** Numbers *)

Definition num_char (c : ascii) : bool := Ascii.eqb c "-" || is_some (digit c).

Fixpoint all_num (s : string) : bool :=
  match s with EmptyString => true | String c s' => num_char c && all_num s' end.

Lemma all_num_go n s : all_num s = true -> all_num (pretty_N_go n s) = true.
Proof.
  revert s. induction (N.lt_wf_0 n) as [n _ IH]; intros s Hs.
  destruct (decide (n = 0%N)) as [->|Hn]; [by rewrite pretty_N_go_0|].
  rewrite pretty_N_go_step by lia. apply IH; [apply N.div_lt; lia|].
  cbn [all_num]. rewrite Hs, andb_true_r.
  assert (Hd : (n `mod` 10 < 10)%N) by (apply N.mod_lt; lia).
  destruct (n `mod` 10)%N as [|[[[|[]|]|[|[]|]|]|[[|[]|]|[|[]|]|]|]]; done.
Qed.

Lemma all_num_pretty (z : Z) : all_num (pretty z) = true.
Proof.
  assert (Hp : forall p : positive, all_num (pretty p) = true).
  { intros p. unfold pretty, pretty_positive, pretty, pretty_N. case_decide; [done|].
    by apply all_num_go. }
  destruct z as [|p|p]; [done|apply Hp|]. apply (Hp p).
Qed.

Lemma pretty_nonempty (z : Z) : pretty z <> "".
Proof.
  intros Hz. assert (Hp : forall p : positive, pretty p <> "").
  { intros p. unfold pretty, pretty_positive, pretty, pretty_N. case_decide; [done|].
    rewrite pretty_N_go_step by lia. generalize (pretty_N_char (N.pos p `mod` 10)).
    generalize (N.pos p `div` 10)%N. intros n c Hg.
    assert (Hs : forall n s, s <> "" -> pretty_N_go n s <> "").
    { clear. intros n. induction (N.lt_wf_0 n) as [n _ IH]; intros s Hs.
      destruct (decide (n = 0%N)) as [->|Hn]; [by rewrite pretty_N_go_0|].
      rewrite pretty_N_go_step by lia. apply IH; [apply N.div_lt; lia|done]. }
    by apply (Hs n (String c "")). }
  destruct z as [|p|p]; [done|by apply (Hp p)|done].
Qed.

(** Two runs of number characters followed by delimiters end together. *)
Lemma num_run s t r r' : all_num s = true -> all_num t = true -> delimited r -> delimited r' ->
  s +:+ r = t +:+ r' -> s = t /\ r = r'.
Proof.
  assert (Hno : forall c u, num_char c = true -> delimited (String c u) -> False).
  { intros c u Hc Hd. cbn in Hd. unfold is_delim in Hd.
    apply orb_true_iff in Hd as [Hd|Hd]; [apply orb_true_iff in Hd as [Hd|Hd]|];
      apply Ascii.eqb_eq in Hd; by subst c. }
  revert t. induction s as [|c s IH]; intros [|d t] Hs Ht Hr Hr' Heq.
  - done.
  - exfalso. apply andb_true_iff in Ht as [Hd _].
    change (r = String d (t +:+ r')) in Heq. rewrite Heq in Hr. by eapply Hno.
  - exfalso. apply andb_true_iff in Hs as [Hc _].
    change (String c (s +:+ r) = r') in Heq. rewrite <- Heq in Hr'. by eapply Hno.
  - apply andb_true_iff in Hs as [_ Hs], Ht as [_ Ht]. injection Heq as -> Heq.
    by apply IH in Heq as [-> ->].
Qed.

(** ** The theorem *)

Lemma text_opens v : isCanonicalJsonValue v = true -> opens (text v).
Proof.
  destruct v as [| |[]|[z|]| | |]; try done. intros _.
  change (text (VNum (Fin z))) with (pretty z).
  pose proof (all_num_pretty z) as Ha. pose proof (pretty_nonempty z) as Hn.
  destruct (pretty z) as [|c s]; [done|]. apply andb_true_iff in Ha as [Hc _].
  cbn. destruct (is_delim c) eqn:E; [|done]. unfold is_delim in E.
  apply orb_true_iff in E as [E|E]; [apply orb_true_iff in E as [E|E]|];
    apply Ascii.eqb_eq in E; by subst c.
Qed.

(** A value and a following delimiter determine the value. *)
Definition value_reads : val -> Prop := reads text (fun v => isCanonicalJsonValue v = true).

Lemma field_reads kv : value_reads kv.2 ->
  reads field_text (fun kv => isCanonicalJsonValue kv.2 = true) kv.
Proof.
  intros Hv [k' w] r r' Hw Hr Hr' Heq. destruct kv as [k v]. unfold field_text in Heq.
  cbn [fst snd] in *. rewrite !string_app_assoc in Heq.
  apply json_quote_inj in Heq as [-> Heq]. injection Heq as Heq.
  by apply Hv in Heq as [-> ->].
Qed.

(** The head of a text tells the kinds of value apart. *)
Definition kind_of (c : ascii) : nat :=
  match c with
  | "n"%char => 0 | "t"%char => 1 | "f"%char => 2 | "034"%char => 3 | "["%char => 4
  | "{"%char => 5 | _ => 6
  end.

Definition val_kind (v : val) : nat :=
  match v with
  | VNull => 0 | VBool true => 1 | VBool false => 2 | VStr _ => 3 | VArr _ => 4 | VObj _ => 5
  | VNum _ | VUndef => 6
  end.

Definition head_kind (s : string) : nat :=
  match s with EmptyString => 7 | String c _ => kind_of c end.

Lemma num_kind c : num_char c = true -> kind_of c = 6%nat.
Proof.
  intros Hc. pose proof (all_chars_complete c) as Hin.
  assert (Hall : forallb (fun c => implb (num_char c) (kind_of c =? 6)%nat) all_chars = true)
    by (vm_compute; reflexivity).
  rewrite forallb_forall in Hall. specialize (Hall c Hin). cbv beta in Hall.
  rewrite Hc in Hall. by apply Nat.eqb_eq.
Qed.

Lemma text_kind v : isCanonicalJsonValue v = true ->
  forall r, head_kind (text v +:+ r) = val_kind v.
Proof.
  destruct v as [| |[]|[z|]| | |]; try done. intros _ r.
  change (text (VNum (Fin z))) with (pretty z).
  pose proof (all_num_pretty z) as Ha. pose proof (pretty_nonempty z) as Hn.
  destruct (pretty z) as [|c s]; [done|]. apply andb_true_iff in Ha as [Hc _].
  by apply num_kind.
Qed.

Lemma values_read v : isCanonicalJsonValue v = true -> value_reads v.
Proof.
  induction v as [| |b|n|s|l IH|o IH] using val_nested_ind; intros Hv w r r' Hw Hr Hr' Heq;
    try done;
    assert (Hk := text_kind _ Hv r); rewrite Heq, (text_kind _ Hw) in Hk.
  - destruct w as [| |[]|[]| | |]; try done. split; [done|].
    by injection Heq.
  - destruct b, w as [| |[]|[]| | |]; try done; split; try done; by injection Heq.
  - destruct n as [z|]; [|done]. destruct w as [| |[]|[z'|]| | |]; try done.
    apply num_run in Heq as [Heq ->]; [|apply all_num_pretty..|done|done].
    change (pretty z = pretty z') in Heq. by apply (inj pretty) in Heq as ->.
  - destruct w as [| |[]|[]| | |]; try done. by apply json_quote_inj in Heq as [-> ->].
  - destruct w as [| |[]|[]| |l'|]; try done. rewrite canonical_array in Hv, Hw.
    rewrite !text_array, !string_app_assoc in Heq by done. injection Heq as Heq.
    apply (items_reads text (fun v => isCanonicalJsonValue v = true)) in Heq as [-> ->]; try done.
    + by intros x Hx%text_opens.
    + eapply Forall_impl; [apply Forall_and; exact (conj IH Hv)|]. by intros x [Hx ?]; apply Hx.
  - destruct w as [| |[]|[]| | |o']; try done. rewrite canonical_object in Hv, Hw.
    rewrite !text_object, !string_app_assoc in Heq by done. injection Heq as Heq.
    apply (items_reads field_text (fun kv => isCanonicalJsonValue kv.2 = true)) in Heq
      as [-> ->]; try done.
    eapply Forall_impl; [apply Forall_and; exact (conj IH Hv)|].
    intros kv [Hx Hc]. by apply field_reads, Hx.
Qed.

(** The JSON text determines a JSON value. *)
Lemma json_stringify_inj v w :
  isCanonicalJsonValue v = true -> isCanonicalJsonValue w = true ->
  json_stringify v = json_stringify w -> v = w.
Proof.
  intros Hv Hw. rewrite !canonical_defined by done. intros [= Heq].
  apply (values_read v Hv w "" ""); [done..|]. by rewrite !string_append_nil.
Qed.
