(* ===== verification/AuthorizationClaims.v ===== *)
(** * What the authorization reducer guarantees

    The properties of the approval queue, stated over the reducer and over the
    histories of events it folds, each with a concrete instance. *)

From S2P Require Import Prelude Js Hash State ApprovalQueue Authorization AuthorizationProps AuthorizationSafety Receipts GrantKey Sample.
From stdpp Require Import prelude strings list pretty.
From Stdlib Require Import ZArith Lia.
Open Scope Z_scope.

(** ** Helpers of the claims *)

Section Helpers.
Context `{JsHost}.
Implicit Types (s : AgentState) (e : obj) (k : string) (p : AgentPendingApproval).

Lemma initial_inv input s0 :
  createInitialAgentState input = Ok s0 ->
  pendingApprovals s0 = [] /\ queue_inv s0 /\ receipt_inv s0.
Proof.
  unfold createInitialAgentState. intros Hc. res_inv. simpl. split; [done|]. split.
  - constructor; simpl; try done; try apply NoDup_nil_2; try apply oall_nil;
      unfold two53; (split; [lia|apply oall_nil]).
  - apply oall_nil.
Qed.

Lemma run_inv s es : queue_inv s /\ receipt_inv s -> queue_inv (run s es) /\ receipt_inv (run s es).
Proof.
  intros Hs. unfold run. apply fold_left_inv; [done|]. intros s' e _ [Hq Hr].
  split; [by apply inv_preserved|by apply receipt_inv_preserved].
Qed.

(** Under the invariant the focused waiter is neither released nor dispatched. *)
Lemma decided_waiting s e k p :
  queue_inv s -> oget k (pendingApprovals s) = Some p -> decides_focus s e k p ->
  status p <> authorized_queued /\ status p <> running.
Proof.
  intros Hi Hk (Hf & _). destruct (qi_focus s Hi k Hf) as (q & Hq & Hn).
  rewrite Hk in Hq. injection Hq as <-. by destruct (status p).
Qed.

(** The loop of a withdrawal, as a map over the entries. *)
Lemma clear_loop s gen :
  NoDup (okeys (pendingApprovals s)) ->
  fst (fold_left (clear_step gen) (pendingApprovals s) (pendingApprovals s, s)) =
  rewrite_entries (fun p =>
    if bool_decide (authorizationSource p = Some src_same_command) && status_is p authorized_queued
    then Some (restorePendingAfterClear p gen)
    else if pendingNeedsGenerationRebase p then Some (p <| generation := gen |>) else None)
    (pendingApprovals s).
Proof.
  intros Hnd. apply own_key_map; [done|done|]. intros [m t] k p. simpl.
  destruct (_ && _); [done|]. by destruct (pendingNeedsGenerationRebase p).
Qed.

(** A well-addressed withdrawal takes effect. *)
Lemma clear_applies s e gen :
  queue_inv s -> isSafeInteger (revision s) = true -> threadId (session s) <> ""%string ->
  clears s e gen ->
  reduceAuthorizationState s e =
    let acc := fold_left (clear_step gen) (pendingApprovals s) (pendingApprovals s, s) in
    (approvalQueueState (snd acc) (fst acc) (chooseApprovalFocus (fst acc)))
      <| sessionCommandGrants := [] |> <| approvalGeneration := gen |>.
Proof.
  intros Hi Hsafe Hne (He & Hg & Hlt & Hrev & Hsid).
  unfold reduceAuthorizationState. rewrite He. cbn [String.eqb Ascii.eqb Bool.eqb].
  unfold approval_session_grants_cleared, nonEmptyStringField. rewrite Hrev, Hg.
  rewrite (stringField_of _ _ _ Hsid). unfold opt_nonempty.
  assert (str_nonempty (threadId (session s)) = true) as -> by (by destruct (threadId _)).
  assert (isSafeInteger gen = true) as ->.
  { apply isSafeInteger_true. destruct (qi_generation s Hi). unfold MAX_SAFE_INTEGER in *. lia. }
  assert ((approvalGeneration s <? gen) = true) as -> by lia.
  simpl opt_str_eqb. rewrite String.eqb_refl, Hsafe, Z.eqb_refl. simpl.
  by destruct (fold_left _ _ _).
Qed.

Definition calls_settled (l : list AgentPendingApproval) (cs : ordmap AgentToolCallState) : Prop :=
  forall p c, In p l -> oget (toolCallId p) cs = Some c -> terminalToolStatus (tc_status c) = true.

Lemma abort_settles l acc :
  calls_settled l (fst (fold_left abort_step l acc)).
Proof.
  assert (forall l2 l1 acc, calls_settled l1 (fst acc) ->
    calls_settled (l1 ++ l2) (fst (fold_left abort_step l2 acc))) as Hgen;
    [|apply (Hgen l []); intros ? ? []].
  clear. induction l2 as [|q l2 IH]; intros l1 [cs m] Hl; simpl; [by rewrite app_nil_r|].
  replace (l1 ++ q :: l2) with ((l1 ++ [q]) ++ l2) by (by rewrite <- app_assoc).
  apply IH. intros p c Hin. apply in_app_iff in Hin.
  destruct (oget (toolCallId q) cs) as [cq|] eqn:Eq; simpl.
  - destruct (terminalToolStatus (tc_status cq)) eqn:Et; simpl.
    + destruct Hin as [Hin|[<-|[]]]; [by apply Hl|]. congruence.
    + rewrite oget_oset. destruct (toolCallId p =s toolCallId q) eqn:Ep; bool_hyps.
      * by intros [= <-].
      * destruct Hin as [Hin|[<-|[]]]; [by apply Hl|done].
  - destruct Hin as [Hin|[<-|[]]]; [by apply Hl|]. congruence.
Qed.

(** The breaker's counter. *)
Lemma breaker_step s e :
  0 <= consecutiveRejects (autoReview s) <= two53 ->
  let a := autoReview s in let a' := autoReview (reduceAuthorizationState s e) in
  consecutiveRejects a <= consecutiveRejects a' <= two53
  /\ (circuitBreakerTripped a = true -> circuitBreakerTripped a' = true).
Proof.
  intros Hr a a'. destruct (decide (ev_type e = "auto_review.completed"%string)) as [He|He].
  - subst a a'. unfold reduceAuthorizationState. rewrite He. cbn [String.eqb Ascii.eqb Bool.eqb].
    unfold auto_review_completed.
    destruct (reviewable s e) as [[[tid rid] p]|]; [|split; [lia|done]].
    destruct (_ && _); [|destruct (negb (is_false _) && _)].
    + unfold auto_review_escalated. frame_tools. split; [simpl; lia|done].
    + unfold auto_review_approved. case_match; [split; [lia|done]|]. frame_tools.
      split; [simpl; lia|done].
    + unfold auto_review_refused. frame_tools. simpl.
      pose proof (fadd_succ_range _ Hr). split; [lia|]. by intros ->.
  - subst a a'. rewrite autoReview_kept by done. split; [lia|done].
Qed.
End Helpers.

(** ** A concrete session *)

Definition rootOwner (tid : string) : val :=
  VObj [("kind", VStr "root_tool"); ("toolCallId", VStr tid)]%string.

Definition requestEvent (iid tid : string) : obj :=
  [("type", VStr "approval.requested"); ("interactionId", VStr iid); ("toolCallId", VStr tid);
   ("owner", rootOwner tid); ("createdAt", VStr "2024-02-29T12:30:15.250Z");
   ("approval", VObj [("command", VStr "ls")])]%string.

Definition grantEvent (iid tid rid : string) (gen : Z) : obj :=
  [("type", VStr "approval.granted"); ("interactionId", VStr iid); ("toolCallId", VStr tid);
   ("owner", rootOwner tid); ("generation", VNum (Fin gen)); ("grant", VStr "approve_once");
   ("receiptId", VStr rid)]%string.

Definition startEvent (tid : string) : obj :=
  [("type", VStr "tool.started"); ("toolCallId", VStr tid)]%string.

Definition finishEvent (tid : string) : obj :=
  [("type", VStr "tool.finished"); ("toolCallId", VStr tid)]%string.

Definition clearEvent (gen : Z) : obj :=
  [("type", VStr "approval.session_grants_cleared"); ("sessionId", VStr "thread");
   ("sessionRevision", VNum (Fin 0)); ("generation", VNum (Fin gen))]%string.

Definition abortEvent : obj :=
  [("type", VStr "turn.aborted"); ("turnId", VStr "turn")]%string.

(** One call requested, and then granted. *)
Definition demoRequested : AgentState :=
  Eval vm_compute in @run host0 demo [requestEvent "i1" "t1"].
Definition demoGranted : AgentState :=
  Eval vm_compute in @run host0 demo [requestEvent "i1" "t1"; grantEvent "i1" "t1" "r1" 0].

Lemma demoRequested_inv : queue_inv demoRequested /\ receipt_inv demoRequested.
Proof.
  assert (demoRequested = @run host0 demo [requestEvent "i1" "t1"]) as ->
    by (vm_compute; reflexivity).
  apply run_inv. by apply (initial_inv demoInput).
Qed.

Lemma demoGranted_inv : queue_inv demoGranted /\ receipt_inv demoGranted.
Proof.
  assert (demoGranted = @run host0 demo [requestEvent "i1" "t1"; grantEvent "i1" "t1" "r1" 0]) as ->
    by (vm_compute; reflexivity).
  apply run_inv. by apply (initial_inv demoInput).
Qed.

(** ** The claims *)

Section Claims.
Context `{JsHost}.

(** C1: the whole reducer refines the abstract queue machine: after any event
    the keys are still distinct, every entry is an old one, a new waiter the
    event admits, or an old one moved by one step of [pending_step] whose guards
    hold; and no event but [turn.aborted] drops an entry. *)
Theorem authorization_refines_queue_machine s e :
  NoDup (okeys (pendingApprovals s)) ->
  let s' := reduceAuthorizationState s e in
  NoDup (okeys (pendingApprovals s'))
  /\ (forall k p', oget k (pendingApprovals s') = Some p' -> entry_ok s e k p')
  /\ (forall k p, oget k (pendingApprovals s) = Some p -> ev_type e <> "turn.aborted"%string ->
        exists p', oget k (pendingApprovals s') = Some p' /\ (p' = p \/ pending_step s e k p p')).
Proof.
  intros Hnd s'. split_and!.
  - by apply queue_NoDup.
  - intros k p'. by apply queue_entry.
  - intros k p Hk Hne. by apply queue_keeps.
Qed.

(** C2: no call is dispatched without a decision.  In every history that starts
    from an empty queue, an approval that is released or running was released
    by an earlier event that [authorizes] that very waiter: the user's switch
    to Full of a call policy sealed as bypassable, the user's decision on the
    focused waiter at the current generation, a batch release of the same
    command, or its own reviewer's approval. *)
Theorem no_dispatch_without_decision s es k p' :
  pendingApprovals s = [] -> oget k (pendingApprovals (run s es)) = Some p' ->
  status p' = authorized_queued \/ status p' = running ->
  exists es1 e es2 p, es = es1 ++ e :: es2
    /\ oget k (pendingApprovals (run s es1)) = Some p /\ authorizes (run s es1) e k p
    /\ same_waiter p p'.
Proof. apply released_history. Qed.

(** C25: the queue's invariant holds in every state a session can reach: keys are
    the approvals' identities, the focused approval is live, generations and
    sequences stay below their counters (which stay exact doubles), an approval
    released by the mode alone is only released while the mode is Full, and
    every receipt an approval holds was issued for it and its call. *)
Theorem queue_invariant_always input s0 es :
  createInitialAgentState input = Ok s0 -> queue_inv (run s0 es) /\ receipt_inv (run s0 es).
Proof. intros Hc. apply run_inv. by apply (initial_inv input). Qed.

(** A settled approval is final: no event but [turn.aborted], which clears
    the queue, changes any field of it. *)
Theorem settled_is_final s e k p :
  NoDup (okeys (pendingApprovals s)) -> oget k (pendingApprovals s) = Some p ->
  terminalApprovalStatus (status p) = true -> ev_type e <> "turn.aborted"%string ->
  oget k (pendingApprovals (reduceAuthorizationState s e)) = Some p.
Proof.
  intros Hnd Hk Ht Hne. destruct (queue_keeps s e k p Hnd Hk Hne) as (p' & Hp & [->|Hs]); [done|].
  apply step_settled in Hs. congruence.
Qed.

(** A dispatched approval only settles: while its call runs no decision,
    review, mode switch or withdrawal touches it, and only a terminal event of
    its own call ends it. *)
Theorem running_only_settles s e k p :
  queue_inv s -> oget k (pendingApprovals s) = Some p -> status p = running ->
  ev_type e <> "turn.aborted"%string ->
  oget k (pendingApprovals (reduceAuthorizationState s e)) = Some p
  \/ exists t, terminalApprovalStatus t = true /\ get e "toolCallId" = VStr (toolCallId p)
       /\ oget k (pendingApprovals (reduceAuthorizationState s e)) = Some (p <| status := t |>).
Proof.
  intros Hi Hk Hr Hne.
  destruct (queue_keeps s e k p (qi_nodup s Hi) Hk Hne) as (p' & Hp & [->|Hs]); [by left|].
  right. inversion Hs; subst; try congruence;
    try match goal with Hw : waiting _ |- _ => destruct Hw as (_ & _ & ?); congruence end;
    try match goal with Hd : decides_focus _ _ _ _ |- _ =>
      destruct (decided_waiting s e k _ Hi Hk Hd); congruence end.
  by exists terminal.
Qed.

(** A decision taken against a past generation does nothing: a grant, a
    rejection or a batch release whose generation is below the queue's leaves
    the whole state as it was. *)
Theorem stale_decision_is_ignored s e g :
  ev_type e ∈ ["approval.granted"; "approval.rejected"; "approval.batch_released"]%string ->
  numberField e "generation" = Some g -> g < approvalGeneration s ->
  reduceAuthorizationState s e = s.
Proof.
  intros He Hg Hlt.
  assert (settleable s e = None) as Hset.
  { unfold settleable. rewrite Hg. repeat case_match; try done. bool_hyps. lia. }
  assert (batchGuard s e = None) as Hbatch.
  { unfold batchGuard. rewrite Hg. repeat case_match; try done. bool_hyps. lia. }
  unfold reduceAuthorizationState, approval_granted, approval_rejected, approval_batch_released.
  rewrite Hset, Hbatch. rewrite list_elem_of_In in He. simpl in He.
  destruct He as [<-|[<-|[<-|[]]]]; reflexivity.
Qed.

(** Withdrawing the session grants revokes them: no grant is left, no
    approval stays released on the strength of one, the queue's generation is
    the event's, and every approval still waiting was moved to it, so that no
    decision taken before the withdrawal can settle it. *)
Theorem clear_revokes_session_grants s e gen :
  queue_inv s -> isSafeInteger (revision s) = true -> threadId (session s) <> ""%string ->
  clears s e gen ->
  let s' := reduceAuthorizationState s e in
  sessionCommandGrants s' = [] /\ approvalGeneration s' = gen
  /\ forall k p, oget k (pendingApprovals s') = Some p ->
       ~ (authorizationSource p = Some src_same_command /\ status p = authorized_queued)
       /\ (waiting p -> generation p = gen).
Proof.
  intros Hi Hsafe Hne Hc s'. subst s'. rewrite (clear_applies s e gen) by done. simpl.
  split_and!; try done. intros k p. rewrite clear_loop, oget_rewrite by apply Hi.
  destruct (oget k (pendingApprovals s)) as [q|]; simpl; [|done]. intros [= <-].
  unfold pendingNeedsGenerationRebase, status_is, waiting.
  repeat case_bool_decide; simpl; try (by intuition congruence);
    destruct (terminalApprovalStatus (status q)) eqn:Et; simpl; try (by intuition congruence);
    destruct (route q); simpl; intuition congruence.
Qed.

(** Aborting the turn quiesces the queue: no approval, grant, focus or
    interaction is left, no call of a waiter is left unsettled, nothing is queued
    or active, and the generation advances, so that no decision taken before the
    abort can take effect. *)
Theorem abort_quiesces_queue s e :
  ev_type e = "turn.aborted"%string -> get e "turnId" = VStr (turnId (turn s)) ->
  turnId (turn s) <> ""%string -> 0 <= approvalGeneration s < two53 ->
  let s' := reduceAuthorizationState s e in
  pendingApprovals s' = [] /\ sessionCommandGrants s' = [] /\ activeApprovalId s' = None
  /\ interactions s' = idle /\ suspendedSubagents s' = []
  /\ queue (tools s') = [] /\ active (tools s') = []
  /\ approvalGeneration s' = approvalGeneration s + 1
  /\ calls_settled (ovalues (pendingApprovals s)) (calls (tools s')).
Proof.
  intros He Ht Hne Hg s'. subst s'. unfold reduceAuthorizationState. rewrite He.
  cbn [String.eqb Ascii.eqb Bool.eqb]. unfold turn_aborted, nonEmptyStringField.
  rewrite (stringField_of _ _ _ Ht). unfold opt_nonempty.
  assert (str_nonempty (turnId (turn s)) = true) as -> by (by destruct (turnId _)).
  rewrite String.eqb_refl. destruct (fold_left _ _ _) as [cs rs] eqn:El. simpl.
  split_and!; try done; [by apply fadd_succ|].
  replace cs with (fst (cs, rs)) by done. rewrite <- El. apply abort_settles.
Qed.

(** The focus goes to the first requested approval that still needs a human
    or a reviewer: the choice is one of them, none has a smaller sequence, and
    there is no choice only when none needs focus. *)
Theorem focus_is_least_sequence m :
  match chooseApprovalFocus m with
  | Some k => exists p, In p (ovalues m) /\ interactionId p = k
                /\ pendingNeedsFocus (status p) = true
                /\ forall q, In q (ovalues m) -> pendingNeedsFocus (status q) = true ->
                     sequence p <= sequence q
  | None => forall q, In q (ovalues m) -> pendingNeedsFocus (status q) = false
  end.
Proof.
  unfold chooseApprovalFocus.
  destruct (focus_fold (ovalues m) None) as [(-> & _ & Hf)|(p & -> & [?|[Hin Hn]] & Hmin & _)];
    simpl; [|done|].
  - intros q Hq. rewrite List.Forall_forall in Hf. by apply Hf.
  - exists p. by split_and!.
Qed.

(** A receipt is written once: no event deletes a receipt or changes what it
    is for (its approval, call, generation and grant). *)
Theorem receipts_are_immutable s es r rc :
  oget r (approvalReceipts s) = Some rc ->
  exists rc', oget r (approvalReceipts (run s es)) = Some rc' /\ same_receipt rc rc'.
Proof.
  intros Hr. unfold run.
  exact (fold_extend approvalReceipts reduceAuthorizationState es s reduce_receipts_extend r rc Hr).
Qed.

(** The auto-review breaker only ever latches: over every history the count
    of [consecutiveRejects] never decreases and a tripped breaker stays tripped,
    an approving review included (so that three rejections in a session trip
    it, consecutive or not). *)
Theorem auto_review_breaker_latches s es :
  0 <= consecutiveRejects (autoReview s) <= two53 ->
  let a := autoReview s in let a' := autoReview (run s es) in
  consecutiveRejects a <= consecutiveRejects a' <= two53
  /\ (circuitBreakerTripped a = true -> circuitBreakerTripped a' = true).
Proof.
  intros Hr a a'. subst a'. generalize (eq_refl : a = autoReview s). subst a.
  generalize (autoReview s) at 1 3 4 as a. intros a Ha.
  set (P := fun t => consecutiveRejects a <= consecutiveRejects (autoReview t) <= two53
    /\ (circuitBreakerTripped a = true -> circuitBreakerTripped (autoReview t) = true)).
  change (P (run s es)). unfold run. apply fold_left_inv; subst P; simpl.
  - rewrite Ha. split; [lia|done].
  - intros t e _ [Hc Ht]. destruct (breaker_step t e) as [Hc' Ht']; [rewrite Ha in *; lia|].
    split; [lia|]. auto.
Qed.
End Claims.

(** A session grant covers one command: the key's preimage determines every
    field of the command's identity, so that two identities have equal
    preimages exactly when the reducer's batch release treats them as the same
    command, and the same command always has the same key. *)
Theorem grant_key_identifies_command i j :
  (stableJson (grantSubject i) = stableJson (grantSubject j)
   <-> sameCommandIdentity (Some i) (Some j) = true)
  /\ (sameCommandIdentity (Some i) (Some j) = true ->
      approvalCommandGrantKey i = approvalCommandGrantKey j).
Proof.
  rewrite sameCommandIdentity_subject. split; [split|].
  - apply subject_text_inj.
  - by intros ->.
  - unfold approvalCommandGrantKey. by intros ->.
Qed.

(** ** Instances *)

Lemma authorization_refines_queue_machine_witness :
  let s' := @reduceAuthorizationState host0 demoRequested (grantEvent "i1" "t1" "r1" 0) in
  okeys (pendingApprovals s') = ["i1"%string]
  /\ (forall k p', oget k (pendingApprovals s') = Some p' ->
        @entry_ok demoRequested (grantEvent "i1" "t1" "r1" 0) k p').
Proof.
  split; [vm_compute; reflexivity|].
  apply (@authorization_refines_queue_machine host0 demoRequested (grantEvent "i1" "t1" "r1" 0)).
  apply demoRequested_inv.
Defined.

Lemma no_dispatch_without_decision_witness :
  exists es1 e es2 p,
    [requestEvent "i1" "t1"; grantEvent "i1" "t1" "r1" 0; startEvent "t1"] = es1 ++ e :: es2
    /\ oget "i1" (pendingApprovals (@run host0 demo es1)) = Some p
    /\ authorizes (@run host0 demo es1) e "i1" p.
Proof.
  edestruct (@no_dispatch_without_decision host0 demo
    [requestEvent "i1" "t1"; grantEvent "i1" "t1" "r1" 0; startEvent "t1"] "i1")
    as (es1 & e & es2 & p & He & Hp & Ha & _).
  - reflexivity.
  - vm_compute. reflexivity.
  - right. reflexivity.
  - by exists es1, e, es2, p.
Defined.

Lemma queue_invariant_always_witness : queue_inv (@run host0 demo [requestEvent "i1" "t1"]).
Proof. apply (@queue_invariant_always host0 demoInput demo). reflexivity. Defined.

(** Requested, granted, started; and finished. *)
Definition demoRunning : AgentState :=
  Eval vm_compute in
    @run host0 demo [requestEvent "i1" "t1"; grantEvent "i1" "t1" "r1" 0; startEvent "t1"].
Definition demoFinished : AgentState :=
  Eval vm_compute in @reduceAuthorizationState host0 demoRunning (finishEvent "t1").

Lemma demoRunning_inv : queue_inv demoRunning.
Proof.
  assert (demoRunning = @run host0 demo [requestEvent "i1" "t1"; grantEvent "i1" "t1" "r1" 0;
                                          startEvent "t1"]) as -> by (vm_compute; reflexivity).
  apply run_inv. by apply (initial_inv demoInput).
Qed.

Lemma settled_is_final_witness :
  (status <$> oget "i1" (pendingApprovals demoFinished)) = Some succeeded
  /\ oget "i1" (pendingApprovals (@reduceAuthorizationState host0 demoFinished (startEvent "t1")))
     = oget "i1" (pendingApprovals demoFinished).
Proof.
  split; [reflexivity|].
  apply (@settled_is_final host0 demoFinished (startEvent "t1") "i1").
  - vm_compute. apply NoDup_singleton.
  - reflexivity.
  - reflexivity.
  - discriminate.
Defined.

Lemma running_only_settles_witness :
  exists p, oget "i1" (pendingApprovals demoRunning) = Some p /\ status p = running
  /\ (oget "i1" (pendingApprovals (@reduceAuthorizationState host0 demoRunning (finishEvent "t1")))
        = Some p
      \/ exists t, terminalApprovalStatus t = true
         /\ get (finishEvent "t1") "toolCallId" = VStr (toolCallId p)
         /\ oget "i1" (pendingApprovals
              (@reduceAuthorizationState host0 demoRunning (finishEvent "t1")))
            = Some (p <| status := t |>)).
Proof.
  eexists. split; [reflexivity|]. split; [reflexivity|].
  apply (@running_only_settles host0 demoRunning (finishEvent "t1") "i1");
    [apply demoRunning_inv|reflexivity|reflexivity|discriminate].
Defined.

(** A second waiter, under a generation opened by a withdrawal. *)
Definition demoCleared : AgentState :=
  Eval vm_compute in @run host0 demo [requestEvent "i1" "t1"; clearEvent 1].

Lemma stale_decision_is_ignored_witness :
  approvalGeneration demoCleared = 1
  /\ @reduceAuthorizationState host0 demoCleared (grantEvent "i1" "t1" "r1" 0) = demoCleared.
Proof.
  split; [reflexivity|].
  apply (@stale_decision_is_ignored host0 demoCleared (grantEvent "i1" "t1" "r1" 0) 0).
  - apply list_elem_of_In. left. reflexivity.
  - reflexivity.
  - reflexivity.
Defined.

Lemma clear_revokes_session_grants_witness :
  let s' := @reduceAuthorizationState host0 demoRequested (clearEvent 1) in
  approvalGeneration s' = 1
  /\ (forall k p, oget k (pendingApprovals s') = Some p -> waiting p -> generation p = 1).
Proof.
  destruct (@clear_revokes_session_grants host0 demoRequested (clearEvent 1) 1)
    as (_ & Hg & Hp).
  - apply demoRequested_inv.
  - reflexivity.
  - discriminate.
  - split; [reflexivity|]. split; [reflexivity|]. split; [vm_compute; split; discriminate || reflexivity|].
    split; reflexivity.
  - split; [exact Hg|]. intros k p Hk. by apply (Hp k p Hk).
Defined.

Lemma abort_quiesces_queue_witness :
  okeys (pendingApprovals demoGranted) = ["i1"%string]
  /\ pendingApprovals (@reduceAuthorizationState host0 demoGranted abortEvent) = []
  /\ approvalGeneration (@reduceAuthorizationState host0 demoGranted abortEvent) = 1.
Proof.
  split; [reflexivity|].
  destruct (@abort_quiesces_queue host0 demoGranted abortEvent)
    as (Hp & _ & _ & _ & _ & _ & _ & Hg & _).
  - reflexivity.
  - reflexivity.
  - discriminate.
  - vm_compute. split; [discriminate|reflexivity].
  - split; [exact Hp|exact Hg].
Defined.

Lemma receipts_are_immutable_witness :
  exists rc, oget "r1" (approvalReceipts demoGranted) = Some rc
  /\ exists rc', oget "r1" (approvalReceipts (@run host0 demoGranted [abortEvent])) = Some rc'
     /\ same_receipt rc rc'.
Proof.
  eexists. split; [reflexivity|].
  apply (@receipts_are_immutable host0 demoGranted [abortEvent] "r1"). reflexivity.
Defined.

(** Two refusals around an approval: the count does not restart. *)
Definition reviewEvent (iid tid : string) : obj :=
  [("type", VStr "auto_review.requested"); ("reviewId", VStr iid); ("toolCallId", VStr tid);
   ("toolName", VStr "shell_execute"); ("reason", VStr "policy"); ("owner", rootOwner tid);
   ("approval", VObj [("command", VStr "ls")])]%string.

Definition verdictEvent (iid tid : string) (approved : bool) : obj :=
  [("type", VStr "auto_review.completed"); ("reviewId", VStr iid); ("toolCallId", VStr tid);
   ("owner", rootOwner tid); ("result", VObj [("approved", VBool approved)])]%string.

Definition demoReviews : list obj :=
  [reviewEvent "i1" "t1"; verdictEvent "i1" "t1" false; reviewEvent "i2" "t2";
   verdictEvent "i2" "t2" true; reviewEvent "i3" "t3"; verdictEvent "i3" "t3" false]%string.

Lemma auto_review_breaker_latches_witness :
  consecutiveRejects (autoReview (@run host0 demo demoReviews)) = 2
  /\ consecutiveRejects (autoReview demo)
     <= consecutiveRejects (autoReview (@run host0 demo demoReviews)).
Proof.
  split; [vm_compute; reflexivity|].
  apply (@auto_review_breaker_latches host0 demo demoReviews). vm_compute.
  split; discriminate.
Defined.

Definition demoIdentity (executorRevision : option string) : AgentApprovalCommandIdentity :=
  {| ci_sessionId := "s"; ci_threadId := "t"; ci_workspace := "/w";
     ci_canonicalWorkspaceIdentity := "/w"; ci_cwd := "/w"; ci_executor := "shell";
     ci_environment := "env"; ci_scope := "workspace"; ci_effects := "read";
     ci_parserRevision := "1"; ci_executorRevision := executorRevision;
     ci_commandDigest := "sha256:0" |}%string.

Lemma grant_key_identifies_command_witness :
  approvalCommandGrantKey (demoIdentity None) = approvalCommandGrantKey (demoIdentity (Some "")).
Proof.
  apply (grant_key_identifies_command (demoIdentity None) (demoIdentity (Some ""))). reflexivity.
Defined.
