(* ===== verification/Normalization.v ===== *)
(** * Outcome classification and event normalization ([normalization.ts])

    How a terminal tool event becomes a canonical [ToolOutcome], the strict
    validator of outcomes, and the normalizers [decide] runs on each candidate
    event.  An outcome is the JSON object the source builds and stores; the
    parts the classifier computes with (failure, authority, timing, recovery)
    are records. *)

From S2P Require Import Prelude Js Hash State ApprovalQueue.
From stdpp Require Import prelude strings list.
From Stdlib Require Import ZArith Lia Ascii.
Open Scope Z_scope.

(** ** Vocabulary *)

Definition FAILURE_KINDS : list string :=
  ["model_invalid_tool_args"; "model_refused"; "model_timeout"; "model_rate_limited";
   "model_server_error"; "policy_denied"; "phase_deferred"; "phase_denied";
   "approval_rejected"; "auto_review_rejected"; "plan_revision_requested";
   "tool_runtime_error"; "tool_timeout"; "tool_invalid_args"; "tool_not_found";
   "provider_auth_required"; "provider_approval_required"; "provider_unavailable";
   "provider_capability_changed"; "user_input_cancelled"; "user_input_timeout";
   "sandbox_error"; "checkpoint_restore_error"; "transcript_invariant_error"; "loop_exhausted";
   "budget_exceeded"; "artifact_invalid"; "profile_invalid"; "digest_invalid";
   "workspace_untrusted"; "network_unavailable"; "worktree_unavailable";
   "model_retry_exhausted"; "mcp_unavailable"; "persistence_unavailable"; "resource_saturated";
   "process_limit_exceeded"; "cancel_incomplete"; "compaction_unqualified";
   "compaction_failed"; "verification_failed"; "verification_inconclusive";
   "mandatory_policy_unavailable"; "unknown"]%string.

Definition DETAIL_CODES : list string :=
  ["success"; "legacy_unclassified"; "invalid_json"; "invalid_arguments"; "unknown_tool";
   "tool_unavailable"; "policy_denied"; "approval_rejected"; "auto_review_rejected";
   "phase_deferred"; "phase_denied"; "cancelled_by_user"; "timed_out"; "provider_unavailable";
   "capability_changed"; "sandbox_denied"; "sandbox_capability_missing";
   "protected_path_denied"; "git_operation_unsupported"; "managed_network_setup_required";
   "repository_invalid"; "repository_hostile"; "binary_untrusted"; "repository_dirty";
   "repository_no_change"; "repository_conflict"; "repository_lock"; "receipt_invalid";
   "persistence_unavailable"; "resource_exhausted"; "process_cleanup_unknown";
   "tool_reported_failure"; "runtime_exception"; "classifier_missing"; "classifier_threw";
   "classifier_conflict"; "classifier_invalid"; "recovery_not_allowed"; "recovery_exhausted";
   "no_progress"; "unknown"]%string.

Record FailureStrategy := strategy {
  retryable : bool;
  modelFixable : bool;
  needsUserIntervention : bool;
  terminatesTurn : bool;
  inJournal : bool }.

Definition STRATEGIES : ordmap FailureStrategy :=
  [("model_invalid_tool_args", strategy true true false false true);
   ("model_refused", strategy false false true true true);
   ("model_timeout", strategy true false false false false);
   ("model_rate_limited", strategy true false false false false);
   ("model_server_error", strategy true false false false false);
   ("policy_denied", strategy false true false false true);
   ("phase_deferred", strategy false true false false true);
   ("phase_denied", strategy false true false false true);
   ("approval_rejected", strategy false false false false true);
   ("auto_review_rejected", strategy false false true false true);
   ("plan_revision_requested", strategy false true true false true);
   ("tool_runtime_error", strategy true true false false true);
   ("tool_timeout", strategy true false false false true);
   ("tool_invalid_args", strategy false true false false true);
   ("tool_not_found", strategy false false true true true);
   ("provider_auth_required", strategy false false true false true);
   ("provider_approval_required", strategy false false true false true);
   ("provider_unavailable", strategy true false false false true);
   ("provider_capability_changed", strategy false true true false true);
   ("user_input_cancelled", strategy false false false false false);
   ("user_input_timeout", strategy false false false false false);
   ("sandbox_error", strategy false false true true true);
   ("checkpoint_restore_error", strategy false false true true true);
   ("transcript_invariant_error", strategy false false true true true);
   ("loop_exhausted", strategy false false true true true);
   ("budget_exceeded", strategy false false true true true);
   ("artifact_invalid", strategy false false true true true);
   ("profile_invalid", strategy false false true true true);
   ("digest_invalid", strategy false false true true true);
   ("workspace_untrusted", strategy false false true true true);
   ("network_unavailable", strategy false false true true true);
   ("worktree_unavailable", strategy false false true true true);
   ("model_retry_exhausted", strategy false false true true true);
   ("mcp_unavailable", strategy true false true true true);
   ("persistence_unavailable", strategy false false true true true);
   ("resource_saturated", strategy false false true true true);
   ("process_limit_exceeded", strategy false false true true true);
   ("cancel_incomplete", strategy false false true true true);
   ("compaction_unqualified", strategy false false true true true);
   ("compaction_failed", strategy false false true true true);
   ("verification_failed", strategy false false true true true);
   ("verification_inconclusive", strategy false false true true true);
   ("mandatory_policy_unavailable", strategy false false true true true);
   ("unknown", strategy false false true true true)]%string.

Definition DETAIL_BY_KIND : ordmap (list string) :=
  [("model_invalid_tool_args", ["invalid_json"; "invalid_arguments"]);
   ("model_refused", ["unknown"]);
   ("model_timeout", ["timed_out"]);
   ("model_rate_limited", ["unknown"]);
   ("model_server_error", ["unknown"]);
   ("policy_denied", ["policy_denied"]);
   ("phase_deferred", ["phase_deferred"]);
   ("phase_denied", ["phase_denied"]);
   ("approval_rejected", ["approval_rejected"]);
   ("auto_review_rejected", ["auto_review_rejected"]);
   ("plan_revision_requested", ["unknown"]);
   ("tool_runtime_error", ["runtime_exception"; "tool_reported_failure"; "legacy_unclassified";
      "sandbox_capability_missing"; "protected_path_denied"; "git_operation_unsupported";
      "managed_network_setup_required"; "repository_invalid"; "repository_hostile";
      "binary_untrusted"; "repository_dirty"; "repository_no_change"; "repository_conflict";
      "repository_lock"; "receipt_invalid"]);
   ("tool_timeout", ["timed_out"]);
   ("tool_invalid_args", ["invalid_json"; "invalid_arguments"]);
   ("tool_not_found", ["unknown_tool"; "tool_unavailable"]);
   ("provider_auth_required", ["unknown"]);
   ("provider_approval_required", ["unknown"]);
   ("provider_unavailable", ["provider_unavailable"]);
   ("provider_capability_changed", ["capability_changed"]);
   ("user_input_cancelled", ["cancelled_by_user"]);
   ("user_input_timeout", ["timed_out"]);
   ("sandbox_error", ["sandbox_denied"]);
   ("checkpoint_restore_error", ["unknown"]);
   ("transcript_invariant_error", ["unknown"]);
   ("loop_exhausted", ["resource_exhausted"; "recovery_not_allowed"; "recovery_exhausted"; "no_progress"]);
   ("budget_exceeded", ["resource_exhausted"]);
   ("artifact_invalid", ["unknown"]);
   ("profile_invalid", ["unknown"]);
   ("digest_invalid", ["unknown"]);
   ("workspace_untrusted", ["unknown"]);
   ("network_unavailable", ["unknown"]);
   ("worktree_unavailable", ["unknown"]);
   ("model_retry_exhausted", ["unknown"]);
   ("mcp_unavailable", ["provider_unavailable"]);
   ("persistence_unavailable", ["persistence_unavailable"]);
   ("resource_saturated", ["resource_exhausted"]);
   ("process_limit_exceeded", ["unknown"]);
   ("cancel_incomplete", ["process_cleanup_unknown"]);
   ("compaction_unqualified", ["unknown"]);
   ("compaction_failed", ["unknown"]);
   ("verification_failed", ["unknown"]);
   ("verification_inconclusive", ["unknown"]);
   ("mandatory_policy_unavailable", ["policy_denied"]);
   ("unknown", ["unknown"])]%string.

Definition TERMINAL_REASON_BY_FAILURE_ : ordmap string :=
  [("artifact_invalid", "artifact_invalid");
   ("profile_invalid", "profile_invalid");
   ("digest_invalid", "digest_invalid");
   ("workspace_untrusted", "workspace_untrusted");
   ("sandbox_error", "sandbox_unavailable");
   ("network_unavailable", "network_unavailable");
   ("worktree_unavailable", "worktree_unavailable");
   ("model_retry_exhausted", "model_retry_exhausted");
   ("provider_unavailable", "provider_unavailable");
   ("mcp_unavailable", "mcp_unavailable");
   ("persistence_unavailable", "persistence_unavailable");
   ("budget_exceeded", "budget_exhausted");
   ("resource_saturated", "resource_saturated");
   ("process_limit_exceeded", "process_limit_exceeded");
   ("cancel_incomplete", "cancel_incomplete");
   ("compaction_unqualified", "compaction_unqualified");
   ("compaction_failed", "compaction_failed");
   ("verification_failed", "verification_failed");
   ("verification_inconclusive", "verification_inconclusive");
   ("mandatory_policy_unavailable", "mandatory_policy_unavailable");
   ("unknown", "unknown")]%string.

(** The detail of a failure without a parse code. *)
Definition mappedDetail : ordmap string :=
  [("model_invalid_tool_args", "invalid_arguments");
   ("tool_invalid_args", "invalid_arguments");
   ("tool_not_found", "unknown_tool");
   ("policy_denied", "policy_denied");
   ("mandatory_policy_unavailable", "policy_denied");
   ("approval_rejected", "approval_rejected");
   ("auto_review_rejected", "auto_review_rejected");
   ("phase_deferred", "phase_deferred");
   ("phase_denied", "phase_denied");
   ("user_input_cancelled", "cancelled_by_user");
   ("user_input_timeout", "timed_out");
   ("tool_timeout", "timed_out");
   ("model_timeout", "timed_out");
   ("provider_unavailable", "provider_unavailable");
   ("mcp_unavailable", "provider_unavailable");
   ("provider_capability_changed", "capability_changed");
   ("sandbox_error", "sandbox_denied");
   ("persistence_unavailable", "persistence_unavailable");
   ("budget_exceeded", "resource_exhausted");
   ("resource_saturated", "resource_exhausted");
   ("loop_exhausted", "resource_exhausted");
   ("cancel_incomplete", "process_cleanup_unknown");
   ("tool_runtime_error", "runtime_exception");
   ("unknown", "unknown")]%string.

Definition isToolFailureKind (value : val) : bool :=
  match value with VStr s => str_in s FAILURE_KINDS | _ => false end.
Definition isToolOutcomeDetailCode (value : val) : bool :=
  match value with VStr s => str_in s DETAIL_CODES | _ => false end.
Definition PARSE_FAILURE_CODES : list string :=
  ["invalid_json"; "invalid_arguments"; "unknown_tool"; "tool_unavailable"]%string.
Definition isToolParseFailureCode (value : val) : bool :=
  match value with VStr s => str_in s PARSE_FAILURE_CODES | _ => false end.

(** [STRATEGIES[kind]] and [DETAIL_BY_KIND[kind]]; every failure kind has a row. *)
Definition strategyOf (kind : string) : FailureStrategy :=
  default (strategy false false false false false) (oget kind STRATEGIES).
Definition detailsOf (kind : string) : list string := default [] (oget kind DETAIL_BY_KIND).

Record ClassifiedFailure := {
  cf_kind : string;
  cf_message : string;
  cf_strategy : FailureStrategy;
  cf_parseFailureCode : option string }.

Definition classifyRuntimeFailure (kind message : string) (parseFailureCode : option string)
  : ClassifiedFailure :=
  {| cf_kind := kind; cf_message := message; cf_strategy := strategyOf kind;
     cf_parseFailureCode := opt_nonempty parseFailureCode |}.

Definition failureKindForToolParseFailure (code : string) : string :=
  if (code =s "unknown_tool") || (code =s "tool_unavailable") then "tool_not_found"
  else "tool_invalid_args".

Definition terminalReasonForRuntimeFailure (kind : string) : string :=
  default "blocked" (oget kind TERMINAL_REASON_BY_FAILURE_).

(** The boolean field of a supplied failure, or the strategy's. *)
Definition suppliedFlag (value : obj) (f : string) (fallback : bool) : bool :=
  match get value f with VBool b => b | _ => fallback end.

Definition suppliedFailure (value : option obj) : option ClassifiedFailure :=
  let v := default [] value in
  match stringField v "kind" with
  | Some kind =>
      if str_in kind FAILURE_KINDS then
        let s := strategyOf kind in
        Some {| cf_kind := kind;
                cf_message := default "Runtime failure." (stringField v "message");
                cf_strategy := {|
                  retryable := suppliedFlag v "retryable" (retryable s);
                  modelFixable := suppliedFlag v "modelFixable" (modelFixable s);
                  needsUserIntervention :=
                    suppliedFlag v "needsUserIntervention" (needsUserIntervention s);
                  terminatesTurn := suppliedFlag v "terminatesTurn" (terminatesTurn s);
                  inJournal := suppliedFlag v "journal" (inJournal s) |};
                cf_parseFailureCode :=
                  match stringField v "parseFailureCode" with
                  | Some c => if str_in c PARSE_FAILURE_CODES then Some c else None
                  | None => None
                  end |}
      else None
  | None => None
  end%string.

Definition failureFor (event : obj) : option ClassifiedFailure :=
  match suppliedFailure (recordField event "failure") with
  | Some supplied => Some supplied
  | None =>
      let t := ev_type event in
      let reasonOr d := default d (stringField event "reason") in
      if t =s "tool.finished" then
        let result := default [] (recordField event "result") in
        let reason := stringField result "terminationReason" in
        if opt_str_eqb reason (Some "timed_out") then
          Some (classifyRuntimeFailure "tool_timeout" "Tool execution exceeded its Runtime deadline." None)
        else if opt_str_eqb reason (Some "cancelled") then
          Some (classifyRuntimeFailure "user_input_cancelled" "Tool execution was cancelled." None)
        else if opt_str_eqb reason (Some "sandbox_denied") then
          Some (classifyRuntimeFailure "sandbox_error" "Sandbox denied tool execution." None)
        else if is_false (get result "ok") then
          Some (classifyRuntimeFailure "tool_runtime_error" "Tool returned a failed result." None)
        else None
      else if t =s "tool.rejected" then
        Some (classifyRuntimeFailure "policy_denied" (reasonOr "Tool was rejected.") None)
      else if t =s "tool.cancelled" then
        Some (classifyRuntimeFailure "user_input_cancelled" (reasonOr "Tool execution was cancelled.") None)
      else if t =s "approval.rejected" then
        Some (classifyRuntimeFailure "approval_rejected" (reasonOr "Approval was rejected.") None)
      else if t =s "auto_review.completed" then
        Some (classifyRuntimeFailure "auto_review_rejected" "Auto-review rejected the tool." None)
      else Some (classifyRuntimeFailure "unknown" "Runtime failure." None)
  end%string.

(** ** Time *)

Definition epochMillis (value : option string) : option Z :=
  match opt_nonempty value with
  | None => None
  | Some text =>
      match iso_fields text with
      | None => None
      | Some f =>
          let month := iso_month f in
          let adjustedYear := iso_year f - (if month <=? 2 then 1 else 0) in
          let era := adjustedYear / 400 in
          let yearOfEra := adjustedYear - era * 400 in
          let monthOfYear := month + (if 2 <? month then -3 else 9) in
          let dayOfYear := (153 * monthOfYear + 2) / 5 + iso_day f - 1 in
          let dayOfEra := yearOfEra * 365 + yearOfEra / 4 - yearOfEra / 100 + dayOfYear in
          let days := era * 146097 + dayOfEra - 719468 in
          Some ((((days * 24 + iso_hour f) * 60 + iso_minute f) * 60 + iso_second f) * 1000
                + iso_milli f)
      end
  end.

Definition durationBetween (start : option string) (finish : string) : option Z :=
  match epochMillis start, epochMillis (Some finish) with
  | Some s, Some e => if e <? s then None else Some (e - s)
  | _, _ => None
  end.

Definition finiteDuration (value : val) : option Z :=
  match value with VNum (Fin z) => if 0 <=? z then Some z else None | _ => None end.

(** ** Recovery policy *)

Record ToolRecovery := {
  disposition : string;
  maximumAdditionalCalls : Z;
  requiresNewModelResponse : bool;
  safeAutomaticRetry : bool;
  retryAfterMs : option Z;
  capabilityIntent : option val }.

Definition recoveryOfKind (disposition : string) (calls : Z) (newResponse : bool) : ToolRecovery :=
  {| disposition := disposition; maximumAdditionalCalls := calls;
     requiresNewModelResponse := newResponse; safeAutomaticRetry := false;
     retryAfterMs := None; capabilityIntent := None |}.

Definition NEVER_RECOVERY : ToolRecovery := recoveryOfKind "never" 0 false.

Definition baseRecovery (failure : ClassifiedFailure) : ToolRecovery :=
  let s := cf_strategy failure in
  if modelFixable s then recoveryOfKind "correct_args" 1 true
  else if retryable s then recoveryOfKind "retry_once" 1 false
  else if needsUserIntervention s then recoveryOfKind "user_action" 0 false
  else NEVER_RECOVERY.

Record ToolOutcomeAuthority := {
  dispatchState : string;
  externalEffects : string;
  replaySafety : option string;
  policyDenied : bool;
  approvalDenied : bool }.

Definition automaticRetryAuthoritative (authority : ToolOutcomeAuthority) : bool :=
  if (dispatchState authority =s "not_started") && (externalEffects authority =s "none") then true
  else if negb (dispatchState authority =s "started") || (externalEffects authority =s "unknown")
  then false
  else opt_str_eqb (replaySafety authority) (Some "safe_read"%string)
       || opt_str_eqb (replaySafety authority) (Some "idempotency_receipt"%string).

Definition detailForFailure (failure : ClassifiedFailure) : string :=
  match cf_parseFailureCode failure with
  | Some code => if str_in code PARSE_FAILURE_CODES then code
                 else default "unknown" (oget (cf_kind failure) mappedDetail)
  | None => default "unknown" (oget (cf_kind failure) mappedDetail)
  end.

(** Timing as the caller measured it. *)
Record TimingInput := {
  ti_queueMs : option Z;
  ti_executionMs : option Z;
  ti_approvalWaitMs : option Z;
  ti_totalActiveMs : option Z }.

Definition durationField (name : string) (o : option Z) : obj :=
  match o with
  | Some z => if 0 <=? z then [(name, VNum (Fin z))] else []
  | None => []
  end.

Definition trustedToolTiming (input : option TimingInput) : obj :=
  match input with
  | None => [("source", VStr "legacy_unknown")]
  | Some t =>
      [("source", VStr "runtime_boundary")]
      ++ durationField "queueMs" (ti_queueMs t) ++ durationField "executionMs" (ti_executionMs t)
      ++ durationField "approvalWaitMs" (ti_approvalWaitMs t)
      ++ durationField "totalActiveMs" (ti_totalActiveMs t)
  end.

(** ** Classification *)

Record ToolOutcomeClassificationInput := {
  ci_status : string;
  ci_failure : option ClassifiedFailure;
  ci_authority : ToolOutcomeAuthority;
  ci_toolAdvice : option obj;
  ci_lineage : option obj;
  ci_timing : option TimingInput;
  ci_unknownFields : option obj;
  ci_classifierDiagnostic : option string }.

(** A field that is spread only when present. *)
Definition field_if (name : string) (o : option val) : obj :=
  match o with Some v => [(name, v)] | None => [] end.

Definition recoveryJson (r : ToolRecovery) : val :=
  VObj ([("disposition", VStr (disposition r));
         ("maximumAdditionalCalls", VNum (Fin (maximumAdditionalCalls r)));
         ("requiresNewModelResponse", VBool (requiresNewModelResponse r));
         ("safeAutomaticRetry", VBool (safeAutomaticRetry r))]
        ++ field_if "retryAfterMs" ((fun z => VNum (Fin z)) <$> retryAfterMs r)
        ++ field_if "capabilityIntent" (capabilityIntent r)).

Definition failureJson (kind detailCode : string) : val :=
  VObj [("kind", VStr kind); ("detailCode", VStr detailCode)].

(** The fields every outcome starts and ends with. *)
Definition outcomeHead (status : string) (failure : obj) (a : ToolOutcomeAuthority) : obj :=
  [("schemaVersion", VNum (Fin 1)); ("status", VStr status)] ++ failure
  ++ [("dispatchState", VStr (dispatchState a)); ("externalEffects", VStr (externalEffects a))].
Definition outcomeTail (input : ToolOutcomeClassificationInput) : obj :=
  field_if "lineage" (VObj <$> ci_lineage input)
  ++ [("timing", VObj (trustedToolTiming (ci_timing input)))]
  ++ field_if "unknownFields" (VObj <$> ci_unknownFields input).

Definition replayField (a : ToolOutcomeAuthority) : obj :=
  field_if "replaySafety" (VStr <$> opt_nonempty (replaySafety a)).

(** The outcome of a classifier that could not be trusted. *)
Definition diagnosticOutcome (input : ToolOutcomeClassificationInput) (code : string) : obj :=
  outcomeHead "unknown" [("failure", failureJson "unknown" code)] (ci_authority input)
  ++ [("recovery", recoveryJson NEVER_RECOVERY)] ++ outcomeTail input
  ++ [("diagnosticCodes", VArr [VStr code])].

Definition is_nullish (v : val) : bool := match v with VUndef | VNull => true | _ => false end.

(** Advice of the tool's classifier that is out of vocabulary. *)
Definition invalidAdvice (advice : obj) : bool :=
  (negb (is_nullish (get advice "detailCode"))
   && negb (isToolOutcomeDetailCode (get advice "detailCode")))
  || (negb (is_nullish (get advice "maximumAdditionalCalls"))
      && negb (is_num (get advice "maximumAdditionalCalls") 0)
      && negb (is_num (get advice "maximumAdditionalCalls") 1)).

Definition conflictingAdviceDetail (failure : option ClassifiedFailure) (advice : obj) : bool :=
  match failure, get advice "detailCode" with
  | Some f, VStr code => str_in code DETAIL_CODES && negb (str_in code (detailsOf (cf_kind f)))
  | _, _ => false
  end.

Definition conflictsWithCeiling (recovery : ToolRecovery) (authority : ToolOutcomeAuthority)
    (advice : obj) : bool :=
  let d := get advice "disposition" in
  (is_num (get advice "maximumAdditionalCalls") 1 && (maximumAdditionalCalls recovery =? 0))
  || (is_true (get advice "safeAutomaticRetry")
      && (negb (automaticRetryAuthoritative authority)
          || negb (disposition recovery =s "retry_once")))
  || (is_false (get advice "requiresNewModelResponse") && requiresNewModelResponse recovery)
  || (negb (is_nullish (get advice "retryAfterMs")) && negb (disposition recovery =s "retry_once"))
  || (negb (is_nullish d) && negb (is_str d "never") && negb (is_str d (disposition recovery))
      && negb ((disposition recovery =s "correct_args") && is_str d "alternative")).

(** [/^[a-z][a-z0-9_.:-]{0,63}$/u] and [/^[a-zA-Z0-9_.:-]{1,64}$/u]. *)
Definition between (lo hi : nat) (c : ascii) : bool :=
  ((lo <=? nat_of_ascii c)%nat && (nat_of_ascii c <=? hi)%nat).
Definition is_lower := between 97 122.
Definition is_upper := between 65 90.
Definition is_decimal := between 48 57.
Definition is_punct (c : ascii) : bool :=
  existsb (Ascii.eqb c) ["_"; "."; ":"; "-"]%char.

Definition isCapabilityIntent (s : string) : bool :=
  match String.list_ascii_of_string s with
  | c :: rest => is_lower c && (length rest <=? 63)%nat
                 && forallb (fun c => is_lower c || is_decimal c || is_punct c) rest
  | [] => false
  end.
Definition isSchemaRevision (s : string) : bool :=
  let l := String.list_ascii_of_string s in
  (1 <=? length l)%nat && (length l <=? 64)%nat
  && forallb (fun c => is_lower c || is_upper c || is_decimal c || is_punct c) l.

(** The ceiling of the failure, lowered by the authority. *)
Definition ceilingRecovery (input : ToolOutcomeClassificationInput) (failure : ClassifiedFailure)
  : ToolRecovery :=
  let a := ci_authority input in
  if policyDenied a || approvalDenied a
     || str_in (ci_status input) ["cancelled"; "timed_out"; "exhausted"]
     || (externalEffects a =s "unknown")
  then NEVER_RECOVERY else baseRecovery failure.

(** The ceiling, lowered by the advised disposition. *)
Definition advisedDisposition (advice : obj) (recovery : ToolRecovery) : ToolRecovery :=
  let d := get advice "disposition" in
  let recovery := if is_str d "never" then NEVER_RECOVERY else recovery in
  let recovery :=
    if (disposition recovery =s "retry_once") && negb (is_nullish d) && negb (is_str d "retry_once")
    then NEVER_RECOVERY else recovery in
  if (disposition recovery =s "correct_args") && is_str d "alternative"
  then {| disposition := "alternative"; maximumAdditionalCalls := 1;
          requiresNewModelResponse := requiresNewModelResponse recovery;
          safeAutomaticRetry := safeAutomaticRetry recovery;
          retryAfterMs := retryAfterMs recovery; capabilityIntent := capabilityIntent recovery |}
  else recovery.

(** A retry is safe when the authority says so and the advice does not object. *)
Definition settledRetry (authority : ToolOutcomeAuthority) (advice : obj) (recovery : ToolRecovery)
  : ToolRecovery :=
  if disposition recovery =s "retry_once" then
    if automaticRetryAuthoritative authority && negb (is_false (get advice "safeAutomaticRetry"))
    then {| disposition := disposition recovery;
            maximumAdditionalCalls := maximumAdditionalCalls recovery;
            requiresNewModelResponse := requiresNewModelResponse recovery;
            safeAutomaticRetry := true;
            retryAfterMs := match finiteDuration (get advice "retryAfterMs") with
                            | Some z => Some z | None => retryAfterMs recovery end;
            capabilityIntent := capabilityIntent recovery |}
    else NEVER_RECOVERY
  else recovery.

Definition advisedRecovery (authority : ToolOutcomeAuthority) (advice : obj) (recovery : ToolRecovery)
  : ToolRecovery :=
  let recovery := settledRetry authority advice (advisedDisposition advice recovery) in
  let recovery :=
    if is_num (get advice "maximumAdditionalCalls") 0 then NEVER_RECOVERY else recovery in
  let intent := get advice "capabilityIntent" in
  if truthy intent && isCapabilityIntent (js_string intent)
  then {| disposition := disposition recovery;
          maximumAdditionalCalls := maximumAdditionalCalls recovery;
          requiresNewModelResponse := requiresNewModelResponse recovery;
          safeAutomaticRetry := safeAutomaticRetry recovery;
          retryAfterMs := retryAfterMs recovery; capabilityIntent := Some intent |}
  else recovery.

Definition adviceDetail (advice : obj) (failure : ClassifiedFailure) : string :=
  match get advice "detailCode" with
  | VStr code => if str_in code DETAIL_CODES then code else detailForFailure failure
  | _ => detailForFailure failure
  end.

Definition classifyToolOutcome (input : ToolOutcomeClassificationInput) : obj :=
  let a := ci_authority input in
  if ci_status input =s "success" then
    outcomeHead "success" [] a ++ replayField a
    ++ [("recovery", recoveryJson NEVER_RECOVERY)] ++ outcomeTail input
  else
    let advice := default [] (ci_toolAdvice input) in
    let diagnostic :=
      if invalidAdvice advice then Some "classifier_invalid"
      else if conflictingAdviceDetail (ci_failure input) advice then Some "classifier_conflict"
      else opt_nonempty (ci_classifierDiagnostic input) in
    match diagnostic with
    | Some code => diagnosticOutcome input code
    | None =>
        match ci_failure input with
        | None => diagnosticOutcome input "classifier_missing"
        | Some failure =>
            let ceiling := ceilingRecovery input failure in
            if conflictsWithCeiling ceiling a advice
            then diagnosticOutcome input "classifier_conflict"
            else
              outcomeHead (ci_status input)
                [("failure", failureJson (cf_kind failure) (adviceDetail advice failure))] a
              ++ replayField a
              ++ [("recovery", recoveryJson (advisedRecovery a advice ceiling))]
              ++ outcomeTail input
        end
    end.

(** ** The validator *)

Definition allowedKeys (value : obj) (allowed : list string) : bool :=
  forallb (fun key => str_in key allowed) (okeys value).

Definition OUTCOME_KEYS : list string :=
  ["schemaVersion"; "status"; "failure"; "dispatchState"; "externalEffects"; "replaySafety";
   "recovery"; "lineage"; "timing"; "unknownFields"; "diagnosticCodes"].
Definition OUTCOME_STATUSES : list string :=
  ["success"; "failed"; "rejected"; "cancelled"; "timed_out"; "exhausted"; "unknown"].
Definition DIAGNOSTIC_CODES : list string :=
  ["classifier_missing"; "classifier_threw"; "classifier_conflict"; "classifier_invalid"].
Definition DURATIONS : list string := ["queueMs"; "executionMs"; "approvalWaitMs"; "totalActiveMs"].

Definition validOutcomeHeader (value : obj) : bool :=
  allowedKeys value OUTCOME_KEYS && is_num (get value "schemaVersion") 1
  && str_in (js_string (get value "status")) OUTCOME_STATUSES
  && str_in (js_string (get value "dispatchState")) ["not_started"; "started"; "unknown"]
  && str_in (js_string (get value "externalEffects")) ["none"; "known"; "unknown"].

(** Dispatch, effects and replay safety agree. *)
Definition validReplay (dispatch effects : string) (replay : option string) : bool :=
  let safety r := opt_str_eqb replay (Some r) in
  match replay with
  | Some r => str_in r ["none"; "pre_dispatch"; "safe_read"; "idempotency_receipt"]
  | None => true
  end
  && negb ((safety "pre_dispatch" && (negb (dispatch =s "not_started") || negb (effects =s "none")))
           || (safety "safe_read" && (negb (dispatch =s "started") || negb (effects =s "none")))
           || (safety "idempotency_receipt" && (negb (dispatch =s "started") || (effects =s "unknown")))
           || ((effects =s "unknown") && is_some replay && negb (safety "none"))
           || ((dispatch =s "not_started") && negb (effects =s "none"))).

Definition validFailure (status : string) (failure : val) : bool :=
  if status =s "success" then is_nullish failure
  else match failure with
       | VObj f => allowedKeys f ["kind"; "detailCode"] && isToolFailureKind (get f "kind")
                   && isToolOutcomeDetailCode (get f "detailCode")
       | _ => false
       end.

Definition validRecoveryShape (recovery : obj) : bool :=
  allowedKeys recovery ["disposition"; "maximumAdditionalCalls"; "requiresNewModelResponse";
                        "safeAutomaticRetry"; "retryAfterMs"; "capabilityIntent"]
  && str_in (js_string (get recovery "disposition"))
       ["never"; "correct_args"; "retry_once"; "alternative"; "user_action"]
  && (is_num (get recovery "maximumAdditionalCalls") 0
      || is_num (get recovery "maximumAdditionalCalls") 1)
  && match get recovery "requiresNewModelResponse" with VBool _ => true | _ => false end
  && match get recovery "safeAutomaticRetry" with VBool _ => true | _ => false end
  && (is_nullish (get recovery "retryAfterMs")
      || is_some (finiteDuration (get recovery "retryAfterMs")))
  && match get recovery "capabilityIntent" with
     | VUndef | VNull => true
     | VStr s => isCapabilityIntent s
     | _ => false
     end.

(** The matrix of dispositions. *)
Definition recoveryMatrixValid (dispatch effects : string) (replay : option string)
    (recovery : obj) : bool :=
  let d := get recovery "disposition" in
  let shape calls response retry :=
    is_num (get recovery "maximumAdditionalCalls") calls
    && (if response : bool then is_true (get recovery "requiresNewModelResponse")
        else is_false (get recovery "requiresNewModelResponse"))
    && (if retry : bool then is_true (get recovery "safeAutomaticRetry")
        else is_false (get recovery "safeAutomaticRetry")) in
  let immediate := is_nullish (get recovery "retryAfterMs") in
  if is_str d "never" || is_str d "user_action" then shape 0 false false && immediate
  else if is_str d "correct_args" || is_str d "alternative" then shape 1 true false && immediate
  else if is_str d "retry_once" then
    shape 1 false true
    && (((dispatch =s "not_started") && (effects =s "none"))
        || ((dispatch =s "started") && negb (effects =s "unknown")
            && (opt_str_eqb replay (Some "safe_read")
                || opt_str_eqb replay (Some "idempotency_receipt"))))
  else false.

Definition validForStatus (status : string) (recovery : obj) : bool :=
  let d := get recovery "disposition" in
  negb ((status =s "success") && negb (is_str d "never"))
  && negb ((status =s "rejected") && is_str d "retry_once")
  && negb (str_in status ["cancelled"; "timed_out"; "exhausted"; "unknown"]
           && negb (is_str d "never")).

Definition RECOVERY_DETAILS : list string :=
  ["recovery_not_allowed"; "recovery_exhausted"; "no_progress"].
Definition DENIED_KINDS : list string :=
  ["policy_denied"; "mandatory_policy_unavailable"; "approval_rejected"; "auto_review_rejected"].

(** The failure's kind bounds its detail and its recovery. *)
Definition validForKind (status : string) (failure : val) (recovery : obj) : bool :=
  if (status =s "success") || (status =s "unknown") then true
  else
    match failure with
    | VObj f =>
        let kind := js_string (get f "kind") in
        let detail := js_string (get f "detailCode") in
        let d := get recovery "disposition" in
        let authoritative := disposition (baseRecovery (classifyRuntimeFailure kind "redacted" None)) in
        (str_in detail (detailsOf kind) || ((status =s "exhausted") && str_in detail RECOVERY_DETAILS))
        && negb (str_in kind DENIED_KINDS && negb (is_str d "never"))
        && (is_str d "never" || is_str d authoritative
            || ((authoritative =s "correct_args") && is_str d "alternative"))
    | _ => true
    end.

(** [(timing.k ?? 0) > timing.totalActiveMs], on validated durations. *)
Definition exceedsTotal (timing : obj) (k : string) : bool :=
  match get timing "totalActiveMs", get timing k with
  | VNum (Fin total), VNum (Fin z) => total <? z
  | VNum (Fin total), _ => total <? 0
  | _, _ => false
  end.

Definition validTiming (timing : val) : bool :=
  match timing with
  | VObj t =>
      allowedKeys t ("source" :: DURATIONS)
      && str_in (js_string (get t "source")) ["runtime_boundary"; "legacy_unknown"]
      && forallb (fun k => is_nullish (get t k) || is_some (finiteDuration (get t k))) DURATIONS
      && negb (is_str (get t "source") "legacy_unknown"
               && existsb (fun k => negb (is_nullish (get t k))) DURATIONS)
      && (is_nullish (get t "totalActiveMs")
          || negb (exceedsTotal t "queueMs" || exceedsTotal t "executionMs"
                   || exceedsTotal t "approvalWaitMs"))
  | _ => false
  end.

Definition validLineage (lineage : val) : bool :=
  match lineage with
  | VUndef | VNull => true
  | VObj l => allowedKeys l ["failureInstanceId"; "recoveryOf"]
              && forallb (fun v => match v with VStr s => isHex64 s | _ => false end) (ovalues l)
  | _ => false
  end.

Definition validUnknownFields (unknown : val) : bool :=
  match unknown with
  | VUndef | VNull => true
  | VObj u =>
      allowedKeys u ["hasUnknown"; "count"; "toolClass"; "schemaRevision"]
      && match get u "hasUnknown", get u "count" with
         | VBool has, VNum (Fin count) =>
             (0 <=? count) && (count <=? 255) && Bool.eqb has (0 <? count)
         | _, _ => false
         end
      && str_in (js_string (get u "toolClass"))
           ["builtin_read"; "builtin_write"; "builtin_execute"; "builtin_other"; "mcp_tool"]
      && match get u "schemaRevision" with VStr s => isSchemaRevision s | _ => false end
  | _ => false
  end.

(** [a === b] on the values a diagnostic code may have. *)
Definition same_str (a b : val) : bool :=
  match a with VStr s => is_str b s | _ => false end.

Definition validDiagnostics (status : string) (failure codes : val) : bool :=
  (is_nullish codes
   || match codes with
      | VArr [code] => str_in (js_string code) DIAGNOSTIC_CODES
      | _ => false
      end)
  && (if status =s "unknown" then
        match failure with
        | VObj f =>
            is_str (get f "kind") "unknown"
            && str_in (js_string (get f "detailCode")) DIAGNOSTIC_CODES
            && match codes with VArr (code :: _) => same_str code (get f "detailCode") | _ => false end
        | _ => false
        end
      else is_nullish codes).

Definition isToolOutcome (value : val) : bool :=
  match value with
  | VObj o =>
      let status := js_string (get o "status") in
      let dispatch := js_string (get o "dispatchState") in
      let effects := js_string (get o "externalEffects") in
      let replay := if is_nullish (get o "replaySafety") then None
                    else Some (js_string (get o "replaySafety")) in
      validOutcomeHeader o && validReplay dispatch effects replay
      && validFailure status (get o "failure")
      && match get o "recovery" with
         | VObj recovery =>
             validRecoveryShape recovery && recoveryMatrixValid dispatch effects replay recovery
             && validForStatus status recovery
             && validForKind status (get o "failure") recovery
         | _ => false
         end
      && validTiming (get o "timing") && validLineage (get o "lineage")
      && validUnknownFields (get o "unknownFields")
      && validDiagnostics status (get o "failure") (get o "diagnosticCodes")
  | _ => false
  end.

Definition assertCanonicalOutcome (value : val) (eventType : string) : res unit :=
  throw_if (negb (isToolOutcome value)) (eventType +:+ " has invalid canonical ToolOutcome.").

Definition OUTCOME_EVENTS : list string :=
  ["tool.finished"; "tool.failed"; "tool.rejected"; "tool.cancelled"; "tool.retry_recorded";
   "approval.rejected"].

(** A review that rejected the call, and no other, is terminal. *)
Definition terminalReview (event : obj) : bool :=
  match recordField event "result" with
  | Some r => is_true (get r "ok") && negb (is_true (get r "approved"))
              && negb (is_true (get r "escalatedToUser"))
  | None => false
  end.

Definition assertCanonicalToolOutcomeEvent (event : obj) : res unit :=
  let t := ev_type event in
  if str_in t OUTCOME_EVENTS then assertCanonicalOutcome (get event "outcome") t
  else if t =s "auto_review.completed" then
    if terminalReview event then assertCanonicalOutcome (get event "outcome") t
    else throw_if (ohas "outcome" event)
           "Non-terminal auto_review.completed cannot carry ToolOutcome."
  else Ok tt.

(** ** Normalizers *)

Section Normalizers.
Context `{JsHost}.

(** The outcome's failure detail, [success] without a failure. *)
Definition outcomeDetail (outcome : obj) : val :=
  nullish (get (jsonRecord (get outcome "failure")) "detailCode") (VStr "success").

(** The arguments of the source's object literal are never [undefined], so its
    [stableStringify] is the one of [doom-loop.ts]. *)
Definition digestFailureIdentity (toolCallId fingerprint : string) (outcome : obj) : string :=
  sha256Hex (stableStringify (VObj [("toolCallId", VStr toolCallId);
                                    ("invocationFingerprint", VStr fingerprint);
                                    ("status", get outcome "status");
                                    ("detailCode", outcomeDetail outcome)])).

Definition terminalStatus (event result : obj) (failure : option ClassifiedFailure) : string :=
  let t := ev_type event in
  let reason := stringField result "terminationReason" in
  let kind := default "" (cf_kind <$> failure) in
  if t =s "tool.finished" then
    if opt_str_eqb reason (Some "timed_out") then "timed_out"
    else if opt_str_eqb reason (Some "cancelled") then "cancelled"
    else if opt_str_eqb (stringField result "status") (Some "exhausted") then "exhausted"
    else if is_true (get result "ok") then "success" else "failed"
  else if t =s "tool.rejected" then "rejected"
  else if t =s "tool.cancelled" then "cancelled"
  else if str_in kind ["tool_timeout"; "user_input_timeout"] then "timed_out"
  else if str_in kind ["loop_exhausted"; "budget_exceeded"] then "exhausted"
  else "failed".

Definition callStatusIs (call : option AgentToolCallState) (s : ToolCallStatus) : bool :=
  match call with Some c => bool_decide (tc_status c = s) | None => false end.

(** Whether the call was handed to its executor. *)
Definition dispatchStateOf (call : option AgentToolCallState) (inActive : bool) : string :=
  let previouslyStarted := is_some (call ≫= tc_startedAt) || inActive in
  if callStatusIs call t_queued
     || ((callStatusIs call t_approved || callStatusIs call t_authorized_queued)
         && negb previouslyStarted)
  then "not_started"
  else if callStatusIs call t_running || previouslyStarted then "started" else "unknown".

Definition externalEffectsOf (call : option AgentToolCallState) (dispatch : string)
    (event result : obj) : string :=
  let t := ev_type event in
  if dispatch =s "not_started" then "none"
  else if str_in t ["tool.rejected"; "tool.cancelled"; "tool.failed"] then
    if dispatch =s "started" then "unknown" else "none"
  else if bool_decide (call ≫= tc_sideEffect = Some true) then
    if match recordField result "resultMeta" with
       | Some meta => is_false (get meta "processCleanupConfirmed") | None => false end
    then "unknown"
    else if is_true (get result "ok") then "known" else "unknown"
  else "none".

Definition replaySafetyOf (call : option AgentToolCallState) (dispatch effects : string) : string :=
  if (dispatch =s "not_started") && (effects =s "none") then "pre_dispatch"
  else if (dispatch =s "started") && bool_decide (call ≫= tc_effectClass = Some read_only)
          && negb (effects =s "unknown")
  then "safe_read" else "none".

(** The recovery the kernel refused, if it refused one. *)
Definition refusedRecovery (call : option AgentToolCallState) : option string :=
  match call ≫= tc_recoveryAdmission with
  | Some a => if a =s "admitted" then None else Some a
  | None => None
  end.

Definition adviceOf (call : option AgentToolCallState) (event result : obj) : option obj :=
  match refusedRecovery call with
  | Some code =>
      Some [("detailCode", VStr code); ("disposition", VStr "never");
            ("maximumAdditionalCalls", VNum (Fin 0)); ("safeAutomaticRetry", VBool false)]
  | None =>
      if (ev_type event =s "tool.finished") && is_false (get result "ok")
      then recordField event "classifierAdvice" else None
  end.

Definition diagnosticOf (call : option AgentToolCallState) (event : obj) (status : string)
    (failure : option ClassifiedFailure) (advice : option obj) : option string :=
  if (ev_type event =s "tool.finished") && (status =s "failed")
     && opt_str_eqb (cf_kind <$> failure) (Some "tool_runtime_error"%string)
     && negb (is_some (refusedRecovery call))
  then match stringField event "classifierDiagnostic" with
       | Some d => Some d
       | None => if is_some advice then None else Some "classifier_missing"%string
       end
  else None.

Definition kindIn (failure : option ClassifiedFailure) (l : list string) : bool :=
  match failure with Some f => str_in (cf_kind f) l | None => false end.

(** [{ ...event, k: v }]. *)
Definition withField (k : string) (v : val) (event : obj) : obj := oset k v event.

Definition terminalInput (event : obj) (call : option AgentToolCallState) (inActive : bool)
    (createdAt : string) : ToolOutcomeClassificationInput :=
  let result := default [] (recordField event "result") in
  let failure := failureFor event in
  let status := terminalStatus event result failure in
  let dispatch := dispatchStateOf call inActive in
  let effects := externalEffectsOf call dispatch event result in
  let advice := adviceOf call event result in
  {| ci_status := status;
     ci_failure := if status =s "success" then None else failure;
     ci_authority := {|
       dispatchState := dispatch; externalEffects := effects;
       replaySafety := Some (replaySafetyOf call dispatch effects);
       policyDenied := kindIn failure ["policy_denied"; "mandatory_policy_unavailable"];
       approvalDenied := kindIn failure ["approval_rejected"; "auto_review_rejected"] |};
     ci_toolAdvice := advice;
     ci_lineage := match opt_nonempty (call ≫= tc_recoveryOf) with
                   | Some id => Some [("recoveryOf", VStr id)] | None => None end;
     ci_timing := Some {|
       ti_queueMs := durationBetween (call ≫= tc_queuedAt)
                       (default createdAt (call ≫= tc_startedAt));
       ti_executionMs := durationBetween (call ≫= tc_startedAt) createdAt;
       ti_approvalWaitMs := call ≫= tc_approvalWaitMs;
       ti_totalActiveMs := durationBetween (call ≫= tc_queuedAt) createdAt |};
     ci_unknownFields := call ≫= tc_unknownFields;
     ci_classifierDiagnostic := diagnosticOf call event status failure advice |}.

Definition createdAtOf (event : obj) (occurredAt : string) : string :=
  default occurredAt (stringField event "createdAt").

(** The failure identity joins the lineage of a failed call with a fingerprint. *)
Definition outcomeWithLineage (toolCallId : string) (call : option AgentToolCallState)
    (status : string) (outcome : obj) : obj :=
  match opt_nonempty (call ≫= tc_invocationFingerprint) with
  | Some fingerprint =>
      if status =s "success" then outcome
      else withField "lineage"
             (VObj (oset "failureInstanceId"
                      (VStr (digestFailureIdentity toolCallId fingerprint outcome))
                      (jsonRecord (get outcome "lineage")))) outcome
  | None => outcome
  end.

Definition normalizeToolTerminalEvent (event : obj) (state : AgentState) (occurredAt : string)
  : obj :=
  let toolCallId := default "" (stringField event "toolCallId") in
  let call := oget toolCallId (calls (tools state)) in
  let createdAt := createdAtOf event occurredAt in
  let input := terminalInput event call (str_in toolCallId (active (tools state))) createdAt in
  let outcome := outcomeWithLineage toolCallId call (ci_status input) (classifyToolOutcome input) in
  let event := withField "createdAt" (VStr createdAt) event in
  let event := match call ≫= tc_presentation with
               | Some p => withField "presentation" (VStr p) event | None => event end in
  withField "outcome" (VObj outcome) event.

(** The call an event names. *)
Definition namedCall (event : obj) (state : AgentState) : option AgentToolCallState :=
  match opt_nonempty (stringField event "toolCallId") with
  | Some id => oget id (calls (tools state))
  | None => None
  end.

(** A rejection before dispatch. *)
Definition deniedInput (failure : ClassifiedFailure) (timing : TimingInput)
    (call : option AgentToolCallState) : ToolOutcomeClassificationInput :=
  {| ci_status := "rejected"; ci_failure := Some failure;
     ci_authority := {| dispatchState := "not_started"; externalEffects := "none";
                        replaySafety := Some "pre_dispatch"%string;
                        policyDenied := false; approvalDenied := true |};
     ci_toolAdvice := None; ci_lineage := None; ci_timing := Some timing;
     ci_unknownFields := call ≫= tc_unknownFields; ci_classifierDiagnostic := None |}.

Definition normalizeApprovalRejected (event : obj) (state : AgentState) (occurredAt : string)
  : obj :=
  let call := namedCall event state in
  let createdAt := createdAtOf event occurredAt in
  let failure :=
    match suppliedFailure (recordField event "failure") with
    | Some f => f
    | None => classifyRuntimeFailure "approval_rejected"
                (default "Approval was rejected." (stringField event "reason")) None
    end in
  let total := durationBetween (call ≫= tc_queuedAt) createdAt in
  let timing :=
    {| ti_queueMs := total; ti_executionMs := None;
       ti_approvalWaitMs := durationBetween (call ≫= tc_approvalRequestedAt) createdAt;
       ti_totalActiveMs := total |} in
  withField "outcome" (VObj (classifyToolOutcome (deniedInput failure timing call)))
    (withField "createdAt" (VStr createdAt) event).

Definition normalizeAutoReviewCompleted (event : obj) (state : AgentState) (occurredAt : string)
  : obj :=
  if negb (terminalReview event) then
    ("type"%string, get event "type") :: odelete "type" (odelete "outcome" event)
  else
    let result := default [] (recordField event "result") in
    let call := namedCall event state in
    let createdAt := createdAtOf event occurredAt in
    let queueMs := durationBetween (call ≫= tc_queuedAt) createdAt in
    let approvalWaitMs := finiteDuration (get result "durationMs") in
    let timing :=
      {| ti_queueMs := queueMs; ti_executionMs := None; ti_approvalWaitMs := approvalWaitMs;
         ti_totalActiveMs := Some (Z.max (default 0 queueMs) (default 0 approvalWaitMs)) |} in
    let failure := classifyRuntimeFailure "auto_review_rejected" "Auto-review rejected the tool." None in
    withField "outcome" (VObj (classifyToolOutcome (deniedInput failure timing call)))
      (withField "createdAt" (VStr createdAt) event).

Definition TERMINAL_TOOL_EVENTS : list string :=
  ["tool.finished"; "tool.failed"; "tool.rejected"; "tool.cancelled"].

Definition normalizeAgentToolOutcomeEvent (event : obj) (state : AgentState) (occurredAt : string)
  : obj :=
  let t := ev_type event in
  if str_in t TERMINAL_TOOL_EVENTS
  then normalizeToolTerminalEvent event state occurredAt
  else if t =s "approval.rejected" then normalizeApprovalRejected event state occurredAt
  else if t =s "auto_review.completed" then normalizeAutoReviewCompleted event state occurredAt
  else event.
End Normalizers.

(** ** Terminal outcomes of runs *)

Definition runOutcome (status reasonCode effects : string) (safeRetry : bool) (entry : string)
    (pendingVerification : bool) : val :=
  VObj [("version", VNum (Fin 1)); ("status", VStr status); ("reasonCode", VStr reasonCode);
        ("knownExternalEffects", VStr effects); ("safeRetry", VBool safeRetry);
        ("recoveryEntry", VStr entry); ("pendingVerification", VBool pendingVerification)].

Definition completedTerminalOutcome : val :=
  runOutcome "completed" "completed" "known" false "none" false.

Definition classifiedJson (f : ClassifiedFailure) (message : string) : val :=
  let s := cf_strategy f in
  VObj ([("kind", VStr (cf_kind f)); ("message", VStr message); ("retryable", VBool (retryable s));
         ("modelFixable", VBool (modelFixable s));
         ("needsUserIntervention", VBool (needsUserIntervention s));
         ("terminatesTurn", VBool (terminatesTurn s)); ("journal", VBool (inJournal s))]
        ++ field_if "parseFailureCode" (VStr <$> cf_parseFailureCode f)).

Definition recoveryEntryOf (effects : string) (s : FailureStrategy) : string :=
  if effects =s "unknown" then "reconcile"
  else if retryable s then "retry"
  else if needsUserIntervention s then "operator_action" else "new_run".

Definition runErrorOutcome (failure : ClassifiedFailure) : val :=
  let reasonCode := terminalReasonForRuntimeFailure (cf_kind failure) in
  let s := cf_strategy failure in
  let effects := if cf_kind failure =s "unknown" then "unknown"%string else "known"%string in
  let status :=
    if (reasonCode =s "budget_exhausted") || (reasonCode =s "resource_saturated") then reasonCode
    else if cf_kind failure =s "unknown" then "unknown"%string
    else if needsUserIntervention s then "blocked"%string else "aborted"%string in
  runOutcome status reasonCode effects (retryable s && negb (effects =s "unknown"))
    (recoveryEntryOf effects s) false.

Definition normalizeTerminalAgentEvent (event : obj) : obj :=
  let t := ev_type event in
  if (t =s "run.completed") && negb (ohas "outcome" event)
  then oset "outcome" completedTerminalOutcome event
  else if (t =s "run.error") && negb (ohas "outcome" event) then
    let failure := default (classifyRuntimeFailure "unknown" "Runtime failure." None)
                     (failureFor event) in
    let stored :=
      match recordField event "failure" with
      | Some supplied => VObj supplied
      | None => classifiedJson failure (default (cf_message failure) (stringField event "message"))
      end in
    oset "outcome" (runErrorOutcome failure) (oset "failure" stored event)
  else event.

(** ** terminal-outcome.ts *)

Definition failedTerminalOutcome (failure : ClassifiedFailure) (knownEffects : option string)
    (pendingVerification : option bool) (reason : option string) : val :=
  let reasonCode := default (terminalReasonForRuntimeFailure (cf_kind failure)) reason in
  let s := cf_strategy failure in
  let status :=
    (if (reasonCode =s "budget_exhausted") || (reasonCode =s "process_limit_exceeded")
     then "budget_exhausted"
     else if str_in reasonCode ["resource_saturated"; "tool_concurrency_saturated";
                                "shell_concurrency_saturated"] then "resource_saturated"
     else if (reasonCode =s "unknown") || opt_str_eqb knownEffects (Some "unknown") then "unknown"
     else if needsUserIntervention s then "blocked" else "aborted")%string in
  let effects := default "known"%string knownEffects in
  runOutcome status reasonCode effects (retryable s && negb (effects =s "unknown"))
    (recoveryEntryOf effects s) (default false pendingVerification).

(** The failure an event carries, read without validation. *)
Definition carriedFailure (failure : obj) : ClassifiedFailure :=
  {| cf_kind := default "" (stringField failure "kind");
     cf_message := default "" (stringField failure "message");
     cf_strategy := {| retryable := truthy (get failure "retryable");
                       modelFixable := truthy (get failure "modelFixable");
                       needsUserIntervention := truthy (get failure "needsUserIntervention");
                       terminatesTurn := truthy (get failure "terminatesTurn");
                       inJournal := truthy (get failure "journal") |};
     cf_parseFailureCode := stringField failure "parseFailureCode" |}.

Definition normalizeTerminalRuntimeEvent (event : obj) : obj :=
  let t := ev_type event in
  if (t =s "run.completed") && negb (truthy (get event "outcome"))
  then oset "outcome" completedTerminalOutcome event
  else if (t =s "run.error") && negb (truthy (get event "outcome")) then
    let '(failure, stored) :=
      match get event "failure" with
      | VObj f => (carriedFailure f, VObj f)
      | _ => let f := classifyRuntimeFailure "unknown" (default "" (stringField event "message")) None in
             (f, classifiedJson f (cf_message f))
      end in
    let effects := if cf_kind failure =s "unknown" then "unknown"%string else "known"%string in
    oset "outcome" (failedTerminalOutcome failure (Some effects) None None)
      (oset "failure" stored event)
  else normalizeTerminalAgentEvent event.
