(* ===== verification/Recovery.v ===== *)
(** * The tool recovery journal ([recovery.ts])

    The journal remembers the failures of tool calls, which of them may still be
    corrected or retried, and the quality guard that stops a session making no
    progress.  Its operations are pure functions on [ToolRecoveryJournal]; a
    journal that arrives as data (from a child or a snapshot) is validated by
    [normalizeToolRecoveryJournal].  The two walks along [recoveryOf] links carry
    fuel that is one more than the number of failures they can visit. *)

From S2P Require Import Prelude Js Hash State ApprovalQueue Normalization.
From stdpp Require Import prelude strings list pretty.
From Stdlib Require Import ZArith Lia Ascii.
Open Scope Z_scope.

Definition TOOL_RECOVERY_QUALITY_FAILURE_LIMIT : Z := 6.
Definition TOOL_RECOVERY_OBSERVATION_CAP : Z := 250.

Definition TOOL_RECOVERY_RESOLUTIONS_ : list (string * RecoveryResolution) :=
  [("recovered", rs_recovered); ("terminal", rs_terminal);
   ("next_response_elapsed", rs_next_response_elapsed); ("task_closed", rs_task_closed);
   ("turn_closed", rs_turn_closed); ("skipped", rs_skipped); ("replanned", rs_replanned);
   ("user_action", rs_user_action); ("provider_revision", rs_provider_revision)]%string.

Definition isToolRecoveryResolution (value : val) : bool :=
  match value with VStr s => ohas s TOOL_RECOVERY_RESOLUTIONS_ | _ => false end.

Inductive ToolRecoveryAttemptMode : Set := model_correction | automatic_retry.
#[export] Instance ToolRecoveryAttemptMode_eq_dec : EqDecision ToolRecoveryAttemptMode.
Proof. solve_decision. Defined.

Inductive ProgressKind : Set :=
| pk_content_revision | pk_plan_revision | pk_capability_revision | pk_provider_revision
| pk_receipt | pk_skipped | pk_replanned | pk_user_action.

Record ToolOwnedProgress := {
  pr_kind : ProgressKind;
  pr_referenceId : string;
  pr_resolvesFailureIds : option (list string) }.

Inductive RecoveryAdmission : Type :=
| attempt_admitted (recoveryOf : option string)
| attempt_refused (recoveryOf : option string) (detailCode : string).

(** ** Reading an outcome *)

Definition lineageField (outcome : obj) (k : string) : option string :=
  stringField (jsonRecord (get outcome "lineage")) k.

(** The failure a call tried to recover, when the lineage names one. *)
Definition recoveryParent (f : ToolRecoveryFailure) : option string :=
  opt_nonempty (lineageField (rf_outcome f) "recoveryOf").

Definition outcomeRecovery (outcome : obj) : obj := jsonRecord (get outcome "recovery").

Definition dispositionIs (outcome : obj) (d : string) : bool :=
  is_str (get (outcomeRecovery outcome) "disposition") d.

(** ** Helpers *)

Section Stringify.
Context `{JsHost}.

(** [stableStringify] of this file, which throws on a value JSON has no text for. *)
Fixpoint recoveryStringify (value : val) : res string :=
  match value with
  | VArr l =>
      let* parts :=
        (fix items (l : list val) : res (list string) :=
           match l with
           | [] => Ok []
           | x :: l' => let* s := recoveryStringify x in
                        let* rest := items l' in Ok (s :: rest)
           end) l in
      Ok ("[" +:+ js_join "," parts +:+ "]")
  | VObj o =>
      let* entries :=
        (fix fields (o : list (string * val)) : res (list (string * string)) :=
           match o with
           | [] => Ok []
           | (k, x) :: o' => let* s := recoveryStringify x in
                             let* rest := fields o' in Ok ((k, s) :: rest)
           end) o in
      let le a b := match localeCompare (fst a) (fst b) with Gt => false | _ => true end in
      Ok ("{" +:+ js_join "," (List.map (fun '(k, j) => json_quote k +:+ ":" +:+ j)
                                 (sort_by le entries)) +:+ "}")
  | _ => match json_stringify value with
         | Some s => Ok s
         | None => Throw "Recovery fact is not JSON serializable."
         end
  end%string.

Definition canonicalFailureDetail (outcome : obj) : val :=
  nullish (get (jsonRecord (get outcome "failure")) "detailCode") (VStr "success").

Definition toolFailureInstanceId (toolCallId invocationFingerprint : string) (outcome : obj)
  : res string :=
  let* text := recoveryStringify (VObj [("toolCallId", VStr toolCallId);
                                        ("invocationFingerprint", VStr invocationFingerprint);
                                        ("status", get outcome "status");
                                        ("detailCode", canonicalFailureDetail outcome)]) in
  Ok (sha256Hex text).

Record FingerprintInput := {
  fi_toolName : string;
  fi_parsedArgs : val;
  fi_parseCode : option string;
  fi_pathCategory : option string;
  fi_unparsedArgs : val;
  fi_identityRevision : option string }.

Definition toolInvocationFingerprint (input : FingerprintInput) : res string :=
  let identity := VStr (default "unknown"%string (fi_identityRevision input)) in
  let* material :=
    match opt_nonempty (fi_parseCode input) with
    | Some parseCode =>
        recoveryStringify
          (VObj [("toolName", VStr (fi_toolName input)); ("parseCode", VStr parseCode);
                 ("pathCategory", VStr (default "unknown"%string (fi_pathCategory input)));
                 ("opaqueArgs", fi_unparsedArgs input); ("identityRevision", identity)])
    | None =>
        recoveryStringify
          (VObj [("toolName", VStr (fi_toolName input)); ("parsedArgs", fi_parsedArgs input);
                 ("identityRevision", identity)])
    end in
  Ok (sha256Hex material).
End Stringify.

Definition isCanonicalRecoveryIdentityKey (value : string) : bool := isHex64 value.

Definition assertCanonicalRecoveryIdentityKey (value : string) : res unit :=
  throw_if (negb (isCanonicalRecoveryIdentityKey value))
    "Tool recovery identityKey must be a canonical host-supplied key.".

Definition failureStillBlocks (failure : ToolRecoveryFailure) : bool :=
  negb (bool_decide (rf_status failure = rf_recovered))
  && negb (bool_decide (rf_resolution failure = Some rs_task_closed))
  && negb (bool_decide (rf_resolution failure = Some rs_turn_closed)).

Definition blockedFailures (journal : ToolRecoveryJournal) : list ToolRecoveryFailure :=
  List.filter failureStillBlocks (omap (fun id => oget id (j_failures journal)) (j_order journal)).

(** The walk to the root of a lineage, stopped by a missing parent or a cycle. *)
Fixpoint rootWalk (fuel : nat) (failures : ordmap ToolRecoveryFailure)
    (current : ToolRecoveryFailure) (visited : list string) : string :=
  match fuel with
  | O => rf_failureInstanceId current
  | S n =>
      match recoveryParent current with
      | Some parentId =>
          if str_in (rf_failureInstanceId current) visited then rf_failureInstanceId current
          else
            match oget parentId failures with
            | Some parent => rootWalk n failures parent (rf_failureInstanceId current :: visited)
            | None => rf_failureInstanceId current
            end
      | None => rf_failureInstanceId current
      end
  end.

Definition rootFailureId (failures : ordmap ToolRecoveryFailure) (failure : ToolRecoveryFailure)
  : string := rootWalk (S (S (length failures))) failures failure [].

Definition noProgressKey (failures : ordmap ToolRecoveryFailure) (failure : ToolRecoveryFailure)
  : string :=
  js_join (chr 0)
    [default "" (rf_taskId failure); default "" (rf_turnId failure);
     rootFailureId failures failure; rf_toolName failure;
     pretty (rf_progressRevision failure)]%string.

Definition journalInvalid (journal : ToolRecoveryJournal) : bool :=
  qg_blocked (j_qualityGuard journal)
  && bool_decide (qg_reasonCode (j_qualityGuard journal) = Some journal_invalid).

Definition qualityAfterMutation (journal : ToolRecoveryJournal)
    (proposed : ToolRecoveryQualityGuard) : ToolRecoveryQualityGuard :=
  if journalInvalid journal then j_qualityGuard journal else proposed.

Definition unblocked : ToolRecoveryQualityGuard :=
  {| qg_blocked := false; qg_reasonCode := None; qg_observedFailures := 0; qg_taskId := None;
     qg_turnId := None |}.

(** A field of the guard's scope applies to a subject when absent or equal. *)
Definition scopeMatches (scope subject : option string) : bool :=
  match scope with None => true | Some s => opt_str_eqb (Some s) subject end.

(** ** Compaction *)

(** [[...new Set(l)]]. *)
Fixpoint dedupe_from (seen l : list string) : list string :=
  match l with
  | [] => []
  | x :: l' => if str_in x seen then dedupe_from seen l' else x :: dedupe_from (seen ++ [x]) l'
  end.
Definition dedupe (l : list string) : list string := dedupe_from [] l.

(** The lineage of a failure: itself and the recorded ancestors. *)
Fixpoint closureWalk (fuel : nat) (failures : ordmap ToolRecoveryFailure)
    (current : option string) (closure : list string) : list string :=
  match fuel with
  | O => closure
  | S n =>
      match opt_nonempty current with
      | None => closure
      | Some id =>
          if str_in id closure then closure
          else match oget id failures with
               | None => closure
               | Some failure => closureWalk n failures (recoveryParent failure) (closure ++ [id])
               end
      end
  end.

Definition lineageClosure (failures : ordmap ToolRecoveryFailure) (candidate : string)
  : list string := closureWalk (S (length failures)) failures (Some candidate) [].

Fixpoint retain (failures : ordmap ToolRecoveryFailure) (prioritized retained : list string)
  : list string :=
  match prioritized with
  | [] => retained
  | candidate :: rest =>
      if str_in candidate retained then retain failures rest retained
      else
        let fresh := List.filter (fun id => negb (str_in id retained))
                       (lineageClosure failures candidate) in
        if Nat.ltb 128 (length retained + length fresh) then retain failures rest retained
        else
          let retained := retained ++ fresh in
          if Nat.eqb (length retained) 128 then retained else retain failures rest retained
  end.

Definition stillBlocks (failures : ordmap ToolRecoveryFailure) (id : string) : bool :=
  match oget id failures with Some f => failureStillBlocks f | None => false end.

(** [Object.fromEntries(ids.map((id) => [id, failures[id]!]))]. *)
Definition pickFailures (failures : ordmap ToolRecoveryFailure) (ids : list string)
  : ordmap ToolRecoveryFailure :=
  omap (fun id => (fun f => (id, f)) <$> oget id failures) ids.

Definition compactFailures (failures : ordmap ToolRecoveryFailure) (inputOrder : list string)
  : ordmap ToolRecoveryFailure * list string :=
  let order := List.filter (fun id => ohas id failures) (dedupe inputOrder) in
  if Nat.leb (length order) 128 then (failures, order)
  else
    let prioritized :=
      List.filter (stillBlocks failures) (rev order)
      ++ List.filter (fun id => negb (stillBlocks failures id)) (rev order) in
    let retained := retain failures prioritized [] in
    let retainedOrder := List.filter (fun id => str_in id retained) order in
    (pickFailures failures retainedOrder, retainedOrder).

(** ** Recording a failure *)

Record RecoveryFailureInput := {
  fin_toolCallId : string;
  fin_toolName : string;
  fin_invocationFingerprint : string;
  fin_modelMessageId : string;
  fin_outcome : obj;
  fin_taskId : option string;
  fin_turnId : option string }.

Definition newFailure (journal : ToolRecoveryJournal) (input : RecoveryFailureInput) (id : string)
    (parent : option ToolRecoveryFailure) : ToolRecoveryFailure :=
  let outcome := fin_outcome input in
  let never := dispositionIs outcome "never" in
  {| rf_failureInstanceId := id;
     rf_toolCallId := fin_toolCallId input;
     rf_toolName := fin_toolName input;
     rf_invocationFingerprint := fin_invocationFingerprint input;
     rf_modelMessageId := fin_modelMessageId input;
     rf_taskId := opt_nonempty (fin_taskId input);
     rf_turnId := opt_nonempty (fin_turnId input);
     rf_eligibleAfterModelMessageId := Some (fin_modelMessageId input);
     rf_eligibleModelMessageId := None;
     rf_eligibleToolCallId := None;
     rf_status := if never then rf_exhausted else rf_unresolved;
     rf_resolution := if never then Some rs_terminal else None;
     rf_outcome := oset "lineage" (VObj (oset "failureInstanceId" (VStr id)
                                           (jsonRecord (get outcome "lineage")))) outcome;
     rf_modelCorrectionAttempts := default 0 (rf_modelCorrectionAttempts <$> parent);
     rf_automaticRetryAttempts := default 0 (rf_automaticRetryAttempts <$> parent);
     rf_progressRevision := j_progressRevision journal |}.

(** The failures of the same chain, tool, scope and progress revision. *)
Definition sameNoProgress (failures : ordmap ToolRecoveryFailure) (order : list string)
    (failure : ToolRecoveryFailure) : Z :=
  Z.of_nat (length (List.filter
    (fun entry => failureStillBlocks entry
                  && (noProgressKey failures entry =s noProgressKey failures failure))
    (omap (fun id => oget id failures) order))).

Section Recording.
Context `{JsHost}.

Definition recordRecoveryFailure (journal : ToolRecoveryJournal) (input : RecoveryFailureInput)
  : res ToolRecoveryJournal :=
  let outcome := fin_outcome input in
  if is_str (get outcome "status") "success" then Ok journal
  else
    let* id := toolFailureInstanceId (fin_toolCallId input) (fin_invocationFingerprint input)
                 outcome in
    if ohas id (j_failures journal) then Ok journal
    else
      let parent :=
        match opt_nonempty (lineageField outcome "recoveryOf") with
        | Some p => oget p (j_failures journal)
        | None => None
        end in
      let failure := newFailure journal input id parent in
      let superseded :=
        match parent with
        | Some p => oset (rf_failureInstanceId p)
                      (p <| rf_status := rf_exhausted |> <| rf_resolution := Some rs_terminal |>)
                      (j_failures journal)
        | None => j_failures journal
        end in
      let '(failures, order) :=
        compactFailures (oset id failure superseded) (j_order journal ++ [id]) in
      let guard := j_qualityGuard journal in
      let scopeApplies := scopeMatches (qg_taskId guard) (fin_taskId input)
                          && scopeMatches (qg_turnId guard) (fin_turnId input) in
      let observedFailures :=
        Z.min TOOL_RECOVERY_OBSERVATION_CAP
          (fadd (if scopeApplies then qg_observedFailures guard else 0) 1) in
      let blocked :=
        (scopeApplies && qg_blocked guard)
        || (TOOL_RECOVERY_QUALITY_FAILURE_LIMIT <=? sameNoProgress failures order failure) in
      Ok (journal <| j_failures := failures |> <| j_order := order |>
            <| j_qualityGuard := qualityAfterMutation journal
                 {| qg_blocked := blocked;
                    qg_reasonCode := if blocked then Some no_progress else None;
                    qg_observedFailures := observedFailures;
                    qg_taskId := if blocked then opt_nonempty (fin_taskId input) else None;
                    qg_turnId := if blocked then opt_nonempty (fin_turnId input) else None |} |>).

(** Legacy exhaustion is a typed, scope-bound quality terminal. *)
Definition recordRecoveryExhaustion (journal : ToolRecoveryJournal) (input : RecoveryFailureInput)
  : res ToolRecoveryJournal :=
  let* next := recordRecoveryFailure journal input in
  if journalInvalid next then Ok next
  else
    Ok (next <| j_qualityGuard :=
          {| qg_blocked := true; qg_reasonCode := Some no_progress;
             qg_observedFailures := Z.max TOOL_RECOVERY_QUALITY_FAILURE_LIMIT
                                      (qg_observedFailures (j_qualityGuard next));
             qg_taskId := opt_nonempty (fin_taskId input);
             qg_turnId := opt_nonempty (fin_turnId input) |} |>).
End Recording.

(** ** Admission of an attempt *)

Record AttemptInput := {
  at_toolCallId : string;
  at_toolName : string;
  at_invocationFingerprint : string;
  at_modelMessageId : string;
  at_mode : ToolRecoveryAttemptMode;
  at_taskId : option string;
  at_turnId : option string }.

Definition alternativeMatches (intent : val) (toolName : string) : bool :=
  if is_str intent "workspace.search" then toolName =s "search_files"
  else if is_str intent "git_inspect" then toolName =s "git_inspect"
  else false.

(** The codes of a recovery the kernel refused. *)
Definition REFUSAL_CODES : list string :=
  ["recovery_not_allowed"; "recovery_exhausted"; "no_progress"]%string.

Definition sameScope (failure : ToolRecoveryFailure) (taskId turnId : option string) : bool :=
  opt_str_eqb (rf_taskId failure) taskId && opt_str_eqb (rf_turnId failure) turnId.

Definition retryCandidate (input : AttemptInput) (failure : ToolRecoveryFailure) : bool :=
  (rf_invocationFingerprint failure =s at_invocationFingerprint input)
  && sameScope failure (at_taskId input) (at_turnId input).

Definition correctionCandidate (input : AttemptInput) (failure : ToolRecoveryFailure) : bool :=
  let outcome := rf_outcome failure in
  sameScope failure (at_taskId input) (at_turnId input)
  && negb (rf_modelMessageId failure =s at_modelMessageId input)
  && opt_str_eqb (rf_eligibleToolCallId failure) (Some (at_toolCallId input))
  && (if dispositionIs outcome "alternative" then
        alternativeMatches (get (outcomeRecovery outcome) "capabilityIntent") (at_toolName input)
        && scopeMatches (rf_eligibleModelMessageId failure) (Some (at_modelMessageId input))
      else
        (rf_toolName failure =s at_toolName input)
        && (dispositionIs outcome "correct_args"
            || (is_str (get outcome "status") "exhausted"
                && match get (jsonRecord (get outcome "failure")) "detailCode" with
                   | VStr code => str_in code REFUSAL_CODES | _ => false end)
            || (rf_invocationFingerprint failure =s at_invocationFingerprint input))).

Definition candidateFailure (journal : ToolRecoveryJournal) (input : AttemptInput)
  : option ToolRecoveryFailure :=
  let candidates := rev (blockedFailures journal) in
  match at_mode input with
  | automatic_retry => List.find (retryCandidate input) candidates
  | model_correction => List.find (correctionCandidate input) candidates
  end.

Definition ESCAPE_TOOLS : list string :=
  ["write_plan"; "update_plan"; "read_plan"; "ask_user"; "tool_search"]%string.

(** The guard blocks the subject's task and turn. *)
Definition guardApplies (guard : ToolRecoveryQualityGuard) (taskId turnId : option string) : bool :=
  qg_blocked guard && scopeMatches (qg_taskId guard) taskId && scopeMatches (qg_turnId guard) turnId.

(** What the disposition of a failure allows in a mode. *)
Definition attemptAllowed (mode : ToolRecoveryAttemptMode) (outcome : obj) : bool :=
  match mode with
  | model_correction => dispositionIs outcome "correct_args" || dispositionIs outcome "alternative"
  | automatic_retry => dispositionIs outcome "retry_once"
                       && truthy (get (outcomeRecovery outcome) "safeAutomaticRetry")
  end.

Definition attemptsMade (mode : ToolRecoveryAttemptMode) (failure : ToolRecoveryFailure) : Z :=
  match mode with
  | model_correction => rf_modelCorrectionAttempts failure
  | automatic_retry => rf_automaticRetryAttempts failure
  end.

(** [attempts >= maximum] for a maximum read from the outcome. *)
Definition attemptsSpent (attempts : Z) (maximum : val) : bool :=
  match maximum with VNum m => nleb m (Fin attempts) | _ => false end.

Definition admitRecoveryAttempt (journal : ToolRecoveryJournal) (input : AttemptInput)
  : RecoveryAdmission :=
  if journalInvalid journal then attempt_refused None "no_progress"
  else if guardApplies (j_qualityGuard journal) (at_taskId input) (at_turnId input)
          && negb (str_in (at_toolName input) ESCAPE_TOOLS)
  then attempt_refused None "no_progress"
  else
    match candidateFailure journal input with
    | None => attempt_admitted None
    | Some failure =>
        if bool_decide (at_mode input = model_correction)
           && negb (scopeMatches (rf_eligibleModelMessageId failure) (Some (at_modelMessageId input)))
        then attempt_admitted None
        else
          let outcome := rf_outcome failure in
          let maximum := get (outcomeRecovery outcome) "maximumAdditionalCalls" in
          let id := Some (rf_failureInstanceId failure) in
          if negb (attemptAllowed (at_mode input) outcome) || is_num maximum 0
          then attempt_refused id "recovery_not_allowed"
          else if attemptsSpent (attemptsMade (at_mode input) failure) maximum
          then attempt_refused id "recovery_exhausted"
          else attempt_admitted id
    end%string.

Definition recordRecoveryInvocation (journal : ToolRecoveryJournal) (recoveryOf : string)
    (mode : ToolRecoveryAttemptMode) : ToolRecoveryJournal :=
  match oget recoveryOf (j_failures journal) with
  | Some failure =>
      if bool_decide (rf_status failure = rf_unresolved) then
        journal <| j_failures := oset recoveryOf
          match mode with
          | model_correction => failure <| rf_modelCorrectionAttempts :=
                                  fadd (rf_modelCorrectionAttempts failure) 1 |>
          | automatic_retry => failure <| rf_automaticRetryAttempts :=
                                 fadd (rf_automaticRetryAttempts failure) 1 |>
          end (j_failures journal) |>
      else journal
  | None => journal
  end.

(** ** Progress and resolution *)

Definition progressResolution (kind : ProgressKind) : RecoveryResolution :=
  match kind with
  | pk_skipped => rs_skipped
  | pk_replanned | pk_plan_revision => rs_replanned
  | pk_user_action => rs_user_action
  | pk_provider_revision | pk_capability_revision => rs_provider_revision
  | pk_content_revision | pk_receipt => rs_recovered
  end.

(** [Object.fromEntries(Object.entries(m).map(([id, f]) => [id, g(id, f)]))]. *)
Definition mapFailures (g : string -> ToolRecoveryFailure -> ToolRecoveryFailure)
    (failures : ordmap ToolRecoveryFailure) : ordmap ToolRecoveryFailure :=
  List.map (fun '(id, failure) => (id, g id failure)) failures.

Definition recordToolOwnedProgress (journal : ToolRecoveryJournal) (progress : ToolOwnedProgress)
  : ToolRecoveryJournal :=
  if negb (str_nonempty (pr_referenceId progress)) then journal
  else
    let resolved := List.filter (stillBlocks (j_failures journal))
                      (default [] (pr_resolvesFailureIds progress)) in
    match resolved with
    | [] => journal
    | _ =>
        let resolution := progressResolution (pr_kind progress) in
        journal
          <| j_failures := mapFailures (fun id failure =>
               if negb (bool_decide (rf_status failure = rf_recovered)) && str_in id resolved
               then failure <| rf_status := rf_recovered |> <| rf_resolution := Some resolution |>
               else failure) (j_failures journal) |>
          <| j_progressRevision := fadd (j_progressRevision journal) 1 |>
          <| j_qualityGuard := qualityAfterMutation journal unblocked |>
    end.

Definition hasUnresolvedToolFailures (journal : ToolRecoveryJournal) : bool :=
  match blockedFailures journal with [] => false | _ => true end.

Definition hasActiveUnresolvedToolFailures (journal : ToolRecoveryJournal)
    (taskId turnId : option string) : bool :=
  existsb (fun failure =>
      match taskId with None => true | Some _ => opt_str_eqb (rf_taskId failure) taskId end
      && match turnId with None => true | Some _ => opt_str_eqb (rf_turnId failure) turnId end)
    (blockedFailures journal).

Definition isToolRecoveryQualityBlocked (journal : ToolRecoveryJournal)
    (taskId : option string) (turnId : string) : bool :=
  journalInvalid journal || guardApplies (j_qualityGuard journal) taskId (Some turnId).

Definition resolutionRecovers (resolution : RecoveryResolution) : bool :=
  match resolution with
  | rs_skipped | rs_replanned | rs_user_action | rs_provider_revision => true
  | _ => false
  end.

Definition closeFailures (journal : ToolRecoveryJournal)
    (predicate : ToolRecoveryFailure -> bool) (resolution : RecoveryResolution)
  : ToolRecoveryJournal :=
  let closes failure := negb (bool_decide (rf_status failure = rf_recovered)) && predicate failure in
  if existsb closes (ovalues (j_failures journal)) then
    journal
      <| j_failures := mapFailures (fun _ failure =>
           if closes failure then
             failure <| rf_status := if resolutionRecovers resolution then rf_recovered else rf_exhausted |>
                     <| rf_resolution := Some resolution |>
           else failure) (j_failures journal) |>
      <| j_qualityGuard := qualityAfterMutation journal unblocked |>
  else journal.

Inductive RecoveryScope : Type :=
| scope_task (taskId : string)
| scope_turn (turnId : string)
| scope_failure (failureIds : list string) (resolution : RecoveryResolution).

Definition closeToolRecoveryScope (journal : ToolRecoveryJournal) (input : RecoveryScope)
  : ToolRecoveryJournal :=
  match input with
  | scope_task taskId =>
      closeFailures journal (fun f => opt_str_eqb (rf_taskId f) (Some taskId)) rs_task_closed
  | scope_turn turnId =>
      closeFailures journal (fun f => opt_str_eqb (rf_turnId f) (Some turnId)) rs_turn_closed
  | scope_failure failureIds resolution =>
      closeFailures journal (fun f => str_in (rf_failureInstanceId f) failureIds) resolution
  end.

(** ** Binding failures to the next response *)

Record ResponseInput := {
  rp_taskId : option string;
  rp_turnId : option string;
  rp_modelMessageId : string;
  rp_toolCalls : list (string * string) }.

(** [(failures, claimed, changed)]. *)
Definition AdvanceState : Type := (ordmap ToolRecoveryFailure * list string * bool)%type.

(** A tool call of the response that answers the failure. *)
Definition answers (failure : ToolRecoveryFailure) (toolName : string) : bool :=
  if dispositionIs (rf_outcome failure) "alternative"
  then alternativeMatches (get (outcomeRecovery (rf_outcome failure)) "capabilityIntent") toolName
  else rf_toolName failure =s toolName.

(** The failures the response does not concern. *)
Definition outOfResponse (input : ResponseInput) (failure : ToolRecoveryFailure) : bool :=
  negb (failureStillBlocks failure)
  || negb (sameScope failure (rp_taskId input) (rp_turnId input))
  || dispositionIs (rf_outcome failure) "retry_once"
  || (rf_modelMessageId failure =s rp_modelMessageId input).

Definition elapsed (failure : ToolRecoveryFailure) : ToolRecoveryFailure :=
  failure <| rf_status := rf_exhausted |> <| rf_resolution := Some rs_next_response_elapsed |>.

Definition advanceStep (input : ResponseInput) (s : AdvanceState) (id : string) : AdvanceState :=
  let '(failures, claimed, changed) := s in
  match oget id failures with
  | None => s
  | Some failure =>
      if outOfResponse input failure then s
      else
        let sameMessage := opt_str_eqb (rf_eligibleModelMessageId failure)
                             (Some (rp_modelMessageId input)) in
        if negb (is_some (rf_eligibleModelMessageId failure))
           || (sameMessage && negb (is_some (rf_eligibleToolCallId failure)))
        then
          match List.find (fun '(callId, name) => negb (str_in callId claimed) && answers failure name)
                  (rp_toolCalls input) with
          | Some (callId, _) =>
              (oset id (failure <| rf_eligibleModelMessageId := Some (rp_modelMessageId input) |>
                                <| rf_eligibleToolCallId := Some callId |>) failures,
               claimed ++ [callId], true)
          | None =>
              (oset id (elapsed (failure <| rf_eligibleModelMessageId :=
                                    Some (rp_modelMessageId input) |>)) failures,
               claimed, true)
          end
        else if negb sameMessage then (oset id (elapsed failure) failures, claimed, true)
        else s
  end.

Definition initiallyClaimed (journal : ToolRecoveryJournal) (modelMessageId : string)
  : list string :=
  omap (fun f => opt_nonempty (rf_eligibleToolCallId f))
    (List.filter (fun f => opt_str_eqb (rf_eligibleModelMessageId f) (Some modelMessageId))
       (ovalues (j_failures journal))).

Definition advanceToolRecoveryResponse (journal : ToolRecoveryJournal) (input : ResponseInput)
  : ToolRecoveryJournal :=
  let '(failures, _, changed) :=
    fold_left (advanceStep input) (j_order journal)
      (j_failures journal, initiallyClaimed journal (rp_modelMessageId input), false) in
  if changed then journal <| j_failures := failures |> else journal.

Definition createToolRecoveryJournal (identityKey : string) : res ToolRecoveryJournal :=
  throw "Tool recovery identityKey must be a canonical host-supplied key."
    when negb (isHex64 identityKey) in
  Ok {| j_identityKey := identityKey; j_failures := []; j_order := []; j_progressRevision := 0;
        j_qualityGuard := unblocked |}.

(** ** Validation of a journal that arrives as data

    A journal is JSON, so its numbers are finite: [numberValue] is [numberField]. *)

Definition FAILURE_KEYS : list string :=
  ["failureInstanceId"; "toolCallId"; "toolName"; "invocationFingerprint"; "modelMessageId";
   "taskId"; "turnId"; "eligibleAfterModelMessageId"; "eligibleModelMessageId";
   "eligibleToolCallId"; "status"; "resolution"; "outcome"; "modelCorrectionAttempts";
   "automaticRetryAttempts"; "progressRevision"]%string.

Definition exactFailureKeys (value : obj) : bool := allowedKeys value FAILURE_KEYS.

Definition validNonEmpty (value : option string) : bool := is_some (opt_nonempty value).

Definition FAILURE_STATUSES : list (string * RecoveryFailureStatus) :=
  [("unresolved", rf_unresolved); ("recovered", rf_recovered); ("exhausted", rf_exhausted)]%string.

Definition isToolRecoveryFailureStatus (value : option string) : bool :=
  match value with Some s => ohas s FAILURE_STATUSES | None => false end.

Definition isNonNegativeInteger (value : option Z) : bool :=
  match value with Some z => 0 <=? z | None => false end.

(** A counter of attempts: zero or one. *)
Definition validAttempts (value : option Z) : bool :=
  isNonNegativeInteger value && (default 0 value <=? 1).

Definition isFingerprint (value : option string) : bool := isHex64 (default ""%string value).

(** [value === undefined || typeof value === 'string']. *)
Definition undefinedOrString (value : val) : bool :=
  match value with VUndef | VStr _ => true | _ => false end.

Definition isToolRecoveryFailure (failure : obj) : bool :=
  let str := stringField failure in
  exactFailureKeys failure
  && validNonEmpty (str "failureInstanceId") && validNonEmpty (str "toolCallId")
  && validNonEmpty (str "toolName") && isFingerprint (str "invocationFingerprint")
  && is_some (str "modelMessageId")
  && undefinedOrString (get failure "taskId") && undefinedOrString (get failure "turnId")
  && undefinedOrString (get failure "eligibleAfterModelMessageId")
  && undefinedOrString (get failure "eligibleModelMessageId")
  && (is_undef (get failure "eligibleToolCallId")
      || (validNonEmpty (str "eligibleToolCallId") && is_some (str "eligibleModelMessageId")))
  && isToolRecoveryFailureStatus (str "status")
  && (is_undef (get failure "resolution") || isToolRecoveryResolution (get failure "resolution"))
  && isToolOutcome (get failure "outcome")
  && validAttempts (numberField failure "modelCorrectionAttempts")
  && validAttempts (numberField failure "automaticRetryAttempts")
  && isNonNegativeInteger (numberField failure "progressRevision").

(** The typed view of a validated failure. *)
Definition decodeFailure (o : obj) : ToolRecoveryFailure :=
  let str := stringField o in
  {| rf_failureInstanceId := default "" (str "failureInstanceId");
     rf_toolCallId := default "" (str "toolCallId");
     rf_toolName := default "" (str "toolName");
     rf_invocationFingerprint := default "" (str "invocationFingerprint");
     rf_modelMessageId := default "" (str "modelMessageId");
     rf_taskId := str "taskId";
     rf_turnId := str "turnId";
     rf_eligibleAfterModelMessageId := str "eligibleAfterModelMessageId";
     rf_eligibleModelMessageId := str "eligibleModelMessageId";
     rf_eligibleToolCallId := str "eligibleToolCallId";
     rf_status := default rf_unresolved (str "status" ≫= fun s => oget s FAILURE_STATUSES);
     rf_resolution := str "resolution" ≫= fun s => oget s TOOL_RECOVERY_RESOLUTIONS_;
     rf_outcome := jsonRecord (get o "outcome");
     rf_modelCorrectionAttempts := default 0 (numberField o "modelCorrectionAttempts");
     rf_automaticRetryAttempts := default 0 (numberField o "automaticRetryAttempts");
     rf_progressRevision := default 0 (numberField o "progressRevision") |}%string.

Definition RECOVERED_RESOLUTIONS : list string :=
  ["recovered"; "skipped"; "replanned"; "user_action"; "provider_revision"]%string.
Definition EXHAUSTED_RESOLUTIONS : list string :=
  ["terminal"; "next_response_elapsed"; "task_closed"; "turn_closed"]%string.

(** The resolution agrees with the status, and an unresolved failure is one that
    may still be recovered. *)
Definition resolutionMatches (status : string) (resolution : option string) (outcome : obj) : bool :=
  if status =s "unresolved" then
    negb (is_some resolution) && negb (dispositionIs outcome "never")
  else if status =s "recovered" then
    match resolution with Some r => str_in r RECOVERED_RESOLUTIONS | None => false end
  else match resolution with Some r => str_in r EXHAUSTED_RESOLUTIONS | None => false end.

(** [value == null || typeof value === 'string']. *)
Definition nullishOrString (value : val) : bool :=
  match value with VUndef | VNull | VStr _ => true | _ => false end.

Section Validation.
Context `{JsHost}.

(** The long condition of the failure loop, negated. *)
Definition failureConsistent (failure : obj) (id : string) (maxRevision : Z) : res bool :=
  let str := stringField failure in
  let revision := numberField failure "progressRevision" in
  let outcome := jsonRecord (get failure "outcome") in
  if opt_str_eqb (str "failureInstanceId") (Some id)
     && validNonEmpty (str "toolCallId") && validNonEmpty (str "toolName")
     && isFingerprint (str "invocationFingerprint") && is_some (str "modelMessageId")
     && nullishOrString (get failure "taskId") && nullishOrString (get failure "turnId")
     && nullishOrString (get failure "eligibleAfterModelMessageId")
     && nullishOrString (get failure "eligibleModelMessageId")
     && (is_nullish (get failure "eligibleToolCallId")
         || (validNonEmpty (str "eligibleToolCallId") && is_some (str "eligibleModelMessageId")))
     && isToolRecoveryFailureStatus (str "status")
     && (is_nullish (get failure "resolution")
         || isToolRecoveryResolution (get failure "resolution"))
     && isToolOutcome (get failure "outcome")
     && validAttempts (numberField failure "modelCorrectionAttempts")
     && validAttempts (numberField failure "automaticRetryAttempts")
     && isNonNegativeInteger revision && (default 0 revision <=? maxRevision)
  then
    let* instance := toolFailureInstanceId (default "" (str "toolCallId"))
                       (default "" (str "invocationFingerprint")) outcome in
    Ok ((instance =s id)
        && resolutionMatches (default "" (str "status")) (str "resolution") outcome
        && opt_str_eqb (lineageField outcome "failureInstanceId") (Some id))
  else Ok false%string.

(** A restored failure whose window has passed, or without a turn, is settled. *)
Definition normalizedFailureValue (failure : obj) : obj :=
  let str := stringField failure in
  let settle (resolution : string) :=
    oset "resolution" (VStr resolution) (oset "status" (VStr "exhausted") failure) in
  if opt_str_eqb (str "status") (Some "unresolved") && is_some (str "eligibleModelMessageId")
     && negb (is_some (str "eligibleToolCallId"))
  then settle "next_response_elapsed"
  else if negb (is_some (str "turnId")) then settle "terminal" else failure%string.

(** Why a journal is refused: the scope the refusal is attributed to. *)
Definition RefusalScope : Type := (option string * option string)%type.

Definition claimOf (failure : obj) : option string :=
  match stringField failure "eligibleToolCallId" with
  | Some callId =>
      Some (default "undefined"%string (stringField failure "eligibleModelMessageId")
            +:+ chr 0 +:+ callId)
  | None => None
  end.

(** One iteration of the failure loop on [(failures, claims)]. *)
Definition restoreFailure (failuresRecord : obj) (maxRevision : Z)
    (acc : ordmap ToolRecoveryFailure * list string) (id : string)
  : res (RefusalScope + ordmap ToolRecoveryFailure * list string) :=
  let '(failures, claims) := acc in
  match recordField failuresRecord id with
  | None => Ok (inl (None, None))
  | Some failure =>
      let scope := (stringField failure "taskId", stringField failure "turnId") in
      if negb (exactFailureKeys failure) then Ok (inl (None, None))
      else
        let* consistent := failureConsistent failure id maxRevision in
        if negb consistent then Ok (inl scope)
        else if match claimOf failure with Some claim => str_in claim claims | None => false end
        then Ok (inl (None, None))
        else
          let normalized := normalizedFailureValue failure in
          if negb (isToolRecoveryFailure normalized) then Ok (inl scope)
          else Ok (inr (oset id (decodeFailure normalized) failures,
                        match claimOf failure with
                        | Some claim => claims ++ [claim] | None => claims end))
  end.

Fixpoint restoreFailures (failuresRecord : obj) (maxRevision : Z) (order : list string)
    (acc : ordmap ToolRecoveryFailure * list string)
  : res (RefusalScope + ordmap ToolRecoveryFailure) :=
  match order with
  | [] => Ok (inr (fst acc))
  | id :: rest =>
      let* step := restoreFailure failuresRecord maxRevision acc id in
      match step with
      | inl scope => Ok (inl scope)
      | inr acc => restoreFailures failuresRecord maxRevision rest acc
      end
  end.

Fixpoint indexOf (id : string) (l : list string) : option nat :=
  match l with
  | [] => None
  | x :: l' => if id =s x then Some 0%nat else S <$> indexOf id l'
  end.

(** A failure's recorded parent comes first and its counters do not exceed it. *)
Definition lineageConsistent (failures : ordmap ToolRecoveryFailure) (order : list string)
    (index : nat) (id : string) : bool :=
  match oget id failures with
  | None => false
  | Some failure =>
      match recoveryParent failure with
      | None => true
      | Some parentId =>
          match oget parentId failures, indexOf parentId order with
          | Some parent, Some parentIndex =>
              negb (parentId =s id) && Nat.ltb parentIndex index
              && (rf_progressRevision parent <=? rf_progressRevision failure)
              && (rf_modelCorrectionAttempts parent <=? rf_modelCorrectionAttempts failure)
              && (rf_automaticRetryAttempts parent <=? rf_automaticRetryAttempts failure)
              && (rf_modelCorrectionAttempts failure - rf_modelCorrectionAttempts parent <=? 1)
              && (rf_automaticRetryAttempts failure - rf_automaticRetryAttempts parent <=? 1)
          | _, _ => false
          end
      end
  end.

Fixpoint lineagesConsistent (failures : ordmap ToolRecoveryFailure) (order : list string)
    (index : nat) (ids : list string) : bool :=
  match ids with
  | [] => true
  | id :: rest => lineageConsistent failures order index id
                  && lineagesConsistent failures order (S index) rest
  end.

(** A group of failures without progress: their number and scope. *)
Definition ProgressGroup : Type := (Z * option string * option string)%type.

Definition groupStep (failures : ordmap ToolRecoveryFailure) (derived : ordmap ProgressGroup)
    (failure : ToolRecoveryFailure) : ordmap ProgressGroup :=
  if failureStillBlocks failure then
    let key := noProgressKey failures failure in
    let count := match oget key derived with Some (n, _, _) => n | None => 0 end in
    oset key (count + 1, opt_nonempty (rf_taskId failure), opt_nonempty (rf_turnId failure)) derived
  else derived.

Definition progressGroups (failures : ordmap ToolRecoveryFailure) : list ProgressGroup :=
  List.filter (fun '(count, _, _) => TOOL_RECOVERY_QUALITY_FAILURE_LIMIT <=? count)
    (ovalues (fold_left (groupStep failures) (ovalues failures) [])).

Definition groupScope (group : ProgressGroup) : string :=
  let '(_, taskId, turnId) := group in default "" taskId +:+ chr 0 +:+ default "" turnId.

Definition JOURNAL_KEYS : list string :=
  ["schemaVersion"; "identityKey"; "failures"; "order"; "progressRevision"; "qualityGuard"]%string.
Definition QUALITY_KEYS : list string :=
  ["blocked"; "reasonCode"; "observedFailures"; "taskId"; "turnId"]%string.

(** The journal a refusal leaves: empty and blocked. *)
Definition refusedJournal (identityKey : string) (observed : option Z) (scope : RefusalScope)
  : ToolRecoveryJournal :=
  {| j_identityKey := identityKey; j_failures := []; j_order := []; j_progressRevision := 0;
     j_qualityGuard :=
       {| qg_blocked := true; qg_reasonCode := Some journal_invalid;
          qg_observedFailures := Z.max 0 (Z.min 250 (default 0 observed));
          qg_taskId := opt_nonempty (fst scope); qg_turnId := opt_nonempty (snd scope) |} |}.

Definition safeNaturalValue (v : val) : bool :=
  match v with VNum (Fin z) => isSafeInteger z && (0 <=? z) | _ => false end.

Definition validJournalShape (candidate : obj) (identityKey : string) : bool :=
  allowedKeys candidate JOURNAL_KEYS
  && is_num (get candidate "schemaVersion") 1
  && is_str (get candidate "identityKey") identityKey && isHex64 identityKey
  && is_some (recordField candidate "failures") && is_some (arrayField candidate "order")
  && match recordField candidate "qualityGuard" with
     | Some quality => allowedKeys quality QUALITY_KEYS
     | None => false
     end
  && safeNaturalValue (get candidate "progressRevision").

Definition validQuality (quality : obj) : bool :=
  match get quality "blocked" with
  | VBool blocked =>
      safeNaturalValue (get quality "observedFailures")
      && match numberField quality "observedFailures" with Some z => z <=? 250 | None => false end
      && (negb blocked || str_in (js_string (get quality "reasonCode")) ["no_progress"; "journal_invalid"]%string)
      && (blocked || (is_nullish (get quality "reasonCode") && is_nullish (get quality "taskId")
                      && is_nullish (get quality "turnId")))
      && nullishOrString (get quality "taskId") && nullishOrString (get quality "turnId")
  | _ => false
  end.

Definition stringItems (l : list val) : list string :=
  omap (fun v => match v with VStr s => Some s | _ => None end) l.

Definition validOrder (order : list val) (failuresRecord : obj) : bool :=
  let ids := stringItems order in
  Nat.leb (length order) 128
  && forallb (fun v => match v with VStr s => isHex64 s | _ => false end) order
  && Nat.eqb (length (dedupe ids)) (length ids)
  && forallb (fun id => str_in id ids) (okeys failuresRecord).

Definition restoredGuard (quality : obj) (groups : list ProgressGroup) : ToolRecoveryQualityGuard :=
  let first := head groups in
  let blocked := is_true (get quality "blocked") || is_some first in
  let reasonCode :=
    if blocked then
      Some (if is_str (get quality "reasonCode") "journal_invalid" then journal_invalid
            else no_progress)
    else None in
  let scoped (own : option string) (derived : option string) :=
    if bool_decide (reasonCode = Some no_progress)
    then opt_nonempty (match own with Some s => Some s | None => derived end) else None in
  {| qg_blocked := blocked; qg_reasonCode := reasonCode;
     qg_observedFailures :=
       Z.min TOOL_RECOVERY_OBSERVATION_CAP (default 0 (numberField quality "observedFailures"));
     qg_taskId := scoped (stringField quality "taskId") (first ≫= fun '(_, t, _) => t);
     qg_turnId := scoped (stringField quality "turnId") (first ≫= fun '(_, _, t) => t) |}.

Definition normalizeToolRecoveryJournal (value : val) (hostIdentityKey : string)
  : res ToolRecoveryJournal :=
  let* _ := assertCanonicalRecoveryIdentityKey hostIdentityKey in
  let candidate := jsonRecord value in
  let quality := jsonRecord (get candidate "qualityGuard") in
  let refused scope :=
    Ok (refusedJournal hostIdentityKey (numberField quality "observedFailures") scope) in
  if negb (validJournalShape candidate hostIdentityKey) then refused (None, None)
  else if negb (validQuality quality) then refused (None, None)
  else
    let failuresRecord := jsonRecord (get candidate "failures") in
    let order := default [] (arrayField candidate "order") in
    if negb (validOrder order failuresRecord) then refused (None, None)
    else
      let ids := stringItems order in
      let revision := default 0 (numberField candidate "progressRevision") in
      let* restored := restoreFailures failuresRecord revision ids ([], []) in
      match restored with
      | inl scope => refused scope
      | inr failures =>
          if negb (lineagesConsistent failures ids 0 ids) then refused (None, None)
          else
            let groups := progressGroups failures in
            if negb (is_true (get quality "blocked"))
               && Nat.ltb 1 (length (dedupe (List.map groupScope groups)))
            then refused (None, None)
            else
              Ok {| j_identityKey := hostIdentityKey; j_failures := failures; j_order := ids;
                    j_progressRevision := revision; j_qualityGuard := restoredGuard quality groups |}
      end.

(** ** Merging a child's journal *)

Definition mergedEntry (parent normalized : ToolRecoveryJournal) (taskId turnId : option string)
    (combined : ordmap ToolRecoveryFailure) (id : string) : ordmap ToolRecoveryFailure :=
  match oget id (j_failures parent) with
  | Some failure => oset id failure combined
  | None =>
      match oget id (j_failures normalized) with
      | Some failure =>
          let failure := match opt_nonempty taskId with
                         | Some t => failure <| rf_taskId := Some t |> | None => failure end in
          let failure := match opt_nonempty turnId with
                         | Some t => failure <| rf_turnId := Some t |> | None => failure end in
          oset id failure combined
      | None => combined
      end
  end.

Definition orElse (a b : option string) : option string := match a with Some _ => a | None => b end.

Definition reasonIs (guard : ToolRecoveryQualityGuard) (reason : RecoveryReason) : bool :=
  bool_decide (qg_reasonCode guard = Some reason).

Definition mergeToolRecoveryJournals (parent : ToolRecoveryJournal) (child : val)
    (hostIdentityKey : string) (taskId turnId : option string) : res ToolRecoveryJournal :=
  let* _ := assertCanonicalRecoveryIdentityKey hostIdentityKey in
  let* normalized := normalizeToolRecoveryJournal child hostIdentityKey in
  let pg := j_qualityGuard parent in
  let ng := j_qualityGuard normalized in
  if journalInvalid normalized || negb (hostIdentityKey =s j_identityKey parent)
     || negb (j_identityKey normalized =s j_identityKey parent)
  then
    Ok (parent <| j_qualityGuard :=
      {| qg_blocked := true; qg_reasonCode := Some journal_invalid;
         qg_observedFailures := Z.max TOOL_RECOVERY_QUALITY_FAILURE_LIMIT (qg_observedFailures pg);
         qg_taskId := opt_nonempty taskId; qg_turnId := opt_nonempty turnId |} |>)
  else
    let combinedOrder :=
      j_order parent
      ++ List.filter (fun id => negb (ohas id (j_failures parent))) (j_order normalized) in
    let combinedFailures := fold_left (mergedEntry parent normalized taskId turnId) combinedOrder [] in
    let '(failures, order) := compactFailures combinedFailures combinedOrder in
    let blocked := qg_blocked pg || qg_blocked ng in
    let invalidReason := reasonIs pg journal_invalid || reasonIs ng journal_invalid in
    Ok {| j_identityKey := j_identityKey parent; j_failures := failures; j_order := order;
          j_progressRevision := Z.max (j_progressRevision parent) (j_progressRevision normalized);
          j_qualityGuard :=
            {| qg_blocked := blocked;
               qg_reasonCode :=
                 if blocked then Some (if invalidReason then journal_invalid else no_progress)
                 else None;
               qg_observedFailures :=
                 Z.min TOOL_RECOVERY_OBSERVATION_CAP
                   (fadd (qg_observedFailures pg) (qg_observedFailures ng));
               qg_taskId := if blocked then opt_nonempty (orElse (qg_taskId pg) taskId) else None;
               qg_turnId := if blocked then opt_nonempty (orElse (qg_turnId pg) turnId) else None |} |}.
End Validation.
