(* ===== verification/RecoveryReducer.v ===== *)
(** * The recovery reducer ([domains/recovery/reducer.ts]) and restart recovery
    ([restart-recovery.ts])

    [reduceRecoveryState] feeds terminal tool events into the recovery journal,
    keeps the snapshots of suspended subagents and closes the transcript of calls
    that were rejected before they ran.  [projectStateRestartRecoveryEvents]
    lists the events that settle what a restart left open. *)

From S2P Require Import Prelude Js Hash State ApprovalQueue Normalization Recovery.
From stdpp Require Import prelude strings list.
From Stdlib Require Import ZArith Lia Ascii.
Open Scope Z_scope.

Definition EPOCH_CREATED_AT : string := "1970-01-01T00:00:00.000Z".

Record RecoveryProjection := {
  rp_retryable : bool;
  rp_model_fixable : val;
  rp_recovery_disposition : val;
  rp_maximum_additional_calls : val;
  rp_next_step : string }.

Definition recoveryProjection (outcome : obj) : RecoveryProjection :=
  let recovery := outcomeRecovery outcome in
  let d := dispositionIs outcome in
  {| rp_retryable := d "retry_once"%string;
     rp_model_fixable :=
       if truthy (get recovery "requiresNewModelResponse")
       then VBool (d "correct_args"%string || d "alternative"%string)
       else get recovery "requiresNewModelResponse";
     rp_recovery_disposition := get recovery "disposition";
     rp_maximum_additional_calls := get recovery "maximumAdditionalCalls";
     rp_next_step :=
       if d "correct_args" then
         "Explain the failure, correct the arguments once in the next model response, and continue."
       else if d "alternative" then
         "Explain the failure and choose a different available capability without replaying this invocation."
       else if d "user_action" then
         "Explain the required user action and wait for an authoritative user or provider resolution."
       else if d "retry_once" then
         "Do not issue a model-owned replay; Runtime owns the single safe automatic retry."
       else "Explain the failure and continue without retrying or assuming the tool succeeded." |}%string.

(** [messages.map((m, ordinal) => ({ ...m, ordinal }))]. *)
Definition renumber (messages : list obj) : list obj :=
  imap (fun ordinal m => oset "ordinal" (VNum (Fin (Z.of_nat ordinal))) m) messages.

Definition hasToolMessage (messages : list obj) (toolCallId : string) : bool :=
  existsb (fun m => is_str (get m "kind") "tool" && is_str (get m "toolCallId") toolCallId) messages.

Definition supplementalContent (event outcome : obj) : val :=
  let failure := default [] (recordField event "failure") in
  let result := default [] (recordField event "result") in
  let reason :=
    match stringField event "reason", stringField result "reason", stringField failure "message" with
    | Some r, _, _ => r
    | None, Some r, _ => r
    | None, None, Some r => r
    | None, None, None => ""
    end in
  let projected := recoveryProjection outcome in
  let isAutoReview := ev_type event =s "auto_review.completed" in
  VObj [("ok", VBool false); ("rejected", VBool true);
        ("error", VObj (
          [("kind", if isAutoReview
                    then nullish (get (jsonRecord (get outcome "failure")) "kind")
                           (VStr "auto_review_rejected")
                    else VStr (default "approval_rejected" (stringField failure "kind")))]
          ++ (if isAutoReview then [] else [("message", VStr reason)])
          ++ [("retryable", VBool (rp_retryable projected));
              ("model_fixable", rp_model_fixable projected);
              ("recovery_disposition", rp_recovery_disposition projected);
              ("maximum_additional_calls", rp_maximum_additional_calls projected)])%list);
        ("next_step", VStr (rp_next_step projected))]%string.

Definition appendSupplementalToolTranscript (state : AgentState) (call : AgentToolCallState)
    (event outcome : obj) : AgentTranscriptState :=
  let t := transcript state in
  if hasToolMessage (messages t) (tc_toolCallId call) then t
  else
    let isAutoReview := ev_type event =s "auto_review.completed" in
    let message : obj :=
      [("kind", VStr "tool"); ("messageId", VStr ("tool-" +:+ tc_toolCallId call));
       ("turnId", VStr (turnId (turn state)));
       ("ordinal", VNum (Fin (Z.of_nat (length (messages t)))));
       ("createdAt", VStr (if isAutoReview
                           then default EPOCH_CREATED_AT (stringField event "createdAt")
                           else EPOCH_CREATED_AT));
       ("toolCallId", VStr (tc_toolCallId call)); ("name", VStr (tc_name call));
       ("content", VStr (default "" (json_stringify (supplementalContent event outcome))));
       ("ok", VBool false)]%string in
    t <| messages := renumber (messages t ++ [message]) |>.

Definition clearSuspendedSubagent (state : AgentState) (toolCallId : string) (isTaskCall : bool)
  : ordmap obj :=
  if negb isTaskCall || negb (ohas toolCallId (suspendedSubagents state))
  then suspendedSubagents state
  else odelete toolCallId (suspendedSubagents state).

(** The call an event's non-empty [toolCallId] names. *)
Definition eventCall (state : AgentState) (event : obj) : option (string * AgentToolCallState) :=
  match nonEmptyStringField event "toolCallId" with
  | Some id => (fun call => (id, call)) <$> oget id (calls (tools state))
  | None => None
  end.

Definition reduceSubagentSuspended (state : AgentState) (event : obj) : AgentState :=
  match eventCall state event, recordField event "snapshot" with
  | Some (id, call), Some snapshot =>
      if tc_name call =s "task"
      then state <| suspendedSubagents := oset id snapshot (suspendedSubagents state) |>
      else state
  | _, _ => state
  end.

Definition reduceSubagentDeferred (state : AgentState) (event : obj) : AgentState :=
  match eventCall state event with
  | Some (id, call) =>
      if (tc_name call =s "task") && bool_decide (tc_status call = t_running)
         && ohas id (suspendedSubagents state)
      then
        let t := tools state in
        state <| tools :=
          {| calls := oset id (call <| tc_status := t_queued |>) (calls t);
             queue := if str_in id (queue t) then queue t else queue t ++ [id];
             active := List.filter (fun x => negb (x =s id)) (active t) |} |>
      else state
  | None => state
  end.

Definition RECOVERY_EVENTS : list string :=
  ["tool.finished"; "tool.failed"; "tool.rejected"; "tool.cancelled"; "tool.retry_recorded";
   "approval.rejected"; "auto_review.completed"]%string.

Definition TOOL_TERMINAL_EVENTS : list string :=
  ["tool.finished"; "tool.failed"; "tool.rejected"; "tool.cancelled"; "tool.retry_recorded"]%string.

Definition isTerminalStatus (s : ToolCallStatus) : bool :=
  match s with
  | t_succeeded | t_failed | t_rejected | t_cancelled | t_exhausted => true
  | _ => false
  end.

Section Reducer.
Context `{JsHost}.

Definition reduceSubagentMerged (state : AgentState) (event : obj) : res AgentState :=
  match eventCall state event, get event "journal" with
  | Some (_, call), VObj journal =>
      if tc_name call =s "task" then
        let* merged :=
          mergeToolRecoveryJournals (toolRecovery state) (VObj journal)
            (j_identityKey (toolRecovery state))
            (match tc_taskId call with Some t => Some t | None => activeTaskId state end)
            (Some (tc_createdAtTurnId call)) in
        Ok (state <| toolRecovery := merged |>)
      else Ok state
  | _, _ => Ok state
  end.

(** The journal after a terminal tool event: [None] leaves the state unchanged. *)
Definition nextJournal (state : AgentState) (event : obj) (toolCallId : string)
    (call : AgentToolCallState) (outcome : obj) : res (option ToolRecoveryJournal) :=
  let* invocationFingerprint :=
    match tc_invocationFingerprint call with
    | Some fingerprint => Ok fingerprint
    | None => toolInvocationFingerprint
                {| fi_toolName := tc_name call; fi_parsedArgs := tc_args call; fi_parseCode := None;
                   fi_pathCategory := None; fi_unparsedArgs := VUndef; fi_identityRevision := None |}
    end in
  let t := ev_type event in
  if (t =s "tool.finished") && is_str (get outcome "status") "success" then
    Ok (Some (recordToolOwnedProgress (toolRecovery state)
      {| pr_kind := pk_receipt; pr_referenceId := toolCallId;
         pr_resolvesFailureIds := (fun id => [id]) <$> opt_nonempty (tc_recoveryOf call) |}))
  else
    let* journal :=
      recordRecoveryFailure (toolRecovery state)
        {| fin_toolCallId := toolCallId; fin_toolName := tc_name call;
           fin_invocationFingerprint := invocationFingerprint;
           fin_modelMessageId := tc_modelMessageId call; fin_outcome := outcome;
           fin_taskId := tc_taskId call; fin_turnId := Some (tc_createdAtTurnId call) |} in
    if t =s "tool.retry_recorded" then
      match nonEmptyStringField event "recoveryOf" with
      | Some recoveryOf => Ok (Some (recordRecoveryInvocation journal recoveryOf automatic_retry))
      | None => Ok None
      end
    else Ok (Some journal).

Definition reduceToolOutcome (state : AgentState) (event : obj) : res AgentState :=
  let t := ev_type event in
  match eventCall state event with
  | None => Ok state
  | Some (toolCallId, call) =>
      if str_in t TOOL_TERMINAL_EVENTS && isTerminalStatus (tc_status call) then Ok state
      else if negb (isToolOutcome (get event "outcome")) then Ok state
      else
        let outcome := jsonRecord (get event "outcome") in
        let* next := nextJournal state event toolCallId call outcome in
        match next with
        | None => Ok state
        | Some journal =>
            let supplementalTerminal :=
              ((t =s "approval.rejected") || (t =s "auto_review.completed"))
              && bool_decide (tc_status call = t_rejected) in
            let keep x := negb (x =s toolCallId) in
            let settled :=
              if supplementalTerminal then
                state
                  <| tools := (tools state) <| queue := List.filter keep (queue (tools state)) |>
                                            <| active := List.filter keep (active (tools state)) |> |>
                  <| transcript := appendSupplementalToolTranscript state call event outcome |>
                  <| suspendedSubagents :=
                       clearSuspendedSubagent state toolCallId (tc_name call =s "task") |>
              else state in
            Ok (settled <| toolRecovery := journal |>)
        end
  end.

(** The other event types, the durable notifications of subagents among them,
    leave the state as it is. *)
Definition reduceRecoveryState (state : AgentState) (event : obj) : res AgentState :=
  let t := ev_type event in
  if t =s "subagent.suspended" then Ok (reduceSubagentSuspended state event)
  else if t =s "subagent.approval_deferred" then Ok (reduceSubagentDeferred state event)
  else if t =s "subagent.recovery_journal_merged" then reduceSubagentMerged state event
  else if str_in t RECOVERY_EVENTS then reduceToolOutcome state event
  else Ok state.
End Reducer.
