(* ===== verification/RecoveryProps.v ===== *)
(** * Properties of the journal's walks and of compaction

    The two loops that follow [recoveryOf] links terminate on every journal,
    cyclic ones included, and compaction keeps a lineage-closed, duplicate-free
    selection of at most 128 failures. *)

From S2P Require Import Prelude Js Hash State ApprovalQueue Normalization Recovery.
From stdpp Require Import prelude strings list.
From Stdlib Require Import ZArith Lia Ascii.
Open Scope Z_scope.

(** ** Lists as sets *)

Lemma filter_NoDup {A} (f : A -> bool) (l : list A) : NoDup l -> NoDup (List.filter f l).
Proof.
  induction 1 as [|x l Hx Hl IH]; simpl; [constructor|]. destruct (f x); [|done].
  constructor; [|done]. rewrite list_elem_of_In, filter_In, <- list_elem_of_In. tauto.
Qed.

Lemma NoDup_incl_len {A} (l k : list A) :
  NoDup l -> (forall x, In x l -> In x k) -> (length l <= length k)%nat.
Proof. intros Hl Hi. apply NoDup_incl_length; [by apply NoDup_ListNoDup|exact Hi]. Qed.

Lemma dedupe_from_spec seen l :
  NoDup (dedupe_from seen l)
  /\ (forall x, In x (dedupe_from seen l) <-> In x l /\ ~ In x seen).
Proof.
  revert seen. induction l as [|y l IH]; intros seen; simpl; [split; [constructor|tauto]|].
  destruct (str_in y seen) eqn:Ey.
  - apply str_in_true in Ey. destruct (IH seen) as [Hn Hi]. split; [done|].
    intros x. rewrite Hi. split; [tauto|]. intros [[->|?] ?]; tauto.
  - assert (~ In y seen) as Hy by (rewrite <- str_in_true, Ey; done).
    destruct (IH (seen ++ [y])) as [Hn Hi]. split.
    + constructor; [|done]. rewrite list_elem_of_In, Hi, in_app_iff. simpl. tauto.
    + intros x. simpl. rewrite Hi, in_app_iff. simpl. destruct (decide (y = x)) as [->|]; tauto.
Qed.

Lemma dedupe_spec l : NoDup (dedupe l) /\ (forall x, In x (dedupe l) <-> In x l).
Proof.
  destruct (dedupe_from_spec [] l) as [Hn Hi]. split; [done|]. intros x. rewrite Hi. simpl. tauto.
Qed.

Lemma ohas_In {A} (m : ordmap A) k : ohas k m = true <-> In k (okeys m).
Proof.
  unfold ohas. destruct (oget k m) as [v|] eqn:E; simpl.
  - split; [|done]. intros _. apply oget_In in E. apply in_map_iff. by exists (k, v).
  - apply oget_None_keys in E. split; [done|tauto].
Qed.

Lemma oget_some_key {A} (m : ordmap A) k v : oget k m = Some v -> In k (okeys m).
Proof. intros E. apply ohas_In. unfold ohas. by rewrite E. Qed.

(** ** The walk to the root terminates *)

(** The loop of [rootFailureId] as the source writes it, one iteration a step. *)
Inductive root_step (failures : ordmap ToolRecoveryFailure)
  : ToolRecoveryFailure * list string -> ToolRecoveryFailure * list string -> Prop :=
| root_step_parent current visited parentId parent :
    recoveryParent current = Some parentId ->
    ~ In (rf_failureInstanceId current) visited ->
    oget parentId failures = Some parent ->
    root_step failures (current, visited) (parent, rf_failureInstanceId current :: visited).

(** The loop has ended. *)
Definition root_done (failures : ordmap ToolRecoveryFailure)
    (s : ToolRecoveryFailure * list string) : Prop := forall s', ~ root_step failures s s'.

Definition ids_in (failures : ordmap ToolRecoveryFailure) : list string :=
  List.map rf_failureInstanceId (ovalues failures).

Lemma rootWalk_runs fuel failures start current visited :
  let universe := rf_failureInstanceId start :: ids_in failures in
  NoDup visited -> (forall x, In x visited -> In x universe) ->
  In (rf_failureInstanceId current) universe ->
  (S (S (length failures)) <= fuel + length visited)%nat ->
  exists final seen, rtc (root_step failures) (current, visited) (final, seen)
    /\ root_done failures (final, seen)
    /\ rf_failureInstanceId final = rootWalk fuel failures current visited.
Proof.
  intros universe. revert current visited.
  assert (length universe = S (length failures)) as Hu.
  { unfold universe, ids_in, ovalues. simpl. by rewrite !length_map. }
  induction fuel as [|fuel IH]; intros current visited Hn Hi Hc Hf.
  { pose proof (NoDup_incl_len visited universe Hn Hi). lia. }
  assert (forall P : Prop, (recoveryParent current = None \/ In (rf_failureInstanceId current) visited
     \/ (forall p, recoveryParent current = Some p -> oget p failures = None)) ->
     exists final seen, rtc (root_step failures) (current, visited) (final, seen)
       /\ root_done failures (final, seen) /\ rf_failureInstanceId final = rf_failureInstanceId current)
    as Hstop.
  { intros _ Hstop. exists current, visited. split_and!; [apply rtc_refl| |done].
    intros s' Hs. inversion Hs; subst. destruct Hstop as [Hp|[Hv|Hp]];
      [congruence|done|specialize (Hp _ H1); congruence]. }
  simpl. destruct (recoveryParent current) as [p|] eqn:Ep; [|apply (Hstop True); by left].
  destruct (str_in _ visited) eqn:Ev; [apply (Hstop True); right; left; by apply str_in_true|].
  destruct (oget p failures) as [parent|] eqn:Eo;
    [|apply (Hstop True); right; right; intros q [= <-]; done].
  assert (~ In (rf_failureInstanceId current) visited) as Hv by (by rewrite <- str_in_true, Ev).
  destruct (IH parent (rf_failureInstanceId current :: visited)) as (final & seen & Hr & Hd & He).
  - constructor; [by rewrite list_elem_of_In|done].
  - intros x [<-|Hx]; auto.
  - right. apply in_map_iff. exists parent. split; [done|].
    apply In_ovalues. exists p. by apply oget_In.
  - simpl. lia.
  - exists final, seen. split_and!; [|done|done]. eapply rtc_l; [|exact Hr]. by econstructor.
Qed.

(** The search for the root of a recovery lineage terminates.  From every
    failure of every journal, one with a cyclic lineage included, the loop
    reaches its end, and it ends at the failure [rootFailureId] names. *)
Theorem root_search_terminates failures failure :
  exists final visited, rtc (root_step failures) (failure, []) (final, visited)
    /\ root_done failures (final, visited)
    /\ rf_failureInstanceId final = rootFailureId failures failure.
Proof.
  unfold rootFailureId. apply rootWalk_runs with (start := failure); [apply NoDup_nil_2|done|by left|simpl; lia].
Qed.

(** ** The closure of a lineage *)

(** A set of failures holds the recorded parent of each of its members. *)
Definition lineage_closed (failures : ordmap ToolRecoveryFailure) (l : list string) : Prop :=
  forall id f p, In id l -> oget id failures = Some f -> recoveryParent f = Some p ->
    ohas p failures = true -> In p l.

Lemma recoveryParent_nonempty f p : recoveryParent f = Some p -> opt_nonempty (Some p) = Some p.
Proof. intros Hp. apply opt_nonempty_some in Hp as [_ Hp]. by destruct p. Qed.

Lemma closureWalk_spec fuel failures current closure :
  NoDup closure -> (forall x, In x closure -> In x (okeys failures)) ->
  (forall id f p, In id closure -> oget id failures = Some f -> recoveryParent f = Some p ->
     ohas p failures = true -> In p closure \/ current = Some p) ->
  (S (length failures) <= fuel + length closure)%nat ->
  let result := closureWalk fuel failures current closure in
  NoDup result /\ (forall x, In x result -> In x (okeys failures))
  /\ lineage_closed failures result
  /\ (forall x, In x closure -> In x result)
  /\ (forall c, current = Some c -> c <> ""%string -> ohas c failures = true -> In c result).
Proof.
  revert current closure. induction fuel as [|fuel IH]; intros current closure Hn Hk Hc Hf.
  { pose proof (NoDup_incl_len closure (okeys failures) Hn Hk). unfold okeys in *.
    rewrite length_map in *. lia. }
  simpl. destruct (opt_nonempty current) as [id|] eqn:Ec.
  2: { split_and!; try done.
       - intros x f p Hx Hf' Hp Ho. destruct (Hc x f p Hx Hf' Hp Ho) as [?| ->]; [done|].
         by rewrite (recoveryParent_nonempty f p Hp) in Ec.
       - intros c -> Hne _. by destruct c. }
  apply opt_nonempty_some in Ec as [-> Hne].
  destruct (str_in id closure) eqn:Ei.
  { apply str_in_true in Ei. split_and!; try done.
    - intros x f p Hx Hf' Hp Ho. by destruct (Hc x f p Hx Hf' Hp Ho) as [?|[= ->]].
    - by intros c [= <-]. }
  destruct (oget id failures) as [f|] eqn:Eo.
  2: { split_and!; try done.
       - intros x f p Hx Hf' Hp Ho. destruct (Hc x f p Hx Hf' Hp Ho) as [?|[= ->]]; [done|].
         unfold ohas in Ho. by rewrite Eo in Ho.
       - intros c [= <-] _ Ho. unfold ohas in Ho. by rewrite Eo in Ho. }
  assert (~ In id closure) as Hni by (by rewrite <- str_in_true, Ei).
  destruct (IH (recoveryParent f) (closure ++ [id])) as (R1 & R2 & R3 & R4 & _).
  - apply NoDup_app. split_and!; [done| |apply NoDup_singleton].
    intros x Hx Hx'. apply list_elem_of_singleton in Hx' as ->. by rewrite list_elem_of_In in Hx.
  - intros x [Hx|[<-|[]]]%in_app_iff; [by apply Hk|by eapply oget_some_key].
  - intros x g p [Hx|[<-|[]]]%in_app_iff Hg Hp Ho.
    + left. apply in_app_iff. destruct (Hc x g p Hx Hg Hp Ho) as [?|[= ->]]; [by left|right; by left].
    + right. congruence.
  - rewrite length_app. simpl. lia.
  - split_and!; try done.
    + intros x Hx. apply R4, in_app_iff. by left.
    + intros c [= <-] _ _. apply R4, in_app_iff. right. by left.
Qed.

Lemma lineageClosure_spec failures c :
  let result := lineageClosure failures c in
  NoDup result /\ (forall x, In x result -> In x (okeys failures))
  /\ lineage_closed failures result
  /\ (c <> ""%string -> ohas c failures = true -> In c result).
Proof.
  destruct (closureWalk_spec (S (length failures)) failures (Some c) [])
    as (R1 & R2 & R3 & _ & R5); [apply NoDup_nil_2|done|done|simpl; lia|]. split_and!; auto.
Qed.

(** ** Compaction *)

(** What the selection of a compaction is at every point. *)
Record selection (failures : ordmap ToolRecoveryFailure) (l : list string) : Prop := {
  sel_NoDup : NoDup l;
  sel_known : forall x, In x l -> In x (okeys failures);
  sel_closed : lineage_closed failures l;
  sel_bound : (length l <= 128)%nat }.

Lemma retain_selection failures prioritized retained :
  selection failures retained -> selection failures (retain failures prioritized retained).
Proof.
  revert retained. induction prioritized as [|c rest IH]; intros retained Hs; simpl; [done|].
  destruct (str_in c retained); [by apply IH|].
  set (fresh := List.filter _ _). destruct (Nat.ltb_spec 128 (length retained + length fresh));
    [by apply IH|].
  assert (selection failures (retained ++ fresh)) as Hs'.
  { destruct Hs as [Hn Hk Hc Hb].
    destruct (lineageClosure_spec failures c) as (Cn & Ck & Cc & _).
    assert (forall x, In x fresh <-> In x (lineageClosure failures c) /\ ~ In x retained) as Hfresh.
    { intros x. unfold fresh. rewrite filter_In, negb_true_iff, <- (str_in_true x retained).
      destruct (str_in x retained); intuition congruence. }
    split.
    - apply NoDup_app. split_and!; [done| |by apply filter_NoDup].
      intros x Hx. rewrite list_elem_of_In, Hfresh. rewrite list_elem_of_In in Hx. tauto.
    - intros x [Hx|Hx]%in_app_iff; [by apply Hk|]. apply Hfresh in Hx as [Hx _]. by apply Ck.
    - intros x f p Hx Hf Hp Ho. apply in_app_iff.
      destruct (in_dec String.string_dec p retained) as [|Hni]; [by left|].
      apply in_app_iff in Hx as [Hx|[Hx _]%Hfresh].
      + left. by eapply Hc.
      + right. apply Hfresh. split; [by eapply Cc|done].
    - rewrite length_app. lia. }
  destruct (Nat.eqb _ 128); [done|by apply IH].
Qed.

Lemma pick_cons failures x ids :
  pickFailures failures (x :: ids)
  = match oget x failures with
    | Some f => (x, f) :: pickFailures failures ids | None => pickFailures failures ids end.
Proof. unfold pickFailures. simpl. by destruct (oget x failures). Qed.

Lemma oget_pick failures ids id :
  oget id (pickFailures failures ids) = if str_in id ids then oget id failures else None.
Proof.
  induction ids as [|x ids IH]; [done|]. rewrite pick_cons. simpl.
  destruct (oget x failures) as [f|] eqn:Ex; simpl.
  - destruct (String.eqb_spec id x) as [->|Hne]; [by rewrite Ex|exact IH].
  - rewrite IH. destruct (String.eqb_spec id x) as [->|Hne]; simpl; [|done].
    rewrite Ex. by destruct (str_in x ids).
Qed.

Lemma okeys_pick failures ids :
  okeys (pickFailures failures ids) = List.filter (fun id => ohas id failures) ids.
Proof.
  induction ids as [|x ids IH]; [done|]. rewrite pick_cons. unfold ohas in *. simpl.
  destruct (oget x failures); simpl; [by f_equal|done].
Qed.

(** A journal's failures and their order name the same identities. *)
Definition aligned (failures : ordmap ToolRecoveryFailure) (order : list string) : Prop :=
  NoDup (okeys failures) /\ NoDup order /\ (forall id, In id order <-> In id (okeys failures)).

Lemma compactFailures_spec failures inputOrder :
  NoDup (okeys failures) -> (forall id, In id (okeys failures) -> In id inputOrder) ->
  let '(kept, order) := compactFailures failures inputOrder in
  aligned kept order /\ (length order <= 128)%nat
  /\ (forall id f, oget id kept = Some f -> oget id failures = Some f)
  /\ (forall id f p, oget id kept = Some f -> recoveryParent f = Some p ->
        ohas p failures = true -> ohas p kept = true)
  /\ ((length failures <= 128)%nat -> kept = failures).
Proof.
  intros Hn Hk. unfold compactFailures. set (order := List.filter _ (dedupe inputOrder)).
  destruct (dedupe_spec inputOrder) as [Hd Hi].
  assert (NoDup order) as Ho by (by apply filter_NoDup).
  assert (forall id, In id order <-> In id (okeys failures)) as Hoi.
  { intros id. unfold order. rewrite filter_In, Hi, ohas_In. split; [tauto|auto]. }
  destruct (Nat.leb_spec (length order) 128) as [Hl|Hl].
  { split_and!; try done; auto. }
  set (retained := retain _ _ _).
  assert (selection failures retained) as [Sn Sk Sc Sb].
  { apply retain_selection. split; simpl; [apply NoDup_nil_2|done|by intros ? ? ? []|lia]. }
  set (kept := List.filter (fun id => str_in id retained) order).
  assert (forall id, In id kept <-> In id retained) as Hkept.
  { intros id. unfold kept. rewrite filter_In, str_in_true, Hoi. split; [tauto|auto]. }
  assert (NoDup kept) as Hkn by (by apply filter_NoDup).
  assert (forall id, In id (okeys (pickFailures failures kept)) <-> In id kept) as Hpk.
  { intros id. rewrite okeys_pick, filter_In, ohas_In. split; [tauto|]. intros Hin. split; [done|].
    apply Sk. by apply Hkept. }
  split_and!.
  - split_and!; [|done|by symmetry]. rewrite okeys_pick. by apply filter_NoDup.
  - etransitivity; [apply (NoDup_incl_len _ retained); [done|apply Hkept]|done].
  - intros id f. rewrite oget_pick. by destruct (str_in id kept).
  - intros id f p. rewrite oget_pick. destruct (str_in id kept) eqn:Ek; [|done]. intros Hf Hp Hop.
    apply ohas_In, Hpk, Hkept. apply str_in_true, Hkept in Ek. by eapply Sc.
  - intros Hlen. exfalso. pose proof (NoDup_incl_len order (okeys failures) Ho
      (fun id => proj1 (Hoi id))) as Hle. unfold okeys in Hle. rewrite length_map in Hle. lia.
Qed.
