(* ===== verification/RecoveryInvariant.v ===== *)
(** * The invariant of the recovery journal

    Identities, bounds and the agreement of status and resolution hold of every
    journal that validation accepts and are kept by every operation. *)

From S2P Require Import Prelude Js Hash State ApprovalQueue Normalization Recovery RecoveryProps.
From stdpp Require Import prelude strings list.
From Stdlib Require Import ZArith Lia Ascii.
Open Scope Z_scope.

(** ** The invariant *)

(** The resolutions each status may carry. *)
Definition resolution_ok (status : RecoveryFailureStatus) (resolution : option RecoveryResolution)
  : bool :=
  match status, resolution with
  | rf_unresolved, None => true
  | rf_recovered, Some (rs_recovered | rs_skipped | rs_replanned | rs_user_action
                        | rs_provider_revision) => true
  | rf_exhausted, Some (rs_terminal | rs_next_response_elapsed | rs_task_closed
                        | rs_turn_closed) => true
  | _, _ => false
  end.

Record failure_ok (revision : Z) (id : string) (f : ToolRecoveryFailure) : Prop := {
  fo_id : rf_failureInstanceId f = id;
  fo_resolution : resolution_ok (rf_status f) (rf_resolution f) = true;
  fo_model : 0 <= rf_modelCorrectionAttempts f;
  fo_automatic : 0 <= rf_automaticRetryAttempts f;
  fo_revision : 0 <= rf_progressRevision f <= revision;
  fo_bound : is_some (rf_eligibleToolCallId f) = true -> is_some (rf_eligibleModelMessageId f) = true }.

Record quality_ok (g : ToolRecoveryQualityGuard) : Prop := {
  go_reason : qg_blocked g = is_some (qg_reasonCode g);
  go_scope : qg_blocked g = false -> qg_taskId g = None /\ qg_turnId g = None;
  go_observed : 0 <= qg_observedFailures g <= TOOL_RECOVERY_OBSERVATION_CAP }.

Record journal_ok (j : ToolRecoveryJournal) : Prop := {
  jo_aligned : aligned (j_failures j) (j_order j);
  jo_bound : (length (j_order j) <= 128)%nat;
  jo_failures : oall (failure_ok (j_progressRevision j)) (j_failures j);
  jo_guard : quality_ok (j_qualityGuard j);
  jo_revision : 0 <= j_progressRevision j <= two53 }.

Lemma failure_ok_mono r r' id f : r <= r' -> failure_ok r id f -> failure_ok r' id f.
Proof. intros Hr [? ? ? ? ? ?]. split; try done. lia. Qed.

Lemma unblocked_ok : quality_ok unblocked.
Proof. by split. Qed.

Lemma qualityAfterMutation_ok j g :
  quality_ok (j_qualityGuard j) -> quality_ok g -> quality_ok (qualityAfterMutation j g).
Proof. intros ? ?. unfold qualityAfterMutation. by destruct (journalInvalid j). Qed.
#[export] Hint Resolve unblocked_ok qualityAfterMutation_ok : kite.

(** ** Maps *)

Lemma In_okeys_oset {A} (m : ordmap A) k v x :
  In x (okeys (oset k v m)) <-> x = k \/ In x (okeys m).
Proof.
  rewrite <- !ohas_In. unfold ohas. rewrite oget_oset.
  destruct (String.eqb_spec x k) as [->|Hne]; simpl; [tauto|]. intuition congruence.
Qed.

Lemma oall_restrict {A} (P : string -> A -> Prop) (m m' : ordmap A) :
  NoDup (okeys m') -> (forall k v, oget k m' = Some v -> oget k m = Some v) ->
  oall P m -> oall P m'.
Proof. intros Hn Hs Hm k v Hin. apply (oall_oget P m); [done|]. by apply Hs, In_oget. Qed.

Lemma okeys_map g failures : okeys (mapFailures g failures) = okeys failures.
Proof.
  unfold mapFailures, okeys. rewrite map_map. apply map_ext. by intros [id f].
Qed.

Lemma oall_map (P : string -> ToolRecoveryFailure -> Prop) g failures :
  oall P failures -> (forall id f, In (id, f) failures -> P id f -> P id (g id f)) ->
  oall P (mapFailures g failures).
Proof.
  intros Hp Hg id f Hin. unfold mapFailures in Hin. apply in_map_iff in Hin as ([i x] & [= <- <-] & Hin).
  auto.
Qed.

(** ** Recording *)

Lemma aligned_compact failures order kept order' (P : string -> ToolRecoveryFailure -> Prop) :
  NoDup (okeys failures) -> (forall id, In id (okeys failures) -> In id order) ->
  compactFailures failures order = (kept, order') -> oall P failures ->
  aligned kept order' /\ (length order' <= 128)%nat /\ oall P kept.
Proof.
  intros Hn Hk Hc Hp. pose proof (compactFailures_spec failures order Hn Hk) as Hs.
  rewrite Hc in Hs. destruct Hs as (Ha & Hl & Hsub & _). split_and!; try done.
  eapply oall_restrict; [apply Ha|exact Hsub|done].
Qed.

Lemma newFailure_ok j input id parent :
  journal_ok j -> (forall p, parent = Some p -> 0 <= rf_modelCorrectionAttempts p
                                                /\ 0 <= rf_automaticRetryAttempts p) ->
  failure_ok (j_progressRevision j) id (newFailure j input id parent).
Proof.
  intros Hj Hp. split; simpl; try done.
  - by destruct (dispositionIs _ _).
  - destruct parent as [p|]; simpl; [by apply Hp|lia].
  - destruct parent as [p|]; simpl; [by apply Hp|lia].
  - pose proof (jo_revision j Hj). lia.
Qed.

(** The guard a recorded failure proposes. *)
Lemma proposed_guard_ok (blocked applies : bool) g task turn :
  quality_ok g ->
  quality_ok {| qg_blocked := blocked; qg_reasonCode := if blocked then Some no_progress else None;
              qg_observedFailures := Z.min TOOL_RECOVERY_OBSERVATION_CAP
                (fadd (if applies then qg_observedFailures g else 0) 1);
              qg_taskId := if blocked then opt_nonempty task else None;
              qg_turnId := if blocked then opt_nonempty turn else None |}.
Proof.
  intros [_ _ Ho]. split; simpl; [by destruct blocked|by intros ->|].
  unfold TOOL_RECOVERY_OBSERVATION_CAP in *.
  rewrite fadd_succ by (unfold two53; destruct applies; lia). destruct applies; lia.
Qed.

Section Ops.
Context `{JsHost}.

Lemma recordRecoveryFailure_ok j input j' :
  journal_ok j -> recordRecoveryFailure j input = Ok j' -> journal_ok j'.
Proof.
  intros Hj. unfold recordRecoveryFailure. destruct (is_str _ _); [by intros [= <-]|].
  intros (id & _ & Hr)%bind_ok. destruct (ohas id _) eqn:Ei; [by injection Hr as <-|].
  set (parent := match opt_nonempty _ with Some p => _ | None => None end) in Hr.
  assert (forall p, parent = Some p -> failure_ok (j_progressRevision j) (rf_failureInstanceId p) p
      /\ In (rf_failureInstanceId p) (okeys (j_failures j))) as Hp.
  { intros p. unfold parent. destruct (opt_nonempty _) as [q|]; [|done]. intros Hq.
    pose proof (oall_oget _ _ _ _ (jo_failures j Hj) Hq) as Hok.
    rewrite (fo_id _ _ _ Hok). split; [done|by eapply oget_some_key]. }
  destruct (compactFailures _ _) as [kept order'] eqn:Ec. injection Hr as <-.
  destruct (jo_aligned j Hj) as (Hn & Hno & Hio).
  eapply (aligned_compact _ _ _ _ (failure_ok (j_progressRevision j))) in Ec as (Ha & Hl & Hall).
  - split; simpl; try done; [|apply Hj].
    apply qualityAfterMutation_ok; [apply Hj|]. apply proposed_guard_ok, Hj.
  - apply oset_NoDup. destruct parent; [by apply oset_NoDup|done].
  - intros x [->|Hx]%In_okeys_oset; apply in_app_iff; [right; by left|left].
    apply Hio. destruct parent as [p|] eqn:Epar; [|done].
    apply In_okeys_oset in Hx as [->|Hx]; [by apply (Hp p)|done].
  - apply oall_oset.
    + destruct parent as [p|] eqn:Epar; [|apply Hj]. apply oall_oset; [apply Hj|].
      destruct (Hp p eq_refl) as [[? ? ? ? ? ?] _]. by split.
    + apply newFailure_ok; [done|]. intros p Hpp. by destruct (Hp p Hpp) as [[? ? ? ? ? ?] _].
Qed.

Lemma recordRecoveryExhaustion_ok j input j' :
  journal_ok j -> recordRecoveryExhaustion j input = Ok j' -> journal_ok j'.
Proof.
  intros Hj (n & Hn & Hr)%bind_ok. apply recordRecoveryFailure_ok in Hn; [|done].
  destruct (journalInvalid n); injection Hr as <-; [done|].
  destruct Hn as [? ? ? [_ _ Ho] ?]. split; simpl; try done. split; simpl; try done.
  unfold TOOL_RECOVERY_OBSERVATION_CAP, TOOL_RECOVERY_QUALITY_FAILURE_LIMIT in *. lia.
Qed.
End Ops.

(** A journal whose failures are updated in place. *)
Lemma journal_ok_failures j fs r g :
  journal_ok j -> okeys fs = okeys (j_failures j) -> j_progressRevision j <= r <= two53 ->
  oall (failure_ok r) fs -> quality_ok g ->
  journal_ok (j <| j_failures := fs |> <| j_progressRevision := r |> <| j_qualityGuard := g |>).
Proof.
  intros [(Hn & Ho & Hi) Hb Hf Hg Hr] Hk Hr' Hfs Hg'. split; simpl; try done; [by unfold aligned; rewrite Hk|lia].
Qed.

Lemma recordRecoveryInvocation_ok j id mode :
  journal_ok j -> journal_ok (recordRecoveryInvocation j id mode).
Proof.
  intros Hj. unfold recordRecoveryInvocation. destruct (oget id _) as [f|] eqn:Ef; [|done].
  destruct (bool_decide _); [|done].
  apply (journal_ok_failures j _ (j_progressRevision j) (j_qualityGuard j)); try apply Hj; try done.
  - apply okeys_oset_present. unfold ohas. by rewrite Ef.
  - pose proof (jo_revision j Hj). lia.
  - apply oall_oset; [apply Hj|]. destruct (oall_oget _ _ _ _ (jo_failures j Hj) Ef).
    destruct mode; split; simpl; try done; by apply fl_nonneg; lia.
Qed.

Lemma fadd_rev r : 0 <= r <= two53 -> r <= fadd r 1 <= two53.
Proof. apply fadd_succ_range. Qed.

Lemma recordToolOwnedProgress_ok j p :
  journal_ok j -> journal_ok (recordToolOwnedProgress j p).
Proof.
  intros Hj. unfold recordToolOwnedProgress. destruct (negb _); [done|].
  destruct (List.filter _ _) as [|x resolved] eqn:Er; [done|].
  pose proof (fadd_rev _ (jo_revision j Hj)) as Hrev.
  apply (journal_ok_failures j _ (fadd (j_progressRevision j) 1)); try done.
  - apply okeys_map.
  - apply oall_map.
    + eapply oall_impl; [|apply Hj]. intros k v. apply failure_ok_mono. lia.
    + intros id f _ [? ? ? ? ? ?]. destruct (_ && _); split; simpl; try done. by destruct (pr_kind p).
  - apply qualityAfterMutation_ok; [apply Hj|apply unblocked_ok].
Qed.

Lemma closeFailures_ok j predicate resolution :
  resolution <> rs_recovered -> journal_ok j -> journal_ok (closeFailures j predicate resolution).
Proof.
  intros Hr Hj. unfold closeFailures. destruct (existsb _ _); [|done].
  pose proof (jo_revision j Hj).
  apply (journal_ok_failures j _ (j_progressRevision j)); try done; try lia.
  - apply okeys_map.
  - apply oall_map; [apply Hj|]. intros id f _ [? ? ? ? ? ?].
    destruct (_ && _); split; simpl; try done. by destruct resolution.
  - apply qualityAfterMutation_ok; [apply Hj|apply unblocked_ok].
Qed.

(** ** The next response *)

Lemma advanceStep_ok input r keys s id :
  oall (failure_ok r) (fst (fst s)) -> okeys (fst (fst s)) = keys ->
  oall (failure_ok r) (fst (fst (advanceStep input s id)))
  /\ okeys (fst (fst (advanceStep input s id))) = keys.
Proof.
  destruct s as [[failures claimed] changed]. simpl. intros Hf Hk. unfold advanceStep.
  destruct (oget id failures) as [f|] eqn:Ef; [|done].
  assert (ohas id failures = true) as Hh by (unfold ohas; by rewrite Ef).
  destruct (oall_oget _ _ _ _ Hf Ef) as [? ? ? ? ? ?].
  destruct (outOfResponse input f); [done|].
  destruct (_ || _).
  - destruct (List.find _ _) as [[callId name]|]; simpl; rewrite okeys_oset_present by done;
      (split; [|done]); (apply oall_oset; [done|split; simpl; done]).
  - destruct (negb _); simpl; [|done]. rewrite okeys_oset_present by done.
    split; [|done]. apply oall_oset; [done|by split].
Qed.

Lemma advance_ok j input : journal_ok j -> journal_ok (advanceToolRecoveryResponse j input).
Proof.
  intros Hj. unfold advanceToolRecoveryResponse.
  set (start := (_, _, false)).
  pose proof (fold_left_inv (advanceStep input)
    (fun s => oall (failure_ok (j_progressRevision j)) (fst (fst s))
              /\ okeys (fst (fst s)) = okeys (j_failures j)) (j_order j) start) as Hinv.
  destruct (fold_left _ _ _) as [[failures claimed] changed]. simpl in Hinv.
  destruct Hinv as [Hf Hk].
  { split; [apply Hj|done]. }
  { intros s id _ [? ?]. by apply advanceStep_ok. }
  destruct changed; [|done]. pose proof (jo_revision j Hj).
  apply (journal_ok_failures j _ (j_progressRevision j) (j_qualityGuard j)); try done; [lia|apply Hj].
Qed.

(** ** Validation *)

Lemma validAttempts_some o : validAttempts o = true -> exists z, o = Some z /\ 0 <= z <= 1.
Proof. unfold validAttempts. destruct o as [z|]; [|done]. simpl. intros. bool_hyps. by exists z. Qed.

Lemma resolutions_decode status resolution outcome s r :
  oget status FAILURE_STATUSES = Some s ->
  (resolution ≫= fun r => oget r TOOL_RECOVERY_RESOLUTIONS_) = r ->
  resolutionMatches status resolution outcome = true ->
  resolution_ok s r = true.
Proof.
  intros Hs <-. unfold resolutionMatches. simpl in Hs.
  destruct (String.eqb_spec status "unresolved") as [->|].
  { simpl. injection Hs as <-. by destruct resolution. }
  destruct (String.eqb_spec status "recovered") as [->|].
  { simpl. injection Hs as <-. destruct resolution as [q|]; [|done]. intros Hq.
    repeat (apply orb_true_iff in Hq as [->%eqb_true|Hq]; [reflexivity|]). done. }
  destruct (String.eqb_spec status "exhausted") as [->|]; [|done].
  injection Hs as <-. destruct resolution as [q|]; [|done]. simpl. intros Hq.
  repeat (apply orb_true_iff in Hq as [->%eqb_true|Hq]; [reflexivity|]). done.
Qed.

(** The fields validation leaves as they are. *)
Lemma normalized_get failure k :
  k <> "status"%string -> k <> "resolution"%string ->
  get (normalizedFailureValue failure) k = get failure k.
Proof.
  intros H1 H2. unfold normalizedFailureValue.
  repeat (case_match; try done); by rewrite !get_oset_ne by done.
Qed.

Lemma settled_resolution failure r :
  In r ["next_response_elapsed"; "terminal"]%string ->
  let d := decodeFailure (oset "resolution" (VStr r) (oset "status" (VStr "exhausted") failure)) in
  resolution_ok (rf_status d) (rf_resolution d) = true.
Proof.
  intros Hr. unfold decodeFailure, stringField. cbn [rf_status rf_resolution].
  rewrite get_oset_eq, get_oset_ne, get_oset_eq by done. by destruct Hr as [<-|[<-|[]]].
Qed.

Section Validation.
Context `{JsHost}.

Lemma failureConsistent_true failure id r :
  failureConsistent failure id r = Ok true ->
  let str := stringField failure in
  let outcome := jsonRecord (get failure "outcome") in
  str "failureInstanceId"%string = Some id
  /\ (exists s, str "status"%string = Some s /\ ohas s FAILURE_STATUSES = true
        /\ resolutionMatches s (str "resolution"%string) outcome = true)
  /\ (exists z, numberField failure "progressRevision" = Some z /\ 0 <= z <= r)
  /\ isToolOutcome (get failure "outcome") = true
  /\ toolFailureInstanceId (default ""%string (str "toolCallId"%string))
       (default ""%string (str "invocationFingerprint"%string)) outcome = Ok id
  /\ lineageField outcome "failureInstanceId" = Some id.
Proof.
  unfold failureConsistent. match goal with |- context [if ?b then _ else _] => destruct b eqn:Eb end;
    [|done]. rewrite !andb_true_iff in Eb. destruct_and! Eb.
  intros (instance & Hi & Hr)%bind_ok. injection Hr as Hr. rewrite !andb_true_iff in Hr.
  destruct Hr as [[Hid Hres] Hlin]. apply eqb_true in Hid as ->. bool_hyps. split_and!; try done.
  - unfold isToolRecoveryFailureStatus in *. destruct (stringField failure "status") as [s|] eqn:Es; [|done].
    by exists s.
  - unfold isNonNegativeInteger in *. destruct (numberField failure "progressRevision") as [z|] eqn:Ez; [|done].
    exists z. simpl in *. bool_hyps. split; [done|lia].
Qed.

Lemma decodeFailure_ok failure id r :
  failureConsistent failure id r = Ok true ->
  isToolRecoveryFailure (normalizedFailureValue failure) = true ->
  failure_ok r id (decodeFailure (normalizedFailureValue failure)).
Proof.
  intros Hc Hi. apply failureConsistent_true in Hc as (Hid & (s & Hs & Hsk & Hres) & (z & Hz & Hzr) & _).
  unfold isToolRecoveryFailure in Hi. rewrite !andb_true_iff in Hi. destruct_and! Hi.
  assert (resolution_ok (rf_status (decodeFailure (normalizedFailureValue failure)))
            (rf_resolution (decodeFailure (normalizedFailureValue failure))) = true) as Hro.
  { unfold normalizedFailureValue. destruct (opt_str_eqb _ _ && _ && _); [apply settled_resolution; by left|].
    destruct (negb (is_some (stringField failure "turnId")));
      [apply settled_resolution; right; by left|]. unfold ohas in Hsk.
    destruct (oget s FAILURE_STATUSES) as [st|] eqn:Est; [|done].
    eapply (resolutions_decode s (stringField failure "resolution")); [|reflexivity|exact Hres].
    unfold decodeFailure. cbn [rf_status]. rewrite Hs. cbn [mbind option_bind]. by rewrite Est. }
  split; simpl; [|exact Hro|..].
  - unfold stringField in *. by rewrite normalized_get, Hid by done.
  - edestruct validAttempts_some as (a & -> & ?); [|simpl; lia]. done.
  - edestruct validAttempts_some as (a & -> & ?); [|simpl; lia]. done.
  - unfold numberField in *. rewrite normalized_get by done. by rewrite Hz.
  - intros Hb. match goal with H : is_undef (get _ "eligibleToolCallId") || _ = true |- _ => rename H into Hel end.
    apply orb_true_iff in Hel as [Hel|Hel]; [|by apply andb_true_iff in Hel as [_ Hel]].
    unfold stringField in Hb. by destruct (get _ "eligibleToolCallId").
Qed.

Lemma restoreFailures_ok record r order failures claims result :
  NoDup order -> (forall id, In id order -> ~ In id (okeys failures)) ->
  NoDup (okeys failures) -> oall (failure_ok r) failures ->
  restoreFailures record r order (failures, claims) = Ok (inr result) ->
  NoDup (okeys result) /\ oall (failure_ok r) result
  /\ (forall id, In id (okeys result) <-> In id (okeys failures) \/ In id order).
Proof.
  revert failures claims. induction order as [|id order IH]; intros failures claims Ho Hd Hn Hf;
    cbn [restoreFailures fst].
  { intros [= <-]. split_and!; try done. simpl. tauto. }
  intros (step & Hs & Hr)%bind_ok. destruct step as [scope|[fs cs]]; [done|].
  apply NoDup_cons in Ho as [Hid Ho]. rewrite list_elem_of_In in Hid.
  unfold restoreFailure in Hs. destruct (recordField record id) as [failure|]; [|done].
  destruct (negb (exactFailureKeys failure)); [done|].
  apply bind_ok in Hs as (consistent & Hc & Hs). destruct consistent; [|done]. cbn [negb] in Hs.
  destruct (match claimOf failure with Some _ => _ | None => _ end); [done|].
  destruct (isToolRecoveryFailure _) eqn:Et; [|done]. cbn [negb] in Hs. injection Hs as <- _.
  apply IH in Hr as (R1 & R2 & R3); try done.
  - split_and!; try done. intros x. rewrite R3, In_okeys_oset. simpl. intuition.
  - intros x Hx [->|Hin]%In_okeys_oset; [done|]. by apply (Hd x); [right|].
  - by apply oset_NoDup.
  - apply oall_oset; [done|]. by apply decodeFailure_ok.
Qed.

(** The recorded parents come first. *)
Definition parents_first (j : ToolRecoveryJournal) : Prop :=
  forall i id f p, j_order j !! i = Some id -> oget id (j_failures j) = Some f ->
    recoveryParent f = Some p ->
    exists k, (k < i)%nat /\ j_order j !! k = Some p /\ ohas p (j_failures j) = true.

Lemma indexOf_lookup id l k : indexOf id l = Some k -> l !! k = Some id.
Proof.
  revert k. induction l as [|x l IH]; intros k; simpl; [done|].
  destruct (String.eqb_spec id x) as [->|Hne]; [by intros [= <-]|].
  destruct (indexOf id l) as [n|]; [|done]. intros [= <-]. simpl. by apply IH.
Qed.

Lemma lineagesConsistent_parents failures order base ids i id f p :
  lineagesConsistent failures order base ids = true -> ids !! i = Some id ->
  oget id failures = Some f -> recoveryParent f = Some p ->
  exists k, (k < base + i)%nat /\ order !! k = Some p /\ ohas p failures = true.
Proof.
  revert base i. induction ids as [|x ids IH]; intros base i; [done|].
  simpl. intros [Hx Hr]%andb_true_iff Hi Hf Hp. destruct i as [|i]; simpl in Hi.
  - injection Hi as ->. unfold lineageConsistent in Hx. rewrite Hf, Hp in Hx.
    destruct (oget p failures) as [q|] eqn:Eq; [|done].
    destruct (indexOf p order) as [k|] eqn:Ek; [|done]. rewrite !andb_true_iff in Hx.
    exists k. split_and!; [|by apply indexOf_lookup|unfold ohas; by rewrite Eq].
    destruct_and! Hx. match goal with H : Nat.ltb _ _ = true |- _ => apply Nat.ltb_lt in H; lia end.
  - destruct (IH (S base) i Hr Hi Hf Hp) as (k & ? & ?). exists k. split; [lia|done].
Qed.

Lemma refusedJournal_ok key observed scope : journal_ok (refusedJournal key observed scope).
Proof.
  split; simpl; [|lia|apply oall_nil| |].
  - split_and!; try apply NoDup_nil_2. done.
  - split; simpl; try done. unfold TOOL_RECOVERY_OBSERVATION_CAP. lia.
  - unfold two53. lia.
Qed.

Lemma stringItems_length l :
  forallb (fun v => match v with VStr s => isHex64 s | _ => false end) l = true ->
  length (stringItems l) = length l.
Proof.
  induction l as [|v l IH]; [done|]. simpl. intros [Hv Hl]%andb_true_iff. destruct v; try done.
  unfold stringItems in *. simpl. by rewrite IH.
Qed.

Lemma dedupe_NoDup l : length (dedupe l) = length l -> NoDup l.
Proof.
  intros Hl. destruct (dedupe_spec l) as [Hn Hi].
  apply NoDup_ListNoDup. apply NoDup_incl_NoDup with (l := dedupe l); [by apply NoDup_ListNoDup|lia|].
  intros x Hx. by apply Hi.
Qed.

Lemma restoredGuard_ok quality groups :
  validQuality quality = true -> quality_ok (restoredGuard quality groups).
Proof.
  unfold validQuality. destruct (get quality "blocked") as [| |b| | | |] eqn:Eb; try done.
  rewrite !andb_true_iff. intros Hq. destruct_and! Hq. unfold restoredGuard. cbv zeta.
  generalize (is_true (get quality "blocked") || is_some (head groups)). intros blocked.
  split; cbn [qg_blocked qg_reasonCode qg_taskId qg_turnId qg_observedFailures].
  - by destruct blocked.
  - by intros ->.
  - destruct (numberField quality "observedFailures") as [z|] eqn:Ez; [|done].
    apply numberField_some in Ez. unfold safeNaturalValue in *. rewrite Ez in *. simpl. bool_hyps.
    unfold TOOL_RECOVERY_OBSERVATION_CAP. lia.
Qed.

Lemma normalize_inv value key j :
  normalizeToolRecoveryJournal value key = Ok j ->
  isHex64 key = true /\ j_identityKey j = key
  /\ ((exists observed scope, j = refusedJournal key observed scope)
      \/ journal_ok j /\ parents_first j).
Proof.
  unfold normalizeToolRecoveryJournal, assertCanonicalRecoveryIdentityKey.
  intros [Hkey Hn]%guard_ok. apply negb_false_iff in Hkey. split; [done|].
  match type of Hn with context [refusedJournal _ ?o _] => set (observed := o) in Hn end.
  assert (forall scope, Ok (refusedJournal key observed scope) = Ok j ->
    j_identityKey j = key /\ ((exists observed scope, j = refusedJournal key observed scope)
      \/ journal_ok j /\ parents_first j)) as Hrefuse.
  { intros scope [= <-]. split; [done|]. left. by eexists _, _. }
  destruct (validJournalShape _ _) eqn:Esh; [|by apply Hrefuse in Hn].
  destruct (validQuality _) eqn:Eq; [|by apply Hrefuse in Hn].
  destruct (validOrder _ _) eqn:Eo; [|by apply Hrefuse in Hn]. simpl in Hn.
  apply bind_ok in Hn as ([scope|failures] & Hf & Hn); [by apply Hrefuse in Hn|].
  destruct (lineagesConsistent _ _ _ _) eqn:El; [|by apply Hrefuse in Hn]. simpl in Hn.
  destruct (_ && _); [by apply Hrefuse in Hn|]. injection Hn as <-. split; [done|]. right.
  unfold validOrder in Eo. rewrite !andb_true_iff in Eo. destruct Eo as [[[Elen Ehex] Edup] _].
  apply Nat.leb_le in Elen. apply Nat.eqb_eq in Edup. apply dedupe_NoDup in Edup as Hnd.
  destruct (restoreFailures_ok _ _ _ [] [] _ Hnd (fun _ _ x => x) (NoDup_nil_2) (oall_nil _) Hf)
    as (R1 & R2 & R3).
  unfold validJournalShape in Esh. rewrite !andb_true_iff in Esh. destruct Esh as [_ Erev].
  split.
  - split; simpl; [|by rewrite stringItems_length|done|by apply restoredGuard_ok|].
    + split_and!; try done. intros id. rewrite R3. simpl. tauto.
    + unfold safeNaturalValue in Erev. unfold numberField.
      destruct (get _ "progressRevision") as [| | |[z|]| | |]; try done. simpl.
      apply andb_true_iff in Erev as [Hs Hz]. apply isSafeInteger_true in Hs. bool_hyps.
      unfold MAX_SAFE_INTEGER in Hs. lia.
  - intros i id f p Hi Hf' Hp. simpl in *.
    destruct (lineagesConsistent_parents _ _ 0 _ i id f p El Hi Hf' Hp) as (k & Hk & ?). by exists k.
Qed.
End Validation.
