(* ===== verification/HashCorrect.v ===== *)
(** * Correctness of the kernel's SHA-256 and UTF-8 encoder

    The module [Fips] is the FIPS 180-4 algorithm on unsigned words.  The
    translated routine computes the same digest; the encoder's output decodes
    back to the text when its surrogates are paired. *)

From S2P Require Import Prelude Js Hash.
From stdpp Require Import prelude strings list.
From Stdlib Require Import ZArith Lia Ascii.
Open Scope Z_scope.

(** ** FIPS 180-4 on unsigned words *)

Module Fips.
(** Addition of words is reduced modulo [2^32]. *)
Abbreviation w32 := toUint32.
Definition ROTR (n x : Z) : Z := Z.lor (Z.shiftr x n) (w32 (Z.shiftl x (32 - n))).
Definition SHR (n x : Z) : Z := Z.shiftr x n.
Definition NOT (x : Z) : Z := Z.lxor x (Z.ones 32).
Definition Ch (x y z : Z) : Z := Z.lxor (Z.land x y) (Z.land (NOT x) z).
Definition Maj (x y z : Z) : Z := Z.lxor (Z.lxor (Z.land x y) (Z.land x z)) (Z.land y z).
Definition Sigma0 (x : Z) : Z := Z.lxor (Z.lxor (ROTR 2 x) (ROTR 13 x)) (ROTR 22 x).
Definition Sigma1 (x : Z) : Z := Z.lxor (Z.lxor (ROTR 6 x) (ROTR 11 x)) (ROTR 25 x).
Definition sigma0 (x : Z) : Z := Z.lxor (Z.lxor (ROTR 7 x) (ROTR 18 x)) (SHR 3 x).
Definition sigma1 (x : Z) : Z := Z.lxor (Z.lxor (ROTR 17 x) (ROTR 19 x)) (SHR 10 x).

(** The constants: the first 32 fractional bits of the cube roots of the first 64
    primes, and of the square roots of the first 8. *)
Definition is_prime (n : nat) : bool :=
  (2 <=? n)%nat && forallb (fun d => negb (n mod d =? 0)%nat) (seq 2 (n - 2)).
Definition primes : list Z := List.map Z.of_nat (List.filter is_prime (seq 2 310)).
(** The integer cube root, bit by bit from [2^40]. *)
Fixpoint cbrt_go (bits : nat) (n acc : Z) : Z :=
  match bits with
  | O => acc
  | S b => let c := acc + 2 ^ Z.of_nat b in cbrt_go b n (if c * c * c <=? n then c else acc)
  end.
Definition cbrt (n : Z) : Z := cbrt_go 40 n 0.
Definition K : list Z := List.map (fun p => cbrt (p * 2 ^ 96) mod 2 ^ 32) primes.
Definition H0 : list Z := List.map (fun p => Z.sqrt (p * 2 ^ 64) mod 2 ^ 32) (take 8 primes).

(** Padding with the least number of zeros. *)
Definition be64 (n : Z) : list Z :=
  List.map (fun i => (n / 256 ^ i) mod 256) [7; 6; 5; 4; 3; 2; 1; 0].
Definition padded (m : list Z) : list Z :=
  let l := Z.of_nat (length m) in
  m ++ [0x80] ++ replicate (Z.to_nat ((55 - l) mod 64)) 0 ++ be64 (8 * l).

Definition word (block : list Z) (t : nat) : Z :=
  fold_left (fun acc i => acc * 256 + nth (t * 4 + i) block 0) (seq 0 4) 0.

(** The message schedule, newest word first. *)
Definition next_word (newest : list Z) : Z :=
  w32 (sigma1 (nth 1 newest 0) + nth 6 newest 0 + sigma0 (nth 14 newest 0) + nth 15 newest 0).
Definition schedule (block : list Z) : list Z :=
  rev (Nat.iter 48 (fun ws => next_word ws :: ws) (rev (List.map (word block) (seq 0 16)))).

Definition step (W : list Z) (r : Regs) (t : nat) : Regs :=
  let T1 := w32 (rh r + Sigma1 (re r) + Ch (re r) (rf r) (rg r) + nth t K 0 + nth t W 0) in
  let T2 := w32 (Sigma0 (ra r) + Maj (ra r) (rb r) (rc r)) in
  mkRegs (w32 (T1 + T2)) (ra r) (rb r) (rc r) (w32 (rd r + T1)) (re r) (rf r) (rg r).

Definition block_digest (H block : list Z) : list Z :=
  let r := fold_left (step (schedule block)) (seq 0 64) (regs_of H) in
  zip_with (fun h x => w32 (h + x)) H [ra r; rb r; rc r; rd r; re r; rf r; rg r; rh r].

Fixpoint chunks (n : nat) (bytes : list Z) : list (list Z) :=
  match n with O => [] | S n' => take 64 bytes :: chunks n' (drop 64 bytes) end.

Definition sha256 (m : list Z) : list Z :=
  let p := padded m in
  fold_left block_digest (chunks (length p / 64)%nat p) H0.
End Fips.

(** The tables of the source are the standard's. *)
Lemma constants_fips : K = Fips.K /\ INITIAL = Fips.H0.
Proof. split; vm_compute; reflexivity. Qed.
#[local] Opaque Fips.K Fips.H0.

(** ** Signed and unsigned words agree *)

Lemma toUint32_land z : toUint32 z = Z.land z (Z.ones 32).
Proof. unfold toUint32. by rewrite Z.land_ones. Qed.

Lemma toUint32_toInt32 z : toUint32 (toInt32 z) = toUint32 z.
Proof.
  unfold toUint32, toInt32. rewrite Zminus_mod_idemp_l. f_equal. lia.
Qed.

Lemma toUint32_range z : 0 <= toUint32 z < 2 ^ 32.
Proof. unfold toUint32. apply Z.mod_pos_bound. lia. Qed.

Lemma toUint32_id z : 0 <= z < 2 ^ 32 -> toUint32 z = z.
Proof. apply Z.mod_small. Qed.

Lemma toUint32_or a b : toUint32 (js_or a b) = Z.lor (toUint32 a) (toUint32 b).
Proof.
  unfold js_or. rewrite toUint32_land, Z.land_lor_distr_l, <- !toUint32_land.
  by rewrite !toUint32_toInt32.
Qed.

Lemma toUint32_and a b : toUint32 (js_and a b) = Z.land (toUint32 a) (toUint32 b).
Proof.
  unfold js_and. rewrite <- (toUint32_toInt32 a), <- (toUint32_toInt32 b).
  rewrite !toUint32_land. rewrite <- !Z.land_assoc. f_equal.
  rewrite (Z.land_comm (Z.ones 32)), <- Z.land_assoc, Z.land_diag. done.
Qed.

Lemma land_lxor_distr_l a b c : Z.land (Z.lxor a b) c = Z.lxor (Z.land a c) (Z.land b c).
Proof.
  apply Z.bits_inj'. intros n Hn. rewrite !Z.land_spec, !Z.lxor_spec, !Z.land_spec.
  by destruct (Z.testbit a n), (Z.testbit b n), (Z.testbit c n).
Qed.

Lemma toUint32_xor a b : toUint32 (js_xor a b) = Z.lxor (toUint32 a) (toUint32 b).
Proof.
  unfold js_xor. rewrite toUint32_land, land_lxor_distr_l, <- !toUint32_land.
  by rewrite !toUint32_toInt32.
Qed.

Lemma toUint32_not a : toUint32 (js_not a) = Fips.NOT (toUint32 a).
Proof.
  unfold js_not, Fips.NOT. rewrite <- (toUint32_toInt32 a). rewrite !toUint32_land.
  apply Z.bits_inj'. intros n Hn.
  rewrite Z.land_spec, Z.lnot_spec, Z.lxor_spec, Z.land_spec by done.
  by destruct (Z.testbit (toInt32 a) n), (Z.testbit (Z.ones 32) n).
Qed.

Lemma toUint32_add_l a b : toUint32 (toUint32 a + b) = toUint32 (a + b).
Proof. unfold toUint32. apply Zplus_mod_idemp_l. Qed.

Lemma toUint32_add_r a b : toUint32 (a + toUint32 b) = toUint32 (a + b).
Proof. unfold toUint32. apply Zplus_mod_idemp_r. Qed.

Lemma toUint32_add a b : toUint32 (a + b) = toUint32 (toUint32 a + toUint32 b).
Proof. by rewrite toUint32_add_l, toUint32_add_r. Qed.

Lemma toUint32_add2 a b c : toUint32 (toUint32 a + (toUint32 b + c)) = toUint32 (a + (b + c)).
Proof.
  rewrite toUint32_add_l. replace (a + (toUint32 b + c)) with (toUint32 b + (a + c)) by lia.
  rewrite toUint32_add_l. f_equal. lia.
Qed.

Lemma toUint32_shl a n :
  0 <= n -> toUint32 (js_shl a n) = toUint32 (Z.shiftl (toUint32 a) n).
Proof.
  intros Hn. unfold js_shl. rewrite toUint32_toInt32, <- (toUint32_toInt32 a).
  rewrite !Z.shiftl_mul_pow2 by done. unfold toUint32.
  by rewrite Zmult_mod_idemp_l.
Qed.

Lemma js_shru_range a n : 0 <= n -> 0 <= js_shru a n < 2 ^ 32.
Proof.
  intros Hn. unfold js_shru. pose proof (toUint32_range a) as Ha.
  rewrite Z.shiftr_div_pow2 by done. assert (0 < 2 ^ n) by lia.
  split; [apply Z.div_pos; lia|]. apply Z.div_lt_upper_bound; [done|]. nia.
Qed.

Lemma js_shru_word a n : 0 <= a < 2 ^ 32 -> js_shru a n = Fips.SHR n a.
Proof. intros Ha. unfold js_shru, Fips.SHR. by rewrite toUint32_id. Qed.

(** JavaScript's [rotr] is the rotation of FIPS 180-4 on words. *)
Lemma toUint32_rotr a n :
  0 <= n <= 32 -> 0 <= a < 2 ^ 32 -> toUint32 (rotr a n) = Fips.ROTR n a.
Proof.
  intros Hn Ha. unfold rotr, Fips.ROTR. rewrite toUint32_or, toUint32_shl by lia.
  rewrite (toUint32_id (js_shru a n)) by (apply js_shru_range; lia).
  by rewrite js_shru_word, (toUint32_id a).
Qed.

(** ** The schedule and the rounds *)

Definition word32 (z : Z) : Prop := 0 <= z < 2 ^ 32.
Definition wf_regs (r : Regs) : Prop :=
  word32 (ra r) /\ word32 (rb r) /\ word32 (rc r) /\ word32 (rd r) /\
  word32 (re r) /\ word32 (rf r) /\ word32 (rg r) /\ word32 (rh r).

Lemma nth_word32 l i : Forall word32 l -> word32 (nth i l 0).
Proof.
  intros Hl. destruct (nth_in_or_default i l 0) as [Hin| ->].
  - rewrite Forall_forall in Hl. apply Hl. by apply list_elem_of_In.
  - unfold word32. lia.
Qed.

Ltac u32_push :=
  rewrite ?toUint32_xor, ?toUint32_and, ?toUint32_not, ?toUint32_or;
  rewrite ?toUint32_rotr by (unfold word32 in *; lia).

Lemma round_step W r t :
  wf_regs r -> Forall word32 W -> round W r t = Fips.step W r t.
Proof.
  intros (Ha & Hb & Hc & Hd & He & Hf & Hg & Hh) HW.
  pose proof (nth_word32 W t HW) as Hw. unfold word32 in *.
  assert (Hs1 : toUint32 (js_xor (js_xor (rotr (re r) 6) (rotr (re r) 11)) (rotr (re r) 25))
                = Fips.Sigma1 (re r)) by (u32_push; reflexivity).
  assert (Hs0 : toUint32 (js_xor (js_xor (rotr (ra r) 2) (rotr (ra r) 13)) (rotr (ra r) 22))
                = Fips.Sigma0 (ra r)) by (u32_push; reflexivity).
  assert (Hch : toUint32 (js_xor (js_and (re r) (rf r)) (js_and (js_not (re r)) (rg r)))
                = Fips.Ch (re r) (rf r) (rg r)).
  { u32_push. by rewrite !toUint32_id. }
  assert (Hmj : toUint32 (js_xor (js_xor (js_and (ra r) (rb r)) (js_and (ra r) (rc r)))
                                 (js_and (rb r) (rc r)))
                = Fips.Maj (ra r) (rb r) (rc r)).
  { u32_push. by rewrite !toUint32_id. }
  unfold round, Fips.step. rewrite <- (proj1 constants_fips), <- Hs1, <- Hs0, <- Hch, <- Hmj.
  cbn zeta.
  set (s1 := js_xor _ (rotr (re r) 25)). set (ch := js_xor _ (js_and (js_not _) _)).
  set (s0 := js_xor _ (rotr (ra r) 22)). set (mj := js_xor _ (js_and (rb r) _)).
  assert (E1 : toUint32 (rh r + toUint32 s1 + toUint32 ch + nth t K 0 + nth t W 0)
               = toUint32 (rh r + s1 + ch + nth t K 0 + nth t W 0)).
  { replace (rh r + toUint32 s1 + toUint32 ch + nth t K 0 + nth t W 0)
      with (toUint32 s1 + (toUint32 ch + (rh r + nth t K 0 + nth t W 0))) by lia.
    rewrite toUint32_add2. f_equal. lia. }
  assert (E2 : toUint32 (toUint32 s0 + toUint32 mj) = toUint32 (s0 + mj))
    by (symmetry; apply toUint32_add).
  by rewrite E1, E2.
Qed.

Lemma step_wf W r t : wf_regs r -> wf_regs (Fips.step W r t).
Proof.
  intros (Ha & Hb & Hc & Hd & He & Hf & Hg & Hh).
  unfold wf_regs, Fips.step; simpl.
  repeat split; try assumption; try apply Ha; try apply Hb; try apply Hc; try apply He;
    try apply Hf; try apply Hg; apply toUint32_range.
Qed.

Lemma rounds_steps W l r :
  wf_regs r -> Forall word32 W -> fold_left (round W) l r = fold_left (Fips.step W) l r
                                  /\ wf_regs (fold_left (Fips.step W) l r).
Proof.
  revert r. induction l as [|t l IH]; simpl; intros r Hr HW; [done|].
  rewrite round_step by done. apply IH; [by apply step_wf | done].
Qed.

Lemma nth_rev_newest {A} (l : list A) (d : A) k :
  (k < length l)%nat -> nth k (rev l) d = nth (length l - S k) l d.
Proof. intros Hk. by apply rev_nth. Qed.

(** One schedule step appends the word FIPS prepends to the reversed list. *)
Lemma schedule_step_next s :
  (16 <= length s)%nat -> Forall word32 s ->
  rev (schedule_step s) = Fips.next_word (rev s) :: rev s /\ Forall word32 (schedule_step s).
Proof.
  intros Hlen Hs. unfold schedule_step. split.
  - rewrite rev_app_distr. simpl. f_equal. unfold Fips.next_word.
    rewrite !nth_rev_newest by lia.
    pose proof (nth_word32 s (length s - 15) Hs) as HA.
    pose proof (nth_word32 s (length s - 2) Hs) as HB. unfold word32 in HA, HB.
    set (A := nth (length s - 15) s 0) in *. set (B := nth (length s - 2) s 0) in *.
    assert (HsA : toUint32 (js_xor (js_xor (rotr A 7) (rotr A 18)) (js_shru A 3)) = Fips.sigma0 A).
    { u32_push. rewrite (toUint32_id (js_shru A 3)) by (apply js_shru_range; lia).
      by rewrite js_shru_word. }
    assert (HsB : toUint32 (js_xor (js_xor (rotr B 17) (rotr B 19)) (js_shru B 10))
                  = Fips.sigma1 B).
    { u32_push. rewrite (toUint32_id (js_shru B 10)) by (apply js_shru_range; lia).
      by rewrite js_shru_word. }
    rewrite <- HsA, <- HsB.
    set (sA := js_xor _ (js_shru A 3)). set (sB := js_xor _ (js_shru B 10)).
    set (x := nth (length s - 16) s 0). set (y := nth (length s - 7) s 0).
    replace (toUint32 sB + y + toUint32 sA + x) with (toUint32 sB + (toUint32 sA + (x + y))) by lia.
    rewrite toUint32_add2. f_equal. lia.
  - apply Forall_app. split; [done|]. apply Forall_singleton. apply toUint32_range.
Qed.

Lemma schedule_step_length s : length (schedule_step s) = S (length s).
Proof. unfold schedule_step. rewrite length_app. simpl. lia. Qed.

Lemma schedule_iter n s :
  (16 <= length s)%nat -> Forall word32 s ->
  rev (Nat.iter n schedule_step s)
    = Nat.iter n (fun ws => Fips.next_word ws :: ws) (rev s)
  /\ Forall word32 (Nat.iter n schedule_step s)
  /\ (16 <= length (Nat.iter n schedule_step s))%nat.
Proof.
  intros Hl Hs. induction n as [|n (IH1 & IH2 & IH3)]; [done|]. simpl.
  destruct (schedule_step_next _ IH3 IH2) as [E F]. rewrite E, IH1. split; [done|].
  split; [done|]. rewrite schedule_step_length. lia.
Qed.

(** ** Padding and blocks *)

Definition byte (z : Z) : Prop := 0 <= z < 256.

(** Or-ing a value into free low bits adds it. *)
Lemma lor_add a b n : 0 <= n -> 0 <= b < 2 ^ n -> Z.lor (a * 2 ^ n) b = a * 2 ^ n + b.
Proof.
  intros Hn Hb. symmetry. apply Z.add_nocarry_lor, Z.bits_inj'. intros m Hm.
  rewrite Z.land_spec, Z.bits_0. destruct (Z.lt_ge_cases m n) as [Hmn|Hmn].
  - by rewrite Z.mul_pow2_bits_low.
  - destruct (Z.eq_dec b 0) as [->|Hb0]; [by rewrite Z.bits_0, andb_false_r|].
    rewrite (Z.bits_above_log2 b), andb_false_r; [done|lia|].
    apply Z.log2_lt_pow2; [lia|]. eapply Z.lt_le_trans; [apply Hb|].
    apply Z.pow_le_mono_r; lia.
Qed.

Lemma shl_byte b n : byte b -> 0 <= n <= 24 -> toUint32 (js_shl b n) = b * 2 ^ n.
Proof.
  intros Hb Hn. unfold byte in Hb. rewrite toUint32_shl by lia.
  rewrite (toUint32_id b) by lia. rewrite Z.shiftl_mul_pow2 by lia.
  apply toUint32_id. assert (0 < 2 ^ n <= 2 ^ 24).
  { split; [lia|]. apply Z.pow_le_mono_r; lia. }
  change (2 ^ 32) with (256 * 2 ^ 24). nia.
Qed.

Lemma nth_byte l i : Forall byte l -> byte (nth i l 0).
Proof.
  intros Hl. destruct (nth_in_or_default i l 0) as [Hin| ->].
  - rewrite Forall_forall in Hl. apply Hl. by apply list_elem_of_In.
  - unfold byte. lia.
Qed.

Lemma be_word b0 b1 b2 b3 :
  byte b0 -> byte b1 -> byte b2 -> byte b3 ->
  toUint32 (js_or (js_or (js_or (js_shl b0 24) (js_shl b1 16)) (js_shl b2 8)) b3)
  = ((b0 * 256 + b1) * 256 + b2) * 256 + b3.
Proof.
  intros H0 H1 H2 H3. rewrite !toUint32_or, !shl_byte by (done || lia).
  unfold byte in *. rewrite (toUint32_id b3) by lia.
  rewrite (lor_add b0 (b1 * 2 ^ 16) 24) by lia.
  replace (b0 * 2 ^ 24 + b1 * 2 ^ 16) with ((b0 * 256 + b1) * 2 ^ 16) by lia.
  rewrite (lor_add _ (b2 * 2 ^ 8) 16) by lia.
  replace ((b0 * 256 + b1) * 2 ^ 16 + b2 * 2 ^ 8)
    with (((b0 * 256 + b1) * 256 + b2) * 2 ^ 8) by lia.
  rewrite (lor_add _ b3 8) by lia. lia.
Qed.

Lemma block_word_spec block i : Forall byte block -> block_word block i = Fips.word block i.
Proof.
  intros Hb. unfold block_word, Fips.word. cbn [seq fold_left].
  rewrite be_word by (apply nth_byte; done). lia.
Qed.

Lemma word_range block i : Forall byte block -> word32 (Fips.word block i).
Proof.
  intros Hb. rewrite <- block_word_spec by done. apply toUint32_range.
Qed.

Lemma schedule_of_spec block :
  Forall byte block ->
  schedule_of block = Fips.schedule block /\ Forall word32 (schedule_of block).
Proof.
  intros Hb. unfold schedule_of, Fips.schedule.
  assert (E : List.map (block_word block) (seq 0 16) = List.map (Fips.word block) (seq 0 16)).
  { apply map_ext. intros i. by apply block_word_spec. }
  rewrite E. destruct (schedule_iter 48 (List.map (Fips.word block) (seq 0 16))) as (E1 & E2 & _).
  - by rewrite length_map, length_seq.
  - apply Forall_forall. intros z Hz. apply list_elem_of_In, in_map_iff in Hz as (i & <- & _).
    by apply word_range.
  - rewrite <- E1, rev_involutive. done.
Qed.

Definition wf_hash (h : list Z) : Prop := length h = 8%nat /\ Forall word32 h.

Lemma regs_of_wf h : wf_hash h -> wf_regs (regs_of h).
Proof. intros [_ Hh]. unfold wf_regs, regs_of; simpl. repeat split; by apply nth_word32. Qed.

Lemma compress_spec h block :
  wf_hash h -> Forall byte block ->
  compress h block = Fips.block_digest h block /\ wf_hash (compress h block).
Proof.
  intros Hh Hb. destruct (schedule_of_spec block Hb) as [Es Hs].
  unfold compress, Fips.block_digest. rewrite Es in Hs |- *.
  destruct (rounds_steps (Fips.schedule block) (seq 0 64) (regs_of h)) as [Er _];
    [by apply regs_of_wf | done |].
  rewrite Er. destruct Hh as [Hl Hw].
  destruct h as [|h0 [|h1 [|h2 [|h3 [|h4 [|h5 [|h6 [|h7 [|]]]]]]]]]; try discriminate Hl.
  split; [reflexivity|]. split; [reflexivity|].
  repeat (apply Forall_cons; split; [apply toUint32_range|]). apply Forall_nil. done.
Qed.

Lemma digest_blocks_spec n fuel bytes h :
  length bytes = (64 * n)%nat -> (n <= fuel)%nat -> Forall byte bytes -> wf_hash h ->
  digest_blocks fuel bytes h = fold_left Fips.block_digest (Fips.chunks n bytes) h
  /\ wf_hash (digest_blocks fuel bytes h).
Proof.
  revert fuel bytes h. induction n as [|n IH]; intros fuel bytes h Hl Hf Hb Hh.
  - destruct bytes; [|done]. by destruct fuel.
  - destruct fuel as [|fuel]; [lia|]. destruct bytes as [|b bytes]; [done|].
    cbn [digest_blocks Fips.chunks fold_left].
    destruct (compress_spec h (take 64 (b :: bytes)) Hh) as [E Hc]; [by apply Forall_take|].
    rewrite <- E. apply IH; [|lia|by apply Forall_drop|done].
    rewrite length_drop. lia.
Qed.

(** The padding loop stops: its fuel covers the at most 63 zeros needed. *)
Lemma pad_zeros_spec fuel l :
  (Z.to_nat ((56 - Z.of_nat (length l)) mod 64) <= fuel)%nat ->
  pad_zeros fuel l = l ++ replicate (Z.to_nat ((56 - Z.of_nat (length l)) mod 64)) 0.
Proof.
  revert l. induction fuel as [|fuel IH]; intros l Hf; simpl;
    destruct (Z.of_nat (length l) mod 64 =? 56) eqn:E; bool_hyps.
  1,3: replace ((56 - Z.of_nat (length l)) mod 64) with 0 by (Z.div_mod_to_equations; lia);
       simpl; by rewrite app_nil_r.
  - exfalso. Z.div_mod_to_equations. lia.
  - assert (Hs : Z.to_nat ((56 - Z.of_nat (length l)) mod 64)
               = S (Z.to_nat ((56 - Z.of_nat (length (l ++ [0]))) mod 64))).
    { rewrite length_app. simpl. Z.div_mod_to_equations. lia. }
    rewrite IH by lia. rewrite Hs. simpl. by rewrite <- app_assoc.
Qed.

Lemma toInt32_mod256 z : (toInt32 z) mod 256 = z mod 256.
Proof. unfold toInt32. Z.div_mod_to_equations. lia. Qed.

Lemma js_and_255 z : js_and z 255 = z mod 256.
Proof.
  unfold js_and. change (toInt32 255) with (Z.ones 8). rewrite Z.land_ones by lia.
  apply toInt32_mod256.
Qed.

Lemma pad_spec input : pad input = Fips.padded input.
Proof.
  unfold pad, Fips.padded. rewrite pad_zeros_spec.
  - rewrite length_app. cbn [length].
    replace ((56 - Z.of_nat (length input + 1)) mod 64)
      with ((55 - Z.of_nat (length input)) mod 64) by (f_equal; lia).
    rewrite <- !app_assoc. do 3 f_equal. unfold Fips.be64. cbn [List.map].
    rewrite !js_and_255, (Z.mul_comm 8). reflexivity.
  - pose proof (Z.mod_pos_bound (56 - Z.of_nat (length (input ++ [128]))) 64). lia.
Qed.

Lemma padded_length m :
  exists n, length (Fips.padded m) = (64 * n)%nat.
Proof.
  unfold Fips.padded. rewrite !length_app, length_replicate. cbn [length Fips.be64 List.map].
  exists (Z.to_nat ((Z.of_nat (length m) + (55 - Z.of_nat (length m)) mod 64 + 9) / 64)).
  Z.div_mod_to_equations. lia.
Qed.

Lemma padded_bytes m : Forall byte m -> Forall byte (Fips.padded m).
Proof.
  intros Hm. unfold Fips.padded. rewrite !Forall_app. split; [done|].
  split; [apply Forall_singleton; unfold byte; lia|]. split.
  - apply Forall_replicate. unfold byte. lia.
  - unfold Fips.be64. cbn [List.map].
    repeat (apply Forall_cons; split; [apply Z.mod_pos_bound; lia|]). by apply Forall_nil.
Qed.

Lemma INITIAL_wf : wf_hash INITIAL.
Proof.
  split; [done|]. unfold INITIAL, word32. repeat (apply Forall_cons; split; [lia|]).
  by apply Forall_nil.
Qed.

Lemma sha256_words_spec input :
  Forall byte input -> sha256_words input = Fips.sha256 input /\ wf_hash (sha256_words input).
Proof.
  intros Hb. unfold sha256_words, Fips.sha256. rewrite pad_spec, <- (proj2 constants_fips).
  destruct (padded_length input) as [n Hn].
  replace (length (Fips.padded input) / 64)%nat with n
    by (rewrite Hn, Nat.mul_comm; symmetry; by apply Nat.div_mul).
  apply digest_blocks_spec; [done|lia|by apply padded_bytes|apply INITIAL_wf].
Qed.

(** ** Hexadecimal output *)

(** [n] hexadecimal digits, most significant first. *)
Fixpoint hexn (n : nat) (z : Z) (acc : string) : string :=
  match n with O => acc | S n' => hexn n' (z / 16) (String (hex_digit (z mod 16)) acc) end.

Definition fips_hex (words : list Z) : string :=
  js_join "" (List.map (fun w => hexn 8 w "") words).

Lemma string_app_cons c s t : String c s +:+ t = String c (s +:+ t).
Proof. reflexivity. Qed.

Lemma string_app_nil s : s +:+ "" = s.
Proof. induction s as [|c s IH]; [done|]. by rewrite string_app_cons, IH. Qed.

Lemma length_string_app s t :
  String.length (s +:+ t) = (String.length s + String.length t)%nat.
Proof. induction s as [|c s IH]; [done|]. rewrite string_app_cons. simpl. by rewrite IH. Qed.

Lemma zeros_snoc n s : zeros n +:+ String "0" s = zeros (S n) +:+ s.
Proof. induction n as [|n IH]; [done|]. simpl in *. by rewrite !string_app_cons, IH. Qed.

Lemma hexn_zero n acc : hexn n 0 acc = zeros n +:+ acc.
Proof.
  revert acc. induction n as [|n IH]; intros acc; [done|]. cbn [hexn].
  change (0 / 16) with 0. change (hex_digit (0 mod 16)) with "0"%char.
  by rewrite IH, zeros_snoc.
Qed.

Lemma hex_go_spec n fuel z acc :
  (1 <= n <= fuel)%nat -> 0 <= z < 16 ^ Z.of_nat n ->
  exists k, (k <= n)%nat /\ String.length (hex_go fuel z acc) = (k + String.length acc)%nat
            /\ hexn n z acc = zeros (n - k) +:+ hex_go fuel z acc.
Proof.
  revert fuel z acc. induction n as [|n IH]; intros fuel z acc Hn Hz; [lia|].
  destruct fuel as [|fuel]; [lia|]. cbn [hex_go hexn].
  destruct (z / 16 =? 0) eqn:E; bool_hyps.
  - exists 1%nat. split; [lia|]. split; [done|]. rewrite E, hexn_zero.
    by replace (S n - 1)%nat with n by lia.
  - assert (Hpow : 16 ^ Z.of_nat (S n) = 16 * 16 ^ Z.of_nat n).
    { rewrite Nat2Z.inj_succ, Z.pow_succ_r; lia. }
    assert (Hz' : 0 <= z / 16 < 16 ^ Z.of_nat n).
    { split; [apply Z.div_pos; lia|]. apply Z.div_lt_upper_bound; lia. }
    assert (n <> 0%nat) by (intros ->; simpl in Hz'; lia).
    destruct (IH fuel (z / 16) (String (hex_digit (z mod 16)) acc)) as (k & Hk & Hl & He);
      [lia|done|].
    exists (S k). split; [lia|]. split; [rewrite Hl; simpl; lia|]. by rewrite He.
Qed.

Lemma padStart8_spec w : word32 w -> padStart8 (hex_string w) = hexn 8 w "".
Proof.
  intros Hw. destruct (hex_go_spec 8 16 w "") as (k & Hk & Hl & He); [lia|exact Hw|].
  unfold padStart8, hex_string. rewrite Hl, He. simpl String.length. by rewrite Nat.add_0_r.
Qed.

Lemma sha256HexBytes_hexn input :
  Forall byte input -> sha256HexBytes input = fips_hex (sha256_words input).
Proof.
  intros Hb. destruct (sha256_words_spec input Hb) as [_ [_ Hw]].
  unfold sha256HexBytes, fips_hex. f_equal. apply map_ext_in. intros w Hin.
  apply padStart8_spec. rewrite Forall_forall in Hw. apply Hw. by apply list_elem_of_In.
Qed.

(** C40: on any byte sequence the kernel's digest is the FIPS 180-4 SHA-256
    digest, written in lower-case hexadecimal: the signed 32-bit operators, the
    padding loop and the schedule compute the standard's unsigned words. *)
Theorem sha256HexBytes_is_fips (input : list Z) (Hb : Forall byte input) :
  sha256HexBytes input = fips_hex (Fips.sha256 input).
Proof.
  rewrite sha256HexBytes_hexn by done. by destruct (sha256_words_spec input Hb) as [-> _].
Qed.

Lemma sha256HexBytes_is_fips_witness :
  Forall byte [97; 98; 99] /\ sha256HexBytes [97; 98; 99] = fips_hex (Fips.sha256 [97; 98; 99]).
Proof.
  assert (H : Forall byte [97; 98; 99])
    by (repeat (apply Forall_cons; split; [unfold byte; lia|]); by apply Forall_nil).
  split; [exact H | exact (sha256HexBytes_is_fips _ H)].
Defined.

Lemma list_ascii_app s t :
  String.list_ascii_of_string (s +:+ t)
  = String.list_ascii_of_string s ++ String.list_ascii_of_string t.
Proof. induction s as [|c s IH]; [done|]. rewrite string_app_cons. simpl. by rewrite IH. Qed.

Lemma hex_digit_lower z : 0 <= z < 16 -> is_lower_hex (hex_digit z) = true.
Proof.
  intros Hz. assert (H : In z [0;1;2;3;4;5;6;7;8;9;10;11;12;13;14;15]) by (simpl; lia).
  simpl in H. decompose [or] H; subst; try reflexivity. done.
Qed.

Lemma hexn_chars n z acc :
  String.length (hexn n z acc) = (n + String.length acc)%nat
  /\ (forallb is_lower_hex (String.list_ascii_of_string acc) = true ->
      forallb is_lower_hex (String.list_ascii_of_string (hexn n z acc)) = true).
Proof.
  revert z acc. induction n as [|n IH]; intros z acc; [done|]. cbn [hexn].
  destruct (IH (z / 16) (String (hex_digit (z mod 16)) acc)) as [Hl Hc]. split.
  - rewrite Hl. simpl. lia.
  - intros Ha. apply Hc. simpl. rewrite Ha, hex_digit_lower; [done|].
    apply Z.mod_pos_bound. lia.
Qed.

Lemma join_hex8 (ws : list Z) :
  String.length (fips_hex ws) = (8 * length ws)%nat
  /\ forallb is_lower_hex (String.list_ascii_of_string (fips_hex ws)) = true.
Proof.
  unfold fips_hex, js_join. induction ws as [|w ws [IHl IHc]]; [done|].
  destruct (hexn_chars 8 w "") as [Hl Hc]. specialize (Hc eq_refl).
  assert (E : String.concat "" (List.map (fun w => hexn 8 w "") (w :: ws))
            = hexn 8 w "" +:+ String.concat "" (List.map (fun w => hexn 8 w "") ws)).
  { cbn [List.map String.concat]. destruct (List.map _ ws) eqn:Em; [|done].
    simpl String.concat. by rewrite string_app_nil. }
  rewrite E, list_ascii_app, forallb_app, Hc, IHc. split; [|done].
  rewrite length_string_app, Hl, IHl. simpl. lia.
Qed.

(** ** UTF-8 *)

Lemma toInt32_id z : - 2 ^ 31 <= z < 2 ^ 31 -> toInt32 z = z.
Proof. intros Hz. unfold toInt32. rewrite Z.mod_small; lia. Qed.

Lemma js_or_add c k x :
  0 <= k -> 0 <= c -> 0 <= x < 2 ^ k -> c * 2 ^ k + x < 2 ^ 31 -> js_or (c * 2 ^ k) x = c * 2 ^ k + x.
Proof.
  intros Hk Hc Hx Hb. unfold js_or. assert (0 <= c * 2 ^ k) by nia.
  rewrite !toInt32_id by lia. by apply lor_add.
Qed.

Lemma js_and_63 z : 0 <= z < 2 ^ 31 -> js_and z 63 = z mod 64.
Proof.
  intros Hz. unfold js_and. rewrite (toInt32_id z) by lia.
  change (toInt32 63) with (Z.ones 6). by rewrite Z.land_ones.
Qed.

Lemma js_shru_div z n : 0 <= n -> 0 <= z < 2 ^ 32 -> js_shru z n = z / 2 ^ n.
Proof. intros Hn Hz. unfold js_shru. rewrite toUint32_id by done. by apply Z.shiftr_div_pow2. Qed.

(** The lead bytes and the continuation byte, as sums. *)
Lemma utf8_lead2 c : 0 <= c < 0x800 -> js_or 0xc0 (js_shru c 6) = 192 + c / 64.
Proof.
  intros Hc. rewrite js_shru_div by lia. change (2 ^ 6) with 64.
  apply (js_or_add 6 5); Z.div_mod_to_equations; lia.
Qed.
Lemma utf8_lead3 c : 0 <= c < 0x10000 -> js_or 0xe0 (js_shru c 12) = 224 + c / 4096.
Proof.
  intros Hc. rewrite js_shru_div by lia. change (2 ^ 12) with 4096.
  apply (js_or_add 14 4); Z.div_mod_to_equations; lia.
Qed.
Lemma utf8_lead4 c : 0 <= c < 0x110000 -> js_or 0xf0 (js_shru c 18) = 240 + c / 262144.
Proof.
  intros Hc. rewrite js_shru_div by lia. change (2 ^ 18) with 262144.
  apply (js_or_add 30 3); Z.div_mod_to_equations; lia.
Qed.
Lemma utf8_cont c : 0 <= c < 2 ^ 31 -> js_or 0x80 (js_and c 0x3f) = 128 + c mod 64.
Proof.
  intros Hc. rewrite js_and_63 by done.
  apply (js_or_add 2 6); Z.div_mod_to_equations; lia.
Qed.
Lemma utf8_cont_shr c n :
  0 <= n -> 0 <= c < 0x110000 ->
  js_or 0x80 (js_and (js_shru c n) 0x3f) = 128 + (c / 2 ^ n) mod 64.
Proof.
  intros Hn Hc. rewrite js_shru_div by lia. apply utf8_cont.
  assert (0 < 2 ^ n) by lia. split; [apply Z.div_pos; lia|].
  apply Z.div_lt_upper_bound; nia.
Qed.

Lemma surrogate_scalar hi lo :
  0xd800 <= hi <= 0xdbff -> 0xdc00 <= lo <= 0xdfff ->
  0x10000 + js_shl (hi - 0xd800) 10 + (lo - 0xdc00)
  = 0x10000 + (hi - 0xd800) * 1024 + (lo - 0xdc00).
Proof.
  intros Hh Hl. unfold js_shl. rewrite (toInt32_id (hi - _)) by lia.
  rewrite Z.shiftl_mul_pow2 by lia. change (2 ^ 10) with 1024. by rewrite toInt32_id by lia.
Qed.

(** An RFC 3629 decoder into UTF-16 code units. *)
Definition is_cont (b : Z) : bool := (128 <=? b) && (b <? 192).

Fixpoint utf8_decode (bytes : list Z) : option (list Z) :=
  match bytes with
  | [] => Some []
  | b0 :: t0 =>
      if b0 <? 128 then cons b0 <$> utf8_decode t0
      else match t0 with
      | [] => None
      | b1 :: t1 =>
          if (192 <=? b0) && (b0 <? 224) && is_cont b1
          then cons ((b0 - 192) * 64 + (b1 - 128)) <$> utf8_decode t1
          else match t1 with
          | [] => None
          | b2 :: t2 =>
              if (224 <=? b0) && (b0 <? 240) && is_cont b1 && is_cont b2
              then cons ((b0 - 224) * 4096 + (b1 - 128) * 64 + (b2 - 128)) <$> utf8_decode t2
              else match t2 with
              | [] => None
              | b3 :: t3 =>
                  if (240 <=? b0) && (b0 <? 248) && is_cont b1 && is_cont b2 && is_cont b3 then
                    let scalar := (b0 - 240) * 262144 + (b1 - 128) * 4096
                                  + (b2 - 128) * 64 + (b3 - 128) - 65536 in
                    (fun u => 0xd800 + scalar / 1024 :: 0xdc00 + scalar mod 1024 :: u)
                      <$> utf8_decode t3
                  else None
              end
          end
      end
  end.

(** Every surrogate is paired. *)
Fixpoint wf_utf16 (units : list Z) : bool :=
  match units with
  | [] => true
  | c :: rest =>
      if (0xd800 <=? c) && (c <=? 0xdbff) then
        match rest with
        | lo :: rest' => (0xdc00 <=? lo) && (lo <=? 0xdfff) && wf_utf16 rest'
        | [] => false
        end
      else (0 <=? c) && (c <? 65536) && negb ((0xdc00 <=? c) && (c <=? 0xdfff)) && wf_utf16 rest
  end.

Ltac bool_cases :=
  repeat match goal with
  | |- context [(?a <=? ?b)%Z] => destruct (Z.leb_spec a b); try lia
  | |- context [(?a <? ?b)%Z] => destruct (Z.ltb_spec a b); try lia
  end; cbn [andb orb negb].

(** A code unit outside the surrogate range decodes from its own bytes. *)
Lemma utf8_unit c rest :
  0 <= c < 65536 -> ~ (0xd800 <= c <= 0xdfff) ->
  utf8_decode (utf8Bytes (c :: rest)) = cons c <$> utf8_decode (utf8Bytes rest).
Proof.
  intros Hc Hs. cbn [utf8Bytes].
  destruct (Z.ltb_spec c 0x80); [cbn [utf8_decode]; by bool_cases|].
  destruct (Z.ltb_spec c 0x800).
  - rewrite utf8_lead2, utf8_cont by lia. cbn [utf8_decode]. unfold is_cont.
    bool_cases; try (exfalso; Z.div_mod_to_equations; lia).
    f_equal. f_equal. Z.div_mod_to_equations. lia.
  - assert (E : forall tail, utf8_decode (js_or 0xe0 (js_shru c 12)
                 :: js_or 0x80 (js_and (js_shru c 6) 0x3f) :: js_or 0x80 (js_and c 0x3f) :: tail)
               = cons c <$> utf8_decode tail).
    { intros tail. rewrite utf8_lead3, utf8_cont_shr, utf8_cont by lia.
      change (2 ^ 6) with 64. cbn [utf8_decode]. unfold is_cont.
      bool_cases; try (exfalso; Z.div_mod_to_equations; lia).
      f_equal. f_equal. Z.div_mod_to_equations. lia. }
    destruct rest as [|lo rest]; bool_cases; apply E.
Qed.

Lemma utf8_pair hi lo rest :
  0xd800 <= hi <= 0xdbff -> 0xdc00 <= lo <= 0xdfff ->
  utf8_decode (utf8Bytes (hi :: lo :: rest))
  = (fun u => hi :: lo :: u) <$> utf8_decode (utf8Bytes rest).
Proof.
  intros Hh Hl. cbn [utf8Bytes]. bool_cases. cbv zeta. rewrite surrogate_scalar by done.
  set (sc := 0x10000 + (hi - 0xd800) * 1024 + (lo - 0xdc00)).
  assert (Hsc : 0x10000 <= sc < 0x110000) by (unfold sc; lia).
  rewrite utf8_lead4, !utf8_cont_shr, utf8_cont by lia.
  change (2 ^ 6) with 64. change (2 ^ 12) with 4096.
  assert (E : sc / 262144 * 262144 + (sc / 4096) mod 64 * 4096
              + (sc / 64) mod 64 * 64 + sc mod 64 = sc) by (Z.div_mod_to_equations; lia).
  assert (B0 : 0 <= sc / 262144 <= 4) by (Z.div_mod_to_equations; lia).
  pose proof (Z.mod_pos_bound (sc / 4096) 64 eq_refl) as B1.
  pose proof (Z.mod_pos_bound (sc / 64) 64 eq_refl) as B2.
  pose proof (Z.mod_pos_bound sc 64 eq_refl) as B3.
  revert E B0 B1 B2 B3. generalize (sc / 262144) as q0, ((sc / 4096) mod 64) as q1,
    ((sc / 64) mod 64) as q2, (sc mod 64) as q3. intros q0 q1 q2 q3 E B0 B1 B2 B3.
  cbn [utf8_decode]. unfold is_cont. bool_cases. cbv zeta.
  replace ((240 + q0 - 240) * 262144 + (128 + q1 - 128) * 4096 + (128 + q2 - 128) * 64
           + (128 + q3 - 128) - 65536) with ((hi - 0xd800) * 1024 + (lo - 0xdc00))
    by (unfold sc in E; lia).
  replace (((hi - 0xd800) * 1024 + (lo - 0xdc00)) / 1024) with (hi - 0xd800)
    by (rewrite Z.div_add_l, Z.div_small by lia; lia).
  replace (((hi - 0xd800) * 1024 + (lo - 0xdc00)) mod 1024) with (lo - 0xdc00)
    by (rewrite Z.add_comm, Z.mod_add, Z.mod_small by lia; lia).
  destruct (utf8_decode (utf8Bytes rest)); [|done]. simpl. repeat f_equal; lia.
Qed.

Lemma utf8_decode_encode n units :
  (length units <= n)%nat -> wf_utf16 units = true -> utf8_decode (utf8Bytes units) = Some units.
Proof.
  revert units. induction n as [|n IH]; intros [|c rest] Hn Hwf; try done; simpl in Hn; [lia|].
  cbn [wf_utf16] in Hwf. destruct ((0xd800 <=? c) && (c <=? 0xdbff)) eqn:Ehi.
  - destruct rest as [|lo rest]; [done|]. bool_hyps. simpl in Hn.
    rewrite utf8_pair, IH by (done || lia). done.
  - bool_hyps. rewrite utf8_unit, IH; [done|lia|done|lia|].
    intros Hc. apply andb_false_iff in Ehi as [?|?]; bool_hyps; [lia|].
    match goal with H : _ && _ = false |- _ => apply andb_false_iff in H as [?|?] end;
      bool_hyps; lia.
Qed.

(** The kernel's UTF-8 encoder loses nothing: every text whose surrogates
    are paired is decoded back, code unit by code unit, by an RFC 3629 decoder. *)
Theorem utf8Bytes_roundtrip (units : list Z) (Hwf : wf_utf16 units = true) :
  utf8_decode (utf8Bytes units) = Some units.
Proof. by apply (utf8_decode_encode (length units)). Qed.

Lemma utf8Bytes_roundtrip_witness :
  wf_utf16 [0x41; 0xe9; 0x4e2d; 0xd83d; 0xde80] = true
  /\ utf8_decode (utf8Bytes [0x41; 0xe9; 0x4e2d; 0xd83d; 0xde80])
     = Some [0x41; 0xe9; 0x4e2d; 0xd83d; 0xde80].
Proof. split; [reflexivity | apply utf8Bytes_roundtrip; reflexivity]. Defined.

(** A lone high surrogate is not encoded uniformly: before another unit it
    becomes the replacement character, at the end of the text it becomes the
    three bytes of the surrogate itself, which no UTF-8 decoder accepts as a
    scalar value. *)
Theorem utf8Bytes_trailing_surrogate (hi : Z) (Hhi : 0xd800 <= hi <= 0xdbff) :
  utf8Bytes [hi; 0x41] = [0xef; 0xbf; 0xbd; 0x41]
  /\ utf8Bytes [hi] = [0xed; 128 + (hi / 64) mod 64; 128 + hi mod 64].
Proof.
  split; cbn [utf8Bytes]; bool_cases; [done|].
  rewrite utf8_lead3, utf8_cont_shr, utf8_cont by lia. change (2 ^ 6) with 64.
  f_equal. Z.div_mod_to_equations. lia.
Qed.

Lemma utf8Bytes_trailing_surrogate_witness :
  0xd800 <= 0xd83d <= 0xdbff
  /\ utf8Bytes [0xd83d] = [0xed; 128 + (0xd83d / 64) mod 64; 128 + 0xd83d mod 64].
Proof. split; [lia | apply (utf8Bytes_trailing_surrogate 0xd83d); lia]. Defined.

Lemma utf8_latin_bytes units : Forall (fun c => 0 <= c < 256) units -> Forall byte (utf8Bytes units).
Proof.
  unfold byte. induction units as [|c rest IH]; intros Hu; [by apply Forall_nil|].
  apply Forall_cons in Hu as [Hc Hr]. specialize (IH Hr). cbn [utf8Bytes].
  destruct (Z.ltb_spec c 0x80); [apply Forall_cons; split; [lia|done]|].
  destruct (Z.ltb_spec c 0x800); [|lia].
  rewrite utf8_lead2, utf8_cont by lia.
  repeat (apply Forall_cons; split; [Z.div_mod_to_equations; lia|]). done.
Qed.

(** A text digest is always 64 lower-case hexadecimal characters, the form
    the kernel's identity checks test for. *)
Theorem sha256Hex_is_hex64 (value : string) : isHex64 (sha256Hex value) = true.
Proof.
  unfold sha256Hex, isHex64.
  assert (Hb : Forall byte (utf8Bytes (code_units value))).
  { apply utf8_latin_bytes, Forall_forall. intros z Hz. apply list_elem_of_In in Hz.
    unfold code_units in Hz. apply in_map_iff in Hz as (c & <- & _).
    pose proof (nat_ascii_bounded c). lia. }
  destruct (sha256_words_spec _ Hb) as [E [Hl _]].
  rewrite (sha256HexBytes_hexn _ Hb). destruct (join_hex8 (sha256_words (utf8Bytes (code_units value)))) as [Hlen Hc].
  rewrite Hlen, Hl, Hc. done.
Qed.
