(* ===== verification/RecoveryClaims.v ===== *)
(** * What the recovery journal guarantees

    Every operation keeps the invariant, a corrupt journal blocks for good, an
    attempt is admitted only within its failure's budget, and the lineage of a
    failure survives compaction and merging. *)

From S2P Require Import Prelude Js Hash State Sample ApprovalQueue Normalization HashCorrect Recovery RecoveryProps RecoveryInvariant.
From stdpp Require Import prelude strings list.
From Stdlib Require Import ZArith Lia Ascii.
Open Scope Z_scope.

(** ** Merging *)

Section Merge.
Context `{JsHost}.

(** A child's failure in the parent's scope. *)
Definition rescoped (taskId turnId : option string) (f : ToolRecoveryFailure) : ToolRecoveryFailure :=
  let f := match opt_nonempty taskId with
           | Some t => f <| rf_taskId := Some t |> | None => f end in
  match opt_nonempty turnId with Some t => f <| rf_turnId := Some t |> | None => f end.

Lemma rescoped_ok r id taskId turnId f :
  failure_ok r id f -> failure_ok r id (rescoped taskId turnId f).
Proof. intros [? ? ? ? ? ?]. unfold rescoped. by repeat case_match; split. Qed.

(** The entry a merge keeps for an identity. *)
Definition mergedFailure (parent normalized : ToolRecoveryJournal) (taskId turnId : option string)
    (id : string) : option ToolRecoveryFailure :=
  match oget id (j_failures parent) with
  | Some f => Some f
  | None => rescoped taskId turnId <$> oget id (j_failures normalized)
  end.

Lemma mergedEntry_spec parent normalized taskId turnId combined id :
  mergedEntry parent normalized taskId turnId combined id
  = match mergedFailure parent normalized taskId turnId id with
    | Some f => oset id f combined | None => combined end.
Proof.
  unfold mergedEntry, mergedFailure. destruct (oget id (j_failures parent)); [done|].
  destruct (oget id (j_failures normalized)); [|done]. simpl. unfold rescoped. by repeat case_match.
Qed.

Lemma merged_fold parent normalized taskId turnId order combined :
  NoDup (okeys combined) ->
  let result := fold_left (mergedEntry parent normalized taskId turnId) order combined in
  NoDup (okeys result)
  /\ (forall id, oget id result
        = if str_in id order
          then match mergedFailure parent normalized taskId turnId id with
               | Some f => Some f | None => oget id combined end
          else oget id combined).
Proof.
  revert combined. induction order as [|x order IH]; intros combined Hn; simpl; [done|].
  rewrite mergedEntry_spec.
  destruct (mergedFailure parent normalized taskId turnId x) as [f|] eqn:Ef.
  - destruct (IH (oset x f combined)) as [R1 R2]; [by apply oset_NoDup|]. split; [done|].
    intros id. rewrite R2, !oget_oset. destruct (String.eqb_spec id x) as [->|]; simpl; [|done].
    rewrite Ef. by destruct (str_in x order).
  - destruct (IH combined Hn) as [R1 R2]. split; [done|]. intros id. rewrite R2.
    destruct (String.eqb_spec id x) as [->|]; simpl; [|done]. rewrite Ef. by destruct (str_in x order).
Qed.

Lemma fadd_nonneg x y : 0 <= x -> 0 <= y -> 0 <= fadd x y.
Proof. intros. unfold fadd. apply fl_nonneg. lia. Qed.

(** The order and the failures a merge compacts. *)
Definition combinedOrder (parent normalized : ToolRecoveryJournal) : list string :=
  j_order parent
  ++ List.filter (fun id => negb (ohas id (j_failures parent))) (j_order normalized).

Lemma combined_spec parent n taskId turnId :
  journal_ok parent -> journal_ok n ->
  let order := combinedOrder parent n in
  let failures := fold_left (mergedEntry parent n taskId turnId) order [] in
  NoDup (okeys failures) /\ (forall id, In id (okeys failures) -> In id order)
  /\ (forall id, oget id failures = mergedFailure parent n taskId turnId id)
  /\ (length failures <= length (j_order parent) + length (j_order n))%nat
  /\ oall (failure_ok (Z.max (j_progressRevision parent) (j_progressRevision n))) failures.
Proof.
  intros Hp Hok order failures.
  destruct (merged_fold parent n taskId turnId order [] NoDup_nil_2) as [Mn Mg].
  fold failures in Mn, Mg.
  assert (forall id, In id (okeys failures) -> In id order) as Hsub.
  { intros id Hid%ohas_In. unfold ohas in Hid. rewrite Mg in Hid.
    destruct (str_in id order) eqn:Es; [by apply str_in_true|done]. }
  assert (forall id, oget id failures = mergedFailure parent n taskId turnId id) as Hget.
  { intros id. rewrite Mg. destruct (str_in id order) eqn:Es; [by destruct (mergedFailure _ _ _ _ id)|].
    assert (~ In id order) as Hni by (by rewrite <- str_in_true, Es). symmetry. unfold mergedFailure.
    unfold order, combinedOrder in Hni. rewrite in_app_iff, filter_In in Hni.
    destruct (oget id (j_failures parent)) as [f|] eqn:Ef.
    { exfalso. apply oget_some_key, (jo_aligned parent Hp) in Ef. tauto. }
    destruct (oget id (j_failures n)) as [f|] eqn:Efn; [|done]. exfalso.
    apply oget_some_key, (jo_aligned n Hok) in Efn. apply Hni. right. unfold ohas. by rewrite Ef. }
  split_and!; try done.
  - transitivity (length (okeys failures)); [unfold okeys; by rewrite length_map|].
    transitivity (length order); [by apply NoDup_incl_len|]. unfold order, combinedOrder.
    rewrite length_app. pose proof (List.filter_length_le (fun id => negb (ohas id (j_failures parent)))
      (j_order n)). lia.
  - intros id f Hin. apply In_oget in Hin; [|done]. rewrite Hget in Hin. unfold mergedFailure in Hin.
    destruct (oget id (j_failures parent)) as [g|] eqn:Eg.
    + injection Hin as <-. eapply failure_ok_mono; [|eapply oall_oget; [apply Hp|done]]. lia.
    + destruct (oget id (j_failures n)) as [g|] eqn:Egn; [|done]. injection Hin as <-.
      apply rescoped_ok. eapply failure_ok_mono; [|eapply oall_oget; [apply Hok|done]]. lia.
Qed.

Lemma normalized_ok child key n :
  normalizeToolRecoveryJournal child key = Ok n -> journal_ok n /\ j_identityKey n = key.
Proof.
  intros (_ & Hkey & Hcases)%normalize_inv. split; [|done].
  destruct Hcases as [(o & s & ->)|[? _]]; [apply refusedJournal_ok|done].
Qed.

(** A merge either marks the parent invalid and takes nothing from the child, or
    keeps the parent's failures and takes the child's others in the given scope. *)
Lemma merge_inv parent child key taskId turnId j :
  journal_ok parent -> mergeToolRecoveryJournals parent child key taskId turnId = Ok j ->
  exists normalized, normalizeToolRecoveryJournal child key = Ok normalized
  /\ j_identityKey j = j_identityKey parent /\ journal_ok j
  /\ (((journalInvalid normalized = true \/ key <> j_identityKey parent)
       /\ j_failures j = j_failures parent /\ j_order j = j_order parent
       /\ journalInvalid j = true)
      \/ (journalInvalid normalized = false /\ key = j_identityKey parent
          /\ (forall id f, oget id (j_failures j) = Some f ->
                mergedFailure parent normalized taskId turnId id = Some f)
          /\ ((length (j_order parent) + length (j_order normalized) <= 128)%nat ->
              forall id, oget id (j_failures j) = mergedFailure parent normalized taskId turnId id)
          /\ (journalInvalid parent = true -> journalInvalid j = true))).
Proof.
  intros Hp. unfold mergeToolRecoveryJournals. intros (_ & _ & (n & Hn & Hm)%bind_ok)%bind_ok.
  exists n. split; [done|]. pose proof (jo_guard parent Hp) as [Pr Ps Po].
  destruct (normalized_ok child key n Hn) as [Hok Hkey].
  match type of Hm with (if ?b then _ else _) = _ => destruct b eqn:Eb end.
  { injection Hm as <-. split_and!; [done| |left; split_and!; simpl; try done].
    - destruct Hp as [? ? ? _ ?]. split; simpl; try done. split; simpl; try done.
      unfold TOOL_RECOVERY_QUALITY_FAILURE_LIMIT, TOOL_RECOVERY_OBSERVATION_CAP in *. lia.
    - rewrite Hkey in Eb. destruct (journalInvalid n); [by left|right].
      simpl in Eb. intros ->. by rewrite String.eqb_refl in Eb. }
  rewrite Hkey in Eb. bool_hyps. fold (combinedOrder parent n) in Hm.
  destruct (compactFailures _ _) as [kept order] eqn:Ec. injection Hm as <-. simpl.
  destruct (combined_spec parent n taskId turnId Hp Hok) as (Mn & Hsub & Hget & Hlen & Hall).
  destruct (aligned_compact _ _ _ _ _ Mn Hsub Ec Hall) as (Ha & Hl & Hk).
  pose proof (compactFailures_spec _ _ Mn Hsub) as Hs. rewrite Ec in Hs.
  destruct Hs as (_ & _ & Hkeep & _ & Hsame).
  split_and!; [done| |right; split_and!; try done].
  - split; simpl; try done.
    + pose proof (jo_guard n Hok) as [Nr Ns No]. split; simpl; [by destruct (_ || _)|by intros ->|].
      split; [|apply Z.le_min_l]. apply Z.min_glb; [done|]. apply fadd_nonneg; lia.
    + pose proof (jo_revision parent Hp). pose proof (jo_revision n Hok). lia.
  - intros id f Hf. rewrite <- Hget. by apply Hkeep.
  - intros Hle id. rewrite Hsame by lia. apply Hget.
  - unfold journalInvalid, reasonIs. simpl. intros [Hb Hr]%andb_true_iff. by rewrite Hb, Hr.
Qed.
End Merge.

(** ** Histories *)

Inductive JournalOp : Type :=
| jop_failure (input : RecoveryFailureInput)
| jop_exhaustion (input : RecoveryFailureInput)
| jop_invocation (recoveryOf : string) (mode : ToolRecoveryAttemptMode)
| jop_progress (progress : ToolOwnedProgress)
| jop_close (scope : RecoveryScope)
| jop_response (input : ResponseInput)
| jop_merge (child : val) (hostIdentityKey : string) (taskId turnId : option string).

(** Closing failures by hand takes any resolution but [recovered], which only
    progress may give. *)
Definition op_admissible (op : JournalOp) : Prop :=
  match op with jop_close (scope_failure _ rs_recovered) => False | _ => True end.

Section Histories.
Context `{JsHost}.

Definition journalStep (j : ToolRecoveryJournal) (op : JournalOp) : res ToolRecoveryJournal :=
  match op with
  | jop_failure input => recordRecoveryFailure j input
  | jop_exhaustion input => recordRecoveryExhaustion j input
  | jop_invocation id mode => Ok (recordRecoveryInvocation j id mode)
  | jop_progress progress => Ok (recordToolOwnedProgress j progress)
  | jop_close scope => Ok (closeToolRecoveryScope j scope)
  | jop_response input => Ok (advanceToolRecoveryResponse j input)
  | jop_merge child key taskId turnId => mergeToolRecoveryJournals j child key taskId turnId
  end.

Lemma journalStep_ok j op j' :
  op_admissible op -> journal_ok j -> journalStep j op = Ok j' -> journal_ok j'.
Proof.
  intros Ho Hj. destruct op; simpl; intros Hs.
  - by eapply recordRecoveryFailure_ok.
  - by eapply recordRecoveryExhaustion_ok.
  - injection Hs as <-. by apply recordRecoveryInvocation_ok.
  - injection Hs as <-. by apply recordToolOwnedProgress_ok.
  - injection Hs as <-. destruct scope as [t|t|ids r]; apply closeFailures_ok; try done.
    by intros ->.
  - injection Hs as <-. by apply advance_ok.
  - by apply merge_inv in Hs as (n & _ & _ & Hok & _).
Qed.

Lemma new_journal_ok key j : createToolRecoveryJournal key = Ok j -> journal_ok j.
Proof.
  intros [_ [= <-]]%guard_ok. split; simpl; [|lia|apply oall_nil|apply unblocked_ok|unfold two53; lia].
  split_and!; try apply NoDup_nil_2. done.
Qed.


(** ** The absorbing block *)

Lemma kept_guard j g j' :
  journalInvalid j = true -> j_qualityGuard j' = qualityAfterMutation j g ->
  journalInvalid j' = true.
Proof.
  intros Hi Hg. unfold qualityAfterMutation in Hg. rewrite Hi in Hg.
  unfold journalInvalid in *. by rewrite Hg.
Qed.

Lemma failure_stays_invalid j input j' :
  journalInvalid j = true -> recordRecoveryFailure j input = Ok j' -> journalInvalid j' = true.
Proof.
  intros Hi. unfold recordRecoveryFailure. destruct (is_str _ _); [by intros [= <-]|].
  intros (id & _ & Hr)%bind_ok. destruct (ohas id _); [by injection Hr as <-|].
  destruct (compactFailures _ _). injection Hr as <-. by eapply kept_guard.
Qed.

Lemma close_stays_invalid j predicate resolution :
  journalInvalid j = true -> journalInvalid (closeFailures j predicate resolution) = true.
Proof. intros Hi. unfold closeFailures. destruct (existsb _ _); [by eapply kept_guard|done]. Qed.

Lemma step_stays_invalid j op j' :
  journal_ok j -> journalInvalid j = true -> journalStep j op = Ok j' -> journalInvalid j' = true.
Proof.
  intros Hj Hi. destruct op; simpl; intros Hs.
  - by eapply failure_stays_invalid.
  - apply bind_ok in Hs as (n & Hn & Hs). apply failure_stays_invalid in Hn; [|done].
    rewrite Hn in Hs. by injection Hs as <-.
  - injection Hs as <-. unfold recordRecoveryInvocation. by repeat case_match.
  - injection Hs as <-. unfold recordToolOwnedProgress. repeat case_match; try done. by eapply kept_guard.
  - injection Hs as <-. destruct scope; by apply close_stays_invalid.
  - injection Hs as <-. unfold advanceToolRecoveryResponse. by repeat case_match.
  - apply merge_inv in Hs as (n & _ & _ & _ & [(_ & _ & _ & ?)|(_ & _ & _ & _ & Hk)]); auto.
Qed.

(** A corrupt journal blocks the session for good.  Once the journal is
    invalid, no history of failures, exhaustions, retries, progress, closed tasks
    and turns, responses and merges makes it valid again, every task and turn is
    quality blocked, and no recovery attempt is admitted. *)
Theorem journal_invalid_is_absorbing j ops j' :
  journal_ok j -> journalInvalid j = true -> Forall op_admissible ops ->
  res_fold journalStep ops j = Ok j' ->
  journalInvalid j' = true
  /\ (forall taskId turnId, isToolRecoveryQualityBlocked j' taskId turnId = true)
  /\ (forall input, admitRecoveryAttempt j' input = attempt_refused None "no_progress").
Proof.
  intros Hj Hi Ho Hr.
  assert (journal_ok j' /\ journalInvalid j' = true) as [_ Hi'].
  { eapply (res_fold_inv journalStep (fun j => journal_ok j /\ journalInvalid j = true));
      [done| |exact Hr].
    intros s op t Hin [Hok Hs] Ht. rewrite List.Forall_forall in Ho. split.
    - eapply journalStep_ok; eauto.
    - by eapply step_stays_invalid. }
  unfold isToolRecoveryQualityBlocked, admitRecoveryAttempt. by rewrite Hi'.
Qed.

(** ** Admission *)

End Histories.

(** ** Identities *)

(** No part of a value is [undefined]. *)
Fixpoint defined (v : val) : bool :=
  match v with
  | VUndef => false
  | VArr l => forallb defined l
  | VObj o => forallb (fun '(_, x) => defined x) o
  | _ => true
  end.

Section Identity.
Context `{JsHost}.

Lemma recoveryStringify_defined : forall v, defined v = true ->
  recoveryStringify v = Ok (stableStringify v).
Proof.
  fix IH 1. intros v Hv. destruct v as [| |b|[z|]|s|l|o]; try done.
  - simpl in *. match goal with |- res_bind (?f l) _ = _ =>
      assert (f l = Ok (List.map stableStringify l)) as -> end; [|done].
    induction l as [|x l IHl]; [done|]. simpl in *. apply andb_true_iff in Hv as [Hx Hl].
    rewrite (IH x Hx). simpl. by rewrite (IHl Hl).
  - simpl in *. match goal with |- res_bind (?f o) _ = _ =>
      assert (f o = Ok (List.map (fun '(k, x) => (k, stableStringify x)) o)) as -> end; [|done].
    induction o as [|[k x] o IHo]; [done|]. simpl in *. apply andb_true_iff in Hv as [Hx Ho].
    rewrite (IH x Hx). simpl. by rewrite (IHo Ho).
Qed.

Fixpoint has_comma (s : string) : bool :=
  match s with EmptyString => false | String c s' => Ascii.eqb c ","%char || has_comma s' end.

Lemma has_comma_app a b : has_comma (a +:+ b) = has_comma a || has_comma b.
Proof. induction a as [|c a IH]; [done|]. simpl. by rewrite IH, orb_assoc. Qed.

Lemma array_has_comma x y l : has_comma (js_string (VArr (x :: y :: l))) = true.
Proof.
  cbn [js_string List.map]. set (a := match x with VUndef => _ | _ => _ end).
  set (b := match y with VUndef => _ | _ => _ end).
  change (has_comma (a +:+ "," +:+ js_join "," (b :: List.map (fun x => match x with
    | VUndef | VNull => ""%string | _ => js_string x end) l)) = true).
  rewrite !has_comma_app. simpl. apply orb_true_r.
Qed.

(** A value whose text is the name of a status is one, perhaps inside arrays. *)
Lemma status_defined : forall v, In (js_string v) OUTCOME_STATUSES -> defined v = true.
Proof.
  fix IH 1. intros v Hv. destruct v as [| |b|n|s|l|o]; try done.
  - simpl in Hv. intuition congruence.
  - destruct l as [|x [|y l]].
    + simpl in Hv. intuition congruence.
    + simpl. rewrite andb_true_r. apply IH. destruct x; simpl in *; try done; intuition congruence.
    + exfalso.
      pose proof (array_has_comma x y l) as Hc.
      assert (forall s, In s OUTCOME_STATUSES -> has_comma s = false) as Hs.
      { intros s Hin. simpl in Hin. repeat (destruct Hin as [<-|Hin]; [reflexivity|]). done. }
      rewrite (Hs _ Hv) in Hc. done.
  - simpl in Hv. intuition congruence.
Qed.

(** The identity of a canonical outcome is always defined, and both modules
    compute the same. *)
Lemma toolFailureInstanceId_agrees callId fingerprint outcome :
  isToolOutcome (VObj outcome) = true ->
  toolFailureInstanceId callId fingerprint outcome
  = Ok (digestFailureIdentity callId fingerprint outcome).
Proof.
  intros Ho. unfold toolFailureInstanceId, digestFailureIdentity.
  change (canonicalFailureDetail outcome) with (outcomeDetail outcome).
  rewrite recoveryStringify_defined; [done|]. cbn [defined forallb]. rewrite andb_true_r.
  unfold isToolOutcome, validOutcomeHeader in Ho. rewrite !andb_true_iff in Ho. destruct_and! Ho.
  rewrite status_defined by (by apply str_in_true). simpl.
  unfold outcomeDetail. match goal with Hf : validFailure _ _ = true |- _ => rename Hf into Hfail end.
  unfold validFailure in Hfail. destruct (_ =s _).
  - by destruct (get outcome "failure").
  - destruct (get outcome "failure") as [| | | | | |f]; try done. simpl.
    rewrite !andb_true_iff in Hfail. destruct Hfail as [_ Hd]. unfold isToolOutcomeDetailCode in Hd.
    by destruct (get f "detailCode").
Qed.
End Identity.

(** ** Restoring and merging *)

Section Restore.
Context `{JsHost}.

Lemma failureConsistent_total failure id r : exists b, failureConsistent failure id r = Ok b.
Proof.
  unfold failureConsistent. match goal with |- context [if ?b then _ else _] => destruct b eqn:Eb end;
    [|by eexists].
  rewrite !andb_true_iff in Eb. destruct_and! Eb.
  match goal with Hi : isToolOutcome _ = true |- _ => rename Hi into Ho end.
  destruct (get failure "outcome") as [| | | | | |o]; try done. simpl jsonRecord.
  rewrite toolFailureInstanceId_agrees by done. by eexists.
Qed.

Lemma restoreFailures_total record r order acc :
  exists result, restoreFailures record r order acc = Ok result.
Proof.
  revert acc. induction order as [|id order IH]; intros acc; [by eexists|].
  cbn [restoreFailures]. assert (exists step, restoreFailure record r acc id = Ok step) as [step ->].
  { unfold restoreFailure. destruct acc as [failures claims].
    destruct (recordField record id) as [failure|]; [|by eexists].
    destruct (negb (exactFailureKeys failure)); [by eexists|].
    destruct (failureConsistent_total failure id r) as [b ->]. cbn [res_bind].
    destruct (negb b); [by eexists|]. repeat (destruct (match claimOf failure with
      | Some _ => _ | None => _ end); [by eexists|]).
    destruct (negb (isToolRecoveryFailure _)); by eexists. }
  cbn [res_bind]. destruct step; [by eexists|apply IH].
Qed.

(** A journal that arrives as data is accepted only if it is well formed.  For
    every value and every canonical host key, validation returns a journal of
    that key: either the empty journal marked invalid, or one that satisfies the
    invariant and in which the recorded parent of each failure comes before it.
    A key that is not canonical is refused with an error. *)
Theorem restored_journal_is_well_formed value key :
  if isHex64 key then
    exists j, normalizeToolRecoveryJournal value key = Ok j /\ j_identityKey j = key
      /\ journal_ok j
      /\ (journalInvalid j = true /\ j_failures j = [] \/ parents_first j)
  else normalizeToolRecoveryJournal value key
       = Throw "Tool recovery identityKey must be a canonical host-supplied key.".
Proof.
  destruct (isHex64 key) eqn:Ek.
  2: { unfold normalizeToolRecoveryJournal, assertCanonicalRecoveryIdentityKey,
         isCanonicalRecoveryIdentityKey. by rewrite Ek. }
  assert (exists j, normalizeToolRecoveryJournal value key = Ok j) as [j Hj].
  { unfold normalizeToolRecoveryJournal, assertCanonicalRecoveryIdentityKey,
      isCanonicalRecoveryIdentityKey. rewrite Ek. cbn [negb throw_if res_bind].
    destruct (negb _); [by eexists|]. destruct (negb _); [by eexists|]. destruct (negb _); [by eexists|].
    match goal with |- context [restoreFailures ?a ?b ?c ?d] =>
      destruct (restoreFailures_total a b c d) as [result ->] end.
    cbn [res_bind]. destruct result; [by eexists|]. destruct (negb _); [by eexists|].
    destruct (_ && _); by eexists. }
  exists j. split; [done|]. pose proof (normalized_ok _ _ _ Hj) as [Hok Hkey].
  split_and!; try done. apply normalize_inv in Hj as (_ & _ & [(o & s & ->)|[_ ?]]); [by left|by right].
Qed.

(** Merging never loses or rewrites the parent's evidence.  Unless the child
    is invalid or of another session, every failure of the result is the
    parent's own or, where the parent has none, the child's put in the call's
    task and turn, and when both fit in 128 entries none is missing; otherwise
    the parent keeps exactly its failures and is marked invalid. *)
Theorem merge_keeps_parent_evidence parent child key taskId turnId j :
  journal_ok parent -> mergeToolRecoveryJournals parent child key taskId turnId = Ok j ->
  exists normalized, normalizeToolRecoveryJournal child key = Ok normalized
  /\ j_identityKey j = j_identityKey parent
  /\ if journalInvalid normalized || negb (key =s j_identityKey parent)
     then j_failures j = j_failures parent /\ j_order j = j_order parent /\ journalInvalid j = true
     else (forall id f, oget id (j_failures j) = Some f ->
             mergedFailure parent normalized taskId turnId id = Some f)
          /\ ((length (j_order parent) + length (j_order normalized) <= 128)%nat ->
              forall id, oget id (j_failures j) = mergedFailure parent normalized taskId turnId id).
Proof.
  intros Hp Hm. apply merge_inv in Hm as (n & Hn & Hk & _ & Hcases); [|done].
  exists n. split_and!; try done. destruct Hcases as [(Hbad & Hf & Ho & Hi)|(Hi & -> & Hsub & Hall & _)].
  - assert (journalInvalid n || negb (key =s j_identityKey parent) = true) as ->; [|done].
    destruct Hbad as [->|Hne]; [done|]. by rewrite (proj2 (eqb_false _ _) Hne), orb_true_r.
  - by rewrite Hi, String.eqb_refl.
Qed.
End Restore.
