(* ===== verification/RecoveryResponse.v ===== *)
(** * The next response and the quality guard

    A model correction is bound to one tool call of the next response; the block
    of a scope without progress, and what lifts it. *)

From S2P Require Import Prelude Js Hash State Sample ApprovalQueue Normalization HashCorrect Recovery RecoveryProps RecoveryInvariant RecoveryClaims.
From stdpp Require Import prelude strings list.
From Stdlib Require Import ZArith Lia.
Open Scope Z_scope.

(** ** Bindings *)

(** The call of a response a failure is bound to. *)
Definition binding (f : ToolRecoveryFailure) : option (string * string) :=
  match rf_eligibleModelMessageId f, opt_nonempty (rf_eligibleToolCallId f) with
  | Some m, Some c => Some (m, c)
  | _, _ => None
  end.

(** No two failures are bound to the same call. *)
Definition bindings_unique (failures : ordmap ToolRecoveryFailure) : Prop :=
  forall i k f g b, oget i failures = Some f -> oget k failures = Some g ->
    binding f = Some b -> binding g = Some b -> i = k.

(** The calls of a response already taken. *)
Definition claims_cover (m : string) (claimed : list string)
    (failures : ordmap ToolRecoveryFailure) : Prop :=
  forall i f c, oget i failures = Some f -> binding f = Some (m, c) -> In c claimed.

Lemma oset_bindings failures id f :
  bindings_unique failures ->
  (forall k g b, k <> id -> oget k failures = Some g -> binding g = Some b -> binding f <> Some b) ->
  bindings_unique (oset id f failures).
Proof.
  intros Hu Hf i k g h b. rewrite !oget_oset.
  destruct (String.eqb_spec i id) as [->|Hi], (String.eqb_spec k id) as [->|Hk];
    intros; simplify_eq; try done.
  - exfalso. by eapply (Hf k h b).
  - exfalso. by eapply (Hf i g b).
  - by eapply Hu.
Qed.

(** What one iteration keeps. *)
Record bound_state (input : ResponseInput) (r : Z) (s : AdvanceState) : Prop := {
  bs_ok : oall (failure_ok r) (fst (fst s));
  bs_unique : bindings_unique (fst (fst s));
  bs_cover : claims_cover (rp_modelMessageId input) (snd (fst s)) (fst (fst s)) }.

Lemma cover_oset m claimed failures id f :
  claims_cover m claimed failures -> (forall c, binding f = Some (m, c) -> In c claimed) ->
  claims_cover m claimed (oset id f failures).
Proof.
  intros Hc Hf i g c. rewrite oget_oset. destruct (i =s id); [intros [= <-]; apply Hf|apply Hc].
Qed.

Lemma advance_bound input r s id :
  Forall (fun call => fst call <> ""%string) (rp_toolCalls input) ->
  bound_state input r s -> bound_state input r (advanceStep input s id).
Proof.
  intros Hne [Hok Hu Hc]. pose proof (advanceStep_ok input r _ s id Hok eq_refl) as [Hok' _].
  split; [done|..]; clear Hok'; destruct s as [[failures claimed] changed]; simpl in *;
    unfold advanceStep; destruct (oget id failures) as [f|] eqn:Ef; try done;
    destruct (outOfResponse input f); try done;
    pose proof (fo_bound _ _ _ (oall_oget _ _ _ _ Hok Ef)) as Hb.
  all: match goal with |- context [if negb ?a || ?b then _ else _] => destruct (negb a || b) eqn:Eel end.
  all: try (assert (rf_eligibleToolCallId f = None) as Hnone by
    (destruct (rf_eligibleToolCallId f); [|done]; destruct (rf_eligibleModelMessageId f);
     [simpl in Eel; by rewrite andb_false_r in Eel|by specialize (Hb eq_refl)])).
  all: try (destruct (List.find _ _) as [[callId name]|] eqn:Efind; simpl).
  all: try (destruct (negb (opt_str_eqb _ _)); [simpl|done]).
  - apply find_some in Efind as [Hin Hfree]. apply andb_true_iff in Hfree as [Hfree _].
    apply negb_true_iff in Hfree. apply oset_bindings; [done|]. intros k g [m c] Hk Hg Hbg.
    intros Hbf. unfold binding in Hbf. destruct callId as [|a callId]; [done|]. injection Hbf as <- <-.
    apply (Hc k g) in Hbg; [|done]. apply str_in_true in Hbg. congruence.
  - apply oset_bindings; [done|]. intros k g b Hk Hg Hbg. unfold binding at 1.
    change (opt_nonempty _) with (opt_nonempty (rf_eligibleToolCallId f)). by rewrite Hnone.
  - apply oset_bindings; [done|]. intros k g b Hk Hg Hbg Hbf. apply Hk. symmetry.
    eapply Hu; [exact Ef|exact Hg| |exact Hbg]. exact Hbf.
  - apply cover_oset.
    + intros i g c Hg Hbg. apply in_app_iff. left. by eapply Hc.
    + intros c. unfold binding. destruct callId as [|a callId]; [done|]. intros [= <-].
      apply in_app_iff. right. by left.
  - apply cover_oset; [done|]. intros c. unfold binding.
    change (opt_nonempty _) with (opt_nonempty (rf_eligibleToolCallId f)). by rewrite Hnone.
  - apply cover_oset; [done|]. intros c Hbf. by eapply (Hc id f).
Qed.

Lemma initial_cover j m :
  claims_cover m (initiallyClaimed j m) (j_failures j).
Proof.
  intros i f c Hf Hb. unfold initiallyClaimed. unfold binding in Hb.
  destruct (rf_eligibleModelMessageId f) as [x|] eqn:Em; [|done].
  destruct (opt_nonempty (rf_eligibleToolCallId f)) as [y|] eqn:Ec; [|done]. injection Hb as -> ->.
  apply list_elem_of_In, list_elem_of_omap. exists f. split; [|done].
  apply list_elem_of_In, filter_In. split.
  - apply In_ovalues. exists i. by apply oget_In.
  - rewrite Em. simpl. apply String.eqb_refl.
Qed.

(** A response answers each failure at most once.  Binding the failures of a
    journal to a response leaves no two failures bound to the same tool call, so
    one call never spends the correction of two failures. *)
Theorem responses_bind_uniquely j input :
  journal_ok j -> bindings_unique (j_failures j) ->
  Forall (fun call => fst call <> ""%string) (rp_toolCalls input) ->
  bindings_unique (j_failures (advanceToolRecoveryResponse j input)).
Proof.
  intros Hj Hu Hne. unfold advanceToolRecoveryResponse. set (start := (_, _, false)).
  assert (bound_state input (j_progressRevision j)
    (fold_left (advanceStep input) (j_order j) start)) as Hb.
  { apply fold_left_inv.
    - split; simpl; [apply Hj|done|apply initial_cover].
    - intros s id _ Hs. by apply advance_bound. }
  destruct (fold_left _ _ _) as [[failures claimed] changed]. destruct Hb as [_ Hb _]. simpl in Hb.
  by destruct changed.
Qed.

(** ** The quality guard *)

Lemma progress_guard j p id :
  journalInvalid j = false -> pr_referenceId p <> ""%string ->
  In id (default [] (pr_resolvesFailureIds p)) -> stillBlocks (j_failures j) id = true ->
  j_qualityGuard (recordToolOwnedProgress j p) = unblocked.
Proof.
  intros Hi Hr Hin Hb. unfold recordToolOwnedProgress.
  assert (str_nonempty (pr_referenceId p) = true) as -> by (by destruct (pr_referenceId p)).
  destruct (List.filter _ _) eqn:Ef.
  - assert (In id (List.filter (stillBlocks (j_failures j)) (default [] (pr_resolvesFailureIds p))))
      as Hf by (by apply filter_In). by rewrite Ef in Hf.
  - simpl. unfold qualityAfterMutation. by rewrite Hi.
Qed.

(** The block of a scope is lifted from outside it.  In a sound journal, any
    progress that resolves one blocking failure, of whatever lineage, task or
    turn, unblocks every task and turn; and recording a failure of another task
    unblocks the task the guard was set for. *)
Theorem block_is_lifted_from_outside `{JsHost} j :
  journalInvalid j = false ->
  (forall progress id, pr_referenceId progress <> ""%string ->
     In id (default [] (pr_resolvesFailureIds progress)) -> stillBlocks (j_failures j) id = true ->
     forall task turn,
       isToolRecoveryQualityBlocked (recordToolOwnedProgress j progress) task turn = false)
  /\ (forall input id j' task other,
        qg_taskId (j_qualityGuard j) = Some task -> fin_taskId input = Some other ->
        other <> task -> other <> ""%string ->
        is_str (get (fin_outcome input) "status") "success" = false ->
        toolFailureInstanceId (fin_toolCallId input) (fin_invocationFingerprint input)
          (fin_outcome input) = Ok id -> ohas id (j_failures j) = false ->
        recordRecoveryFailure j input = Ok j' ->
        forall turn, isToolRecoveryQualityBlocked j' (Some task) turn = false).
Proof.
  intros Hi. split.
  - intros p id Hr Hin Hb task turn. unfold isToolRecoveryQualityBlocked, journalInvalid.
    by rewrite (progress_guard j p id).
  - intros input id j' task other Ht Ho Hne Hne' Hs Hid Hfresh. unfold recordRecoveryFailure.
    rewrite Hs, Hid, Ho. cbn [res_bind]. rewrite Hfresh.
    destruct (compactFailures _ _) as [kept order]. intros [= <-] turn.
    unfold isToolRecoveryQualityBlocked, journalInvalid, guardApplies, qualityAfterMutation.
    rewrite Hi. simpl. rewrite Ht. simpl.
    rewrite (proj2 (eqb_false task other)) by done. simpl.
    destruct (_ <=? _); simpl; [|done]. unfold scopeMatches. destruct other as [|c other]; [done|].
    simpl str_nonempty. cbv iota. cbn [opt_str_eqb]. by rewrite (proj2 (eqb_false _ _)).
Qed.

(** A failed read whose arguments the model may correct. *)
Definition correctableOutcome (recoveryOf : option string) : obj :=
  [("schemaVersion", VNum (Fin 1)); ("status", VStr "failed");
   ("failure", VObj [("kind", VStr "tool_invalid_args"); ("detailCode", VStr "invalid_arguments")]);
   ("dispatchState", VStr "not_started"); ("externalEffects", VStr "none");
   ("replaySafety", VStr "pre_dispatch");
   ("recovery", VObj [("disposition", VStr "correct_args"); ("maximumAdditionalCalls", VNum (Fin 1));
                      ("requiresNewModelResponse", VBool true); ("safeAutomaticRetry", VBool false)]);
   ("timing", VObj [("source", VStr "legacy_unknown")])]%string
  ++ match recoveryOf with
     | Some id => [("lineage"%string, VObj [("recoveryOf"%string, VStr id)])] | None => [] end.

Definition readFailure (callId task : string) (recoveryOf : option string) : RecoveryFailureInput :=
  {| fin_toolCallId := callId; fin_toolName := "read_file";
     fin_invocationFingerprint := "0123456789abcdef0123456789abcdef0123456789abcdef0123456789abcdef";
     fin_modelMessageId := "m1"; fin_outcome := correctableOutcome recoveryOf;
     fin_taskId := Some task; fin_turnId := Some "turn" |}%string.

(** Record a failure that continues the chain of the last one. *)
Definition chainFailure (j : ToolRecoveryJournal) (callId task : string) : ToolRecoveryJournal :=
  match @recordRecoveryFailure host0 j (readFailure callId task (last (j_order j))) with
  | Ok j' => j' | Throw _ => j end.

(** One failure of task [b], then six in a chain of task [a]. *)
Definition blockedJournal : ToolRecoveryJournal :=
  Eval vm_compute in
    let start := toolRecovery demo in
    let b := match @recordRecoveryFailure host0 start (readFailure "c0" "b" None) with
             | Ok j => j | Throw _ => start end in
    let a := match @recordRecoveryFailure host0 b (readFailure "c1" "a" None) with
             | Ok j => j | Throw _ => b end in
    fold_left (fun j c => chainFailure j c "a") ["c2"; "c3"; "c4"; "c5"; "c6"]%string a.

Lemma block_is_lifted_from_outside_witness :
  isToolRecoveryQualityBlocked blockedJournal (Some "a"%string) "turn" = true
  /\ isToolRecoveryQualityBlocked
       (recordToolOwnedProgress blockedJournal
          {| pr_kind := pk_receipt; pr_referenceId := "c9";
             pr_resolvesFailureIds := Some (take 1 (j_order blockedJournal)) |})
       (Some "a"%string) "turn" = false.
Proof.
  split; [reflexivity|].
  apply (proj1 (@block_is_lifted_from_outside host0 blockedJournal eq_refl) _
           (default ""%string (head (j_order blockedJournal)))); [done|by left|reflexivity].
Defined.

(** ** Concrete instances *)

Definition sampleKey : string := "0123456789abcdef0123456789abcdef0123456789abcdef0123456789abcdef".

Lemma demo_journal : createToolRecoveryJournal sampleKey = Ok (toolRecovery demo).
Proof. reflexivity. Qed.

(** A failed read, and the response whose second call corrects it. *)
Definition nextResponse : ResponseInput :=
  {| rp_taskId := Some "a"; rp_turnId := Some "turn"; rp_modelMessageId := "m2";
     rp_toolCalls := [("c7", "search_files"); ("c8", "read_file")] |}%string.

Definition journalAfter (ops : list JournalOp) : ToolRecoveryJournal :=
  match res_fold (@journalStep host0) ops (toolRecovery demo) with
  | Ok j => j | Throw _ => toolRecovery demo end.

Definition sampleOps : list JournalOp := [jop_failure (readFailure "c1" "a" None)].
Definition oneFailure : ToolRecoveryJournal := Eval vm_compute in journalAfter sampleOps.
Definition boundJournal : ToolRecoveryJournal :=
  Eval vm_compute in journalAfter (sampleOps ++ [jop_response nextResponse]).

Lemma oneFailure_ok : journal_ok oneFailure.
Proof.
  apply (@recordRecoveryFailure_ok host0 (toolRecovery demo) (readFailure "c1" "a" None));
    [by eapply new_journal_ok, demo_journal|vm_compute; reflexivity].
Qed.

Lemma boundJournal_ok : journal_ok boundJournal.
Proof. exact (advance_ok oneFailure nextResponse oneFailure_ok). Qed.


Lemma journal_invalid_is_absorbing_witness :
  let j := refusedJournal sampleKey None (None, None) in
  journalInvalid (recordToolOwnedProgress j
    {| pr_kind := pk_user_action; pr_referenceId := "u"; pr_resolvesFailureIds := None |}) = true.
Proof.
  intros j. apply (@journal_invalid_is_absorbing host0 j
    [jop_progress {| pr_kind := pk_user_action; pr_referenceId := "u"; pr_resolvesFailureIds := None |}]).
  - apply refusedJournal_ok.
  - reflexivity.
  - by repeat constructor.
  - reflexivity.
Defined.

Definition correction : AttemptInput :=
  {| at_toolCallId := "c8"; at_toolName := "read_file"; at_invocationFingerprint := sampleKey;
     at_modelMessageId := "m2"; at_mode := model_correction; at_taskId := Some "a";
     at_turnId := Some "turn" |}%string.


Definition emptyChild : val :=
  VObj [("schemaVersion", VNum (Fin 1)); ("identityKey", VStr sampleKey); ("failures", VObj []);
        ("order", VArr []); ("progressRevision", VNum (Fin 0));
        ("qualityGuard", VObj [("blocked", VBool false); ("observedFailures", VNum (Fin 0))])]%string.

Lemma merge_keeps_parent_evidence_witness :
  exists j, @mergeToolRecoveryJournals host0 oneFailure emptyChild sampleKey (Some "a"%string) None = Ok j
    /\ j_identityKey j = sampleKey.
Proof.
  eexists. split; [vm_compute; reflexivity|].
  destruct (@merge_keeps_parent_evidence host0 oneFailure emptyChild sampleKey (Some "a"%string) None _
    oneFailure_ok ltac:(vm_compute; reflexivity)) as (n & _ & Hk & _). exact Hk.
Defined.

Lemma responses_bind_uniquely_witness :
  bindings_unique (j_failures (advanceToolRecoveryResponse oneFailure nextResponse)).
Proof.
  apply responses_bind_uniquely.
  - exact oneFailure_ok.
  - intros i k f g b Hi Hk _ _. apply oget_In in Hi, Hk.
    destruct Hi as [[= <- _]|[]], Hk as [[= <- _]|[]]. reflexivity.
  - by repeat constructor.
Defined.
