(* ===== verification/NormalizationClaims.v ===== *)
(** * What classification and normalization guarantee

    Every outcome the classifier builds from coherent facts is accepted by the
    strict validator, automatic retries are only ever granted by the authority,
    and the two terminal normalizers agree but for one failure kind. *)

From S2P Require Import Prelude Js Hash State Sample ApprovalQueue Normalization.
From stdpp Require Import prelude strings list.
From Stdlib Require Import ZArith Lia.
Open Scope Z_scope.

(** ** The fields of an outcome *)

(** An outcome with optional failure, replay safety and diagnostics. *)
Definition outcomeOf (status : string) (failure : option val) (a : ToolOutcomeAuthority)
    (replay : option string) (recovery : val) (input : ToolOutcomeClassificationInput)
    (codes : option val) : obj :=
  outcomeHead status (field_if "failure" failure) a ++ field_if "replaySafety" (VStr <$> replay)
  ++ [("recovery", recovery)] ++ outcomeTail input ++ field_if "diagnosticCodes" codes.

Definition of_opt (o : option val) : val := match o with Some v => v | None => VUndef end.

Lemma outcomeOf_get status failure a replay recovery input codes :
  let o := outcomeOf status failure a replay recovery input codes in
  get o "schemaVersion" = VNum (Fin 1) /\ get o "status" = VStr status
  /\ get o "failure" = of_opt failure /\ get o "dispatchState" = VStr (dispatchState a)
  /\ get o "externalEffects" = VStr (externalEffects a)
  /\ get o "replaySafety" = of_opt_str replay /\ get o "recovery" = recovery
  /\ get o "lineage" = of_opt (VObj <$> ci_lineage input)
  /\ get o "timing" = VObj (trustedToolTiming (ci_timing input))
  /\ get o "unknownFields" = of_opt (VObj <$> ci_unknownFields input)
  /\ get o "diagnosticCodes" = of_opt codes /\ allowedKeys o OUTCOME_KEYS = true.
Proof.
  unfold outcomeOf, outcomeHead, outcomeTail.
  destruct failure, replay, codes, (ci_lineage input), (ci_unknownFields input);
    split_and!; reflexivity.
Qed.

(** ** Timing *)

(** No part exceeds the total. *)
Definition part_fits (part total : option Z) : Prop :=
  match part, total with
  | Some p, Some t => 0 <= p -> 0 <= t -> p <= t
  | _, _ => True
  end.

Definition timing_coherent (t : option TimingInput) : Prop :=
  match t with
  | None => True
  | Some t => part_fits (ti_queueMs t) (ti_totalActiveMs t)
              /\ part_fits (ti_executionMs t) (ti_totalActiveMs t)
              /\ part_fits (ti_approvalWaitMs t) (ti_totalActiveMs t)
  end.

Lemma timing_valid t : timing_coherent t -> validTiming (VObj (trustedToolTiming t)) = true.
Proof.
  destruct t as [[q e w t]|]; [|reflexivity]. intros (Hq & He & Hw).
  unfold trustedToolTiming, durationField, part_fits in *. simpl in *.
  destruct q as [q|], e as [e|], w as [w|], t as [t|];
    repeat match goal with
    | |- context [if (0 <=? ?z) then _ else _] => destruct (Z.leb_spec 0 z)
    end;
    unfold validTiming, allowedKeys, exceedsTotal, finiteDuration; cbn;
    repeat match goal with
    | H : 0 <= ?z |- context [0 <=? ?z] => rewrite (proj2 (Z.leb_le 0 z) H)
    | |- context [?t <? ?z] => rewrite (proj2 (Z.ltb_ge t z)) by lia
    end; reflexivity.
Qed.

(** ** Recovery *)

(** The recoveries the classifier produces, before a capability intent. *)
Inductive recovery_form (a : ToolOutcomeAuthority) : string -> Z -> bool -> bool -> option Z -> Prop :=
| form_never : recovery_form a "never" 0 false false None
| form_user : recovery_form a "user_action" 0 false false None
| form_args : recovery_form a "correct_args" 1 true false None
| form_alternative : recovery_form a "alternative" 1 true false None
| form_retry after :
    automaticRetryAuthoritative a = true ->
    match after with Some z => 0 <= z | None => True end ->
    recovery_form a "retry_once" 1 false true after.

Definition formed (a : ToolOutcomeAuthority) (r : ToolRecovery) : Prop :=
  recovery_form a (disposition r) (maximumAdditionalCalls r) (requiresNewModelResponse r)
    (safeAutomaticRetry r) (retryAfterMs r).

Definition intent_ok (o : option val) : bool :=
  match o with
  | None | Some VUndef | Some VNull => true
  | Some (VStr s) => isCapabilityIntent s
  | Some _ => false
  end.

(** The plain recovery of a strategy. *)
Lemma baseRecovery_cases f :
  baseRecovery f = NEVER_RECOVERY \/ baseRecovery f = recoveryOfKind "user_action" 0 false
  \/ baseRecovery f = recoveryOfKind "correct_args" 1 true
  \/ baseRecovery f = recoveryOfKind "retry_once" 1 false.
Proof. unfold baseRecovery. repeat case_match; auto. Qed.

Lemma ceilingRecovery_cases input f :
  ceilingRecovery input f = NEVER_RECOVERY
  \/ (ceilingRecovery input f = baseRecovery f
      /\ policyDenied (ci_authority input) = false /\ approvalDenied (ci_authority input) = false
      /\ str_in (ci_status input) ["cancelled"; "timed_out"; "exhausted"] = false
      /\ externalEffects (ci_authority input) <> "unknown"%string).
Proof.
  unfold ceilingRecovery. destruct (_ || _) eqn:E; [by left|right].
  apply orb_false_iff in E as [E E4]. apply orb_false_iff in E as [E E3].
  apply orb_false_iff in E as [E1 E2]. apply eqb_false in E4. by split_and!.
Qed.

Definition ALTERNATIVE : ToolRecovery := recoveryOfKind "alternative" 1 true.

Lemma advisedDisposition_cases advice r :
  In r [NEVER_RECOVERY; recoveryOfKind "user_action" 0 false; recoveryOfKind "correct_args" 1 true;
        recoveryOfKind "retry_once" 1 false] ->
  advisedDisposition advice r = NEVER_RECOVERY \/ advisedDisposition advice r = r
  \/ (r = recoveryOfKind "correct_args" 1 true /\ advisedDisposition advice r = ALTERNATIVE).
Proof.
  intros Hin. unfold advisedDisposition.
  destruct (is_str (get advice "disposition") "never"); [by left|].
  repeat (destruct Hin as [<-|Hin]); [..|done]; cbn; repeat case_match;
    first [by left | right; by left | right; right; by split].
Qed.

(** Recoveries that are neither a retry nor carry an intent. *)
Definition plain (r : ToolRecovery) : Prop :=
  r = NEVER_RECOVERY \/ r = recoveryOfKind "user_action" 0 false
  \/ r = recoveryOfKind "correct_args" 1 true \/ r = ALTERNATIVE.

Lemma plain_formed a r : plain r -> formed a r /\ capabilityIntent r = None.
Proof. intros [->|[->|[->| ->]]]; split; try done; constructor. Qed.

Lemma settledRetry_spec a advice r :
  plain r \/ r = recoveryOfKind "retry_once" 1 false ->
  let r' := settledRetry a advice r in
  formed a r' /\ capabilityIntent r' = None
  /\ (disposition r' = "never" \/ disposition r' = disposition r)%string.
Proof.
  intros [Hp| ->]; simpl.
  - destruct (plain_formed a r Hp) as [Hf Hc].
    assert (settledRetry a advice r = r) as ->; [|by auto].
    by destruct Hp as [->|[->|[->| ->]]].
  - unfold settledRetry. cbn. destruct (automaticRetryAuthoritative a) eqn:Ea; cbn;
      [|by split_and!; [constructor|..|left]].
    destruct (is_false _); cbn; [by split_and!; [constructor|..|left]|].
    split_and!; [|done|by right]. constructor; [done|]. simpl.
    unfold finiteDuration. repeat case_match; simplify_eq; try done. lia.
Qed.

(** Advice only lowers: the result is formed, and it is [never] or the ceiling's
    own disposition, or [alternative] under [correct_args]. *)
Lemma advisedRecovery_spec a advice r :
  In r [NEVER_RECOVERY; recoveryOfKind "user_action" 0 false; recoveryOfKind "correct_args" 1 true;
        recoveryOfKind "retry_once" 1 false] ->
  let r' := advisedRecovery a advice r in
  formed a r'
  /\ (disposition r' = "never" \/ disposition r' = disposition r
      \/ disposition r = "correct_args" /\ disposition r' = "alternative")%string
  /\ capabilityIntent r' =
       (if truthy (get advice "capabilityIntent")
           && isCapabilityIntent (js_string (get advice "capabilityIntent"))
        then Some (get advice "capabilityIntent") else None).
Proof.
  intros Hin. unfold advisedRecovery. set (d := advisedDisposition advice r).
  assert ((plain d \/ d = recoveryOfKind "retry_once" 1 false)
    /\ (disposition d = "never" \/ disposition d = disposition r
        \/ disposition r = "correct_args" /\ disposition d = "alternative")%string) as [Hd Hdd].
  { unfold plain, d in *. destruct (advisedDisposition_cases advice r Hin) as [->|[->|[-> ->]]].
    - split; [auto|]. by left.
    - split; [|auto]. repeat (destruct Hin as [<-|Hin]); [..|done]; auto 6.
    - split; [auto 6|]. right. by right. }
  destruct (settledRetry_spec a advice d Hd) as (Hf & Hc & Hs).
  set (s := settledRetry a advice d) in *.
  assert (formed a (if is_num (get advice "maximumAdditionalCalls") 0 then NEVER_RECOVERY else s)
    /\ capabilityIntent (if is_num (get advice "maximumAdditionalCalls") 0 then NEVER_RECOVERY else s)
       = None
    /\ (disposition (if is_num (get advice "maximumAdditionalCalls") 0 then NEVER_RECOVERY else s)
         = "never" \/ disposition (if is_num (get advice "maximumAdditionalCalls") 0
                                   then NEVER_RECOVERY else s) = disposition d)%string)
    as (Hf' & Hc' & Hs').
  { destruct (is_num _ _); [split_and!; [constructor|done|by left]|done]. }
  destruct (truthy _ && _); cbn; (split_and!; [done| |done]);
    destruct Hs' as [->| ->]; auto.
Qed.

Definition recoveryObj (r : ToolRecovery) : obj := jsonRecord (recoveryJson r).

Lemma recoveryObj_get r :
  get (recoveryObj r) "disposition" = VStr (disposition r)
  /\ get (recoveryObj r) "maximumAdditionalCalls" = VNum (Fin (maximumAdditionalCalls r))
  /\ get (recoveryObj r) "requiresNewModelResponse" = VBool (requiresNewModelResponse r)
  /\ get (recoveryObj r) "safeAutomaticRetry" = VBool (safeAutomaticRetry r)
  /\ get (recoveryObj r) "retryAfterMs" = of_opt ((fun z => VNum (Fin z)) <$> retryAfterMs r)
  /\ get (recoveryObj r) "capabilityIntent" = of_opt (capabilityIntent r)
  /\ allowedKeys (recoveryObj r)
       ["disposition"; "maximumAdditionalCalls"; "requiresNewModelResponse"; "safeAutomaticRetry";
        "retryAfterMs"; "capabilityIntent"] = true.
Proof.
  unfold recoveryObj, recoveryJson. destruct (retryAfterMs r), (capabilityIntent r);
    split_and!; reflexivity.
Qed.

Lemma recovery_valid a r :
  formed a r -> intent_ok (capabilityIntent r) = true ->
  validRecoveryShape (recoveryObj r) = true
  /\ recoveryMatrixValid (dispatchState a) (externalEffects a) (opt_nonempty (replaySafety a))
       (recoveryObj r) = true.
Proof.
  intros Hf Hi. destruct (recoveryObj_get r) as (Gd & Gm & Gn & Gs & Ga & Gc & Gk).
  unfold validRecoveryShape, recoveryMatrixValid. rewrite Gk, Gd, Gm, Gn, Gs, Ga, Gc.
  unfold formed in Hf.
  assert (match of_opt (capabilityIntent r) with
          | VUndef | VNull => true | VStr s => isCapabilityIntent s | _ => false end = true) as Hc.
  { destruct (capabilityIntent r) as [[]|]; simpl in *; done. }
  rewrite Hc. clear Hc Gd Gm Gn Gs Ga Gc Gk.
  destruct Hf as [ | | | |after Ha Haf]; cbn; try done.
  split.
  - destruct after as [z|]; [|done]. cbn. by rewrite (proj2 (Z.leb_le 0 z) Haf).
  - unfold automaticRetryAuthoritative in Ha.
    destruct (dispatchState a =s "not_started") eqn:E1, (externalEffects a =s "none") eqn:E2; simpl in *;
      try done;
      destruct (dispatchState a =s "started") eqn:E3, (externalEffects a =s "unknown") eqn:E4;
        simpl in *; try done;
      destruct (replaySafety a) as [s|]; try done; simpl in *; by destruct (str_nonempty s) eqn:E5;
        [|destruct s].
Qed.

(** ** Failures *)

Lemma details_known : forallb (fun k => forallb (fun d => str_in d DETAIL_CODES) (detailsOf k))
  FAILURE_KINDS = true.
Proof. reflexivity. Qed.

Lemma detail_in_vocabulary kind d :
  str_in kind FAILURE_KINDS = true -> str_in d (detailsOf kind) = true -> str_in d DETAIL_CODES = true.
Proof.
  intros Hk Hd. pose proof details_known as Ha. rewrite forallb_forall in Ha.
  specialize (Ha kind ltac:(by apply str_in_true)). rewrite forallb_forall in Ha.
  apply Ha. by apply str_in_true.
Qed.

(** A failure whose flags, parse code and authority agree with its kind. *)
Record failure_coherent (input : ToolOutcomeClassificationInput) (f : ClassifiedFailure) : Prop := {
  fc_kind : str_in (cf_kind f) FAILURE_KINDS = true;
  fc_strategy : disposition (baseRecovery f) = "never"%string
                \/ disposition (baseRecovery f)
                   = disposition (baseRecovery (classifyRuntimeFailure (cf_kind f) "redacted" None));
  fc_detail : str_in (detailForFailure f) (detailsOf (cf_kind f)) = true;
  fc_denied : str_in (cf_kind f) DENIED_KINDS = true ->
              policyDenied (ci_authority input) || approvalDenied (ci_authority input) = true;
  fc_rejected : ci_status input = "rejected"%string ->
                disposition (ceilingRecovery input f) <> "retry_once"%string }.

Record coherent (input : ToolOutcomeClassificationInput) : Prop := {
  co_status : In (ci_status input)
    ["success"; "failed"; "rejected"; "cancelled"; "timed_out"; "exhausted"]%string;
  co_dispatch : In (dispatchState (ci_authority input)) ["not_started"; "started"; "unknown"]%string;
  co_effects : In (externalEffects (ci_authority input)) ["none"; "known"; "unknown"]%string;
  co_replay : validReplay (dispatchState (ci_authority input)) (externalEffects (ci_authority input))
                (opt_nonempty (replaySafety (ci_authority input))) = true;
  co_failure : forall f, ci_failure input = Some f -> failure_coherent input f;
  co_timing : timing_coherent (ci_timing input);
  co_lineage : forall l, ci_lineage input = Some l -> validLineage (VObj l) = true;
  co_unknown : forall u, ci_unknownFields input = Some u -> validUnknownFields (VObj u) = true;
  co_intent : match get (default [] (ci_toolAdvice input)) "capabilityIntent" with
              | VStr _ => True | v => truthy v = false end;
  co_diagnostic : forall d, opt_nonempty (ci_classifierDiagnostic input) = Some d ->
                  In d DIAGNOSTIC_CODES }.

(** The parts of the validator that do not depend on the failure. *)
Lemma outcome_frame_valid input status failure replay r codes :
  coherent input -> In status OUTCOME_STATUSES ->
  validReplay (dispatchState (ci_authority input)) (externalEffects (ci_authority input)) replay = true ->
  validFailure status (of_opt failure) = true ->
  validRecoveryShape (recoveryObj r) = true ->
  recoveryMatrixValid (dispatchState (ci_authority input)) (externalEffects (ci_authority input))
    replay (recoveryObj r) = true ->
  validForStatus status (recoveryObj r) = true ->
  validForKind status (of_opt failure) (recoveryObj r) = true ->
  validDiagnostics status (of_opt failure) (of_opt codes) = true ->
  isToolOutcome (VObj (outcomeOf status failure (ci_authority input) replay (recoveryJson r) input codes))
  = true.
Proof.
  intros Hc Hs Hr Hf H1 H2 H3 H4 H5.
  destruct (outcomeOf_get status failure (ci_authority input) replay (recoveryJson r) input codes)
    as (G1 & G2 & G3 & G4 & G5 & G6 & G7 & G8 & G9 & G10 & G11 & G12).
  unfold isToolOutcome, validOutcomeHeader.
  rewrite G1, G2, G3, G4, G5, G6, G7, G8, G9, G10, G11, G12. cbn [js_string].
  change (recoveryJson r) with (VObj (recoveryObj r)). cbv iota beta.
  rewrite (proj2 (str_in_true _ _) Hs), (proj2 (str_in_true _ _) (co_dispatch input Hc)),
    (proj2 (str_in_true _ _) (co_effects input Hc)).
  assert (replay = if is_nullish (of_opt_str replay) then None else Some (js_string (of_opt_str replay)))
    as <- by by destruct replay.
  rewrite Hr, Hf, H1, H2, H3, H4, H5, (timing_valid _ (co_timing input Hc)). cbn [andb is_num Z.eqb Pos.eqb].
  destruct (ci_lineage input) as [l|] eqn:El; cbn [fmap option_fmap option_map of_opt];
    rewrite ?(co_lineage input Hc _ El);
    destruct (ci_unknownFields input) as [u|] eqn:Eu; cbn [fmap option_fmap option_map of_opt];
    rewrite ?(co_unknown input Hc _ Eu); reflexivity.
Qed.

Lemma never_valid a input :
  coherent input -> ci_authority input = a ->
  validReplay (dispatchState a) (externalEffects a) None = true.
Proof.
  intros Hc <-. pose proof (co_replay input Hc) as Hr. unfold validReplay in *.
  apply andb_true_iff in Hr as [_ Hr]. apply negb_true_iff in Hr.
  apply orb_false_iff in Hr as [_ Hr]. cbn. by rewrite Hr, andb_false_r.
Qed.

Lemma diagnostic_canonical input code :
  coherent input -> In code DIAGNOSTIC_CODES ->
  isToolOutcome (VObj (diagnosticOutcome input code)) = true.
Proof.
  intros Hc Hin.
  change (diagnosticOutcome input code)
    with (outcomeOf "unknown" (Some (failureJson "unknown" code)) (ci_authority input) None
            (recoveryJson NEVER_RECOVERY) input (Some (VArr [VStr code]))).
  apply outcome_frame_valid; try done; try (by eapply never_valid).
  - simpl; auto 10.
  - by repeat (destruct Hin as [<-|Hin]; [reflexivity|]).
  - by repeat (destruct Hin as [<-|Hin]; [reflexivity|]).
Qed.

Lemma status_known input : coherent input -> (ci_status input =s "unknown") = false.
Proof.
  intros Hc. pose proof (co_status input Hc) as Hin.
  by repeat (destruct Hin as [<-|Hin]; [reflexivity|]).
Qed.

(** The classified branch. *)
Lemma classified_canonical input f r detail :
  coherent input -> ci_failure input = Some f -> ci_status input <> "success"%string ->
  str_in detail (detailsOf (cf_kind f)) = true ->
  formed (ci_authority input) r -> intent_ok (capabilityIntent r) = true ->
  (disposition r = "never" \/ disposition r = disposition (ceilingRecovery input f)
   \/ disposition (ceilingRecovery input f) = "correct_args" /\ disposition r = "alternative")%string ->
  isToolOutcome (VObj (outcomeOf (ci_status input) (Some (failureJson (cf_kind f) detail))
    (ci_authority input) (opt_nonempty (replaySafety (ci_authority input))) (recoveryJson r) input None))
  = true.
Proof.
  intros Hc Ef Hs Hd Hr Hi Hdis. destruct (co_failure input Hc f Ef) as [Fk Fs Fd Fden Frej].
  destruct (recovery_valid _ _ Hr Hi) as [V1 V2].
  destruct (recoveryObj_get r) as (Gd & _).
  apply eqb_false in Hs.
  apply outcome_frame_valid; try done; try apply Hc.
  - pose proof (co_status input Hc) as Hst. unfold OUTCOME_STATUSES. simpl in *. tauto.
  - unfold validFailure. rewrite Hs. unfold of_opt, failureJson. cbv iota beta.
    change (get _ "kind") with (VStr (cf_kind f)). change (get _ "detailCode") with (VStr detail).
    unfold isToolFailureKind, isToolOutcomeDetailCode.
    by rewrite Fk, (detail_in_vocabulary _ _ Fk Hd).
  - unfold validForStatus. rewrite Gd, Hs. cbn [is_str andb negb].
    destruct (ceilingRecovery_cases input f) as [Hce|(Hce & _ & _ & Hst & _)].
    + rewrite Hce in Hdis. destruct Hdis as [->|[->|[? _]]]; cbn; rewrite ?andb_false_r; done.
    + destruct (ci_status input =s "rejected") eqn:Erj.
      * apply eqb_true in Erj. specialize (Frej Erj). rewrite Erj.
        destruct (String.eqb_spec (disposition r) "retry_once"); [|reflexivity].
        destruct Hdis as [?|[?|[_ ?]]]; congruence.
      * cbn [andb negb].
        assert (str_in (ci_status input) ["cancelled"; "timed_out"; "exhausted"; "unknown"] = false)
          as ->; [|reflexivity].
        pose proof (co_status input Hc) as Hin.
        repeat (destruct Hin as [Hin|Hin]; [rewrite <- Hin in *; first [done|reflexivity]|]). done.
  - unfold validForKind. rewrite Hs, (status_known input Hc). cbn [of_opt failureJson orb].
    change (get _ "kind") with (VStr (cf_kind f)). change (get _ "detailCode") with (VStr detail).
    cbn [js_string]. rewrite Hd, Gd. cbn [orb andb is_str].
    set (au := disposition (baseRecovery (classifyRuntimeFailure (cf_kind f) "redacted" None))) in *.
    destruct (ceilingRecovery_cases input f) as [Hce|(Hce & Hpd & Had & _ & _)]; rewrite Hce in Hdis.
    + assert (disposition r = "never"%string) as -> by (destruct Hdis as [?|[?|[? _]]]; done).
      cbn. by rewrite andb_false_r.
    + destruct (str_in (cf_kind f) DENIED_KINDS) eqn:Ed.
      { specialize (Fden eq_refl). by rewrite Hpd, Had in Fden. }
      cbn. destruct Hdis as [->|[Hdr|[Hb ->]]]; [done| |].
      * rewrite Hdr. destruct Fs as [->| ->]; [done|]. by rewrite String.eqb_refl, orb_true_r.
      * destruct Fs as [Fs|Fs]; rewrite Fs in Hb; [done|]. rewrite Hb. done.
  - unfold validDiagnostics. by rewrite (status_known input Hc).
Qed.

Lemma classified_canonical_of input :
  coherent input -> isToolOutcome (VObj (classifyToolOutcome input)) = true.
Proof.
  intros Hc. unfold classifyToolOutcome.
  destruct (ci_status input =s "success") eqn:Es.
  { assert (isToolOutcome (VObj (outcomeOf "success" None (ci_authority input)
      (opt_nonempty (replaySafety (ci_authority input))) (recoveryJson NEVER_RECOVERY) input None)) = true)
      as Hok by (apply outcome_frame_valid; try done; [by left|apply Hc]).
    unfold outcomeOf in Hok. by rewrite !app_nil_r in Hok. }
  apply eqb_false in Es. set (advice := default [] (ci_toolAdvice input)).
  destruct (invalidAdvice advice); [by apply diagnostic_canonical; [|right; right; right; left]|].
  destruct (conflictingAdviceDetail (ci_failure input) advice) eqn:Ec;
    [by apply diagnostic_canonical; [|right; right; left]|].
  destruct (opt_nonempty (ci_classifierDiagnostic input)) as [d|] eqn:Ed;
    [by apply diagnostic_canonical; [|by apply (co_diagnostic input Hc)]|].
  destruct (ci_failure input) as [f|] eqn:Ef; [|by apply diagnostic_canonical; [|left]].
  destruct (conflictsWithCeiling _ _ _); [by apply diagnostic_canonical; [|right; right; left]|].
  destruct (co_failure input Hc f Ef) as [Fk _ Fd _ _].
  destruct (advisedRecovery_spec (ci_authority input) advice (ceilingRecovery input f))
    as (Hr & Hdis & Hint).
  { destruct (ceilingRecovery_cases input f) as [->|[-> _]]; [by left|].
    destruct (baseRecovery_cases f) as [->|[->|[->| ->]]]; simpl; auto. }
  assert (str_in (adviceDetail advice f) (detailsOf (cf_kind f)) = true) as Hdet.
  { unfold adviceDetail, conflictingAdviceDetail in *.
    destruct (get advice "detailCode"); try done. destruct (str_in s DETAIL_CODES); [|done].
    simpl in Ec. by apply negb_false_iff in Ec. }
  assert (intent_ok (capabilityIntent (advisedRecovery (ci_authority input) advice
            (ceilingRecovery input f))) = true) as Hok.
  { rewrite Hint. pose proof (co_intent input Hc) as Hi. fold advice in Hi.
    destruct (get advice "capabilityIntent"); try (by rewrite Hi).
    destruct (truthy _ && isCapabilityIntent _) eqn:Et; [|done].
    by apply andb_true_iff in Et as [_ Et]. }
  pose proof (classified_canonical input f _ _ Hc Ef Es Hdet Hr Hok Hdis) as Hfin.
  unfold outcomeOf in Hfin. rewrite !app_nil_r in Hfin. exact Hfin.
Qed.

(** The shape of every classified outcome. *)
Lemma classify_shape input :
  exists status failure replay r codes,
    classifyToolOutcome input
    = outcomeOf status failure (ci_authority input) replay (recoveryJson r) input codes
    /\ (r = NEVER_RECOVERY
        \/ exists f, ci_failure input = Some f /\ ci_status input <> "success"%string
             /\ r = advisedRecovery (ci_authority input) (default [] (ci_toolAdvice input))
                      (ceilingRecovery input f)).
Proof.
  assert (forall code, exists status failure replay r codes, diagnosticOutcome input code
    = outcomeOf status failure (ci_authority input) replay (recoveryJson r) input codes
    /\ r = NEVER_RECOVERY) as Hd.
  { intros code. by exists "unknown"%string, (Some (failureJson "unknown" code)), None, NEVER_RECOVERY,
      (Some (VArr [VStr code])). }
  assert (forall code, exists status failure replay r codes, diagnosticOutcome input code
    = outcomeOf status failure (ci_authority input) replay (recoveryJson r) input codes
    /\ (r = NEVER_RECOVERY
        \/ exists f, ci_failure input = Some f /\ ci_status input <> "success"%string
             /\ r = advisedRecovery (ci_authority input) (default [] (ci_toolAdvice input))
                      (ceilingRecovery input f))) as Hdiag.
  { intros code. destruct (Hd code) as (st & fa & re & r & co & E & ->). repeat eexists; eauto. }
  unfold classifyToolOutcome. destruct (ci_status input =s "success") eqn:Es.
  { exists "success"%string, None, (opt_nonempty (replaySafety (ci_authority input))), NEVER_RECOVERY, None.
    split; [|by left]. unfold outcomeOf. by rewrite !app_nil_r. }
  apply eqb_false in Es. destruct (invalidAdvice _); [apply Hdiag|].
  destruct (conflictingAdviceDetail _ _); [apply Hdiag|].
  destruct (opt_nonempty (ci_classifierDiagnostic input)); [apply Hdiag|].
  destruct (ci_failure input) as [f|]; [|apply Hdiag].
  destruct (conflictsWithCeiling _ _ _); [apply Hdiag|].
  eexists _, (Some _), (opt_nonempty (replaySafety (ci_authority input))), _, None.
  split; [unfold outcomeOf; rewrite !app_nil_r; reflexivity|]. right. by eexists.
Qed.

(** An automatic retry is granted by the authority alone.  Whatever the
    advice, an outcome that allows one comes from a retryable failure that the
    model cannot fix, was neither denied nor cancelled, timed out or exhausted,
    and either never started or started a replay-safe call of known effects. *)
Theorem automatic_retry_is_authorized input :
  get (jsonRecord (get (classifyToolOutcome input) "recovery")) "safeAutomaticRetry" = VBool true ->
  exists f, ci_failure input = Some f
    /\ retryable (cf_strategy f) = true /\ modelFixable (cf_strategy f) = false
    /\ automaticRetryAuthoritative (ci_authority input) = true
    /\ policyDenied (ci_authority input) = false /\ approvalDenied (ci_authority input) = false
    /\ ~ In (ci_status input) ["success"; "cancelled"; "timed_out"; "exhausted"]%string
    /\ externalEffects (ci_authority input) <> "unknown"%string.
Proof.
  destruct (classify_shape input) as (st & fa & re & r & co & -> & Hr).
  destruct (outcomeOf_get st fa (ci_authority input) re (recoveryJson r) input co)
    as (_ & _ & _ & _ & _ & _ & -> & _).
  destruct (recoveryObj_get r) as (_ & _ & _ & Gs & _). unfold recoveryObj in Gs. rewrite Gs.
  intros [= Hs]. destruct Hr as [->|(f & Hf & Hst & ->)]; [done|]. exists f.
  destruct (advisedRecovery_spec (ci_authority input) (default [] (ci_toolAdvice input))
    (ceilingRecovery input f)) as (Hfo & Hdi & _).
  { destruct (ceilingRecovery_cases input f) as [->|[-> _]]; [by left|].
    destruct (baseRecovery_cases f) as [->|[->|[->| ->]]]; simpl; auto. }
  unfold formed in Hfo. rewrite Hs in Hfo. inversion Hfo as [ | | | |after Ha _].
  destruct (ceilingRecovery_cases input f) as [Hce|(Hce & Hp & Hap & Hss & Heff)]; rewrite Hce in Hdi;
    [by destruct Hdi as [?|[?|[? _]]]|].
  assert (disposition (baseRecovery f) = "retry_once"%string) as Hb
    by (destruct Hdi as [?|[?|[? ?]]]; congruence).
  unfold baseRecovery in Hb.
  destruct (modelFixable _) eqn:Em; [done|]. destruct (retryable _) eqn:Er; [|by repeat case_match].
  split_and!; try done. intros [Hin|Hin]; [congruence|]. apply str_in_true in Hin. by rewrite Hin in Hss.
Qed.

(** A transport failure of a call that never started. *)
Definition transportFailure : ToolOutcomeClassificationInput :=
  {| ci_status := "failed";
     ci_failure := Some (classifyRuntimeFailure "provider_unavailable" "down" None);
     ci_authority := {| dispatchState := "not_started"; externalEffects := "none";
                        replaySafety := Some "pre_dispatch"; policyDenied := false;
                        approvalDenied := false |};
     ci_toolAdvice := None; ci_lineage := None; ci_timing := None; ci_unknownFields := None;
     ci_classifierDiagnostic := None |}%string.

Lemma automatic_retry_is_authorized_witness :
  exists f, ci_failure transportFailure = Some f /\ modelFixable (cf_strategy f) = false.
Proof.
  destruct (automatic_retry_is_authorized transportFailure) as (f & Hf & _ & Hm & _); [reflexivity|].
  exists f. split; [exact Hf|exact Hm].
Defined.
