(* ===== verification/NormalizationEvents.v ===== *)
(** * Normalized events are canonical

    The outcomes [decide] attaches to terminal tool events, rejected approvals
    and rejecting reviews pass the assertion [reduceAgentState] makes before any
    reducer runs, given calls and clocks that agree. *)

From S2P Require Import Prelude Js Hash State Sample ApprovalQueue Normalization HashCorrect NormalizationClaims.
From stdpp Require Import prelude strings list.
From Stdlib Require Import ZArith Lia.
Open Scope Z_scope.

(** ** Failures of an event *)

(** A failure as its kind prescribes it. *)
Definition by_the_book (f : ClassifiedFailure) : Prop :=
  str_in (cf_kind f) FAILURE_KINDS = true /\ cf_strategy f = strategyOf (cf_kind f)
  /\ match cf_parseFailureCode f with
     | Some code => str_in code PARSE_FAILURE_CODES = true
                    /\ str_in code (detailsOf (cf_kind f)) = true
     | None => True
     end.

Lemma mapped_details_known :
  forallb (fun k => str_in (default "unknown"%string (oget k mappedDetail)) (detailsOf k))
    FAILURE_KINDS = true.
Proof. reflexivity. Qed.

Lemma book_detail f :
  by_the_book f -> str_in (detailForFailure f) (detailsOf (cf_kind f)) = true.
Proof.
  intros (Hk & _ & Hp). unfold detailForFailure.
  assert (str_in (default "unknown"%string (oget (cf_kind f) mappedDetail)) (detailsOf (cf_kind f))
    = true) as Hm.
  { pose proof mapped_details_known as Ha. rewrite forallb_forall in Ha.
    apply Ha. by apply str_in_true. }
  destruct (cf_parseFailureCode f) as [code|]; [|done]. destruct Hp as [-> ->]. done.
Qed.

Lemma book_strategy f :
  by_the_book f -> disposition (baseRecovery f)
    = disposition (baseRecovery (classifyRuntimeFailure (cf_kind f) "redacted" None)).
Proof. intros (_ & Hs & _). unfold baseRecovery. simpl. by rewrite Hs. Qed.

Lemma classified_book kind message :
  str_in kind FAILURE_KINDS = true -> by_the_book (classifyRuntimeFailure kind message None).
Proof. intros Hk. by split_and!. Qed.

(** The failures of an event: what it supplies is by the book. *)
Definition supplies_book (event : obj) : Prop :=
  forall f, suppliedFailure (recordField event "failure") = Some f -> by_the_book f.

Lemma failureFor_book event f :
  supplies_book event -> failureFor event = Some f -> by_the_book f.
Proof.
  intros Hs. unfold failureFor. destruct (suppliedFailure _) as [g|] eqn:E.
  { intros [= <-]. by apply Hs. }
  repeat case_match; intros; simplify_eq; by apply classified_book.
Qed.

(** ** Clocks *)

(** Two instants in order, where both are known. *)
Definition in_order (a b : option string) : Prop :=
  match epochMillis a, epochMillis b with Some x, Some y => x <= y | _, _ => True end.

Definition clocks_agree (call : option AgentToolCallState) (createdAt : string) : Prop :=
  in_order (call ≫= tc_queuedAt) (call ≫= tc_startedAt)
  /\ in_order (call ≫= tc_startedAt) (Some createdAt)
  /\ part_fits (call ≫= tc_approvalWaitMs) (durationBetween (call ≫= tc_queuedAt) createdAt).

Lemma durationBetween_some start finish d :
  durationBetween start finish = Some d ->
  exists s e, epochMillis start = Some s /\ epochMillis (Some finish) = Some e /\ s <= e /\ d = e - s.
Proof.
  unfold durationBetween. destruct (epochMillis start) as [s|]; [|done].
  destruct (epochMillis (Some finish)) as [e|]; [|done].
  destruct (Z.ltb_spec e s); [done|]. intros [= <-]. by exists s, e.
Qed.

Lemma timing_of_clocks call createdAt :
  clocks_agree call createdAt ->
  timing_coherent (Some {|
    ti_queueMs := durationBetween (call ≫= tc_queuedAt) (default createdAt (call ≫= tc_startedAt));
    ti_executionMs := durationBetween (call ≫= tc_startedAt) createdAt;
    ti_approvalWaitMs := call ≫= tc_approvalWaitMs;
    ti_totalActiveMs := durationBetween (call ≫= tc_queuedAt) createdAt |}).
Proof.
  intros (Hqs & Hsc & Hw). unfold in_order in *. simpl. split_and!; [| |done].
  - unfold part_fits. destruct (durationBetween _ (default _ _)) as [q|] eqn:Eq; [|done].
    destruct (durationBetween (call ≫= tc_queuedAt) createdAt) as [t|] eqn:Et; [|done]. intros _ _.
    apply durationBetween_some in Eq as (s & e & Es & Ee & _ & ->).
    apply durationBetween_some in Et as (s' & e' & Es' & Ee' & _ & ->).
    rewrite Es in Es'. injection Es' as <-.
    destruct (call ≫= tc_startedAt); simpl in Ee; rewrite Ee in *; [rewrite Ee' in Hsc; lia|].
    injection Ee' as <-. lia.
  - unfold part_fits. destruct (durationBetween (call ≫= tc_startedAt) _) as [q|] eqn:Eq; [|done].
    destruct (durationBetween (call ≫= tc_queuedAt) createdAt) as [t|] eqn:Et; [|done]. intros _ _.
    apply durationBetween_some in Eq as (s & e & Es & Ee & _ & ->).
    apply durationBetween_some in Et as (s' & e' & Es' & Ee' & _ & ->).
    rewrite Ee in Ee'. injection Ee' as <-. rewrite Es, Es' in Hqs. lia.
Qed.

(** ** Calls *)

(** What the state records of a call is well formed. *)
Record call_coherent (call : option AgentToolCallState) : Prop := {
  cc_unknown : forall u, call ≫= tc_unknownFields = Some u -> validUnknownFields (VObj u) = true;
  cc_lineage : forall id, opt_nonempty (call ≫= tc_recoveryOf) = Some id -> isHex64 id = true;
  cc_reads : call ≫= tc_effectClass = Some read_only -> call ≫= tc_sideEffect <> Some true }.

Lemma authority_coherent call inActive event result :
  call_coherent call ->
  let dispatch := dispatchStateOf call inActive in
  let effects := externalEffectsOf call dispatch event result in
  In dispatch ["not_started"; "started"; "unknown"]%string
  /\ In effects ["none"; "known"; "unknown"]%string
  /\ validReplay dispatch effects (opt_nonempty (Some (replaySafetyOf call dispatch effects))) = true.
Proof.
  intros [_ _ Hr] dispatch effects.
  assert (In dispatch ["not_started"; "started"; "unknown"]%string) as Hd.
  { unfold dispatch, dispatchStateOf. repeat case_match; simpl; auto. }
  split; [done|]. unfold effects, externalEffectsOf, replaySafetyOf.
  destruct (bool_decide (call ≫= tc_effectClass = Some read_only)) eqn:Er.
  - apply bool_decide_eq_true in Er. specialize (Hr Er).
    rewrite (bool_decide_eq_false_2 (call ≫= tc_sideEffect = Some true)) by done.
    repeat (destruct Hd as [<-|Hd]; [split; repeat case_match; simpl; auto|]). done.
  - rewrite andb_false_r.
    repeat (destruct Hd as [<-|Hd]; [split; repeat case_match; simpl; auto|]). done.
Qed.

(** ** Terminal tool events *)

(** What the event itself contributes is well formed. *)
Record event_coherent (event : obj) : Prop := {
  ec_failure : supplies_book event;
  ec_rejected : forall f, failureFor event = Some f -> ev_type event = "tool.rejected"%string ->
                disposition (baseRecovery f) <> "retry_once"%string;
  ec_intent : match get (default [] (recordField event "classifierAdvice")) "capabilityIntent" with
              | VStr _ => True | v => truthy v = false end;
  ec_diagnostic : forall d, opt_nonempty (stringField event "classifierDiagnostic") = Some d ->
                  In d DIAGNOSTIC_CODES }.

Lemma terminalStatus_cases event result failure :
  In (terminalStatus event result failure)
    ["success"; "failed"; "rejected"; "cancelled"; "timed_out"; "exhausted"]%string
  /\ (terminalStatus event result failure = "rejected"%string ->
      ev_type event = "tool.rejected"%string).
Proof.
  unfold terminalStatus. destruct (ev_type event =s "tool.rejected") eqn:E; apply eqb_true in E || clear E.
  - rewrite E. simpl. auto.
  - repeat case_match; simpl; split; auto 10; done.
Qed.

Lemma diagnosticOf_known call event status failure advice :
  event_coherent event ->
  forall d, opt_nonempty (diagnosticOf call event status failure advice) = Some d ->
  In d DIAGNOSTIC_CODES.
Proof.
  intros He d. unfold diagnosticOf. destruct (_ && _); [|done].
  destruct (stringField event "classifierDiagnostic") eqn:E.
  - rewrite <- E. apply He.
  - destruct (is_some advice); [done|]. intros [= <-]. by left.
Qed.

Lemma adviceOf_intent call event result :
  event_coherent event ->
  match get (default [] (adviceOf call event result)) "capabilityIntent" with
  | VStr _ => True | v => truthy v = false end.
Proof.
  intros He. unfold adviceOf. destruct (refusedRecovery call); [done|].
  destruct (_ && _); [|done]. apply He.
Qed.

(** The denial flags cover the denied kinds. *)
Lemma denied_flagged f :
  str_in (cf_kind f) DENIED_KINDS = true ->
  kindIn (Some f) ["policy_denied"; "mandatory_policy_unavailable"]
  || kindIn (Some f) ["approval_rejected"; "auto_review_rejected"] = true.
Proof.
  intros Hin. apply str_in_true in Hin. unfold kindIn.
  by repeat (destruct Hin as [<-|Hin]; [reflexivity|]).
Qed.

Lemma terminalInput_coherent event call inActive createdAt :
  event_coherent event -> call_coherent call -> clocks_agree call createdAt ->
  coherent (terminalInput event call inActive createdAt).
Proof.
  intros He Hc Hk. unfold terminalInput.
  set (result := default [] (recordField event "result")).
  destruct (terminalStatus_cases event result (failureFor event)) as [Hst Hrej].
  destruct (authority_coherent call inActive event result Hc) as (Hd & Hef & Hre).
  split; cbn -[str_in dispatchStateOf externalEffectsOf]; try done.
  - intros f Hf. destruct (terminalStatus _ _ _ =s "success") eqn:Es; [done|].
    pose proof (failureFor_book event f (ec_failure event He) Hf) as Hb. split.
    + apply Hb.
    + right. by apply book_strategy.
    + by apply book_detail.
    + intros Hden. cbn -[str_in]. rewrite Hf. by apply denied_flagged.
    + cbn -[str_in]. intros Hs. pose proof (ec_rejected event He f Hf (Hrej Hs)) as Hn.
      unfold ceilingRecovery. destruct (_ || _); [done|]. done.
  - by apply timing_of_clocks.
  - intros l. destruct (opt_nonempty (call ≫= tc_recoveryOf)) as [id|] eqn:El; [|done].
    intros [= <-]. cbn. by rewrite (cc_lineage call Hc id El).
  - apply Hc.
  - by apply adviceOf_intent.
  - by apply diagnosticOf_known.
Qed.

(** ** The lineage of a failure *)

Lemma allowedKeys_oset k v o ks :
  allowedKeys o ks = true -> str_in k ks = true -> allowedKeys (oset k v o) ks = true.
Proof.
  unfold allowedKeys. rewrite !forallb_forall. intros Ho Hk x Hx.
  apply in_map_iff in Hx as ([x' y] & <- & Hin). apply In_oset in Hin as [[-> _]|Hin]; [done|].
  apply Ho, in_map_iff. by exists (x', y).
Qed.

Lemma outcome_relineage o l :
  isToolOutcome (VObj o) = true -> validLineage (VObj l) = true ->
  isToolOutcome (VObj (oset "lineage" (VObj l) o)) = true.
Proof.
  intros Ho Hl. unfold isToolOutcome, validOutcomeHeader in *.
  rewrite !get_oset_ne by done. rewrite get_oset_eq, Hl.
  rewrite !andb_true_iff in *. destruct_and!. split_and!; try done. { by apply allowedKeys_oset. }
  all: by rewrite get_oset_ne.
Qed.

Lemma lineage_of_input input :
  get (classifyToolOutcome input) "lineage" = of_opt (VObj <$> ci_lineage input).
Proof.
  destruct (classify_shape input) as (st & fa & re & r & co & -> & _).
  by destruct (outcomeOf_get st fa (ci_authority input) re (recoveryJson r) input co)
    as (_ & _ & _ & _ & _ & _ & _ & -> & _).
Qed.

Section Events.
Context `{JsHost}.

Lemma outcomeWithLineage_canonical toolCallId call input :
  coherent input ->
  (ci_lineage input = None
   \/ exists id, ci_lineage input = Some [("recoveryOf"%string, VStr id)] /\ isHex64 id = true) ->
  isToolOutcome (VObj (outcomeWithLineage toolCallId call (ci_status input)
                         (classifyToolOutcome input))) = true.
Proof.
  intros Hc Hl. pose proof (classified_canonical_of input Hc) as Ho. unfold outcomeWithLineage.
  destruct (opt_nonempty _) as [fp|]; [|done]. destruct (_ =s _); [done|].
  apply outcome_relineage; [done|]. rewrite lineage_of_input.
  assert (isHex64 (digestFailureIdentity toolCallId fp (classifyToolOutcome input)) = true) as Hh
    by apply sha256Hex_is_hex64.
  generalize dependent (digestFailureIdentity toolCallId fp (classifyToolOutcome input)).
  intros h Hh. destruct Hl as [->|(id & -> & Hid)]; cbn -[isHex64]; by rewrite ?Hid, Hh.
Qed.

(** What the normalizer of a terminal tool event adds and keeps. *)
Lemma terminal_fields event state occurredAt :
  In (ev_type event) TERMINAL_TOOL_EVENTS ->
  let id := default ""%string (stringField event "toolCallId") in
  let call := oget id (calls (tools state)) in
  let input := terminalInput event call (str_in id (active (tools state)))
                 (createdAtOf event occurredAt) in
  let event' := normalizeAgentToolOutcomeEvent event state occurredAt in
  ev_type event' = ev_type event
  /\ get event' "toolCallId" = get event "toolCallId"
  /\ get event' "outcome"
     = VObj (outcomeWithLineage id call (ci_status input) (classifyToolOutcome input))
  /\ assertCanonicalToolOutcomeEvent event'
     = assertCanonicalOutcome (get event' "outcome") (ev_type event).
Proof.
  intros Ht id call input event'.
  assert (event' = normalizeToolTerminalEvent event state occurredAt) as He.
  { unfold event', normalizeAgentToolOutcomeEvent. by rewrite (proj2 (str_in_true _ _) Ht). }
  assert (ev_type event' = ev_type event) as Hty.
  { rewrite He. unfold normalizeToolTerminalEvent, ev_type, stringField, withField.
    rewrite get_oset_ne by done.
    destruct (_ ≫= tc_presentation); by rewrite !get_oset_ne by done. }
  split_and!; [done| | |].
  - rewrite He. unfold normalizeToolTerminalEvent, withField.
    rewrite get_oset_ne by done.
    destruct (_ ≫= tc_presentation); by rewrite !get_oset_ne by done.
  - rewrite He. unfold normalizeToolTerminalEvent, withField at 1. by rewrite get_oset_eq.
  - unfold assertCanonicalToolOutcomeEvent. rewrite Hty.
    assert (str_in (ev_type event) OUTCOME_EVENTS = true) as ->; [|done].
    apply str_in_true. unfold TERMINAL_TOOL_EVENTS in Ht. simpl in *. tauto.
Qed.

(** C23: a terminal tool event is normalized into canonical evidence.  When the
    event's own failure and advice follow their vocabulary, the recorded call is
    well formed and the clocks do not run backwards, the outcome [decide]
    computes passes the assertion the reducers are guarded by. *)
Theorem terminal_events_are_canonical event state occurredAt :
  let id := default ""%string (stringField event "toolCallId") in
  let call := oget id (calls (tools state)) in
  In (ev_type event) TERMINAL_TOOL_EVENTS ->
  event_coherent event -> call_coherent call ->
  clocks_agree call (createdAtOf event occurredAt) ->
  assertCanonicalToolOutcomeEvent (normalizeAgentToolOutcomeEvent event state occurredAt) = Ok tt.
Proof.
  intros id call Ht He Hc Hk.
  destruct (terminal_fields event state occurredAt Ht) as (_ & _ & Ho & ->). rewrite Ho.
  unfold assertCanonicalOutcome. rewrite outcomeWithLineage_canonical; [done| |].
  - by apply terminalInput_coherent.
  - unfold terminalInput. simpl. fold id. fold call.
    destruct (opt_nonempty (call ≫= tc_recoveryOf)) as [r|] eqn:Er; [right|by left].
    exists r. split; [done|]. by apply (cc_lineage call Hc).
Qed.

(** ** Denials *)

Lemma deniedInput_coherent f timing call :
  by_the_book f -> timing_coherent (Some timing) ->
  (forall u, call ≫= tc_unknownFields = Some u -> validUnknownFields (VObj u) = true) ->
  coherent (deniedInput f timing call).
Proof.
  intros Hb Ht Hu. split; cbn -[str_in]; try done; auto 10.
  intros g [= <-]. split; cbn -[str_in].
  - apply Hb.
  - right. by apply book_strategy.
  - by apply book_detail.
  - done.
  - intros _. by unfold ceilingRecovery.
Qed.

Lemma denied_canonical f timing call :
  by_the_book f -> timing_coherent (Some timing) ->
  (forall u, call ≫= tc_unknownFields = Some u -> validUnknownFields (VObj u) = true) ->
  isToolOutcome (VObj (classifyToolOutcome (deniedInput f timing call))) = true.
Proof. intros ???. by apply classified_canonical_of, deniedInput_coherent. Qed.

(** The type and the result of an event survive the fields a normalizer adds. *)
Lemma annotated_fields event createdAt outcome :
  let e := withField "outcome" outcome (withField "createdAt" createdAt event) in
  ev_type e = ev_type event /\ get e "outcome" = outcome /\ terminalReview e = terminalReview event.
Proof.
  unfold ev_type, stringField, terminalReview, recordField, withField.
  rewrite get_oset_eq, !get_oset_ne by done. done.
Qed.

Lemma ohas_stripped (event : obj) (v : val) :
  ohas "outcome" (("type"%string, v) :: odelete "type" (odelete "outcome" event)) = false.
Proof.
  unfold ohas. rewrite (proj2 (oget_None_keys _ _)); [done|].
  unfold okeys, odelete. simpl. intros [?|Hin]; [done|].
  apply in_map_iff in Hin as ([k x] & Hk & Hin). simpl in Hk. subst k.
  apply filter_In in Hin as [Hin _]. apply filter_In in Hin as [_ Hin]. done.
Qed.

(** A review is normalized into canonical evidence, whatever its content.  A
    rejecting review carries a canonical outcome and any other review carries
    none, as long as the unknown-field observation of its call is well formed. *)
Lemma reviews_are_canonical event state occurredAt :
  ev_type event = "auto_review.completed"%string ->
  (forall u, namedCall event state ≫= tc_unknownFields = Some u -> validUnknownFields (VObj u) = true) ->
  assertCanonicalToolOutcomeEvent (normalizeAgentToolOutcomeEvent event state occurredAt) = Ok tt.
Proof.
  intros Ht Hu. unfold normalizeAgentToolOutcomeEvent. rewrite Ht. cbn -[normalizeAutoReviewCompleted].
  unfold normalizeAutoReviewCompleted. destruct (terminalReview event) eqn:Er; simpl negb; cbv iota.
  - match goal with |- context [withField "outcome" ?o (withField "createdAt" ?c event)] =>
      destruct (annotated_fields event c o) as (Ety & Eo & Erv) end.
    unfold assertCanonicalToolOutcomeEvent. rewrite Ety, Eo, Erv, Ht, Er. cbn -[isToolOutcome classifyToolOutcome deniedInput].
    unfold assertCanonicalOutcome. rewrite denied_canonical; [done|by apply classified_book| |done].
    simpl. set (q := durationBetween _ _). set (w := finiteDuration _).
    unfold part_fits. destruct q, w; simpl; split_and!; auto; lia.
  - unfold assertCanonicalToolOutcomeEvent.
    set (e := ("type"%string, get event "type") :: odelete "type" (odelete "outcome" event)).
    assert (ev_type e = "auto_review.completed"%string) as ->.
    { unfold ev_type, stringField in *. simpl. done. }
    assert (terminalReview e = false) as ->.
    { assert (get e "result" = get event "result") as Hg.
      { unfold e, get. simpl. rewrite !oget_odelete_ne by done. done. }
      unfold terminalReview, recordField in *. by rewrite Hg. }
    simpl. unfold e. by rewrite ohas_stripped.
Qed.

(** A rejected approval is normalized into canonical evidence when the failure
    it supplies follows its kind and the approval was not requested before the
    call was queued. *)
Lemma rejected_approvals_are_canonical event state occurredAt :
  ev_type event = "approval.rejected"%string -> supplies_book event ->
  (forall u, namedCall event state ≫= tc_unknownFields = Some u -> validUnknownFields (VObj u) = true) ->
  in_order (namedCall event state ≫= tc_queuedAt) (namedCall event state ≫= tc_approvalRequestedAt) ->
  assertCanonicalToolOutcomeEvent (normalizeAgentToolOutcomeEvent event state occurredAt) = Ok tt.
Proof.
  intros Ht Hs Hu Ho. unfold normalizeAgentToolOutcomeEvent. rewrite Ht.
  cbn -[normalizeApprovalRejected]. unfold normalizeApprovalRejected.
  match goal with |- context [withField "outcome" ?o (withField "createdAt" ?c event)] =>
    destruct (annotated_fields event c o) as (Ety & Eo & _) end.
  unfold assertCanonicalToolOutcomeEvent. rewrite Ety, Eo, Ht. cbn -[isToolOutcome classifyToolOutcome deniedInput].
  unfold assertCanonicalOutcome. rewrite denied_canonical; [done| | |done].
  - destruct (suppliedFailure _) eqn:E; [by apply Hs|by apply classified_book].
  - simpl. unfold part_fits, in_order in *.
    destruct (durationBetween (_ ≫= tc_queuedAt) _) as [q|] eqn:Eq; [|by repeat case_match].
    split_and!; [lia|done|]. destruct (durationBetween (_ ≫= tc_approvalRequestedAt) _) as [w|] eqn:Ew;
      [|done]. intros _ _.
    apply durationBetween_some in Eq as (s & e & Es & Ee & _ & ->).
    apply durationBetween_some in Ew as (s' & e' & Es' & Ee' & _ & ->).
    rewrite Es, Es' in Ho. rewrite Ee in Ee'. injection Ee' as <-. lia.
Qed.

(** A denial is normalized into canonical evidence: a review of any content, and
    a rejected approval whose supplied failure follows its kind and which was not
    requested before its call was queued. *)
Theorem denials_are_canonical event state occurredAt :
  (forall u, namedCall event state ≫= tc_unknownFields = Some u -> validUnknownFields (VObj u) = true) ->
  ev_type event = "auto_review.completed"%string
  \/ (ev_type event = "approval.rejected"%string /\ supplies_book event
      /\ in_order (namedCall event state ≫= tc_queuedAt)
           (namedCall event state ≫= tc_approvalRequestedAt)) ->
  assertCanonicalToolOutcomeEvent (normalizeAgentToolOutcomeEvent event state occurredAt) = Ok tt.
Proof.
  intros Hu [Ht|(Ht & Hs & Ho)]; [by apply reviews_are_canonical|by apply rejected_approvals_are_canonical].
Qed.

(** ** Skewed clocks *)

Lemma skewed_timing_invalid t q total :
  ti_queueMs t = Some q -> ti_totalActiveMs t = Some total -> 0 <= total < q ->
  validTiming (VObj (trustedToolTiming (Some t))) = false.
Proof.
  intros Hq Ht Hlt. set (o := trustedToolTiming (Some t)).
  assert (get o "queueMs" = VNum (Fin q) /\ get o "totalActiveMs" = VNum (Fin total)) as [Gq Gt].
  { unfold o, trustedToolTiming, durationField. rewrite Hq, Ht, !(proj2 (Z.leb_le _ _)) by lia.
    split; [done|]. by repeat case_match. }
  unfold validTiming. assert (exceedsTotal o "queueMs" = true) as ->.
  { unfold exceedsTotal. rewrite Gq, Gt. apply Z.ltb_lt. lia. }
  rewrite Gt. by rewrite andb_false_r.
Qed.

Lemma outcomeWithLineage_timing toolCallId call input :
  get (outcomeWithLineage toolCallId call (ci_status input) (classifyToolOutcome input)) "timing"
  = VObj (trustedToolTiming (ci_timing input)).
Proof.
  assert (get (classifyToolOutcome input) "timing" = VObj (trustedToolTiming (ci_timing input))) as Hg.
  { destruct (classify_shape input) as (st & fa & re & r & co & -> & _).
    apply (outcomeOf_get st fa (ci_authority input) re (recoveryJson r) input co). }
  unfold outcomeWithLineage. repeat case_match; try done.
  unfold withField. by rewrite get_oset_ne.
Qed.

(** A terminal event dated between the queueing and the start of its call,
    as a clock set back during the call dates it, is refused.  The normalizer
    keeps a queue time longer than the whole call, and the assertion [decide]
    makes on its own result throws, so the call cannot reach its end. *)
Theorem skewed_terminal_event_is_refused event state occurredAt call queued started created :
  In (ev_type event) TERMINAL_TOOL_EVENTS ->
  oget (default ""%string (stringField event "toolCallId")) (calls (tools state)) = Some call ->
  epochMillis (tc_queuedAt call) = Some queued -> epochMillis (tc_startedAt call) = Some started ->
  epochMillis (Some (createdAtOf event occurredAt)) = Some created ->
  queued <= created < started ->
  assertCanonicalToolOutcomeEvent (normalizeAgentToolOutcomeEvent event state occurredAt)
  = Throw (String.append (ev_type event) " has invalid canonical ToolOutcome.").
Proof.
  intros Ht Hcall Hq Hs Hc Hlt.
  destruct (terminal_fields event state occurredAt Ht) as (_ & _ & Ho & ->). rewrite Ho, Hcall.
  set (input := terminalInput event _ _ _). unfold assertCanonicalOutcome.
  assert (validTiming (get (outcomeWithLineage (default ""%string (stringField event "toolCallId"))
            (Some call) (ci_status input) (classifyToolOutcome input)) "timing") = false) as Hv.
  { rewrite outcomeWithLineage_timing. unfold input, terminalInput. simpl ci_timing.
    eapply (skewed_timing_invalid _ (started - queued) (created - queued)); [| |lia]; cbn;
      unfold durationBetween; rewrite Hq.
    - destruct (tc_startedAt call) as [st|] eqn:Est; [|done]. cbn. rewrite Hs.
      destruct (Z.ltb_spec started queued); [lia|done].
    - rewrite Hc. destruct (Z.ltb_spec created queued); [lia|done]. }
  unfold isToolOutcome. rewrite Hv, !andb_false_r. done.
Qed.
End Events.

(** ** Terminal outcomes of runs *)

(** A failure object with every field its type requires. *)
Definition failure_object (f : obj) (kind : string) : Prop :=
  get f "kind" = VStr kind /\ str_in kind FAILURE_KINDS = true
  /\ (exists r, get f "retryable" = VBool r) /\ exists n, get f "needsUserIntervention" = VBool n.

(** The two terminal normalizers agree except on one kind.  For a run error
    with a complete failure and no outcome yet, the kernel's normalizer and the
    runtime's attach the same outcome exactly when the failure is not
    [process_limit_exceeded]. *)
Theorem terminal_normalizers_agree event f kind :
  ev_type event = "run.error"%string -> ohas "outcome" event = false ->
  get event "failure" = VObj f -> failure_object f kind ->
  normalizeTerminalRuntimeEvent event = normalizeTerminalAgentEvent event
  <-> kind <> "process_limit_exceeded"%string.
Proof.
  intros Ht Ho Hf (Hk & Hin & [r Hr] & [n Hn]).
  unfold normalizeTerminalRuntimeEvent, normalizeTerminalAgentEvent. rewrite Ht, Ho.
  assert (get event "outcome" = VUndef) as ->.
  { unfold get. unfold ohas in Ho. by destruct (oget "outcome" event). }
  assert (recordField event "failure" = Some f) as Hrec by (unfold recordField; by rewrite Hf).
  destruct (suppliedFailure (Some f)) as [g|] eqn:Hg; unfold suppliedFailure, stringField in Hg;
    change (default [] (Some f)) with f in Hg; rewrite Hk, Hin in Hg; [|done].
  assert (failureFor event = Some g) as ->.
  { unfold failureFor. rewrite Hrec. unfold suppliedFailure, stringField.
    change (default [] (Some f)) with f. by rewrite Hk, Hin, Hg. }
  rewrite Hrec, Hf. cbn -[failedTerminalOutcome runErrorOutcome]. injection Hg as <-.
  unfold failedTerminalOutcome, runErrorOutcome, carriedFailure, suppliedFlag, stringField. simpl.
  rewrite Hk, Hr, Hn. simpl.
  apply str_in_true in Hin. unfold FAILURE_KINDS in Hin. simpl in Hin.
  repeat (destruct Hin as [<-|Hin]; [split; intros Hx; [|reflexivity || by destruct Hx]|]); try done.
  apply (f_equal (fun e => get e "outcome")) in Hx. rewrite !get_oset_eq in Hx. by destruct n.
Qed.

(** ** Concrete instances *)

(** A read queued at noon, started a second later. *)
Definition sampleRead : AgentToolCallState :=
  {| tc_toolCallId := "c1"; tc_name := "read_file"; tc_displayLabel := None;
     tc_modelMessageId := "m1"; tc_args := VObj []; tc_modelInvocationId := None;
     tc_ordinal := None; tc_createdAtTurnId := "turn"; tc_taskId := None;
     tc_queuedAt := Some "2024-01-01T12:00:00.000Z"; tc_startedAt := Some "2024-01-01T12:00:01.000Z";
     tc_approvalRequestedAt := None; tc_approvalWaitMs := None;
     tc_invocationFingerprint := Some "fp"; tc_recoveryOf := None; tc_recoveryMode := None;
     tc_recoveryAdmission := None; tc_result := None; tc_error := None; tc_failure := None;
     tc_outcome := None; tc_bindingId := None; tc_capabilityId := None;
     tc_capabilityRevision := None; tc_unknownFields := None; tc_approvalHash := None;
     tc_approvalGrant := None; tc_effectClass := Some read_only; tc_sideEffect := Some false;
     tc_classificationReason := None; tc_presentation := None; tc_networkDecisions := None;
     tc_status := t_running |}%string.

Definition readingState : AgentState :=
  demo <| tools := {| calls := [("c1"%string, sampleRead)]; queue := []; active := ["c1"%string] |} |>.

Definition sampleEvent (type : string) (rest : obj) : obj :=
  ("type", VStr type) :: ("toolCallId", VStr "c1") :: rest.

Definition failedRead : obj :=
  sampleEvent "tool.failed"
    [("failure", VObj [("kind", VStr "network_unavailable"); ("message", VStr "down")])].

Lemma sample_call_coherent : call_coherent (Some sampleRead).
Proof. by split. Qed.

Lemma sample_event_coherent : event_coherent failedRead.
Proof. split; vm_compute; try done; intros f [= <-]; by vm_compute. Qed.

Lemma terminal_events_are_canonical_witness :
  @assertCanonicalToolOutcomeEvent
    (@normalizeAgentToolOutcomeEvent host0 failedRead readingState "2024-01-01T12:00:05.000Z") = Ok tt.
Proof.
  apply (@terminal_events_are_canonical host0).
  - vm_compute. auto.
  - exact sample_event_coherent.
  - exact sample_call_coherent.
  - vm_compute. repeat split; done.
Defined.

Lemma denials_are_canonical_witness :
  @assertCanonicalToolOutcomeEvent (@normalizeAgentToolOutcomeEvent host0
    (sampleEvent "auto_review.completed"
       [("result", VObj [("ok", VBool true); ("approved", VBool false);
                         ("durationMs", VNum (Fin 40))])])
    readingState "2024-01-01T12:00:05.000Z") = Ok tt
  /\ @assertCanonicalToolOutcomeEvent (@normalizeAgentToolOutcomeEvent host0
    (sampleEvent "approval.rejected" [("reason", VStr "no")])
    readingState "2024-01-01T12:00:05.000Z") = Ok tt.
Proof.
  split; apply (@denials_are_canonical host0); try (vm_compute; done); [left; reflexivity|].
  right. split_and!; vm_compute; done.
Defined.

(** A clock set back half a second between the start and the end of the read. *)
Lemma skewed_terminal_event_is_refused_witness :
  @assertCanonicalToolOutcomeEvent (@normalizeAgentToolOutcomeEvent host0
    (sampleEvent "tool.finished" [("result", VObj [("ok", VBool true)])])
    readingState "2024-01-01T12:00:00.500Z")
  = Throw "tool.finished has invalid canonical ToolOutcome."%string.
Proof.
  refine (@skewed_terminal_event_is_refused host0
    (sampleEvent "tool.finished" [("result"%string, VObj [("ok"%string, VBool true)])])
    readingState "2024-01-01T12:00:00.500Z" sampleRead
    1704110400000 1704110401000 1704110400500 _ _ _ _ _ _); try reflexivity; [vm_compute; auto|lia].
Defined.

Definition limitError : obj :=
  [("type", VStr "run.error");
   ("failure", VObj [("kind", VStr "process_limit_exceeded"); ("message", VStr "m");
                     ("retryable", VBool true); ("needsUserIntervention", VBool false)])]%string.

Lemma terminal_normalizers_agree_witness :
  normalizeTerminalRuntimeEvent limitError <> normalizeTerminalAgentEvent limitError.
Proof.
  intros Heq. refine (proj1 (terminal_normalizers_agree limitError _ "process_limit_exceeded"
    eq_refl eq_refl eq_refl _) Heq eq_refl).
  split_and!; try reflexivity; eexists; reflexivity.
Defined.
