(* ===== verification/RecoveryReducerClaims.v ===== *)
(** * From an event to the journal

    The failure an event announces is the one the recovery journal files, and a
    receipt recovers the failure its call set out to recover and no other. *)

From S2P Require Import Prelude Js Hash State Sample ApprovalQueue Normalization HashCorrect Recovery RecoveryProps RecoveryInvariant RecoveryClaims RecoveryReducer NormalizationClaims NormalizationEvents.
From stdpp Require Import prelude strings list.
From Stdlib Require Import ZArith Lia.
Open Scope Z_scope.

(** ** Filing a failure *)

Lemma oset_length {A} (m : ordmap A) k v : (length (oset k v m) <= S (length m))%nat.
Proof.
  induction m as [|[k' v'] m IH]; simpl; [lia|]. destruct (k =s k'); simpl; lia.
Qed.

Lemma aligned_length fs order : aligned fs order -> length fs = length order.
Proof.
  intros (Hn & Ho & Hi). transitivity (length (okeys fs)); [unfold okeys; by rewrite length_map|].
  apply Nat.le_antisymm; apply NoDup_incl_len; try done; intros x; by apply Hi.
Qed.

Section Filing.
Context `{JsHost}.

Lemma recordRecoveryFailure_files j input id j' :
  journal_ok j -> (length (j_order j) < 128)%nat ->
  is_str (get (fin_outcome input) "status") "success" = false ->
  toolFailureInstanceId (fin_toolCallId input) (fin_invocationFingerprint input)
    (fin_outcome input) = Ok id ->
  recordRecoveryFailure j input = Ok j' -> ohas id (j_failures j') = true.
Proof.
  intros Hj Hl Hs Hid. unfold recordRecoveryFailure. rewrite Hs, Hid. cbn [res_bind].
  destruct (ohas id (j_failures j)) eqn:Eo; [by intros [= <-]|].
  set (parent := match opt_nonempty _ with Some p => _ | None => None end).
  assert (forall p, parent = Some p -> In (rf_failureInstanceId p) (okeys (j_failures j))) as Hpar.
  { intros p. unfold parent. destruct (opt_nonempty _) as [q|]; [|done]. intros Hq.
    rewrite (fo_id _ _ _ (oall_oget _ _ _ _ (jo_failures j Hj) Hq)). by eapply oget_some_key. }
  set (superseded := match parent with Some p => _ | None => j_failures j end).
  set (failure := newFailure j input id parent).
  destruct (jo_aligned j Hj) as (Hn & Hno & Hio).
  assert (NoDup (okeys superseded) /\ okeys superseded = okeys (j_failures j)) as [Hsn Hsk].
  { unfold superseded. destruct parent as [p|]; [|done]. split; [by apply oset_NoDup|].
    apply okeys_oset_present, ohas_In. by apply Hpar. }
  assert (forall x, In x (okeys (oset id failure superseded)) -> In x (j_order j ++ [id])) as Hsub.
  { intros x [->|Hx]%In_okeys_oset; apply in_app_iff; [right; by left|left]. apply Hio. by rewrite <- Hsk. }
  pose proof (compactFailures_spec (oset id failure superseded) (j_order j ++ [id])
    (oset_NoDup _ _ _ Hsn) Hsub) as Hc.
  destruct (compactFailures _ _) as [kept order]. intros [= <-]. simpl.
  destruct Hc as (_ & _ & _ & _ & ->); [by rewrite ohas_In, In_okeys_oset; left|].
  etransitivity; [apply oset_length|].
  assert (length superseded = length (j_failures j)) as ->.
  { transitivity (length (okeys superseded)); [unfold okeys; by rewrite length_map|].
    rewrite Hsk. unfold okeys. by rewrite length_map. }
  rewrite (aligned_length _ _ (jo_aligned j Hj)). lia.
Qed.

(** A successful classification says so. *)
Lemma success_status input :
  ci_status input = "success"%string ->
  is_str (get (classifyToolOutcome input) "status") "success" = true.
Proof. intros Hs. unfold classifyToolOutcome. rewrite Hs. reflexivity. Qed.

(** The identity an unsuccessful outcome announces is its own. *)
Lemma announced_identity id call fingerprint input :
  tc_invocationFingerprint call = Some fingerprint -> fingerprint <> ""%string ->
  let outcome := outcomeWithLineage id (Some call) (ci_status input) (classifyToolOutcome input) in
  isToolOutcome (VObj outcome) = true -> is_str (get outcome "status") "success" = false ->
  exists announced, lineageField outcome "failureInstanceId" = Some announced
    /\ toolFailureInstanceId id fingerprint outcome = Ok announced.
Proof.
  intros Hfp Hfpne outcome Hcan Hns.
  assert (ci_status input <> "success"%string) as Hci.
  { intros Hs. unfold outcome, outcomeWithLineage in Hns. rewrite Hs in Hns.
    destruct (opt_nonempty (Some call ≫= tc_invocationFingerprint));
      change (String.eqb "success" "success") with true in Hns; cbv iota in Hns;
      by rewrite success_status in Hns. }
  set (announced := digestFailureIdentity id fingerprint (classifyToolOutcome input)).
  assert (exists lineage, outcome
    = oset "lineage" (VObj (oset "failureInstanceId" (VStr announced) lineage))
        (classifyToolOutcome input)) as [lineage Elin].
  { unfold outcome, outcomeWithLineage. cbn [mbind option_bind]. rewrite Hfp.
    destruct fingerprint as [|c fp]; [done|]. cbn [opt_nonempty str_nonempty].
    rewrite (proj2 (eqb_false _ _) Hci). by eexists. }
  exists announced. split.
  - unfold lineageField, stringField. rewrite Elin, get_oset_eq. simpl jsonRecord. by rewrite get_oset_eq.
  - rewrite toolFailureInstanceId_agrees by done. rewrite Elin.
    unfold digestFailureIdentity, announced, outcomeDetail. by rewrite !get_oset_ne by done.
Qed.

(** A failure is filed under the identity its event announces.  When the
    normalized outcome of a running call is canonical and not a success, the
    identity in its lineage is the one the recovery journal files the failure
    under, and after the reducer the journal holds it. *)
Theorem failure_is_filed_as_announced event state occurredAt id call fingerprint next :
  In (ev_type event) TERMINAL_TOOL_EVENTS ->
  stringField event "toolCallId" = Some id -> id <> ""%string ->
  oget id (calls (tools state)) = Some call -> isTerminalStatus (tc_status call) = false ->
  tc_invocationFingerprint call = Some fingerprint -> fingerprint <> ""%string ->
  journal_ok (toolRecovery state) -> (length (j_order (toolRecovery state)) < 128)%nat ->
  let event' := normalizeAgentToolOutcomeEvent event state occurredAt in
  let outcome := jsonRecord (get event' "outcome") in
  isToolOutcome (VObj outcome) = true ->
  is_str (get outcome "status") "success" = false ->
  reduceRecoveryState state event' = Ok next ->
  exists announced, lineageField outcome "failureInstanceId" = Some announced
    /\ toolFailureInstanceId id fingerprint outcome = Ok announced
    /\ ohas announced (j_failures (toolRecovery next)) = true.
Proof.
  intros Ht Hid Hne Hcall Hst Hfp Hfpne Hj Hl event' outcome Hcan Hns Hr.
  destruct (terminal_fields event state occurredAt Ht) as (Ety & Eid & Eo & _).
  fold event' in Ety, Eid, Eo. rewrite Hid in Eo.
  change (default ""%string (Some id)) with id in Eo. rewrite Hcall in Eo.
  set (input := terminalInput event _ _ _) in Eo. unfold outcome in *. clear outcome.
  rewrite Eo in *. cbn [jsonRecord] in *.
  destruct (announced_identity id call fingerprint input Hfp Hfpne Hcan Hns) as (announced & Hlin & Hfid).
  exists announced. split_and!; try done. unfold reduceRecoveryState in Hr. rewrite Ety in Hr.
  assert (eventCall state event' = Some (id, call)) as Hev.
  { unfold eventCall, nonEmptyStringField, stringField. rewrite Eid.
    apply stringField_some in Hid. rewrite Hid. destruct id as [|c id]; [done|]. simpl. by rewrite Hcall. }
  assert (reduceToolOutcome state event' = Ok next) as Hr'.
  { simpl in Ht. by repeat (destruct Ht as [Ht|Ht]; [rewrite <- Ht in Hr; exact Hr|]). }
  unfold reduceToolOutcome in Hr'. rewrite Ety, Hev, Hst, andb_false_r, Eo, Hcan in Hr'.
  cbn [negb jsonRecord] in Hr'. apply bind_ok in Hr' as (journal & Hn & Hr').
  unfold nextJournal in Hn. rewrite Hfp, Ety, Hns, andb_false_r in Hn. cbn [res_bind] in Hn.
  apply bind_ok in Hn as (j & Hrec & Hn).
  eapply recordRecoveryFailure_files in Hrec; [|done|done|done|exact Hfid].
  assert (journal = Some j) as ->.
  { simpl in Ht. by repeat (destruct Ht as [Ht|Ht]; [rewrite <- Ht in Hn; by injection Hn as <-|]). }
  injection Hr' as <-. exact Hrec.
Qed.

(** ** Receipts *)

Lemma oget_map g failures id :
  oget id (mapFailures g failures) = g id <$> oget id failures.
Proof.
  unfold mapFailures. induction failures as [|[k f] failures IH]; simpl; [done|].
  destruct (String.eqb_spec id k) as [->|]; [done|exact IH].
Qed.

(** A receipt recovers the failure its call set out to recover, and no other.
    A successful end of a call that is no recovery, or whose failure no longer
    blocks, leaves the journal as it was; otherwise exactly that failure becomes
    recovered and the progress revision advances.  Nothing else of the state
    changes. *)
Theorem receipt_recovers_only_its_failure state event id call outcome next :
  ev_type event = "tool.finished"%string -> eventCall state event = Some (id, call) ->
  isTerminalStatus (tc_status call) = false ->
  get event "outcome" = VObj outcome -> isToolOutcome (VObj outcome) = true ->
  is_str (get outcome "status") "success" = true ->
  reduceRecoveryState state event = Ok next ->
  let journal := toolRecovery state in
  next = state <| toolRecovery := toolRecovery next |>
  /\ match opt_nonempty (tc_recoveryOf call) with
     | Some target =>
         if stillBlocks (j_failures journal) target then
           j_progressRevision (toolRecovery next) = fadd (j_progressRevision journal) 1
           /\ j_order (toolRecovery next) = j_order journal
           /\ forall k, oget k (j_failures (toolRecovery next))
                = (fun f => if k =s target
                            then f <| rf_status := rf_recovered |> <| rf_resolution := Some rs_recovered |>
                            else f) <$> oget k (j_failures journal)
         else toolRecovery next = journal
     | None => toolRecovery next = journal
     end.
Proof.
  intros Ht Hev Hst Ho Hcan Hs Hr journal. unfold reduceRecoveryState in Hr. rewrite Ht in Hr.
  change (reduceToolOutcome state event = Ok next) in Hr. unfold reduceToolOutcome in Hr.
  rewrite Hev, Hst, andb_false_r, Ho, Hcan, Ht in Hr. cbn [negb jsonRecord] in Hr.
  apply bind_ok in Hr as (j & Hn & Hr). unfold nextJournal in Hn. rewrite Ht, Hs in Hn.
  apply bind_ok in Hn as (fp & _ & Hn). cbn [andb] in Hn. injection Hn as <-. injection Hr as <-.
  split; [by destruct state|]. cbn [toolRecovery]. unfold recordToolOwnedProgress.
  cbn [pr_referenceId pr_resolvesFailureIds pr_kind progressResolution].
  assert (str_nonempty id = true) as ->.
  { unfold eventCall, nonEmptyStringField in Hev. destruct (opt_nonempty _) as [x|] eqn:Ex; [|done].
    apply opt_nonempty_some in Ex as [_ Ex]. destruct (oget x _); [|done]. injection Hev as <- _.
    by destruct x. }
  destruct (opt_nonempty (tc_recoveryOf call)) as [target|]; [|done]. simpl.
  unfold journal in *. destruct (stillBlocks (j_failures (toolRecovery state)) target) eqn:Eb; [|reflexivity].
  simpl. split_and!; try done. intros k. rewrite oget_map. fold journal.
  destruct (oget k (j_failures journal)) as [f|] eqn:Ef; [|done]. simpl. rewrite orb_false_r.
  destruct (String.eqb_spec k target) as [->|]; [|by rewrite andb_false_r].
  unfold stillBlocks in Eb. fold journal in Eb. rewrite Ef in Eb. unfold failureStillBlocks in Eb. bool_hyps.
  by rewrite bool_decide_eq_false_2.
Qed.
End Filing.

(** ** Concrete instances *)

(** The sample read fails while its journal is empty. *)
Definition announcedRead : obj :=
  Eval vm_compute in
    @normalizeAgentToolOutcomeEvent host0 failedRead readingState "2024-01-01T12:00:05.000Z".

Lemma demo_journal_ok : journal_ok (toolRecovery readingState).
Proof.
  by apply (new_journal_ok "0123456789abcdef0123456789abcdef0123456789abcdef0123456789abcdef").
Qed.

Lemma failure_is_filed_as_announced_witness :
  exists next announced, @reduceRecoveryState host0 readingState announcedRead = Ok next
    /\ ohas announced (j_failures (toolRecovery next)) = true.
Proof.
  eexists. edestruct (@failure_is_filed_as_announced host0 failedRead readingState
    "2024-01-01T12:00:05.000Z" "c1" sampleRead "fp") as (announced & _ & _ & Hh).
  11: { vm_compute. reflexivity. }
  all: try (vm_compute; reflexivity).
  - vm_compute. auto.
  - done.
  - done.
  - exact demo_journal_ok.
  - simpl. lia.
  - exists announced. split; [|exact Hh]. vm_compute. reflexivity.
Defined.

(** The read succeeds; it recovers nothing, so the journal stays. *)
Definition finishedRead : obj :=
  Eval vm_compute in
    @normalizeAgentToolOutcomeEvent host0
      (sampleEvent "tool.finished" [("result"%string, VObj [("ok"%string, VBool true)])])
      readingState "2024-01-01T12:00:05.000Z".

Lemma receipt_recovers_only_its_failure_witness :
  exists next, @reduceRecoveryState host0 readingState finishedRead = Ok next
    /\ toolRecovery next = toolRecovery readingState.
Proof.
  eexists. split; [vm_compute; reflexivity|].
  refine (proj2 (@receipt_recovers_only_its_failure host0 readingState finishedRead "c1" sampleRead
    (jsonRecord (get finishedRead "outcome")) _ _ _ _ _ _ _ _)); vm_compute; reflexivity.
Defined.
