(* ===== verification/Lease.v ===== *)
(** * The lease reducer ([core/lease/reducer.ts])

    Resource budgets (a ledger of reservations with a run-wide ceiling and a
    FIFO of concurrency waiters) and the readiness lifecycle of providers.
    Budget, reservations and waiters are kept as the JSON objects the events
    carried, as the source keeps them; usage totals are typed. *)

From S2P Require Import Prelude Js Hash State ApprovalQueue.
From stdpp Require Import prelude strings list pretty.
From Stdlib Require Import ZArith Lia.
Open Scope Z_scope.

Definition BUDGET_FIELDS : list string :=
  ["maxRunDurationMs"; "maxTurns"; "maxModelRequests"; "maxToolInvocations";
   "maxRunInputTokens"; "maxRunOutputTokens"; "maxConcurrentSubagents"; "maxConcurrentWriters";
   "maxConcurrentToolInvocations"; "maxConcurrentShellInvocations"; "maxConcurrencyWaitMs";
   "maxArtifactBytes"]%string.

Definition COUNTER_FIELDS : list string :=
  ["turns"; "modelRequests"; "toolInvocations"; "inputTokens"; "outputTokens";
   "artifactBytes"]%string.

Definition GAUGE_FIELDS : list string :=
  ["elapsedRunMs"; "activeSubagents"; "activeWriters"; "activeToolInvocations";
   "activeShellInvocations"]%string.

Definition RESOURCE_KINDS : list string :=
  ["model"; "tool"; "mcp"; "skill"; "subagent"; "verification"; "compaction"; "artifact"]%string.

(** ** Assertions *)

Definition nonEmpty (value : val) (field : string) : res string :=
  match value with
  | VStr s => if str_nonempty (trim s) then Ok s else Throw (field +:+ " must be non-empty.")
  | _ => Throw (field +:+ " must be non-empty.")
  end.

Definition nonNegativeInteger (value : val) (field : string) : res Z :=
  match value with
  | VNum (Fin z) => if isSafeInteger z && negb (z <? 0) then Ok z
                    else Throw (field +:+ " must be a non-negative safe integer.")
  | _ => Throw (field +:+ " must be a non-negative safe integer.")
  end.

Definition positiveInteger (value : val) (field : string) : res Z :=
  match value with
  | VNum (Fin z) => if isSafeInteger z && negb (z <=? 0) then Ok z
                    else Throw (field +:+ " must be a positive safe integer.")
  | _ => Throw (field +:+ " must be a positive safe integer.")
  end.

(** A field read as a number; anything else compares as [NaN]. *)
Definition num_of (v : val) : num := match v with VNum n => n | _ => NaN end.
Definition numAt (o : obj) (f : string) : num := num_of (get o f).

Definition assertResourceBudget (value : val) : res obj :=
  match asObject value with
  | None => Throw "Unsupported ResourceBudget version."
  | Some candidate =>
      throw "Unsupported ResourceBudget version." when negb (is_num (get candidate "version") 1) in
      let* _ := res_iter (fun f => let* _ := positiveInteger (get candidate f) f in Ok tt)
                  BUDGET_FIELDS in
      throw "Shell concurrency must not exceed tool concurrency."
        when nltb (numAt candidate "maxConcurrentToolInvocations")
                  (numAt candidate "maxConcurrentShellInvocations") in
      throw "Writer concurrency must not exceed tool concurrency."
        when nltb (numAt candidate "maxConcurrentToolInvocations")
                  (numAt candidate "maxConcurrentWriters") in
      Ok candidate
  end.

Definition assertResourceUsage (value : val) : res obj :=
  match asObject value with
  | None => Throw "Resource usage is invalid."
  | Some candidate =>
      match asObject (get candidate "counters") with
      | None => Throw "Resource usage counters are invalid."
      | Some counters =>
          match asObject (get candidate "gauges") with
          | None => Throw "Resource usage gauges are invalid."
          | Some gauges =>
              let* _ := res_iter (fun f => let* _ := nonNegativeInteger (get counters f) f in Ok tt)
                          COUNTER_FIELDS in
              let* _ := res_iter (fun f => let* _ := nonNegativeInteger (get gauges f) f in Ok tt)
                          GAUGE_FIELDS in
              let source := get candidate "source" in
              let* _ := if is_str source "versioned_upper_bound"
                        then let* _ := nonEmpty (get candidate "estimatorVersion")
                                         "estimatorVersion" in Ok tt
                        else Ok tt in
              throw "Actual usage must not declare estimatorVersion."
                when is_str source "actual"
                     && negb (is_undef (get candidate "estimatorVersion")) in
              throw "Resource usage source is invalid."
                when negb (is_str source "actual")
                     && negb (is_str source "versioned_upper_bound") in
              Ok candidate
          end
      end
  end.

(** ** Usage *)

(** The fields of a usage object. *)
Definition usageOf (value : val) : ResourceUsage :=
  let u := default [] (asObject value) in
  let c := default [] (asObject (get u "counters")) in
  let g := default [] (asObject (get u "gauges")) in
  {| counters := {| turns := numAt c "turns"; modelRequests := numAt c "modelRequests";
                    toolInvocations := numAt c "toolInvocations";
                    inputTokens := numAt c "inputTokens"; outputTokens := numAt c "outputTokens";
                    artifactBytes := numAt c "artifactBytes" |};
     gauges := {| elapsedRunMs := numAt g "elapsedRunMs";
                  activeSubagents := numAt g "activeSubagents";
                  activeWriters := numAt g "activeWriters";
                  activeToolInvocations := numAt g "activeToolInvocations";
                  activeShellInvocations := numAt g "activeShellInvocations" |};
     usage_source := default "" (stringField u "source");
     estimatorVersion := stringField u "estimatorVersion" |}.

Definition counterList (u : ResourceUsage) : list num :=
  let c := counters u in
  [turns c; modelRequests c; toolInvocations c; inputTokens c; outputTokens c; artifactBytes c].
Definition gaugeList (u : ResourceUsage) : list num :=
  let g := gauges u in
  [elapsedRunMs g; activeSubagents g; activeWriters g; activeToolInvocations g;
   activeShellInvocations g].

Definition withinUpperBound (actual upper : ResourceUsage) : bool :=
  forallb (fun '(a, u) => nleb a u) (combine (counterList actual) (counterList upper))
  && forallb (fun '(a, u) => nleb a u) (combine (gaugeList actual) (gaugeList upper)).

Definition withinBudget (usage : ResourceUsage) (budget : obj) : bool :=
  let c := counters usage in let g := gauges usage in
  nleb (turns c) (numAt budget "maxTurns")
  && nleb (modelRequests c) (numAt budget "maxModelRequests")
  && nleb (toolInvocations c) (numAt budget "maxToolInvocations")
  && nleb (inputTokens c) (numAt budget "maxRunInputTokens")
  && nleb (outputTokens c) (numAt budget "maxRunOutputTokens")
  && nleb (artifactBytes c) (numAt budget "maxArtifactBytes")
  && nleb (elapsedRunMs g) (numAt budget "maxRunDurationMs")
  && nleb (activeSubagents g) (numAt budget "maxConcurrentSubagents")
  && nleb (activeWriters g) (numAt budget "maxConcurrentWriters")
  && nleb (activeToolInvocations g) (numAt budget "maxConcurrentToolInvocations")
  && nleb (activeShellInvocations g) (numAt budget "maxConcurrentShellInvocations").

Definition zeroUsage : ResourceUsage :=
  {| counters := {| turns := Fin 0; modelRequests := Fin 0; toolInvocations := Fin 0;
                    inputTokens := Fin 0; outputTokens := Fin 0; artifactBytes := Fin 0 |};
     gauges := {| elapsedRunMs := Fin 0; activeSubagents := Fin 0; activeWriters := Fin 0;
                  activeToolInvocations := Fin 0; activeShellInvocations := Fin 0 |};
     usage_source := "actual"; estimatorVersion := None |}.

Definition addUsage (left right : ResourceUsage) : ResourceUsage :=
  let source := if (usage_source left =s "actual") && (usage_source right =s "actual")
                then "actual"%string else "versioned_upper_bound"%string in
  let lc := counters left in let rc := counters right in
  let lg := gauges left in let rg := gauges right in
  {| counters := {| turns := nadd (turns lc) (turns rc);
                    modelRequests := nadd (modelRequests lc) (modelRequests rc);
                    toolInvocations := nadd (toolInvocations lc) (toolInvocations rc);
                    inputTokens := nadd (inputTokens lc) (inputTokens rc);
                    outputTokens := nadd (outputTokens lc) (outputTokens rc);
                    artifactBytes := nadd (artifactBytes lc) (artifactBytes rc) |};
     gauges := {| elapsedRunMs := nmax (elapsedRunMs lg) (elapsedRunMs rg);
                  activeSubagents := nadd (activeSubagents lg) (activeSubagents rg);
                  activeWriters := nadd (activeWriters lg) (activeWriters rg);
                  activeToolInvocations :=
                    nadd (activeToolInvocations lg) (activeToolInvocations rg);
                  activeShellInvocations :=
                    nadd (activeShellInvocations lg) (activeShellInvocations rg) |};
     usage_source := source;
     estimatorVersion :=
       if source =s "versioned_upper_bound"
       then Some (match estimatorVersion left, estimatorVersion right with
                  | Some v, _ => v | None, Some v => v | None, None => "composed-v1" end)
       else None |}%string.

(** [r.state === s], and the state in an error message. *)
Definition state_is (r : obj) (s : string) : bool := is_str (get r "state") s.
Definition state_text (r : obj) : string := js_string (get r "state").

(** A reservation that still holds its upper bound. *)
Definition holdsBound (r : obj) : bool :=
  existsb (state_is r) ["reserved"; "dispatch_started"; "unknown"]%string.

Definition committedUsage (state : AgentResourceBudgetActiveState) : ResourceUsage :=
  fold_left (fun usage r =>
    if holdsBound r then addUsage usage (usageOf (get r "executableUpperBound")) else usage)
    (ovalues (rb_reservations state)) (rb_reconciledUsage state).

Definition assertReservation (value : val) : res obj :=
  match asObject value with
  | None => Throw "Unsupported ResourceReservation version."
  | Some r =>
      throw "Unsupported ResourceReservation version." when negb (is_num (get r "version") 1) in
      let* rid := nonEmpty (get r "reservationId") "reservationId" in
      let* _ := nonEmpty (get r "runId") "runId" in
      let* _ := nonEmpty (get r "invocationId") "invocationId" in
      throw "A reservation cannot be its own parent."
        when is_str (get r "parentReservationId") rid in
      throw "Reservation resource kind is invalid."
        when negb (match get r "resourceKind" with
                   | VStr k => str_in k RESOURCE_KINDS | _ => false end) in
      let* bound := assertResourceUsage (get r "executableUpperBound") in
      throw "executableUpperBound must use versioned_upper_bound usage."
        when negb (is_str (get bound "source") "versioned_upper_bound") in
      if truthy (get r "actual") then
        let* actual := assertResourceUsage (get r "actual") in
        throw "Reservation actual usage exceeds its executable upper bound."
          when negb (is_str (get actual "source") "actual")
               || negb (withinUpperBound (usageOf (get r "actual"))
                                         (usageOf (get r "executableUpperBound"))) in
        Ok r
      else Ok r
  end.

Definition activeState (state : AgentResourceBudgetState) : res AgentResourceBudgetActiveState :=
  match state with
  | budget_active b => Ok b
  | budget_unconfigured => Throw "Resource budget ledger is unconfigured; execution is blocked."
  end.

Definition replaceReservation (state : AgentResourceBudgetActiveState) (reservation : obj)
  : AgentResourceBudgetActiveState :=
  state <| rb_reservations :=
    oset (js_string (get reservation "reservationId")) reservation (rb_reservations state) |>.

Definition isResourceBudgetEvent (type : string) : bool := String.prefix "resource_budget." type.
Definition isReadinessEvent (type : string) : bool := String.prefix "provider.readiness_" type.

(** [JSON.stringify(a) === JSON.stringify(b)]. *)
Definition sameJson (a b : val) : bool := opt_str_eqb (json_stringify a) (json_stringify b).

(** [a === b] on values that are strings or other primitives. *)
Definition sameKey (a b : val) : bool :=
  match a, b with
  | VStr x, VStr y => x =s y
  | VNum x, VNum y => neqb x y
  | VBool x, VBool y => Bool.eqb x y
  | VNull, VNull | VUndef, VUndef => true
  | _, _ => false
  end.

Section Reducer.
Context `{JsHost}.

(** ** Resource budget *)

Definition budget_configured (state : AgentState) (payload : obj) : res AgentState :=
  let* budget := assertResourceBudget (get payload "budget") in
  let* runId := nonEmpty (get payload "runId") "runId" in
  match get payload "startedAt", get payload "deadlineAt" with
  | VStr startedAt, VStr deadlineAt =>
      match dateParse startedAt, dateParse deadlineAt with
      | Fin started, Fin deadline =>
          throw "Resource budget timestamps are invalid." when deadline <=? started in
          throw "Resource budget deadline exceeds maxRunDurationMs."
            when nltb (numAt budget "maxRunDurationMs") (Fin (fl (deadline - started))) in
          match resourceBudget state with
          | budget_active b =>
              if (rb_runId b =s runId) && (rb_startedAt b =s startedAt)
                 && (rb_deadlineAt b =s deadlineAt)
                 && sameJson (VObj (rb_budget b)) (get payload "budget")
              then Ok state
              else Throw "An active resource budget cannot be replaced."
          | budget_unconfigured =>
              Ok (state <| resourceBudget := budget_active
                    {| rb_runId := runId; rb_startedAt := startedAt; rb_deadlineAt := deadlineAt;
                       rb_budget := budget; rb_reconciledUsage := zeroUsage;
                       rb_reservations := []; rb_waiters := []; rb_nextWaiterSequence := 0 |} |>)
          end
      | _, _ => Throw "Resource budget timestamps are invalid."
      end
  | _, _ => Throw "Resource budget timestamps are invalid."
  end.

Definition parseField (o : obj) (f : string) : num := dateParse (js_string (get o f)).

Definition waiter_enqueued (state : AgentState) (active : AgentResourceBudgetActiveState)
    (payload : obj) : res AgentState :=
  match asObject (get payload "waiter") with
  | None => Throw "Concurrency waiter is invalid."
  | Some waiter =>
      let* runId := nonEmpty (get waiter "runId") "runId" in
      let* invocationId := nonEmpty (get waiter "invocationId") "invocationId" in
      throw "A new concurrency waiter must be version 1 and waiting."
        when negb (is_num (get waiter "version") 1) || negb (state_is waiter "waiting") in
      throw "Concurrency waiter runId mismatch." when negb (runId =s rb_runId active) in
      throw "Concurrency waiter sequence must be the next durable FIFO sequence."
        when negb (is_num (get waiter "sequence") (rb_nextWaiterSequence active)) in
      throw "Concurrency waiter deadline must be after enqueue time."
        when nleb (parseField waiter "deadlineAt") (parseField waiter "enqueuedAt") in
      throw "Concurrency waiter deadline exceeds the persisted run deadline."
        when nltb (dateParse (rb_deadlineAt active)) (parseField waiter "deadlineAt") in
      match oget invocationId (rb_waiters active) with
      | Some existing =>
          if sameJson (VObj existing) (get payload "waiter") then Ok state
          else Throw "Concurrency waiter invocation was reused with different facts."
      | None =>
          Ok (state <| resourceBudget := budget_active
                (active <| rb_waiters := oset invocationId waiter (rb_waiters active) |>
                        <| rb_nextWaiterSequence := fadd (rb_nextWaiterSequence active) 1 |>) |>)
      end
  end.

(** The state a settlement of a waiter leads to. *)
Definition waiterTarget (type : string) : string :=
  if type =s "resource_budget.waiter_promoted" then "promoted"
  else if type =s "resource_budget.waiter_cancelled" then "cancelled" else "timed_out".

Definition waiter_settled (state : AgentState) (active : AgentResourceBudgetActiveState)
    (payload : obj) (targetState : string) : res AgentState :=
  let* invocationId := nonEmpty (get payload "invocationId") "invocationId" in
  match oget invocationId (rb_waiters active) with
  | None => Throw ("Unknown concurrency waiter " +:+ invocationId +:+ ".")
  | Some waiter =>
      if state_is waiter targetState then Ok state
      else
        throw ("Cannot change a " +:+ state_text waiter +:+ " waiter.")
          when negb (state_is waiter "waiting") in
        Ok (state <| resourceBudget := budget_active
              (active <| rb_waiters := oset invocationId (oset "state" (VStr targetState) waiter)
                                            (rb_waiters active) |>) |>)
  end.

(** A reservation other than a released one already serves the invocation. *)
Definition invocationReserved (reservations : ordmap obj) (candidate : obj) : bool :=
  existsb (fun item => sameKey (get item "invocationId") (get candidate "invocationId")
                       && negb (state_is item "released")) (ovalues reservations).

Definition reserved (state : AgentState) (active : AgentResourceBudgetActiveState)
    (payload : obj) : res AgentState :=
  let* candidate := assertReservation (get payload "reservation") in
  throw "A new reservation must be reserved." when negb (state_is candidate "reserved") in
  throw "Reservation runId mismatch." when negb (is_str (get candidate "runId") (rb_runId active)) in
  throw "Parent reservation must exist in the shared ledger."
    when truthy (get candidate "parentReservationId")
         && negb (ohas (js_string (get candidate "parentReservationId"))
                       (rb_reservations active)) in
  match oget (js_string (get candidate "reservationId")) (rb_reservations active) with
  | Some existing =>
      if sameJson (VObj existing) (VObj candidate) then Ok state
      else Throw "Reservation idempotency key was reused with different facts."
  | None =>
      throw "Invocation already has a non-released reservation."
        when invocationReserved (rb_reservations active) candidate in
      let next := replaceReservation active candidate in
      throw "Resource budget exhausted before dispatch."
        when negb (withinBudget (committedUsage next) (rb_budget active)) in
      Ok (state <| resourceBudget := budget_active next |>)
  end.

Definition setReservation (state : AgentState) (active : AgentResourceBudgetActiveState)
    (reservation : obj) (target : string) : AgentState :=
  state <| resourceBudget := budget_active
    (replaceReservation active (oset "state" (VStr target) reservation)) |>.

Definition dispatch_started (state : AgentState) (active : AgentResourceBudgetActiveState)
    (reservation : obj) : res AgentState :=
  if state_is reservation "dispatch_started" then Ok state
  else
    throw ("Cannot dispatch a " +:+ state_text reservation +:+ " reservation.")
      when negb (state_is reservation "reserved") in
    Ok (setReservation state active reservation "dispatch_started").

Definition reconciled (state : AgentState) (active : AgentResourceBudgetActiveState)
    (reservation payload : obj) : res AgentState :=
  let actual := get payload "actual" in
  let* usage := assertResourceUsage actual in
  throw "Reconciliation exceeds the executable upper bound."
    when negb (is_str (get usage "source") "actual")
         || negb (withinUpperBound (usageOf actual)
                                   (usageOf (get reservation "executableUpperBound"))) in
  if state_is reservation "reconciled" then
    if sameJson (get reservation "actual") actual then Ok state
    else Throw "Reconciliation idempotency key was reused with different usage."
  else
    throw ("Cannot reconcile a " +:+ state_text reservation +:+ " reservation.")
      when negb (state_is reservation "dispatch_started")
           && negb (state_is reservation "unknown") in
    let next :=
      (replaceReservation active
         (oset "state" (VStr "reconciled") (oset "actual" actual reservation)))
        <| rb_reconciledUsage := addUsage (rb_reconciledUsage active) (usageOf actual) |> in
    throw "Reconciled usage exceeds the effective resource budget."
      when negb (withinBudget (committedUsage next) (rb_budget active)) in
    Ok (state <| resourceBudget := budget_active next |>).

Definition reservation_released (state : AgentState) (active : AgentResourceBudgetActiveState)
    (reservation payload : obj) : res AgentState :=
  if state_is reservation "released" then Ok state
  else
    throw "Only a proven undispatched reservation can be released."
      when negb (state_is reservation "reserved")
           && negb (state_is reservation "dispatch_started"
                    && opt_str_eqb (stringField payload "proof")
                                   (Some "local_pre_dispatch_failure"%string)) in
    Ok (setReservation state active reservation "released").

Definition reservation_unknown (state : AgentState) (active : AgentResourceBudgetActiveState)
    (reservation : obj) : res AgentState :=
  if state_is reservation "unknown" then Ok state
  else
    throw "Only a pending reservation can become unknown."
      when negb (state_is reservation "dispatch_started")
           && negb (state_is reservation "reserved") in
    Ok (setReservation state active reservation "unknown").

Definition reduceBudget (state : AgentState) (payload : obj) : res AgentState :=
  let t := ev_type payload in
  if t =s "resource_budget.configured" then budget_configured state payload
  else
    let* active := activeState (resourceBudget state) in
    if t =s "resource_budget.waiter_enqueued" then waiter_enqueued state active payload
    else if (t =s "resource_budget.waiter_promoted") || (t =s "resource_budget.waiter_cancelled")
            || (t =s "resource_budget.waiter_timed_out")
    then waiter_settled state active payload (waiterTarget t)
    else if t =s "resource_budget.reserved" then reserved state active payload
    else
      let* reservationId := nonEmpty (get payload "reservationId") "reservationId" in
      match oget reservationId (rb_reservations active) with
      | None => Throw ("Unknown reservation " +:+ reservationId +:+ ".")
      | Some reservation =>
          if t =s "resource_budget.dispatch_started"
          then dispatch_started state active reservation
          else if t =s "resource_budget.reconciled"
          then reconciled state active reservation payload
          else if t =s "resource_budget.released"
          then reservation_released state active reservation payload
          else if t =s "resource_budget.unknown"
          then reservation_unknown state active reservation
          else Ok state
      end.

(** ** Provider readiness *)

Definition field (payload : obj) (f : string) : string := default "" (stringField payload f).

Definition putReadiness (state : AgentState) (key : string) (r : AgentProviderReadinessState)
  : AgentState :=
  state <| providerReadiness := oset key r (providerReadiness state) |>.

(** The event addresses the current lifecycle. *)
Definition sameLifecycle (current : AgentProviderReadinessState) (payload : obj) : bool :=
  opt_str_eqb (Some (rd_lifecycleId current)) (stringField payload "lifecycleId").

Definition readiness_is (r : AgentProviderReadinessState) (s : ReadinessStatus) : bool :=
  bool_decide (rd_status r = s).

Definition readiness_intent_recorded (state : AgentState) (payload : obj) (readinessKey : string)
    (current : option AgentProviderReadinessState) : AgentState :=
  let lifecycleId := stringField payload "lifecycleId" in
  if opt_str_eqb (rd_lifecycleId <$> current) lifecycleId
     || match current with
        | Some c => negb (readiness_is c rd_ready) && negb (readiness_is c rd_failed)
        | None => false
        end
  then state
  else
    putReadiness state readinessKey
      {| rd_readinessKey := readinessKey; rd_lifecycleId := default "" lifecycleId;
         rd_providerId := field payload "providerId";
         rd_routeRevision := field payload "routeRevision";
         rd_executionBoundaryDigest := field payload "executionBoundaryDigest";
         rd_status := rd_prepared; rd_requestedAt := field payload "requestedAt";
         rd_expiresAt := field payload "expiresAt";
         rd_maxAttempts := js_number (nullish (get payload "maxAttempts") (VNum (Fin 0)));
         rd_attempts := Fin 0; rd_waiters := []; rd_readyAt := None;
         rd_providerDirectoryRevision := None; rd_failure := VUndef;
         rd_dispatchCertainty := None |}%string.

Definition readiness_waiter_registered (state : AgentState) (payload : obj)
    (readinessKey : string) (current : option AgentProviderReadinessState) : AgentState :=
  match current, nonEmptyStringField payload "waiterId" with
  | Some c, Some waiterId =>
      if negb (sameLifecycle c payload) || ohas waiterId (rd_waiters c) then state
      else
        putReadiness state readinessKey
          (c <| rd_waiters :=
               oset waiterId {| rw_waiterId := waiterId;
                                rw_toolCallId := field payload "toolCallId";
                                rw_registeredAt := field payload "registeredAt" |}
                    (rd_waiters c) |>)
  | _, _ => state
  end.

Definition readiness_attempt_started (state : AgentState) (payload : obj)
    (readinessKey : string) (current : option AgentProviderReadinessState) : AgentState :=
  let attempt := js_number (nullish (get payload "attempt") (VNum (Fin 0))) in
  let maxAttempts := js_number (nullish (get payload "maxAttempts") (VNum (Fin 0))) in
  match current with
  | None => state
  | Some c =>
      if negb (sameLifecycle c payload)
         || (negb (readiness_is c rd_prepared) && negb (readiness_is c rd_failed))
         || negb (neqb maxAttempts (rd_maxAttempts c))
         || negb (neqb attempt (nadd (rd_attempts c) (Fin 1)))
         || nltb maxAttempts attempt
      then state
      else
        putReadiness state readinessKey
          (c <| rd_status := rd_attempted |> <| rd_attempts := attempt |>
             <| rd_dispatchCertainty := Some "attempted"%string |> <| rd_failure := VUndef |>)
  end.

Definition readiness_succeeded (state : AgentState) (payload : obj)
    (readinessKey : string) (current : option AgentProviderReadinessState) : AgentState :=
  match current with
  | None => state
  | Some c =>
      if negb (sameLifecycle c payload)
         || (negb (readiness_is c rd_prepared) && negb (readiness_is c rd_attempted))
      then state
      else
        putReadiness state readinessKey
          (c <| rd_status := rd_ready |> <| rd_readyAt := Some (field payload "readyAt") |>
             <| rd_expiresAt := field payload "expiresAt" |>
             <| rd_providerDirectoryRevision :=
                  Some (field payload "providerDirectoryRevision") |>
             <| rd_failure := VUndef |>)
  end.

Definition readiness_failed (state : AgentState) (payload : obj)
    (readinessKey : string) (current : option AgentProviderReadinessState) : AgentState :=
  let attempted := opt_str_eqb (stringField payload "dispatchCertainty")
                               (Some "attempted"%string) in
  match current with
  | None => state
  | Some c =>
      if negb (sameLifecycle c payload)
         || (if attempted then negb (readiness_is c rd_attempted)
             else negb (readiness_is c rd_prepared))
      then state
      else
        putReadiness state readinessKey
          (c <| rd_status := rd_failed |> <| rd_failure := get payload "failure" |>
             <| rd_dispatchCertainty :=
                  Some (if attempted then "attempted" else "none")%string |>)
  end.

Definition reduceReadiness (state : AgentState) (payload : obj) : AgentState :=
  match nonEmptyStringField payload "readinessKey" with
  | None => state
  | Some key =>
      let current := oget key (providerReadiness state) in
      let t := ev_type payload in
      if t =s "provider.readiness_intent_recorded"
      then readiness_intent_recorded state payload key current
      else if t =s "provider.readiness_waiter_registered"
      then readiness_waiter_registered state payload key current
      else if t =s "provider.readiness_attempt_started"
      then readiness_attempt_started state payload key current
      else if t =s "provider.readiness_succeeded"
      then readiness_succeeded state payload key current
      else if t =s "provider.readiness_failed"
      then readiness_failed state payload key current
      else state
  end.

Definition reduceLeaseState (state : AgentState) (event : obj) : res AgentState :=
  if isResourceBudgetEvent (ev_type event) then reduceBudget state event
  else if isReadinessEvent (ev_type event) then Ok (reduceReadiness state event)
  else Ok state.
End Reducer.
