(* ===== verification/LeaseProps.v ===== *)
(** * Properties of the lease reducer

    The ledger is accounted in exact integers: [committed] is the sum of the
    upper bounds of the reservations that may still run and of the actual usage
    of those that were reconciled.  The reducer adds doubles; the proofs show
    that every sum it accepts is exact, so that the exact total never exceeds
    the budget. *)

From S2P Require Import Prelude Js Hash State ApprovalQueue Lease.
From stdpp Require Import prelude strings list pretty.
From Stdlib Require Import ZArith Lia.
Open Scope Z_scope.

(** ** Sums over ordered maps *)

Definition zsum (l : list Z) : Z := fold_right Z.add 0 l.
Definition osum {A} (f : A -> Z) (m : ordmap A) : Z := zsum (List.map f (ovalues m)).

Lemma zsum_app a b : zsum (a ++ b) = zsum a + zsum b.
Proof. induction a as [|x a IH]; simpl; [done|]. unfold zsum in *. simpl. lia. Qed.

Lemma zsum_nonneg l : Forall (fun z => 0 <= z) l -> 0 <= zsum l.
Proof. induction 1; unfold zsum in *; simpl; lia. Qed.

Lemma osum_fresh {A} (f : A -> Z) m k v :
  ohas k m = false -> osum f (oset k v m) = osum f m + f v.
Proof.
  intros Hk. unfold osum, ovalues. rewrite okeys_oset_absent by done.
  rewrite !map_app, zsum_app. simpl. lia.
Qed.

Lemma osum_update {A} (f : A -> Z) m k v v' :
  oget k m = Some v -> osum f (oset k v' m) = osum f m - f v + f v'.
Proof.
  unfold osum, ovalues, zsum. induction m as [|[k1 v1] m IH]; simpl; [done|].
  destruct (k =s k1); simpl; intros Hk; [injection Hk as ->; lia|]. rewrite IH by done. lia.
Qed.

Lemma osum_nonneg {A} (f : A -> Z) m : oall (fun _ v => 0 <= f v) m -> 0 <= osum f m.
Proof.
  intros Hm. apply zsum_nonneg. apply List.Forall_forall. intros z Hz.
  apply in_map_iff in Hz as (v & <- & Hv). apply In_ovalues in Hv as [k Hv]. by apply (Hm k).
Qed.

(** A double sum that stays below a safe integer is the exact sum. *)
Lemma fold_fadd_exact l x m :
  0 <= x -> Forall (fun z => 0 <= z) l -> m <= MAX_SAFE_INTEGER ->
  fold_left fadd l x <= m -> fold_left fadd l x = x + zsum l /\ x + zsum l <= m.
Proof.
  intros Hx Hl Hm. induction l as [|y l IH] using rev_ind; [simpl; unfold zsum; simpl; lia|].
  rewrite fold_left_app. simpl. intros Hle.
  apply List.Forall_app in Hl as [Hl Hy]. inversion Hy; subst.
  assert (0 <= fold_left fadd l x) as H0.
  { apply (fold_left_inv fadd (fun z => 0 <= z)); [done|].
    intros a b Hb Ha. rewrite List.Forall_forall in Hl. specialize (Hl _ Hb).
    apply fl_nonneg. lia. }
  apply fadd_le_exact in Hle as [He Hle]; [|done|done|done].
  destruct IH as [IH1 IH2]; [done|lia|]. rewrite zsum_app. unfold zsum at 2 4. simpl. lia.
Qed.

(** ** Quantities *)

(** The additive quantities and the budget field that bounds each. *)
Definition quantities : list ((ResourceUsage -> num) * string) :=
  [(fun u => turns (counters u), "maxTurns");
   (fun u => modelRequests (counters u), "maxModelRequests");
   (fun u => toolInvocations (counters u), "maxToolInvocations");
   (fun u => inputTokens (counters u), "maxRunInputTokens");
   (fun u => outputTokens (counters u), "maxRunOutputTokens");
   (fun u => artifactBytes (counters u), "maxArtifactBytes");
   (fun u => activeSubagents (gauges u), "maxConcurrentSubagents");
   (fun u => activeWriters (gauges u), "maxConcurrentWriters");
   (fun u => activeToolInvocations (gauges u), "maxConcurrentToolInvocations");
   (fun u => activeShellInvocations (gauges u), "maxConcurrentShellInvocations")]%string.

Definition amount (q : ResourceUsage -> num) (u : ResourceUsage) : Z :=
  match q u with Fin z => z | NaN => 0 end.

Definition counted (q : ResourceUsage -> num) (u : ResourceUsage) : Prop :=
  exists z, q u = Fin z /\ 0 <= z.

Definition usage_ok (u : ResourceUsage) : Prop :=
  forall q f, In (q, f) quantities -> counted q u.

Lemma quantity_add q f a b :
  In (q, f) quantities -> q (addUsage a b) = nadd (q a) (q b).
Proof. intros Hin. simpl in Hin. repeat destruct Hin as [[= <- <-]|Hin]; done. Qed.

Lemma quantity_within q f u budget :
  In (q, f) quantities -> withinBudget u budget = true -> nleb (q u) (numAt budget f) = true.
Proof.
  intros Hin Hw. unfold withinBudget in Hw. bool_hyps.
  simpl in Hin. repeat destruct Hin as [[= <- <-]|Hin]; done.
Qed.

Lemma usage_ok_add a b : usage_ok a -> usage_ok b -> usage_ok (addUsage a b).
Proof.
  intros Ha Hb q f Hin. destruct (Ha q f Hin) as (x & Hx & ?), (Hb q f Hin) as (y & Hy & ?).
  unfold counted. rewrite (quantity_add q f) by done. rewrite Hx, Hy. simpl. eexists.
  split; [done|]. apply fl_nonneg. lia.
Qed.

Lemma usage_ok_zero : usage_ok zeroUsage.
Proof.
  intros q f Hin. exists 0. simpl in Hin. repeat destruct Hin as [[= <- <-]|Hin]; done.
Qed.

Lemma counted_amount q u : counted q u -> q u = Fin (amount q u) /\ 0 <= amount q u.
Proof. intros (z & Hz & H0). unfold amount. by rewrite Hz. Qed.

(** ** What the assertions establish *)

Lemma res_iter_ok {A} (f : A -> res unit) l x :
  res_iter f l = Ok tt -> In x l -> f x = Ok tt.
Proof.
  induction l as [|y l IH]; simpl; [done|]. intros Hi [->|Hin].
  - by destruct (f x) as [[]|].
  - destruct (f y) as [[]|]; simpl in Hi; [by apply IH|done].
Qed.

Lemma nonNegative_num o f :
  (let* _ := nonNegativeInteger (get o f) f in Ok tt) = Ok tt ->
  exists z, numAt o f = Fin z /\ 0 <= z <= MAX_SAFE_INTEGER.
Proof.
  unfold numAt, nonNegativeInteger. destruct (get o f) as [| | |[z|]| | |]; simpl; try done.
  destruct (_ && _) eqn:E; simpl; [|done]. intros _. bool_hyps.
  apply isSafeInteger_true in H. exists z. split; [done|lia].
Qed.

Lemma positive_num o f :
  (let* _ := positiveInteger (get o f) f in Ok tt) = Ok tt ->
  exists z, numAt o f = Fin z /\ 0 < z <= MAX_SAFE_INTEGER.
Proof.
  unfold numAt, positiveInteger. destruct (get o f) as [| | |[z|]| | |]; simpl; try done.
  destruct (_ && _) eqn:E; simpl; [|done]. intros _. bool_hyps.
  apply isSafeInteger_true in H. exists z. split; [done|lia].
Qed.

Lemma assertUsage_ok v o : assertResourceUsage v = Ok o -> usage_ok (usageOf v) /\ asObject v = Some o.
Proof.
  unfold assertResourceUsage, usageOf.
  destruct (asObject v) as [u|]; [|done]. cbn [default from_option].
  destruct (asObject (get u "counters")) as [c|] eqn:Ec; [|done].
  destruct (asObject (get u "gauges")) as [g|] eqn:Eg; [|done].
  intros Ha. apply bind_ok in Ha as ([] & E1 & Ha). apply bind_ok in Ha as ([] & E2 & Ha).
  apply bind_ok in Ha as ([] & _ & Ha). apply guard_ok in Ha as [_ Ha].
  apply guard_ok in Ha as [_ [= <-]].
  split; [|done]. intros q f Hin. cbn [default from_option].
  assert (forall x, In x COUNTER_FIELDS -> exists z, numAt c x = Fin z /\ 0 <= z) as H1.
  { intros x Hx. destruct (nonNegative_num c x) as (z & ? & ?); [|exists z; split; [done|lia]].
    by apply (res_iter_ok _ _ _ E1). }
  assert (forall x, In x GAUGE_FIELDS -> exists z, numAt g x = Fin z /\ 0 <= z) as H2.
  { intros x Hx. destruct (nonNegative_num g x) as (z & ? & ?); [|exists z; split; [done|lia]].
    by apply (res_iter_ok _ _ _ E2). }
  simpl in Hin. unfold counted.
  repeat destruct Hin as [[= <- <-]|Hin]; [..|done]; cbn -[numAt];
    rewrite ?Ec, ?Eg; first [apply H1; simpl; tauto | apply H2; simpl; tauto].
Qed.

(** Every limit of an accepted budget is a positive safe integer. *)
Definition budget_ok (budget : obj) : Prop :=
  forall f, In f BUDGET_FIELDS -> exists z, numAt budget f = Fin z /\ 0 < z <= MAX_SAFE_INTEGER.

Lemma assertBudget_ok v o : assertResourceBudget v = Ok o -> budget_ok o.
Proof.
  unfold assertResourceBudget. destruct (asObject v) as [u|]; [|done]. intros Ha.
  apply guard_ok in Ha as [_ Ha]. apply bind_ok in Ha as ([] & E1 & Ha).
  apply guard_ok in Ha as [_ Ha]. apply guard_ok in Ha as [_ [= <-]].
  intros f Hf. apply positive_num. by apply (res_iter_ok _ _ _ E1).
Qed.

Lemma quantity_limit q f : In (q, f) quantities -> In f BUDGET_FIELDS.
Proof. intros Hin. simpl in Hin. repeat destruct Hin as [[= <- <-]|Hin]; simpl; tauto. Qed.

Lemma nonEmpty_ok v f s : nonEmpty v f = Ok s -> v = VStr s.
Proof.
  unfold nonEmpty. destruct v; try done. destruct (str_nonempty _); [|done]. by intros [= ->].
Qed.

(** An accepted candidate: a keyed reservation with a counted upper bound. *)
Lemma assertReservation_ok v r :
  assertReservation v = Ok r ->
  usage_ok (usageOf (get r "executableUpperBound"))
  /\ (exists k, get r "reservationId" = VStr k) /\ (exists i, get r "invocationId" = VStr i).
Proof.
  unfold assertReservation. destruct (asObject v) as [u|]; [|done]. intros Ha.
  apply guard_ok in Ha as [_ Ha]. apply bind_ok in Ha as (k & Ek & Ha).
  apply bind_ok in Ha as (? & _ & Ha). apply bind_ok in Ha as (i & Ei & Ha).
  apply guard_ok in Ha as [_ Ha]. apply guard_ok in Ha as [_ Ha].
  apply bind_ok in Ha as (b & Eb & Ha). apply guard_ok in Ha as [_ Ha].
  assert (u = r) as ->.
  { destruct (truthy _); [|congruence]. apply bind_ok in Ha as (? & _ & Ha).
    apply guard_ok in Ha as [_ Ha]. congruence. }
  apply assertUsage_ok in Eb as [Eb _]. apply nonEmpty_ok in Ek, Ei. eauto.
Qed.

(** ** The ledger *)

Definition bound (r : obj) : ResourceUsage := usageOf (get r "executableUpperBound").

(** What a reservation may still use, and what it was found to have used. *)
Definition held (q : ResourceUsage -> num) (r : obj) : Z :=
  if holdsBound r then amount q (bound r) else 0.
Definition spent (q : ResourceUsage -> num) (r : obj) : Z :=
  if state_is r "reconciled" then amount q (usageOf (get r "actual")) else 0.

(** The exact commitment of the ledger. *)
Definition committed (q : ResourceUsage -> num) (b : AgentResourceBudgetActiveState) : Z :=
  osum (held q) (rb_reservations b) + osum (spent q) (rb_reservations b).

Definition RESERVATION_STATES : list string :=
  ["reserved"; "dispatch_started"; "reconciled"; "released"; "unknown"]%string.

Record reservation_ok (k : string) (r : obj) : Prop := {
  ro_key : get r "reservationId" = VStr k;
  ro_invocation : exists i, get r "invocationId" = VStr i;
  ro_bound : usage_ok (bound r);
  ro_state : exists st, get r "state" = VStr st /\ In st RESERVATION_STATES;
  ro_actual : state_is r "reconciled" = true -> usage_ok (usageOf (get r "actual")) }.

Lemma committed_fold q f l u :
  In (q, f) quantities -> usage_ok u -> Forall (fun r => usage_ok (bound r)) l ->
  q (fold_left (fun usage r => if holdsBound r then addUsage usage (bound r) else usage) l u)
  = Fin (fold_left fadd (List.map (fun r => amount q (bound r)) (List.filter holdsBound l))
           (amount q u)).
Proof.
  intros Hq. revert u. induction l as [|r l IH]; intros u Hu Hl; simpl.
  - by apply counted_amount, (Hu q f).
  - inversion Hl; subst. destruct (holdsBound r); [|by apply IH].
    rewrite IH; [|by apply usage_ok_add|done]. simpl. f_equal. f_equal. unfold amount at 1.
    rewrite (quantity_add q f) by done.
    destruct (counted_amount q u) as [-> _]; [by apply (Hu q f)|].
    destruct (counted_amount q (bound r)) as [-> _]; [by eapply H1|]. done.
Qed.

Lemma held_sum q (m : ordmap obj) :
  zsum (List.map (fun r => amount q (bound r)) (List.filter holdsBound (ovalues m)))
  = osum (held q) m.
Proof.
  unfold osum, held. induction (ovalues m) as [|r l IH]; simpl; [done|].
  destruct (holdsBound r); simpl; unfold zsum in *; simpl; lia.
Qed.

(** An accepted double total bounds the exact one. *)
Lemma within_exact q f b limit :
  In (q, f) quantities -> oall reservation_ok (rb_reservations b) ->
  usage_ok (rb_reconciledUsage b) -> numAt (rb_budget b) f = Fin limit ->
  limit <= MAX_SAFE_INTEGER -> withinBudget (committedUsage b) (rb_budget b) = true ->
  amount q (rb_reconciledUsage b) + osum (held q) (rb_reservations b) <= limit.
Proof.
  intros Hq Hr Hu Hf Hlim Hw. apply (quantity_within q f) in Hw; [|done].
  assert (Forall (fun r => usage_ok (bound r)) (ovalues (rb_reservations b))) as Hl.
  { apply List.Forall_forall. intros r Hin. apply In_ovalues in Hin as [k Hin]. by apply (Hr k). }
  unfold committedUsage in Hw. rewrite Hf in Hw.
  pose proof (committed_fold q f _ _ Hq Hu Hl) as Hfold. unfold bound in Hfold at 1.
  rewrite Hfold in Hw. simpl in Hw. apply Z.leb_le in Hw.
  apply fold_fadd_exact in Hw as [_ Hle]; [|by apply counted_amount, (Hu q f)| |done].
  - by rewrite held_sum in Hle.
  - apply List.Forall_forall. intros z Hz. apply in_map_iff in Hz as (r & <- & Hin).
    apply filter_In in Hin as [Hin _]. rewrite List.Forall_forall in Hl.
    by apply counted_amount, (Hl r Hin q f).
Qed.

(** At most one live reservation per invocation. *)
Definition single_use (m : ordmap obj) : Prop :=
  forall k1 k2 r1 r2, oget k1 m = Some r1 -> oget k2 m = Some r2 ->
    state_is r1 "released" = false -> state_is r2 "released" = false ->
    get r1 "invocationId" = get r2 "invocationId" -> k1 = k2.

Record ledger_inv (b : AgentResourceBudgetActiveState) : Prop := {
  li_budget : budget_ok (rb_budget b);
  li_nodup : NoDup (okeys (rb_reservations b));
  li_reservations : oall reservation_ok (rb_reservations b);
  li_usage : usage_ok (rb_reconciledUsage b);
  li_spent : forall q f, In (q, f) quantities ->
    amount q (rb_reconciledUsage b) = osum (spent q) (rb_reservations b);
  li_within : forall q f limit, In (q, f) quantities -> numAt (rb_budget b) f = Fin limit ->
    committed q b <= limit;
  li_single : single_use (rb_reservations b) }.

Lemma limit_safe b q f limit :
  budget_ok (rb_budget b) -> In (q, f) quantities -> numAt (rb_budget b) f = Fin limit ->
  0 < limit <= MAX_SAFE_INTEGER.
Proof.
  intros Hb Hq Hf. destruct (Hb f (quantity_limit q f Hq)) as (z & Hz & ?). congruence.
Qed.

Lemma held_nonneg q f m :
  In (q, f) quantities -> oall reservation_ok m -> 0 <= osum (held q) m.
Proof.
  intros Hq Hm. apply osum_nonneg. intros k r Hin. unfold held.
  destruct (holdsBound r); [|done]. apply counted_amount. by apply (ro_bound _ _ (Hm k r Hin) q f).
Qed.

(** ** Updates of one reservation *)

Definition with_state (target : string) (r : obj) : obj := oset "state" (VStr target) r.

Lemma with_state_is target r st : state_is (with_state target r) st = (target =s st).
Proof. unfold state_is, with_state. by rewrite get_oset_eq. Qed.

Lemma with_state_get target r f : f <> "state"%string -> get (with_state target r) f = get r f.
Proof. intros Hf. unfold with_state. by rewrite get_oset_ne. Qed.

(** A reservation that holds its bound is neither reconciled nor released. *)
Lemma holds_open r :
  holdsBound r = true -> state_is r "reconciled" = false /\ state_is r "released" = false.
Proof.
  unfold holdsBound, state_is. simpl. destruct (get r "state"); simpl; try done.
  destruct (s =s "reserved") eqn:E1; bool_hyps; [by subst|].
  destruct (s =s "dispatch_started") eqn:E2; bool_hyps; [by subst|].
  destruct (s =s "unknown") eqn:E3; bool_hyps; [by subst|done].
Qed.

Definition OPEN_TARGETS : list string := ["dispatch_started"; "released"; "unknown"]%string.

Lemma reservation_ok_state k r target :
  In target OPEN_TARGETS -> reservation_ok k r -> reservation_ok k (with_state target r).
Proof.
  intros Ht [Hk Hi Hb Hs Ha]. constructor.
  - by rewrite with_state_get.
  - by rewrite with_state_get.
  - unfold bound. by rewrite with_state_get.
  - exists target. split; [apply get_oset_eq|]. unfold OPEN_TARGETS, RESERVATION_STATES in *.
    simpl in *. intuition.
  - rewrite with_state_is. simpl in Ht. by destruct Ht as [<-|[<-|[<-|[]]]].
Qed.

Lemma single_use_update m k r r' :
  single_use m -> oget k m = Some r -> state_is r "released" = false ->
  get r' "invocationId" = get r "invocationId" -> single_use (oset k r' m).
Proof.
  intros Hs Hk Hr Hi k1 k2 r1 r2. rewrite !oget_oset.
  destruct (k1 =s k) eqn:E1, (k2 =s k) eqn:E2; bool_hyps; subst; intros H1 H2 Hr1 Hr2 He.
  - done.
  - injection H1 as <-. apply (Hs k k2 r r2); congruence.
  - injection H2 as <-. apply (Hs k1 k r1 r); congruence.
  - by apply (Hs k1 k2 r1 r2).
Qed.

Lemma replace_key b k r : get r "reservationId" = VStr k ->
  replaceReservation b r = b <| rb_reservations := oset k r (rb_reservations b) |>.
Proof. intros Hk. unfold replaceReservation. by rewrite Hk. Qed.

Lemma ledger_state b k r target :
  ledger_inv b -> oget k (rb_reservations b) = Some r -> holdsBound r = true ->
  In target OPEN_TARGETS -> ledger_inv (replaceReservation b (with_state target r)).
Proof.
  intros Hi Hk Hh Ht. destruct (holds_open r Hh) as [Hrec Hrel].
  pose proof (oall_oget _ _ _ _ (li_reservations b Hi) Hk) as Hok.
  pose proof (reservation_ok_state k r target Ht Hok) as Hok'.
  rewrite (replace_key _ k) by apply Hok'.
  assert (forall q, spent q (with_state target r) = spent q r) as Hspent.
  { intros q. unfold spent. rewrite Hrec, with_state_is. simpl in Ht.
    by destruct Ht as [<-|[<-|[<-|[]]]]. }
  assert (forall q f, In (q, f) quantities -> held q (with_state target r) <= held q r) as Hheld.
  { intros q f Hq. unfold held at 2. rewrite Hh. unfold held, bound. rewrite with_state_get by done.
    pose proof (counted_amount q _ (ro_bound _ _ Hok q f Hq)) as [_ ?]. unfold bound in *.
    destruct (holdsBound (with_state target r)); lia. }
  destruct Hi as [Hb Hnd Hr Hu Hs Hw Hsg]. constructor; simpl.
  - done.
  - by apply oset_NoDup.
  - by apply oall_oset.
  - done.
  - intros q f Hq. rewrite (osum_update _ _ _ _ _ Hk), Hspent, (Hs q f Hq). lia.
  - intros q f limit Hq Hf. specialize (Hw q f limit Hq Hf). unfold committed in *. simpl.
    rewrite !(osum_update _ _ _ _ _ Hk), Hspent. specialize (Hheld q f Hq). lia.
  - apply (single_use_update _ _ _ _ Hsg Hk Hrel). by rewrite with_state_get.
Qed.

Lemma ledger_reserve b k r :
  ledger_inv b -> reservation_ok k r -> state_is r "reserved" = true ->
  oget k (rb_reservations b) = None -> invocationReserved (rb_reservations b) r = false ->
  withinBudget (committedUsage (replaceReservation b r)) (rb_budget b) = true ->
  ledger_inv (replaceReservation b r).
Proof.
  intros Hi Hok Hst Hk Hinv Hwb. rewrite (replace_key b k r) in * by apply Hok.
  assert (ohas k (rb_reservations b) = false) as Hf by (unfold ohas; by rewrite Hk).
  assert (forall q, spent q r = 0) as Hspent.
  { intros q. unfold spent, state_is in *. destruct (get r "state"); try done. simpl in *.
    bool_hyps. by subst. }
  destruct Hi as [Hb Hnd Hr Hu Hs Hw Hsg].
  set (b' := b <| rb_reservations := oset k r (rb_reservations b) |>) in *.
  assert (oall reservation_ok (rb_reservations b')) as Hr' by (by apply oall_oset).
  assert (forall q f, In (q, f) quantities ->
    amount q (rb_reconciledUsage b') = osum (spent q) (rb_reservations b')) as Hs'.
  { intros q f Hq. simpl. rewrite osum_fresh, Hspent, (Hs q f Hq) by done. lia. }
  constructor; try done.
  - by apply oset_NoDup.
  - intros q f limit Hq Hl. pose proof (limit_safe b q f limit Hb Hq Hl).
    assert (amount q (rb_reconciledUsage b') + osum (held q) (rb_reservations b') <= limit)
      by (apply (within_exact q f); try done; lia).
    unfold committed. rewrite <- (Hs' q f Hq). lia.
  - assert (forall k1 r1, oget k1 (rb_reservations b) = Some r1 ->
      state_is r1 "released" = false -> get r1 "invocationId" = get r "invocationId" -> False) as Hx.
    { intros k1 r1 H1 Hrel He. unfold invocationReserved in Hinv.
      assert (existsb (fun item => sameKey (get item "invocationId") (get r "invocationId")
        && negb (state_is item "released")) (ovalues (rb_reservations b)) = true) as Hc; [|congruence].
      apply existsb_exists. exists r1. split.
      - apply In_ovalues. exists k1. by apply oget_In.
      - rewrite He, Hrel. destruct (ro_invocation _ _ Hok) as [i ->]. simpl.
        by rewrite String.eqb_refl. }
    intros k1 k2 r1 r2. simpl. rewrite !oget_oset.
    destruct (k1 =s k) eqn:E1, (k2 =s k) eqn:E2; bool_hyps; subst; intros H1 H2 Hr1 Hr2 He.
    + done.
    + injection H1 as <-. exfalso. by apply (Hx k2 r2).
    + injection H2 as <-. exfalso. by apply (Hx k1 r1).
    + by apply (Hsg k1 k2 r1 r2).
Qed.

(** The reservation a reconciliation leaves. *)
Definition reconcile_reservation (actual : val) (r : obj) : obj :=
  with_state "reconciled" (oset "actual" actual r).

Lemma reconcile_get actual r f :
  f <> "state"%string -> f <> "actual"%string ->
  get (reconcile_reservation actual r) f = get r f.
Proof. intros Hs Ha. unfold reconcile_reservation. by rewrite with_state_get, get_oset_ne. Qed.

Lemma ledger_reconcile b k r actual :
  ledger_inv b -> oget k (rb_reservations b) = Some r -> holdsBound r = true ->
  usage_ok (usageOf actual) ->
  let b' := (replaceReservation b (reconcile_reservation actual r))
              <| rb_reconciledUsage := addUsage (rb_reconciledUsage b) (usageOf actual) |> in
  withinBudget (committedUsage b') (rb_budget b) = true -> ledger_inv b'.
Proof.
  intros Hi Hk Hh Hu b' Hwb. destruct (holds_open r Hh) as [Hrec Hrel].
  pose proof (oall_oget _ _ _ _ (li_reservations b Hi) Hk) as [Hrk Hri Hrb Hrs _].
  set (r' := reconcile_reservation actual r) in *.
  assert (get r' "actual" = actual) as Hact.
  { unfold r', reconcile_reservation. rewrite with_state_get by done. apply get_oset_eq. }
  assert (forall st, state_is r' st = ("reconciled" =s st)%string) as Hstate
    by apply with_state_is.
  assert (get r' "reservationId" = VStr k) as Hkey by (unfold r'; by rewrite reconcile_get).
  assert (reservation_ok k r') as Hok'.
  { constructor; [done| | | |].
    - unfold r'. by rewrite reconcile_get.
    - unfold bound, r'. by rewrite reconcile_get.
    - exists "reconciled"%string. split; [apply get_oset_eq|]. simpl. tauto.
    - by rewrite Hact. }
  assert (forall q, held q r' = 0 /\ spent q r' = amount q (usageOf actual) /\ spent q r = 0) as Hq.
  { intros q. unfold held, spent, holdsBound. simpl. rewrite !Hstate, Hact, Hrec. done. }
  subst b'. rewrite (replace_key b k r' Hkey) in *.
  destruct Hi as [Hb Hnd Hr Hus Hs Hw Hsg].
  set (b' := _ <| rb_reconciledUsage := _ |>) in *.
  assert (oall reservation_ok (rb_reservations b')) as Hr' by (by apply oall_oset).
  assert (usage_ok (rb_reconciledUsage b')) as Hu' by (by apply usage_ok_add).
  assert (forall q f limit, In (q, f) quantities -> numAt (rb_budget b) f = Fin limit ->
    amount q (rb_reconciledUsage b') + osum (held q) (rb_reservations b') <= limit
    /\ amount q (rb_reconciledUsage b') = osum (spent q) (rb_reservations b')) as Hmain.
  { intros q f limit Hqf Hl. pose proof (limit_safe b q f limit Hb Hqf Hl) as Hlim.
    assert (amount q (rb_reconciledUsage b') + osum (held q) (rb_reservations b') <= limit) as Hle
      by (apply (within_exact q f); try done; lia).
    split; [done|]. pose proof (held_nonneg q f _ Hqf Hr') as Hh0.
    destruct (counted_amount q _ (Hus q f Hqf)) as [Ha0 Hn0].
    destruct (counted_amount q _ (Hu q f Hqf)) as [Ha1 Hn1].
    assert (amount q (rb_reconciledUsage b') =
            fadd (amount q (rb_reconciledUsage b)) (amount q (usageOf actual))) as Hadd.
    { unfold amount at 1. simpl. rewrite (quantity_add q f) by done. by rewrite Ha0, Ha1. }
    destruct (fadd_le_exact (amount q (rb_reconciledUsage b)) (amount q (usageOf actual)) limit)
      as [He _]; [done|done|lia|lia|].
    simpl rb_reservations. rewrite (osum_update _ _ _ _ _ Hk). destruct (Hq q) as (_ & -> & ->).
    rewrite Hadd, He, (Hs q f Hqf). lia. }
  constructor; try done.
  - by apply oset_NoDup.
  - intros q f Hqf. destruct (Hb f (quantity_limit q f Hqf)) as (z & Hz & _).
    by apply (Hmain q f z).
  - intros q f limit Hqf Hl. destruct (Hmain q f limit Hqf Hl). unfold committed. lia.
  - apply (single_use_update _ _ _ _ Hsg Hk Hrel). unfold r'. by rewrite reconcile_get.
Qed.

(** ** The ledger machine *)

Definition WAITER_TARGETS : list string := ["promoted"; "cancelled"; "timed_out"]%string.

(** One accepted event on an active ledger. *)
Inductive ledger_step (b : AgentResourceBudgetActiveState)
  : AgentResourceBudgetActiveState -> Prop :=
| ls_enqueue i w :
    get w "invocationId" = VStr i -> oget i (rb_waiters b) = None ->
    get w "sequence" = VNum (Fin (rb_nextWaiterSequence b)) -> state_is w "waiting" = true ->
    ledger_step b (b <| rb_waiters := oset i w (rb_waiters b) |>
                     <| rb_nextWaiterSequence := fadd (rb_nextWaiterSequence b) 1 |>)
| ls_settle i w target :
    oget i (rb_waiters b) = Some w -> state_is w "waiting" = true -> In target WAITER_TARGETS ->
    ledger_step b (b <| rb_waiters := oset i (with_state target w) (rb_waiters b) |>)
| ls_reserve k r :
    reservation_ok k r -> state_is r "reserved" = true -> oget k (rb_reservations b) = None ->
    invocationReserved (rb_reservations b) r = false ->
    withinBudget (committedUsage (replaceReservation b r)) (rb_budget b) = true ->
    ledger_step b (replaceReservation b r)
| ls_dispatch k r :
    oget k (rb_reservations b) = Some r -> state_is r "reserved" = true ->
    ledger_step b (replaceReservation b (with_state "dispatch_started" r))
| ls_release k r :
    oget k (rb_reservations b) = Some r ->
    state_is r "reserved" = true \/ state_is r "dispatch_started" = true ->
    ledger_step b (replaceReservation b (with_state "released" r))
| ls_unknown k r :
    oget k (rb_reservations b) = Some r ->
    state_is r "reserved" = true \/ state_is r "dispatch_started" = true ->
    ledger_step b (replaceReservation b (with_state "unknown" r))
| ls_reconcile k r actual :
    oget k (rb_reservations b) = Some r ->
    state_is r "dispatch_started" = true \/ state_is r "unknown" = true ->
    usage_ok (usageOf actual) -> withinUpperBound (usageOf actual) (bound r) = true ->
    let b' := (replaceReservation b (reconcile_reservation actual r))
                <| rb_reconciledUsage := addUsage (rb_reconciledUsage b) (usageOf actual) |> in
    withinBudget (committedUsage b') (rb_budget b) = true -> ledger_step b b'.

Lemma state_holds r st : In st ["reserved"; "dispatch_started"; "unknown"]%string ->
  state_is r st = true -> holdsBound r = true.
Proof. intros Hin Hst. apply existsb_exists. by exists st. Qed.

Lemma ledger_inv_step b b' : ledger_inv b -> ledger_step b b' -> ledger_inv b'.
Proof.
  intros Hi Hs. inversion Hs; subst.
  - by destruct Hi.
  - by destruct Hi.
  - by apply (ledger_reserve b k r).
  - apply (ledger_state b k r); try done; [|simpl; tauto]. by eapply state_holds; [left|].
  - apply (ledger_state b k r); try done; [|simpl; tauto].
    destruct H0; eapply state_holds; try eassumption; simpl; tauto.
  - apply (ledger_state b k r); try done; [|simpl; tauto].
    destruct H0; eapply state_holds; try eassumption; simpl; tauto.
  - apply (ledger_reconcile b k r); try done.
    destruct H0; eapply state_holds; try eassumption; simpl; tauto.
Qed.

Section Budget.
Context `{JsHost}.

(** What an accepted budget event does. *)
Definition budget_effect (s s' : AgentState) : Prop :=
  s' = s
  \/ (resourceBudget s = budget_unconfigured
      /\ exists b, s' = s <| resourceBudget := budget_active b |> /\ budget_ok (rb_budget b)
           /\ rb_reservations b = [] /\ rb_waiters b = [] /\ rb_nextWaiterSequence b = 0
           /\ rb_reconciledUsage b = zeroUsage)
  \/ (exists b b', resourceBudget s = budget_active b
      /\ s' = s <| resourceBudget := budget_active b' |> /\ ledger_step b b').

Lemma configured_effect s e s' : budget_configured s e = Ok s' -> budget_effect s s'.
Proof.
  unfold budget_configured. intros Hc. apply bind_ok in Hc as (budget & Hb & Hc).
  apply bind_ok in Hc as (rid & _ & Hc). apply assertBudget_ok in Hb.
  destruct (get e "startedAt"); try done. destruct (get e "deadlineAt"); try done.
  destruct (dateParse _); [|done]. destruct (dateParse _); [|done].
  apply guard_ok in Hc as [_ Hc]. apply guard_ok in Hc as [_ Hc].
  destruct (resourceBudget s) eqn:Er.
  - injection Hc as <-. right. left. split; [done|]. eexists. by split_and!.
  - destruct (_ && _); [|done]. injection Hc as <-. by left.
Qed.

Lemma enqueued_effect s b e s' :
  resourceBudget s = budget_active b -> waiter_enqueued s b e = Ok s' -> budget_effect s s'.
Proof.
  unfold waiter_enqueued. intros Hb Hc. destruct (asObject _) as [w|]; [|done].
  apply bind_ok in Hc as (rid & _ & Hc). apply bind_ok in Hc as (i & Hi & Hc).
  apply guard_ok in Hc as [Hst Hc]. apply guard_ok in Hc as [_ Hc].
  apply guard_ok in Hc as [Hseq Hc]. apply guard_ok in Hc as [_ Hc].
  apply guard_ok in Hc as [_ Hc]. bool_hyps. apply nonEmpty_ok in Hi.
  destruct (oget i _) eqn:Eo.
  - destruct (sameJson _ _); [|done]. injection Hc as <-. by left.
  - injection Hc as <-. right. right. do 2 eexists. split_and!; try done.
    apply ls_enqueue; try done.
    destruct (get w "sequence") as [| | |[z|]| | |]; simpl in Hseq; try done. bool_hyps. by subst.
Qed.

Lemma settled_effect s b e t s' :
  In t WAITER_TARGETS -> resourceBudget s = budget_active b ->
  waiter_settled s b e t = Ok s' -> budget_effect s s'.
Proof.
  unfold waiter_settled. intros Ht Hb Hc. apply bind_ok in Hc as (i & _ & Hc).
  destruct (oget i _) as [w|] eqn:Eo; [|done].
  destruct (state_is w t); [injection Hc as <-; by left|].
  apply guard_ok in Hc as [Hst [= <-]]. bool_hyps.
  right. right. do 2 eexists. split_and!; try done. by apply ls_settle.
Qed.

Lemma reserved_effect s b e s' :
  resourceBudget s = budget_active b -> reserved s b e = Ok s' -> budget_effect s s'.
Proof.
  unfold reserved. intros Hb Hc. apply bind_ok in Hc as (r & Hr & Hc).
  apply guard_ok in Hc as [Hst Hc]. apply guard_ok in Hc as [_ Hc].
  apply guard_ok in Hc as [_ Hc]. bool_hyps.
  apply assertReservation_ok in Hr as (Hu & (k & Hk) & Hi). rewrite Hk in Hc. simpl in Hc.
  destruct (oget k _) eqn:Eo.
  - destruct (sameJson _ _); [|done]. injection Hc as <-. by left.
  - apply guard_ok in Hc as [Hinv Hc]. apply guard_ok in Hc as [Hw [= <-]]. bool_hyps.
    right. right. do 2 eexists. split_and!; try done. apply (ls_reserve b k); try done.
    constructor; try done.
    + exists "reserved"%string. split; [by apply is_str_true|simpl; tauto].
    + unfold state_is in *. apply is_str_true in Hst. by rewrite Hst.
Qed.

Lemma reconciled_effect s b e k r s' :
  resourceBudget s = budget_active b -> oget k (rb_reservations b) = Some r ->
  reconciled s b r e = Ok s' -> budget_effect s s'.
Proof.
  unfold reconciled. intros Hb Hk Hc. apply bind_ok in Hc as (u & Hu & Hc).
  apply guard_ok in Hc as [Hw Hc]. bool_hyps. apply assertUsage_ok in Hu as [Hu _].
  destruct (state_is r "reconciled").
  { destruct (sameJson _ _); [|done]. injection Hc as <-. by left. }
  apply guard_ok in Hc as [Hst Hc]. apply guard_ok in Hc as [Hwb [= <-]]. bool_hyps.
  right. right. do 2 eexists. split_and!; try done. apply (ls_reconcile b k r); try done.
  apply andb_false_iff in Hst as [Hst|Hst]; bool_hyps; auto.
Qed.

Lemma reduceBudget_effect s e s' : reduceBudget s e = Ok s' -> budget_effect s s'.
Proof.
  unfold reduceBudget. destruct (_ =s "resource_budget.configured"); [apply configured_effect|].
  intros Hc. apply bind_ok in Hc as (b & Hb & Hc).
  assert (resourceBudget s = budget_active b) as Ha.
  { destruct (resourceBudget s); simpl in Hb; congruence. }
  destruct (_ =s "resource_budget.waiter_enqueued"); [by eapply enqueued_effect|].
  destruct (_ || _).
  { eapply settled_effect; try done. unfold waiterTarget. repeat case_match; simpl; tauto. }
  destruct (_ =s "resource_budget.reserved"); [by eapply reserved_effect|].
  apply bind_ok in Hc as (k & _ & Hc). destruct (oget k _) as [r|] eqn:Ek; [|done].
  destruct (_ =s _).
  { unfold dispatch_started in Hc. destruct (state_is r _); [injection Hc as <-; by left|].
    apply guard_ok in Hc as [Hst [= <-]]. bool_hyps. right. right. do 2 eexists.
    split_and!; try done. by apply (ls_dispatch b k). }
  destruct (_ =s _); [by eapply reconciled_effect|].
  destruct (_ =s _).
  { unfold reservation_released in Hc. destruct (state_is r _); [injection Hc as <-; by left|].
    apply guard_ok in Hc as [Hst [= <-]]. right. right. do 2 eexists. split_and!; try done.
    apply (ls_release b k); try done. apply andb_false_iff in Hst as [Hst|Hst]; bool_hyps; auto. }
  destruct (_ =s _); [|injection Hc as <-; by left].
  unfold reservation_unknown in Hc. destruct (state_is r _); [injection Hc as <-; by left|].
  apply guard_ok in Hc as [Hst [= <-]]. right. right. do 2 eexists. split_and!; try done.
  apply (ls_unknown b k); try done. apply andb_false_iff in Hst as [Hst|Hst]; bool_hyps; auto.
Qed.
End Budget.
