(* ===== verification/LeaseClaims.v ===== *)
(** * What the lease reducer guarantees

    Histories skip the events the reducer refuses: a thrown error leaves the
    state as it was. *)

From S2P Require Import Prelude Js Hash State ApprovalQueue Lease LeaseProps Sample.
From stdpp Require Import prelude strings list pretty.
From Stdlib Require Import ZArith Lia.
Open Scope Z_scope.

Section Histories.
Context {host : JsHost}.

Definition lease_step (s : AgentState) (e : obj) : AgentState :=
  match reduceLeaseState s e with Ok s' => s' | Throw _ => s end.

Definition lease_run (s : AgentState) (es : list obj) : AgentState := fold_left lease_step es s.

(** Readiness events leave the budget alone. *)
Lemma readiness_budget s e : resourceBudget (reduceReadiness s e) = resourceBudget s.
Proof.
  unfold reduceReadiness, readiness_intent_recorded, readiness_waiter_registered,
    readiness_attempt_started, readiness_succeeded, readiness_failed.
  repeat case_match; reflexivity.
Qed.

(** One event on the budget: nothing, the configuration, or a machine step. *)
Lemma lease_budget s e :
  let s' := lease_step s e in
  resourceBudget s' = resourceBudget s
  \/ (resourceBudget s = budget_unconfigured
      /\ exists b, resourceBudget s' = budget_active b /\ budget_ok (rb_budget b)
           /\ rb_reservations b = [] /\ rb_waiters b = [] /\ rb_nextWaiterSequence b = 0
           /\ rb_reconciledUsage b = zeroUsage)
  \/ (exists b b', resourceBudget s = budget_active b /\ resourceBudget s' = budget_active b'
      /\ ledger_step b b').
Proof.
  unfold lease_step, reduceLeaseState.
  destruct (isResourceBudgetEvent _).
  - destruct (reduceBudget s e) as [s'|] eqn:Er; [|by left].
    destruct (reduceBudget_effect s e s' Er) as [->|[(Hu & b & -> & Hb)|(b & b' & Hb & -> & Hs)]].
    + by left.
    + right. left. split; [done|]. by exists b.
    + right. right. by exists b, b'.
  - destruct (isReadinessEvent _); [left; apply readiness_budget|by left].
Qed.

Lemma initial_ledger b :
  budget_ok (rb_budget b) -> rb_reservations b = [] -> rb_reconciledUsage b = zeroUsage ->
  ledger_inv b.
Proof.
  intros Hb Hr Hz. constructor; rewrite ?Hr, ?Hz; try done.
  - apply NoDup_nil_2.
  - apply usage_ok_zero.
  - intros q f Hq. simpl in Hq. repeat destruct Hq as [[= <- <-]|Hq]; done.
  - intros q f limit Hq Hl. pose proof (limit_safe b q f limit Hb Hq Hl).
    unfold committed. rewrite Hr. unfold osum. simpl. unfold zsum. simpl. lia.
Qed.

Definition budget_inv (P : AgentResourceBudgetActiveState -> Prop) (s : AgentState) : Prop :=
  forall b, resourceBudget s = budget_active b -> P b.

(** Induction over histories for a property of the active ledger. *)
Lemma ledger_history (P : AgentResourceBudgetActiveState -> Prop) s es :
  (forall b, budget_ok (rb_budget b) -> rb_reservations b = [] -> rb_waiters b = [] ->
     rb_nextWaiterSequence b = 0 -> rb_reconciledUsage b = zeroUsage -> P b) ->
  (forall b b', P b -> ledger_step b b' -> P b') ->
  resourceBudget s = budget_unconfigured -> budget_inv P (lease_run s es).
Proof.
  intros Hinit Hstep Hs. unfold lease_run. apply fold_left_inv.
  - intros b Hb. congruence.
  - intros s' e _ Hinv b Hb.
    destruct (lease_budget s' e) as [Hx|[(_ & b0 & Hb0 & ? & ? & ? & ? & ?)|(b1 & b2 & H1 & H2 & Hst)]].
    + apply Hinv. congruence.
    + rewrite Hb0 in Hb. injection Hb as <-. by apply Hinit.
    + rewrite H2 in Hb. injection Hb as <-. eapply Hstep; [|done]. by apply Hinv.
Qed.

Lemma ledger_inv_history s es :
  resourceBudget s = budget_unconfigured -> budget_inv ledger_inv (lease_run s es).
Proof.
  apply ledger_history.
  - intros. by apply initial_ledger.
  - intros b b'. by apply ledger_inv_step.
Qed.

(** ** Reservations *)

(** Fields that identify a reservation. *)
Definition same_reservation (r r' : obj) : Prop :=
  forall f, f <> "state"%string -> f <> "actual"%string -> get r' f = get r f.

(** The edges of the reservation lifecycle. *)
Definition reservation_edge (from to : string) : bool :=
  (from =s to)
  || ((from =s "reserved") && str_in to ["dispatch_started"; "released"; "unknown"])
  || ((from =s "dispatch_started") && str_in to ["reconciled"; "released"; "unknown"])
  || ((from =s "unknown") && (to =s "reconciled")).

Definition closed (r : obj) : bool := state_is r "reconciled" || state_is r "released".

Lemma same_reservation_state t r : same_reservation r (with_state t r).
Proof. intros f Hs _. by apply with_state_get. Qed.

Lemma same_reservation_reconcile a r : same_reservation r (reconcile_reservation a r).
Proof. intros f Hs Ha. by apply reconcile_get. Qed.

Lemma replace_lookup b r k k0 r0 :
  get r "reservationId" = VStr k0 -> oget k (rb_reservations b) = Some r0 ->
  oget k (rb_reservations (replaceReservation b r)) = Some (if k =s k0 then r else r0).
Proof.
  intros Hk0 Hk. rewrite (replace_key b k0) by done. simpl. rewrite oget_oset.
  by destruct (k =s k0).
Qed.

Lemma step_reservation b b' k r :
  ledger_inv b -> ledger_step b b' -> oget k (rb_reservations b) = Some r ->
  exists r', oget k (rb_reservations b') = Some r' /\ same_reservation r r'
    /\ (r' = r \/ (closed r = false /\
          exists t t', get r "state" = VStr t /\ get r' "state" = VStr t'
                       /\ reservation_edge t t' = true)).
Proof.
  intros Hi Hs Hk.
  assert (forall k0 r0 rnew t', oget k0 (rb_reservations b) = Some r0 ->
    same_reservation r0 rnew -> get rnew "state" = VStr t' -> closed r0 = false ->
    (exists t, get r0 "state" = VStr t /\ reservation_edge t t' = true) ->
    exists r', oget k (rb_reservations (replaceReservation b rnew)) = Some r' /\ same_reservation r r'
      /\ (r' = r \/ (closed r = false /\
          exists t t', get r "state" = VStr t /\ get r' "state" = VStr t'
                       /\ reservation_edge t t' = true))) as Hset.
  { intros k0 r0 rnew t' H0 Hsame Ht' Hc (t & Ht & He).
    pose proof (oall_oget _ _ _ _ (li_reservations b Hi) H0) as Hok.
    rewrite (replace_lookup b rnew k k0 r); [|rewrite Hsame by done; apply Hok|done].
    destruct (k =s k0) eqn:E; bool_hyps.
    - subst. rewrite Hk in H0. injection H0 as <-. exists rnew. split_and!; try done.
      right. split; [done|]. by exists t, t'.
    - exists r. split_and!; try done. by left. }
  inversion Hs; subst; try (exists r; split_and!; [done|done|by left]).
  - pose proof (ro_key _ _ H) as Hkey. rewrite (replace_lookup b r0 k k0 r Hkey Hk).
    destruct (k =s k0) eqn:E; bool_hyps; [subst; congruence|].
    exists r. split_and!; try done. by left.
  - apply is_str_true in H0. eapply (Hset k0 r0); [done|apply same_reservation_state|apply get_oset_eq| |].
    + unfold closed, state_is. by rewrite H0.
    + by exists "reserved"%string.
  - eapply (Hset k0 r0); [done|apply same_reservation_state|apply get_oset_eq| |];
      destruct H0 as [H0|H0]; apply is_str_true in H0;
      first [unfold closed, state_is; by rewrite H0 | by eexists].
  - eapply (Hset k0 r0); [done|apply same_reservation_state|apply get_oset_eq| |];
      destruct H0 as [H0|H0]; apply is_str_true in H0;
      first [unfold closed, state_is; by rewrite H0 | by eexists].
  - subst b'0. eapply (Hset k0 r0 (reconcile_reservation actual r0) "reconciled"%string);
      [done|apply same_reservation_reconcile|apply get_oset_eq| |];
      destruct H0 as [H0|H0]; apply is_str_true in H0;
      first [unfold closed, state_is; by rewrite H0 | by eexists].
Qed.

(** ** Waiters *)

(** Waiters are numbered in the order they were enqueued. *)
Definition fifo (b : AgentResourceBudgetActiveState) : Prop :=
  Z.of_nat (length (rb_waiters b)) <= two53 ->
  rb_nextWaiterSequence b = Z.of_nat (length (rb_waiters b))
  /\ forall n w, nth_error (ovalues (rb_waiters b)) n = Some w ->
       get w "sequence" = VNum (Fin (Z.of_nat n)).

Lemma nth_error_update {A} k (v v' : A) (m : ordmap A) n x :
  oget k m = Some v -> nth_error (ovalues (oset k v' m)) n = Some x ->
  nth_error (ovalues m) n = Some x \/ (nth_error (ovalues m) n = Some v /\ x = v').
Proof.
  revert n. induction m as [|[k1 v1] m IH]; intros n; simpl; [done|].
  destruct (k =s k1); simpl.
  - intros [= ->]. destruct n as [|n]; simpl; [|by left]. intros [= <-]. by right.
  - intros Hk. destruct n as [|n]; simpl; [by left|]. by apply IH.
Qed.

Lemma fifo_step b b' : fifo b -> ledger_step b b' -> fifo b'.
Proof.
  intros Hf Hs. inversion Hs; subst; try done.
  - unfold fifo. simpl. rewrite okeys_oset_absent by (unfold ohas; by rewrite H0).
    rewrite length_app. simpl. intros Hlen. destruct Hf as [Hn Hw]; [lia|]. split.
    + rewrite Hn, fadd_succ by lia. lia.
    + intros n w'. unfold ovalues. rewrite map_app. intros Hnth.
      destruct (decide (n < length (rb_waiters b))%nat).
      * apply Hw. rewrite nth_error_app1 in Hnth by (by rewrite length_map). done.
      * rewrite nth_error_app2 in Hnth by (rewrite length_map; lia). rewrite length_map in Hnth.
        destruct (n - length (rb_waiters b))%nat as [|x] eqn:Ex; simpl in Hnth; [|by destruct x].
        injection Hnth as <-. rewrite H1, Hn. do 2 f_equal. lia.
  - unfold fifo. simpl.
    assert (length (oset i (with_state target w) (rb_waiters b)) = length (rb_waiters b)) as Hl.
    { pose proof (f_equal (@length string) (okeys_oset_present (rb_waiters b) i
        (with_state target w) ltac:(unfold ohas; by rewrite H))) as Hl.
      unfold okeys in Hl. by rewrite !length_map in Hl. }
    rewrite Hl. intros Hlen. destruct (Hf Hlen) as [Hn Hw]. split; [done|].
    intros n x Hx. apply (nth_error_update _ _ _ _ _ _ H) in Hx as [Hx|[Hx ->]]; [by apply Hw|].
    rewrite with_state_get by done. by apply Hw.
Qed.

(** A replayed enqueue is refused by the sequence check, before the reducer
    compares it with the waiter it already holds. *)
Lemma enqueue_bumps s b e s' :
  resourceBudget s = budget_active b -> waiter_enqueued s b e = Ok s' -> s' <> s ->
  exists b' w, resourceBudget s' = budget_active b' /\ asObject (get e "waiter") = Some w
    /\ get w "sequence" = VNum (Fin (rb_nextWaiterSequence b))
    /\ rb_nextWaiterSequence b' = fadd (rb_nextWaiterSequence b) 1
    /\ rb_runId b' = rb_runId b.
Proof.
  unfold waiter_enqueued. intros Hb Hc Hne. destruct (asObject _) as [w|] eqn:Ew; [|done].
  apply bind_ok in Hc as (rid & _ & Hc). apply bind_ok in Hc as (i & Hi & Hc).
  apply guard_ok in Hc as [Hst Hc]. apply guard_ok in Hc as [_ Hc].
  apply guard_ok in Hc as [Hseq Hc]. apply guard_ok in Hc as [_ Hc].
  apply guard_ok in Hc as [_ Hc]. bool_hyps.
  destruct (oget i _) eqn:Eo.
  - destruct (sameJson _ _); [|done]. injection Hc as <-. done.
  - injection Hc as <-. eexists _, w. split_and!; try done.
    destruct (get w "sequence") as [| | |[z|]| | |]; simpl in Hseq; try done. bool_hyps. by subst.
Qed.

Lemma enqueue_refused s b e w n :
  asObject (get e "waiter") = Some w -> get w "sequence" = VNum (Fin n) ->
  n <> rb_nextWaiterSequence b -> exists msg, waiter_enqueued s b e = Throw msg.
Proof.
  intros Hw Hn Hne. unfold waiter_enqueued. rewrite Hw.
  destruct (nonEmpty (get w "runId") _); simpl; [|by eexists].
  destruct (nonEmpty (get w "invocationId") _); simpl; [|by eexists].
  destruct (_ || _); simpl; [by eexists|].
  destruct (negb (_ =s _)); simpl; [by eexists|].
  rewrite Hn. simpl. destruct (n =? rb_nextWaiterSequence b) eqn:E; bool_hyps; [done|].
  by eexists.
Qed.

(** ** Admission *)

Lemma fold_fadd_fits l x :
  0 <= x -> Forall (fun z => 0 <= z) l -> x + zsum l <= MAX_SAFE_INTEGER ->
  fold_left fadd l x = x + zsum l.
Proof.
  revert x. induction l as [|y l IH]; intros x Hx Hl Hm; [unfold zsum; simpl; lia|].
  inversion Hl as [|? ? Hy Hl']; subst. pose proof (zsum_nonneg l Hl') as Hl0.
  unfold zsum in Hm; simpl in Hm; fold (zsum l) in Hm. simpl.
  assert (fadd x y = x + y) as ->.
  { unfold fadd. apply fl_exact. unfold MAX_SAFE_INTEGER in Hm. lia. }
  rewrite IH; [unfold zsum; simpl; lia|lia|done|lia].
Qed.

Definition elapsed_fits (b : AgentResourceBudgetActiveState) : Prop :=
  nleb (elapsedRunMs (gauges (committedUsage b))) (numAt (rb_budget b) "maxRunDurationMs") = true.

Lemma within_intro u budget :
  (forall q f, In (q, f) quantities -> nleb (q u) (numAt budget f) = true) ->
  nleb (elapsedRunMs (gauges u)) (numAt budget "maxRunDurationMs") = true ->
  withinBudget u budget = true.
Proof.
  intros Hq He. unfold withinBudget. rewrite !andb_true_iff.
  assert (forall q f, In (q, f) quantities -> nleb (q u) (numAt budget f) = true) as H1 by done.
  split_and!; try done;
    match goal with |- nleb (?p (?g u)) (numAt _ ?f) = true =>
      apply (H1 (fun u => p (g u)) f); simpl; tauto end.
Qed.

(** The doubles' admission test is the exact one. *)
Lemma admission_exact b k r :
  ledger_inv b -> reservation_ok k r -> state_is r "reserved" = true ->
  oget k (rb_reservations b) = None ->
  withinBudget (committedUsage (replaceReservation b r)) (rb_budget b) = true <->
  elapsed_fits (replaceReservation b r)
  /\ forall q f limit, In (q, f) quantities -> numAt (rb_budget b) f = Fin limit ->
       committed q b + amount q (bound r) <= limit.
Proof.
  intros Hi Hok Hst Hk. pose proof (ro_key _ _ Hok) as Hkey. unfold elapsed_fits.
  rewrite (replace_key b k r Hkey).
  assert (ohas k (rb_reservations b) = false) as Hf by (unfold ohas; by rewrite Hk).
  assert (forall q, held q r = amount q (bound r)) as Hheld.
  { intros q. unfold held. assert (holdsBound r = true) as ->; [|done].
    apply (state_holds r "reserved"); [by left|done]. }
  set (b' := b <| rb_reservations := _ |>).
  assert (oall reservation_ok (rb_reservations b')) as Hr' by (apply oall_oset; [apply Hi|done]).
  assert (forall q f, In (q, f) quantities -> amount q (rb_reconciledUsage b')
    + osum (held q) (rb_reservations b') = committed q b + amount q (bound r)) as Hsum.
  { intros q f Hq. unfold committed. simpl. rewrite osum_fresh, Hheld by done.
    rewrite (li_spent b Hi q f Hq). lia. }
  split.
  - intros Hw. split; [unfold withinBudget in Hw; by bool_hyps|].
    intros q f limit Hq Hl. rewrite <- (Hsum q f Hq).
    pose proof (limit_safe b q f limit (li_budget b Hi) Hq Hl).
    apply (within_exact q f); try done; [apply Hi|lia].
  - intros [He Hx]. apply within_intro; [|done]. intros q f Hq.
    destruct (li_budget b Hi f (quantity_limit q f Hq)) as (limit & Hl & Hlim).
    specialize (Hx q f limit Hq Hl). rewrite <- (Hsum q f Hq) in Hx.
    assert (Forall (fun r => usage_ok (bound r)) (ovalues (rb_reservations b'))) as Hb.
    { apply List.Forall_forall. intros x Hin. apply In_ovalues in Hin as [kx Hin].
      by apply (Hr' kx). }
    unfold committedUsage. pose proof (committed_fold q f _ _ Hq (li_usage b Hi) Hb) as Hc.
    unfold bound in Hc at 1. simpl rb_reconciledUsage. rewrite Hc, Hl. simpl. apply Z.leb_le.
    rewrite fold_fadd_fits.
    + rewrite held_sum. done.
    + apply counted_amount. by apply (li_usage b Hi q f).
    + apply List.Forall_forall. intros z Hz. apply in_map_iff in Hz as (x & <- & Hin).
      apply filter_In in Hin as [Hin _]. rewrite List.Forall_forall in Hb.
      by apply counted_amount, (Hb x Hin q f).
    + rewrite held_sum. simpl in Hx. lia.
Qed.

(** ** Readiness *)

(** Attempts start at zero and never pass the lifecycle's maximum. *)
Definition readiness_ok (_ : string) (c : AgentProviderReadinessState) : Prop :=
  rd_attempts c = Fin 0 \/ nleb (rd_attempts c) (rd_maxAttempts c) = true.

Lemma readiness_step s e :
  oall readiness_ok (providerReadiness s) -> oall readiness_ok (providerReadiness (lease_step s e)).
Proof.
  intros Hs. unfold lease_step, reduceLeaseState. destruct (isResourceBudgetEvent _).
  - destruct (reduceBudget s e) as [s'|] eqn:Er; [|done].
    destruct (reduceBudget_effect s e s' Er) as [->|[(_ & b & -> & _)|(b & b' & _ & -> & _)]]; done.
  - destruct (isReadinessEvent _); [|done]. unfold reduceReadiness.
    destruct (nonEmptyStringField e _) as [k|]; [|done].
    assert (forall c', readiness_ok k c' -> oall readiness_ok
      (providerReadiness (putReadiness s k c'))) as Hput by (intros; by apply oall_oset).
    unfold readiness_intent_recorded, readiness_waiter_registered, readiness_attempt_started,
      readiness_succeeded, readiness_failed.
    destruct (oget k (providerReadiness s)) as [c|] eqn:Ec.
    + pose proof (oall_oget _ _ _ _ Hs Ec) as Hc.
      repeat case_match; try done; apply Hput; try done; try (by left).
      right. bool_hyps. simpl. match goal with Hl : nltb ?m ?a = false |- _ =>
        revert Hl end. match goal with Hn : neqb ?m (rd_maxAttempts c) = true |- _ => revert Hn end.
      match goal with Hn : neqb ?a (nadd _ _) = true |- _ => revert Hn end.
      destruct (js_number _) as [x|], (js_number _) as [y|], (rd_maxAttempts c) as [z|]; simpl;
        try done.
      intros _ ? ?. bool_hyps. subst. by apply Z.leb_le.
    + repeat case_match; try done; apply Hput; by left.
Qed.
End Histories.

(** ** The claims *)

Section Claims.
Context {host : JsHost}.

(** C3: the budget is never overspent.  In every history of events from an
    unconfigured ledger, for each of the ten additive quantities, the exact
    (unbounded-integer) sum of the upper bounds of all reservations that may
    still run and of the actual usage of all reconciled ones is at most the
    configured limit, although the reducer adds doubles. *)
Theorem budget_never_overspent s es b q f :
  resourceBudget s = budget_unconfigured -> resourceBudget (lease_run s es) = budget_active b ->
  In (q, f) quantities ->
  exists limit, numAt (rb_budget b) f = Fin limit /\ 0 < limit /\ committed q b <= limit.
Proof.
  intros Hs Hb Hq. pose proof (ledger_inv_history s es Hs b Hb) as Hi.
  destruct (li_budget b Hi f (quantity_limit q f Hq)) as (limit & Hl & Hlim).
  exists limit. split_and!; [done|lia|]. by apply (li_within b Hi q f).
Qed.

(** Admission of a reservation is exact: a well-formed fresh reservation
    passes the reducer's double-arithmetic budget test exactly when its bound
    fits beside the exact commitment in every additive quantity (and the
    elapsed-time gauge, a maximum, fits). *)
Theorem reservation_admission_exact b k r :
  ledger_inv b -> reservation_ok k r -> state_is r "reserved" = true ->
  oget k (rb_reservations b) = None ->
  withinBudget (committedUsage (replaceReservation b r)) (rb_budget b) = true <->
  elapsed_fits (replaceReservation b r)
  /\ forall q f limit, In (q, f) quantities -> numAt (rb_budget b) f = Fin limit ->
       committed q b + amount q (bound r) <= limit.
Proof. apply admission_exact. Qed.

(** Reservations follow their lifecycle: no event drops a reservation or
    changes a field of it other than its state and actual usage; a changed
    state follows an edge reserved -> dispatch_started -> reconciled (with the
    detours to released and unknown); a reconciled or released reservation is
    final; and the configured budget, run and deadline are permanent. *)
Theorem reservation_lifecycle s es e b k r :
  resourceBudget s = budget_unconfigured -> resourceBudget (lease_run s es) = budget_active b ->
  oget k (rb_reservations b) = Some r ->
  exists b' r', resourceBudget (lease_step (lease_run s es) e) = budget_active b'
    /\ rb_budget b' = rb_budget b /\ rb_runId b' = rb_runId b /\ rb_deadlineAt b' = rb_deadlineAt b
    /\ oget k (rb_reservations b') = Some r' /\ same_reservation r r'
    /\ (r' = r \/ (closed r = false /\
          exists t t', get r "state" = VStr t /\ get r' "state" = VStr t'
                       /\ reservation_edge t t' = true)).
Proof.
  intros Hs Hb Hk. pose proof (ledger_inv_history s es Hs b Hb) as Hi.
  destruct (lease_budget (lease_run s es) e) as [Hx|[(Hu & _)|(b1 & b' & H1 & H2 & Hst)]].
  - exists b, r. rewrite Hx. split_and!; try done. by left.
  - congruence.
  - assert (b1 = b) as -> by congruence.
    destruct (step_reservation b b' k r Hi Hst Hk) as (r' & Hr' & Hsame & Hedge).
    exists b', r'. inversion Hst; subst; by split_and!.
Qed.

(** An invocation is never paid for twice: in every history at most one
    reservation per invocation is not released. *)
Theorem invocation_reserved_once s es b k1 k2 r1 r2 :
  resourceBudget s = budget_unconfigured -> resourceBudget (lease_run s es) = budget_active b ->
  oget k1 (rb_reservations b) = Some r1 -> oget k2 (rb_reservations b) = Some r2 ->
  state_is r1 "released" = false -> state_is r2 "released" = false ->
  get r1 "invocationId" = get r2 "invocationId" -> k1 = k2.
Proof. intros Hs Hb. apply (ledger_inv_history s es Hs b Hb). Qed.

(** Waiters queue in order: in every history the n-th enqueued waiter holds
    sequence n and the next sequence is their number (up to the 2^53 waiters a
    double can count). *)
Theorem waiters_are_fifo s es b :
  resourceBudget s = budget_unconfigured -> resourceBudget (lease_run s es) = budget_active b ->
  Z.of_nat (length (rb_waiters b)) <= two53 ->
  rb_nextWaiterSequence b = Z.of_nat (length (rb_waiters b))
  /\ forall n w, nth_error (ovalues (rb_waiters b)) n = Some w ->
       get w "sequence" = VNum (Fin (Z.of_nat n)).
Proof.
  intros Hs Hb. apply (ledger_history fifo s es); try done; [|by intros b1 b2; apply fifo_step].
  intros b0 _ _ Hw Hn _. unfold fifo. rewrite Hw. intros _. split; [done|].
  by intros [|n] w.
Qed.

(** An enqueue cannot be replayed: a second delivery of an accepted
    [resource_budget.waiter_enqueued] always throws, the identical-waiter branch
    that would accept it being behind the sequence check. *)
Theorem waiter_replay_throws s e b s' :
  ev_type e = "resource_budget.waiter_enqueued"%string ->
  resourceBudget s = budget_active b -> 0 <= rb_nextWaiterSequence b < two53 ->
  reduceLeaseState s e = Ok s' -> s' <> s ->
  exists msg, reduceLeaseState s' e = Throw msg.
Proof.
  intros He Hb Hn Hr Hne. unfold reduceLeaseState, reduceBudget in *. rewrite He in *.
  simpl in Hr. rewrite Hb in Hr. simpl in Hr.
  destruct (enqueue_bumps s b e s' Hb Hr Hne) as (b' & w & Hb' & Hw & Hseq & Hnext & _).
  simpl. rewrite Hb'. simpl. eapply enqueue_refused; [done|done|].
  rewrite Hnext, fadd_succ by done. lia.
Qed.

(** Provider readiness never exceeds its attempts: in every history a
    lifecycle has made no attempt or no more than its maximum. *)
Theorem readiness_attempts_bounded s es k c :
  providerReadiness s = [] -> oget k (providerReadiness (lease_run s es)) = Some c ->
  rd_attempts c = Fin 0 \/ nleb (rd_attempts c) (rd_maxAttempts c) = true.
Proof.
  intros Hs Hk. assert (oall readiness_ok (providerReadiness (lease_run s es))) as Ha.
  { unfold lease_run. apply fold_left_inv; [rewrite Hs; apply oall_nil|].
    intros s' e _. apply readiness_step. }
  by apply (oall_oget _ _ _ _ Ha Hk).
Qed.
End Claims.

(** ** Instances *)

Definition demoBudget : val :=
  VObj (("version"%string, VNum (Fin 1)) :: List.map (fun f => (f, VNum (Fin 10000))) BUDGET_FIELDS).

Definition demoUsage (tools : Z) (source : string) (version : val) : val :=
  VObj [("counters", VObj [("turns", VNum (Fin 0)); ("modelRequests", VNum (Fin 0));
          ("toolInvocations", VNum (Fin tools)); ("inputTokens", VNum (Fin 0));
          ("outputTokens", VNum (Fin 0)); ("artifactBytes", VNum (Fin 0))]);
        ("gauges", VObj [("elapsedRunMs", VNum (Fin 0)); ("activeSubagents", VNum (Fin 0));
          ("activeWriters", VNum (Fin 0)); ("activeToolInvocations", VNum (Fin 0));
          ("activeShellInvocations", VNum (Fin 0))]);
        ("source", VStr source); ("estimatorVersion", version)]%string.

Definition configureEvent : obj :=
  [("type", VStr "resource_budget.configured"); ("runId", VStr "run");
   ("startedAt", VStr "2024-02-29T12:30:15.250Z"); ("deadlineAt", VStr "2024-02-29T12:30:20.250Z");
   ("budget", demoBudget)]%string.

Definition demoReservation (k i : string) : obj :=
  [("version", VNum (Fin 1)); ("reservationId", VStr k); ("runId", VStr "run");
   ("invocationId", VStr i); ("resourceKind", VStr "tool");
   ("executableUpperBound", demoUsage 7000 "versioned_upper_bound" (VStr "v1"));
   ("state", VStr "reserved")]%string.

Definition reserveEvent (k i : string) : obj :=
  [("type", VStr "resource_budget.reserved"); ("reservation", VObj (demoReservation k i))]%string.

Definition dispatchEvent (k : string) : obj :=
  [("type", VStr "resource_budget.dispatch_started"); ("reservationId", VStr k)]%string.

Definition reconcileEvent (k : string) : obj :=
  [("type", VStr "resource_budget.reconciled"); ("reservationId", VStr k);
   ("actual", demoUsage 3000 "actual" VUndef)]%string.

Definition enqueueEvent (i : string) (n : Z) : obj :=
  [("type", VStr "resource_budget.waiter_enqueued");
   ("waiter", VObj [("version", VNum (Fin 1)); ("runId", VStr "run"); ("invocationId", VStr i);
      ("sequence", VNum (Fin n)); ("enqueuedAt", VStr "2024-02-29T12:30:15.250Z");
      ("deadlineAt", VStr "2024-02-29T12:30:16.250Z"); ("state", VStr "waiting")])]%string.

(** A reservation is admitted, run and reconciled below its bound; then a second
    of the same bound fits, where before it did not. *)
Definition demoLedgerEvents : list obj :=
  [configureEvent; reserveEvent "r1" "i1"; reserveEvent "r2" "i2"; dispatchEvent "r1";
   reconcileEvent "r1"; reserveEvent "r2" "i2"; enqueueEvent "i3" 0]%string.

Definition demoLedgerState : AgentState := Eval vm_compute in @lease_run host0 demo demoLedgerEvents.
Definition demoLedger : AgentResourceBudgetActiveState :=
  ltac:(let r := eval vm_compute in (resourceBudget demoLedgerState) in
        match r with budget_active ?b => exact b end).

Lemma demoLedgerState_run : @lease_run host0 demo demoLedgerEvents = demoLedgerState.
Proof. vm_compute. reflexivity. Qed.

Lemma demoLedger_inv : ledger_inv demoLedger.
Proof.
  apply (ledger_inv_history (host := host0) demo demoLedgerEvents); [reflexivity|].
  rewrite demoLedgerState_run. reflexivity.
Qed.

Definition toolQuantity : ResourceUsage -> num := fun u => toolInvocations (counters u).

Lemma budget_never_overspent_witness :
  committed toolQuantity demoLedger = 10000
  /\ exists limit, numAt (rb_budget demoLedger) "maxToolInvocations" = Fin limit /\ 0 < limit
       /\ committed toolQuantity demoLedger <= limit.
Proof.
  split; [vm_compute; reflexivity|].
  apply (@budget_never_overspent host0 demo demoLedgerEvents).
  - reflexivity.
  - rewrite demoLedgerState_run. reflexivity.
  - right. right. left. reflexivity.
Defined.

(** The full ledger refuses a third reservation of the same bound. *)
Lemma demoReservation_ok : reservation_ok "r3" (demoReservation "r3" "i3").
Proof.
  destruct (assertReservation_ok (VObj (demoReservation "r3" "i3")) (demoReservation "r3" "i3"))
    as (Hu & _ & Hi); [vm_compute; reflexivity|].
  constructor; try done. exists "reserved"%string. split; [reflexivity|left; reflexivity].
Qed.

Lemma reservation_admission_exact_witness :
  ~ (elapsed_fits (replaceReservation demoLedger (demoReservation "r3" "i3"))
     /\ forall q f limit, In (q, f) quantities -> numAt (rb_budget demoLedger) f = Fin limit ->
          committed q demoLedger + amount q (bound (demoReservation "r3" "i3")) <= limit).
Proof.
  intros Hx. apply (@reservation_admission_exact demoLedger "r3") in Hx.
  - vm_compute in Hx. discriminate.
  - apply demoLedger_inv.
  - apply demoReservation_ok.
  - reflexivity.
  - reflexivity.
Defined.

Lemma reservation_lifecycle_witness :
  exists b' r', resourceBudget (@lease_step host0 demoLedgerState (dispatchEvent "r2"))
      = budget_active b'
    /\ oget "r2" (rb_reservations b') = Some r' /\ get r' "state" = VStr "dispatch_started"
    /\ rb_budget b' = rb_budget demoLedger.
Proof.
  destruct (@reservation_lifecycle host0 demo demoLedgerEvents (dispatchEvent "r2") demoLedger "r2"
    (demoReservation "r2" "i2")) as (b' & r' & Hb & Hbud & _ & _ & Hr & _).
  - reflexivity.
  - rewrite demoLedgerState_run. reflexivity.
  - vm_compute. reflexivity.
  - rewrite demoLedgerState_run in Hb. exists b', r'. split; [exact Hb|]. split; [exact Hr|].
    split; [|exact Hbud]. vm_compute in Hb. injection Hb as <-. vm_compute in Hr.
    injection Hr as <-. reflexivity.
Defined.

Definition demoReservationAt (k : string) : obj := default [] (oget k (rb_reservations demoLedger)).

(** The reconciled and the open reservation serve different invocations. *)
Lemma invocation_reserved_once_witness :
  get (demoReservationAt "r1") "invocationId" <> get (demoReservationAt "r2") "invocationId".
Proof.
  intros Hi.
  assert ("r1"%string = "r2"%string) as Heq.
  { apply (@invocation_reserved_once host0 demo demoLedgerEvents demoLedger "r1" "r2"
      (demoReservationAt "r1") (demoReservationAt "r2")); try exact Hi;
      first [reflexivity | rewrite demoLedgerState_run; reflexivity | vm_compute; reflexivity]. }
  discriminate Heq.
Defined.

Lemma waiters_are_fifo_witness :
  rb_nextWaiterSequence demoLedger = 1 /\ length (rb_waiters demoLedger) = 1%nat.
Proof.
  split; [|reflexivity]. destruct (@waiters_are_fifo host0 demo demoLedgerEvents demoLedger)
    as [Hn _].
  - reflexivity.
  - rewrite demoLedgerState_run. reflexivity.
  - vm_compute. discriminate.
  - exact Hn.
Defined.

Lemma waiter_replay_throws_witness :
  exists s', @reduceLeaseState host0 demoLedgerState (enqueueEvent "i4" 1) = Ok s'
    /\ exists msg, @reduceLeaseState host0 s' (enqueueEvent "i4" 1) = Throw msg.
Proof.
  eexists. split; [vm_compute; reflexivity|].
  apply (@waiter_replay_throws host0 demoLedgerState (enqueueEvent "i4" 1) demoLedger).
  - reflexivity.
  - reflexivity.
  - vm_compute. split; [discriminate|reflexivity].
  - vm_compute. reflexivity.
  - intros Heq. apply (f_equal resourceBudget) in Heq. discriminate Heq.
Defined.

Definition readyEvents : list obj :=
  [[("type", VStr "provider.readiness_intent_recorded"); ("readinessKey", VStr "p");
    ("lifecycleId", VStr "l"); ("maxAttempts", VNum (Fin 1))];
   [("type", VStr "provider.readiness_attempt_started"); ("readinessKey", VStr "p");
    ("lifecycleId", VStr "l"); ("attempt", VNum (Fin 1)); ("maxAttempts", VNum (Fin 1))]]%string.

Lemma readiness_attempts_bounded_witness :
  exists c, oget "p" (providerReadiness (@lease_run host0 demo readyEvents)) = Some c
    /\ rd_attempts c = Fin 1
    /\ (rd_attempts c = Fin 0 \/ nleb (rd_attempts c) (rd_maxAttempts c) = true).
Proof.
  eexists. split; [vm_compute; reflexivity|]. split; [reflexivity|].
  apply (@readiness_attempts_bounded host0 demo readyEvents "p"); [reflexivity|].
  vm_compute. reflexivity.
Defined.
