(* ===== verification/Traits.v ===== *)
(** * Execution traits ([execution-traits.ts])

    When two effects may run together, and the batch that starts at the head of
    the queue.  [access] and [isolation] are kept as the values the host
    projected: the source compares them with [===]. *)

From S2P Require Import Prelude Js.
From stdpp Require Import prelude strings list.
From Stdlib Require Import ZArith Lia.
Open Scope Z_scope.

Record ResourceScope := { sc_kind : string; sc_key : string }.

Record ExecutionTraits := {
  resourceScopes : list ResourceScope;
  access : val;
  conflictKeys : list string;
  isolation : val;
  causalGroup : string;
  interactionBarrier : bool;
  concurrencyGroup : option string;
  leaseFenceRequired : bool }.

Record SchedulableEffect := { effectId : string; traits : ExecutionTraits }.

(** [`${scope.kind}\0${scope.key}`]. *)
Definition scopeText (scope : ResourceScope) : string :=
  sc_kind scope +:+ chr 0 +:+ sc_key scope.

Definition resourceScopesAreProvablyDisjoint (left right : list ResourceScope) : bool :=
  match left, right with
  | [], _ | _, [] => false
  | _, _ =>
      let occupied := List.map scopeText left in
      negb (existsb (fun scope => str_in (scopeText scope) occupied) right)
  end.

Definition executionTraitsMayOverlap (left right : ExecutionTraits) : bool :=
  if interactionBarrier left || interactionBarrier right then false
  else
    match opt_nonempty (concurrencyGroup left) with
    | None => false
    | Some _ =>
        if negb (opt_str_eqb (concurrencyGroup left) (concurrencyGroup right)) then false
        else if is_str (access left) "unknown" || is_str (access right) "unknown" then false
        else if is_str (access left) "read" && is_str (access right) "read" then true
        else if negb (is_str (isolation left) "worktree")
                || negb (is_str (isolation right) "worktree")
                || negb (causalGroup left =s causalGroup right)
                || negb (resourceScopesAreProvablyDisjoint (resourceScopes left)
                                                           (resourceScopes right))
        then false
        else negb (existsb (fun key => str_in key (conflictKeys left)) (conflictKeys right))
    end.

(** The loop over the rest of the queue. *)
Fixpoint extendBatch (selected candidates : list SchedulableEffect) (ceiling : Z)
  : list SchedulableEffect :=
  match candidates with
  | [] => selected
  | candidate :: rest =>
      if ceiling <=? Z.of_nat (length selected) then selected
      else if negb (forallb (fun accepted =>
                executionTraitsMayOverlap (traits accepted) (traits candidate)) selected)
      then selected
      else extendBatch (selected ++ [candidate]) rest ceiling
  end.

Definition selectSchedulableEffectBatch (candidates : list SchedulableEffect) (ceiling : Z)
  : res (list string) :=
  throw "scheduler concurrency ceiling must be a positive integer"
    when negb (isSafeInteger ceiling) || (ceiling <=? 0) in
  match candidates with
  | [] => Ok []
  | first :: rest => Ok (List.map effectId (extendBatch [first] rest ceiling))
  end.

(** ** Symmetry *)

Lemma disjoint_sym left right :
  resourceScopesAreProvablyDisjoint left right = resourceScopesAreProvablyDisjoint right left.
Proof.
  assert (forall l r, existsb (fun scope => str_in (scopeText scope) (List.map scopeText l)) r
    = true -> existsb (fun scope => str_in (scopeText scope) (List.map scopeText r)) l = true) as Hx.
  { intros l r He. apply existsb_exists in He as (x & Hx & Hin).
    apply str_in_true, in_map_iff in Hin as (y & Hy & Hin).
    apply existsb_exists. exists y. split; [done|]. apply str_in_true, in_map_iff.
    by exists x. }
  unfold resourceScopesAreProvablyDisjoint.
  destruct left as [|a left], right as [|b right]; try done.
  f_equal. apply Bool.eq_iff_eq_true. split; apply Hx.
Qed.

Lemma conflicts_sym (left right : list string) :
  existsb (fun key => str_in key left) right = existsb (fun key => str_in key right) left.
Proof.
  apply Bool.eq_iff_eq_true. rewrite !existsb_exists.
  split; intros (x & Hx & Hin); apply str_in_true in Hin; exists x;
    (split; [done|by apply str_in_true]).
Qed.

(** ** The batch *)

Definition compatible (a b : SchedulableEffect) : Prop :=
  executionTraitsMayOverlap (traits a) (traits b) = true.

Lemma extendBatch_spec cs sel ceiling :
  1 <= ceiling -> Z.of_nat (length sel) <= ceiling -> ForallOrdPairs compatible sel ->
  exists taken rest, cs = taken ++ rest /\ extendBatch sel cs ceiling = sel ++ taken
    /\ Z.of_nat (length (sel ++ taken)) <= ceiling
    /\ ForallOrdPairs compatible (sel ++ taken)
    /\ (forall c rest', rest = c :: rest' ->
          Z.of_nat (length (sel ++ taken)) = ceiling
          \/ exists a, In a (sel ++ taken) /\ ~ compatible a c).
Proof.
  revert sel. induction cs as [|c cs IH]; intros sel Hc Hl Hp; simpl.
  { exists [], []. rewrite !app_nil_r. by split_and!. }
  destruct (ceiling <=? Z.of_nat (length sel)) eqn:E1; bool_hyps.
  { exists [], (c :: cs). rewrite !app_nil_r. split_and!; try done. intros ? ? [= <- <-]. left. lia. }
  destruct (forallb _ sel) eqn:E2; simpl.
  - destruct (IH (sel ++ [c])) as (taken & rest & -> & -> & Hlen & Hpairs & Hmax); [done| | |].
    + rewrite length_app. simpl. lia.
    + rewrite forallb_forall in E2. clear IH E1 Hl. induction Hp as [|a l Ha Hp IHp]; simpl.
      * repeat constructor.
      * constructor; [|apply IHp; intros x Hx; apply E2; by right].
        apply Forall_app. split; [done|]. constructor; [|done]. apply E2. by left.
    + exists (c :: taken), rest. rewrite <- app_assoc in *. by split_and!.
  - exists [], (c :: cs). rewrite !app_nil_r. split_and!; try done. intros ? ? [= <- <-]. right.
    destruct (existsb (fun a => negb (executionTraitsMayOverlap (traits a) (traits c))) sel) eqn:E3.
    + apply existsb_exists in E3 as (a & Ha & Hn). exists a. split; [done|].
      unfold compatible. bool_hyps. congruence.
    + exfalso. assert (forallb (fun accepted =>
        executionTraitsMayOverlap (traits accepted) (traits c)) sel = true); [|congruence].
      apply forallb_forall. intros a Ha.
      destruct (executionTraitsMayOverlap (traits a) (traits c)) eqn:Eo; [done|].
      assert (existsb (fun a => negb (executionTraitsMayOverlap (traits a) (traits c))) sel = true)
        ; [|congruence]. apply existsb_exists. exists a. split; [done|]. by rewrite Eo.
Qed.

(** Whether two effects may overlap does not depend on their order. *)
Lemma overlap_symmetric left right :
  executionTraitsMayOverlap left right = executionTraitsMayOverlap right left.
Proof.
  unfold executionTraitsMayOverlap. rewrite (orb_comm (interactionBarrier left)).
  destruct (_ || _); [done|].
  assert (opt_str_eqb (concurrencyGroup left) (concurrencyGroup right)
          = opt_str_eqb (concurrencyGroup right) (concurrencyGroup left)) as Hg.
  { apply Bool.eq_iff_eq_true. rewrite !opt_str_eqb_true. by split. }
  rewrite Hg. clear Hg.
  destruct (opt_str_eqb (concurrencyGroup right) (concurrencyGroup left)) eqn:E; simpl.
  - apply opt_str_eqb_true in E. rewrite E. destruct (opt_nonempty _); [|done].
    rewrite (orb_comm (is_str (access left) _)), (andb_comm (is_str (access left) _)).
    rewrite (disjoint_sym (resourceScopes left)), (conflicts_sym (conflictKeys left)).
    rewrite (String.eqb_sym (causalGroup left)).
    rewrite (orb_comm (negb (is_str (isolation left) _))). done.
  - by repeat case_match.
Qed.

#[export] Instance compatible_symmetric : Symmetric compatible.
Proof. intros a b. unfold compatible. by rewrite overlap_symmetric. Qed.

(** Pairwise in list order, read at any two positions. *)
Lemma FOP_lookup {A} (R : relation A) `{!Symmetric R} l i j a b :
  ForallOrdPairs R l -> l !! i = Some a -> l !! j = Some b -> i <> j -> R a b.
Proof.
  intros Hl. revert i j a b.
  induction Hl as [|x l Hx Hl IH]; intros i j a b Hi Hj Hij; [done|].
  rewrite Forall_forall in Hx.
  destruct i as [|i], j as [|j]; simpl in *; simplify_eq.
  - by eapply Hx, list_elem_of_lookup_2.
  - symmetry. by eapply Hx, list_elem_of_lookup_2.
  - eapply IH; [done..|lia].
Qed.

Lemma selectBatch_prefix candidates ceiling ids :
  selectSchedulableEffectBatch candidates ceiling = Ok ids ->
  exists taken rest, candidates = taken ++ rest /\ ids = List.map effectId taken
    /\ Z.of_nat (length taken) <= ceiling /\ (candidates <> [] -> taken <> [])
    /\ ForallOrdPairs compatible taken
    /\ (forall c rest', rest = c :: rest' -> Z.of_nat (length taken) = ceiling
          \/ exists a, In a taken /\ ~ compatible a c).
Proof.
  unfold selectSchedulableEffectBatch. intros Hs. apply guard_ok in Hs as [Hc Hs]. bool_hyps.
  destruct candidates as [|first rest].
  { injection Hs as <-. exists [], []. split_and!; try done; simpl; lia || constructor. }
  injection Hs as <-.
  destruct (extendBatch_spec rest [first] ceiling) as (taken & rest' & -> & -> & Hl & Hp & Hm);
    [lia|simpl; lia|repeat constructor|].
  exists (first :: taken), rest'. by split_and!.
Qed.

(** A batch is the longest admissible prefix of the queue: the selected
    effects are a prefix of the candidates, at most [ceiling] many, any two of
    them may overlap in either order, and the next candidate (if any) either
    does not fit under the ceiling or conflicts with a selected one. *)
Theorem batch_is_longest_compatible_prefix candidates ceiling ids :
  selectSchedulableEffectBatch candidates ceiling = Ok ids ->
  exists taken rest, candidates = taken ++ rest /\ ids = List.map effectId taken
    /\ Z.of_nat (length taken) <= ceiling /\ (candidates <> [] -> taken <> [])
    /\ (forall i j a b, taken !! i = Some a -> taken !! j = Some b -> i <> j ->
          executionTraitsMayOverlap (traits a) (traits b) = true)
    /\ (forall c rest', rest = c :: rest' -> Z.of_nat (length taken) = ceiling
          \/ exists a, In a taken /\ executionTraitsMayOverlap (traits a) (traits c) = false).
Proof.
  intros (taken & rest & Hc & Hi & Hl & Hne & Hp & Hm)%selectBatch_prefix.
  exists taken, rest. split_and!; try done.
  - intros i j a b. by apply (FOP_lookup compatible).
  - intros c rest' E. destruct (Hm c rest' E) as [|(a & Ha & Hn)]; [by left|right].
    exists a. split; [done|]. by apply not_true_is_false.
Qed.

Definition demoTraits (group : string) (acc : string) : ExecutionTraits :=
  {| resourceScopes := []; access := VStr acc; conflictKeys := []; isolation := VStr "shared";
     causalGroup := "g"; interactionBarrier := false; concurrencyGroup := Some group;
     leaseFenceRequired := false |}%string.

Definition demoCandidates : list SchedulableEffect :=
  [{| effectId := "a"; traits := demoTraits "parallel-read" "read" |};
   {| effectId := "b"; traits := demoTraits "parallel-read" "read" |};
   {| effectId := "c"; traits := demoTraits "parallel-read" "write" |}]%string.

Lemma batch_is_longest_compatible_prefix_witness :
  selectSchedulableEffectBatch demoCandidates 4 = Ok ["a"; "b"]%string
  /\ exists taken rest, demoCandidates = taken ++ rest /\ ["a"; "b"]%string = List.map effectId taken
       /\ Z.of_nat (length taken) <= 4.
Proof.
  split; [reflexivity|].
  destruct (batch_is_longest_compatible_prefix demoCandidates 4 ["a"; "b"]%string)
    as (taken & rest & Hc & Hi & Hl & _); [reflexivity|]. by exists taken, rest.
Defined.
