(* ===== verification/Scheduler.v ===== *)
(** * The scheduler ([scheduler.ts])

    The one pure function that picks the next effect of a session.  The host's
    scheduling facts are JSON values and are validated before use.  The
    completion guard is the interface [CompletionPort]. *)

From S2P Require Import Prelude Js Hash State ApprovalQueue Normalization Recovery Traits.
From stdpp Require Import prelude strings list.
From Stdlib Require Import ZArith Lia.
Open Scope Z_scope.

(** What the scheduler asks of [completion.ts]: [None] accepts the final answer,
    [Some d] blocks it with a decision.  [CompletionClaims.v] has the instance
    that is the guard itself. *)
Class CompletionPort := {
  GuardBlocked : Type;
  guardCompletion : AgentState -> res (option GuardBlocked) }.

Definition MAX_PARALLEL_SUBAGENTS : Z := 4.

(** ** The effect vocabulary ([effects.ts]) *)

Inductive FailureKind : Set :=
| persistence_unavailable | loop_exhausted | compaction_failed | failure_unknown.

Inductive RuntimeEffect `{CompletionPort} : Type :=
| call_model (resourceEstimate : option (Z * Z))
| compact_context (compactionId : string)
| run_tools (toolCallIds : list string)
| request_user_input (interactionId toolCallId : string)
| request_plan_review (interactionId toolCallId : string)
| request_tool_approval (interactionId toolCallId : string)
| request_verification_decision (interactionId verificationId : string)
| request_provider_action (interactionId providerId action originatingToolCallId : string)
| request_provider_admission (interactionId providerId providerStatus : string) (retryable : bool)
| run_auto_review (reviewId toolCallId : string)
| run_verification (verificationId : string)
| repair_verification (verificationId : string)
| run_verification_compensation (verificationId : string)
| emit_final
| completion_blocked (decision : GuardBlocked)
| stop
| busy (reason : string)
| recovery_blocked (reason : string) (failureKind : FailureKind) (recoveryCause : option RecoveryReason).

Definition isTerminalEffect `{CompletionPort} (effect : RuntimeEffect) : bool :=
  match effect with emit_final | stop | busy _ | recovery_blocked _ _ _ => true | _ => false end.

Definition isInterruptEffect `{CompletionPort} (effect : RuntimeEffect) : bool :=
  match effect with
  | request_user_input _ _ | request_plan_review _ _ | request_tool_approval _ _
  | request_verification_decision _ _ | request_provider_action _ _ _ _
  | request_provider_admission _ _ _ _ => true
  | _ => false
  end.

(** ** Validation of the host's facts *)

Definition EXECUTION_SCOPE_KINDS : list string :=
  ["runtime"; "workspace"; "process"; "network"; "external_state"; "subagent"; "skill"]%string.
Definition EXECUTION_ACCESS : list string := ["read"; "write"; "unknown"]%string.
Definition EXECUTION_ISOLATION : list string := ["shared"; "exclusive_workspace"; "worktree"]%string.

Definition exactKeys (value : obj) (required optional : list string) : bool :=
  forallb (fun key => ohas key value) required
  && forallb (fun key => str_in key (required ++ optional)) (okeys value).

Definition nonEmptyString (value : val) : bool :=
  match value with VStr s => str_nonempty s | _ => false end.

Fixpoint distinct (l : list string) : bool :=
  match l with [] => true | x :: l' => negb (str_in x l') && distinct l' end.

(** The strings of an array, [""] for what is not one. *)
Definition stringsIn (l : list val) : list string :=
  List.map (fun v => match v with VStr s => s | _ => "" end) l.

Definition uniqueStrings (value : val) : bool :=
  match value with
  | VArr l => forallb nonEmptyString l && distinct (stringsIn l)
  | _ => false
  end.

Definition isBool (v : val) : bool := match v with VBool _ => true | _ => false end.

Definition validScope (scope : val) : bool :=
  match scope with
  | VObj o =>
      exactKeys o ["kind"; "key"]%string []
      && match get o "kind" with VStr k => str_in k EXECUTION_SCOPE_KINDS | _ => false end
      && nonEmptyString (get o "key")
  | _ => false
  end.

Definition validExecutionTraits (value : val) : bool :=
  match value with
  | VObj o =>
      exactKeys o ["resourceScopes"; "access"; "conflictKeys"; "isolation"; "causalGroup";
                   "interactionBarrier"; "leaseFenceRequired"]%string ["concurrencyGroup"%string]
      && match get o "resourceScopes" with VArr l => forallb validScope l | _ => false end
      && str_in (js_string (get o "access")) EXECUTION_ACCESS
      && uniqueStrings (get o "conflictKeys")
      && str_in (js_string (get o "isolation")) EXECUTION_ISOLATION
      && nonEmptyString (get o "causalGroup")
      && isBool (get o "interactionBarrier") && isBool (get o "leaseFenceRequired")
      && (is_undef (get o "concurrencyGroup") || nonEmptyString (get o "concurrencyGroup"))
  | _ => false
  end.

Definition validApprovalFact (value : val) : bool :=
  match value with
  | VObj o => exactKeys o ["allowed"; "requiresApproval"]%string []
              && isBool (get o "allowed") && isBool (get o "requiresApproval")
  | _ => false
  end.

Definition isValidSchedulerFacts (value : val) : bool :=
  match value with
  | VObj o =>
      exactKeys o ["traits"; "approval"]%string []
      && match get o "traits", get o "approval" with
         | VObj traits, VObj approval =>
             forallb (fun '(id, projected) => str_nonempty id && validExecutionTraits projected)
               traits
             && forallb (fun '(id, projected) => str_nonempty id && validApprovalFact projected)
                  approval
         | _, _ => false
         end
  | _ => false
  end.

(** ** The facts of one call *)

(** A validated traits object as a record. *)
Definition traitsOf (value : val) : ExecutionTraits :=
  let o := jsonRecord value in
  {| resourceScopes :=
       List.map (fun s => let so := jsonRecord s in
                  {| sc_kind := default "" (stringField so "kind");
                     sc_key := default "" (stringField so "key") |})
                (default [] (arrayField o "resourceScopes"));
     access := get o "access";
     conflictKeys := stringsIn (default [] (arrayField o "conflictKeys"));
     isolation := get o "isolation";
     causalGroup := default "" (stringField o "causalGroup");
     interactionBarrier := is_true (get o "interactionBarrier");
     concurrencyGroup := stringField o "concurrencyGroup";
     leaseFenceRequired := is_true (get o "leaseFenceRequired") |}%string.

Definition schedulerTraits (call : AgentToolCallState) (facts : option obj)
  : option ExecutionTraits :=
  match facts with
  | None => None
  | Some f => match get (jsonRecord (get f "traits")) (tc_toolCallId call) with
              | VUndef => None
              | v => Some (traitsOf v)
              end
  end.

Definition approvalFact (call : AgentToolCallState) (facts : option obj) : option obj :=
  match facts with
  | None => None
  | Some f => isRecord (get (jsonRecord (get f "approval")) (tc_toolCallId call))
  end.

Definition approvalFree (call : AgentToolCallState) (group : string) (facts : option obj) : bool :=
  match schedulerTraits call facts, approvalFact call facts with
  | Some traits, Some approval =>
      opt_str_eqb (concurrencyGroup traits) (Some group)
      && negb (interactionBarrier traits)
      && bool_decide (tc_status call = t_queued)
      && is_true (get approval "allowed") && negb (is_true (get approval "requiresApproval"))
  | _, _ => false
  end.

(** ** Ownership *)

Definition toolBelongsToCurrentWork (state : AgentState) (call : AgentToolCallState) : bool :=
  match tc_taskId call with
  | Some t => opt_str_eqb (Some t) (activeTaskId state)
  | None => tc_createdAtTurnId call =s turnId (turn state)
  end.

Definition parentSchedulerOwnsToolCall (state : AgentState) (call : AgentToolCallState) : bool :=
  match opt_nonempty (tc_modelInvocationId call) with
  | Some id => match oget id (modelInvocations state) with
               | Some invocation => negb (is_str (get invocation "purpose") "subagent")
               | None => true
               end
  | None => true
  end.

Definition runnableStatus (call : AgentToolCallState) : bool :=
  match tc_status call with t_queued | t_approved | t_authorized_queued => true | _ => false end.

(** The first occurrence of each identity, in order. *)
Fixpoint firstOccurrences (seen l : list string) : list string :=
  match l with
  | [] => []
  | x :: l' => if str_in x seen then firstOccurrences seen l'
               else x :: firstOccurrences (x :: seen) l'
  end.

Definition runnable (state : AgentState) (toolCallId : string) : bool :=
  match oget toolCallId (calls (tools state)) with
  | Some call => runnableStatus call && toolBelongsToCurrentWork state call
                 && parentSchedulerOwnsToolCall state call
  | None => false
  end.

Definition runnableToolIds (state : AgentState) : list string :=
  List.filter (runnable state)
    (firstOccurrences [] (queue (tools state) ++ active (tools state))).

Definition authorizedQueued (state : AgentState) (toolCallId : string) : bool :=
  match oget toolCallId (calls (tools state)) with
  | Some call => bool_decide (tc_status call = t_authorized_queued)
  | None => false
  end.

Definition authorizedQueuedToolIds (state : AgentState) : list string :=
  List.filter (authorizedQueued state) (runnableToolIds state).

(** ** Batches *)

(** The loop that gathers candidates after [first]: skip [first] and, once the
    ceiling is reached, everything; stop at the first call [accept] refuses. *)
Fixpoint gather (accept : string -> option ExecutionTraits) (first : string) (ceiling : Z)
    (candidates : list SchedulableEffect) (ids : list string) : list SchedulableEffect :=
  match ids with
  | [] => candidates
  | id :: rest =>
      if (id =s first) || (ceiling <=? Z.of_nat (length candidates))
      then gather accept first ceiling candidates rest
      else
        match accept id with
        | Some t =>
            if forallb (fun c => executionTraitsMayOverlap (traits c) t) candidates
            then gather accept first ceiling
                   (candidates ++ [{| effectId := id; traits := t |}]) rest
            else candidates
        | None => candidates
        end
  end.

Definition parallelBatch (state : AgentState) (first group : string) (ceiling : Z)
    (facts : option obj) : res (list string) :=
  match oget first (calls (tools state)) with
  | None => Ok [first]
  | Some firstCall =>
      match schedulerTraits firstCall facts with
      | None => Ok [first]
      | Some firstTraits =>
          if negb (approvalFree firstCall group facts) then Ok [first]
          else
            let accept id :=
              match oget id (calls (tools state)) with
              | Some call => if approvalFree call group facts then schedulerTraits call facts
                             else None
              | None => None
              end in
            selectSchedulableEffectBatch
              (gather accept first ceiling [{| effectId := first; traits := firstTraits |}]
                 (runnableToolIds state)) ceiling
      end
  end.

Definition sharedRead (t : ExecutionTraits) : bool :=
  is_str (access t) "read" && is_str (isolation t) "shared".

Definition authorizedBatch (state : AgentState) (first : string) (facts : option obj)
  : res (list string) :=
  match oget first (calls (tools state)) with
  | None => Ok [first]
  | Some firstCall =>
      match schedulerTraits firstCall facts with
      | None => Ok [first]
      | Some firstTraits =>
          let ceiling := if sharedRead firstTraits
                         then Z.max 1 (Z.of_nat (length (authorizedQueuedToolIds state)))
                         else 1 in
          if ceiling =? 1 then Ok [first]
          else
            let accept id :=
              match oget id (calls (tools state)) with
              | Some call => match schedulerTraits call facts with
                             | Some t => if sharedRead t then Some t else None
                             | None => None
                             end
              | None => None
              end in
            selectSchedulableEffectBatch
              (gather accept first ceiling [{| effectId := first; traits := firstTraits |}]
                 (authorizedQueuedToolIds state)) ceiling
      end
  end.

Section Scheduler.
Context `{CompletionPort} `{JsHost}.

Definition blocked (reason : string) (kind : FailureKind) : option (res RuntimeEffect) :=
  Some (Ok (recovery_blocked reason kind None)).

Definition effect (e : RuntimeEffect) : option (res RuntimeEffect) := Some (Ok e).

(** The first stage that returns decides. *)
Definition orElse (a b : option (res RuntimeEffect)) : option (res RuntimeEffect) :=
  match a with Some r => Some r | None => b end.

(** *** Blocks *)

Definition blockStage (state : AgentState) (facts : option val) : option (res RuntimeEffect) :=
  match recoveryState state with
  | recovery_corrupted _ => blocked "Runtime state recovery is not normal." persistence_unavailable
  | recovery_incompatible _ _ => blocked "Runtime state recovery is not normal." failure_unknown
  | recovery_normal =>
      match hardBlock (context state) with
      | Some hardBlock =>
          blocked ("Runtime context is blocked: "
                   +:+ default "unknown" (stringField hardBlock "reason") +:+ ".") failure_unknown
      | None =>
          if journalInvalid (toolRecovery state) then
            effect (recovery_blocked
                      "Runtime tool recovery journal is invalid and cannot safely continue."
                      persistence_unavailable (Some journal_invalid))
          else if negb (bool_decide (turn_status (turn state) = turn_active)) then effect stop
          else if match facts with Some f => negb (isValidSchedulerFacts f) | None => false end
          then blocked "Host scheduling facts are malformed or contain executable data."
                 persistence_unavailable
          else if existsb (fun i => opt_str_eqb (stringField i "status") (Some "unknown"%string))
                    (ovalues (cap_invocations (capabilities state)))
          then blocked "Capability invocation has an unknown external outcome." failure_unknown
          else None
      end
  end%string.

(** *** Interactions *)

(** The call an interaction waits on; [None] for idle and provider interactions. *)
Definition interactionCallId (i : AgentInteractionState) : option string :=
  match i with
  | idle | awaiting_provider_action _ _ _ _ _ | awaiting_provider_admission _ _ _ _ _ _ => None
  | awaiting_user_input _ t _ => Some t
  | awaiting_review _ t _ _ _ _ _ _ => Some t
  | awaiting_tool_approval _ t _ => Some t
  | awaiting_auto_review _ t _ _ _ => Some t
  end.

Definition ownershipStage (state : AgentState) : option (res RuntimeEffect) :=
  match interactionCallId (interactions state) with
  | None => None
  | Some t =>
      let owned :=
        match opt_nonempty (Some t) with
        | Some id => match oget id (calls (tools state)) with
                     | Some call => toolBelongsToCurrentWork state call
                     | None => false
                     end
        | None => false
        end in
      if owned then None
      else blocked "The active interaction is no longer owned by the current Task."
             persistence_unavailable
  end.

(** Sealed work is dispatched before the focused approval is presented. *)
Definition authorizedStage (state : AgentState) (facts : option obj) : option (res RuntimeEffect) :=
  match interactions state with
  | idle | awaiting_tool_approval _ _ _ | awaiting_auto_review _ _ _ _ _ =>
      match authorizedQueuedToolIds state with
      | first :: _ => Some (let* ids := authorizedBatch state first facts in Ok (run_tools ids))
      | [] => None
      end
  | _ => None
  end.

Definition PROVIDER_ACTIONS : list string := ["login"; "approve"; "retry"]%string.
Definition PROVIDER_STATUSES : list string :=
  ["pending_approval"; "rejected"; "disabled"; "login_required"; "connecting"; "ready";
   "degraded"; "failed"; "quarantined"]%string.

Definition interactionStage (state : AgentState) : option (res RuntimeEffect) :=
  match interactions state with
  | idle => None
  | awaiting_user_input i t _ => effect (request_user_input i t)
  | awaiting_review i t _ _ _ _ _ _ => effect (request_plan_review i t)
  | awaiting_tool_approval i t _ => effect (request_tool_approval i t)
  | awaiting_auto_review i t _ _ _ => effect (run_auto_review i t)
  | awaiting_provider_action i p action o _ =>
      if str_in action PROVIDER_ACTIONS then effect (request_provider_action i p action o)
      else blocked "Provider action is not a recognized Runtime fact." persistence_unavailable
  | awaiting_provider_admission i p _ st _ retryable =>
      if str_in st PROVIDER_STATUSES then effect (request_provider_admission i p st retryable)
      else blocked "Provider admission status is not a recognized Runtime fact."
             persistence_unavailable
  end.

(** *** Tools *)

Definition interactionOwned (s : ToolCallStatus) : bool :=
  match s with
  | t_awaiting_user_input | t_awaiting_review | t_awaiting_approval | t_awaiting_auto_review => true
  | _ => false
  end.

Definition toolStatusText (s : ToolCallStatus) : string :=
  match s with
  | t_queued => "queued" | t_awaiting_user_input => "awaiting_user_input"
  | t_awaiting_review => "awaiting_review" | t_awaiting_approval => "awaiting_approval"
  | t_awaiting_auto_review => "awaiting_auto_review" | t_approved => "approved"
  | t_authorized_queued => "authorized_queued" | t_running => "running"
  | t_succeeded => "succeeded" | t_failed => "failed" | t_rejected => "rejected"
  | t_cancelled => "cancelled" | t_exhausted => "exhausted"
  end.

Definition strandedStage (state : AgentState) : option (res RuntimeEffect) :=
  match interactions state with
  | idle =>
      match List.find (fun call => toolBelongsToCurrentWork state call
                                   && interactionOwned (tc_status call))
              (ovalues (calls (tools state))) with
      | Some call =>
          blocked ("Tool " +:+ tc_toolCallId call +:+ " is " +:+ toolStatusText (tc_status call)
                   +:+ " without its owning interaction.") persistence_unavailable
      | None => None
      end
  | _ => None
  end.

Definition resumable (state : AgentState) (toolCallId : string) : bool :=
  match oget toolCallId (calls (tools state)) with
  | Some call =>
      match tc_status call with t_approved | t_authorized_queued => true | _ => false end
      && ohas toolCallId (suspendedSubagents state) && toolBelongsToCurrentWork state call
  | None => false
  end.

Definition suspendedStage (state : AgentState) : option (res RuntimeEffect) :=
  match List.find (resumable state) (active (tools state)) with
  | Some id => if str_nonempty id then effect (run_tools [id]) else None
  | None => None
  end.

(** The head of the queue, and the batch it leads. *)
Definition toolStage (state : AgentState) (facts : option obj) : option (res RuntimeEffect) :=
  let ids := runnableToolIds state in
  match ids with
  | [] => None
  | head :: _ =>
      let first := default head (List.find (fun id => str_in id ids) (queue (tools state))) in
      Some (
        match oget first (calls (tools state)) with
        | Some call =>
            if approvalFree call "parallel-subagent" facts then
              let* b := parallelBatch state first "parallel-subagent" MAX_PARALLEL_SUBAGENTS facts in
              Ok (run_tools b)
            else if match schedulerTraits call facts with
                    | Some t => is_str (access t) "read" | None => false end
                    && bool_decide (tc_effectClass call = Some read_only)
                    && bool_decide (tc_sideEffect call = Some false)
                    && approvalFree call "parallel-read" facts
            then
              let* b := parallelBatch state first "parallel-read" (Z.of_nat (length ids)) facts in
              Ok (run_tools b)
            else Ok (run_tools [first])
        | None => Ok (run_tools [first])
        end)
  end.

(** *** Verification *)

Definition activeVerificationRecords (state : AgentState) : list obj :=
  let le a b :=
    match localeCompare (default "" (stringField a "requestedAt"))
                        (default "" (stringField b "requestedAt")) with
    | Gt => false | _ => true end in
  sort_by le
    (List.filter (fun v => match stringField v "taskId" with
                           | None => true
                           | Some t => opt_str_eqb (Some t) (activeTaskId state)
                           end) (ovalues (verification state))).

Definition status_in (v : obj) (l : list string) : bool :=
  str_in (default "" (stringField v "status")) l.
Definition required (v : obj) : bool := opt_str_eqb (stringField v "mode") (Some "required"%string).
Definition verificationIdOf (v : obj) : string := default "" (stringField v "verificationId").
Definition hasFinal (state : AgentState) : bool := is_some (opt_nonempty (final (transcript state))).

(** The kind of the last message of the transcript. *)
Definition latestTranscriptKind (state : AgentState) : option string :=
  match last (messages (transcript state)) with
  | Some m => stringField m "kind"
  | None => None
  end.

Definition repairable (v : obj) : bool :=
  let repair := recordField (default [] (recordField v "spec")) "repair" in
  required v && status_in v ["failed"; "inconclusive"]%string
  && (default 0 (numberField v "repairAttempts")
      <? default 0 (numberField (default [] repair) "maxAttempts")).

Definition verificationStage (state : AgentState) : option (res RuntimeEffect) :=
  let records := activeVerificationRecords state in
  match List.find (fun v => status_in v ["pending"; "running"]%string
                            && (required v || negb (hasFinal state))) records with
  | Some v => effect (run_verification (verificationIdOf v))
  | None =>
      match List.find (fun v => status_in v ["compensating"]%string) records with
      | Some v => effect (run_verification_compensation (verificationIdOf v))
      | None =>
          match List.find repairable records with
          | Some v => effect (repair_verification (verificationIdOf v))
          | None =>
              match List.find (fun v => status_in v ["repair_pending"]%string) records with
              | Some v =>
                  if hasFinal state
                     && opt_str_eqb (latestTranscriptKind state) (Some "assistant"%string)
                  then effect (run_verification (verificationIdOf v))
                  else None
              | None => None
              end
          end
      end
  end.

Definition verificationDecisionStage (state : AgentState) : option (res RuntimeEffect) :=
  match List.find (fun v => required v
                    && status_in v ["failed"; "inconclusive"; "budget_exhausted"; "compensated"]%string)
          (activeVerificationRecords state) with
  | Some v => effect (request_verification_decision (verificationIdOf v) (verificationIdOf v))
  | None => None
  end.

(** *** Completion, context and recovery *)

(** [frame.taskId === state.activeTaskId]. *)
Definition ownsFrame (state : AgentState) (frame : obj) : bool :=
  match get frame "taskId", activeTaskId state with
  | VStr t, Some a => t =s a
  | VNull, None => true
  | _, _ => false
  end.

Definition hasActiveSkillFrameForCurrentWork (state : AgentState) : bool :=
  existsb (fun frame => is_str (get frame "status") "active" && ownsFrame state frame)
    (ovalues (sk_frames (skills state))).

Definition completionDecision (state : AgentState) : res RuntimeEffect :=
  let* decision := guardCompletion state in
  Ok match decision with
     | None => emit_final
     | Some decision => completion_blocked decision
     end.

Definition completionStage (state : AgentState) : option (res RuntimeEffect) :=
  if hasFinal state && negb (hasActiveSkillFrameForCurrentWork state)
  then Some (completionDecision state) else None.

Definition contextStage (state : AgentState) : option (res RuntimeEffect) :=
  match pendingCompaction (context state) with
  | Some p => effect (compact_context (default "" (stringField p "compactionId")))
  | None =>
      let lastFailure := default [] (lastFailure (context state)) in
      if opt_str_eqb (stringField lastFailure "reason") (Some "auto"%string)
         && opt_str_eqb (stringField lastFailure "requestedAtTurnId") (Some (turnId (turn state)))
      then blocked ("Automatic context compaction failed: "
                    +:+ default "unknown failure" (stringField lastFailure "message"))
             compaction_failed
      else if isToolRecoveryQualityBlocked (toolRecovery state) (activeTaskId state)
                (turnId (turn state))
      then effect (recovery_blocked "Runtime tool recovery reached the no progress quality ceiling."
                     loop_exhausted (Some no_progress))
      else None
  end%string.

(** The transcript split at its latest assistant message. *)
Fixpoint latestAssistant (newest : list obj) (after : list obj) : option (obj * list obj) :=
  match newest with
  | [] => None
  | m :: older =>
      if opt_str_eqb (stringField m "kind") (Some "assistant"%string) then Some (m, after)
      else latestAssistant older (m :: after)
  end.

Definition rejectedCall (state : AgentState) (toolCall : val) : bool :=
  match isRecord toolCall with
  | None => false
  | Some tc =>
      match oget (default "" (stringField tc "id")) (calls (tools state)) with
      | Some call => match tc_failure call with
                     | Some f => opt_str_eqb (stringField f "kind") (Some "approval_rejected"%string)
                     | None => false
                     end
      | None => false
      end
  end.

(** A rejected approval ends the turn until the user speaks again. *)
Definition rejectionStage (state : AgentState) : option (res RuntimeEffect) :=
  match latestAssistant (rev (messages (transcript state))) [] with
  | None => None
  | Some (assistant, after) =>
      let approvalRejected :=
        existsb (rejectedCall state) (default [] (arrayField assistant "toolCalls")) in
      let hasNewUser :=
        existsb (fun m => opt_str_eqb (stringField m "kind") (Some "user"%string)) after in
      if approvalRejected && negb hasNewUser then effect stop else None
  end.

(** *** The decision *)

Definition decideNextEffect (state : AgentState) (facts : option val) : res RuntimeEffect :=
  let valid := match facts with Some (VObj f) => Some f | _ => None end in
  let stages :=
    orElse (blockStage state facts)
    (orElse (ownershipStage state)
    (orElse (authorizedStage state valid)
    (orElse (interactionStage state)
    (orElse (strandedStage state)
    (orElse (suspendedStage state)
    (orElse (toolStage state valid)
    (orElse (verificationStage state)
    (orElse (verificationDecisionStage state)
    (orElse (completionStage state)
    (orElse (contextStage state)
            (rejectionStage state))))))))))) in
  match stages with Some r => r | None => Ok (call_model None) end.

Definition selectPendingEffects (state : AgentState) (facts : option val)
  : res (list RuntimeEffect) :=
  let* e := decideNextEffect state facts in Ok [e].
End Scheduler.
