(* ===== verification/Work.v ===== *)
(** * Work ownership ([work-scope.ts]) and the work reducer ([domains/work/reducer.ts])

    The ownership rule of tool calls and interactions, and the reducer that
    records started side effects and the frames of activated skills. *)

From S2P Require Import Prelude Js State Traits Scheduler.
From stdpp Require Import prelude strings list.
From Stdlib Require Import ZArith Lia.
Open Scope Z_scope.

(** ** work-scope.ts *)

Definition TERMINAL_TOOL_STATUSES : list ToolCallStatus :=
  [t_succeeded; t_failed; t_rejected; t_cancelled; t_exhausted].
Definition INTERACTION_OWNED_TOOL_STATUSES : list ToolCallStatus :=
  [t_awaiting_user_input; t_awaiting_review; t_awaiting_approval; t_awaiting_auto_review].

Definition status_among (s : ToolCallStatus) (l : list ToolCallStatus) : bool :=
  existsb (fun t => bool_decide (s = t)) l.

Definition toolCallBelongsToCurrentWork (state : AgentState) (call : AgentToolCallState) : bool :=
  match tc_taskId call with
  | Some taskId => opt_str_eqb (activeTaskId state) (Some taskId)
  | None => tc_createdAtTurnId call =s turnId (turn state)
  end.

Definition interactionToolCall (state : AgentState) : option AgentToolCallState :=
  match interactions state with
  | idle | awaiting_provider_action _ _ _ _ _ | awaiting_provider_admission _ _ _ _ _ _ => None
  | awaiting_user_input _ t _ | awaiting_review _ t _ _ _ _ _ _ | awaiting_tool_approval _ t _
  | awaiting_auto_review _ t _ _ _ => oget t (calls (tools state))
  end.

Definition interactionBelongsToCurrentWork (state : AgentState) : bool :=
  match interactions state with
  | idle => false
  | awaiting_provider_action _ _ _ _ _ | awaiting_provider_admission _ _ _ _ _ _ => true
  | _ => match interactionToolCall state with
         | Some call => toolCallBelongsToCurrentWork state call
         | None => false
         end
  end.

Definition hasCurrentSuspendedSubagent (state : AgentState) : bool :=
  existsb (fun toolCallId =>
    match oget toolCallId (calls (tools state)) with
    | Some call => (tc_name call =s "task")
                   && negb (status_among (tc_status call) TERMINAL_TOOL_STATUSES)
                   && toolCallBelongsToCurrentWork state call
    | None => false
    end) (okeys (suspendedSubagents state)).

Definition activeSkillFramesForCurrentWork (state : AgentState) : list obj :=
  List.filter (fun frame => is_str (get frame "status") "active" && ownsFrame state frame)
    (ovalues (sk_frames (skills state))).

Definition findStrandedInteractionTool (state : AgentState) : option AgentToolCallState :=
  match interactions state with
  | idle => List.find (fun call => toolCallBelongsToCurrentWork state call
                         && status_among (tc_status call) INTERACTION_OWNED_TOOL_STATUSES)
              (ovalues (calls (tools state)))
  | _ => None
  end.

(** ** domains/work/reducer.ts *)

(** A started call with side effects marks the active task.  When the active task
    has no record the source stores [undefined] under its key, which every
    reader takes for an absent one. *)
Definition work_tool_started (state : AgentState) (payload : obj) : AgentState :=
  let call := match nonEmptyStringField payload "toolCallId" with
              | Some id => oget id (calls (tools state)) | None => None end in
  match call, opt_nonempty (activeTaskId state) with
  | Some c, Some taskId =>
      if bool_decide (tc_status c = t_running) && bool_decide (tc_sideEffect c = Some true) then
        match oget taskId (tasks state) with
        | Some current => updateTasks state taskId
                            (fun _ => current <| task_sideEffectsStarted := true |>)
        | None => state
        end
      else state
  | _, _ => state
  end.

Definition putFrame (state : AgentState) (activationId : string) (frame : obj) : AgentState :=
  state <| skills := (skills state)
                       <| sk_frames := oset activationId frame (sk_frames (skills state)) |> |>.

Definition skill_catalog_refreshed (state : AgentState) (payload : obj) : AgentState :=
  match nonEmptyStringField payload "catalogRevision" with
  | Some catalogRevision => state <| skills := (skills state) <| sk_catalogRevision := catalogRevision |> |>
  | None => state
  end.

Definition skill_activation_started (state : AgentState) (payload : obj) : AgentState :=
  match recordField payload "activation" with
  | None => state
  | Some activation =>
      match nonEmptyStringField activation "activationId", nonEmptyStringField activation "taskId" with
      | Some activationId, Some taskId =>
          if negb (opt_str_eqb (Some taskId) (activeTaskId state))
             || ohas activationId (sk_frames (skills state))
          then state
          else putFrame state activationId (oset "status" (VStr "active") activation)
      | _, _ => state
      end
  end.

(** The frame of a closed activation. *)
Definition closedFrame (frame payload : obj) : obj :=
  let closed := oset "closeReason" (get payload "reason")
                  (oset "closedAt" (get payload "closedAt")
                     (oset "status" (get payload "status") frame)) in
  if truthy (get payload "output") then oset "output" (get payload "output") closed else closed.

Definition skill_frame_closed (state : AgentState) (payload : obj) : AgentState :=
  match nonEmptyStringField payload "activationId" with
  | None => state
  | Some activationId =>
      match oget activationId (sk_frames (skills state)) with
      | None => state
      | Some frame =>
          if opt_str_eqb (stringField frame "status") (Some "active"%string)
          then putFrame state activationId (closedFrame frame payload) else state
      end
  end.

Definition reduceWorkState (state : AgentState) (event : obj) : AgentState :=
  let t := ev_type event in
  if t =s "tool.started" then work_tool_started state event
  else if t =s "skill.catalog_refreshed" then skill_catalog_refreshed state event
  else if t =s "skill.activation_started" then skill_activation_started state event
  else if t =s "skill.frame_closed" then skill_frame_closed state event
  else state.

(** ** Ownership: the scheduler's copies *)

Lemma belongs_agree state call :
  toolCallBelongsToCurrentWork state call = toolBelongsToCurrentWork state call.
Proof.
  unfold toolCallBelongsToCurrentWork, toolBelongsToCurrentWork.
  destruct (tc_taskId call); [|done].
  apply Bool.eq_iff_eq_true. rewrite !opt_str_eqb_true. by split.
Qed.

Lemma owned_agree st : status_among st INTERACTION_OWNED_TOOL_STATUSES = interactionOwned st.
Proof. by destruct st. Qed.

(** The scheduler applies the canonical ownership rules.  Its private copies
    agree with the shared ones: it blocks on a stranded call exactly when the
    shared search finds one, it lets an open interaction pass exactly when the
    interaction belongs to the current work (for the interactions of a call,
    whose identity is never empty), and it sees an active skill frame exactly
    when the shared list is not empty. *)
Theorem scheduler_agrees_with_work_scope `{CompletionPort} state :
  (strandedStage state = None <-> findStrandedInteractionTool state = None)
  /\ (interactions state <> idle -> interactionCallId (interactions state) <> Some ""%string ->
      (ownershipStage state = None <-> interactionBelongsToCurrentWork state = true))
  /\ (hasActiveSkillFrameForCurrentWork state = true <->
      activeSkillFramesForCurrentWork state <> []).
Proof.
  split_and!.
  - unfold strandedStage, findStrandedInteractionTool, blocked, effect.
    destruct (interactions state); try done.
    assert (forall l, List.find (fun call => toolCallBelongsToCurrentWork state call
       && status_among (tc_status call) INTERACTION_OWNED_TOOL_STATUSES) l
       = List.find (fun call => toolBelongsToCurrentWork state call
       && interactionOwned (tc_status call)) l) as ->.
    { induction l as [|c l IH]; [done|]. cbn [List.find]. by rewrite belongs_agree, owned_agree, IH. }
    by destruct (List.find _ _).
  - intros Hi Hne. unfold ownershipStage, interactionBelongsToCurrentWork, interactionToolCall, blocked.
    destruct (interactions state); simpl in *; try done;
      (destruct (str_nonempty toolCallId) eqn:En; [|by destruct toolCallId]);
      destruct (oget toolCallId _); rewrite ?belongs_agree; by try case_match.
  - unfold hasActiveSkillFrameForCurrentWork, activeSkillFramesForCurrentWork.
    induction (ovalues _) as [|f l IH]; [done|]. cbn [existsb List.filter].
    destruct (_ && _); [done|]. exact IH.
Qed.

(** ** The frames of skills *)

Definition frames (state : AgentState) : ordmap obj := sk_frames (skills state).

(** What one event may do to the frame of activation [id]. *)
Definition frame_step (state : AgentState) (event : obj) (id : string) (before after : option obj)
  : Prop :=
  match before, after with
  | Some f, Some f' =>
      f' = f \/ (ev_type event = "skill.frame_closed"%string
                 /\ nonEmptyStringField event "activationId" = Some id
                 /\ stringField f "status" = Some "active"%string
                 /\ f' = closedFrame f event)
  | None, Some f' =>
      ev_type event = "skill.activation_started"%string
      /\ exists activation task, recordField event "activation" = Some activation
           /\ nonEmptyStringField activation "activationId" = Some id
           /\ nonEmptyStringField activation "taskId" = Some task
           /\ activeTaskId state = Some task
           /\ f' = oset "status" (VStr "active") activation
  | Some _, None => False
  | None, None => True
  end.

Lemma frame_step_refl state event id f : frame_step state event id f f.
Proof. destruct f; simpl; auto. Qed.
#[local] Hint Resolve frame_step_refl : core.

(** The life of a skill frame.  Whatever the event, a frame is kept as it is,
    or it is active and its own closing event closes it with the reported
    status; a frame that appears is active and was started for the active task
    under an identity that had none.  No frame is ever dropped. *)
Theorem skill_frame_lifecycle state event id :
  frame_step state event id (oget id (frames state))
    (oget id (frames (reduceWorkState state event))).
Proof.
  unfold reduceWorkState.
  destruct (_ =s "tool.started"); [|destruct (_ =s "skill.catalog_refreshed");
    [|destruct (_ =s "skill.activation_started") eqn:E3;
      [|destruct (_ =s "skill.frame_closed") eqn:E4]]]; [..|done].
  - unfold work_tool_started, updateTasks. repeat case_match; apply frame_step_refl.
  - unfold skill_catalog_refreshed. repeat case_match; apply frame_step_refl.
  - apply eqb_true in E3. unfold skill_activation_started.
    destruct (recordField event "activation") as [a|] eqn:Ea; [|done].
    destruct (nonEmptyStringField a "activationId") as [aid|] eqn:Ei; [|done].
    destruct (nonEmptyStringField a "taskId") as [task|] eqn:Et; [|done].
    destruct (_ || _) eqn:Eb; [done|].
    apply orb_false_iff in Eb as [Eb Eo]. apply negb_false_iff, opt_str_eqb_true in Eb.
    unfold frames, putFrame in *. simpl. destruct (decide (id = aid)) as [->|Hne].
    + rewrite oget_oset_eq. unfold ohas in Eo. destruct (oget aid _); [done|]. split; [done|].
      by exists a, task.
    + by rewrite oget_oset_ne.
  - apply eqb_true in E4. unfold skill_frame_closed.
    destruct (nonEmptyStringField event "activationId") as [aid|] eqn:Ei; [|done].
    destruct (oget aid (sk_frames (skills state))) as [f|] eqn:Ef; [|done].
    destruct (opt_str_eqb _ _) eqn:Es; [|done].
    apply opt_str_eqb_true in Es. unfold frames, putFrame in *. simpl.
    destruct (decide (id = aid)) as [->|Hne].
    + rewrite oget_oset_eq, Ef. right. by split_and!.
    + by rewrite oget_oset_ne.
Qed.
