(* ===== verification/Completion.v ===== *)
(** * The completion guard ([completion.ts])

    Whether a final answer may end the current task.  The unplanned guard (V1)
    looks at pending work only; the planned guard (V2) also validates the plan
    document, its steps and the evidence it carries against the session.  The
    document is JSON and is validated field by field, as in the source; its
    identity is carried as it was read, since a blocked decision can name an
    invalid document.  Verification records and plan steps are typed objects of
    the state: their text fields are read with [textOf]. *)

From S2P Require Import Prelude Js Hash State ApprovalQueue Normalization Recovery Traits Scheduler.
From stdpp Require Import prelude strings list pretty.
From Stdlib Require Import ZArith Lia Ascii.
Open Scope Z_scope.

(** ** Vocabulary *)

Definition COMPLETION_GUARD_UNPLANNED_VERSION : string := "completion_guard_v1".
Definition COMPLETION_GUARD_PLANNED_VERSION : string := "completion_guard_v2".

Inductive CompletionBlockerCode : Set :=
| cb_interaction_pending | cb_tool_pending | cb_subagent_suspended
| cb_unknown_external_invocation | cb_skill_active | cb_planning_empty | cb_plan_draft_pending
| cb_plan_review_pending | cb_plan_execution_incomplete | cb_verification_required
| cb_effect_evidence_required | cb_plan_evidence_unresolved | cb_plan_cancelled.
#[export] Instance CompletionBlockerCode_eq_dec : EqDecision CompletionBlockerCode.
Proof. solve_decision. Defined.

Definition blockerText (code : CompletionBlockerCode) : string :=
  match code with
  | cb_interaction_pending => "interaction_pending" | cb_tool_pending => "tool_pending"
  | cb_subagent_suspended => "subagent_suspended"
  | cb_unknown_external_invocation => "unknown_external_invocation"
  | cb_skill_active => "skill_active" | cb_planning_empty => "planning_empty"
  | cb_plan_draft_pending => "plan_draft_pending" | cb_plan_review_pending => "plan_review_pending"
  | cb_plan_execution_incomplete => "plan_execution_incomplete"
  | cb_verification_required => "verification_required"
  | cb_effect_evidence_required => "effect_evidence_required"
  | cb_plan_evidence_unresolved => "plan_evidence_unresolved"
  | cb_plan_cancelled => "plan_cancelled"
  end.

Definition COMPLETION_BLOCKER_CODES : list string :=
  List.map blockerText
    [cb_interaction_pending; cb_tool_pending; cb_subagent_suspended;
     cb_unknown_external_invocation; cb_skill_active; cb_planning_empty; cb_plan_draft_pending;
     cb_plan_review_pending; cb_plan_execution_incomplete; cb_verification_required;
     cb_effect_evidence_required; cb_plan_evidence_unresolved; cb_plan_cancelled].

Definition isCompletionBlockerCode (value : val) : bool :=
  match value with VStr s => str_in s COMPLETION_BLOCKER_CODES | _ => false end.

Inductive CompletionNextAction : Set :=
| na_wait_for_interaction | na_wait_for_tool | na_wait_for_subagent | na_reconcile_invocation
| na_complete_skill | na_save_plan | na_submit_plan | na_wait_for_review | na_complete_plan
| na_complete_verification | na_record_effect_evidence | na_resolve_plan_evidence
| na_start_new_task.

Definition nextActionText (action : CompletionNextAction) : string :=
  match action with
  | na_wait_for_interaction => "wait_for_interaction" | na_wait_for_tool => "wait_for_tool"
  | na_wait_for_subagent => "wait_for_subagent"
  | na_reconcile_invocation => "reconcile_invocation" | na_complete_skill => "complete_skill"
  | na_save_plan => "save_plan" | na_submit_plan => "submit_plan"
  | na_wait_for_review => "wait_for_review" | na_complete_plan => "complete_plan"
  | na_complete_verification => "complete_verification"
  | na_record_effect_evidence => "record_effect_evidence"
  | na_resolve_plan_evidence => "resolve_plan_evidence" | na_start_new_task => "start_new_task"
  end.

(** [PlanningState['kind']]. *)
Definition planningKind (planning : PlanningState) : string :=
  match planning with
  | building_without_plan => "building_without_plan"
  | planning_empty => "planning_empty"
  | planning_draft _ _ => "planning_draft"
  | replanning_draft _ _ _ _ => "replanning_draft"
  | plan_awaiting_review _ _ _ => "awaiting_review"
  | plan_executing _ _ _ => "executing"
  | plan_completed _ _ => "completed"
  | plan_cancelled _ _ _ => "cancelled"
  end.

(** The identity fields of a document, as they were read. *)
Record DocumentIdentity := {
  di_planId : val;
  di_version : val;
  di_structuralDigest : val }.

(** A blocked decision; the V2 form has the identity of its document. *)
Record CompletionGuardBlocked := {
  bd_code : CompletionBlockerCode;
  bd_nextAction : CompletionNextAction;
  bd_planning : string;
  bd_planIdentity : option DocumentIdentity;
  bd_correctionAttempt : Z;
  bd_canCorrect : bool }.

Inductive CompletionGuardDecision : Type :=
| guard_accepted (planIdentity : option DocumentIdentity)
| guard_blocked (b : CompletionGuardBlocked).

Definition versionText (planIdentity : option DocumentIdentity) : string :=
  match planIdentity with
  | None => COMPLETION_GUARD_UNPLANNED_VERSION
  | Some _ => COMPLETION_GUARD_PLANNED_VERSION
  end.

(** [NON_TERMINAL_TOOL_STATUSES] and [TERMINAL_TOOL_STATUSES]. *)
Definition endedToolStatus (s : ToolCallStatus) : bool :=
  match s with
  | t_succeeded | t_failed | t_rejected | t_cancelled | t_exhausted => true
  | _ => false
  end.
Definition openToolStatus (s : ToolCallStatus) : bool :=
  match s with
  | t_queued | t_awaiting_user_input | t_awaiting_review | t_awaiting_approval
  | t_awaiting_auto_review | t_approved | t_authorized_queued | t_running => true
  | _ => false
  end.

(** ** Texts *)

Definition inRange (lo hi : nat) (c : ascii) : bool :=
  (lo <=? nat_of_ascii c)%nat && (nat_of_ascii c <=? hi)%nat.
Definition isLower (c : ascii) : bool := inRange 97 122 c.
Definition isUpper (c : ascii) : bool := inRange 65 90 c.
Definition isDigit (c : ascii) : bool := inRange 48 57 c.
Definition isAlnum (c : ascii) : bool := isLower c || isUpper c || isDigit c.

(** A text [^first rest{0,limit}$]. *)
Definition leadAndRest (first rest : ascii -> bool) (limit : nat) (s : string) : bool :=
  match String.list_ascii_of_string s with
  | [] => false
  | c :: l => first c && forallb rest l && (length l <=? limit)%nat
  end.

(** [^[A-Za-z0-9_-]+$]. *)
Definition SAFE_SEGMENT (s : string) : bool :=
  str_nonempty s
  && forallb (fun c => isAlnum c || Ascii.eqb c "_" || Ascii.eqb c "-")
       (String.list_ascii_of_string s).
(** [^[a-z][a-z0-9_-]{0,31}$]. *)
Definition SAFE_STEP_ID (s : string) : bool :=
  leadAndRest isLower (fun c => isLower c || isDigit c || Ascii.eqb c "_" || Ascii.eqb c "-") 31 s.
(** [^[A-Za-z0-9][A-Za-z0-9._:-]{0,199}$]. *)
Definition SAFE_REFERENCE (s : string) : bool :=
  leadAndRest isAlnum (fun c => isAlnum c || Ascii.eqb c "." || Ascii.eqb c "_"
                                || Ascii.eqb c ":" || Ascii.eqb c "-") 199 s.
(** [^[a-z][a-z0-9_]{0,63}$]. *)
Definition SAFE_REASON_CODE (s : string) : bool :=
  leadAndRest isLower (fun c => isLower c || isDigit c || Ascii.eqb c "_") 63 s.

(** [/[\r\n]/u.test(s)]. *)
Definition hasLineBreak (s : string) : bool :=
  existsb (fun c => Ascii.eqb c "010" || Ascii.eqb c "013") (String.list_ascii_of_string s).

(** [value.replace(/\r\n/g, '\n')]. *)
Fixpoint joinCrLf (s : string) : string :=
  match s with
  | String c ((String d s') as rest) =>
      if Ascii.eqb c "013" && Ascii.eqb d "010" then String d (joinCrLf s')
      else String c (joinCrLf rest)
  | _ => s
  end.

Definition normalizePlanText (value : string) : string := trim (joinCrLf value).

(** ** Shapes of JSON values *)

Definition hasOnlyKeys (value : obj) (allowed : list string) : bool :=
  forallb (fun key => str_in key allowed) (okeys value).

Definition hasExactKeys (value : obj) (keys : list string) : bool :=
  (length (okeys value) =? length keys)%nat && hasOnlyKeys value keys.

(** [typeof v === 'string' && test(v)]. *)
Definition isText (v : val) (test : string -> bool) : bool :=
  match v with VStr s => test s | _ => false end.

(** [Number.isInteger(v) && v >= lo]. *)
Definition isIntegerFrom (v : val) (lo : Z) : bool :=
  match v with VNum (Fin z) => lo <=? z | _ => false end.

(** [Array.isArray(v) && v.every((entry) => isRecord(entry) && test(entry))]. *)
Definition isArrayOf (v : val) (test : obj -> bool) : bool :=
  match v with
  | VArr l => forallb (fun entry => match isRecord entry with
                                    | Some o => test o | None => false end) l
  | _ => false
  end.

Definition lengthWithin (lo hi : Z) (s : string) : bool :=
  (lo <=? Z.of_nat (String.length s)) && (Z.of_nat (String.length s) <=? hi).

(** A text field of a typed object. *)
Definition textOf (o : obj) (f : string) : string := default "" (stringField o f).

Definition isPlanStep (value : obj) : bool :=
  hasExactKeys value (if ohas "note" value then ["id"; "title"; "status"; "note"]
                      else ["id"; "title"; "status"])
  && isText (get value "id") SAFE_STEP_ID
  && isText (get value "title") (fun t => (t =s trim t) && lengthWithin 1 160 t
                                          && negb (hasLineBreak t))
  && isText (get value "status")
       (fun s => str_in s ["pending"; "in_progress"; "completed"; "skipped"])
  && match get value "note" with VUndef | VStr _ => true | _ => false end.

Definition isPlanCompletionEvidence (value : val) : bool :=
  match isRecord value with
  | None => false
  | Some o =>
      hasExactKeys o ["schemaVersion"; "verification"; "execution"; "skipped"; "unresolved"]
      && is_num (get o "schemaVersion") 1
      && isArrayOf (get o "verification") (fun entry =>
           hasExactKeys entry ["verificationId"; "outcome"]
           && isText (get entry "verificationId") SAFE_REFERENCE
           && isText (get entry "outcome") (fun s => str_in s ["passed"; "waived"]))
      && isArrayOf (get o "execution") (fun entry =>
           hasExactKeys entry ["toolCallId"; "outcome"]
           && isText (get entry "toolCallId") SAFE_REFERENCE
           && is_str (get entry "outcome") "succeeded")
      && isArrayOf (get o "skipped") (fun entry =>
           hasExactKeys entry ["stepId"; "reasonCode"]
           && isText (get entry "stepId") SAFE_REFERENCE
           && isText (get entry "reasonCode") SAFE_REASON_CODE)
      && isArrayOf (get o "unresolved") (fun entry =>
           hasExactKeys entry ["kind"; "referenceId"]
           && isText (get entry "kind") (fun s => str_in s ["failure"; "approval"])
           && isText (get entry "referenceId") SAFE_REFERENCE)
  end.

(** The steps of a document: the entries of its [steps] array. *)
Definition stepsOf (document : obj) : list obj :=
  List.map jsonRecord (default [] (arrayField document "steps")).

Definition planStructuralDigest (title bodyMarkdown : string) (steps : list obj) : string :=
  sha256Hex (default "" (json_stringify (VObj
    [("title", VStr (normalizePlanText title));
     ("bodyMarkdown", VStr (normalizePlanText bodyMarkdown));
     ("steps", VArr (List.map (fun step =>
        VObj [("id", VStr (textOf step "id"));
              ("title", VStr (normalizePlanText (textOf step "title")))]) steps))]))).

(** [plan] is validated before its artifact is. *)
Definition isPlanArtifactRef (value : val) (plan : obj) : bool :=
  match isRecord value with
  | None => false
  | Some o =>
      let planId := textOf plan "planId" in
      let version := default 0 (numberField plan "version") in
      hasExactKeys o ["artifactId"; "taskId"; "planId"; "version"; "fileName"; "relativePath";
                      "displayPath"; "structuralDigest"; "byteLength"]
      && is_str (get o "artifactId") (planId +:+ ":v" +:+ pretty version)
      && isText (get o "taskId") SAFE_SEGMENT
      && is_str (get o "planId") planId
      && is_num (get o "version") version
      && is_str (get o "fileName") ("v" +:+ pretty version +:+ ".md")
      && isText (get o "relativePath") str_nonempty
      && isText (get o "displayPath") str_nonempty
      && is_str (get o "structuralDigest") (textOf plan "structuralDigest")
      && isIntegerFrom (get o "byteLength") 0
  end.

Definition DOCUMENT_KEYS : list string :=
  ["planSchemaVersion"; "planId"; "version"; "title"; "bodyMarkdown"; "steps"; "structuralDigest";
   "createdAtTurnId"; "updatedAtTurnId"; "supersedesPlanVersion"; "replanReason";
   "completionEvidence"; "artifact"].

(** The shape of a document, before its digest is recomputed. *)
Definition documentShape (value : obj) : bool :=
  hasOnlyKeys value DOCUMENT_KEYS
  && is_num (get value "planSchemaVersion") 2
  && isText (get value "planId") SAFE_SEGMENT
  && isIntegerFrom (get value "version") 1
  && isText (get value "title") (fun t => (t =s trim t) && lengthWithin 1 120 t
                                          && negb (hasLineBreak t))
  && isText (get value "bodyMarkdown") (fun t => (t =s trim t) && lengthWithin 20 30000 t)
  && isArrayOf (get value "steps") isPlanStep
  && (1 <=? length (stepsOf value))%nat && (length (stepsOf value) <=? 12)%nat
  && (length (dedupe (List.map (fun step => textOf step "id") (stepsOf value)))
      =? length (stepsOf value))%nat
  && isText (get value "structuralDigest") isHex64
  && isText (get value "createdAtTurnId") str_nonempty
  && isText (get value "updatedAtTurnId") str_nonempty
  && isPlanCompletionEvidence (get value "completionEvidence")
  && (is_undef (get value "supersedesPlanVersion")
      || isIntegerFrom (get value "supersedesPlanVersion") 1)
  && (is_undef (get value "replanReason")
      || isText (get value "replanReason") (lengthWithin 0 500)).

Definition isPlanDocument (value : obj) : bool :=
  documentShape value
  && is_str (get value "structuralDigest")
       (planStructuralDigest (textOf value "title") (textOf value "bodyMarkdown") (stepsOf value))
  && (is_undef (get value "artifact") || isPlanArtifactRef (get value "artifact") value).

(** ** The session's facts *)

Definition activePlanning (state : AgentState) : PlanningState :=
  match activeTaskId state with
  | Some id => match oget id (tasks state) with
               | Some task => task_planning task
               | None => building_without_plan
               end
  | None => building_without_plan
  end.

(** [planning.document], where the variant has one. *)
Definition planningDocument (planning : PlanningState) : option obj :=
  match planning with
  | building_without_plan | planning_empty => None
  | planning_draft d _ | replanning_draft d _ _ _ | plan_awaiting_review d _ _
  | plan_executing d _ _ | plan_completed d _ => Some d
  | plan_cancelled d _ _ => d
  end.

Definition toolCallBelongsToCurrentWork (state : AgentState) (call : AgentToolCallState) : bool :=
  match tc_taskId call with
  | Some t => opt_str_eqb (Some t) (activeTaskId state)
  | None => tc_createdAtTurnId call =s turnId (turn state)
  end.

(** [taskId] is the [taskId] field of a call or of a record. *)
Definition belongsToActiveTask (state : AgentState) (taskId : option string) : bool :=
  match taskId, activeTaskId state with
  | Some t, Some a => t =s a
  | _, _ => true
  end.

Definition callsOf (state : AgentState) : list AgentToolCallState := ovalues (calls (tools state)).

Definition hasCurrentNonTerminalTool (state : AgentState) : bool :=
  existsb (fun call => toolCallBelongsToCurrentWork state call
                       && openToolStatus (tc_status call)) (callsOf state).

Definition hasCurrentSuspendedSubagent (state : AgentState) : bool :=
  existsb (fun toolCallId =>
      match oget toolCallId (calls (tools state)) with
      | Some call => (tc_name call =s "task") && negb (endedToolStatus (tc_status call))
                     && toolCallBelongsToCurrentWork state call
      | None => false
      end) (okeys (suspendedSubagents state)).

Definition hasUnknownInvocation (state : AgentState) : bool :=
  existsb (fun invocation => is_str (get invocation "status") "unknown")
    (ovalues (cap_invocations (capabilities state))).

Definition activeSkillFramesForCurrentWork (state : AgentState) : bool :=
  existsb (fun frame => is_str (get frame "status") "active" && ownsFrame state frame)
    (ovalues (sk_frames (skills state))).

(** ** Correction attempts *)

(** Reading a field of an absent identity throws. *)
Definition samePlanIdentity (left : option PlanIdentity) (right : DocumentIdentity) : res bool :=
  match left with
  | Some l => Ok (is_str (di_planId right) (pi_planId l) && is_num (di_version right) (pi_version l)
                  && is_str (di_structuralDigest right) (pi_structuralDigest l))
  | None =>
      if is_undef (di_planId right)
      then Throw "Cannot read properties of undefined (reading 'version')"
      else Ok false
  end.

Definition plannedVersionRecorded (state : AgentState) : bool :=
  opt_str_eqb (guardVersion (completionGuard state)) (Some COMPLETION_GUARD_PLANNED_VERSION).

Definition unplannedCorrectionAttempt (state : AgentState) : Z :=
  if plannedVersionRecorded state then 1
  else fadd (correctionAttempts (completionGuard state)) 1.

Definition plannedCorrectionAttempt (state : AgentState) (identity : DocumentIdentity) : res Z :=
  if plannedVersionRecorded state then
    let* same := samePlanIdentity (planIdentity (completionGuard state)) identity in
    Ok (if same then fadd (correctionAttempts (completionGuard state)) 1 else 1)
  else Ok 1.

Definition reviewedDraftCanPause (state : AgentState) (code : CompletionBlockerCode) : bool :=
  bool_decide (code = cb_plan_draft_pending)
  && match activePlanning state with
     | planning_draft _ (Some _) => true
     | _ => false
     end.

Definition blockedUnplannedCompletion (state : AgentState) (code : CompletionBlockerCode)
    (nextAction : CompletionNextAction) : CompletionGuardBlocked :=
  let correctionAttempt := unplannedCorrectionAttempt state in
  {| bd_code := code; bd_nextAction := nextAction;
     bd_planning := planningKind (activePlanning state); bd_planIdentity := None;
     bd_correctionAttempt := correctionAttempt;
     bd_canCorrect := (correctionAttempt =? 1) && negb (reviewedDraftCanPause state code) |}.

Definition blockedPlannedCompletion (state : AgentState) (identity : DocumentIdentity)
    (code : CompletionBlockerCode) (nextAction : CompletionNextAction)
  : res CompletionGuardBlocked :=
  let* correctionAttempt := plannedCorrectionAttempt state identity in
  Ok {| bd_code := code; bd_nextAction := nextAction;
        bd_planning := planningKind (activePlanning state); bd_planIdentity := Some identity;
        bd_correctionAttempt := correctionAttempt;
        bd_canCorrect := (correctionAttempt =? 1) && negb (reviewedDraftCanPause state code) |}.

(** ** The unplanned guard *)

(** What blocks under both versions, in the order of the source. *)
Definition commonBlock (state : AgentState) : option (CompletionBlockerCode * CompletionNextAction) :=
  match interactions state with
  | idle =>
      if hasCurrentNonTerminalTool state then Some (cb_tool_pending, na_wait_for_tool)
      else if hasCurrentSuspendedSubagent state
      then Some (cb_subagent_suspended, na_wait_for_subagent)
      else if hasUnknownInvocation state
      then Some (cb_unknown_external_invocation, na_reconcile_invocation)
      else if activeSkillFramesForCurrentWork state then Some (cb_skill_active, na_complete_skill)
      else None
  | _ => Some (cb_interaction_pending, na_wait_for_interaction)
  end.

Definition commonBlocker (state : AgentState) : option CompletionGuardBlocked :=
  match commonBlock state with
  | Some (code, nextAction) => Some (blockedUnplannedCompletion state code nextAction)
  | None => None
  end.

Definition decideUnplannedCompletion (state : AgentState) : CompletionGuardDecision :=
  let block code nextAction := guard_blocked (blockedUnplannedCompletion state code nextAction) in
  match commonBlocker state with
  | Some common => guard_blocked common
  | None =>
      match activePlanning state with
      | building_without_plan | plan_completed _ _ => guard_accepted None
      | planning_empty => block cb_planning_empty na_save_plan
      | planning_draft _ _ | replanning_draft _ _ _ _ => block cb_plan_draft_pending na_submit_plan
      | plan_awaiting_review _ _ _ => block cb_plan_review_pending na_wait_for_review
      | plan_executing _ _ _ => block cb_plan_execution_incomplete na_complete_plan
      | plan_cancelled _ _ _ => block cb_plan_cancelled na_start_new_task
      end
  end.

(** ** Evidence *)

Definition isResolvedRecoveryFailure (state : AgentState) (call : AgentToolCallState) : bool :=
  match tc_outcome call with
  | Some outcome =>
      match recordField outcome "lineage" with
      | Some lineage =>
          match stringField lineage "failureInstanceId" with
          | Some id => match oget id (j_failures (toolRecovery state)) with
                       | Some failure => bool_decide (rf_status failure = rf_recovered)
                       | None => false
                       end
          | None => false
          end
      | None => false
      end
  | None => false
  end.

Definition is_succeeded (call : AgentToolCallState) : bool :=
  bool_decide (tc_status call = t_succeeded).

Definition resultOk (call : AgentToolCallState) : bool :=
  match tc_result call with Some r => is_true (get r "ok") | None => false end.

Definition hasSideEffect (call : AgentToolCallState) : bool :=
  match tc_sideEffect call with Some b => b | None => false end.

Definition relevantEffectCalls (state : AgentState) : list AgentToolCallState :=
  List.filter (fun call => hasSideEffect call && belongsToActiveTask state (tc_taskId call)
                           && (is_succeeded call || negb (isResolvedRecoveryFailure state call)))
    (callsOf state).

Definition unsettledToolStatus (s : ToolCallStatus) : bool :=
  match s with
  | t_awaiting_user_input | t_awaiting_review | t_awaiting_approval | t_awaiting_auto_review
  | t_authorized_queued => true
  | _ => false
  end.

Definition relevantPendingCalls (state : AgentState) : list AgentToolCallState :=
  List.filter (fun call => belongsToActiveTask state (tc_taskId call)
                           && unsettledToolStatus (tc_status call)) (callsOf state).

Definition unsuccessful (s : ToolCallStatus) : bool :=
  match s with t_failed | t_rejected | t_cancelled | t_exhausted => true | _ => false end.

(** The entries of an array field of an evidence object. *)
Definition entries (evidence : obj) (f : string) : list obj :=
  List.map jsonRecord (default [] (arrayField evidence f)).

(** [new Map(entries)] and [Object.fromEntries(entries)] of step reasons. *)
Definition skippedReasons (skipped : list obj) : obj :=
  List.fold_left (fun m entry => oset (textOf entry "stepId") (get entry "reasonCode") m) skipped [].

Definition passedOrWaived (record : obj) : bool :=
  is_str (get record "status") "passed" || is_str (get record "status") "waived".

Definition sameTask (state : AgentState) (record : obj) : bool :=
  belongsToActiveTask state (stringField record "taskId").

Section Host.
Context `{JsHost}.

(** [l.sort((a, b) => key(a).localeCompare(key(b)))]. *)
Definition sortByText (key : obj -> string) (l : list obj) : list obj :=
  sort_by (fun a b => match localeCompare (key a) (key b) with Gt => false | _ => true end) l.

Definition verificationEvidence (state : AgentState) : list obj :=
  sortByText (fun e => textOf e "verificationId")
    (List.map (fun record => [("verificationId", VStr (textOf record "verificationId"));
                              ("outcome", get record "status")])
       (List.filter (fun record => sameTask state record && passedOrWaived record)
          (ovalues (verification state)))).

Definition executionEvidence (state : AgentState) : list obj :=
  sortByText (fun e => textOf e "toolCallId")
    (List.map (fun call => [("toolCallId", VStr (tc_toolCallId call));
                            ("outcome", VStr "succeeded")])
       (List.filter (fun call => is_succeeded call && resultOk call) (relevantEffectCalls state))).

Definition unresolvedEntries (state : AgentState) (call : AgentToolCallState) : list obj :=
  (if bool_decide (tc_status call = t_awaiting_approval)
   then [[("kind", VStr "approval"); ("referenceId", VStr (tc_toolCallId call))]] else [])
  ++ (if unsuccessful (tc_status call) && hasSideEffect call
         && negb (isResolvedRecoveryFailure state call)
      then [[("kind", VStr "failure"); ("referenceId", VStr (tc_toolCallId call))]] else []).

Definition unresolvedEvidence (state : AgentState) : list obj :=
  sortByText (fun e => textOf e "kind" +:+ ":" +:+ textOf e "referenceId")
    (List.flat_map (unresolvedEntries state)
       (List.filter (fun call => belongsToActiveTask state (tc_taskId call)) (callsOf state))).

(** The reasons the plan being executed already gives for its skipped steps. *)
Definition priorSkipped (state : AgentState) : obj :=
  match activePlanning state with
  | plan_executing document _ _ =>
      skippedReasons (entries (jsonRecord (get document "completionEvidence")) "skipped")
  | _ => []
  end.

Definition skippedEvidence (state : AgentState) (steps : list obj) (skippedReasonCodes : obj)
  : list obj :=
  sortByText (fun e => textOf e "stepId")
    (List.map (fun step =>
        [("stepId", VStr (textOf step "id"));
         ("reasonCode", nullish (get skippedReasonCodes (textOf step "id"))
                          (nullish (get (priorSkipped state) (textOf step "id")) (VStr "")))])
       (List.filter (fun step => is_str (get step "status") "skipped") steps)).

Definition projectPlanCompletionEvidence (state : AgentState) (steps : list obj)
    (skippedReasonCodes : obj) : obj :=
  [("schemaVersion", VNum (Fin 1));
   ("verification", VArr (List.map VObj (verificationEvidence state)));
   ("execution", VArr (List.map VObj (executionEvidence state)));
   ("skipped", VArr (List.map VObj (skippedEvidence state steps skippedReasonCodes)));
   ("unresolved", VArr (List.map VObj (unresolvedEvidence state)))].

Inductive PlanCompletionBlocker : Set :=
| plan_verification_required | plan_effect_evidence_required | plan_unresolved_blocker
| plan_skipped_reason_required.

Definition requiredUnsettled (record : obj) : bool :=
  is_str (get record "mode") "required" && negb (passedOrWaived record).

(** [state.activeTaskId == null ? undefined : state.tasks[state.activeTaskId]]. *)
Definition sideEffectsStarted (state : AgentState) : bool :=
  match activeTaskId state with
  | Some id => match oget id (tasks state) with
               | Some task => task_sideEffectsStarted task
               | None => false
               end
  | None => false
  end.

Definition listedExecution (evidence : obj) (call : AgentToolCallState) : bool :=
  existsb (fun entry => is_str (get entry "toolCallId") (tc_toolCallId call))
    (entries evidence "execution").

Definition planCompletionBlocker (state : AgentState) (evidence : obj)
  : option PlanCompletionBlocker :=
  if match interactions state with idle => false | _ => true end
     || match relevantPendingCalls state with [] => false | _ => true end
  then Some plan_unresolved_blocker
  else if existsb (fun record => sameTask state record && requiredUnsettled record)
            (ovalues (verification state))
  then Some plan_verification_required
  else if existsb (fun entry => negb (SAFE_REASON_CODE (js_string (get entry "reasonCode"))))
            (entries evidence "skipped")
  then Some plan_skipped_reason_required
  else if match entries evidence "unresolved" with [] => false | _ => true end
  then Some plan_unresolved_blocker
  else if (sideEffectsStarted state
           && match entries evidence "execution" with [] => true | _ => false end)
          || existsb (fun call => negb (is_succeeded call) || negb (resultOk call)
                                  || negb (listedExecution evidence call))
               (relevantEffectCalls state)
  then Some plan_effect_evidence_required
  else None.

Definition planCompletionEvidenceMatchesRuntime (state : AgentState) (steps : list obj)
    (evidence : val) : bool :=
  isPlanCompletionEvidence evidence
  && opt_str_eqb
       (json_stringify (VObj (projectPlanCompletionEvidence state steps
          (skippedReasons (entries (jsonRecord evidence) "skipped")))))
       (json_stringify evidence).

Definition emptyPlanCompletionEvidence : obj :=
  [("schemaVersion", VNum (Fin 1)); ("verification", VArr []); ("execution", VArr []);
   ("skipped", VArr []); ("unresolved", VArr [])].

(** ** The planned guard *)

(** A required record that is not settled, or whose outcome the evidence does not list. *)
Definition verificationUnproved (state : AgentState) (evidence record : obj) : bool :=
  sameTask state record && is_str (get record "mode") "required"
  && (negb (passedOrWaived record)
      || negb (existsb (fun entry =>
                  is_str (get entry "verificationId") (textOf record "verificationId")
                  && is_str (get entry "outcome") (textOf record "status"))
                (entries evidence "verification"))).

Definition plannedEvidenceBlocker (state : AgentState) (document : obj)
  : option (CompletionBlockerCode * CompletionNextAction) :=
  let value := get document "completionEvidence" in
  let evidence := jsonRecord value in
  let needs_verification := Some (cb_verification_required, na_complete_verification) in
  if existsb (verificationUnproved state evidence) (ovalues (verification state))
  then needs_verification
  else
    let blocker := planCompletionBlocker state evidence in
    let effect := match blocker with Some plan_effect_evidence_required => true | _ => false end in
    match blocker with
    | Some plan_verification_required => needs_verification
    | _ =>
        if effect || negb (planCompletionEvidenceMatchesRuntime state (stepsOf document) value)
        then Some (cb_effect_evidence_required, na_record_effect_evidence)
        else match blocker with
             | Some plan_unresolved_blocker | Some plan_skipped_reason_required =>
                 Some (cb_plan_evidence_unresolved, na_resolve_plan_evidence)
             | _ => None
             end
    end.

Definition recoveryUnresolved (state : AgentState) : bool :=
  isToolRecoveryQualityBlocked (toolRecovery state) (activeTaskId state) (turnId (turn state))
  || hasActiveUnresolvedToolFailures (toolRecovery state) (activeTaskId state)
       (Some (turnId (turn state))).

Definition unfinishedStep (step : obj) : bool :=
  is_str (get step "status") "pending" || is_str (get step "status") "in_progress".

(** The verdict on a valid document: [None] accepts. *)
Definition lifecycleBlock (state : AgentState) (planning : PlanningState) (document : obj)
  : option (CompletionBlockerCode * CompletionNextAction) :=
  match planning with
  | planning_draft _ _ | replanning_draft _ _ _ _ => Some (cb_plan_draft_pending, na_submit_plan)
  | plan_awaiting_review _ _ _ => Some (cb_plan_review_pending, na_wait_for_review)
  | plan_executing _ _ _ =>
      if existsb unfinishedStep (stepsOf document)
      then Some (cb_plan_execution_incomplete, na_complete_plan)
      else Some match plannedEvidenceBlocker state document with
                | Some blocker => blocker
                | None => (cb_plan_execution_incomplete, na_complete_plan)
                end
  | plan_completed _ _ => plannedEvidenceBlocker state document
  | plan_cancelled _ _ _ => Some (cb_plan_cancelled, na_start_new_task)
  | building_without_plan | planning_empty => None
  end.

Definition plannedBlock (state : AgentState) (planning : PlanningState) (document : obj)
  : option (CompletionBlockerCode * CompletionNextAction) :=
  match commonBlock state with
  | Some blocker => Some blocker
  | None =>
      if recoveryUnresolved state || negb (isPlanDocument document)
      then Some (cb_plan_evidence_unresolved, na_resolve_plan_evidence)
      else lifecycleBlock state planning document
  end.

Definition documentIdentity (document : obj) : DocumentIdentity :=
  {| di_planId := get document "planId"; di_version := get document "version";
     di_structuralDigest := get document "structuralDigest" |}.

(** Monotonic V2 completion decision for a canonical PlanDocument V2 lifecycle. *)
Definition decidePlannedCompletion (state : AgentState) : res CompletionGuardDecision :=
  let planning := activePlanning state in
  match planningDocument planning with
  | None => Throw "CompletionGuard V2 requires a PlanDocument V2."
  | Some document =>
      let identity := documentIdentity document in
      match plannedBlock state planning document with
      | Some (code, nextAction) =>
          let* blocked := blockedPlannedCompletion state identity code nextAction in
          Ok (guard_blocked blocked)
      | None => Ok (guard_accepted (Some identity))
      end
  end.

(** V2 only when the active lifecycle owns a document. *)
Definition decideCompletion (state : AgentState) : res CompletionGuardDecision :=
  match planningDocument (activePlanning state) with
  | Some _ => decidePlannedCompletion state
  | None => Ok (decideUnplannedCompletion state)
  end.

(** The guard as the scheduler sees it. *)
#[export] Instance completionGuardPort : CompletionPort :=
  {| GuardBlocked := CompletionGuardBlocked;
     guardCompletion := fun state =>
       let* decision := decideCompletion state in
       Ok match decision with guard_accepted _ => None | guard_blocked b => Some b end |}.
End Host.
