(* ===== verification/CompletionReducer.v ===== *)
(** * The completion reducer ([core/completion/reducer.ts])

    Turn, task and run endings.  An event ends the active task only when the
    guard of [Completion.v], asked again on the state the event meets, accepts
    it under the version and the plan identity the event names. *)

From S2P Require Import Prelude Js State Scheduler Completion.
From stdpp Require Import prelude strings list.
From Stdlib Require Import ZArith Lia.
Open Scope Z_scope.

Definition TERMINAL_REASON_CODES : list string :=
  ["completed"; "artifact_invalid"; "profile_invalid"; "digest_invalid"; "workspace_untrusted";
   "sandbox_unavailable"; "network_unavailable"; "worktree_unavailable"; "model_retry_exhausted";
   "provider_unavailable"; "mcp_unavailable"; "persistence_unavailable"; "budget_exhausted";
   "resource_saturated"; "tool_concurrency_saturated"; "shell_concurrency_saturated";
   "process_limit_exceeded"; "cancel_incomplete"; "compaction_unqualified"; "compaction_failed";
   "verification_failed"; "verification_inconclusive"; "mandatory_policy_unavailable"; "blocked";
   "unknown"].
Definition TERMINAL_STATUSES : list string :=
  ["completed"; "aborted"; "blocked"; "unknown"; "budget_exhausted"; "resource_saturated"].
Definition KNOWN_EXTERNAL_EFFECTS : list string := ["none"; "known"; "unknown"].
Definition RECOVERY_ENTRIES : list string :=
  ["none"; "retry"; "reconcile"; "new_run"; "operator_action"].

(** A text of an enumeration. *)
Definition memberField (o : obj) (f : string) (allowed : list string) : option string :=
  match stringField o f with
  | Some s => if str_in s allowed then Some s else None
  | None => None
  end.

Definition planIdentityField (value : val) : option PlanIdentity :=
  let candidate := jsonRecord value in
  match nonEmptyStringField candidate "planId", get candidate "version",
        nonEmptyStringField candidate "structuralDigest" with
  | Some planId, VNum (Fin version), Some structuralDigest =>
      if isSafeInteger version && (1 <=? version)
      then Some {| pi_planId := planId; pi_version := version;
                   pi_structuralDigest := structuralDigest |}
      else None
  | _, _, _ => None
  end.

(** ['document' in task.planning]; a cancelled plan without a document has no such key. *)
Definition hasPlanDocument (state : AgentState) : bool :=
  match getActiveTask state with
  | Some task => is_some (planningDocument (task_planning task))
  | None => false
  end.

Definition completionOutcome (payload : obj) : option AgentRunTerminalOutcome :=
  match recordField payload "outcome" with
  | None => None
  | Some outcome =>
      if is_num (get outcome "version") 1 then
        match memberField outcome "reasonCode" TERMINAL_REASON_CODES,
              memberField outcome "status" TERMINAL_STATUSES,
              memberField outcome "knownExternalEffects" KNOWN_EXTERNAL_EFFECTS,
              memberField outcome "recoveryEntry" RECOVERY_ENTRIES,
              booleanField outcome "safeRetry", booleanField outcome "pendingVerification" with
        | Some reasonCode, Some status, Some effects, Some recovery, Some safeRetry, Some pending =>
            Some {| to_status := status; to_reasonCode := reasonCode;
                    to_knownExternalEffects := effects; to_safeRetry := safeRetry;
                    to_recoveryEntry := recovery; to_pendingVerification := pending |}
        | _, _, _, _, _, _ => None
        end
      else None
  end.

Record CanonicalTaskCompletionFact := {
  fact_taskId : string;
  fact_runId : string;
  fact_turnId : string;
  fact_output : string;
  fact_completionGuardVersion : string;
  fact_planIdentity : option PlanIdentity;
  fact_outcome : AgentRunTerminalOutcome }.

Section Host.
Context `{JsHost}.

(** A throw of the planned guard is caught. *)
Definition completionDecisionForVersion (state : AgentState) (version : string)
  : option CompletionGuardDecision :=
  if version =s COMPLETION_GUARD_UNPLANNED_VERSION then Some (decideUnplannedCompletion state)
  else if version =s COMPLETION_GUARD_PLANNED_VERSION then
    match decidePlannedCompletion state with Ok decision => Some decision | Throw _ => None end
  else None.

(** The identity of the payload when the event matches the decision; [None] when
    it does not.  The V1 form has no identity. *)
Definition blockedEventMatchesDecision (payload : obj) (decision : CompletionGuardBlocked)
  : res (option (option PlanIdentity)) :=
  if opt_str_eqb (stringField payload "guardVersion") (Some (versionText (bd_planIdentity decision)))
     && opt_str_eqb (stringField payload "code") (Some (blockerText (bd_code decision)))
     && opt_str_eqb (stringField payload "nextAction")
          (Some (nextActionText (bd_nextAction decision)))
     && opt_str_eqb (stringField payload "planning") (Some (bd_planning decision))
     && is_num (get payload "correctionAttempt") (bd_correctionAttempt decision)
  then
    match bd_planIdentity decision with
    | None => Ok (Some None)
    | Some docId =>
        let named := planIdentityField (get payload "planIdentity") in
        let* same := samePlanIdentity named docId in
        Ok (if same then Some named else None)
    end
  else Ok None.

(** Normalize the legacy raw name into the one Task-completion domain fact. *)
Definition normalizeCanonicalTaskCompletionFact (state : AgentState) (payload : obj)
    (runtimeRunId : string) : res (option CanonicalTaskCompletionFact) :=
  match nonEmptyStringField payload "turnId", getActiveTask state with
  | Some turn', Some activeTask =>
      if negb (turn' =s turnId (turn state)) || negb (str_nonempty runtimeRunId) then Ok None
      else
        let version := default COMPLETION_GUARD_UNPLANNED_VERSION
                         (stringField payload "completionGuardVersion") in
        if hasPlanDocument state && negb (version =s COMPLETION_GUARD_PLANNED_VERSION) then Ok None
        else
          match completionDecisionForVersion state version with
          | Some (guard_accepted accepted) =>
              let named := planIdentityField (get payload "planIdentity") in
              let* same := match accepted with
                           | Some docId => samePlanIdentity named docId
                           | None => Ok true
                           end in
              Ok (if same then
                    match completionOutcome payload, stringField payload "output" with
                    | Some outcome, Some output =>
                        Some {| fact_taskId := task_taskId activeTask; fact_runId := runtimeRunId;
                                fact_turnId := turn'; fact_output := output;
                                fact_completionGuardVersion := version;
                                fact_planIdentity := named; fact_outcome := outcome |}
                    | _, _ => None
                    end
                  else None)
          | _ => Ok None
          end
  | _, _ => Ok None
  end.

(** ** One definition per event *)

Definition turn_completed_event (state : AgentState) (payload : obj) : AgentState :=
  match nonEmptyStringField payload "turnId" with
  | Some id => if id =s turnId (turn state)
               then state <| turn := (turn state) <| turn_status := turn_completed |> |> else state
  | None => state
  end.

Definition turn_aborted_event (state : AgentState) (payload : obj) : AgentState :=
  match nonEmptyStringField payload "turnId", nonEmptyStringField payload "reason" with
  | Some id, Some reason =>
      if id =s turnId (turn state) then
        state <| turn := (turn state)
          <| turnId := id |> <| turn_status := turn_aborted |> <| abortReason := Some reason |>
          <| abortCause := match stringField payload "cause" with
                           | Some cause => if str_in cause ["error"; "user"] then Some cause
                                           else abortCause (turn state)
                           | None => abortCause (turn state)
                           end |> |>
      else state
  | _, _ => state
  end.

Definition run_completed_event (state : AgentState) (payload : obj) : res AgentState :=
  let* fact := normalizeCanonicalTaskCompletionFact state payload
                 (default "" (stringField payload "turnId")) in
  match fact with
  | None => Ok state
  | Some fact =>
      match oget (fact_taskId fact) (tasks state) with
      | None => Throw "Cannot read properties of undefined (reading 'taskId')"
      | Some activeTask =>
          let completed := activeTask <| task_status := task_completed |>
                             <| task_completedAtTurnId := Some (fact_turnId fact) |>
                             <| task_executionMode := None |> in
          Ok (state <| terminalOutcome := Some (fact_outcome fact) |> <| activeTaskId := None |>
                <| tasks := oset (task_taskId activeTask) completed (tasks state) |>)
      end
  end.

Definition run_error_event (state : AgentState) (payload : obj) : AgentState :=
  match completionOutcome payload with
  | Some outcome => state <| terminalOutcome := Some outcome |>
  | None => state
  end.

(** The identity stored is the payload's, which the match made equal to the
    decision's. *)
Definition completion_blocked_event (state : AgentState) (payload : obj) : res AgentState :=
  match nonEmptyStringField payload "turnId", nonEmptyStringField payload "guardVersion" with
  | Some id, Some version =>
      if negb (id =s turnId (turn state)) then Ok state
      else if hasPlanDocument state && negb (version =s COMPLETION_GUARD_PLANNED_VERSION)
      then Ok state
      else
        match completionDecisionForVersion state version with
        | Some (guard_blocked decision) =>
            let* matched := blockedEventMatchesDecision payload decision in
            Ok match matched with
               | None => state
               | Some named =>
                   state
                     <| completionGuard :=
                          {| correctionAttempts := bd_correctionAttempt decision;
                             guardVersion := Some (versionText (bd_planIdentity decision));
                             planIdentity := named |} |>
                     <| transcript := (transcript state) <| final := None |> |>
               end
        | _ => Ok state
        end
  | _, _ => Ok state
  end.

(** Completion truth is produced by this fixed reducer, never by a provider. *)
Definition reduceCompletionState (state : AgentState) (event : obj) : res AgentState :=
  let isType t := ev_type event =s t in
  if isType "turn.completed" then Ok (turn_completed_event state event)
  else if isType "turn.aborted" then Ok (turn_aborted_event state event)
  else if isType "run.completed" then run_completed_event state event
  else if isType "run.error" then Ok (run_error_event state event)
  else if isType "completion.blocked" then completion_blocked_event state event
  else Ok state.
End Host.
