(* ===== verification/Verification.v ===== *)
(** * Verification ([domains/verification/reducer.ts], [verification-policy.ts],
      [verification-schema-facts.ts])

    The life of a verification record: requested, run, repaired, waived by the
    user, compensated.  Records are the JSON objects the reducer builds by object
    spread; reading a property of [undefined] throws, as in the source. *)

From S2P Require Import Prelude Js Hash State Authorization Completion.
From stdpp Require Import prelude strings list pretty.
From Stdlib Require Import ZArith Lia.
Open Scope Z_scope.

(** ** Policy *)

Inductive VerificationMode : Set := not_required | best_effort | required_mode.
#[export] Instance VerificationMode_eq_dec : EqDecision VerificationMode.
Proof. solve_decision. Defined.

Definition VERIFICATION_STRENGTH_ (mode : VerificationMode) : Z :=
  match mode with not_required => 0 | best_effort => 1 | required_mode => 2 end.

Inductive VerificationEffect : Set :=
| ve_none | ve_read | ve_write | ve_destructive | ve_unknown.

Record KernelVerificationEffects := {
  fx_filesystem : VerificationEffect;
  fx_network : VerificationEffect;
  fx_externalState : VerificationEffect }.

Record KernelVerificationPolicyFacts := {
  pf_baseline : option VerificationMode;
  pf_capabilityEffects : option KernelVerificationEffects;
  pf_skillMode : option VerificationMode;
  pf_userMode : option VerificationMode }.

Definition kernelEffectsRequireVerification (effects : KernelVerificationEffects) : bool :=
  existsb (fun effect => match effect with
                         | ve_write | ve_destructive | ve_unknown => true
                         | _ => false end)
    [fx_filesystem effects; fx_network effects; fx_externalState effects].

Definition optional {A} (o : option A) : list A := match o with Some a => [a] | None => [] end.

(** The first mode is the baseline; [reduce] starts from it. *)
Definition resolveKernelVerificationMode (facts : KernelVerificationPolicyFacts)
  : VerificationMode :=
  let modes := optional (pf_skillMode facts) ++ optional (pf_userMode facts)
               ++ match pf_capabilityEffects facts with
                  | Some effects => if kernelEffectsRequireVerification effects
                                    then [required_mode] else []
                  | None => []
                  end in
  List.fold_left (fun strongest mode =>
      if VERIFICATION_STRENGTH_ strongest <? VERIFICATION_STRENGTH_ mode then mode else strongest)
    modes (default not_required (pf_baseline facts)).

(** ** Admission of a specification *)

(** [v.k]. *)
Definition propOf (v : val) (k : string) : res val :=
  match v with
  | VUndef => Throw ("Cannot read properties of undefined (reading '" +:+ k +:+ "')")
  | VNull => Throw ("Cannot read properties of null (reading '" +:+ k +:+ "')")
  | VObj o => Ok (get o k)
  | _ => Ok VUndef
  end.

Definition verificationSchemaAdmissionDigest (value : val) : res string :=
  match json_stringify value with
  | None => Throw "Verification schema cannot be serialized."
  | Some serialized => Ok (sha256Hex serialized)
  end.

(** [facts.verificationSchemaAdmissions?.[index]], as an object. *)
Definition admissionAt (facts : AgentReducerFacts) (index : nat) : obj :=
  match verificationSchemaAdmissions facts with
  | VArr l => jsonRecord (nth index l VUndef)
  | _ => []
  end.

Definition schemaAdmissionDiagnostic (facts : AgentReducerFacts) (checkIndex : nat) (schema : val)
    (target : string) : res (option string) :=
  let admission := admissionAt facts checkIndex in
  let digestKey := target +:+ "Digest" in
  let diagnosticKey := target +:+ "Diagnostic" in
  if negb (ohas digestKey admission) || negb (ohas diagnosticKey admission) then
    Ok (Some ("Host admission fact is missing for VerificationSpec " +:+ target +:+ "."))
  else
    let* digest := verificationSchemaAdmissionDigest schema in
    Ok (if negb (is_str (get admission digestKey) digest)
        then Some ("Host admission fact identity mismatches VerificationSpec " +:+ target +:+ ".")
        else stringField admission diagnosticKey).

Definition CHECK_TYPES : list string :=
  ["file_assertion"; "command"; "schema"; "mcp_read_after_write"; "external_reference"; "receipt";
   "reviewer"].

(** [if (c) diagnostics.push(message)]. *)
Definition complain (c : bool) (message : string) : list string := if c then [message] else [].

(** A non-empty diagnostic of the schema admission. *)
Definition schemaComplaint (facts : AgentReducerFacts) (checkIndex : nat) (checkId : string)
    (schema : val) (target : string) : res (list string) :=
  let* diagnostic := schemaAdmissionDiagnostic facts checkIndex schema target in
  Ok match opt_nonempty diagnostic with
     | Some d => [checkId +:+ ": " +:+ d]
     | None => []
     end.

(** The diagnostics that depend on the type of a check. *)
Definition typeDiagnostics (facts : AgentReducerFacts) (checkIndex : nat) (checkId type : string)
    (check : obj) : res (list string) :=
  let missing f := negb (truthy (get check f)) in
  if type =s "file_assertion" then
    Ok (complain (missing "path") (checkId +:+ ": path is required.")
        ++ complain (is_str (get check "assertion") "sha256_equals" && missing "expectedDigest")
             (checkId +:+ ": expectedDigest is required."))
  else if type =s "command" then
    Ok (complain (missing "command") (checkId +:+ ": command is required."))
  else if type =s "schema" then
    schemaComplaint facts checkIndex checkId (get check "schema") "schema"
  else if type =s "mcp_read_after_write" then
    let* output :=
      if truthy (get check "outputSchema")
      then schemaComplaint facts checkIndex checkId (get check "outputSchema") "outputSchema"
      else Ok [] in
    Ok (complain (missing "invocationId" || missing "capabilityId" || missing "capabilityRevision")
          (checkId +:+ ": invocation and capability identity are required.")
        ++ output)
  else if (type =s "external_reference") || (type =s "receipt") then
    Ok (complain (missing "invocationId") (checkId +:+ ": invocationId is required."))
  else if type =s "reviewer" then
    Ok (complain (missing "instructions")
          (checkId +:+ ": legacy reviewer instructions are required."))
  else Ok [].

(** One iteration of the loop over the checks, with the identities seen. *)
Definition checkDiagnostics (facts : AgentReducerFacts) (checkIndex : nat) (ids : list string)
    (candidate : val) : res (list string) :=
  let check := jsonRecord candidate in
  let checkId := textOf check "checkId" in
  let type := textOf check "type" in
  let* specific := typeDiagnostics facts checkIndex checkId type check in
  Ok (complain (negb (str_nonempty checkId)) "Every verification check requires checkId."
      ++ complain (str_in checkId ids) ("Duplicate verification check '" +:+ checkId +:+ "'.")
      ++ complain (negb (str_in type CHECK_TYPES)) ("Unsupported check type '" +:+ type +:+ "'.")
      ++ specific).

Fixpoint checksDiagnostics (facts : AgentReducerFacts) (checkIndex : nat) (ids : list string)
    (checks : list val) : res (list string) :=
  match checks with
  | [] => Ok []
  | candidate :: rest =>
      let* here := checkDiagnostics facts checkIndex ids candidate in
      let* there := checksDiagnostics facts (S checkIndex)
                      (textOf (jsonRecord candidate) "checkId" :: ids) rest in
      Ok (here ++ there)
  end.

Definition validateVerificationSpec (spec : val) (facts : AgentReducerFacts)
  : res (list string) :=
  let* version := propOf spec "schemaVersion" in
  let* verificationId := propOf spec "verificationId" in
  let* subject := propOf spec "subject" in
  let* repair := propOf spec "repair" in
  let* maxAttempts := propOf repair "maxAttempts" in
  let* checks := propOf spec "checks" in
  let header :=
    complain (negb (is_num version 1)) "Unsupported VerificationSpec schema version."
    ++ complain (negb (truthy verificationId)) "verificationId is required."
    ++ complain (negb (truthy subject)) "subject is required."
    ++ complain (negb (isIntegerFrom maxAttempts 0))
         "repair.maxAttempts must be a non-negative integer." in
  match checks with
  | VArr l =>
      let* diagnostics := checksDiagnostics facts 0 [] l in
      Ok (header
          ++ complain (match l with [] => true | _ => false end)
               "At least one verification check is required."
          ++ diagnostics)
  | VUndef => Throw "Cannot read properties of undefined (reading 'length')"
  | VNull => Throw "Cannot read properties of null (reading 'length')"
  | _ => Throw "checks.entries is not a function"
  end.

(** ** Records *)

Definition withRecord (state : AgentState) (verificationId : string) (record : obj) : AgentState :=
  state <| verification := oset verificationId record (verification state) |>.

Definition appendInstruction (state : AgentState) (verificationId instruction : string)
  : AgentState :=
  let message : obj :=
    [("kind", VStr "runtime");
     ("messageId", VStr ("verification-" +:+ verificationId +:+ "-" +:+ pretty (revision state)));
     ("turnId", VStr (turnId (turn state)));
     ("ordinal", VNum (Fin (Z.of_nat (length (messages (transcript state))))));
     ("createdAt", VStr EPOCH_CREATED_AT); ("content", VStr instruction)] in
  state <| transcript := {| messages := messages (transcript state) ++ [message];
                            final := None |} |>.

Definition statusOf (record : obj) : string := textOf record "status".

Definition verification_requested (state : AgentState) (verificationId : string) (payload : obj)
    (facts : AgentReducerFacts) : res AgentState :=
  let taskId := nonEmptyStringField payload "taskId" in
  if match taskId with Some t => negb (opt_str_eqb (Some t) (activeTaskId state)) | None => false end
  then Ok state
  else
    let mode := get payload "mode" in
    let spec := get payload "spec" in
    let* diagnostics := validateVerificationSpec spec facts in
    let invalid := match diagnostics with [] => false | _ => true end in
    Ok (withRecord state verificationId
      ([("verificationId", VStr verificationId)]
       ++ match taskId with Some t => [("taskId", VStr t)] | None => [] end
       ++ [("mode", mode);
           ("status", VStr (if is_str mode "not_required" then "passed"
                            else if invalid then "budget_exhausted" else "pending"));
           ("spec", spec); ("requestedAt", of_opt_str (stringField payload "requestedAt"));
           ("attempts", VNum (Fin 0)); ("repairAttempts", VNum (Fin 0)); ("checkResults", VObj [])]
       ++ if invalid then [("diagnostics", VArr (List.map VStr diagnostics))] else [])).

Definition verification_started (state : AgentState) (verificationId : string)
    (current payload : obj) : AgentState :=
  if str_in (statusOf current) ["pending"; "running"; "repair_pending"] then
    match safeNatural payload "attempt" with
    | None => state
    | Some attempt =>
        withRecord state verificationId
          (oset "completedAt" VUndef
            (oset "checkResults" (VObj [])
              (oset "attempts" (VNum (Fin (Z.max (default 0 (numberField current "attempts"))
                                             attempt)))
                (oset "status" (VStr "running") current))))
    end
  else state.

Definition verification_check_completed (state : AgentState) (verificationId : string)
    (current payload : obj) : AgentState :=
  if statusOf current =s "running" then
    match recordField payload "result" with
    | None => state
    | Some result =>
        match nonEmptyStringField result "checkId" with
        | None => state
        | Some checkId =>
            let checkResults := default [] (recordField current "checkResults") in
            withRecord state verificationId
              (oset "checkResults" (VObj (oset checkId (VObj result) checkResults)) current)
        end
    end
  else state.

(** The failure of a required verification whose repairs are spent is final. *)
Definition repairsSpent (current : obj) : bool :=
  is_str (get current "mode") "required"
  && match recordField current "spec" with
     | Some spec =>
         match recordField spec "repair" with
         | Some repair =>
             match numberField repair "maxAttempts" with
             | Some maxAttempts => maxAttempts <=? default 0 (numberField current "repairAttempts")
             | None => false
             end
         | None => false
         end
     | None => false
     end.

Definition verification_completed (state : AgentState) (verificationId : string)
    (current payload : obj) : AgentState :=
  let outcome := textOf payload "outcome" in
  if (statusOf current =s "running") && str_in outcome ["passed"; "failed"; "inconclusive"] then
    let status := if outcome =s "passed" then "passed"
                  else if repairsSpent current then "budget_exhausted"
                  else if outcome =s "failed" then "failed" else "inconclusive" in
    withRecord state verificationId
      (oset "completedAt" (of_opt_str (stringField payload "completedAt"))
        (oset "status" (VStr status) current))
  else state.

Definition verification_repair_requested (state : AgentState) (verificationId : string)
    (current payload : obj) : AgentState :=
  if str_in (statusOf current) ["failed"; "inconclusive"] then
    match safeNatural payload "repairAttempt", stringField payload "instruction" with
    | Some repairAttempt, Some instruction =>
        appendInstruction
          (withRecord state verificationId
            (oset "repairAttempts"
              (VNum (Fin (Z.max (default 0 (numberField current "repairAttempts")) repairAttempt)))
              (oset "status" (VStr "repair_pending") current)))
          verificationId instruction
    | _, _ => state
    end
  else state.

Definition verification_replan_requested (state : AgentState) (verificationId : string)
    (current payload : obj) : AgentState :=
  if str_in (statusOf current) ["passed"; "waived"] then state
  else
    match stringField payload "instruction" with
    | None => state
    | Some instruction =>
        appendInstruction
          (withRecord state verificationId
            (oset "repairAttempts" (VNum (Fin 0)) (oset "status" (VStr "repair_pending") current)))
          verificationId instruction
    end.

Definition verification_waived (state : AgentState) (verificationId : string)
    (current payload : obj) : AgentState :=
  match nonEmptyStringField payload "reason", nonEmptyStringField payload "waivedAt" with
  | Some reason, Some waivedAt =>
      if (statusOf current =s "passed") || negb (is_str (get payload "actor") "user") then state
      else withRecord state verificationId
             (oset "waiver" (VObj [("actor", VStr "user"); ("reason", VStr reason);
                                   ("waivedAt", VStr waivedAt)])
               (oset "status" (VStr "waived") current))
  | _, _ => state
  end.

Definition compensation_requested (state : AgentState) (verificationId : string)
    (current : obj) : AgentState :=
  match recordField current "spec" with
  | None => state
  | Some spec =>
      if is_some (recordField spec "compensation")
         && str_in (statusOf current) ["failed"; "inconclusive"; "budget_exhausted"]
      then withRecord state verificationId (oset "status" (VStr "compensating") current)
      else state
  end.

Definition compensation_completed (state : AgentState) (verificationId : string)
    (current payload : obj) : AgentState :=
  let outcome := textOf payload "outcome" in
  match stringField payload "summary", stringField payload "completedAt" with
  | Some summary, Some completedAt =>
      if (statusOf current =s "compensating")
         && str_in outcome ["passed"; "failed"; "inconclusive"]
      then withRecord state verificationId
             (oset "compensation" (VObj [("outcome", VStr outcome); ("summary", VStr summary);
                                         ("completedAt", VStr completedAt)])
               (oset "status" (VStr "compensated") current))
      else state
  | _, _ => state
  end.

(** Verification evidence is recorded here; completion policy remains in core/completion. *)
Definition reduceVerificationState (state : AgentState) (event : obj) (facts : AgentReducerFacts)
  : res AgentState :=
  match nonEmptyStringField event "verificationId" with
  | None => Ok state
  | Some verificationId =>
      let isType t := ev_type event =s t in
      match oget verificationId (verification state) with
      | None => if isType "verification.requested"
                then verification_requested state verificationId event facts else Ok state
      | Some current =>
          Ok (if isType "verification.started"
              then verification_started state verificationId current event
              else if isType "verification.check_completed"
              then verification_check_completed state verificationId current event
              else if isType "verification.completed"
              then verification_completed state verificationId current event
              else if isType "verification.repair_requested"
              then verification_repair_requested state verificationId current event
              else if isType "verification.replan_requested"
              then verification_replan_requested state verificationId current event
              else if isType "verification.waived"
              then verification_waived state verificationId current event
              else if isType "verification.compensation_requested"
              then compensation_requested state verificationId current
              else if isType "verification.compensation_completed"
              then compensation_completed state verificationId current event
              else state)
      end
  end.
