(* ===== verification/Intent.v ===== *)
(** * The intent reducer ([core/intent/reducer.ts])

    The life of a tool call: queued, started, ended.  A queued call that repeats
    an earlier failure asks the recovery journal; an ended call gets its result,
    its transcript message and leaves the work lists.  Results and messages are
    JSON objects, built field by field in the order of the source. *)

From S2P Require Import Prelude Js Hash State Authorization Normalization Recovery Completion.
From stdpp Require Import prelude strings list pretty.
From Stdlib Require Import ZArith Lia.
Open Scope Z_scope.

(** ** Effects of a call *)

Definition READ_ONLY_TOOLS : list string :=
  ["read_file"; "search_content"; "search_files"; "tool_search"; "list_mcp_resources";
   "list_mcp_tools"; "read_mcp_resource"; "web_fetch"; "ask_user"].
Definition PLAN_ONLY_TOOLS : list string := ["write_plan"; "update_plan"].
Definition READ_ONLY_SUBAGENTS : list string := ["explore"; "plan"; "review"].

Record EffectFacts := {
  ef_effectClass : EffectClass;
  ef_sideEffect : bool;
  ef_classificationReason : option string }.

Definition effectProjection (name : string) (args : val) : EffectFacts :=
  if str_in name READ_ONLY_TOOLS then
    {| ef_effectClass := read_only; ef_sideEffect := false;
       ef_classificationReason := Some (name +:+ " is a read-only capability.") |}
  else if str_in name PLAN_ONLY_TOOLS then
    {| ef_effectClass := plan_only; ef_sideEffect := false;
       ef_classificationReason := Some (name +:+ " changes runtime planning state only.") |}
  else if name =s "task" then
    let writer := {| ef_effectClass := workspace_write; ef_sideEffect := true;
                     ef_classificationReason :=
                       Some "Implementation-capable or unknown sub-agent role." |} in
    match stringField (jsonRecord args) "subagent_type" with
    | Some subagentType =>
        if str_in subagentType READ_ONLY_SUBAGENTS then
          {| ef_effectClass := read_only; ef_sideEffect := false;
             ef_classificationReason := Some (subagentType +:+ " sub-agent is read-only by role.") |}
        else writer
    | None => writer
    end
  else {| ef_effectClass := effect_unknown; ef_sideEffect := true;
          ef_classificationReason :=
            Some ("No safe capability classification exists for " +:+ name +:+ ".") |}.

Definition effectClassOf (text : string) : option EffectClass :=
  if text =s "read_only" then Some read_only else if text =s "plan_only" then Some plan_only
  else if text =s "workspace_write" then Some workspace_write
  else if text =s "external_side_effect" then Some external_side_effect
  else if text =s "unknown" then Some effect_unknown else None.

Definition suppliedEffect (payload : obj) (name : string) (args : val) : EffectFacts :=
  match effectClassOf (textOf payload "effectClass") with
  | None => effectProjection name args
  | Some class =>
      {| ef_effectClass := class;
         ef_sideEffect := match booleanField payload "sideEffect" with
                          | Some b => b
                          | None => negb (bool_decide (class = read_only))
                                    && negb (bool_decide (class = plan_only))
                          end;
         ef_classificationReason := nonEmptyStringField payload "classificationReason" |}
  end.

Definition TOOL_CLASSES : list string :=
  ["builtin_read"; "builtin_write"; "builtin_execute"; "builtin_other"; "mcp_tool"].

Definition unknownToolFields (value : val) : option obj :=
  match isRecord value with
  | None => None
  | Some candidate =>
      match booleanField candidate "hasUnknown", safeNatural candidate "count",
            nonEmptyStringField candidate "schemaRevision" with
      | Some hasUnknown, Some count, Some schemaRevision =>
          if (count <=? 255) && str_in (textOf candidate "toolClass") TOOL_CLASSES then
            Some [("hasUnknown", VBool hasUnknown); ("count", VNum (Fin count));
                  ("toolClass", VStr (textOf candidate "toolClass"));
                  ("schemaRevision", VStr schemaRevision)]
          else None
      | _, _, _ => None
      end
  end.

(** ** Lists and transcript *)

Definition withToolMembership (state : AgentState) (toolCallId : string) (active' queued : bool)
  : AgentState :=
  state <| tools := (tools state)
    <| queue := replaceStringInList (queue (tools state)) toolCallId queued |>
    <| active := replaceStringInList (active (tools state)) toolCallId active' |> |>.

Definition transcriptMeta (state : AgentState) (messageId : string) (createdAt : option string)
  : obj :=
  [("messageId", VStr messageId); ("turnId", VStr (turnId (turn state)));
   ("ordinal", VNum (Fin (Z.of_nat (length (messages (transcript state))))));
   ("createdAt", VStr (default EPOCH_CREATED_AT createdAt))].

(** [a || b || ''] of two optional texts. *)
Definition firstText (a b : option string) : string :=
  match opt_nonempty a with Some s => s | None => default "" (opt_nonempty b) end.

Definition toolExecutionModelContent (result : obj) : string :=
  let ok := is_true (get result "ok")
            && (is_undef (get result "status") || is_str (get result "status") "success") in
  if ok then firstText (stringField result "stdout") (stringField result "stderr")
  else firstText (stringField result "stderr") (stringField result "stdout").

(** A non-empty text argument of a call. *)
Definition stringArg (args : val) (key : string) : option string :=
  nonEmptyStringField (jsonRecord args) key.

(** [...(c ? { f: v } : {})] onto an object. *)
Definition set_if (f : string) (v : option val) (o : obj) : obj :=
  match v with Some x => oset f x o | None => o end.

Definition or_else {A} (a b : option A) : option A := match a with Some _ => a | None => b end.

Definition resultMeta (call : AgentToolCallState) (result : obj) (content : string) : obj :=
  let supplied := default [] (recordField result "resultMeta") in
  let path := or_else (stringField supplied "path")
                (or_else (stringArg (tc_args call) "path") (stringArg (tc_args call) "uri")) in
  let path := opt_nonempty path in
  let suppliedContentDigest := stringField supplied "contentDigest" in
  let suppliedModelDigest := stringField supplied "modelContentDigest" in
  let truncated := is_true (get supplied "truncated") in
  let fallbackDigest := sha256Hex content in
  let mutates := is_true (get result "ok")
                 && (bool_decide (tc_effectClass call = Some workspace_write)
                     || (bool_decide (tc_effectClass call = Some effect_unknown)
                         && hasSideEffect call)) in
  let scope := if mutates then match path with Some p => Some (VArr [VStr p]) | None => None end
               else None in
  oset "digestScope"
    (VStr (default (if truncated then "projected"
                    else if is_some (opt_nonempty suppliedContentDigest) then "raw"
                    else "legacy_unknown") (stringField supplied "digestScope")))
  (oset "rawResultDigest"
    (if truncated then VUndef
     else VStr (default fallbackDigest
                  (or_else (stringField supplied "rawResultDigest") suppliedContentDigest)))
  (oset "modelContentDigest"
    (VStr (default fallbackDigest (or_else suppliedModelDigest suppliedContentDigest)))
  (oset "contentDigest"
    (VStr (default fallbackDigest (or_else suppliedContentDigest suppliedModelDigest)))
  (set_if "workspaceMutationScope" scope
  (set_if "command" (option_map VStr (nonEmptyStringField result "command"))
  (set_if "totalLines" (option_map (fun z => VNum (Fin z)) (numberField result "totalLines"))
  (set_if "path" (option_map VStr path) supplied))))))).

(** The call a tool message reports, and its model message. *)
Definition messageCall (state : AgentState) (message : obj) : option AgentToolCallState :=
  if is_str (get message "kind") "tool"
  then oget (textOf message "toolCallId") (calls (tools state)) else None.

Definition sameModelMessage (state : AgentState) (modelMessageId : string) (message : obj) : bool :=
  match messageCall state message with
  | Some call => tc_modelMessageId call =s modelMessageId
  | None => false
  end.

(** Calls without an ordinal come last; the sort is stable, so equal ordinals
    keep the order of their messages. *)
Definition ordinalLe (state : AgentState) (left right : obj) : bool :=
  match messageCall state left ≫= tc_ordinal, messageCall state right ≫= tc_ordinal with
  | None, None => true
  | None, Some _ => false
  | Some _, None => true
  | Some a, Some b => a <=? b
  end.

(** Replace the messages that satisfy [p], in order, by those of a list. *)
Fixpoint writeBack (p : obj -> bool) (messages' ordered : list obj) : list obj :=
  match messages' with
  | [] => []
  | m :: rest =>
      if p m then match ordered with
                  | x :: ordered' => x :: writeBack p rest ordered'
                  | [] => m :: writeBack p rest []
                  end
      else m :: writeBack p rest ordered
  end.

(** Every message gets its position as its ordinal. *)
Fixpoint renumberFrom (n : Z) (messages' : list obj) : list obj :=
  match messages' with
  | [] => []
  | m :: rest => oset "ordinal" (VNum (Fin n)) m :: renumberFrom (n + 1) rest
  end.

(** [message] is a tool message. *)
Definition appendToolTranscript (state : AgentState) (message : obj) : AgentTranscriptState :=
  let appended := messages (transcript state) ++ [message] in
  let arranged :=
    match oget (textOf message "toolCallId") (calls (tools state)) with
    | Some sourceCall =>
        if str_nonempty (tc_modelMessageId sourceCall) then
          let p := sameModelMessage state (tc_modelMessageId sourceCall) in
          writeBack p appended (sort_by (ordinalLe state) (List.filter p appended))
        else appended
    | None => appended
    end in
  (transcript state) <| messages := renumberFrom 0 arranged |>.

Definition clearSuspendedSubagent (state : AgentState) (toolCallId : string) (isTaskCall : bool)
  : ordmap obj :=
  if isTaskCall then odelete toolCallId (suspendedSubagents state) else suspendedSubagents state.

(** ** Transcript messages *)

Definition nextStep (disposition' : string) : string :=
  if disposition' =s "correct_args" then
    "Explain the failure, correct the arguments once in the next model response, and continue."
  else if disposition' =s "alternative" then
    "Explain the failure and choose a different available capability without replaying this invocation."
  else if disposition' =s "user_action" then
    "Explain the required user action and wait for an authoritative user or provider resolution."
  else if disposition' =s "retry_once" then
    "Do not issue a model-owned replay; Runtime owns the single safe automatic retry."
  else "Explain the failure and continue without retrying or assuming the tool succeeded.".

(** The error fields and the next step of a failed call; without an outcome the
    defaults of the source. *)
Definition errorFields (outcome : option obj) : obj * string :=
  match outcome with
  | Some o =>
      let recovery := outcomeRecovery o in
      let disposition' := textOf recovery "disposition" in
      ([("retryable", VBool (disposition' =s "retry_once"));
        ("model_fixable",
           if truthy (get recovery "requiresNewModelResponse")
           then VBool (str_in disposition' ["correct_args"; "alternative"])
           else get recovery "requiresNewModelResponse");
        ("recovery_disposition", get recovery "disposition");
        ("maximum_additional_calls", get recovery "maximumAdditionalCalls")], nextStep disposition')
  | None =>
      ([("retryable", VBool false); ("model_fixable", VBool false);
        ("recovery_disposition", VStr "never"); ("maximum_additional_calls", VNum (Fin 0))],
       nextStep "never")
  end.

(** The JSON content of a failed or rejected call. *)
Definition failureContent (event : obj) (call : AgentToolCallState) (outcome : option obj) : val :=
  let failure := default [] (recordField event "failure") in
  let message := stringField failure "message" in
  let reason := default "" (or_else (stringField event "reason") message) in
  let kind := default "unknown" (stringField failure "kind") in
  let rejected := ev_type event =s "tool.rejected" in
  if kind =s "phase_deferred" then
    VObj [("ok", VBool false); ("deferred", VBool true); ("reason", VStr "phase_constraint");
          ("until_phase", VStr "building"); ("tool", VStr (tc_name call));
          ("arguments", tc_args call);
          ("next_step", VStr "Do not retry or request approval while planning. Preserve this command in the plan execution or verification section, then invoke it only after plan approval changes the phase to building.")]
  else if kind =s "phase_denied" then
    VObj [("ok", VBool false); ("rejected", VBool true); ("reason", VStr "phase_constraint");
          ("phase", VStr "planning"); ("tool", VStr (tc_name call)); ("arguments", tc_args call);
          ("message", VStr reason);
          ("next_step", VStr "Do not retry or request approval while planning. Use read-only inspection capabilities and preserve the intended implementation in the plan for execution after plan approval.")]
  else
    let '(fields, next) := errorFields outcome in
    VObj ([("ok", VBool false)]
          ++ (if rejected then [("rejected", VBool true)] else [])
          ++ [("error", VObj ([("kind", VStr kind);
                               ("message", VStr (if rejected then reason else default reason message))]
                              ++ fields));
              ("next_step", VStr next)]).

Definition toolMessage (meta : obj) (toolCallId name content : string) (ok : bool) : obj :=
  [("kind", VStr "tool")] ++ meta
  ++ [("toolCallId", VStr toolCallId); ("name", VStr name); ("content", VStr content);
      ("ok", VBool ok)].

Definition outcomeStatus (outcome : option obj) : string :=
  match outcome with Some o => textOf o "status" | None => "" end.

Definition terminalTranscript (state : AgentState) (event : obj) (call : AgentToolCallState)
    (outcome : option obj) : obj :=
  let meta createdAt := transcriptMeta state ("tool-" +:+ tc_toolCallId call) createdAt in
  if ev_type event =s "tool.finished" then
    let result := default [] (recordField event "result") in
    let content := toolExecutionModelContent result in
    toolMessage (meta (stringField event "createdAt")) (tc_toolCallId call)
      (default (tc_name call) (stringField event "name")) content
      (outcomeStatus outcome =s "success")
    ++ [("resultMeta", VObj (resultMeta call result content))]
  else if ev_type event =s "tool.cancelled" then
    toolMessage (meta None) (tc_toolCallId call) (tc_name call)
      (default "" (stringField event "reason")) false
  else
    toolMessage (meta None) (tc_toolCallId call) (tc_name call)
      (default "" (json_stringify (failureContent event call outcome))) false.

(** ** Endings *)

Definition canonicalOutcome (payload : obj) : option obj :=
  if isToolOutcome (get payload "outcome") then isRecord (get payload "outcome") else None.

Definition intentTerminalStatus (event : obj) (outcome : option obj) : option ToolCallStatus :=
  let type := ev_type event in
  if type =s "tool.finished" then
    match outcome with
    | Some o => Some (if textOf o "status" =s "exhausted" then t_exhausted
                      else if textOf o "status" =s "cancelled" then t_cancelled
                      else if textOf o "status" =s "success" then t_succeeded else t_failed)
    | None => None
    end
  else if type =s "tool.failed" then Some t_failed
  else if type =s "tool.rejected" then Some t_rejected
  else if type =s "tool.cancelled" then Some t_cancelled
  else None.

Definition undefinedText {A} (f : A -> string) (o : option A) : string :=
  match o with Some a => f a | None => "undefined" end.

Definition finishedResult (current : AgentToolCallState) (result : obj) (ok : bool) : obj :=
  let exitCode := numberField result "exitCode" in
  [("ok", VBool ok);
   ("summary", VStr ("Command: " +:+ undefinedText id (stringField result "command")
                     +:+ ", exit code: " +:+ undefinedText (pretty (A := Z)) exitCode))]
  ++ match exitCode with Some z => [("exitCode", VNum (Fin z))] | None => [] end
  ++ [("resultMeta", VObj (resultMeta current result (toolExecutionModelContent result)))].

(** The call after its ending. *)
Definition terminalCall (event : obj) (current : AgentToolCallState) (status : ToolCallStatus)
    (outcome : option obj) : AgentToolCallState :=
  let failure := recordField event "failure" in
  let ended := current <| tc_status := status |>
                 <| tc_outcome := or_else outcome (tc_outcome current) |> in
  if ev_type event =s "tool.finished" then
    ended <| tc_result := Some (finishedResult current (default [] (recordField event "result"))
                                  (outcomeStatus outcome =s "success")) |>
  else if ev_type event =s "tool.cancelled" then ended
  else
    let error := or_else (stringField event "reason")
                   (stringField (default [] failure) "message") in
    ended <| tc_error := or_else (opt_nonempty error) (tc_error current) |>
      <| tc_failure := or_else failure (tc_failure current) |>.

(** An interaction waits on this call, in a form the ending clears. *)
Definition clearsInteraction (state : AgentState) (event : obj) (toolCallId : string)
    (current : AgentToolCallState) : bool :=
  let finished := ev_type event =s "tool.finished" in
  let cancelled := ev_type event =s "tool.cancelled" in
  match interactions state with
  | idle | awaiting_provider_action _ _ _ _ _ | awaiting_provider_admission _ _ _ _ _ _ => false
  | awaiting_tool_approval _ t _ =>
      (t =s toolCallId) && ((finished && (tc_name current =s "task")) || cancelled)
  | awaiting_user_input _ t _ => (t =s toolCallId) && (finished || cancelled)
  | awaiting_review _ t _ _ _ _ _ _ => (t =s toolCallId) && cancelled
  | awaiting_auto_review _ t _ _ _ => (t =s toolCallId) && cancelled
  end.

Definition tool_ended (state : AgentState) (event : obj) : AgentState :=
  let outcome := canonicalOutcome event in
  match nonEmptyStringField event "toolCallId", intentTerminalStatus event outcome with
  | Some toolCallId, Some status =>
      match oget toolCallId (calls (tools state)) with
      | None =>
          if ev_type event =s "tool.rejected"
          then withToolMembership state toolCallId false false else state
      | Some current =>
          if endedToolStatus (tc_status current) then state
          else
            let state' :=
              state
                <| tools := (tools state)
                     <| calls := oset toolCallId (terminalCall event current status outcome)
                                   (calls (tools state)) |> |>
                <| transcript := appendToolTranscript state
                                   (terminalTranscript state event current outcome) |>
                <| suspendedSubagents :=
                     clearSuspendedSubagent state toolCallId (tc_name current =s "task") |>
                <| interactions := if clearsInteraction state event toolCallId current then idle
                                   else interactions state |> in
            withToolMembership state' toolCallId false false
      end
  | _, _ => state
  end.

(** ** Queueing and starting *)

Definition PRESENTATIONS : list string := ["exploration"; "standalone"; "hidden"].

Section Host.
Context `{JsHost}.

Definition recoveryModeOf (payload : obj) : ToolRecoveryAttemptMode :=
  if textOf payload "recoveryMode" =s "automatic_retry" then automatic_retry else model_correction.

Definition modeText (mode : ToolRecoveryAttemptMode) : string :=
  match mode with automatic_retry => "automatic_retry" | model_correction => "model_correction" end.

Definition admissionRecoveryOf (admission : RecoveryAdmission) : option string :=
  opt_nonempty match admission with attempt_admitted r => r | attempt_refused r _ => r end.

(** The call a queued event creates. *)
Definition queuedCall (state : AgentState) (payload : obj) (toolCallId name : string)
    (taskId : option string) (fingerprint : string) (admission : RecoveryAdmission)
  : AgentToolCallState :=
  let args := get payload "args" in
  let effect := suppliedEffect payload name args in
  let recoveryOf := admissionRecoveryOf admission in
  {| tc_toolCallId := toolCallId; tc_name := name;
     tc_displayLabel := nonEmptyStringField payload "displayLabel";
     tc_modelMessageId := textOf payload "modelMessageId"; tc_args := args;
     tc_modelInvocationId := nonEmptyStringField payload "modelInvocationId";
     tc_ordinal := numberField payload "ordinal";
     tc_createdAtTurnId := turnId (turn state); tc_taskId := opt_nonempty taskId;
     tc_queuedAt := nonEmptyStringField payload "createdAt"; tc_startedAt := None;
     tc_approvalRequestedAt := None; tc_approvalWaitMs := None;
     tc_invocationFingerprint := Some fingerprint; tc_recoveryOf := recoveryOf;
     tc_recoveryMode := match recoveryOf with
                        | Some _ => Some (modeText (recoveryModeOf payload)) | None => None end;
     tc_recoveryAdmission := Some match admission with
                                  | attempt_admitted _ => "admitted"
                                  | attempt_refused _ detailCode => detailCode
                                  end;
     tc_result := None; tc_error := None; tc_failure := None; tc_outcome := None;
     tc_bindingId := nonEmptyStringField payload "bindingId";
     tc_capabilityId := nonEmptyStringField payload "capabilityId";
     tc_capabilityRevision := nonEmptyStringField payload "capabilityRevision";
     tc_unknownFields := unknownToolFields (get payload "unknownFields");
     tc_approvalHash := None; tc_approvalGrant := None;
     tc_effectClass := Some (ef_effectClass effect); tc_sideEffect := Some (ef_sideEffect effect);
     tc_classificationReason := ef_classificationReason effect;
     tc_presentation := match stringField payload "presentation" with
                        | Some p => if str_in p PRESENTATIONS then Some p else None
                        | None => None
                        end;
     tc_networkDecisions := None; tc_status := t_queued |}.

Definition attemptFor (state : AgentState) (payload : obj) (toolCallId name : string)
    (taskId : option string) (fingerprint : string) : AttemptInput :=
  {| at_toolCallId := toolCallId; at_toolName := name; at_invocationFingerprint := fingerprint;
     at_modelMessageId := textOf payload "modelMessageId"; at_mode := recoveryModeOf payload;
     at_taskId := taskId; at_turnId := Some (turnId (turn state)) |}.

Definition tool_queued (state : AgentState) (payload : obj) : res AgentState :=
  match nonEmptyStringField payload "toolCallId", nonEmptyStringField payload "name" with
  | Some toolCallId, Some name =>
      if ohas toolCallId (calls (tools state)) then Ok state
      else
        let taskId := or_else (nonEmptyStringField payload "taskId") (activeTaskId state) in
        let* fingerprint :=
          match stringField payload "invocationFingerprint" with
          | Some fingerprint => Ok fingerprint
          | None => toolInvocationFingerprint
                      {| fi_toolName := name; fi_parsedArgs := get payload "args";
                         fi_parseCode := None; fi_pathCategory := None; fi_unparsedArgs := VUndef;
                         fi_identityRevision := None |}
          end in
        let admission := admitRecoveryAttempt (toolRecovery state)
                           (attemptFor state payload toolCallId name taskId fingerprint) in
        let call := queuedCall state payload toolCallId name taskId fingerprint admission in
        let journal :=
          match admission, admissionRecoveryOf admission with
          | attempt_admitted _, Some recoveryOf =>
              recordRecoveryInvocation (toolRecovery state) recoveryOf (recoveryModeOf payload)
          | _, _ => toolRecovery state
          end in
        Ok (withToolMembership
              (state <| toolRecovery := journal |>
                 <| tools := (tools state)
                      <| calls := oset toolCallId call (calls (tools state)) |> |>)
              toolCallId false true)
  | _, _ => Ok state
  end.

(** The named call when it exists and has not ended. *)
Definition openCall (state : AgentState) (payload : obj) : option (string * AgentToolCallState) :=
  match nonEmptyStringField payload "toolCallId" with
  | Some toolCallId =>
      match oget toolCallId (calls (tools state)) with
      | Some current => if endedToolStatus (tc_status current) then None
                        else Some (toolCallId, current)
      | None => None
      end
  | None => None
  end.

Definition putCall (state : AgentState) (toolCallId : string) (call : AgentToolCallState)
  : AgentState :=
  updateToolCall state toolCallId (option_map (fun _ => call)).

Definition tool_call_started (state : AgentState) (payload : obj) : AgentState :=
  match openCall state payload with
  | Some (toolCallId, current) =>
      withToolMembership
        (putCall state toolCallId
           (current <| tc_status := t_running |>
              <| tc_startedAt := or_else (nonEmptyStringField payload "createdAt")
                                   (tc_startedAt current) |>))
        toolCallId true false
  | None => state
  end.

Definition tool_retry_recorded (state : AgentState) (payload : obj) : AgentState :=
  match openCall state payload, nonEmptyStringField payload "recoveryOf" with
  | Some (toolCallId, current), Some recoveryOf =>
      putCall state toolCallId (current <| tc_recoveryOf := Some recoveryOf |>
                                  <| tc_recoveryMode := Some "automatic_retry" |>)
  | _, _ => state
  end.

Definition network_admission_decided (state : AgentState) (payload : obj) : AgentState :=
  match nonEmptyStringField payload "toolCallId", recordField payload "decision" with
  | Some toolCallId, Some decision =>
      match oget toolCallId (calls (tools state)) with
      | Some current =>
          if opt_str_eqb (nonEmptyStringField decision "toolCallId") (Some toolCallId) then
            let prior := default [] (tc_networkDecisions current) in
            let known := match nonEmptyStringField decision "receiptDigest" with
                         | Some digest => existsb (fun entry =>
                             opt_str_eqb (stringField entry "receiptDigest") (Some digest)) prior
                         | None => false
                         end in
            if known then state
            else putCall state toolCallId
                   (current <| tc_networkDecisions := Some (prior ++ [decision]) |>)
          else state
      | None => state
      end
  | _, _ => state
  end.

(** Intent and tool lifecycle facts are reduced only by this fixed reducer. *)
Definition reduceIntentState (state : AgentState) (event : obj) : res AgentState :=
  let isType t := ev_type event =s t in
  if isType "tool.queued" then tool_queued state event
  else if isType "tool.started" then Ok (tool_call_started state event)
  else if isType "tool.finished" || isType "tool.failed" || isType "tool.rejected"
          || isType "tool.cancelled"
  then Ok (tool_ended state event)
  else if isType "tool.retry_recorded" then Ok (tool_retry_recorded state event)
  else if isType "network.admission_decided" then Ok (network_admission_decided state event)
  else Ok state.
End Host.
