(* ===== verification/CompletionProps.v ===== *)
(** * Lemmas on the completion guard

    Validated JSON is canonical, so the comparison of evidence texts is equality
    of evidence; inversion of the guard's verdicts. *)

From S2P Require Import Prelude Js State Scheduler GrantKey Json Recovery Completion CompletionReducer.
From stdpp Require Import prelude strings list.
From Stdlib Require Import ZArith Lia Permutation Sorted.
Open Scope Z_scope.

(** ** Sorting *)

Lemma insert_by_perm {A} (le : A -> A -> bool) x l : Permutation (x :: l) (insert_by le x l).
Proof.
  induction l as [|y l IH]; simpl; [done|]. destruct (le x y); [done|].
  etransitivity; [apply perm_swap|]. by constructor.
Qed.

Lemma sort_by_perm {A} (le : A -> A -> bool) l : Permutation l (sort_by le l).
Proof.
  induction l as [|x l IH]; simpl; [done|].
  etransitivity; [by apply perm_skip, IH|apply insert_by_perm].
Qed.

Lemma insert_by_sorted {A} (le : A -> A -> bool) x l :
  (forall a b, le a b = true \/ le b a = true) ->
  (forall a b c, le a b = true -> le b c = true -> le a c = true) ->
  StronglySorted (fun a b => le a b = true) l ->
  StronglySorted (fun a b => le a b = true) (insert_by le x l).
Proof.
  intros Htot Htr. induction 1 as [|y l Hs IH Hy]; cbn; [by repeat constructor|].
  destruct (le x y) eqn:E.
  - constructor; [by constructor|]. constructor; [done|].
    eapply Forall_impl; [exact Hy|]. cbn. intros z Hz. by eapply Htr.
  - constructor; [done|]. apply Forall_forall. intros z Hz%list_elem_of_In.
    apply (Permutation_in z (Permutation_sym (insert_by_perm le x l))) in Hz.
    destruct Hz as [<-|Hz]; [by destruct (Htot x y); [congruence|]|].
    rewrite Forall_forall in Hy. by apply Hy, list_elem_of_In.
Qed.

Lemma sort_by_sorted {A} (le : A -> A -> bool) l :
  (forall a b, le a b = true \/ le b a = true) ->
  (forall a b c, le a b = true -> le b c = true -> le a c = true) ->
  StronglySorted (fun a b => le a b = true) (sort_by le l).
Proof.
  intros. induction l as [|x l IH]; cbn; [constructor|]. by apply insert_by_sorted.
Qed.

Lemma In_sort_by {A} (le : A -> A -> bool) l x : In x (sort_by le l) <-> In x l.
Proof. split; apply Permutation_in; [symmetry|]; apply sort_by_perm. Qed.

Lemma sort_by_nil {A} (le : A -> A -> bool) l : sort_by le l = [] -> l = [].
Proof. intros E. apply Permutation_nil. rewrite <- E. symmetry. apply sort_by_perm. Qed.

(** ** Canonical values *)

Lemma isText_canonical v p : isText v p = true -> isCanonicalJsonValue v = true.
Proof. by destruct v. Qed.

Lemma is_str_canonical v s : is_str v s = true -> isCanonicalJsonValue v = true.
Proof. by destruct v. Qed.

Lemma is_num_canonical v z : is_num v z = true -> isCanonicalJsonValue v = true.
Proof. by destruct v as [| | |[]| | |]. Qed.

Lemma isArrayOf_canonical v test : isArrayOf v test = true ->
  (forall o, test o = true -> isCanonicalJsonValue (VObj o) = true) ->
  isCanonicalJsonValue v = true.
Proof.
  destruct v as [| | | | |l|]; try done. simpl. rewrite !forallb_forall. intros Hl Ho w Hw.
  specialize (Hl w Hw). destruct w; try done. by apply Ho.
Qed.

(** An object with exactly the keys it was checked to have is canonical when
    the fields read are. *)
Lemma exact_keys_canonical (o : obj) keys : NoDup keys -> hasExactKeys o keys = true ->
  (forall k, In k keys -> isCanonicalJsonValue (get o k) = true) ->
  isCanonicalJsonValue (VObj o) = true.
Proof.
  intros Hnd [Hlen Honly]%andb_true_iff Hc. apply Nat.eqb_eq in Hlen.
  assert (Hno : NoDup (okeys o)).
  { apply NoDup_ListNoDup. eapply NoDup_incl_NoDup; [by apply NoDup_ListNoDup|lia|].
    intros k Hk. specialize (Hc k Hk). unfold get in Hc.
    destruct (oget k o) as [v|] eqn:E; [|done].
    apply in_map_iff. exists (k, v). split; [done|]. by apply oget_In. }
  apply canonical_object, Forall_forall. intros [k v] Hin%list_elem_of_In. simpl.
  unfold hasOnlyKeys in Honly. rewrite forallb_forall in Honly.
  assert (In k keys) as Hk.
  { apply str_in_true, Honly, in_map_iff. by exists (k, v). }
  specialize (Hc k Hk). unfold get in Hc. by rewrite (In_oget _ _ _ Hno Hin) in Hc.
Qed.

Ltac canon_field :=
  first [ eapply isText_canonical; eassumption | eapply is_str_canonical; eassumption
        | eapply is_num_canonical; eassumption ].

(** An object checked for two keys and two fields. *)
Lemma pair_canonical (o : obj) k1 k2 : k1 <> k2 -> hasExactKeys o [k1; k2] = true ->
  isCanonicalJsonValue (get o k1) = true -> isCanonicalJsonValue (get o k2) = true ->
  isCanonicalJsonValue (VObj o) = true.
Proof.
  intros Hne He H1 H2. eapply exact_keys_canonical; [|exact He|].
  - apply NoDup_cons. split; [by rewrite list_elem_of_singleton|apply NoDup_singleton].
  - by intros k [<-|[<-|[]]].
Qed.

Lemma evidence_canonical v : isPlanCompletionEvidence v = true -> isCanonicalJsonValue v = true.
Proof.
  unfold isPlanCompletionEvidence. destruct (isRecord v) as [o|] eqn:Ev; [|done].
  destruct v; try done. injection Ev as ->.
  intros [[[[[He Hs]%andb_true_iff Hv]%andb_true_iff Hx]%andb_true_iff Hk]%andb_true_iff
    Hu]%andb_true_iff.
  eapply exact_keys_canonical; [|exact He|].
  { apply (bool_decide_unpack (NoDup _)). vm_compute. reflexivity. }
  intros k [<-|[<-|[<-|[<-|[<-|[]]]]]]; [canon_field|..];
    (eapply isArrayOf_canonical; [eassumption|]); intros e [[Hek H1]%andb_true_iff H2]%andb_true_iff;
    (eapply pair_canonical; [|exact Hek| |]; [done|canon_field..]).
Qed.

Lemma objects_canonical (l : list obj) :
  (forall o, In o l -> isCanonicalJsonValue (VObj o) = true) ->
  isCanonicalJsonValue (VArr (List.map VObj l)) = true.
Proof.
  intros Hl. apply canonical_array, Forall_forall. intros v (o & <- & Ho)%list_elem_of_In%in_map_iff.
  auto.
Qed.

(** ** Evidence *)

(** The entries of a validated array are its objects. *)
Lemma entries_of (l : list obj) o f : get o f = VArr (List.map VObj l) -> entries o f = l.
Proof.
  intros E. unfold entries, arrayField. rewrite E. simpl. rewrite map_map. apply map_id.
Qed.

(** A text or nothing. *)
Definition text_or_none (v : val) : Prop := v = VUndef \/ exists s, v = VStr s.

Lemma skippedReasons_text l k :
  Forall (fun entry => exists s, get entry "reasonCode" = VStr s) l ->
  text_or_none (get (skippedReasons l) k).
Proof.
  intros Hl. unfold skippedReasons.
  assert (Hinv : forall m : obj, (forall k, text_or_none (get m k)) ->
    forall k, text_or_none (get (List.fold_left (fun m entry =>
      oset (textOf entry "stepId") (get entry "reasonCode") m) l m) k)).
  { induction Hl as [|e l [s Hs] Hl IH]; intros m Hm; simpl; [done|].
    apply IH. intros k'. destruct (decide (k' = textOf e "stepId")) as [->|Hne].
    - rewrite get_oset_eq. right. eauto.
    - by rewrite get_oset_ne. }
  apply Hinv. by left.
Qed.

Lemma evidence_reasons v : isPlanCompletionEvidence v = true ->
  Forall (fun entry => exists s, get entry "reasonCode" = VStr s) (entries (jsonRecord v) "skipped").
Proof.
  unfold isPlanCompletionEvidence. destruct (isRecord v) as [o|] eqn:Ev; [|done].
  destruct v; try done. injection Ev as ->.
  intros [[_ Hk]%andb_true_iff _]%andb_true_iff. simpl. unfold entries, arrayField.
  destruct (get o "skipped") as [| | | | |l|]; try done. simpl in Hk |- *.
  rewrite forallb_forall in Hk. apply Forall_forall.
  intros e (w & <- & Hw)%list_elem_of_In%in_map_iff. specialize (Hk w Hw).
  destruct w; try done. apply andb_true_iff in Hk as [_ Hk]. simpl.
  destruct (get _ "reasonCode"); try done. eauto.
Qed.

Section Host.
Context `{JsHost}.

Lemma In_sortByText key l e : In e (sortByText key l) <-> In e l.
Proof. apply In_sort_by. Qed.

Lemma verificationEvidence_canonical state o :
  In o (verificationEvidence state) -> isCanonicalJsonValue (VObj o) = true.
Proof.
  unfold verificationEvidence. rewrite In_sortByText, in_map_iff.
  intros (r & <- & [_ [_ Hr]%andb_true_iff]%filter_In). cbn. rewrite andb_true_r.
  unfold passedOrWaived in Hr. by destruct (get r "status").
Qed.

Lemma executionEvidence_canonical state o :
  In o (executionEvidence state) -> isCanonicalJsonValue (VObj o) = true.
Proof. unfold executionEvidence. rewrite In_sortByText, in_map_iff. by intros (c & <- & _). Qed.

Lemma unresolvedEvidence_canonical state o :
  In o (unresolvedEvidence state) -> isCanonicalJsonValue (VObj o) = true.
Proof.
  unfold unresolvedEvidence. rewrite In_sortByText, in_flat_map.
  intros (c & _ & Ho). unfold unresolvedEntries in Ho.
  apply in_app_iff in Ho as [Ho|Ho]; case_match; try done; by destruct Ho as [<-|[]].
Qed.

(** The reasons of the plan being executed are texts. *)
Definition prior_texts (state : AgentState) : Prop :=
  forall k, text_or_none (get (priorSkipped state) k).

Lemma prior_texts_nil state : priorSkipped state = [] -> prior_texts state.
Proof. intros E k. rewrite E. by left. Qed.

Lemma skippedEvidence_canonical state steps reasons o : prior_texts state ->
  (forall k, text_or_none (get reasons k)) ->
  In o (skippedEvidence state steps reasons) -> isCanonicalJsonValue (VObj o) = true.
Proof.
  intros Hp Hr. unfold skippedEvidence. rewrite In_sortByText, in_map_iff.
  intros (s & <- & _). cbn. rewrite andb_true_r.
  destruct (Hr (textOf s "id")) as [->|[? ->]]; [|done]. cbn.
  by destruct (Hp (textOf s "id")) as [->|[? ->]].
Qed.

Lemma projection_canonical state steps reasons : prior_texts state ->
  (forall k, text_or_none (get reasons k)) ->
  isCanonicalJsonValue (VObj (projectPlanCompletionEvidence state steps reasons)) = true.
Proof.
  intros Hp Hr. apply canonical_object. unfold projectPlanCompletionEvidence.
  repeat (apply Forall_cons; split); try done; cbn [snd]; apply objects_canonical.
  - apply verificationEvidence_canonical.
  - apply executionEvidence_canonical.
  - intros o. by apply skippedEvidence_canonical.
  - apply unresolvedEvidence_canonical.
Qed.

(** Evidence that matches by its text is the projection itself. *)
Lemma matching_evidence state steps evidence : prior_texts state ->
  planCompletionEvidenceMatchesRuntime state steps evidence = true ->
  evidence = VObj (projectPlanCompletionEvidence state steps
                     (skippedReasons (entries (jsonRecord evidence) "skipped"))).
Proof.
  intros Hp [He Heq%opt_str_eqb_true]%andb_true_iff. symmetry.
  apply json_stringify_inj; [|by apply evidence_canonical|done].
  apply projection_canonical; [done|]. intros k. by apply skippedReasons_text, evidence_reasons.
Qed.

(** ** Verdicts *)

Lemma commonBlock_none state : commonBlock state = None <->
  interactions state = idle /\ hasCurrentNonTerminalTool state = false
  /\ hasCurrentSuspendedSubagent state = false /\ hasUnknownInvocation state = false
  /\ activeSkillFramesForCurrentWork state = false.
Proof.
  unfold commonBlock. split.
  - by destruct (interactions state); repeat case_match.
  - by intros (-> & -> & -> & -> & ->).
Qed.

Lemma planCompletionBlocker_none state evidence : planCompletionBlocker state evidence = None ->
  interactions state = idle /\ relevantPendingCalls state = []
  /\ existsb (fun record => sameTask state record && requiredUnsettled record)
       (ovalues (verification state)) = false
  /\ existsb (fun entry => negb (SAFE_REASON_CODE (js_string (get entry "reasonCode"))))
       (entries evidence "skipped") = false
  /\ entries evidence "unresolved" = []
  /\ (sideEffectsStarted state = true -> entries evidence "execution" <> [])
  /\ existsb (fun call => negb (is_succeeded call) || negb (resultOk call)
                          || negb (listedExecution evidence call)) (relevantEffectCalls state) = false.
Proof.
  unfold planCompletionBlocker.
  do 5 (match goal with |- (if ?c then _ else _) = None -> _ =>
          let E := fresh "E" in destruct c eqn:E; [done|] end). intros _.
  apply orb_false_iff in E as [E E'], E3 as [E3 E3'].
  repeat split; try done.
  - by destruct (interactions state).
  - by destruct (relevantPendingCalls state).
  - by destruct (entries evidence "unresolved").
  - intros Hs. rewrite Hs in E3. by destruct (entries evidence "execution").
Qed.

Lemma plannedEvidenceBlocker_none state document : plannedEvidenceBlocker state document = None ->
  let value := get document "completionEvidence" in
  existsb (verificationUnproved state (jsonRecord value)) (ovalues (verification state)) = false
  /\ planCompletionBlocker state (jsonRecord value) = None
  /\ planCompletionEvidenceMatchesRuntime state (stepsOf document) value = true.
Proof.
  unfold plannedEvidenceBlocker. simpl.
  destruct (existsb _ _); [done|]. destruct (planCompletionBlocker _ _) as [[]|]; simpl; try done;
    destruct (planCompletionEvidenceMatchesRuntime _ _ _); done.
Qed.

(** What the planned guard accepts. *)
Lemma planned_accepts state identity' :
  decidePlannedCompletion state = Ok (guard_accepted identity') ->
  exists document turn', activePlanning state = plan_completed document turn'
    /\ identity' = Some (documentIdentity document) /\ commonBlock state = None
    /\ recoveryUnresolved state = false /\ isPlanDocument document = true
    /\ plannedEvidenceBlocker state document = None.
Proof.
  unfold decidePlannedCompletion. destruct (planningDocument _) as [d|] eqn:Ed; [|done].
  unfold plannedBlock. destruct (commonBlock state) as [[c n]|].
  { intros Hb. by apply bind_ok in Hb as (? & _ & ?). }
  destruct (recoveryUnresolved state || _) eqn:E.
  { intros Hb. by apply bind_ok in Hb as (? & _ & ?). }
  apply orb_false_iff in E as [Er Ev%negb_false_iff].
  destruct (lifecycleBlock _ _ _) as [[c n]|] eqn:El.
  { intros Hb. by apply bind_ok in Hb as (? & _ & ?). }
  intros [= <-]. unfold lifecycleBlock in El.
  destruct (activePlanning state) as [| | | | | |d' t|]; try done; simpl in Ed.
  - by case_match.
  - simplify_eq. eauto 10.
Qed.
End Host.
