(* ===== verification/SchedulerProps.v ===== *)
(** * Properties of the scheduler

    What a dispatched batch may contain, when a final answer is emitted, which
    states dispatch nothing, and that a decision is always reached. *)

From S2P Require Import Prelude Js State Sample Recovery Traits Scheduler.
From stdpp Require Import prelude strings list.
From Stdlib Require Import ZArith Lia.
Open Scope Z_scope.

(** ** Runnable calls *)

Lemma firstOccurrences_spec l seen :
  NoDup (firstOccurrences seen l)
  /\ forall x, In x (firstOccurrences seen l) <-> In x l /\ ~ In x seen.
Proof.
  revert seen. induction l as [|y l IH]; intros seen; simpl.
  { split; [constructor|]. intros x; tauto. }
  destruct (str_in y seen) eqn:E.
  - apply str_in_true in E. destruct (IH seen) as [Hn Hx]. split; [done|].
    intros x. rewrite Hx. split; [tauto|]. intros [[<-|Hl] Hs]; tauto.
  - assert (~ In y seen) as Hy by (rewrite <- str_in_true, E; done).
    destruct (IH (y :: seen)) as [Hn Hx]. split.
    + constructor; [|done]. rewrite list_elem_of_In, Hx. simpl. tauto.
    + intros x. simpl. rewrite Hx. simpl. destruct (decide (x = y)) as [->|]; [tauto|].
      split; intuition congruence.
Qed.

Lemma runnable_NoDup state : NoDup (runnableToolIds state).
Proof. apply NoDup_ListNoDup, List.NoDup_filter, NoDup_ListNoDup, firstOccurrences_spec. Qed.

Lemma In_runnable state id :
  In id (runnableToolIds state) <->
  In id (queue (tools state) ++ active (tools state)) /\ runnable state id = true.
Proof.
  unfold runnableToolIds. rewrite filter_In.
  destruct (firstOccurrences_spec (queue (tools state) ++ active (tools state)) []) as [_ ->].
  simpl. tauto.
Qed.

Lemma In_authorized state id :
  In id (authorizedQueuedToolIds state) <->
  In id (runnableToolIds state) /\ authorizedQueued state id = true.
Proof. apply filter_In. Qed.

Lemma authorized_NoDup state : NoDup (authorizedQueuedToolIds state).
Proof. apply NoDup_ListNoDup, List.NoDup_filter, NoDup_ListNoDup, runnable_NoDup. Qed.

(** ** Gathering *)

Lemma FOP_snoc {A} (R : relation A) l x :
  ForallOrdPairs R l -> (forall a, In a l -> R a x) -> ForallOrdPairs R (l ++ [x]).
Proof.
  induction 1 as [|a l Ha Hl IH]; intros Hx; simpl; [repeat constructor|].
  constructor; [|apply IH; intros b Hb; apply Hx; by right].
  apply Forall_app. split; [done|]. constructor; [|done]. apply Hx. by left.
Qed.

(** The gathered candidates: the ones given, then admitted ones of [ids]. *)
Lemma gather_spec accept first ceiling ids cands :
  NoDup (List.map effectId cands) -> NoDup ids ->
  Forall (fun e => effectId e = first \/ effectId e ∉ ids) cands ->
  exists taken, gather accept first ceiling cands ids = cands ++ taken
    /\ NoDup (List.map effectId (cands ++ taken))
    /\ Forall (fun e => In (effectId e) ids /\ accept (effectId e) = Some (traits e)) taken.
Proof.
  revert cands. induction ids as [|id ids IH]; intros cands Hn Hi Hc; simpl.
  { exists []. rewrite app_nil_r. by split_and!. }
  apply NoDup_cons in Hi as [Hid Hi].
  assert (Forall (fun e => effectId e = first \/ effectId e ∉ ids) cands) as Hc'.
  { eapply Forall_impl; [exact Hc|]. intros e [?|He]; [by left|right]. by apply not_elem_of_cons in He as [_ ?]. }
  assert (forall r, (exists taken, r = cands ++ taken /\ NoDup (List.map effectId (cands ++ taken))
    /\ Forall (fun e => In (effectId e) ids /\ accept (effectId e) = Some (traits e)) taken) ->
    exists taken, r = cands ++ taken /\ NoDup (List.map effectId (cands ++ taken))
    /\ Forall (fun e => In (effectId e) (id :: ids) /\ accept (effectId e) = Some (traits e)) taken)
    as Hmono.
  { intros r (taken & -> & Hnd & Hfa). exists taken. split_and!; [done..|].
    eapply Forall_impl; [exact Hfa|]. intros e [? ?]. split; [by right|done]. }
  assert (exists taken, cands = cands ++ taken /\ NoDup (List.map effectId (cands ++ taken))
    /\ Forall (fun e => In (effectId e) ids /\ accept (effectId e) = Some (traits e)) taken)
    as Hstop.
  { exists []. rewrite app_nil_r. by split_and!. }
  destruct ((id =s first) || _) eqn:E1; [by apply Hmono, IH|].
  apply orb_false_iff in E1 as [E1 _]. apply eqb_false in E1.
  destruct (accept id) as [t|] eqn:Ea; [|by apply Hmono].
  destruct (forallb _ cands) eqn:E2; [|by apply Hmono].
  destruct (IH (cands ++ [{| effectId := id; traits := t |}])) as (taken & -> & Hnd & Hfa).
  - rewrite List.map_app. simpl. apply NoDup_app. split_and!; [done| |apply NoDup_singleton].
    intros x Hx%list_elem_of_In ->%list_elem_of_singleton.
    apply in_map_iff in Hx as (e & He & Hin). rewrite Forall_forall in Hc.
    destruct (Hc e) as [?|Hne]; [by apply list_elem_of_In|congruence|].
    apply Hne. rewrite He. by left.
  - done.
  - apply Forall_app. split; [done|]. apply Forall_singleton. by right.
  - exists ({| effectId := id; traits := t |} :: taken).
    rewrite <- app_assoc in *. split_and!; [done..|].
    constructor; [split; [by left|done]|].
    eapply Forall_impl; [exact Hfa|]. intros e [? ?]. split; [by right|done].
Qed.

(** ** Batches *)

(** [e] carries the traits the facts project for its call. *)
Definition projected (state : AgentState) (facts : option obj) (e : SchedulableEffect) : Prop :=
  exists call, oget (effectId e) (calls (tools state)) = Some call
    /\ schedulerTraits call facts = Some (traits e).

Definition approvalFreeCall (state : AgentState) (group : string) (facts : option obj)
    (id : string) : Prop :=
  exists call, oget id (calls (tools state)) = Some call /\ approvalFree call group facts = true.

(** A batch of two or more led by [first]. *)
Record batch_of (state : AgentState) (facts : option obj) (first : string)
    (pool : list string) (ceiling : Z) (P : SchedulableEffect -> Prop)
    (effs : list SchedulableEffect) : Prop := {
  bo_head : exists rest, List.map effectId effs = first :: rest;
  bo_pool : Forall (fun e => In (effectId e) pool) effs;
  bo_NoDup : NoDup (List.map effectId effs);
  bo_projected : Forall (projected state facts) effs;
  bo_each : Forall P effs;
  bo_pairs : ForallOrdPairs compatible effs;
  bo_bound : Z.of_nat (length effs) <= ceiling }.

Lemma selected_batch state facts first t accept pool ceiling (P : SchedulableEffect -> Prop) ids :
  NoDup pool -> In first pool ->
  projected state facts {| effectId := first; traits := t |} ->
  P {| effectId := first; traits := t |} ->
  (forall e, accept (effectId e) = Some (traits e) -> projected state facts e /\ P e) ->
  selectSchedulableEffectBatch
    (gather accept first ceiling [{| effectId := first; traits := t |}] pool) ceiling = Ok ids ->
  exists effs, ids = List.map effectId effs /\ batch_of state facts first pool ceiling P effs.
Proof.
  intros Hnd Hin Hpr HP Hadm (taken & rest & Hg & -> & Hl & Hne & Hp & _)%selectBatch_prefix.
  destruct (gather_spec accept first ceiling pool [{| effectId := first; traits := t |}])
    as (more & Hm & Hn & Hf); [apply NoDup_singleton|done|by apply Forall_singleton; left|].
  rewrite Hm in Hg. exists taken. split; [done|].
  destruct taken as [|e taken]; [by destruct Hne; [rewrite Hm|]|].
  injection Hg as <- Hg. subst more.
  assert (NoDup (first :: List.map effectId taken)) as Hn'.
  { simpl in Hn. rewrite List.map_app, app_comm_cons in Hn. by apply NoDup_app in Hn as (? & _). }
  apply Forall_app in Hf as [Hf _].
  split; try done; [by eexists|..]; constructor; try done;
    eapply Forall_impl; try exact Hf; intros e [? ?]; try done; by apply Hadm.
Qed.

Lemma parallelBatch_spec state first group ceiling facts ids :
  In first (runnableToolIds state) ->
  parallelBatch state first group ceiling facts = Ok ids ->
  ids = [first] \/ exists effs, ids = List.map effectId effs
    /\ batch_of state facts first (runnableToolIds state) ceiling
         (fun e => approvalFreeCall state group facts (effectId e)) effs.
Proof.
  intros Hin. unfold parallelBatch.
  destruct (oget first _) as [call|] eqn:Ec; [|intros [= <-]; by left].
  destruct (schedulerTraits call facts) as [t|] eqn:Et; [|intros [= <-]; by left].
  destruct (approvalFree call group facts) eqn:Ea; [|intros [= <-]; by left].
  intros Hs. right. eapply selected_batch in Hs; [exact Hs|apply runnable_NoDup|done|..].
  - by exists call.
  - by exists call.
  - intros e. simpl. destruct (oget (effectId e) _) as [c|] eqn:E1; [|done].
    destruct (approvalFree c group facts) eqn:E2; [|done]. intros E3.
    split; by exists c.
Qed.

Lemma authorizedBatch_spec state first facts ids :
  In first (authorizedQueuedToolIds state) ->
  authorizedBatch state first facts = Ok ids ->
  ids = [first] \/ exists effs, ids = List.map effectId effs
    /\ batch_of state facts first (authorizedQueuedToolIds state)
         (Z.of_nat (length (authorizedQueuedToolIds state)))
         (fun e => sharedRead (traits e) = true) effs.
Proof.
  intros Hin. unfold authorizedBatch.
  destruct (oget first _) as [call|] eqn:Ec; [|intros [= <-]; by left].
  destruct (schedulerTraits call facts) as [t|] eqn:Et; [|intros [= <-]; by left].
  destruct (sharedRead t) eqn:Ea; [|intros [= <-]; by left].
  set (n := Z.of_nat (length (authorizedQueuedToolIds state))).
  assert (1 <= n) by (unfold n; destruct (authorizedQueuedToolIds state); simpl in *; [done|lia]).
  rewrite Z.max_r by done. destruct (n =? 1); [intros [= <-]; by left|].
  intros Hs. right. eapply selected_batch in Hs; [exact Hs|apply authorized_NoDup|done|..].
  - by exists call.
  - done.
  - intros e. simpl. destruct (oget (effectId e) _) as [c|] eqn:E1; [|done].
    destruct (schedulerTraits c facts) as [t'|] eqn:E2; [|done].
    destruct (sharedRead t') eqn:E3; [|done]. intros [= E4]. subst t'.
    split; [by exists c|done].
Qed.

(** ** The stages *)

Definition factsRecord (facts : option val) : option obj :=
  match facts with Some (VObj f) => Some f | _ => None end.

Section Stages.
Context {port : CompletionPort} {host : JsHost}.
Implicit Types (state : AgentState) (e : RuntimeEffect) (r : res RuntimeEffect).

(** Effects that run tools or end the turn. *)
Definition dispatches e : bool :=
  match e with run_tools _ | emit_final => true | _ => false end.

(** A stage that only requests, blocks or stops. *)
Definition quiet (stage : option (res RuntimeEffect)) : Prop :=
  forall r, stage = Some r -> exists e, r = Ok e /\ dispatches e = false.

Ltac quiet_stage :=
  intros r; repeat case_match; intros; simplify_eq; eauto.

Lemma blockStage_quiet state facts : quiet (blockStage state facts).
Proof. unfold blockStage, blocked, effect. quiet_stage. Qed.

Lemma ownershipStage_quiet state : quiet (ownershipStage state).
Proof. unfold ownershipStage, blocked, effect. quiet_stage. Qed.

Lemma interactionStage_quiet state : quiet (interactionStage state).
Proof. unfold interactionStage, blocked, effect. quiet_stage. Qed.

Lemma strandedStage_quiet state : quiet (strandedStage state).
Proof. unfold strandedStage, blocked, effect. quiet_stage. Qed.

Lemma verificationStage_quiet state : quiet (verificationStage state).
Proof. unfold verificationStage, blocked, effect. quiet_stage. Qed.

Lemma verificationDecisionStage_quiet state : quiet (verificationDecisionStage state).
Proof. unfold verificationDecisionStage, blocked, effect. quiet_stage. Qed.

Lemma contextStage_quiet state : quiet (contextStage state).
Proof. unfold contextStage, blocked, effect. quiet_stage. Qed.

Lemma rejectionStage_quiet state : quiet (rejectionStage state).
Proof. unfold rejectionStage, blocked, effect. quiet_stage. Qed.

Lemma interactionStage_idle state : interactionStage state = None <-> interactions state = idle.
Proof.
  unfold interactionStage, effect, blocked.
  split; [|by intros ->]. destruct (interactions state); repeat case_match; done.
Qed.

(** Which stage produced a dispatch. *)
Inductive dispatched_by state (facts : option obj) r : Prop :=
| by_authorized : authorizedStage state facts = Some r -> dispatched_by state facts r
| by_suspended :
    authorizedStage state facts = None -> interactions state = idle ->
    strandedStage state = None -> suspendedStage state = Some r -> dispatched_by state facts r
| by_tools :
    authorizedStage state facts = None -> interactions state = idle ->
    strandedStage state = None -> suspendedStage state = None ->
    toolStage state facts = Some r -> dispatched_by state facts r
| by_completion :
    authorizedStage state facts = None -> interactions state = idle ->
    strandedStage state = None -> suspendedStage state = None -> toolStage state facts = None ->
    verificationStage state = None -> verificationDecisionStage state = None ->
    completionStage state = Some r -> dispatched_by state facts r.

Lemma dispatch_cases state facts e :
  decideNextEffect state facts = Ok e -> dispatches e = true ->
  blockStage state facts = None /\ ownershipStage state = None
  /\ dispatched_by state (factsRecord facts) (Ok e).
Proof.
  unfold decideNextEffect. intros Hd He.
  assert (forall stage, quiet stage -> stage = Some (Ok e) -> False) as Hq.
  { intros stage Hs Hr. destruct (Hs _ Hr) as (e' & [= <-] & Hn). congruence. }
  destruct (blockStage state facts) eqn:E1; simpl in Hd;
    [subst; by exfalso; eapply Hq; [apply blockStage_quiet|]|].
  destruct (ownershipStage state) eqn:E2; simpl in Hd;
    [subst; by exfalso; eapply Hq; [apply ownershipStage_quiet|]|].
  split; [done|]. split; [done|].
  destruct (authorizedStage state _) eqn:E3; simpl in Hd; [subst; by apply by_authorized|].
  destruct (interactionStage state) eqn:E4; simpl in Hd;
    [subst; by exfalso; eapply Hq; [apply interactionStage_quiet|]|].
  apply interactionStage_idle in E4.
  destruct (strandedStage state) eqn:E5; simpl in Hd;
    [subst; by exfalso; eapply Hq; [apply strandedStage_quiet|]|].
  destruct (suspendedStage state) eqn:E6; simpl in Hd; [subst; by apply by_suspended|].
  destruct (toolStage state _) eqn:E7; simpl in Hd; [subst; by apply by_tools|].
  destruct (verificationStage state) eqn:E8; simpl in Hd;
    [subst; by exfalso; eapply Hq; [apply verificationStage_quiet|]|].
  destruct (verificationDecisionStage state) eqn:E9; simpl in Hd;
    [subst; by exfalso; eapply Hq; [apply verificationDecisionStage_quiet|]|].
  destruct (completionStage state) eqn:E10; simpl in Hd; [subst; by apply by_completion|].
  destruct (contextStage state) eqn:E11; simpl in Hd;
    [subst; by exfalso; eapply Hq; [apply contextStage_quiet|]|].
  destruct (rejectionStage state) eqn:E12; simpl in Hd;
    [subst; by exfalso; eapply Hq; [apply rejectionStage_quiet|]|].
  by injection Hd as <-.
Qed.

(** *** The stages that dispatch *)

Lemma authorizedStage_some state facts r :
  authorizedStage state facts = Some r ->
  exists first, In first (authorizedQueuedToolIds state)
    /\ r = (let* ids := authorizedBatch state first facts in Ok (run_tools ids)).
Proof.
  unfold authorizedStage.
  destruct (authorizedQueuedToolIds state) as [|first rest]; repeat case_match; intros; simplify_eq;
    (exists first; split; [by left|done]).
Qed.

Lemma suspendedStage_some state r :
  suspendedStage state = Some r ->
  exists id, r = Ok (run_tools [id]) /\ In id (active (tools state)) /\ resumable state id = true.
Proof.
  unfold suspendedStage, effect. destruct (List.find _ _) as [id|] eqn:E; [|done].
  apply find_some in E as [? ?]. case_match; intros; simplify_eq. by exists id.
Qed.

(** The call the tool stage starts from: the first runnable one of the queue,
    else the first runnable one. *)
Definition leader state : string :=
  default (default "" (head (runnableToolIds state)))
    (List.find (fun id => str_in id (runnableToolIds state)) (queue (tools state))).

Lemma leader_runnable state :
  runnableToolIds state <> [] -> In (leader state) (runnableToolIds state).
Proof.
  intros Hne. unfold leader. destruct (List.find _ _) as [id|] eqn:E; simpl.
  - apply find_some in E as [_ E]. by apply str_in_true.
  - destruct (runnableToolIds state); [done|by left].
Qed.

Lemma toolStage_some state facts r :
  toolStage state facts = Some r ->
  runnableToolIds state <> [] /\
  (r = Ok (run_tools [leader state])
   \/ exists group ceiling,
        r = (let* b := parallelBatch state (leader state) group ceiling facts in Ok (run_tools b))
        /\ (group = "parallel-subagent"%string /\ ceiling = MAX_PARALLEL_SUBAGENTS
            \/ group = "parallel-read"%string
               /\ ceiling = Z.of_nat (length (runnableToolIds state)))).
Proof.
  unfold toolStage, leader. destruct (runnableToolIds state) as [|h ids] eqn:E; [done|].
  simpl head. simpl (default "" (Some h)). intros Hs. injection Hs as <-. split; [done|].
  destruct (oget _ _) as [call|]; [|by left].
  destruct (approvalFree call "parallel-subagent" facts).
  { right. exists "parallel-subagent"%string, MAX_PARALLEL_SUBAGENTS. split; [done|by left]. }
  match goal with |- context [if ?b then _ else _] => destruct b end; [|by left].
  right. eexists "parallel-read"%string, _. split; [done|by right].
Qed.
End Stages.

(** ** The preconditions of a dispatch *)

Section Preconditions.
Context {port : CompletionPort} {host : JsHost}.
Implicit Types (state : AgentState).

(** The session is able to act at all. *)
Record actionable state (facts : option val) : Prop := {
  act_normal : recoveryState state = recovery_normal;
  act_turn : turn_status (turn state) = turn_active;
  act_no_hard_block : hardBlock (context state) = None;
  act_journal : journalInvalid (toolRecovery state) = false;
  act_facts : forall f, facts = Some f -> isValidSchedulerFacts f = true;
  act_outcomes : Forall (fun i => stringField i "status" <> Some "unknown"%string)
                   (ovalues (cap_invocations (capabilities state))) }.

Lemma blockStage_none state facts : blockStage state facts = None <-> actionable state facts.
Proof.
  unfold blockStage, blocked, effect. split.
  - destruct (recoveryState state) eqn:E1; try done.
    destruct (hardBlock _) eqn:E2; [done|].
    destruct (journalInvalid _) eqn:E3; [done|].
    destruct (bool_decide _) eqn:E4; [|done]. apply bool_decide_eq_true in E4. simpl.
    destruct (match facts with Some f => _ | None => false end) eqn:E5; [done|].
    destruct (existsb _ _) eqn:E6; [done|]. intros _. split; try done.
    + intros f ->. by apply negb_false_iff in E5.
    + apply Forall_forall. intros i Hi Hs.
      assert (existsb (fun i => opt_str_eqb (stringField i "status") (Some "unknown"%string))
        (ovalues (cap_invocations (capabilities state))) = true); [|congruence].
      apply existsb_exists. exists i. split; [by apply list_elem_of_In|].
      by apply opt_str_eqb_true.
  - intros [-> Ht -> -> Hf Ho]. rewrite bool_decide_eq_true_2 by done. simpl.
    destruct facts as [f|]; [rewrite (Hf f) by done; simpl|].
    all: destruct (existsb _ _) eqn:E; [|done]; exfalso;
      apply existsb_exists in E as (i & Hi & Hs); apply opt_str_eqb_true in Hs;
      rewrite Forall_forall in Ho; by eapply Ho; [apply list_elem_of_In|].
Qed.

(** A call that may be handed to the executor. *)
Definition dispatchable state (id : string) : Prop :=
  exists call, oget id (calls (tools state)) = Some call
    /\ runnableStatus call = true /\ toolBelongsToCurrentWork state call = true
    /\ (parentSchedulerOwnsToolCall state call = true \/ ohas id (suspendedSubagents state) = true).

Lemma runnable_dispatchable state id : In id (runnableToolIds state) -> dispatchable state id.
Proof.
  intros [_ H]%In_runnable. unfold runnable in H. case_match; [|done].
  apply andb_true_iff in H as [[? ?]%andb_true_iff ?].
  eexists. split_and!; [done..|]. by left.
Qed.

Lemma resumable_dispatchable state id : resumable state id = true -> dispatchable state id.
Proof.
  unfold resumable, dispatchable, runnableStatus. case_match; [|done]. intros H'.
  apply andb_true_iff in H' as [[Hs ?]%andb_true_iff ?].
  eexists. split_and!; [done| |done|by right]. by destruct (tc_status _).
Qed.

(** The identities a dispatch hands over, by the stage that chose them. *)
Lemma run_tools_members state facts ids :
  dispatched_by state facts (Ok (run_tools ids)) ->
  (exists first, ids = [first] /\ (In first (authorizedQueuedToolIds state)
      \/ interactions state = idle
         /\ (In first (runnableToolIds state) \/ resumable state first = true)))
  \/ (exists first effs, ids = List.map effectId effs
        /\ batch_of state facts first (authorizedQueuedToolIds state)
             (Z.of_nat (length (authorizedQueuedToolIds state)))
             (fun e => sharedRead (traits e) = true) effs)
  \/ (exists first group ceiling effs, ids = List.map effectId effs /\ interactions state = idle
        /\ (group = "parallel-subagent"%string /\ ceiling = MAX_PARALLEL_SUBAGENTS
            \/ group = "parallel-read"%string
               /\ ceiling = Z.of_nat (length (runnableToolIds state)))
        /\ batch_of state facts first (runnableToolIds state) ceiling
             (fun e => approvalFreeCall state group facts (effectId e)) effs).
Proof.
  intros [Ha|_ Hi _ Hs|_ Hi _ _ Ht|? ? ? ? ? ? ? Hc].
  - apply authorizedStage_some in Ha as (first & Hin & Hr). symmetry in Hr.
    apply bind_ok in Hr as (b & Hb & [= <-]).
    apply authorizedBatch_spec in Hb as [->|(effs & -> & Hb)]; [|right; left|done]; eauto 6.
  - apply suspendedStage_some in Hs as (id & [= ->] & _ & Hr). left. exists id. eauto.
  - apply toolStage_some in Ht as (Hne & [[= ->]|(g & c & Hr & Hg)]);
      pose proof (leader_runnable state Hne).
    + left. exists (leader state). eauto.
    + symmetry in Hr. apply bind_ok in Hr as (b & Hb & [= <-]).
      apply parallelBatch_spec in Hb as [->|(effs & -> & Hb)]; [|right; right|done]; eauto 12.
  - unfold completionStage, completionDecision in Hc. case_match; [|done].
    destruct (guardCompletion state) as [[]|]; simpl in Hc; by simplify_eq.
Qed.

Lemma pool_dispatchable state (pool : list string) effs :
  (forall id, In id pool -> In id (runnableToolIds state)) ->
  Forall (fun e => In (effectId e) pool) effs ->
  Forall (dispatchable state) (List.map effectId effs).
Proof.
  intros Hp. induction 1; simpl; constructor; [|done]. by apply runnable_dispatchable, Hp.
Qed.

Lemma members_dispatchable state facts ids :
  dispatched_by state facts (Ok (run_tools ids)) ->
  ids <> [] /\ NoDup ids /\ Forall (dispatchable state) ids.
Proof.
  intros [(first & -> & Hf)|[(first & effs & -> & [[? Hh] Hp ? _ _ _ _])
    |(first & g & c & effs & -> & _ & _ & [[? Hh] Hp ? _ _ _ _])]]%run_tools_members.
  - split_and!; [done|apply NoDup_singleton|]. apply Forall_singleton.
    destruct Hf as [[? _]%In_authorized|[_ [?|?]]];
      [by apply runnable_dispatchable..|by apply resumable_dispatchable].
  - split_and!; [by rewrite Hh|done|]. eapply pool_dispatchable; [|done].
    by intros id [? _]%In_authorized.
  - split_and!; [by rewrite Hh|done|]. by eapply pool_dispatchable.
Qed.
(** When both verification stages pass, no required record of the current work
    is open or failed. *)
Lemma no_open_verification state v :
  verificationStage state = None -> verificationDecisionStage state = None ->
  In v (activeVerificationRecords state) -> required v = true ->
  status_in v ["pending"; "running"; "failed"; "inconclusive"; "budget_exhausted"; "compensated";
               "compensating"]%string = false.
Proof.
  unfold verificationStage, verificationDecisionStage, effect. intros Hv Hd Hin Hr.
  destruct (List.find _ _) eqn:E1 in Hv; [done|]. destruct (List.find _ _) eqn:E2 in Hv; [done|].
  clear Hv. destruct (List.find _ _) eqn:E3 in Hd; [done|]. clear Hd.
  pose proof (find_none _ _ E1 v Hin) as H1. pose proof (find_none _ _ E2 v Hin) as H2.
  pose proof (find_none _ _ E3 v Hin) as H3. simpl in H1, H2, H3. rewrite Hr in *.
  unfold status_in, str_in in *. simpl in *. rewrite !orb_false_r in *.
  rewrite andb_true_r in H1. apply orb_false_iff in H1 as [-> ->]. rewrite H2.
  repeat (apply orb_false_iff in H3 as [-> H3] || rewrite H3 || simpl). done.
Qed.
(** *** Decisions are always reached *)

(** The work lists fit in a JavaScript array. *)
Definition lists_fit state : Prop :=
  Z.of_nat (length (queue (tools state)) + length (active (tools state))) <= MAX_SAFE_INTEGER.

Lemma firstOccurrences_length l seen : (length (firstOccurrences seen l) <= length l)%nat.
Proof.
  revert seen. induction l as [|x l IH]; intros seen; simpl; [lia|].
  case_match; [specialize (IH seen)|specialize (IH (x :: seen))]; simpl; lia.
Qed.

Lemma runnable_length state :
  lists_fit state -> Z.of_nat (length (runnableToolIds state)) <= MAX_SAFE_INTEGER.
Proof.
  unfold lists_fit, runnableToolIds. rewrite <- length_app.
  pose proof (filter_length_le (runnable state)
    (firstOccurrences [] (queue (tools state) ++ active (tools state)))).
  pose proof (firstOccurrences_length (queue (tools state) ++ active (tools state)) []). lia.
Qed.

Lemma selectBatch_total candidates ceiling :
  1 <= ceiling <= MAX_SAFE_INTEGER ->
  exists ids, selectSchedulableEffectBatch candidates ceiling = Ok ids.
Proof.
  intros Hc. unfold selectSchedulableEffectBatch.
  assert (isSafeInteger ceiling = true) as ->.
  { apply isSafeInteger_true. unfold MAX_SAFE_INTEGER in *. lia. }
  rewrite (proj2 (Z.leb_gt ceiling 0)) by lia. simpl. destruct candidates; eauto.
Qed.

Lemma parallelBatch_total state first group ceiling facts :
  1 <= ceiling <= MAX_SAFE_INTEGER ->
  exists ids, parallelBatch state first group ceiling facts = Ok ids.
Proof.
  intros Hc. unfold parallelBatch. repeat case_match; eauto. by apply selectBatch_total.
Qed.

Lemma authorizedBatch_total state first facts :
  lists_fit state -> exists ids, authorizedBatch state first facts = Ok ids.
Proof.
  intros Hl%runnable_length. unfold authorizedBatch.
  pose proof (filter_length_le (authorizedQueued state) (runnableToolIds state)).
  fold (authorizedQueuedToolIds state) in *.
  destruct (oget _ _); [|eauto]. destruct (schedulerTraits _ _) as [t|]; [|eauto].
  destruct (sharedRead t); [|eauto]. destruct (_ =? 1); [eauto|].
  apply selectBatch_total. unfold MAX_SAFE_INTEGER, two53 in *. lia.
Qed.

Lemma toolStage_total state facts r :
  lists_fit state -> toolStage state facts = Some r ->
  exists ids, r = Ok (run_tools ids) /\ head ids = Some (leader state).
Proof.
  intros Hl (Hne & Hr)%toolStage_some. destruct Hr as [->|(g & c & -> & Hg)]; [eauto|].
  destruct (parallelBatch_total state (leader state) g c facts) as [ids Hi].
  { apply runnable_length in Hl. destruct Hg as [[_ ->]|[_ ->]].
    - unfold MAX_PARALLEL_SUBAGENTS, MAX_SAFE_INTEGER, two53. lia.
    - destruct (runnableToolIds state); simpl in *; [done|lia]. }
  exists ids. rewrite Hi. split; [done|].
  apply parallelBatch_spec in Hi as [->|(effs & -> & [[? ->] _ _ _ _ _ _])];
    [done..|by apply leader_runnable].
Qed.

Lemma authorizedStage_total state facts r :
  lists_fit state -> authorizedStage state facts = Some r ->
  exists ids, r = Ok (run_tools ids) /\ head ids = head (authorizedQueuedToolIds state).
Proof.
  intros Hl. unfold authorizedStage. destruct (authorizedQueuedToolIds state) as [|first rest] eqn:E;
    [by repeat case_match|].
  destruct (authorizedBatch_total state first facts Hl) as [ids Hi]. rewrite Hi. simpl.
  assert (head ids = Some first).
  { apply authorizedBatch_spec in Hi as [->|(effs & -> & [[? ->] _ _ _ _ _ _])]; [done..|].
    rewrite E. by left. }
  repeat case_match; intros; simplify_eq; eauto.
Qed.
End Preconditions.
