(* ===== verification/SchedulerClaims.v ===== *)
(** * What the scheduler guarantees

    The properties of [decideNextEffect], for every completion guard and every
    collation of the engine, each with a concrete instance. *)

From S2P Require Import Prelude Js State Sample Recovery Traits Scheduler SchedulerProps.
From stdpp Require Import prelude strings list.
From Stdlib Require Import ZArith Lia.
Open Scope Z_scope.

Section Claims.
Context {port : CompletionPort} {host : JsHost}.
Implicit Types (state : AgentState) (facts : option val) (ids : list string).

(** C7: whatever the scheduler dispatches is admissible.  The state has recovered
    normally, is not hard-blocked, its recovery journal is valid, the turn is
    active, no capability call has an unknown outcome and the host's facts are
    well formed; the batch is not empty, names no call twice, and each of its
    calls exists, is queued, approved or sealed, belongs to the current task or
    turn, and is owned by this scheduler or is the resumed call of a suspended
    subagent. *)
Theorem dispatch_is_admissible state facts ids :
  decideNextEffect state facts = Ok (run_tools ids) ->
  actionable state facts /\ ids <> [] /\ NoDup ids /\ Forall (dispatchable state) ids.
Proof.
  intros (Hb & _ & Hd)%dispatch_cases; [|done].
  split; [by apply blockStage_none|]. by apply members_dispatchable in Hd.
Qed.

(** C8: the interaction barrier.  While the session waits for an interaction, only
    calls whose authorization is already sealed are dispatched, and only when
    that interaction is a tool approval or an automatic review. *)
Theorem interaction_barrier state facts ids :
  decideNextEffect state facts = Ok (run_tools ids) -> interactions state <> idle ->
  Forall (fun id => authorizedQueued state id = true) ids
  /\ match interactions state with
     | awaiting_tool_approval _ _ _ | awaiting_auto_review _ _ _ _ _ => True
     | _ => False
     end.
Proof.
  intros (_ & _ & Hd)%dispatch_cases Hi; [|done]. split.
  - apply run_tools_members in Hd as [(first & -> & [[_ ?]%In_authorized|[? _]])
      |[(first & effs & -> & [_ Hp _ _ _ _ _])|(? & ? & ? & ? & _ & ? & _)]]; [|done| |done].
    + by apply Forall_singleton.
    + clear Hi. induction Hp as [|e effs He Hp IH]; simpl; constructor; [|done].
      by apply In_authorized in He as [_ ?].
  - destruct Hd as [Ha| | |]; [|done..].
    unfold authorizedStage in Ha. by destruct (interactions state).
Qed.

(** C26: calls are dispatched together only when it is safe.  A batch of two or
    more carries the traits the host projected for each call; any two of them
    may overlap; and either all are sealed shared reads, or all are queued calls
    of one concurrency group that need no approval, at most four when they are
    subagents. *)
Theorem batches_are_safe state facts ids :
  decideNextEffect state facts = Ok (run_tools ids) -> (2 <= length ids)%nat ->
  exists f effs, facts = Some (VObj f) /\ ids = List.map effectId effs
    /\ Forall (projected state (Some f)) effs
    /\ (forall i j a b, effs !! i = Some a -> effs !! j = Some b -> i <> j ->
          executionTraitsMayOverlap (traits a) (traits b) = true)
    /\ (Forall (fun e => authorizedQueued state (effectId e) = true
                         /\ sharedRead (traits e) = true) effs
        \/ Forall (fun e => approvalFreeCall state "parallel-read" (Some f) (effectId e)) effs
        \/ Forall (fun e => approvalFreeCall state "parallel-subagent" (Some f) (effectId e)) effs
           /\ (length ids <= 4)%nat).
Proof.
  intros (_ & _ & Hd)%dispatch_cases Hl; [|done].
  assert (forall first pool ceiling P effs, batch_of state (factsRecord facts) first pool ceiling P effs ->
    exists f, facts = Some (VObj f) /\ Forall (projected state (Some f)) effs
      /\ (forall i j a b, effs !! i = Some a -> effs !! j = Some b -> i <> j ->
          executionTraitsMayOverlap (traits a) (traits b) = true)) as Hcommon.
  { intros first pool ceiling P effs [[rest Hh] _ _ Hpr _ Hp _].
    destruct effs as [|a effs]; [done|]. destruct facts as [[]|];
      try by apply Forall_cons in Hpr as [(c & _ & ?) _].
    exists o. split_and!; [done..|]. intros i j x y. by apply (FOP_lookup compatible). }
  apply run_tools_members in Hd as [(first & -> & _)
    |[(first & effs & -> & Hb)|(first & g & c & effs & -> & _ & Hg & Hb)]]; [simpl in Hl; lia|..];
    destruct (Hcommon _ _ _ _ _ Hb) as (f & -> & Hpr & Hov); exists f, effs; split_and!; try done;
    destruct Hb as [_ Hpool _ _ Heach _ Hbound].
  - left. apply Forall_and. split; [|done]. eapply Forall_impl; [exact Hpool|].
    by intros e [_ ?]%In_authorized.
  - right. rewrite length_map. destruct Hg as [[-> ->]|[-> _]]; [right|by left].
    split; [done|]. unfold MAX_PARALLEL_SUBAGENTS in Hbound. lia.
Qed.

(** The final answer is emitted only when nothing is left to do.  The
    completion guard accepts it, a final message exists, the session is
    actionable and waits for no interaction, no call is runnable, no skill frame
    of the current work is active, and no required verification of it is pending,
    running, compensating or failed. *)
Theorem final_answer_is_guarded state facts :
  decideNextEffect state facts = Ok emit_final ->
  guardCompletion state = Ok None /\ hasFinal state = true
  /\ actionable state facts /\ interactions state = idle
  /\ runnableToolIds state = []
  /\ hasActiveSkillFrameForCurrentWork state = false
  /\ Forall (fun v => required v = true -> status_in v ["pending"; "running"; "failed";
        "inconclusive"; "budget_exhausted"; "compensated"; "compensating"]%string = false)
       (activeVerificationRecords state).
Proof.
  intros (Hb & _ & Hd)%dispatch_cases; [|done]. apply blockStage_none in Hb.
  destruct Hd as [Ha|_ _ _ Hs|_ _ _ _ Ht|_ Hi _ _ Ht Hv Hvd Hc].
  - apply authorizedStage_some in Ha as (? & _ & Hr). symmetry in Hr.
    by apply bind_ok in Hr as (? & _ & ?).
  - by apply suspendedStage_some in Hs as (? & ? & _).
  - apply toolStage_some in Ht as (_ & [?|(? & ? & Hr & _)]); [done|].
    symmetry in Hr. by apply bind_ok in Hr as (? & _ & ?).
  - unfold completionStage, completionDecision, effect in Hc.
    destruct (_ && _) eqn:E; [|done]. apply andb_true_iff in E as [Hf Hsk%negb_true_iff].
    destruct (guardCompletion state) as [[d|]|] eqn:Edc; try done. split_and!; try done.
    + unfold toolStage in Ht. by destruct (runnableToolIds state).
    + apply Forall_forall. intros v Hin%list_elem_of_In Hreq.
      by eapply no_open_verification.
Qed.



(** The identity of an interaction, and of the interaction an effect presents. *)
Definition interactionIdOf (i : AgentInteractionState) : option string :=
  match i with
  | idle => None
  | awaiting_user_input i _ _ | awaiting_review i _ _ _ _ _ _ _ | awaiting_tool_approval i _ _
  | awaiting_auto_review i _ _ _ _ | awaiting_provider_action i _ _ _ _
  | awaiting_provider_admission i _ _ _ _ _ => Some i
  end.

Definition presents (e : RuntimeEffect) : option string :=
  match e with
  | request_user_input i _ | request_plan_review i _ | request_tool_approval i _
  | run_auto_review i _ | request_provider_action i _ _ _ | request_provider_admission i _ _ _ =>
      Some i
  | _ => None
  end.

(** An open interaction is presented.  In an actionable session that waits
    for an owned interaction and has no sealed work, the effect is the request of
    that very interaction, an interrupt or the automatic review; only a provider
    interaction whose action or status is unknown blocks instead. *)
Theorem open_interaction_is_presented state facts :
  actionable state facts -> ownershipStage state = None -> interactions state <> idle ->
  authorizedQueuedToolIds state = [] ->
  exists e, decideNextEffect state facts = Ok e
    /\ ((presents e = interactionIdOf (interactions state)
         /\ (isInterruptEffect e = true \/ exists i t, e = run_auto_review i t))
        \/ (isTerminalEffect e = true /\ interactionCallId (interactions state) = None)).
Proof.
  intros Ha Ho Hi Hau. apply blockStage_none in Ha.
  unfold decideNextEffect. rewrite Ha, Ho. unfold authorizedStage. rewrite Hau.
  match goal with |- context [orElse (interactionStage state) ?r] => generalize r; intros rest end.
  unfold interactionStage, effect, blocked.
  destruct (interactions state); try done; cbn [orElse];
    try (destruct (str_in _ _)); cbn [orElse]; eexists; (split; [reflexivity|]); simpl;
    first [left; split; [reflexivity|by left] | left; split; [reflexivity|right; by do 2 eexists]
          | by right].
Qed.
End Claims.

(** ** Instances *)

(** A completion guard for the instances: it accepts an answer unless a call is
    still recorded. *)
Definition port0 : CompletionPort :=
  {| GuardBlocked := string;
     guardCompletion := fun s => Ok match calls (tools s) with
                                    | [] => None | (id, _) :: _ => Some id end |}.

Definition demoCall (id : string) (st : ToolCallStatus) : AgentToolCallState :=
  {| tc_toolCallId := id; tc_name := "read_file"; tc_displayLabel := None;
     tc_modelMessageId := "m1"; tc_args := VObj []; tc_modelInvocationId := None;
     tc_ordinal := None; tc_createdAtTurnId := "turn"; tc_taskId := None; tc_queuedAt := None;
     tc_startedAt := None; tc_approvalRequestedAt := None; tc_approvalWaitMs := None;
     tc_invocationFingerprint := None; tc_recoveryOf := None; tc_recoveryMode := None;
     tc_recoveryAdmission := None; tc_result := None; tc_error := None; tc_failure := None;
     tc_outcome := None; tc_bindingId := None; tc_capabilityId := None;
     tc_capabilityRevision := None; tc_unknownFields := None; tc_approvalHash := None;
     tc_approvalGrant := None; tc_effectClass := Some read_only; tc_sideEffect := Some false;
     tc_classificationReason := None; tc_presentation := None; tc_networkDecisions := None;
     tc_status := st |}%string.

(** Calls [(id, status)], all queued in order. *)
Definition demoWork (l : list (string * ToolCallStatus)) : AgentState :=
  demo <| tools := {| calls := List.map (fun '(id, st) => (id, demoCall id st)) l;
                      queue := List.map fst l; active := [] |} |>.

Definition traitsJson (acc group iso key : string) : val :=
  VObj [("resourceScopes", VArr [VObj [("kind", VStr "workspace"); ("key", VStr key)]]);
        ("access", VStr acc); ("conflictKeys", VArr []); ("isolation", VStr iso);
        ("causalGroup", VStr "g"); ("interactionBarrier", VBool false);
        ("leaseFenceRequired", VBool false); ("concurrencyGroup", VStr group)]%string.

Definition freeJson : val := VObj [("allowed", VBool true); ("requiresApproval", VBool false)]%string.

(** Facts projecting [t] for each call and requiring no approval. *)
Definition demoFacts (t : string -> val) (ids : list string) : val :=
  VObj [("traits", VObj (List.map (fun id => (id, t id)) ids));
        ("approval", VObj (List.map (fun id => (id, freeJson)) ids))]%string.

Definition twoReads : AgentState := demoWork [("a", t_queued); ("b", t_queued)]%string.
Definition readFacts : option val :=
  Some (demoFacts (fun id => traitsJson "read" "parallel-read" "shared" id) ["a"; "b"])%string.

Definition demoApproval : AgentToolApprovalPayload :=
  {| ap_scope := "thread"; ap_callId := Some "w"; ap_cwd := "/w"; ap_threadId := "thread";
     ap_tool := "shell"; ap_command := "make"; ap_risk := risk_execute_code; ap_approvalHash := "h";
     ap_summary := "run"; ap_reason := "r"; ap_expectedEffects := []; ap_grantOptions := [];
     ap_recommendedGrant := approve_once; ap_plan := None; ap_subagentId := None;
     ap_reviewFailure := None |}%string.

(** A sealed call and a queued one behind an approval of a third. *)
Definition sealedWork : AgentState :=
  (demoWork [("a", t_authorized_queued); ("w", t_awaiting_approval); ("q", t_queued)]%string)
    <| interactions := awaiting_tool_approval "i1"%string "w"%string demoApproval |>.

Lemma dispatch_is_admissible_witness :
  @decideNextEffect port0 host0 twoReads readFacts = Ok (run_tools ["a"; "b"]%string)
  /\ Forall (dispatchable twoReads) ["a"; "b"]%string.
Proof.
  split; [vm_compute; reflexivity|].
  apply (@dispatch_is_admissible port0 host0 twoReads readFacts). vm_compute. reflexivity.
Defined.

Lemma interaction_barrier_witness :
  runnableToolIds sealedWork = ["a"; "q"]%string
  /\ Forall (fun id => authorizedQueued sealedWork id = true) ["a"%string].
Proof.
  split; [vm_compute; reflexivity|].
  apply (@interaction_barrier port0 host0 sealedWork None); [vm_compute; reflexivity|discriminate].
Defined.

Lemma batches_are_safe_witness :
  exists f effs, readFacts = Some (VObj f) /\ ["a"; "b"]%string = List.map effectId effs
    /\ Forall (projected twoReads (Some f)) effs.
Proof.
  destruct (@batches_are_safe port0 host0 twoReads readFacts ["a"; "b"]%string)
    as (f & effs & Hf & Hi & Hp & _); [vm_compute; reflexivity|simpl; lia|].
  by exists f, effs.
Defined.

Definition answered : AgentState :=
  demo <| transcript := {| messages := []; final := Some "done"%string |} |>.

Lemma final_answer_is_guarded_witness :
  @decideNextEffect port0 host0 answered None = Ok emit_final
  /\ @guardCompletion port0 answered = Ok None /\ hasFinal answered = true.
Proof.
  split; [vm_compute; reflexivity|].
  destruct (@final_answer_is_guarded port0 host0 answered None) as (? & ? & _);
    [vm_compute; reflexivity|done].
Defined.

(** A user question about an owned call. *)
Definition asking : AgentState :=
  (demoWork [("w", t_awaiting_user_input); ("q", t_queued)]%string)
    <| interactions := awaiting_user_input "i1"%string "w"%string [] |>.

Lemma open_interaction_is_presented_witness :
  exists e, @decideNextEffect port0 host0 asking None = Ok e.
Proof.
  destruct (@open_interaction_is_presented port0 host0 asking None) as (e & He & _).
  - apply (proj1 (@blockStage_none port0 asking None)). vm_compute. reflexivity.
  - vm_compute. reflexivity.
  - discriminate.
  - vm_compute. reflexivity.
  - by exists e.
Defined.



(** ** A gap in the validation of the facts *)

(** Subagent traits whose access is the one-element array [["unknown"]]. *)
Definition smuggled (access : val) (key : string) : val :=
  match traitsJson "unknown" "parallel-subagent" "worktree" key with
  | VObj o => VObj (oset "access" access o)
  | v => v
  end.
Definition smuggledFacts (access : val) : val :=
  demoFacts (smuggled access) ["a"; "b"]%string.

(** Effects of unknown access never run together, but the validation of the
    facts compares [String(access)]: the array [["unknown"]] passes it, is not
    [=== 'unknown'] afterwards, and the two calls are dispatched in one batch,
    while the string ["unknown"] dispatches them one at a time. *)
Theorem unknown_access_bypass :
  (forall left right, access left = VStr "unknown" -> executionTraitsMayOverlap left right = false)
  /\ isValidSchedulerFacts (smuggledFacts (VArr [VStr "unknown"%string])) = true
  /\ @decideNextEffect port0 host0 twoReads (Some (smuggledFacts (VStr "unknown")))
     = Ok (run_tools ["a"%string])
  /\ @decideNextEffect port0 host0 twoReads (Some (smuggledFacts (VArr [VStr "unknown"%string])))
     = Ok (run_tools ["a"; "b"]%string).
Proof.
  split_and!; [|vm_compute; reflexivity..].
  intros left right Ha. unfold executionTraitsMayOverlap. rewrite Ha. simpl.
  by repeat case_match.
Qed.
