(* ===== verification/CompletionClaims.v ===== *)
(** * What the completion guard promises

    The final answer ends finished work, accepted plans carry the evidence of
    the session, a blocked answer is corrected once, and only a guarded event
    ends a task. *)

From S2P Require Import Prelude Js State Sample Hash Recovery Scheduler SchedulerProps SchedulerClaims Json Completion CompletionReducer CompletionProps.
From stdpp Require Import prelude strings list.
From Stdlib Require Import ZArith Lia.
Open Scope Z_scope.

(** ** Vocabulary of the statements *)

(** The task identity is not the empty text, which the source treats as absent in
    some places. *)
Definition named_task (state : AgentState) : Prop := activeTaskId state <> Some "".

(** Every task is stored under its own identity. *)
Definition tasks_keyed (state : AgentState) : Prop :=
  forall id task, oget id (tasks state) = Some task -> task_taskId task = id.

Definition guard_counts (state : AgentState) : Prop :=
  0 <= correctionAttempts (completionGuard state) <= two53.

(** The identity of the plan document the active task owns. *)
Definition activeDocument (state : AgentState) : option DocumentIdentity :=
  option_map documentIdentity (planningDocument (activePlanning state)).

(** The identity an event names, as a document has it. *)
Definition identityOf (plan : PlanIdentity) : DocumentIdentity :=
  {| di_planId := VStr (pi_planId plan); di_version := VNum (Fin (pi_version plan));
     di_structuralDigest := VStr (pi_structuralDigest plan) |}.

(** Nothing of the current work is pending. *)
Definition work_settled (state : AgentState) : Prop :=
  interactions state = idle
  /\ (forall call, In call (callsOf state) -> toolCallBelongsToCurrentWork state call = true ->
        endedToolStatus (tc_status call) = true)
  /\ hasCurrentSuspendedSubagent state = false /\ hasUnknownInvocation state = false
  /\ activeSkillFramesForCurrentWork state = false.

(** The document proves its plan: it is valid, its evidence is the projection of
    the session, and the session holds nothing against it. *)
Record plan_proved `{JsHost} (state : AgentState) (document : obj) : Prop := {
  pp_valid : isPlanDocument document = true;
  pp_evidence : let value := get document "completionEvidence" in
    value = VObj (projectPlanCompletionEvidence state (stepsOf document)
                    (skippedReasons (entries (jsonRecord value) "skipped")));
  pp_effects : forall call, In call (relevantEffectCalls state) ->
    tc_status call = t_succeeded /\ resultOk call = true;
  pp_verified : forall record, In record (ovalues (verification state)) ->
    sameTask state record = true -> is_str (get record "mode") "required" = true ->
    passedOrWaived record = true;
  pp_resolved : unresolvedEvidence state = [];
  pp_pending : relevantPendingCalls state = [];
  pp_recovery : recoveryUnresolved state = false;
  pp_skipped : forall step, In step (stepsOf document) ->
    is_str (get step "status") "skipped" = true ->
    exists reason, SAFE_REASON_CODE reason = true
      /\ In [("stepId", VStr (textOf step "id")); ("reasonCode", VStr reason)]
           (entries (jsonRecord (get document "completionEvidence")) "skipped") }.

Section Host.
Context `{JsHost}.

(** ** Lemmas *)

Lemma common_settled state : commonBlock state = None -> work_settled state.
Proof.
  intros (? & Ht & ? & ? & ?)%commonBlock_none. split_and!; try done.
  intros call Hin Hb. unfold hasCurrentNonTerminalTool in Ht.
  destruct (endedToolStatus (tc_status call)) eqn:E; [done|]. exfalso.
  rewrite <- not_true_iff_false in Ht. apply Ht, existsb_exists. exists call. split; [done|].
  rewrite Hb. simpl. by destruct (tc_status call).
Qed.

Lemma existsb_none {A} (p : A -> bool) l x : existsb p l = false -> In x l -> p x = false.
Proof.
  intros Hl Hx. destruct (p x) eqn:E; [|done]. rewrite <- not_true_iff_false in Hl.
  destruct Hl. apply existsb_exists. eauto.
Qed.

(** A completed plan that nothing blocks is proved. *)
Lemma evidence_proves state document turn' :
  activePlanning state = plan_completed document turn' -> recoveryUnresolved state = false ->
  isPlanDocument document = true -> plannedEvidenceBlocker state document = None ->
  plan_proved state document.
Proof.
  intros Hpl Hrec Hdoc (Hun & Hblk & Hm)%plannedEvidenceBlocker_none.
  apply planCompletionBlocker_none in Hblk as (_ & Hpend & Hver & Hreason & Hunres & _ & Heff).
  assert (Hprior : priorSkipped state = []) by (unfold priorSkipped; by rewrite Hpl).
  apply (matching_evidence state) in Hm as Hev; [|by apply prior_texts_nil].
  set (reasons := skippedReasons _) in Hev.
  assert (He : forall f l, get (projectPlanCompletionEvidence state (stepsOf document) reasons) f
      = VArr (List.map VObj l) -> entries (jsonRecord (get document "completionEvidence")) f = l).
  { intros f l Hf. apply entries_of. by rewrite Hev. }
  split; try done.
  - intros call Hc. pose proof (existsb_none _ _ _ Heff Hc) as Hx.
    apply orb_false_iff in Hx as [[Hs Hr]%orb_false_iff _].
    apply negb_false_iff in Hs, Hr. by apply bool_decide_eq_true in Hs.
  - intros r Hr Hst Hreq. pose proof (existsb_none _ _ _ Hver Hr) as Hx. cbv beta in Hx.
    unfold requiredUnsettled in Hx. rewrite Hst, Hreq in Hx. by apply negb_false_iff in Hx.
  - by rewrite (He "unresolved" (unresolvedEvidence state)) in Hunres.
  - intros step Hin Hs. rewrite (He "skipped" (skippedEvidence state (stepsOf document) reasons))
      in * by reflexivity.
    assert (Htext : text_or_none (get reasons (textOf step "id"))).
    { apply skippedReasons_text, evidence_reasons. by apply andb_true_iff in Hm as [Hm _]. }
    assert (Hentry : In [("stepId", VStr (textOf step "id"));
        ("reasonCode", nullish (get reasons (textOf step "id"))
           (nullish (get (priorSkipped state) (textOf step "id")) (VStr "")))]
        (skippedEvidence state (stepsOf document) reasons)).
    { unfold skippedEvidence. rewrite In_sortByText. apply in_map_iff. exists step.
      split; [done|]. by apply filter_In. }
    rewrite Hprior in Hentry. cbn [get oget nullish] in Hentry.
    pose proof (existsb_none _ _ _ Hreason Hentry) as Hx. apply negb_false_iff in Hx.
    destruct Htext as [Ht|[s Ht]]; rewrite Ht in Hentry, Hx;
      cbn -[SAFE_REASON_CODE] in Hentry, Hx; [done|eauto].
Qed.

Lemma decide_accepts state accepted : decideCompletion state = Ok (guard_accepted accepted) ->
  work_settled state
  /\ (accepted = None /\ activePlanning state = building_without_plan
      \/ exists document turn', activePlanning state = plan_completed document turn'
           /\ accepted = Some (documentIdentity document) /\ plan_proved state document).
Proof.
  unfold decideCompletion. destruct (planningDocument _) as [d|] eqn:Ed.
  - intros (doc & t & Hp & -> & Hc & Hr & Hv & Hb)%planned_accepts.
    split; [by apply common_settled|]. right. exists doc, t. split_and!; try done.
    by eapply evidence_proves.
  - intros [= Hd]. unfold decideUnplannedCompletion, commonBlocker in Hd.
    destruct (commonBlock state) as [[]|] eqn:Ec; [done|].
    split; [by apply common_settled|]. left. destruct (activePlanning state); try done.
    by simplify_eq.
Qed.

(** ** The final answer *)

(** C15: the final answer ends finished work.  When the scheduler, with the guard
    of the source, emits the final answer, no interaction is open, every call of
    the current work is terminal, no subagent is suspended, no external outcome
    is unknown and no skill frame is active; and either the task has no plan, or
    its plan is completed and proved by the session. *)
Theorem final_answer_ends_finished_work state facts :
  decideNextEffect state facts = Ok emit_final ->
  hasFinal state = true /\ work_settled state
  /\ (activePlanning state = building_without_plan
      \/ exists document turn', activePlanning state = plan_completed document turn'
           /\ plan_proved state document).
Proof.
  intros (Hb & _ & Hd)%dispatch_cases; [|done].
  destruct Hd as [Ha|_ _ _ Hs|_ _ _ _ Ht|_ Hi _ _ Ht Hv Hvd Hc].
  - apply authorizedStage_some in Ha as (? & _ & Hr). symmetry in Hr.
    by apply bind_ok in Hr as (? & _ & ?).
  - by apply suspendedStage_some in Hs as (? & ? & _).
  - apply toolStage_some in Ht as (_ & [?|(? & ? & Hr & _)]); [done|].
    symmetry in Hr. by apply bind_ok in Hr as (? & _ & ?).
  - unfold completionStage, completionDecision in Hc. case_match eqn:E; [|done].
    apply andb_true_iff in E as [Hf _]. injection Hc as Hc.
    apply bind_ok in Hc as (d & Hd & Hc). simpl in Hd.
    apply bind_ok in Hd as (dec & Hdec & [= <-]). destruct dec as [acc|b]; [|done].
    apply decide_accepts in Hdec as (Hw & [(_ & Hp)|(doc & t & Hp & _ & Hpr)]); eauto 8.
Qed.

(** ** The reducer *)

Lemma named_planning state : named_task state ->
  activePlanning state = getActivePlanning state
  /\ hasPlanDocument state = is_some (planningDocument (activePlanning state)).
Proof.
  unfold named_task, activePlanning, getActivePlanning, hasPlanDocument, getActiveTask.
  destruct (activeTaskId state) as [[|c id]|]; simpl; [done| |done].
  intros _. by destruct (oget _ _).
Qed.

(** The version an event names, when the guard answers to it, is the version
    [decideCompletion] selects. *)
Lemma version_decision state version d : named_task state ->
  hasPlanDocument state && negb (version =s COMPLETION_GUARD_PLANNED_VERSION) = false ->
  completionDecisionForVersion state version = Some d -> decideCompletion state = Ok d.
Proof.
  intros Hn Hv Hd. destruct (named_planning state Hn) as [_ Hdoc].
  unfold completionDecisionForVersion in Hd. unfold decideCompletion.
  destruct (version =s COMPLETION_GUARD_UNPLANNED_VERSION) eqn:E1.
  - apply eqb_true in E1 as ->. rewrite Hdoc, andb_true_r in Hv.
    destruct (planningDocument _); [done|]. by simplify_eq.
  - destruct (version =s COMPLETION_GUARD_PLANNED_VERSION); [|done].
    destruct (decidePlannedCompletion state) as [d'|] eqn:Ep; [|done]. simplify_eq.
    destruct (planningDocument (activePlanning state)) eqn:Ed; [done|].
    unfold decidePlannedCompletion in Ep. by rewrite Ed in Ep.
Qed.

(** The document a decision names is the active one. *)
Lemma decision_document state d : decideCompletion state = Ok d ->
  activeDocument state = match d with
                         | guard_accepted i => i
                         | guard_blocked b => bd_planIdentity b
                         end.
Proof.
  unfold decideCompletion, activeDocument.
  destruct (planningDocument (activePlanning state)) as [doc|] eqn:Ed; intros Hd.
  - unfold decidePlannedCompletion in Hd. rewrite Ed in Hd.
    destruct (plannedBlock _ _ _) as [[c n]|]; [|by simplify_eq].
    apply bind_ok in Hd as (b & Hb & [= <-]). apply bind_ok in Hb as (z & _ & [= <-]). done.
  - injection Hd as <-. unfold decideUnplannedCompletion, commonBlocker.
    destruct (commonBlock state) as [[c n]|]; [done|]. by destruct (activePlanning state).
Qed.

Lemma samePlanIdentity_true named docId : samePlanIdentity named docId = Ok true ->
  exists p, named = Some p /\ docId = identityOf p.
Proof.
  destruct named as [p|], docId as [i v g]; simpl; [|by case_match].
  intros [= [[Hi%is_str_true Hv]%andb_true_iff Hg%is_str_true]%andb_true_iff]. exists p.
  destruct v as [| | |[]| | |]; try done. apply Z.eqb_eq in Hv. by subst.
Qed.

(** An attempt was recorded for this version and this document. *)
Definition corrected (state : AgentState) : Prop :=
  1 <= correctionAttempts (completionGuard state) <= two53
  /\ match activeDocument state with
     | None => plannedVersionRecorded state = false
     | Some docId => plannedVersionRecorded state = true
                     /\ samePlanIdentity (planIdentity (completionGuard state)) docId = Ok true
     end.

(** Every block of the guard is built by one of its two constructors. *)
Lemma blocked_built state b : decideCompletion state = Ok (guard_blocked b) ->
  (exists doc c n, planningDocument (activePlanning state) = Some doc
     /\ blockedPlannedCompletion state (documentIdentity doc) c n = Ok b)
  \/ (exists c n, planningDocument (activePlanning state) = None
        /\ b = blockedUnplannedCompletion state c n).
Proof.
  unfold decideCompletion. destruct (planningDocument _) as [doc|] eqn:Ed; intros Hb.
  - left. unfold decidePlannedCompletion in Hb. rewrite Ed in Hb.
    destruct (plannedBlock _ _ _) as [[c n]|]; [|done].
    apply bind_ok in Hb as (b' & Hb & [= ->]). eauto.
  - right. injection Hb as Hb. unfold decideUnplannedCompletion, commonBlocker in Hb.
    destruct (commonBlock state) as [[c n]|]; [simplify_eq; eauto|].
    destruct (activePlanning state); simplify_eq; eauto.
Qed.

Lemma corrected_exhausted state b : corrected state ->
  decideCompletion state = Ok (guard_blocked b) -> bd_canCorrect b = false.
Proof.
  intros [Hc Hd] Hb.
  assert (Hn : (fadd (correctionAttempts (completionGuard state)) 1 =? 1) = false).
  { apply Z.eqb_neq. destruct (Z.eq_dec (correctionAttempts (completionGuard state)) two53) as [->|];
      [done|]. rewrite fadd_succ; lia. }
  unfold activeDocument in Hd.
  apply blocked_built in Hb as [(doc & c & n & Ed & Hb)|(c & n & Ed & ->)]; rewrite Ed in Hd.
  - destruct Hd as [Hv Hs]. apply bind_ok in Hb as (z & Hz & [= <-]). cbn.
    unfold plannedCorrectionAttempt in Hz. rewrite Hv in Hz.
    apply bind_ok in Hz as (same & Hz & [= <-]). simpl in Hs. rewrite Hs in Hz.
    injection Hz as <-. by rewrite Hn.
  - cbn in Hd |- *. unfold unplannedCorrectionAttempt. by rewrite Hd, Hn.
Qed.

Lemma attempt_range state b : guard_counts state ->
  decideCompletion state = Ok (guard_blocked b) -> 1 <= bd_correctionAttempt b <= two53.
Proof.
  intros Hc Hb.
  assert (Hz : 1 <= fadd (correctionAttempts (completionGuard state)) 1 <= two53).
  { destruct (Z.eq_dec (correctionAttempts (completionGuard state)) two53) as [->|]; [done|].
    unfold guard_counts in Hc. rewrite fadd_succ; lia. }
  assert (H1 : 1 <= 1 <= two53) by done.
  apply blocked_built in Hb as [(doc & c & n & _ & Hb)|(c & n & _ & ->)].
  - apply bind_ok in Hb as (z & Hz' & [= <-]). cbn. unfold plannedCorrectionAttempt in Hz'.
    destruct (plannedVersionRecorded state); [|by simplify_eq].
    apply bind_ok in Hz' as ([] & _ & [= <-]); done.
  - cbn. unfold unplannedCorrectionAttempt. by case_match.
Qed.

(** A recorded block is the guard's own decision on the state it meets. *)
Lemma blocked_event_recorded state event state' : named_task state ->
  completion_blocked_event state event = Ok state' -> state' <> state ->
  exists b named, decideCompletion state = Ok (guard_blocked b)
    /\ match bd_planIdentity b with
       | None => named = None
       | Some docId => samePlanIdentity named docId = Ok true
       end
    /\ state' = state
         <| completionGuard := {| correctionAttempts := bd_correctionAttempt b;
              guardVersion := Some (versionText (bd_planIdentity b)); planIdentity := named |} |>
         <| transcript := (transcript state) <| final := None |> |>.
Proof.
  intros Hn. unfold completion_blocked_event.
  destruct (nonEmptyStringField event "turnId") as [id|]; [|intros; by simplify_eq].
  destruct (nonEmptyStringField event "guardVersion") as [version|]; [|intros; by simplify_eq].
  destruct (negb _); [intros; by simplify_eq|].
  destruct (hasPlanDocument state && _) eqn:Ev; [intros; by simplify_eq|].
  destruct (completionDecisionForVersion state version) as [[acc|b]|] eqn:Ed;
    [intros; by simplify_eq| |intros; by simplify_eq].
  apply version_decision in Ed; [|done..].
  intros (m & Hm & Hs)%bind_ok Hne. destruct m as [named|]; [|by simplify_eq].
  injection Hs as <-. exists b, named. split_and!; try done.
  unfold blockedEventMatchesDecision in Hm. case_match; [|done].
  destruct (bd_planIdentity b) as [docId|]; [|by simplify_eq].
  apply bind_ok in Hm as ([] & Hs & Hx); by simplify_eq.
Qed.

(** Only two events can touch the guard, the tasks or the active task. *)
Lemma completion_frame state event state' : reduceCompletionState state event = Ok state' ->
  (completionGuard state' = completionGuard state /\ tasks state' = tasks state
   /\ activeTaskId state' = activeTaskId state)
  \/ (ev_type event = "run.completed" /\ run_completed_event state event = Ok state')
  \/ completion_blocked_event state event = Ok state'.
Proof.
  unfold reduceCompletionState.
  destruct (ev_type event =s "turn.completed") eqn:_E1.
  { intros [= <-]. left. unfold turn_completed_event. by repeat case_match. }
  destruct (ev_type event =s "turn.aborted") eqn:_E2.
  { intros [= <-]. left. unfold turn_aborted_event. by repeat case_match. }
  destruct (ev_type event =s "run.completed") eqn:E.
  { apply eqb_true in E. auto. }
  destruct (ev_type event =s "run.error") eqn:_E3.
  { intros [= <-]. left. unfold run_error_event. by repeat case_match. }
  destruct (ev_type event =s "completion.blocked"); [auto|]. intros [= <-]. auto.
Qed.

(** A blocked answer is corrected once.  After a recorded block, as long as the
    guard state and the plan document stay the same, every further block of the
    guard refuses another correction. *)
Theorem blocked_answer_is_corrected_once state event state' later b :
  named_task state -> guard_counts state ->
  reduceCompletionState state event = Ok state' ->
  completionGuard state' <> completionGuard state ->
  completionGuard later = completionGuard state' ->
  activeDocument later = activeDocument state ->
  decideCompletion later = Ok (guard_blocked b) -> bd_canCorrect b = false.
Proof.
  intros Hn Hc Hr Hne Hg Hd. apply corrected_exhausted.
  assert (Hbe : completion_blocked_event state event = Ok state').
  { apply completion_frame in Hr as [(? & _)|[[_ Hr]|?]]; [done| |done].
    apply bind_ok in Hr as ([f|] & _ & Hr); [|by simplify_eq].
    destruct (oget _ (tasks state)); [|done]. injection Hr as <-. by destruct Hne. }
  apply blocked_event_recorded in Hbe as (b0 & named & Hb0 & Hid & ->); [|done|congruence].
  pose proof (attempt_range _ _ Hc Hb0) as Hz. apply decision_document in Hb0 as Hdoc.
  unfold corrected, plannedVersionRecorded. rewrite Hg, Hd, Hdoc. cbn. split; [done|].
  by destruct (bd_planIdentity b0).
Qed.

End Host.

(** ** Instances *)

Definition demoSteps : list val :=
  [VObj [("id", VStr "edit"); ("title", VStr "Edit the file"); ("status", VStr "completed")];
   VObj [("id", VStr "docs"); ("title", VStr "Update the docs"); ("status", VStr "skipped")]].

Definition demoEvidence : val :=
  VObj [("schemaVersion", VNum (Fin 1)); ("verification", VArr []);
        ("execution", VArr [VObj [("toolCallId", VStr "w"); ("outcome", VStr "succeeded")]]);
        ("skipped", VArr [VObj [("stepId", VStr "docs"); ("reasonCode", VStr "not_needed")]]);
        ("unresolved", VArr [])].

Definition demoDigest : string :=
  Eval vm_compute in planStructuralDigest "Edit one file" "Edit the file and check the result."
                       (List.map jsonRecord demoSteps).

Definition demoPlan : obj :=
  [("planSchemaVersion", VNum (Fin 2)); ("planId", VStr "plan"); ("version", VNum (Fin 1));
   ("title", VStr "Edit one file"); ("bodyMarkdown", VStr "Edit the file and check the result.");
   ("steps", VArr demoSteps); ("structuralDigest", VStr demoDigest);
   ("createdAtTurnId", VStr "turn"); ("updatedAtTurnId", VStr "turn");
   ("completionEvidence", demoEvidence)].

Definition demoTask (planning : PlanningState) : AgentTaskState :=
  {| task_taskId := "task"; task_userGoal := "goal"; task_status := task_active;
     task_startedAtTurnId := "turn"; task_completedAtTurnId := None;
     task_sideEffectsStarted := true; task_planning := planning; task_executionMode := None;
     task_planHistory := [] |}.

(** One successful write of the task. *)
Definition writtenCall : AgentToolCallState :=
  (demoCall "w" t_succeeded) <| tc_taskId := Some "task" |> <| tc_sideEffect := Some true |>
    <| tc_result := Some [("ok", VBool true)] |>.

(** A session that has answered, with its task in the given planning state. *)
Definition answeredPlan (planning : PlanningState) : AgentState :=
  answered <| activeTaskId := Some "task" |> <| tasks := [("task", demoTask planning)] |>
    <| tools := {| calls := [("w", writtenCall)]; queue := []; active := [] |} |>.

Definition finishedPlan : AgentState := answeredPlan (plan_completed demoPlan "turn").

Definition emitsFinal `{CompletionPort} (r : res RuntimeEffect) : bool :=
  match r with Ok emit_final => true | _ => false end.

Lemma emitsFinal_true `{CompletionPort} r : emitsFinal r = true -> r = Ok emit_final.
Proof. by destruct r as [[]|]. Qed.

(** Only the verdict is evaluated, not the effect type with the guard inside. *)
Lemma finishedPlan_final :
  @decideNextEffect (@completionGuardPort host0) host0 finishedPlan None = Ok emit_final.
Proof. apply emitsFinal_true. vm_compute. reflexivity. Qed.

Lemma final_answer_ends_finished_work_witness :
  @decideNextEffect (@completionGuardPort host0) host0 finishedPlan None = Ok emit_final
  /\ @plan_proved host0 finishedPlan demoPlan.
Proof.
  split; [exact finishedPlan_final|].
  destruct (@final_answer_ends_finished_work host0 finishedPlan None finishedPlan_final)
    as (_ & _ & [Hp|(document & turn' & Hp & Hpr)]); [done|].
  replace document with demoPlan in Hpr; [exact Hpr|].
  change (plan_completed demoPlan "turn" = plan_completed document turn') in Hp. congruence.
Defined.

(** The event that announces the block of an unfinished plan. *)
Definition unfinishedPlan : AgentState := answeredPlan (plan_executing demoPlan auto "turn").

Definition planIdentityJson : val :=
  VObj [("planId", VStr "plan"); ("version", VNum (Fin 1));
        ("structuralDigest", VStr demoDigest)].

Definition blockedEvent : obj :=
  [("type", VStr "completion.blocked"); ("turnId", VStr "turn");
   ("guardVersion", VStr "completion_guard_v2"); ("code", VStr "plan_execution_incomplete");
   ("nextAction", VStr "complete_plan"); ("planning", VStr "executing");
   ("correctionAttempt", VNum (Fin 1)); ("planIdentity", planIdentityJson)].

Definition blockedOnce : AgentState :=
  Eval vm_compute in
    match @reduceCompletionState host0 unfinishedPlan blockedEvent with Ok s => s | _ => demo end.

Lemma blocked_answer_is_corrected_once_witness :
  exists b, @decideCompletion host0 blockedOnce = Ok (guard_blocked b) /\ bd_canCorrect b = false.
Proof.
  eexists. split; [vm_compute; reflexivity|].
  apply (@blocked_answer_is_corrected_once host0 unfinishedPlan blockedEvent blockedOnce blockedOnce).
  - done.
  - by vm_compute.
  - vm_compute. reflexivity.
  - by vm_compute.
  - reflexivity.
  - vm_compute. reflexivity.
  - vm_compute. reflexivity.
Defined.

Definition completedEvent : obj :=
  [("type", VStr "run.completed"); ("turnId", VStr "turn"); ("output", VStr "done");
   ("completionGuardVersion", VStr "completion_guard_v2"); ("planIdentity", planIdentityJson);
   ("outcome", VObj [("version", VNum (Fin 1)); ("status", VStr "completed");
                     ("reasonCode", VStr "completed"); ("knownExternalEffects", VStr "known");
                     ("safeRetry", VBool false); ("recoveryEntry", VStr "none");
                     ("pendingVerification", VBool false)])].

Definition endedPlan : AgentState :=
  Eval vm_compute in
    match @reduceCompletionState host0 finishedPlan completedEvent with Ok s => s | _ => demo end.

