(* ===== verification/Lifecycle.v ===== *)
(** * The lifecycle reducer ([core/lifecycle/reducer.ts])

    Tasks, turns and the life of a plan: drafted, reviewed, approved, executed,
    replanned, completed.  The source keeps private copies of the validators and
    of the evidence projection of [completion.ts]; they are translated here as
    they stand, and [LifecycleProps.v] compares them with those of
    [Completion.v].  A document is the JSON object of the state; the texts the
    source reads from a validated document are read with [textOf].  Setting the
    entry of an absent task to [undefined] leaves the tasks as they were. *)

From S2P Require Import Prelude Js Hash State ApprovalQueue Normalization Recovery Traits Scheduler Completion.
From stdpp Require Import prelude strings list pretty.
From Stdlib Require Import ZArith Lia Ascii.
Open Scope Z_scope.

(** ** Shapes of JSON values *)

Definition hasOnlyKeys (value : obj) (allowed : list string) : bool :=
  forallb (fun key => str_in key allowed) (okeys value).

(** The sorted keys are the sorted names. *)
Definition hasExactKeys (value : obj) (keys : list string) : bool :=
  bool_decide (sort_strings (okeys value) = sort_strings keys).

Definition planStatus (value : val) : bool :=
  isText value (fun s => str_in s ["pending"; "in_progress"; "completed"; "skipped"]).

Definition isPlanStep (value : obj) : bool :=
  hasExactKeys value (if ohas "note" value then ["id"; "title"; "status"; "note"]
                      else ["id"; "title"; "status"])
  && isText (get value "id") SAFE_STEP_ID
  && isText (get value "title") (fun t => (t =s trim t) && lengthWithin 1 160 t
                                          && negb (hasLineBreak t))
  && planStatus (get value "status")
  && match get value "note" with VUndef | VStr _ => true | _ => false end.

Definition textOrAbsent (v : val) : bool := match v with VUndef | VStr _ => true | _ => false end.

Definition isAgentPlanTransport (value : val) : bool :=
  match isRecord value with
  | None => false
  | Some o =>
      hasExactKeys o ["name"; "description"; "status"; "steps"]
      && isText (get o "name") (fun _ => true)
      && isText (get o "description") (fun _ => true)
      && planStatus (get o "status")
      && isArrayOf (get o "steps") (fun step =>
           hasOnlyKeys step ["id"; "step"; "status"; "note"]
           && isText (get step "step") (fun _ => true)
           && planStatus (get step "status")
           && textOrAbsent (get step "id") && textOrAbsent (get step "note"))
  end.

Definition emptyPlanCompletionEvidence : obj :=
  [("schemaVersion", VNum (Fin 1)); ("verification", VArr []); ("execution", VArr []);
   ("skipped", VArr []); ("unresolved", VArr [])].

Definition isPlanCompletionEvidence (value : val) : bool :=
  match isRecord value with
  | None => false
  | Some o =>
      hasExactKeys o ["schemaVersion"; "verification"; "execution"; "skipped"; "unresolved"]
      && is_num (get o "schemaVersion") 1
      && isArrayOf (get o "verification") (fun entry =>
           hasExactKeys entry ["verificationId"; "outcome"]
           && isText (get entry "verificationId") SAFE_REFERENCE
           && (is_str (get entry "outcome") "passed" || is_str (get entry "outcome") "waived"))
      && isArrayOf (get o "execution") (fun entry =>
           hasExactKeys entry ["toolCallId"; "outcome"]
           && isText (get entry "toolCallId") SAFE_REFERENCE
           && is_str (get entry "outcome") "succeeded")
      && isArrayOf (get o "skipped") (fun entry =>
           hasExactKeys entry ["stepId"; "reasonCode"]
           && isText (get entry "stepId") SAFE_REFERENCE
           && isText (get entry "reasonCode") SAFE_REASON_CODE)
      && isArrayOf (get o "unresolved") (fun entry =>
           hasExactKeys entry ["kind"; "referenceId"]
           && (is_str (get entry "kind") "failure" || is_str (get entry "kind") "approval")
           && isText (get entry "referenceId") SAFE_REFERENCE)
  end.

Definition computePlanStructuralDigest (document : obj) : string :=
  let normalize value := trim (joinCrLf value) in
  sha256Hex (default "" (json_stringify (VObj
    [("title", VStr (normalize (textOf document "title")));
     ("bodyMarkdown", VStr (normalize (textOf document "bodyMarkdown")));
     ("steps", VArr (List.map (fun step =>
        VObj [("id", VStr (textOf step "id")); ("title", VStr (normalize (textOf step "title")))])
        (stepsOf document)))]))).

Definition isPlanArtifactRef (value : val) (plan : obj) : bool :=
  match isRecord value with
  | None => false
  | Some o =>
      let planId := textOf plan "planId" in
      let version := default 0 (numberField plan "version") in
      hasExactKeys o ["artifactId"; "taskId"; "planId"; "version"; "fileName"; "relativePath";
                      "displayPath"; "structuralDigest"; "byteLength"]
      && is_str (get o "artifactId") (planId +:+ ":v" +:+ pretty version)
      && isText (get o "taskId") SAFE_SEGMENT
      && is_str (get o "planId") planId
      && is_num (get o "version") version
      && is_str (get o "fileName") ("v" +:+ pretty version +:+ ".md")
      && isText (get o "relativePath") str_nonempty
      && isText (get o "displayPath") str_nonempty
      && is_str (get o "structuralDigest") (textOf plan "structuralDigest")
      && isIntegerFrom (get o "byteLength") 0
  end.

(** The checks of a document before its digest is recomputed. *)
Definition documentChecks (value : obj) : bool :=
  hasOnlyKeys value
    ["planSchemaVersion"; "planId"; "version"; "title"; "bodyMarkdown"; "steps";
     "structuralDigest"; "createdAtTurnId"; "updatedAtTurnId"; "supersedesPlanVersion";
     "replanReason"; "completionEvidence"; "artifact"]
  && is_num (get value "planSchemaVersion") 2
  && isText (get value "planId") SAFE_SEGMENT
  && isIntegerFrom (get value "version") 1
  && isText (get value "title") (fun t => (t =s trim t) && lengthWithin 1 120 t
                                          && negb (hasLineBreak t))
  && isText (get value "bodyMarkdown") (fun t => (t =s trim t) && lengthWithin 20 30000 t)
  && isArrayOf (get value "steps") isPlanStep
  && (1 <=? length (stepsOf value))%nat && (length (stepsOf value) <=? 12)%nat
  && (length (dedupe (List.map (fun step => textOf step "id") (stepsOf value)))
      =? length (stepsOf value))%nat
  && isText (get value "structuralDigest") isHex64
  && isText (get value "createdAtTurnId") str_nonempty
  && isText (get value "updatedAtTurnId") str_nonempty
  && isPlanCompletionEvidence (get value "completionEvidence")
  && (is_undef (get value "supersedesPlanVersion")
      || isIntegerFrom (get value "supersedesPlanVersion") 1)
  && (is_undef (get value "replanReason")
      || isText (get value "replanReason") (lengthWithin 0 500)).

Definition isPlanDocument (value : obj) : bool :=
  documentChecks value
  && is_str (get value "structuralDigest") (computePlanStructuralDigest value)
  && (is_undef (get value "artifact") || isPlanArtifactRef (get value "artifact") value).

(** ** Plans in transport *)

(** [a === b]; two objects or arrays of different origin are never the same. *)
Definition sameValue (a b : val) : bool :=
  match a, b with
  | VStr s, VStr t => s =s t
  | VNum x, VNum y => neqb x y
  | VBool x, VBool y => Bool.eqb x y
  | VUndef, VUndef | VNull, VNull => true
  | _, _ => false
  end.

(** The step objects of a plan in transport. *)
Definition transportSteps (value : val) : list obj := stepsOf (jsonRecord value).

Definition candidateMatchesStep (candidate step : obj) : bool :=
  sameValue (get candidate "id") (get step "id")
  && sameValue (get candidate "step") (get step "title")
  && sameValue (get candidate "status") (get step "status")
  && sameValue (get candidate "note") (get step "note")
  && Bool.eqb (ohas "note" candidate) (negb (is_undef (get step "note"))).

Fixpoint forallb2 {A B} (f : A -> B -> bool) (l : list A) (r : list B) : bool :=
  match l, r with
  | [], [] => true
  | a :: l', b :: r' => f a b && forallb2 f l' r'
  | _, _ => false
  end.

Definition agentPlanTransportMatchesDocument (value : val) (document : obj) : bool :=
  let plan := jsonRecord value in
  isAgentPlanTransport value
  && sameValue (get plan "name") (get document "title")
  && sameValue (get plan "description") (get document "bodyMarkdown")
  && is_str (get plan "status") "pending"
  && forallb2 candidateMatchesStep (transportSteps value) (stepsOf document).

(** [...(note === undefined ? {} : { note })]. *)
Definition noteField (note : val) : obj := if is_undef note then [] else [("note", note)].

Definition stepOfCandidate (id : val) (candidate : obj) : obj :=
  [("id", id); ("title", get candidate "step"); ("status", get candidate "status")]
  ++ noteField (get candidate "note").

(** The loop over the candidates and the steps of the document. *)
Fixpoint stepsOfUpdate (candidates existing : list obj) : option (list obj) :=
  match candidates with
  | [] => Some []
  | candidate :: rest =>
      match get candidate "id", existing with
      | VUndef, _ | VNull, _ | _, [] => None
      | id, known :: existing' =>
          let step := stepOfCandidate id candidate in
          if isPlanStep step && sameValue (get step "id") (get known "id")
             && sameValue (get step "title") (get known "title")
          then match stepsOfUpdate rest existing' with
               | Some steps => Some (step :: steps) | None => None end
          else None
      end
  end.

Definition planStepsFromAgentPlanUpdate (value : val) (document : obj) : option (list obj) :=
  let plan := jsonRecord value in
  if isAgentPlanTransport value && sameValue (get plan "name") (get document "title")
     && sameValue (get plan "description") (get document "bodyMarkdown")
     && (length (transportSteps value) =? length (stepsOf document))%nat
  then
    match stepsOfUpdate (transportSteps value) (stepsOf document) with
    | Some steps =>
        if (length (dedupe (List.map (fun step => textOf step "id") steps)) =? length steps)%nat
        then Some steps else None
    | None => None
    end
  else None.

Definition planDocumentToAgentPlan (document : obj) : obj :=
  [("name", get document "title"); ("description", get document "bodyMarkdown");
   ("status", VStr "pending");
   ("steps", VArr (List.map (fun step =>
      VObj ([("id", get step "id"); ("step", get step "title"); ("status", get step "status")]
            ++ noteField (get step "note"))) (stepsOf document)))].

Definition ARTIFACT_FIELDS : list string :=
  ["artifactId"; "taskId"; "planId"; "version"; "fileName"; "relativePath"; "displayPath";
   "structuralDigest"; "byteLength"].

(** [left] is present; [right] is the field of a document. *)
Definition samePlanArtifactRef (left : obj) (right : val) : bool :=
  match right with
  | VObj r => forallb (fun f => sameValue (get left f) (get r f)) ARTIFACT_FIELDS
  | _ => false
  end.

(** [new Map(steps.map((step) => [step.id, step]))]. *)
Definition stepsById (steps : list obj) : ordmap obj :=
  List.fold_left (fun m step => oset (textOf step "id") step m) steps [].

Definition mergePlanStep (updates : ordmap obj) (step : obj) : obj :=
  match oget (textOf step "id") updates with
  | Some update =>
      oset "note" (nullish (get update "note") (get step "note"))
        (oset "status" (get update "status") step)
  | None => step
  end.

Definition mergePlanSteps (current incoming : list obj) : list obj :=
  List.map (mergePlanStep (stepsById incoming)) current.

Definition terminalStep (step : obj) : bool :=
  is_str (get step "status") "completed" || is_str (get step "status") "skipped".

Definition hasTerminalStepRollback (existing updated : list obj) : bool :=
  existsb (fun step =>
      terminalStep step
      && negb (match oget (textOf step "id") (stepsById updated) with
               | Some u => sameValue (get u "status") (get step "status")
               | None => false
               end)) existing.

Definition optField (f : string) (v : option val) : obj :=
  match v with Some x => [(f, x)] | None => [] end.

Definition planDocumentFromTransport (plan : val) (payload : obj) (turnId : string)
    (supersedesPlanVersion : option Z) (replanReason : option string) : option obj :=
  match nonEmptyStringField payload "planId", numberField payload "version",
        nonEmptyStringField payload "structuralHash", nonEmptyStringField payload "taskId" with
  | Some planId, Some version, Some structuralDigest, Some _ =>
      if isAgentPlanTransport plan then
        let steps := List.map (fun step =>
            VObj (stepOfCandidate (VStr (textOf step "id")) step)) (transportSteps plan) in
        let document : obj :=
          [("planSchemaVersion", VNum (Fin 2)); ("planId", VStr planId);
           ("version", VNum (Fin version)); ("title", get (jsonRecord plan) "name");
           ("bodyMarkdown", get (jsonRecord plan) "description"); ("steps", VArr steps);
           ("createdAtTurnId", VStr turnId); ("updatedAtTurnId", VStr turnId);
           ("completionEvidence", VObj emptyPlanCompletionEvidence);
           ("structuralDigest", VStr structuralDigest)]
          ++ optField "artifact" (option_map VObj (recordField payload "artifact"))
          ++ optField "supersedesPlanVersion"
               (option_map (fun z => VNum (Fin z)) supersedesPlanVersion)
          ++ optField "replanReason" (option_map VStr replanReason) in
        if isPlanDocument document then Some document else None
      else None
  | _, _, _, _ => None
  end.

(** ** The session's facts *)

(** [state.activeTaskId ? state.tasks[state.activeTaskId] : undefined]. *)
Definition activeTask (state : AgentState) : option AgentTaskState :=
  match opt_nonempty (activeTaskId state) with
  | Some id => oget id (tasks state)
  | None => None
  end.

Definition activeRecoveryFailureIds (state : AgentState) (includeExhausted : bool) : list string :=
  List.filter (fun id =>
      match oget id (j_failures (toolRecovery state)) with
      | Some failure =>
          (bool_decide (rf_status failure = rf_unresolved)
           || (includeExhausted && bool_decide (rf_status failure = rf_exhausted)))
          && opt_str_eqb (rf_taskId failure) (activeTaskId state)
          && opt_str_eqb (rf_turnId failure) (Some (turnId (turn state)))
      | None => false
      end) (j_order (toolRecovery state)).

Definition samePlanIdentity (left : option PlanIdentity) (right : option DocumentIdentity) : bool :=
  match left, right with
  | Some l, Some r =>
      is_str (di_planId r) (pi_planId l) && is_num (di_version r) (pi_version l)
      && is_str (di_structuralDigest r) (pi_structuralDigest l)
  | _, _ => false
  end.

Definition planningIdentity (state : AgentState) : option DocumentIdentity :=
  match activeTask state with
  | Some task =>
      match planningDocument (task_planning task) with
      | Some document =>
          Some {| di_planId := get document "planId"; di_version := get document "version";
                  di_structuralDigest := get document "structuralDigest" |}
      | None => None
      end
  | None => None
  end.

Definition belongsToActiveTask (state : AgentState) (taskId : option string) : bool :=
  match taskId, activeTaskId state with
  | Some t, Some a => t =s a
  | _, _ => true
  end.

Definition isResolvedRecoveryFailure (state : AgentState) (call : AgentToolCallState) : bool :=
  match tc_outcome call with
  | Some outcome =>
      match recordField outcome "lineage" with
      | Some lineage =>
          match stringField lineage "failureInstanceId" with
          | Some id => match oget id (j_failures (toolRecovery state)) with
                       | Some failure => bool_decide (rf_status failure = rf_recovered)
                       | None => false
                       end
          | None => false
          end
      | None => false
      end
  | None => false
  end.

(** The calls with an effect of the active task, but for recovered failures. *)
Definition effectCalls (state : AgentState) : list AgentToolCallState :=
  List.filter (fun call => hasSideEffect call && belongsToActiveTask state (tc_taskId call)
                           && (is_succeeded call || negb (isResolvedRecoveryFailure state call)))
    (callsOf state).

Section Host.
Context `{JsHost}.

Definition unresolvedOf (state : AgentState) (call : AgentToolCallState) : list obj :=
  (if bool_decide (tc_status call = t_awaiting_approval)
   then [[("kind", VStr "approval"); ("referenceId", VStr (tc_toolCallId call))]] else [])
  ++ (if unsuccessful (tc_status call) && hasSideEffect call
         && negb (isResolvedRecoveryFailure state call)
      then [[("kind", VStr "failure"); ("referenceId", VStr (tc_toolCallId call))]] else []).

Definition previousSkipped (state : AgentState) : obj :=
  match activeTask state with
  | Some task =>
      match task_planning task with
      | plan_executing document _ _ =>
          skippedReasons (entries (jsonRecord (get document "completionEvidence")) "skipped")
      | _ => []
      end
  | None => []
  end.

Definition projectPlanCompletionEvidence (state : AgentState) (steps : list obj)
    (skippedReasonCodes : obj) : obj :=
  let recordTask record := belongsToActiveTask state (stringField record "taskId") in
  let verification' :=
    sortByText (fun e => textOf e "verificationId")
      (List.map (fun record => [("verificationId", VStr (textOf record "verificationId"));
                                ("outcome", get record "status")])
         (List.filter (fun record => recordTask record && passedOrWaived record)
            (ovalues (verification state)))) in
  let execution :=
    sortByText (fun e => textOf e "toolCallId")
      (List.map (fun call => [("toolCallId", VStr (tc_toolCallId call));
                              ("outcome", VStr "succeeded")])
         (List.filter (fun call => is_succeeded call && resultOk call) (effectCalls state))) in
  let unresolved :=
    sortByText (fun e => textOf e "kind" +:+ ":" +:+ textOf e "referenceId")
      (List.flat_map (unresolvedOf state)
         (List.filter (fun call => belongsToActiveTask state (tc_taskId call)) (callsOf state))) in
  let skipped :=
    sortByText (fun e => textOf e "stepId")
      (List.map (fun step =>
          [("stepId", VStr (textOf step "id"));
           ("reasonCode", nullish (get skippedReasonCodes (textOf step "id"))
                            (nullish (get (previousSkipped state) (textOf step "id")) (VStr "")))])
         (List.filter (fun step => is_str (get step "status") "skipped") steps)) in
  [("schemaVersion", VNum (Fin 1)); ("verification", VArr (List.map VObj verification'));
   ("execution", VArr (List.map VObj execution)); ("skipped", VArr (List.map VObj skipped));
   ("unresolved", VArr (List.map VObj unresolved))].

Definition awaitingStatus (s : ToolCallStatus) : bool :=
  match s with
  | t_awaiting_user_input | t_awaiting_review | t_awaiting_approval | t_awaiting_auto_review => true
  | _ => false
  end.

Definition planCompletionBlocker (state : AgentState) (evidence : obj)
  : option PlanCompletionBlocker :=
  if match interactions state with idle => false | _ => true end
     || existsb (fun call => belongsToActiveTask state (tc_taskId call)
                             && awaitingStatus (tc_status call)) (callsOf state)
  then Some plan_unresolved_blocker
  else if existsb (fun record => belongsToActiveTask state (stringField record "taskId")
                                 && is_str (get record "mode") "required"
                                 && negb (passedOrWaived record))
            (ovalues (verification state))
  then Some plan_verification_required
  else if existsb (fun entry => negb (SAFE_REASON_CODE (js_string (get entry "reasonCode"))))
            (entries evidence "skipped")
  then Some plan_skipped_reason_required
  else if match entries evidence "unresolved" with [] => false | _ => true end
  then Some plan_unresolved_blocker
  else if (match activeTask state with
           | Some task => task_sideEffectsStarted task | None => false end
           && match entries evidence "execution" with [] => true | _ => false end)
          || existsb (fun call => negb (is_succeeded call) || negb (resultOk call)
                                  || negb (listedExecution evidence call)) (effectCalls state)
  then Some plan_effect_evidence_required
  else None.

Definition planCompletionEvidenceMatchesRuntime (state : AgentState) (steps : list obj)
    (evidence : val) : bool :=
  isPlanCompletionEvidence evidence
  && opt_str_eqb
       (json_stringify (VObj (projectPlanCompletionEvidence state steps
          (skippedReasons (entries (jsonRecord evidence) "skipped")))))
       (json_stringify evidence).

(** ** One definition per event *)

(** [updateTasks(state, id, (current) => (current ? f(current) : current!))]. *)
Definition updateTask (state : AgentState) (taskId : string)
    (f : AgentTaskState -> AgentTaskState) : AgentState :=
  match oget taskId (tasks state) with
  | Some current => updateTasks state taskId (fun _ => f current)
  | None => state
  end.

Definition task_started (state : AgentState) (payload : obj) : AgentState :=
  match nonEmptyStringField payload "taskId", nonEmptyStringField payload "turnId",
        stringField payload "userGoal" with
  | Some taskId, Some turnId, Some userGoal =>
      let task := {| task_taskId := taskId; task_userGoal := userGoal; task_status := task_active;
                     task_startedAtTurnId := turnId; task_completedAtTurnId := None;
                     task_sideEffectsStarted := false; task_planning := building_without_plan;
                     task_executionMode := None; task_planHistory := [] |} in
      state <| activeTaskId := Some taskId |> <| tasks := oset taskId task (tasks state) |>
        <| interactions := idle |>
  | _, _, _ => state
  end.

(** The active task [taskId] ends as [ended]; its failures are closed. *)
Definition endTask (state : AgentState) (taskId : string) (ended : AgentTaskState) : AgentState :=
  state <| toolRecovery := closeToolRecoveryScope (toolRecovery state) (scope_task taskId) |>
    <| activeTaskId := None |> <| tasks := oset taskId ended (tasks state) |>.

Definition task_completed_event (state : AgentState) (payload : obj) : AgentState :=
  match nonEmptyStringField payload "taskId", nonEmptyStringField payload "turnId" with
  | Some taskId, Some turnId =>
      match oget taskId (tasks state) with
      | Some current =>
          if opt_str_eqb (activeTaskId state) (Some taskId)
          then endTask state taskId (current <| task_status := task_completed |>
                 <| task_completedAtTurnId := Some turnId |> <| task_executionMode := None |>)
          else state
      | None => state
      end
  | _, _ => state
  end.

Definition task_cancelled_event (state : AgentState) (payload : obj) : AgentState :=
  match nonEmptyStringField payload "taskId" with
  | Some taskId =>
      match oget taskId (tasks state) with
      | Some current =>
          if opt_str_eqb (activeTaskId state) (Some taskId)
          then endTask state taskId (current <| task_status := task_cancelled |>
                 <| task_executionMode := None |>)
          else state
      | None => state
      end
  | None => state
  end.

Definition turn_started (state : AgentState) (payload : obj) : AgentState :=
  match nonEmptyStringField payload "turnId" with
  | Some turnId' =>
      let preservePlannedCorrection :=
        opt_str_eqb (guardVersion (completionGuard state)) (Some "completion_guard_v2")
        && samePlanIdentity (planIdentity (completionGuard state)) (planningIdentity state) in
      state
        <| toolRecovery := closeToolRecoveryScope (toolRecovery state)
                             (scope_turn (turnId (turn state))) |>
        <| completionGuard :=
             if preservePlannedCorrection then completionGuard state
             else {| correctionAttempts := 0; guardVersion := None; planIdentity := None |} |>
        <| terminalOutcome := None |>
        <| turn := {| turnId := turnId'; turnIndex := fadd (turnIndex (turn state)) 1;
                      turn_status := turn_active; abortReason := None; abortCause := None |} |>
  | None => state
  end.

Definition planning_entered (state : AgentState) (payload : obj) : AgentState :=
  match nonEmptyStringField payload "taskId" with
  | Some taskId =>
      if opt_str_eqb (activeTaskId state) (Some taskId) then
        match oget taskId (tasks state) with
        | Some task =>
            match task_status task, task_sideEffectsStarted task, task_planning task with
            | task_active, false, building_without_plan =>
                updateTask state taskId (fun current => current <| task_planning := planning_empty |>)
            | _, _, _ => state
            end
        | None => state
        end
      else state
  | None => state
  end.

(** The document of a draft. *)
Definition draftOf (planning : PlanningState) : option obj :=
  match planning with
  | planning_draft document _ | replanning_draft document _ _ _ => Some document
  | _ => None
  end.

(** The identity fields every plan event carries. *)
Record PlanEventIdentity := {
  pe_planId : string;
  pe_version : Z;
  pe_structuralDigest : string;
  pe_interactionId : string;
  pe_toolCallId : string }.

Definition reviewIdentity (payload : obj) : option PlanEventIdentity :=
  match nonEmptyStringField payload "planId", numberField payload "version",
        nonEmptyStringField payload "structuralDigest",
        nonEmptyStringField payload "interactionId", nonEmptyStringField payload "toolCallId" with
  | Some planId, Some version, Some digest, Some interactionId, Some toolCallId =>
      Some {| pe_planId := planId; pe_version := version; pe_structuralDigest := digest;
              pe_interactionId := interactionId; pe_toolCallId := toolCallId |}
  | _, _, _, _, _ => None
  end.

(** [planId === document.planId && version === ... && structuralDigest === ...]. *)
Definition namesDocument (planId : string) (version : Z) (digest : string) (document : obj) : bool :=
  is_str (get document "planId") planId && is_num (get document "version") version
  && is_str (get document "structuralDigest") digest.

Fixpoint numberedTitles (index : Z) (steps : list obj) : list string :=
  match steps with
  | [] => []
  | step :: rest => (pretty index +:+ ". " +:+ js_string (get step "title"))
                    :: numberedTitles (index + 1) rest
  end.

Definition newline : string := chr 10.

Definition planSummaryOf (document : obj) : string :=
  js_string (get document "title") +:+ newline +:+ newline
  +:+ js_join newline (numberedTitles 1 (stepsOf document)).

Definition plan_review_requested (state : AgentState) (payload : obj) : AgentState :=
  match activeTask state with
  | None => state
  | Some task =>
      if negb (opt_str_eqb (Some (task_taskId task)) (nonEmptyStringField payload "taskId"))
      then state
      else
        match draftOf (task_planning task), reviewIdentity payload with
        | Some document, Some ids =>
            if isPlanDocument document
               && namesDocument (pe_planId ids) (pe_version ids) (pe_structuralDigest ids) document
               && agentPlanTransportMatchesDocument (get payload "plan") document
            then
              let next := updateTask state (task_taskId task) (fun current =>
                  current <| task_planning :=
                    plan_awaiting_review document (pe_interactionId ids) (pe_toolCallId ids) |>) in
              let nextTools :=
                match oget (pe_toolCallId ids) (calls (tools next)) with
                | Some call =>
                    (tools next) <| calls := oset (pe_toolCallId ids)
                       (call <| tc_status := t_awaiting_review |>) (calls (tools next)) |>
                | None => tools next
                end in
              next <| tools := nextTools |>
                <| interactions :=
                     awaiting_review (pe_interactionId ids) (pe_toolCallId ids) (pe_planId ids)
                       (pe_version ids) (pe_structuralDigest ids)
                       (planDocumentToAgentPlan document) (planSummaryOf document)
                       (recordField document "artifact") |>
            else state
        | _, _ => state
        end
  end.

(** The event answers the review that is open. *)
Definition answersReview (ids : PlanEventIdentity) (interaction : AgentInteractionState) : bool :=
  match interaction with
  | awaiting_review interactionId toolCallId planId version digest _ _ _ =>
      (interactionId =s pe_interactionId ids) && (pe_toolCallId ids =s toolCallId)
      && (pe_planId ids =s planId) && (pe_version ids =? version)
      && (pe_structuralDigest ids =s digest)
  | _ => false
  end.

Definition reviewMode (payload : obj) : option InteractionMode :=
  match stringField payload "executionMode" with
  | Some m => if m =s "auto" then Some auto
              else if m =s "accept_edits" then Some accept_edits else None
  | None => None
  end.

Definition plan_approved (state : AgentState) (payload : obj) : AgentState :=
  match activeTask state with
  | Some task =>
      match task_planning task, reviewIdentity payload, reviewMode payload with
      | plan_awaiting_review document _ _, Some ids, Some executionMode =>
          if answersReview ids (interactions state) then
            let approved := task <| task_executionMode := Some executionMode |>
                  <| task_planning := plan_executing document executionMode
                                        (turnId (turn state)) |> in
            state <| tasks := oset (task_taskId task) approved (tasks state) |>
              <| interactions := idle |>
          else state
      | _, _, _ => state
      end
  | None => state
  end.

(** [plan.revision_requested] and [plan.review_cancelled]; [field] holds the feedback. *)
Definition plan_review_declined (state : AgentState) (payload : obj) (field : string)
  : AgentState :=
  match activeTask state with
  | Some task =>
      match task_planning task, reviewIdentity payload, stringField payload field with
      | plan_awaiting_review document _ _, Some ids, Some feedback =>
          if answersReview ids (interactions state) then
            (updateTask state (task_taskId task) (fun current =>
                current <| task_planning := planning_draft document (Some feedback) |>))
              <| interactions := idle |>
          else state
      | _, _, _ => state
      end
  | None => state
  end.

Definition versionOf (document : obj) : num :=
  match get document "version" with VNum n => n | _ => NaN end.

(** [resolvesFailureIds.length === 0 ? next : { ...next, toolRecovery: ... }]. *)
Definition withPlanProgress (state next : AgentState) (kind : ProgressKind) (referenceId : string)
    (resolvesFailureIds : list string) : AgentState :=
  match resolvesFailureIds with
  | [] => next
  | _ => next <| toolRecovery := recordToolOwnedProgress (toolRecovery state)
                   {| pr_kind := kind; pr_referenceId := referenceId;
                      pr_resolvesFailureIds := Some resolvesFailureIds |} |>
  end.

Definition plan_replan_requested (state : AgentState) (payload : obj) : AgentState :=
  match activeTask state with
  | Some task =>
      match task_planning task, numberField payload "supersedesPlanVersion",
            nonEmptyStringField payload "reason" with
      | plan_executing document _ _, Some supersedes, Some reason =>
          if isSafeInteger supersedes then
            let next :=
              (updateTask state (task_taskId task) (fun current =>
                  current <| task_planning := replanning_draft document supersedes reason None |>
                    <| task_planHistory := task_planHistory current ++ [document] |>))
                <| interactions := idle |> in
            withPlanProgress state next pk_replanned
              (js_string (get document "planId") +:+ ":"
                 +:+ js_string (VNum (nadd (versionOf document) (Fin 1))))
              (activeRecoveryFailureIds state true)
          else state
      | _, _, _ => state
      end
  | None => state
  end.

(** [value === document.field] for an optional number. *)
Definition sameOptNumber (value : option Z) (field : val) : bool :=
  match value with Some z => is_num field z | None => is_undef field end.

(** [version === document.version + 1]. *)
Definition nextVersion (document : obj) (version : Z) : bool :=
  neqb (Fin version) (nadd (versionOf document) (Fin 1)).

Definition matchesNewRevisionScope (planning : PlanningState) (planId : string) (version : Z)
    (supersedesPlanVersion : option Z) (replanReason : option string) : bool :=
  match planning with
  | planning_draft document _ =>
      is_str (get document "planId") planId && nextVersion document version
      && sameOptNumber supersedesPlanVersion (get document "supersedesPlanVersion")
      && eq_opt_str (get document "replanReason") replanReason
  | replanning_draft document supersedes reason _ =>
      nleb (Fin supersedes) (versionOf document)
      && (neqb (versionOf document) (Fin supersedes)
          || (is_num (get document "supersedesPlanVersion") supersedes
              && is_str (get document "replanReason") reason))
      && is_str (get document "planId") planId && nextVersion document version
      && sameOptNumber supersedesPlanVersion (VNum (Fin supersedes))
      && eq_opt_str (VStr reason) replanReason
  | _ => (version =? 1) && negb (is_some supersedesPlanVersion) && negb (is_some replanReason)
  end.

Definition effectiveSupersedesPlanVersion (planning : PlanningState) (named : option Z)
  : option Z :=
  match named, planning with
  | Some z, _ => Some z
  | None, replanning_draft _ supersedes _ _ => Some supersedes
  | None, planning_draft document _ => numberField document "supersedesPlanVersion"
  | None, _ => None
  end.

Definition effectiveReplanReason (planning : PlanningState) (named : option string)
  : option string :=
  match named, planning with
  | Some s, _ => Some s
  | None, replanning_draft _ _ reason _ => Some reason
  | None, planning_draft document _ => stringField document "replanReason"
  | None, _ => None
  end.

Definition draftable (planning : PlanningState) : bool :=
  match planning with
  | planning_empty | planning_draft _ _ | replanning_draft _ _ _ _ => true
  | _ => false
  end.

(** The draft names the document it revises. *)
Definition reusedDocument (planning : PlanningState) (planId : string) (version : Z)
    (structuralHash : string) : option obj :=
  match draftOf planning with
  | Some document =>
      if namesDocument planId version structuralHash document then Some document else None
  | None => None
  end.

(** The checks on a draft that repeats its document; the state is kept either way. *)
Definition sameDraft (plan : val) (artifact document : obj) (supersedes : option Z)
    (reason : option string) : bool :=
  isPlanDocument document && agentPlanTransportMatchesDocument plan document
  && samePlanArtifactRef artifact (get document "artifact")
  && sameOptNumber supersedes (get document "supersedesPlanVersion")
  && eq_opt_str (get document "replanReason") reason.

(** The planning state of an accepted new revision. *)
Definition draftedPlanning (planning : PlanningState) (document : obj) (supersedes : option Z)
    (reason : option string) : PlanningState :=
  match planning, supersedes, reason with
  | replanning_draft _ _ _ _, Some z, Some r => replanning_draft document z r None
  | _, _, _ => planning_draft document None
  end.

Definition plan_drafted (state : AgentState) (payload : obj) : AgentState :=
  match activeTask state, nonEmptyStringField payload "taskId" with
  | Some task, Some taskId =>
      if (task_taskId task =s taskId) && bool_decide (task_status task = task_active)
         && draftable (task_planning task)
      then
        let planning := task_planning task in
        match nonEmptyStringField payload "planId", numberField payload "version",
              nonEmptyStringField payload "structuralHash", recordField payload "artifact" with
        | Some planId, Some version, Some structuralHash, Some artifact =>
            let supersedes := numberField payload "supersedesPlanVersion" in
            let reason := stringField payload "replanReason" in
            match reusedDocument planning planId version structuralHash with
            | Some document =>
                if negb (sameDraft (get payload "plan") artifact document supersedes reason)
                then state else state
            | None =>
            if negb (matchesNewRevisionScope planning planId version supersedes reason)
                    || negb (is_str (get artifact "taskId") taskId)
            then state
            else
              let supersedes' := effectiveSupersedesPlanVersion planning supersedes in
              let reason' := effectiveReplanReason planning reason in
              match planDocumentFromTransport (get payload "plan") payload (turnId (turn state))
                      supersedes' reason' with
              | Some document =>
                  if isPlanArtifactRef (VObj artifact) document
                  then updateTask state taskId (fun current =>
                         current <| task_planning :=
                           draftedPlanning planning document supersedes' reason' |>)
                  else state
              | None => state
              end
            end
        | _, _, _, _ => state
        end
      else state
  | _, _ => state
  end.

(** The executing plan of the task the event names, with its updated steps; the
    identity of the plan must be the event's and no terminal step goes back. *)
Definition progressOf (state : AgentState) (payload : obj)
  : option (string * AgentTaskState * obj * InteractionMode * string * list obj) :=
  match activeTask state, nonEmptyStringField payload "taskId" with
  | Some task, Some taskId =>
      match (if task_taskId task =s taskId then Some (task_planning task) else None),
            nonEmptyStringField payload "planId", numberField payload "version",
            nonEmptyStringField payload "structuralDigest" with
      | Some (plan_executing document mode approvedAt), Some planId, Some version, Some digest =>
          match planStepsFromAgentPlanUpdate (get payload "plan") document with
          | Some incoming =>
              let updatedSteps := mergePlanSteps (stepsOf document) incoming in
              if namesDocument planId version digest document
                 && negb (hasTerminalStepRollback (stepsOf document) updatedSteps)
              then Some (taskId, task, document, mode, approvedAt, updatedSteps)
              else None
          | None => None
          end
      | _, _, _, _ => None
      end
  | _, _ => None
  end.

(** [{ ...document, steps, completionEvidence }]. *)
Definition withSteps (document : obj) (steps : list obj) (evidence : val) : obj :=
  oset "completionEvidence" evidence (oset "steps" (VArr (List.map VObj steps)) document).

Definition findStep (steps : list obj) (id : string) : option obj :=
  List.find (fun previous => textOf previous "id" =s id) steps.

(** A step skipped by this update. *)
Definition newlySkipped (existing updated : list obj) : bool :=
  existsb (fun step =>
      is_str (get step "status") "skipped"
      && negb (match findStep existing (textOf step "id") with
               | Some previous => is_str (get previous "status") "skipped"
               | None => false
               end)) updated.

Definition plan_progress_updated (state : AgentState) (payload : obj) : AgentState :=
  let evidence := get payload "completionEvidence" in
  match progressOf state payload with
  | Some (taskId, task, document, mode, approvedAt, updatedSteps) =>
      let updatedDocument :=
        oset "completionEvidence" evidence
          (oset "updatedAtTurnId" (VStr (turnId (turn state)))
            (oset "steps" (VArr (List.map VObj updatedSteps)) document)) in
      if planCompletionEvidenceMatchesRuntime state updatedSteps evidence
         && isPlanDocument updatedDocument
      then
        let updated := updateTask state taskId (fun current =>
            match task_planning current with
            | plan_executing _ mode' approvedAt' =>
                current <| task_planning := plan_executing updatedDocument mode' approvedAt' |>
            | _ => current
            end) in
        withPlanProgress state updated pk_skipped
          (default "" (nonEmptyStringField payload "toolCallId"))
          (if newlySkipped (stepsOf document) updatedSteps
           then activeRecoveryFailureIds state false else [])
      else state
  | None => state
  end.

Definition plan_completed_event (state : AgentState) (payload : obj) : AgentState :=
  let evidence := get payload "completionEvidence" in
  match progressOf state payload, isRecord (get payload "plan") with
  | Some (taskId, task, document, mode, approvedAt, updatedSteps), Some plan =>
      let completedDocument := withSteps document updatedSteps evidence in
      if is_str (get plan "status") "completed"
         && negb (existsb unfinishedStep updatedSteps)
         && negb (forallb (fun step => is_str (get step "status") "skipped") updatedSteps)
         && planCompletionEvidenceMatchesRuntime state updatedSteps evidence
         && negb (is_some (planCompletionBlocker state (jsonRecord evidence)))
         && isPlanDocument completedDocument
      then
        updateTask state taskId (fun current =>
            match task_planning current with
            | plan_executing _ _ _ =>
                current <| task_executionMode := None |>
                  <| task_planning := plan_completed completedDocument (turnId (turn state)) |>
            | _ => current
            end)
      else state
  | _, _ => state
  end.

(** Lifecycle facts are reduced only by this fixed core reducer. *)
Definition reduceLifecycleState (state : AgentState) (event : obj) : AgentState :=
  let isType t := ev_type event =s t in
  if isType "task.started" then task_started state event
  else if isType "task.completed" then task_completed_event state event
  else if isType "task.cancelled" then task_cancelled_event state event
  else if isType "turn.started" then turn_started state event
  else if isType "planning.entered" then planning_entered state event
  else if isType "plan.review_requested" then plan_review_requested state event
  else if isType "plan.approved" then plan_approved state event
  else if isType "plan.revision_requested" then plan_review_declined state event "feedback"
  else if isType "plan.review_cancelled" then plan_review_declined state event "reason"
  else if isType "plan.replan_requested" then plan_replan_requested state event
  else if isType "plan.drafted" then plan_drafted state event
  else if isType "plan.progress_updated" then plan_progress_updated state event
  else if isType "plan.completed" then plan_completed_event state event
  else state.
End Host.
