(* ===== verification/LifecycleProps.v ===== *)
(** * The lifecycle reducer's private copies

    [core/lifecycle/reducer.ts] repeats the document validators and the evidence
    projection of [completion.ts].  The two validators agree on every object a
    JavaScript value can be (no key twice), the projections agree, and so do the
    blockers up to the status the reducer's copy leaves out. *)

From S2P Require Import Prelude Js Hash State GrantKey Json Recovery Scheduler Completion CompletionReducer CompletionProps CompletionClaims Lifecycle.
From stdpp Require Import prelude strings list.
From Stdlib Require Import ZArith Lia Ascii Permutation.
Open Scope Z_scope.

(** ** Sorting texts *)

Lemma str_leb_antisym a b : str_leb a b = true -> str_leb b a = true -> a = b.
Proof.
  unfold str_leb. intros H1 H2. rewrite (String.compare_antisym b a) in H2.
  apply String.compare_eq_iff. by destruct (String.compare a b).
Qed.

Lemma str_leb_total a b : str_leb a b = false -> str_leb b a = true.
Proof. unfold str_leb. rewrite (String.compare_antisym b a). by destruct (String.compare a b). Qed.

Lemma str_leb_cons c d a b : str_leb (String c a) (String d b)
  = match Ascii.compare c d with Eq => str_leb a b | Lt => true | Gt => false end.
Proof. unfold str_leb. simpl. by destruct (Ascii.compare c d). Qed.

Lemma str_leb_trans a b c : str_leb a b = true -> str_leb b c = true -> str_leb a c = true.
Proof.
  revert b c. induction a as [|x a IH]; intros [|y b] [|z c]; try done.
  rewrite !str_leb_cons. unfold Ascii.compare.
  destruct (N.compare_spec (N_of_ascii x) (N_of_ascii y)) as [E1|E1|E1];
    destruct (N.compare_spec (N_of_ascii y) (N_of_ascii z)) as [E2|E2|E2];
    destruct (N.compare_spec (N_of_ascii x) (N_of_ascii z)) as [E3|E3|E3];
    try done; try lia. apply IH.
Qed.

Lemma insert_comm x y l :
  insert_by str_leb x (insert_by str_leb y l) = insert_by str_leb y (insert_by str_leb x l).
Proof.
  induction l as [|z l IH]; simpl.
  - destruct (str_leb x y) eqn:E1, (str_leb y x) eqn:E2; try done.
    + by rewrite (str_leb_antisym x y).
    + by rewrite (str_leb_total _ _ E1) in E2.
  - destruct (str_leb y z) eqn:Ey, (str_leb x z) eqn:Ex; simpl; rewrite ?Ex, ?Ey.
    + destruct (str_leb x y) eqn:E1, (str_leb y x) eqn:E2; try done.
      * by rewrite (str_leb_antisym x y).
      * by rewrite (str_leb_total _ _ E1) in E2.
    + destruct (str_leb x y) eqn:E; [|done]. by rewrite (str_leb_trans x y z) in Ex.
    + destruct (str_leb y x) eqn:E; [|done]. by rewrite (str_leb_trans y x z) in Ey.
    + by rewrite IH.
Qed.

Lemma sort_strings_perm l l' : Permutation l l' -> sort_strings l = sort_strings l'.
Proof.
  unfold sort_strings, sort_by. induction 1 as [| ? ? ? ? IH| |]; simpl.
  - done.
  - by rewrite IH.
  - apply insert_comm.
  - congruence.
Qed.

Lemma sort_strings_inv l l' : sort_strings l = sort_strings l' <-> Permutation l l'.
Proof.
  split; [|apply sort_strings_perm]. intros E.
  etransitivity; [apply (sort_by_perm str_leb)|]. fold (sort_strings l). rewrite E.
  symmetry. apply sort_by_perm.
Qed.

Lemma sameValue_str a s : sameValue a (VStr s) = true -> a = VStr s.
Proof. destruct a; try done. simpl. by intros ->%eqb_true. Qed.

(** ** Objects whose keys are distinct, all the way down *)

Fixpoint distinctKeys (v : val) : bool :=
  match v with
  | VArr l => forallb distinctKeys l
  | VObj o =>
      bool_decide (NoDup (List.map fst o))
      && (fix fields (o : list (string * val)) : bool :=
            match o with [] => true | (_, x) :: o' => distinctKeys x && fields o' end) o
  | _ => true
  end.

Lemma distinct_object o : distinctKeys (VObj o) = true <->
  NoDup (okeys o) /\ Forall (fun '(_, x) => distinctKeys x = true) o.
Proof.
  cbn [distinctKeys]. rewrite andb_true_iff, bool_decide_eq_true. unfold okeys.
  assert (Hf : (fix fields (o : list (string * val)) : bool :=
            match o with [] => true | (_, x) :: o' => distinctKeys x && fields o' end) o = true
         <-> Forall (fun '(_, x) => distinctKeys x = true) o); [|tauto].
  induction o as [|[k x] o IH]; [done|]. rewrite andb_true_iff, Forall_cons. tauto.
Qed.

Lemma distinct_get o k : distinctKeys (VObj o) = true -> distinctKeys (get o k) = true.
Proof.
  intros [_ Ho]%distinct_object. unfold get. destruct (oget k o) as [v|] eqn:E; [|done].
  apply oget_In in E. rewrite Forall_forall in Ho. by apply (Ho (k, v)), list_elem_of_In.
Qed.

Lemma distinct_elem l v : distinctKeys (VArr l) = true -> In v l -> distinctKeys v = true.
Proof. simpl. rewrite forallb_forall. auto. Qed.

(** ** The validators agree *)

Section Agree.
Implicit Types (o : obj) (v : val).

Lemma exactKeys_agree o keys : NoDup keys -> NoDup (okeys o) ->
  hasExactKeys o keys = Completion.hasExactKeys o keys.
Proof.
  intros Hk Ho. apply eq_iff_eq_true. unfold hasExactKeys, Completion.hasExactKeys.
  rewrite bool_decide_eq_true, sort_strings_inv, andb_true_iff, Nat.eqb_eq.
  unfold Completion.hasOnlyKeys. rewrite forallb_forall. split.
  - intros Hp. split; [by apply Permutation_length|]. intros k Hin. apply str_in_true.
    by eapply Permutation_in.
  - intros [Hl Hin]. apply NoDup_Permutation_bis.
    + by apply NoDup_ListNoDup.
    + lia.
    + intros k Hk'. by apply str_in_true, Hin.
Qed.

(** What the reducer accepts the guard accepts, distinct keys or not. *)
Lemma exactKeys_impl o keys : hasExactKeys o keys = true -> Completion.hasExactKeys o keys = true.
Proof.
  unfold hasExactKeys, Completion.hasExactKeys, Completion.hasOnlyKeys.
  rewrite bool_decide_eq_true, sort_strings_inv, andb_true_iff, Nat.eqb_eq, forallb_forall.
  intros Hp. split; [by apply Permutation_length|]. intros k Hin. apply str_in_true.
  by eapply Permutation_in.
Qed.

Lemma isArrayOf_impl v (f g : obj -> bool) : (forall o, f o = true -> g o = true) ->
  isArrayOf v f = true -> isArrayOf v g = true.
Proof.
  intros Hfg. destruct v as [| | | | |l|]; try done. simpl. rewrite !forallb_forall.
  intros Hl w Hw. specialize (Hl w Hw). destruct w; simpl in *; auto.
Qed.

Lemma isArrayOf_agree v (f g : obj -> bool) : distinctKeys v = true ->
  (forall o, distinctKeys (VObj o) = true -> f o = g o) -> isArrayOf v f = isArrayOf v g.
Proof.
  intros Hv Hfg. destruct v as [| | | | |l|]; try done. simpl.
  assert (Hl : forall w, In w l -> distinctKeys w = true) by (by apply forallb_forall).
  clear Hv. induction l as [|w l IH]; [done|]. simpl.
  rewrite IH by (intros; apply Hl; by right). f_equal.
  pose proof (Hl w (or_introl eq_refl)). destruct w; simpl; auto.
Qed.

Lemma oneOfTwo v a b : is_str v a || is_str v b = isText v (fun s => str_in s [a; b]).
Proof. destruct v; simpl; try done. by rewrite orb_false_r. Qed.

Ltac nodup_keys := apply (bool_decide_unpack (NoDup _)); vm_compute; reflexivity.
Ltac exact_keys :=
  rewrite exactKeys_agree; [|nodup_keys|by eapply distinct_object].

Lemma isPlanStep_agree o : distinctKeys (VObj o) = true ->
  isPlanStep o = Completion.isPlanStep o.
Proof.
  intros Ho. unfold isPlanStep, Completion.isPlanStep.
  destruct (ohas "note" o); by exact_keys.
Qed.

Lemma evidence_agree v : distinctKeys v = true ->
  isPlanCompletionEvidence v = Completion.isPlanCompletionEvidence v.
Proof.
  intros Hv. unfold isPlanCompletionEvidence, Completion.isPlanCompletionEvidence.
  destruct v as [| | | | | |o]; simpl; try done. exact_keys.
  repeat apply (f_equal2 andb); try done; (apply isArrayOf_agree; [by apply distinct_get|]);
    intros e He; exact_keys; rewrite ?oneOfTwo; done.
Qed.

Lemma artifact_agree v plan : distinctKeys v = true ->
  isPlanArtifactRef v plan = Completion.isPlanArtifactRef v plan.
Proof.
  intros Hv. unfold isPlanArtifactRef, Completion.isPlanArtifactRef.
  destruct v as [| | | | | |o]; simpl isRecord; cbv iota; try done. by exact_keys.
Qed.

Lemma document_agree o : distinctKeys (VObj o) = true ->
  isPlanDocument o = Completion.isPlanDocument o.
Proof.
  intros Ho. unfold isPlanDocument, Completion.isPlanDocument.
  f_equal; [f_equal|].
  - unfold documentChecks, documentShape.
    rewrite (evidence_agree (get o "completionEvidence")) by (by apply distinct_get).
    rewrite (isArrayOf_agree (get o "steps") isPlanStep Completion.isPlanStep);
      [done|by apply distinct_get|apply isPlanStep_agree].
  - by rewrite artifact_agree by (by apply distinct_get).
Qed.

Ltac split_checks := rewrite !andb_true_iff; intros; destruct_and!; split_and!; try done.

Lemma isPlanStep_impl o : isPlanStep o = true -> Completion.isPlanStep o = true.
Proof.
  unfold isPlanStep, Completion.isPlanStep. split_checks. by apply exactKeys_impl.
Qed.

Lemma evidence_impl v : isPlanCompletionEvidence v = true ->
  Completion.isPlanCompletionEvidence v = true.
Proof.
  unfold isPlanCompletionEvidence, Completion.isPlanCompletionEvidence.
  destruct (isRecord v) as [o|]; [|done]. rewrite !andb_true_iff. intros.
  destruct_and!. split_and!; try done; [by apply exactKeys_impl|..];
    (eapply isArrayOf_impl; [|eassumption]); intros e; cbv beta; rewrite ?oneOfTwo, !andb_true_iff;
    intros; destruct_and!; split_and!; try done; by apply exactKeys_impl.
Qed.

Lemma artifact_impl v plan : isPlanArtifactRef v plan = true ->
  Completion.isPlanArtifactRef v plan = true.
Proof.
  unfold isPlanArtifactRef, Completion.isPlanArtifactRef.
  destruct (isRecord v) as [o|]; [|done]. split_checks. by apply exactKeys_impl.
Qed.

Lemma document_impl o : isPlanDocument o = true -> Completion.isPlanDocument o = true.
Proof.
  unfold isPlanDocument, Completion.isPlanDocument, documentChecks, documentShape. split_checks.
  - eapply isArrayOf_impl; [apply isPlanStep_impl|done].
  - by apply evidence_impl.
  - destruct (is_undef (get o "artifact")); [done|]. simpl in *. by apply artifact_impl.
Qed.
End Agree.

(** ** The projections agree *)

Section Host.
Context `{JsHost}.

Lemma activeTask_planning state task : activeTask state = Some task ->
  activePlanning state = task_planning task.
Proof.
  unfold activeTask, activePlanning. destruct (activeTaskId state) as [id|]; [|done]. simpl.
  destruct (str_nonempty id); [|done]. by intros ->.
Qed.

Lemma activeTask_named state : named_task state ->
  activeTask state = match activeTaskId state with
                     | Some id => oget id (tasks state) | None => None end.
Proof.
  unfold named_task, activeTask. destruct (activeTaskId state) as [[|c s]|]; try done.
Qed.

Lemma previousSkipped_agree state : named_task state -> previousSkipped state = priorSkipped state.
Proof.
  intros Hn. unfold previousSkipped, priorSkipped, activePlanning. rewrite activeTask_named by done.
  destruct (activeTaskId state) as [id|]; [|done]. by destruct (oget id (tasks state)).
Qed.

Lemma projection_agree state steps reasons : named_task state ->
  projectPlanCompletionEvidence state steps reasons
  = Completion.projectPlanCompletionEvidence state steps reasons.
Proof.
  intros Hn. unfold projectPlanCompletionEvidence, Completion.projectPlanCompletionEvidence,
    skippedEvidence. by rewrite previousSkipped_agree by done.
Qed.

(** No call of the active task is authorized and still queued. *)
Definition none_authorized_queued (state : AgentState) : Prop :=
  forall call, In call (callsOf state) -> belongsToActiveTask state (tc_taskId call) = true ->
    tc_status call <> t_authorized_queued.

Lemma awaiting_agree state : none_authorized_queued state ->
  existsb (fun call => belongsToActiveTask state (tc_taskId call)
                       && awaitingStatus (tc_status call)) (callsOf state)
  = match relevantPendingCalls state with [] => false | _ => true end.
Proof.
  unfold none_authorized_queued, relevantPendingCalls. generalize (callsOf state) as l.
  induction l as [|c l IH]; intros Hl; [done|]. simpl.
  rewrite IH by (intros c' Hc'; apply Hl; by right).
  change (Completion.belongsToActiveTask state) with (belongsToActiveTask state).
  specialize (Hl c (or_introl eq_refl)).
  destruct (belongsToActiveTask state (tc_taskId c)); simpl; [|done].
  destruct (tc_status c); simpl; try done. by destruct Hl.
Qed.

Lemma blocker_agree state evidence : named_task state -> none_authorized_queued state ->
  planCompletionBlocker state evidence = Completion.planCompletionBlocker state evidence.
Proof.
  intros Hn Hq. unfold planCompletionBlocker, Completion.planCompletionBlocker.
  rewrite awaiting_agree by done.
  replace (match activeTask state with
           | Some task => task_sideEffectsStarted task | None => false end)
    with (Completion.sideEffectsStarted state).
  2:{ unfold Completion.sideEffectsStarted. rewrite activeTask_named by done.
      by destruct (activeTaskId state). }
  replace (existsb (fun record => belongsToActiveTask state (stringField record "taskId")
                                  && is_str (get record "mode") "required"
                                  && negb (passedOrWaived record)) (ovalues (verification state)))
    with (existsb (fun record => sameTask state record && requiredUnsettled record)
            (ovalues (verification state))); [done|].
  generalize (ovalues (verification state)). induction l as [|r l IH]; [done|]. simpl.
  rewrite IH. unfold requiredUnsettled. by rewrite andb_assoc.
Qed.

(** Evidence that matches is a valid evidence record. *)
Lemma matches_valid state steps evidence :
  planCompletionEvidenceMatchesRuntime state steps evidence = true ->
  isPlanCompletionEvidence evidence = true.
Proof. by intros [? _]%andb_true_iff. Qed.
End Host.
