(* ===== verification/LifecycleClaims.v ===== *)
(** * What the lifecycle reducer promises

    Every event moves the plan of one task along the plan machine ([plan_step]);
    documents stay valid in every history; an approval executes the plan version
    that was under review; a completed plan satisfies the completion guard. *)

From S2P Require Import Prelude Js Hash State Sample GrantKey Json Recovery RecoveryInvariant Scheduler Completion CompletionReducer CompletionProps CompletionClaims Lifecycle LifecycleProps.
From stdpp Require Import prelude strings list.
From Stdlib Require Import ZArith Lia.
Open Scope Z_scope.

(** ** The plan machine *)

(** [d] is the next version of [d0]. *)
Definition revises (d0 d : obj) : Prop :=
  get d "planId" = get d0 "planId" /\ versionOf d = nadd (versionOf d0) (Fin 1).

(** Identity, texts and step titles are those of [d0], and no finished step goes back. *)
Record continues (d0 d : obj) : Prop := {
  co_identity : documentIdentity d = documentIdentity d0;
  co_title : get d "title" = get d0 "title";
  co_body : get d "bodyMarkdown" = get d0 "bodyMarkdown";
  co_steps : Forall2 (fun step step' =>
      get step' "id" = get step "id" /\ get step' "title" = get step "title"
      /\ (terminalStep step = true -> get step' "status" = get step "status"))
    (stepsOf d0) (stepsOf d) }.

Inductive plan_step (event : obj) (at_ : string) : PlanningState -> PlanningState -> Prop :=
| ps_keep p : plan_step event at_ p p
| ps_entered : ev_type event = "planning.entered" ->
    plan_step event at_ building_without_plan planning_empty
| ps_first_draft d : ev_type event = "plan.drafted" -> isPlanDocument d = true ->
    versionOf d = Fin 1 -> plan_step event at_ planning_empty (planning_draft d None)
| ps_revised d0 feedback d : ev_type event = "plan.drafted" -> isPlanDocument d = true ->
    revises d0 d -> plan_step event at_ (planning_draft d0 feedback) (planning_draft d None)
| ps_replan_revised d0 z r feedback d : ev_type event = "plan.drafted" ->
    isPlanDocument d = true -> revises d0 d ->
    plan_step event at_ (replanning_draft d0 z r feedback) (replanning_draft d z r None)
| ps_submitted p d interaction call : ev_type event = "plan.review_requested" ->
    draftOf p = Some d -> isPlanDocument d = true ->
    plan_step event at_ p (plan_awaiting_review d interaction call)
| ps_approved d interaction call m : ev_type event = "plan.approved" -> m <> full ->
    plan_step event at_ (plan_awaiting_review d interaction call) (plan_executing d m at_)
| ps_declined d interaction call feedback :
    ev_type event = "plan.revision_requested" \/ ev_type event = "plan.review_cancelled" ->
    plan_step event at_ (plan_awaiting_review d interaction call) (planning_draft d (Some feedback))
| ps_superseded d m since z r : ev_type event = "plan.replan_requested" ->
    plan_step event at_ (plan_executing d m since) (replanning_draft d z r None)
| ps_progressed d m since d' : ev_type event = "plan.progress_updated" ->
    isPlanDocument d' = true -> continues d d' ->
    plan_step event at_ (plan_executing d m since) (plan_executing d' m since)
| ps_completed d m since d' : ev_type event = "plan.completed" ->
    isPlanDocument d' = true -> continues d d' ->
    Forall (fun step => terminalStep step = true) (stepsOf d') ->
    plan_step event at_ (plan_executing d m since) (plan_completed d' at_).

(** What an event may do to one task. *)
Record task_step (event : obj) (at_ : string) (task task' : AgentTaskState) : Prop := {
  ts_taskId : task_taskId task' = task_taskId task;
  ts_planning : plan_step event at_ (task_planning task) (task_planning task');
  ts_history : task_planHistory task' = task_planHistory task
    \/ exists d m since, task_planning task = plan_executing d m since
         /\ task_planHistory task' = task_planHistory task ++ [d] }.

Inductive tasks_step (event : obj) (state state' : AgentState) : Prop :=
| tk_keep : tasks state' = tasks state -> tasks_step event state state'
| tk_started id task : ev_type event = "task.started" ->
    nonEmptyStringField event "taskId" = Some id ->
    tasks state' = oset id task (tasks state) -> task_taskId task = id ->
    task_planning task = building_without_plan -> task_planHistory task = [] ->
    tasks_step event state state'
| tk_moved id task task' : activeTaskId state = Some id -> oget id (tasks state) = Some task ->
    tasks state' = oset id task' (tasks state) ->
    task_step event (turnId (turn state)) task task' -> tasks_step event state state'.

(** ** Lemmas on documents and steps *)

Lemma stepsOf_set (steps : list obj) d : stepsOf (oset "steps" (VArr (List.map VObj steps)) d) = steps.
Proof.
  unfold stepsOf, arrayField. rewrite get_oset_eq. simpl. rewrite map_map. apply map_id.
Qed.

Lemma stepsOf_frame d k v : k <> "steps" -> stepsOf (oset k v d) = stepsOf d.
Proof. intros Hk. unfold stepsOf, arrayField. by rewrite get_oset_ne. Qed.

Lemma textOf_frame o k v f : f <> k -> textOf (oset k v o) f = textOf o f.
Proof. intros Hk. unfold textOf, stringField. by rewrite get_oset_ne. Qed.

Lemma merge_frame updates step f : f <> "note" -> f <> "status" ->
  get (mergePlanStep updates step) f = get step f.
Proof. intros ? ?. unfold mergePlanStep. case_match; [|done]. by rewrite !get_oset_ne. Qed.

Lemma merge_id updates step : textOf (mergePlanStep updates step) "id" = textOf step "id".
Proof. unfold textOf, stringField. by rewrite merge_frame. Qed.

(** With distinct identities, looking a step up by its own identity finds it. *)
Lemma stepsById_get steps step : NoDup (List.map (fun s => textOf s "id") steps) ->
  In step steps -> oget (textOf step "id") (stepsById steps) = Some step.
Proof.
  unfold stepsById. rewrite <- (rev_involutive steps) at 1. rewrite <- fold_left_rev_right.
  assert (Hin : In step steps <-> In step (rev steps)) by apply in_rev. rewrite Hin. clear Hin.
  rewrite map_rev. generalize (rev steps) as l. clear steps.
  intros l Hnd. assert (NoDup (List.map (fun s => textOf s "id") l)) as Hl.
  { apply NoDup_ListNoDup. rewrite <- rev_involutive. apply NoDup_rev, NoDup_ListNoDup.
    exact Hnd. }
  clear Hnd. induction l as [|s l IH]; [done|]. simpl in Hl |- *.
  apply NoDup_cons in Hl as [Hni Hl]. intros [->|Hin]; [apply oget_oset_eq|].
  rewrite oget_oset_ne; [by apply IH|]. intros E. apply Hni. rewrite <- E.
  apply list_elem_of_In, in_map_iff. eauto.
Qed.

Lemma document_ids d : isPlanDocument d = true ->
  NoDup (List.map (fun s => textOf s "id") (stepsOf d)).
Proof.
  intros [[Hd _]%andb_true_iff _]%andb_true_iff. unfold documentChecks in Hd.
  rewrite !andb_true_iff in Hd. destruct_and!.
  apply dedupe_NoDup. rewrite length_map. by apply Nat.eqb_eq.
Qed.

(** An update of the steps that rolls nothing back continues the document. *)
Lemma merged_continues d incoming d' :
  stepsOf d' = mergePlanSteps (stepsOf d) incoming -> isPlanDocument d' = true ->
  hasTerminalStepRollback (stepsOf d) (stepsOf d') = false ->
  (forall f, In f ["planId"; "version"; "structuralDigest"; "title"; "bodyMarkdown"] ->
     get d' f = get d f) -> continues d d'.
Proof.
  intros Hs Hv Hr Hf. split.
  - unfold documentIdentity. rewrite !Hf; [done|simpl; tauto..].
  - apply Hf. simpl. tauto.
  - apply Hf. simpl. tauto.
  - pose proof (document_ids d' Hv) as Hnd.
    assert (Hl : forall step, In step (stepsOf d) -> terminalStep step = true ->
      get (mergePlanStep (stepsById incoming) step) "status" = get step "status").
    { intros step Hin Ht. pose proof (existsb_none _ _ _ Hr Hin) as Hx. cbv beta in Hx.
      rewrite Ht in Hx. simpl in Hx. apply negb_false_iff in Hx.
      rewrite <- (merge_id (stepsById incoming) step) in Hx.
      rewrite stepsById_get in Hx; [|done|rewrite Hs; by apply in_map].
      unfold terminalStep in Ht. destruct (get step "status"); try done. by apply sameValue_str. }
    rewrite Hs. unfold mergePlanSteps. clear -Hl.
    induction (stepsOf d) as [|s l IH]; simpl; constructor.
    + rewrite !merge_frame by done. split_and!; try done. apply Hl. by left.
    + apply IH. intros. apply Hl; [by right|done].
Qed.

(** ** Every event is a step *)

Section Host.
Context `{JsHost}.
Implicit Types (state : AgentState) (event : obj).

Lemma activeTask_keyed state task : tasks_keyed state -> activeTask state = Some task ->
  activeTaskId state = Some (task_taskId task) /\ oget (task_taskId task) (tasks state) = Some task.
Proof.
  unfold activeTask. intros Hk Ht. destruct (opt_nonempty _) as [id|] eqn:E; [|done].
  apply opt_nonempty_some in E as [E _]. by rewrite (Hk _ _ Ht).
Qed.

Lemma updateTask_tasks state id f task : oget id (tasks state) = Some task ->
  tasks (updateTask state id f) = oset id (f task) (tasks state).
Proof. intros E. unfold updateTask. by rewrite E. Qed.

(** A task with a new planning state and the history it had. *)
Lemma moved event state state' task p t : tasks_keyed state -> activeTask state = Some task ->
  tasks state' = oset (task_taskId task) t (tasks state) -> task_taskId t = task_taskId task ->
  task_planning t = p -> task_planHistory t = task_planHistory task ->
  plan_step event (turnId (turn state)) (task_planning task) p -> tasks_step event state state'.
Proof.
  intros Hk [Ha Ho]%activeTask_keyed Hs Hi <- Hh Hp; [|done].
  eapply tk_moved; [done..|]. split; auto.
Qed.

Lemma entered_step state event : ev_type event = "planning.entered" -> tasks_keyed state ->
  tasks_step event state (planning_entered state event).
Proof.
  intros He Hk. unfold planning_entered.
  repeat case_match; try (by apply tk_keep). bool_hyps.
  eapply tk_moved; [eassumption..|by apply updateTask_tasks|].
  split; simpl; [done| |by left]. match goal with E : task_planning _ = _ |- _ => rewrite E end.
  by constructor.
Qed.

Lemma submitted_step state event : ev_type event = "plan.review_requested" -> tasks_keyed state ->
  tasks_step event state (plan_review_requested state event).
Proof.
  intros He Hk. unfold plan_review_requested.
  destruct (activeTask state) as [task|] eqn:Ea; [|by apply tk_keep].
  destruct (negb _); [by apply tk_keep|].
  destruct (draftOf _) as [d|] eqn:Ed; [|by apply tk_keep].
  destruct (reviewIdentity event) as [ids|]; [|by apply tk_keep].
  destruct (isPlanDocument d && _ && _) eqn:Ev; [|by apply tk_keep]. bool_hyps.
  destruct (activeTask_keyed _ _ Hk Ea) as [_ Ho].
  eapply moved; [done|exact Ea| | | | |]; cycle 1; [..|simpl; by apply updateTask_tasks]; try done.
  by econstructor.
Qed.

Lemma approved_step state event : ev_type event = "plan.approved" -> tasks_keyed state ->
  tasks_step event state (plan_approved state event).
Proof.
  intros He Hk. unfold plan_approved.
  destruct (activeTask state) as [task|] eqn:Ea; [|by apply tk_keep].
  destruct (task_planning task) eqn:Ep; try (by apply tk_keep).
  destruct (reviewIdentity event) as [ids|]; [|by apply tk_keep].
  destruct (reviewMode event) as [m|] eqn:Em; [|by apply tk_keep].
  destruct (answersReview _ _); [|by apply tk_keep].
  eapply moved; [done|exact Ea|done..|]. rewrite Ep. constructor; [done|].
  unfold reviewMode in Em. by repeat case_match; simplify_eq.
Qed.

Lemma declined_step state event field :
  ev_type event = "plan.revision_requested" \/ ev_type event = "plan.review_cancelled" ->
  tasks_keyed state -> tasks_step event state (plan_review_declined state event field).
Proof.
  intros He Hk. unfold plan_review_declined.
  destruct (activeTask state) as [task|] eqn:Ea; [|by apply tk_keep].
  destruct (task_planning task) eqn:Ep; try (by apply tk_keep).
  destruct (reviewIdentity event) as [ids|]; [|by apply tk_keep].
  destruct (stringField event field) as [fb|]; [|by apply tk_keep].
  destruct (answersReview _ _); [|by apply tk_keep].
  destruct (activeTask_keyed _ _ Hk Ea) as [_ Ho].
  eapply moved; [done|exact Ea|simpl; by apply updateTask_tasks|done..|]. rewrite Ep.
  by constructor.
Qed.

Lemma progress_tasks state next kind ref ids :
  tasks (withPlanProgress state next kind ref ids) = tasks next.
Proof. by destruct ids. Qed.

Lemma superseded_step state event : ev_type event = "plan.replan_requested" -> tasks_keyed state ->
  tasks_step event state (plan_replan_requested state event).
Proof.
  intros He Hk. unfold plan_replan_requested.
  destruct (activeTask state) as [task|] eqn:Ea; [|by apply tk_keep].
  destruct (task_planning task) eqn:Ep; try (by apply tk_keep).
  destruct (numberField event _) as [z|]; [|by apply tk_keep].
  destruct (nonEmptyStringField event _) as [r|]; [|by apply tk_keep].
  destruct (isSafeInteger z); [|by apply tk_keep].
  destruct (activeTask_keyed _ _ Hk Ea) as [Hid Ho].
  eapply tk_moved; [done..|rewrite progress_tasks; simpl; by apply updateTask_tasks|].
  split; simpl; [done| |].
  - rewrite Ep. by constructor.
  - right. eauto.
Qed.

(** A document built from the transport has the fields it was given. *)
Lemma fromTransport_inv plan event at_ z r d :
  planDocumentFromTransport plan event at_ z r = Some d ->
  isPlanDocument d = true
  /\ exists planId version, nonEmptyStringField event "planId" = Some planId
       /\ numberField event "version" = Some version
       /\ get d "planId" = VStr planId /\ get d "version" = VNum (Fin version).
Proof.
  unfold planDocumentFromTransport. intros Hd.
  destruct (nonEmptyStringField event "planId") as [planId|]; [|done].
  destruct (numberField event "version") as [version|]; [|done].
  destruct (nonEmptyStringField event "structuralHash"); [|done].
  destruct (nonEmptyStringField event "taskId"); [|done].
  destruct (isAgentPlanTransport plan); [|done]. cbv zeta in Hd. case_match; [|done].
  injection Hd as <-. split; [done|]. by exists planId, version.
Qed.

Lemma neqb_true x y : neqb x y = true -> x = y.
Proof. destruct x, y; try done. simpl. by intros ->%Z.eqb_eq. Qed.

Lemma nextVersion_true d version : nextVersion d version = true ->
  Fin version = nadd (versionOf d) (Fin 1).
Proof. apply neqb_true. Qed.

Lemma drafted_step state event : ev_type event = "plan.drafted" -> tasks_keyed state ->
  tasks_step event state (plan_drafted state event).
Proof.
  intros He Hk. unfold plan_drafted.
  destruct (activeTask state) as [task|] eqn:Ea; [|by apply tk_keep].
  destruct (nonEmptyStringField event "taskId") as [taskId|]; [|by apply tk_keep].
  destruct ((task_taskId task =s taskId) && _ && _) eqn:Eg; [|by apply tk_keep].
  apply andb_true_iff in Eg as [[<-%eqb_true _]%andb_true_iff Hdr].
  destruct (nonEmptyStringField event "planId") as [planId|] eqn:Ei; [|by apply tk_keep].
  destruct (numberField event "version") as [version|] eqn:Eve; [|by apply tk_keep].
  destruct (nonEmptyStringField event "structuralHash"); [|by apply tk_keep].
  destruct (recordField event "artifact"); [|by apply tk_keep].
  destruct (reusedDocument _ _ _ _); [case_match; by apply tk_keep|].
  destruct (negb _ || _) eqn:Em; [by apply tk_keep|].
  apply orb_false_iff in Em as [Em%negb_false_iff _].
  destruct (planDocumentFromTransport _ _ _ _ _) as [d|] eqn:Ed; [|by apply tk_keep].
  apply fromTransport_inv in Ed as (Hv & p' & v' & Hp' & Hv' & Hgi & Hgv).
  rewrite Ei in Hp'. rewrite Eve in Hv'. injection Hp' as <-. injection Hv' as <-.
  assert (versionOf d = Fin version) as Hver by (unfold versionOf; by rewrite Hgv).
  destruct (isPlanArtifactRef _ _); [|by apply tk_keep].
  destruct (activeTask_keyed _ _ Hk Ea) as [_ Ho].
  eapply moved; [done|exact Ea|by apply updateTask_tasks|done..|].
  unfold matchesNewRevisionScope in Em.
  destruct (task_planning task) as [| |d0 fb|d0 z r fb| | | |]; try done; cbn [draftedPlanning].
  - bool_hyps. constructor; [done..|congruence].
  - apply andb_true_iff in Em as [[[Hi%is_str_true Hn%nextVersion_true]%andb_true_iff _]%andb_true_iff _].
    constructor; [done..|]. split; congruence.
  - apply andb_true_iff in Em as [[[[_ Hi%is_str_true]%andb_true_iff Hn%nextVersion_true]%andb_true_iff
      Hz]%andb_true_iff Hr].
    assert (numberField event "supersedesPlanVersion" = Some z) as ->.
    { revert Hz. destruct (numberField event "supersedesPlanVersion"); simpl; intros; bool_hyps; congruence. }
    assert (stringField event "replanReason" = Some r) as ->.
    { revert Hr. destruct (stringField event "replanReason"); simpl; intros; bool_hyps; congruence. }
    constructor; [done..|]. split; congruence.
Qed.

(** An update names the executing plan of the active task. *)
Lemma progressOf_inv state event taskId task d m since steps :
  progressOf state event = Some (taskId, task, d, m, since, steps) ->
  activeTask state = Some task /\ task_taskId task = taskId
  /\ task_planning task = plan_executing d m since
  /\ hasTerminalStepRollback (stepsOf d) steps = false
  /\ exists incoming, steps = mergePlanSteps (stepsOf d) incoming.
Proof.
  unfold progressOf. destruct (activeTask state) as [t|]; [|done].
  destruct (nonEmptyStringField event "taskId") as [id|]; [|done].
  destruct (task_taskId t =s id) eqn:Ei; [|done]. apply eqb_true in Ei.
  destruct (task_planning t) as [| | | | |d0 m0 s0| |] eqn:Ep; try done.
  destruct (nonEmptyStringField event "planId"); [|done].
  destruct (numberField event "version"); [|done].
  destruct (nonEmptyStringField event "structuralDigest"); [|done].
  destruct (planStepsFromAgentPlanUpdate _ _) as [incoming|]; [|done].
  destruct (namesDocument _ _ _ _ && _) eqn:Er; [|done]. bool_hyps.
  intros [= <- <- <- <- <- <-]. split_and!; eauto.
Qed.

Lemma progressed_step state event : ev_type event = "plan.progress_updated" -> tasks_keyed state ->
  tasks_step event state (plan_progress_updated state event).
Proof.
  intros He Hk. unfold plan_progress_updated.
  destruct (progressOf state event) as [[[[[[id task] d] m] since] steps]|] eqn:Ep;
    [|by apply tk_keep].
  apply progressOf_inv in Ep as (Ea & <- & Hp & Hr & incoming & ->).
  destruct (planCompletionEvidenceMatchesRuntime _ _ _ && _) eqn:Ev; [|by apply tk_keep].
  apply andb_true_iff in Ev as [_ Hv].
  destruct (activeTask_keyed _ _ Hk Ea) as [_ Ho].
  eapply moved; [done|exact Ea|rewrite progress_tasks; by apply updateTask_tasks|..];
    rewrite Hp; try done.
  constructor; [done..|]. eapply merged_continues; [|done|..].
  - rewrite !stepsOf_frame by done. by rewrite stepsOf_set.
  - rewrite !stepsOf_frame by done. by rewrite stepsOf_set.
  - intros f [<-|[<-|[<-|[<-|[<-|[]]]]]]; by rewrite !get_oset_ne.
Qed.

Lemma finished_terminal step : isPlanStep step = true -> unfinishedStep step = false ->
  terminalStep step = true.
Proof.
  unfold isPlanStep, planStatus, unfinishedStep, terminalStep. rewrite !andb_true_iff.
  intros [[_ Hs] _]. destruct (get step "status"); try done. simpl in *.
  rewrite !orb_true_iff in Hs. rewrite orb_false_iff, orb_true_iff. intuition congruence.
Qed.

Lemma document_steps d step : isPlanDocument d = true -> In step (stepsOf d) ->
  isPlanStep step = true.
Proof.
  intros [[Hd _]%andb_true_iff _]%andb_true_iff. unfold documentChecks in Hd.
  rewrite !andb_true_iff in Hd. destruct_and!. unfold stepsOf, arrayField.
  destruct (get d "steps") as [| | | | |l|]; try done. simpl in *. rewrite forallb_forall in *.
  intros (w & <- & Hw)%in_map_iff.
  match goal with Hl : forall x, In x l -> _ |- _ => specialize (Hl w Hw) end. by destruct w.
Qed.

Lemma plan_completed_step state event : ev_type event = "plan.completed" -> tasks_keyed state ->
  tasks_step event state (plan_completed_event state event).
Proof.
  intros He Hk. unfold plan_completed_event.
  destruct (progressOf state event) as [[[[[[id task] d] m] since] steps]|] eqn:Ep;
    [|by apply tk_keep].
  apply progressOf_inv in Ep as (Ea & <- & Hp & Hr & incoming & ->).
  destruct (isRecord _) as [plan|]; [|by apply tk_keep].
  match goal with |- context [if ?c then _ else _] => destruct c eqn:Ev end; [|by apply tk_keep].
  apply andb_true_iff in Ev as [[[[[_ Hu]%andb_true_iff _]%andb_true_iff _]%andb_true_iff
    _]%andb_true_iff Hv].
  apply negb_true_iff in Hu.
  destruct (activeTask_keyed _ _ Hk Ea) as [_ Ho].
  assert (Hsteps : stepsOf (withSteps d (mergePlanSteps (stepsOf d) incoming)
                     (get event "completionEvidence")) = mergePlanSteps (stepsOf d) incoming).
  { unfold withSteps. rewrite stepsOf_frame by done. by rewrite stepsOf_set. }
  eapply moved; [done|exact Ea|by apply updateTask_tasks|..]; rewrite Hp; try done.
  constructor; [done..| |].
  - eapply merged_continues; [done|done|by rewrite Hsteps|].
    intros f [<-|[<-|[<-|[<-|[<-|[]]]]]]; unfold withSteps; by rewrite !get_oset_ne.
  - apply Forall_forall. intros step Hs%list_elem_of_In. apply finished_terminal.
    + by eapply document_steps.
    + rewrite Hsteps in Hs. by eapply existsb_none.
Qed.

Lemma plan_ended_step state event taskId current ended : tasks_keyed state ->
  oget taskId (tasks state) = Some current ->
  opt_str_eqb (activeTaskId state) (Some taskId) = true ->
  task_taskId ended = task_taskId current -> task_planning ended = task_planning current ->
  task_planHistory ended = task_planHistory current ->
  tasks_step event state (endTask state taskId ended).
Proof.
  intros Hk Ho Ha%opt_str_eqb_true Hi Hp Hh. eapply tk_moved; [done..|].
  split; [done| |by left]. rewrite Hp. constructor.
Qed.

Lemma lifecycle_step state event : tasks_keyed state ->
  tasks_step event state (reduceLifecycleState state event).
Proof.
  intros Hk. unfold reduceLifecycleState.
  repeat match goal with |- context [if ev_type event =s ?t then _ else _] =>
    destruct (String.eqb_spec (ev_type event) t) as [?E|_] end.
  all: eauto using entered_step, submitted_step, approved_step, declined_step, superseded_step,
    drafted_step, progressed_step, plan_completed_step, tk_keep.
  - unfold task_started. repeat case_match; try (by apply tk_keep). by eapply tk_started.
  - unfold task_completed_event. repeat case_match; try (by apply tk_keep). by eapply plan_ended_step.
  - unfold task_cancelled_event. repeat case_match; try (by apply tk_keep). by eapply plan_ended_step.
  - unfold turn_started. case_match; by apply tk_keep.
Qed.

(** ** The plan machine refined *)

(** The event starts the task anew. *)
Definition restarted event (id : string) (task : AgentTaskState) : Prop :=
  ev_type event = "task.started" /\ nonEmptyStringField event "taskId" = Some id
  /\ task_planning task = building_without_plan.


(** ** Documents stay valid *)

(** The document of the plan and those it superseded are valid. *)
Definition task_documents_valid (task : AgentTaskState) : Prop :=
  (forall d, planningDocument (task_planning task) = Some d -> isPlanDocument d = true)
  /\ Forall (fun d => isPlanDocument d = true) (task_planHistory task).

Definition plans_wf state : Prop :=
  tasks_keyed state
  /\ forall id task, oget id (tasks state) = Some task -> task_documents_valid task.

Lemma plan_step_valid event at_ p p' : plan_step event at_ p p' ->
  (forall d, planningDocument p = Some d -> isPlanDocument d = true) ->
  forall d, planningDocument p' = Some d -> isPlanDocument d = true.
Proof. intros Hs Hp d Hd. destruct Hs; simpl in *; first [by apply Hp|by simplify_eq|auto]. Qed.

Lemma task_step_valid event at_ task task' : task_step event at_ task task' ->
  task_documents_valid task -> task_documents_valid task'.
Proof.
  intros [_ Hp Hh] [Hd Hl]. split; [by eapply plan_step_valid|].
  destruct Hh as [->|(d & m & s & E & ->)]; [done|]. apply Forall_app. split; [done|].
  apply Forall_singleton, Hd. by rewrite E.
Qed.

Lemma lifecycle_keeps_wf state event : plans_wf state -> plans_wf (reduceLifecycleState state event).
Proof.
  intros [Hk Hd].
  destruct (lifecycle_step state event Hk) as [Hs|i t _ _ Hs Hi Hp Hh|i t t' _ Ht Hs Hst];
    split; intros id task; rewrite Hs, ?oget_oset; [by eauto|by eauto|..];
    (destruct (id =s i) eqn:E; [apply eqb_true in E as ->; intros [= <-]|by eauto]).
  - done.
  - split; rewrite ?Hp, ?Hh; [done|constructor].
  - rewrite (ts_taskId _ _ _ _ Hst). by apply Hk.
  - eapply task_step_valid; eauto.
Qed.

(** Plan documents stay valid.  Whatever the history, every document a task
    carries, the current one and each one it superseded, passes the validator: its
    digest is that of its texts, its steps have distinct identities, and its
    evidence is well formed; and every task stays under its own identity. *)
Theorem plan_documents_stay_valid state events :
  plans_wf state -> plans_wf (fold_left reduceLifecycleState events state).
Proof.
  intros Hw. apply fold_left_inv; [done|]. intros s e _. apply lifecycle_keeps_wf.
Qed.

(** ** Reviews *)

(** The open review shows the document of the plan under review. *)
Definition review_coherent state : Prop :=
  forall interaction call planId version digest shown summary artifact task d i c,
    interactions state = awaiting_review interaction call planId version digest shown summary artifact ->
    activeTask state = Some task -> task_planning task = plan_awaiting_review d i c ->
    i = interaction /\ c = call /\ namesDocument planId version digest d = true
    /\ shown = planDocumentToAgentPlan d.

Lemma coherent_idle state : interactions state = idle -> review_coherent state.
Proof. intros E. repeat intro. congruence. Qed.

Lemma coherent_frame state state' : interactions state' = interactions state ->
  (forall task, activeTask state' = Some task -> exists task0, activeTask state = Some task0
     /\ (task_planning task = task_planning task0
         \/ forall d i c, task_planning task <> plan_awaiting_review d i c)) ->
  review_coherent state -> review_coherent state'.
Proof.
  intros Hi Ht Hc. red. intros until c. intros H1 H2 H3. rewrite Hi in H1.
  destruct (Ht _ H2) as (t0 & H4 & [H5|H5]).
  - eapply Hc; [exact H1|exact H4|congruence].
  - by apply H5 in H3.
Qed.

Lemma activeTask_frame state state' : activeTaskId state' = activeTaskId state ->
  tasks state' = tasks state -> activeTask state' = activeTask state.
Proof. unfold activeTask. by intros -> ->. Qed.

Lemma coherent_same state state' : interactions state' = interactions state ->
  activeTaskId state' = activeTaskId state -> tasks state' = tasks state ->
  review_coherent state -> review_coherent state'.
Proof.
  intros Hi Ha Ht. apply coherent_frame; [done|]. rewrite (activeTask_frame state state') by done.
  eauto.
Qed.

Lemma activeTask_updated state state' task task' : tasks_keyed state ->
  activeTask state = Some task -> activeTaskId state' = activeTaskId state ->
  tasks state' = oset (task_taskId task) task' (tasks state) -> activeTask state' = Some task'.
Proof.
  intros Hk Ha Hi Ht. destruct (activeTask_keyed _ _ Hk Ha) as [Hid _].
  unfold activeTask in *. rewrite Hi, Ht, Hid in *. destruct (opt_nonempty _) eqn:E; [|done].
  apply opt_nonempty_some in E as [[= <-] _]. apply oget_oset_eq.
Qed.

(** The active task leaves the review or never was in it. *)
Lemma coherent_moved state state' task task' : tasks_keyed state ->
  activeTask state = Some task -> interactions state' = interactions state ->
  activeTaskId state' = activeTaskId state ->
  tasks state' = oset (task_taskId task) task' (tasks state) ->
  (forall d i c, task_planning task' <> plan_awaiting_review d i c) ->
  review_coherent state -> review_coherent state'.
Proof.
  intros Hk Ha Hi Hid Ht Hp. apply coherent_frame; [done|].
  rewrite (activeTask_updated state state' task task') by done. intros t [= <-]. eauto.
Qed.

Lemma updateTask_frame state id f : interactions (updateTask state id f) = interactions state
  /\ activeTaskId (updateTask state id f) = activeTaskId state
  /\ tools (updateTask state id f) = tools state.
Proof. unfold updateTask. by case_match. Qed.

Lemma progress_frame state next kind ref ids :
  interactions (withPlanProgress state next kind ref ids) = interactions next
  /\ activeTaskId (withPlanProgress state next kind ref ids) = activeTaskId next.
Proof. by destruct ids. Qed.

Lemma submitted_coherent state event : tasks_keyed state -> review_coherent state ->
  review_coherent (plan_review_requested state event).
Proof.
  intros Hk Hc. unfold plan_review_requested.
  destruct (activeTask state) as [task|] eqn:Ea; [|done]. destruct (negb _); [done|].
  destruct (draftOf _) as [d|]; [|done]. destruct (reviewIdentity event) as [ids|]; [|done].
  destruct (isPlanDocument d && _ && _) eqn:Ev; [|done].
  apply andb_true_iff in Ev as [[_ Hn]%andb_true_iff _].
  destruct (activeTask_keyed _ _ Hk Ea) as [_ Ho].
  red. intros until c. intros [= <- <- <- <- <- <- <- <-] Ht Hp.
  erewrite activeTask_updated in Ht; [|done|exact Ea|simpl; by apply updateTask_frame|
    simpl; by apply updateTask_tasks].
  injection Ht as <-. simpl in Hp. by injection Hp as <- <- <-.
Qed.

Lemma drafted_coherent state event : tasks_keyed state -> review_coherent state ->
  review_coherent (plan_drafted state event).
Proof.
  intros Hk Hc. unfold plan_drafted.
  destruct (activeTask state) as [task|] eqn:Ea; [|done].
  destruct (nonEmptyStringField event "taskId") as [taskId|]; [|done].
  destruct ((task_taskId task =s taskId) && _ && _) eqn:Eg; [|done].
  apply andb_true_iff in Eg as [[<-%eqb_true _]%andb_true_iff _].
  repeat (case_match; try done).
  destruct (activeTask_keyed _ _ Hk Ea) as [_ Ho].
  eapply coherent_moved; [done|exact Ea|by apply updateTask_frame..|by apply updateTask_tasks| |done].
  intros. simpl. unfold draftedPlanning. by repeat case_match.
Qed.

Lemma progressed_coherent state event : tasks_keyed state -> review_coherent state ->
  review_coherent (plan_progress_updated state event).
Proof.
  intros Hk Hc. unfold plan_progress_updated.
  destruct (progressOf state event) as [[[[[[id task] d] m] since] steps]|] eqn:Ep; [|done].
  apply progressOf_inv in Ep as (Ea & <- & Hp & _). case_match; [|done].
  destruct (activeTask_keyed _ _ Hk Ea) as [_ Ho].
  eapply coherent_moved; [done|exact Ea|..]; rewrite ?progress_tasks;
    [etransitivity; [apply progress_frame|apply updateTask_frame]..|by apply updateTask_tasks| |done].
  intros. by rewrite Hp.
Qed.

Lemma completed_coherent state event : tasks_keyed state -> review_coherent state ->
  review_coherent (plan_completed_event state event).
Proof.
  intros Hk Hc. unfold plan_completed_event.
  destruct (progressOf state event) as [[[[[[id task] d] m] since] steps]|] eqn:Ep; [|done].
  apply progressOf_inv in Ep as (Ea & <- & Hp & _). repeat (case_match; try done).
  destruct (activeTask_keyed _ _ Hk Ea) as [_ Ho].
  eapply coherent_moved; [done|exact Ea|apply updateTask_frame..|by apply updateTask_tasks| |done].
  intros. by rewrite Hp.
Qed.

Lemma entered_coherent state event : tasks_keyed state -> review_coherent state ->
  review_coherent (planning_entered state event).
Proof.
  intros Hk Hc. unfold planning_entered. repeat (case_match; try done). bool_hyps.
  assert (activeTask state = Some a) as Ea.
  { unfold activeTask. match goal with E : activeTaskId state = _ |- _ => rewrite E end. simpl.
    by match goal with E : nonEmptyStringField _ _ = Some ?s |- _ =>
      apply nonEmptyStringField_some in E as [_ E]; destruct s end. }
  destruct (activeTask_keyed _ _ Hk Ea) as [Hid Ho].
  assert (s = task_taskId a) as -> by congruence.
  eapply coherent_moved; [done|exact Ea|apply updateTask_frame..|by apply updateTask_tasks|done|done].
Qed.

Lemma lifecycle_coherent state event : tasks_keyed state -> review_coherent state ->
  review_coherent (reduceLifecycleState state event).
Proof.
  intros Hk Hc. unfold reduceLifecycleState.
  repeat match goal with |- context [if ev_type event =s ?t then _ else _] =>
    destruct (ev_type event =s t) end;
    auto using submitted_coherent, drafted_coherent, progressed_coherent, completed_coherent,
      entered_coherent.
  - unfold task_started. repeat case_match; try done; by apply coherent_idle.
  - unfold task_completed_event. by repeat case_match.
  - unfold task_cancelled_event. by repeat case_match.
  - unfold turn_started. case_match; [|done]. by eapply coherent_same.
  - unfold plan_approved. repeat case_match; try done; by apply coherent_idle.
  - unfold plan_review_declined. repeat case_match; try done; by apply coherent_idle.
  - unfold plan_review_declined. repeat case_match; try done; by apply coherent_idle.
  - unfold plan_replan_requested. repeat case_match; try done. apply coherent_idle.
    etransitivity; [apply progress_frame|done].
Qed.

Lemma approved_cases state event : plan_approved state event = state
  \/ exists task d i c ids m, activeTask state = Some task
       /\ task_planning task = plan_awaiting_review d i c
       /\ reviewIdentity event = Some ids /\ reviewMode event = Some m
       /\ answersReview ids (interactions state) = true.
Proof.
  unfold plan_approved. repeat (case_match; [..]; try (by left)). right. eauto 12.
Qed.

Lemma reviewIdentity_some event ids : reviewIdentity event = Some ids ->
  stringField event "planId" = Some (pe_planId ids)
  /\ numberField event "version" = Some (pe_version ids)
  /\ stringField event "structuralDigest" = Some (pe_structuralDigest ids)
  /\ stringField event "interactionId" = Some (pe_interactionId ids).
Proof.
  unfold reviewIdentity. repeat (case_match; [|done]). intros [= <-]. simpl.
  repeat match goal with E : nonEmptyStringField event _ = Some _ |- _ =>
    apply nonEmptyStringField_some in E as [E _]; apply stringField_of in E end. done.
Qed.

(** C12: an approval executes the plan under review.  Coherence of the open review
    with the plan is preserved by every event, and a plan starts to be executed only
    on an approval that names, by plan, version, digest and interaction, the review
    that is open; the document executed is the one under that identity, and the plan
    the review shows is its presentation. *)
Theorem approval_executes_the_reviewed_plan state event id task task' d m since :
  tasks_keyed state -> review_coherent state ->
  oget id (tasks state) = Some task ->
  (forall d0 m0 since0, task_planning task <> plan_executing d0 m0 since0) ->
  oget id (tasks (reduceLifecycleState state event)) = Some task' ->
  task_planning task' = plan_executing d m since ->
  review_coherent (reduceLifecycleState state event)
  /\ ev_type event = "plan.approved"
  /\ exists interaction call planId version digest summary artifact,
       interactions state = awaiting_review interaction call planId version digest
                              (planDocumentToAgentPlan d) summary artifact
       /\ task_planning task = plan_awaiting_review d interaction call
       /\ namesDocument planId version digest d = true
       /\ stringField event "planId" = Some planId /\ numberField event "version" = Some version
       /\ stringField event "structuralDigest" = Some digest
       /\ stringField event "interactionId" = Some interaction.
Proof.
  intros Hk Hc Ho Hne Ho' Hp. split; [by apply lifecycle_coherent|].
  destruct (lifecycle_step state event Hk) as [Hs|i t _ _ Hs _ Ht _|i t t' Ha Ht Hs Hst].
  { rewrite Hs, Ho in Ho'. injection Ho' as <-. by apply Hne in Hp. }
  { rewrite Hs, oget_oset, Ho in Ho'. case_match; injection Ho' as <-; [congruence|].
    by apply Hne in Hp. }
  rewrite Hs, oget_oset, Ho in Ho'. destruct (id =s i) eqn:E;
    [apply eqb_true in E as ->|injection Ho' as <-; by apply Hne in Hp].
  assert (t = task) as -> by congruence. injection Ho' as <-.
  destruct Hst as [_ Hstep _]. rewrite Hp in Hstep.
  inversion Hstep as [| | | | | |? ia ca ma Hev Hm He| | |? ? ? ? _ _ _ He|]; subst;
    [congruence| |symmetry in He; by apply Hne in He].
  split; [done|]. unfold reduceLifecycleState in Hs. rewrite Hev in Hs. simpl in Hs.
  destruct (approved_cases state event) as [Hx|(tk & d' & i' & c' & ids & m' & Hat & Hpl & Hids & _ & Hans)].
  { rewrite Hx in Hs. rewrite Hs, oget_oset_eq in Ht. injection Ht as ->. by apply Hne in Hp. }
  destruct (activeTask_keyed _ _ Hk Hat) as [Hid Hot].
  assert (i = task_taskId tk) as -> by congruence. assert (tk = task) as -> by congruence.
  rewrite Hpl in He. injection He as -> -> ->.
  destruct (interactions state) as [| |x y z w v p sm ar| | | |] eqn:Ei; try done.
  destruct (Hc _ _ _ _ _ _ _ _ _ _ _ _ Ei Hat Hpl) as (-> & -> & Hn & ->).
  destruct (reviewIdentity_some _ _ Hids) as (H1 & H2 & H3 & H4).
  simpl in Hans. bool_hyps. exists x, y, z, w, v, sm, ar. split_and!; congruence.
Qed.

(** ** A completed plan and the guard *)

Lemma prior_of_valid state : plans_wf state -> prior_texts state.
Proof.
  intros [_ Hd] k. unfold priorSkipped, activePlanning.
  destruct (activeTaskId state) as [id|]; [|by left].
  destruct (oget id (tasks state)) as [task|] eqn:Eo; [|by left].
  destruct (task_planning task) as [| | | | |d m a| |] eqn:Ep; try by left.
  apply skippedReasons_text, evidence_reasons, evidence_impl.
  destruct (Hd _ _ Eo) as [Hv _]. rewrite Ep in Hv. specialize (Hv d eq_refl).
  apply andb_true_iff in Hv as [[Hv _]%andb_true_iff _]. unfold documentChecks in Hv.
  rewrite !andb_true_iff in Hv. by destruct_and!.
Qed.

(** The reasons of an evidence record cover the steps it lists. *)
Lemma skippedReasons_covers l e : Forall (fun entry => exists s, get entry "reasonCode" = VStr s) l ->
  In e l -> exists s, get (skippedReasons l) (textOf e "stepId") = VStr s.
Proof.
  unfold skippedReasons. generalize (@nil (string * val)) as m.
  induction l as [|x l IH] using rev_ind; intros m Hl Hin; [done|].
  rewrite fold_left_app. simpl. apply Forall_app in Hl as [Hl [[s Hs] _]%Forall_cons].
  destruct (decide (textOf e "stepId" = textOf x "stepId")) as [->|Hne].
  - rewrite get_oset_eq. eauto.
  - rewrite get_oset_ne by done. apply IH; [done|].
    apply in_app_iff in Hin as [Hin|[->|[]]]; done.
Qed.

Section Completed.
Context (state : AgentState) (task task' : AgentTaskState) (steps : list obj) (evidence : val).
Hypothesis Hwf : plans_wf state.
Hypothesis Hnamed : named_task state.
Hypothesis Hactive : activeTask state = Some task.
Hypothesis Heffects : task_sideEffectsStarted task' = task_sideEffectsStarted task.
Hypothesis Hdone : forall d m since, task_planning task' <> plan_executing d m since.
Hypothesis Hmatch : planCompletionEvidenceMatchesRuntime state steps evidence = true.
Let state' := state <| tasks := oset (task_taskId task) task' (tasks state) |>.

Lemma completed_active : activeTaskId state = Some (task_taskId task)
  /\ oget (task_taskId task) (tasks state') = Some task'.
Proof using Hwf Hactive.
  destruct (activeTask_keyed _ _ (proj1 Hwf) Hactive) as [Hid _]. split; [done|].
  apply oget_oset_eq.
Qed.

Lemma completed_planning : activePlanning state' = task_planning task'.
Proof using Hwf Hactive.
  destruct completed_active as [Hid Ho]. unfold activePlanning. change (activeTaskId state')
    with (activeTaskId state). by rewrite Hid, Ho.
Qed.

Lemma completed_prior : priorSkipped state' = [].
Proof using Hwf Hactive Hdone.
  unfold priorSkipped. rewrite completed_planning. destruct (task_planning task'); try done.
  by destruct (Hdone _ _ _ eq_refl).
Qed.

(** The evidence is the projection of the session it was checked against. *)
Lemma completed_evidence :
  evidence = VObj (Completion.projectPlanCompletionEvidence state steps
                     (skippedReasons (entries (jsonRecord evidence) "skipped"))).
Proof using Hwf Hnamed Hmatch.
  apply matching_evidence; [by apply prior_of_valid|].
  apply andb_true_iff in Hmatch as [He Hj]. rewrite projection_agree in Hj by done.
  apply andb_true_iff. split; [by apply evidence_impl|done].
Qed.

Lemma completed_skipped : let reasons := skippedReasons (entries (jsonRecord evidence) "skipped") in
  skippedEvidence state' steps reasons = skippedEvidence state steps reasons.
Proof using Hwf Hnamed Hactive Hdone Hmatch.
  intros reasons. unfold skippedEvidence. f_equal. apply map_ext_in. intros step Hin. do 3 f_equal.
  assert (Hc : exists s, get reasons (textOf step "id") = VStr s); [|by destruct Hc as [s ->]].
  set (e := [("stepId", VStr (textOf step "id"));
             ("reasonCode", nullish (get reasons (textOf step "id"))
                (nullish (get (priorSkipped state) (textOf step "id")) (VStr "")))] : obj).
  change (textOf step "id") with (textOf e "stepId"). apply skippedReasons_covers.
  - apply evidence_reasons, evidence_impl. by eapply matches_valid.
  - rewrite (entries_of (skippedEvidence state steps reasons)).
    + unfold skippedEvidence. rewrite In_sortByText. apply in_map_iff. by exists step.
    + rewrite completed_evidence. done.
Qed.

Lemma completed_matches :
  Completion.planCompletionEvidenceMatchesRuntime state' steps evidence = true.
Proof using Hwf Hnamed Hactive Hdone Hmatch.
  unfold Completion.planCompletionEvidenceMatchesRuntime. apply andb_true_iff. split.
  { apply evidence_impl. by eapply matches_valid. }
  apply opt_str_eqb_true. f_equal. rewrite completed_evidence at 2. f_equal.
  unfold Completion.projectPlanCompletionEvidence. by rewrite completed_skipped.
Qed.

Lemma completed_blocker : none_authorized_queued state ->
  planCompletionBlocker state (jsonRecord evidence) = None ->
  Completion.planCompletionBlocker state' (jsonRecord evidence) = None.
Proof using Hwf Hnamed Hactive Heffects.
  intros Hq. rewrite blocker_agree by done. intros <-.
  unfold Completion.planCompletionBlocker.
  replace (Completion.sideEffectsStarted state') with (Completion.sideEffectsStarted state); [done|].
  destruct (activeTask_keyed _ _ (proj1 Hwf) Hactive) as [Hid Ho].
  destruct completed_active as [_ Ho']. unfold Completion.sideEffectsStarted.
  change (activeTaskId state') with (activeTaskId state). by rewrite Hid, Ho, Ho'.
Qed.

Lemma completed_proved : Completion.planCompletionBlocker state' (jsonRecord evidence) = None ->
  existsb (verificationUnproved state' (jsonRecord evidence)) (ovalues (verification state')) = false.
Proof using Hwf Hnamed Hmatch.
  intros (_ & _ & Hv & _)%planCompletionBlocker_none. apply not_true_iff_false.
  intros (r & Hin & [[Hs Hm]%andb_true_iff Hu]%andb_true_iff)%existsb_exists.
  pose proof (existsb_none _ _ _ Hv Hin) as Hx. cbv beta in Hx. unfold requiredUnsettled in Hx.
  rewrite Hs, Hm in Hx. simpl in Hx. apply negb_false_iff in Hx. rewrite Hx in Hu. simpl in Hu.
  apply negb_true_iff in Hu. rewrite (entries_of (verificationEvidence state)) in Hu
    by (by rewrite completed_evidence).
  eapply (existsb_none _ _ [("verificationId", VStr (textOf r "verificationId"));
                            ("outcome", get r "status")]) in Hu.
  - cbn in Hu. rewrite String.eqb_refl in Hu. simpl in Hu.
    unfold passedOrWaived in Hx. unfold textOf, stringField in Hu.
    destruct (get r "status"); try done. simpl in Hu. by rewrite String.eqb_refl in Hu.
  - unfold verificationEvidence. rewrite In_sortByText. apply in_map_iff. exists r.
    split; [done|]. apply filter_In. split; [done|]. apply andb_true_iff. by split.
Qed.
End Completed.

(** A completed plan satisfies the completion guard.  When [plan.completed] ends
    the plan of the active task, its document is valid for the guard and the guard's
    evidence check on the new state finds nothing against it; so the guard accepts
    the final answer as soon as nothing of the work is pending.  (No call may be
    authorized and still queued: the guard counts such a call as pending, the
    reducer's copy of the check does not.) *)
Theorem completed_plan_satisfies_the_guard state event d m since document at_ :
  plans_wf state -> named_task state -> none_authorized_queued state ->
  ev_type event = "plan.completed" ->
  activePlanning state = plan_executing d m since ->
  activePlanning (reduceLifecycleState state event) = plan_completed document at_ ->
  Completion.isPlanDocument document = true
  /\ plannedEvidenceBlocker (reduceLifecycleState state event) document = None
  /\ (commonBlock (reduceLifecycleState state event) = None ->
      recoveryUnresolved (reduceLifecycleState state event) = false ->
      decideCompletion (reduceLifecycleState state event)
      = Ok (guard_accepted (Some (documentIdentity document)))).
Proof.
  intros Hwf Hn Hq He Hp. unfold reduceLifecycleState. rewrite He. simpl.
  unfold plan_completed_event.
  destruct (progressOf state event) as [[[[[[id task] d0] m0] since0] steps]|] eqn:Ep; [|congruence].
  apply progressOf_inv in Ep as (Ea & <- & Htp & _ & _).
  destruct (isRecord _) as [plan|]; [|congruence].
  match goal with |- context [if ?c then _ else _] => destruct c eqn:Ev end; [|congruence].
  apply andb_true_iff in Ev as [[[_ Hm]%andb_true_iff Hb]%andb_true_iff Hv].
  apply negb_true_iff in Hb.
  assert (Hb' : planCompletionBlocker state (jsonRecord (get event "completionEvidence")) = None)
    by (by destruct (planCompletionBlocker _ _)).
  destruct (activeTask_keyed _ _ (proj1 Hwf) Ea) as [_ Ho].
  unfold updateTask. rewrite Ho. unfold updateTasks. rewrite Htp.
  set (task' := task <| task_executionMode := None |> <| task_planning := _ |>).
  intros Hd. erewrite completed_planning in Hd by done. injection Hd as Hd <-.
  assert (Hev : get document "completionEvidence" = get event "completionEvidence").
  { rewrite <- Hd. unfold withSteps. by rewrite get_oset_eq. }
  assert (Hsteps : stepsOf document = steps).
  { rewrite <- Hd. unfold withSteps. rewrite stepsOf_frame by done. apply stepsOf_set. }
  assert (Hdoc : Completion.isPlanDocument document = true)
    by (rewrite <- Hd; by apply document_impl).
  set (state' := set_field tasks _ state).
  assert (Hblk : Completion.planCompletionBlocker state'
                   (jsonRecord (get event "completionEvidence")) = None)
    by (by apply completed_blocker).
  assert (Hnone : plannedEvidenceBlocker state' document = None).
  { assert (Hpv : existsb (verificationUnproved state' (jsonRecord (get event "completionEvidence")))
                      (ovalues (verification state')) = false)
      by (eapply completed_proved; [exact Hwf|done|exact Hm|done]).
    assert (Hmt : Completion.planCompletionEvidenceMatchesRuntime state' steps
                    (get event "completionEvidence") = true) by (by apply completed_matches).
    unfold plannedEvidenceBlocker. by rewrite Hev, Hsteps, Hpv, Hblk, Hmt. }
  split_and!; [done|done|]. intros Hc Hr.
  assert (Hpl : activePlanning state' = plan_completed document (turnId (turn state)))
    by (unfold state'; erewrite completed_planning by done; simpl; by rewrite Hd).
  unfold decideCompletion, decidePlannedCompletion. rewrite Hpl. cbn [planningDocument].
  unfold plannedBlock, lifecycleBlock. by rewrite Hc, Hr, Hdoc, Hnone.
Qed.

End Host.

(** ** Instances *)

(** A task of one step, from its start to the completion of its plan. *)
Definition lifecycleEvent (type : string) (rest : obj) : obj :=
  ("type", VStr type) :: ("taskId", VStr "task") :: ("turnId", VStr "turn") :: rest.

Definition transportStep (status : string) : val :=
  VObj [("id", VStr "edit"); ("step", VStr "Edit the file"); ("status", VStr status)].

Definition transportPlan (planStatus stepStatus : string) : val :=
  VObj [("name", VStr "Edit one file");
        ("description", VStr "Edit the file and check the result.");
        ("status", VStr planStatus); ("steps", VArr [transportStep stepStatus])].

Definition lifecycleDigest : string :=
  Eval vm_compute in computePlanStructuralDigest
    [("title", VStr "Edit one file");
     ("bodyMarkdown", VStr "Edit the file and check the result.");
     ("steps", VArr [VObj [("id", VStr "edit"); ("title", VStr "Edit the file")]])].

Definition lifecycleArtifact : val :=
  VObj [("artifactId", VStr "plan:v1"); ("taskId", VStr "task"); ("planId", VStr "plan");
        ("version", VNum (Fin 1)); ("fileName", VStr "v1.md");
        ("relativePath", VStr "plans/v1.md"); ("displayPath", VStr "plans/v1.md");
        ("structuralDigest", VStr lifecycleDigest); ("byteLength", VNum (Fin 64))].

Definition lifecycleIdentity : obj :=
  [("planId", VStr "plan"); ("version", VNum (Fin 1)); ("structuralDigest", VStr lifecycleDigest);
   ("interactionId", VStr "review"); ("toolCallId", VStr "call")].

Definition draftEvents : list obj :=
  [lifecycleEvent "task.started" [("userGoal", VStr "goal")];
   lifecycleEvent "planning.entered" [];
   lifecycleEvent "plan.drafted"
     [("plan", transportPlan "pending" "pending"); ("planId", VStr "plan");
      ("version", VNum (Fin 1)); ("structuralHash", VStr lifecycleDigest);
      ("artifact", lifecycleArtifact)];
   lifecycleEvent "plan.review_requested"
     (("plan", transportPlan "pending" "pending") :: lifecycleIdentity)].

Definition approveEvent : obj :=
  lifecycleEvent "plan.approved" (("executionMode", VStr "auto") :: lifecycleIdentity).

Definition finishEvent : obj :=
  lifecycleEvent "plan.completed"
    (("plan", transportPlan "completed" "completed")
     :: ("completionEvidence", VObj emptyPlanCompletionEvidence) :: lifecycleIdentity).

Definition reviewedPlan : AgentState :=
  Eval vm_compute in fold_left (@reduceLifecycleState host0) draftEvents demo.
Definition approvedPlan : AgentState :=
  Eval vm_compute in @reduceLifecycleState host0 reviewedPlan approveEvent.
Definition endedPlan : AgentState :=
  Eval vm_compute in @reduceLifecycleState host0 approvedPlan finishEvent.

Lemma demo_plans_wf : plans_wf demo.
Proof. by split. Qed.

(** The state of one task, known by its only entry. *)
Lemma one_task_keyed state task : tasks state = [("task", task)] -> task_taskId task = "task" ->
  tasks_keyed state.
Proof.
  intros Hs Ht id t. rewrite Hs. simpl. destruct (id =s "task") eqn:E; [|done].
  bool_hyps. congruence.
Qed.

Definition taskIn (state : AgentState) : AgentTaskState :=
  match tasks state with (_, t) :: _ => t | [] => demoTask building_without_plan end.

Definition documentIn (state : AgentState) : obj :=
  default [] (planningDocument (task_planning (taskIn state))).


Lemma plan_documents_stay_valid_witness :
  plans_wf (fold_left (@reduceLifecycleState host0) (draftEvents ++ [approveEvent; finishEvent]) demo)
  /\ List.length (tasks endedPlan) = 1%nat.
Proof.
  split; [|reflexivity]. apply (@plan_documents_stay_valid host0). exact demo_plans_wf.
Defined.

Lemma approval_executes_the_reviewed_plan_witness :
  ev_type approveEvent = "plan.approved"
  /\ exists interaction call, task_planning (taskIn reviewedPlan)
       = plan_awaiting_review (documentIn approvedPlan) interaction call.
Proof.
  destruct (@approval_executes_the_reviewed_plan host0 reviewedPlan approveEvent "task"
    (taskIn reviewedPlan) (taskIn approvedPlan) (documentIn approvedPlan) auto "turn")
    as (_ & He & i & c & _ & _ & _ & _ & _ & _ & Hp & _).
  - by eapply one_task_keyed.
  - intros ? ? ? ? ? ? ? ? ? ? ? ? [= <- <- <- <- <- <- <- <-] [= <-] [= <- <- <-].
    split_and!; try done; vm_compute; reflexivity.
  - reflexivity.
  - done.
  - vm_compute. reflexivity.
  - reflexivity.
  - eauto.
Defined.

Lemma completed_plan_satisfies_the_guard_witness :
  @decideCompletion host0 endedPlan
  = Ok (guard_accepted (Some (documentIdentity (documentIn endedPlan)))).
Proof.
  destruct (@completed_plan_satisfies_the_guard host0 approvedPlan finishEvent
    (documentIn approvedPlan) auto "turn" (documentIn endedPlan) "turn") as (_ & _ & Hd).
  - split; [by eapply one_task_keyed|]. intros id t. simpl.
    destruct (id =s "task") eqn:_E; [|done]. intros [= <-].
    split; [|constructor]. intros d [= <-]. vm_compute. reflexivity.
  - done.
  - by intros call [].
  - reflexivity.
  - reflexivity.
  - vm_compute. reflexivity.
  - replace (@reduceLifecycleState host0 approvedPlan finishEvent) with endedPlan in Hd
      by (vm_compute; reflexivity).
    apply Hd; vm_compute; reflexivity.
Defined.

