(* ===== verification/Interaction.v ===== *)
(** * The interaction reducer ([domains/interaction/reducer.ts]) and
      [interaction-governance.ts]

    Questions to the user, plan reviews, and the provider dialogues: recovery
    actions and admissions, with the queue of providers that wait to be admitted
    and the waivers the user gave.  Pending admissions are the JSON records the
    reducer builds; the enumerated texts an interaction shows are read with
    [textOf].  The plan branches repeat those of the lifecycle reducer. *)

From S2P Require Import Prelude Js Hash State Authorization ApprovalQueue Normalization Recovery Traits Scheduler Completion Intent Lifecycle.
From stdpp Require Import prelude strings list pretty.
From Stdlib Require Import ZArith Lia.
Open Scope Z_scope.

(** [/^\d{4}-\d{2}-\d{2}T\d{2}:\d{2}:\d{2}(?:\.\d{3})?Z$/u.test(value)]. *)
Definition isTimestamp (value : string) : bool := is_some (iso_fields value).

(** ** Plans in transport *)

Definition isPlanTransport (value : val) : bool :=
  match isRecord value with
  | None => false
  | Some plan =>
      (length (okeys plan) =? 4)%nat
      && hasOnlyKeys plan ["name"; "description"; "status"; "steps"]
      && isText (get plan "name") (fun _ => true)
      && isText (get plan "description") (fun _ => true)
      && is_str (get plan "status") "pending"
      && isArrayOf (get plan "steps") (fun step =>
           hasOnlyKeys step ["id"; "step"; "status"; "note"]
           && isText (get step "step") (fun _ => true)
           && isText (get step "status")
                (fun s => str_in s ["pending"; "in_progress"; "completed"; "skipped"])
           && textOrAbsent (get step "id") && textOrAbsent (get step "note"))
  end.

Definition planTransportMatchesDocument (value : val) (document : obj) : bool :=
  let plan := jsonRecord value in
  isPlanTransport value
  && sameValue (get plan "name") (get document "title")
  && sameValue (get plan "description") (get document "bodyMarkdown")
  && forallb2 (fun candidate step =>
         sameValue (get candidate "id") (get step "id")
         && sameValue (get candidate "step") (get step "title")
         && sameValue (get candidate "status") (get step "status")
         && sameValue (get candidate "note") (get step "note")
         && Bool.eqb (ohas "note" candidate) (negb (is_undef (get step "note"))))
       (transportSteps value) (stepsOf document).

Definition canonicalPlan (document : obj) : obj :=
  [("name", get document "title"); ("description", get document "bodyMarkdown");
   ("status", VStr "pending");
   ("steps", VArr (List.map (fun step =>
      VObj ([("id", get step "id"); ("step", get step "title"); ("status", get step "status")]
            ++ noteField (get step "note"))) (stepsOf document)))].

Definition reviewIdentityMatches (state : AgentState) (payload : obj) : bool :=
  match interactions state with
  | awaiting_review interactionId toolCallId planId version digest _ _ _ =>
      opt_str_eqb (nonEmptyStringField payload "interactionId") (Some interactionId)
      && opt_str_eqb (nonEmptyStringField payload "toolCallId") (Some toolCallId)
      && opt_str_eqb (nonEmptyStringField payload "planId") (Some planId)
      && match numberField payload "version" with Some v => v =? version | None => false end
      && opt_str_eqb (nonEmptyStringField payload "structuralDigest") (Some digest)
  | _ => false
  end.

(** ** Transcript *)

Definition appendRuntimeTranscript (state : AgentState) (messageId content : string) : AgentState :=
  let message : obj :=
    [("kind", VStr "runtime"); ("messageId", VStr messageId);
     ("turnId", VStr (turnId (turn state)));
     ("ordinal", VNum (Fin (Z.of_nat (length (messages (transcript state))))));
     ("createdAt", VStr EPOCH_CREATED_AT); ("content", VStr content)] in
  state <| transcript := (transcript state)
             <| messages := messages (transcript state) ++ [message] |> |>.

(** Keep sibling tool results in the model declaration order. *)
Definition appendFailedToolTranscript (state : AgentState) (call : AgentToolCallState)
  : AgentState :=
  let message : obj :=
    [("kind", VStr "tool"); ("messageId", VStr ("tool-" +:+ tc_toolCallId call));
     ("turnId", VStr (turnId (turn state)));
     ("ordinal", VNum (Fin (Z.of_nat (length (messages (transcript state))))));
     ("createdAt", VStr EPOCH_CREATED_AT); ("toolCallId", VStr (tc_toolCallId call));
     ("name", VStr (tc_name call));
     ("content", VStr (default "MCP provider action is required." (tc_error call)));
     ("ok", VBool false)] in
  let appended := messages (transcript state) ++ [message] in
  let arranged :=
    if str_nonempty (tc_modelMessageId call) then
      let p := sameModelMessage state (tc_modelMessageId call) in
      writeBack p appended (sort_by (ordinalLe state) (List.filter p appended))
    else appended in
  state <| transcript := (transcript state) <| messages := renumberFrom 0 arranged |> |>.

Definition activeProviderFailureIds (state : AgentState) (toolCallId : string) : list string :=
  List.filter (fun failureId =>
      match oget failureId (j_failures (toolRecovery state)) with
      | Some failure =>
          bool_decide (rf_status failure = rf_unresolved)
          && opt_str_eqb (rf_taskId failure) (activeTaskId state)
          && opt_str_eqb (rf_turnId failure) (Some (turnId (turn state)))
          && (rf_toolCallId failure =s toolCallId)
      | None => false
      end) (j_order (toolRecovery state)).

(** ** Provider admission *)

(** [{ kind: 'awaiting_provider_admission', ...entry }]. *)
Definition admissionInteraction (entry : obj) : AgentInteractionState :=
  awaiting_provider_admission (textOf entry "interactionId") (textOf entry "providerId")
    (textOf entry "source") (textOf entry "providerStatus") (stringField entry "diagnosticCode")
    (is_true (get entry "retryable")).

Definition entryOf (interactionId : string) (entry : obj) : bool :=
  opt_str_eqb (stringField entry "interactionId") (Some interactionId).

Definition settleProviderAdmission (state : AgentState) (interactionId : string)
    (waiver : option (string * obj)) : AgentState :=
  let pending := List.filter (fun entry => negb (entryOf interactionId entry))
                   (pa_pending (providerAdmission state)) in
  let waivers := match waiver with
                 | Some (providerId, record) =>
                     oset providerId record (pa_waivers (providerAdmission state))
                 | None => pa_waivers (providerAdmission state)
                 end in
  state <| providerAdmission := {| pa_pending := pending; pa_waivers := waivers |} |>
    <| interactions := match pending with
                       | next :: _ => admissionInteraction next
                       | [] => idle
                       end |>.

(** The admission the event names is the one shown. *)
Definition showsAdmission (state : AgentState) (interactionId : option string)
    (providerId : option (option string)) : bool :=
  match interactions state with
  | awaiting_provider_admission i p _ _ _ _ =>
      opt_str_eqb (Some i) interactionId
      && match providerId with Some q => opt_str_eqb (Some p) q | None => true end
  | _ => false
  end.

(** ** One definition per event *)

Definition user_input_requested (state : AgentState) (payload : obj) : AgentState :=
  match nonEmptyStringField payload "interactionId", nonEmptyStringField payload "toolCallId",
        recordField payload "request" with
  | Some interactionId, Some toolCallId, Some request =>
      (updateToolCall state toolCallId
         (option_map (fun call => call <| tc_status := t_awaiting_user_input |>)))
        <| interactions := awaiting_user_input interactionId toolCallId request |>
  | _, _, _ => state
  end.

Definition user_input_closed (state : AgentState) (payload : obj) : AgentState :=
  match interactions state with
  | awaiting_user_input interactionId toolCallId _ =>
      if opt_str_eqb (Some interactionId) (nonEmptyStringField payload "interactionId")
         && opt_str_eqb (Some toolCallId) (nonEmptyStringField payload "toolCallId")
      then state <| interactions := idle |> else state
  | _ => state
  end.

Definition interaction_review_requested (state : AgentState) (payload : obj) : AgentState :=
  match reviewIdentity payload, nonEmptyStringField payload "taskId" with
  | Some ids, Some taskId =>
      match oget taskId (tasks state) with
      | Some task =>
          match draftOf (task_planning task), oget (pe_toolCallId ids) (calls (tools state)) with
          | Some document, Some _ =>
              if opt_str_eqb (Some taskId) (activeTaskId state)
                 && bool_decide (task_status task = task_active)
                 && isSafeInteger (pe_version ids) && (1 <=? pe_version ids)
                 && namesDocument (pe_planId ids) (pe_version ids) (pe_structuralDigest ids) document
                 && planTransportMatchesDocument (get payload "plan") document
              then
                let next := updateToolCall state (pe_toolCallId ids)
                              (option_map (fun call => call <| tc_status := t_awaiting_review |>)) in
                next
                  <| tasks := oset taskId
                       (task <| task_planning := plan_awaiting_review document
                                  (pe_interactionId ids) (pe_toolCallId ids) |>) (tasks next) |>
                  <| interactions :=
                       awaiting_review (pe_interactionId ids) (pe_toolCallId ids) (pe_planId ids)
                         (pe_version ids) (pe_structuralDigest ids) (canonicalPlan document)
                         (planSummaryOf document) (recordField document "artifact") |>
              else state
          | _, _ => state
          end
      | None => state
      end
  | _, _ => state
  end.

Definition interaction_plan_approved (state : AgentState) (payload : obj) : AgentState :=
  if reviewIdentityMatches state payload then
    match activeTask state with
    | Some task =>
        match task_status task, task_planning task, reviewMode payload with
        | task_active, plan_awaiting_review document _ _, Some approvedMode =>
            state
              <| tasks := oset (task_taskId task)
                   (task <| task_planning := plan_executing document approvedMode
                                               (turnId (turn state)) |>
                         <| task_executionMode := Some approvedMode |>) (tasks state) |>
              <| interactions := idle |>
        | _, _, _ => state
        end
    | None => state
    end
  else state.

Definition interaction_review_declined (state : AgentState) (payload : obj) (field : string)
  : AgentState :=
  if reviewIdentityMatches state payload then
    match activeTask state with
    | Some task =>
        match task_status task, task_planning task, stringField payload field with
        | task_active, plan_awaiting_review document _ _, Some feedback =>
            state
              <| tasks := oset (task_taskId task)
                   (task <| task_planning := planning_draft document (Some feedback) |>)
                   (tasks state) |>
              <| interactions := idle |>
        | _, _, _ => state
        end
    | None => state
    end
  else state.

Definition provider_action_required (state : AgentState) (payload : obj) : AgentState :=
  match interactions state, nonEmptyStringField payload "interactionId",
        nonEmptyStringField payload "providerId",
        nonEmptyStringField payload "originatingToolCallId" with
  | idle, Some interactionId, Some providerId, Some originatingToolCallId =>
      match oget originatingToolCallId (calls (tools state)) with
      | Some call =>
          if ohas "action" payload && bool_decide (tc_status call = t_failed) then
            let next := state <| interactions :=
                awaiting_provider_action interactionId providerId (textOf payload "action")
                  originatingToolCallId "required" |> in
            if existsb (fun message => is_str (get message "kind") "tool"
                          && is_str (get message "toolCallId") originatingToolCallId)
                 (messages (transcript next))
            then next else appendFailedToolTranscript next call
          else state
      | None => state
      end
  | _, _, _, _ => state
  end.

Definition provider_action_started (state : AgentState) (payload : obj) : AgentState :=
  match interactions state, nonEmptyStringField payload "interactionId" with
  | awaiting_provider_action i p action call _, Some interactionId =>
      if i =s interactionId
      then state <| interactions := awaiting_provider_action i p action call "started" |>
      else state
  | _, _ => state
  end.

Definition actionOutcome (type : string) (payload : obj) : string :=
  if type =s "provider.action_completed" then "completed"
  else if type =s "provider.action_deferred" then "deferred"
  else "failed (" +:+ default "" (stringField payload "failureCode") +:+ ")".

Definition provider_action_ended (state : AgentState) (type : string) (payload : obj)
  : AgentState :=
  match interactions state, nonEmptyStringField payload "interactionId" with
  | awaiting_provider_action i providerId _ call _, Some interactionId =>
      if (i =s interactionId)
         && opt_str_eqb (nonEmptyStringField payload "originatingToolCallId") (Some call)
      then
        let failureIds := activeProviderFailureIds state call in
        let toolRecovery' :=
          if (type =s "provider.action_completed")
             && match failureIds with [] => false | _ => true end
          then recordToolOwnedProgress (toolRecovery state)
                 {| pr_kind := pk_provider_revision; pr_referenceId := interactionId;
                    pr_resolvesFailureIds := Some failureIds |}
          else toolRecovery state in
        appendRuntimeTranscript
          (state <| toolRecovery := toolRecovery' |> <| interactions := idle |>)
          ("provider-action-" +:+ interactionId)
          ("MCP provider '" +:+ providerId +:+ "' recovery " +:+ actionOutcome type payload +:+ ".")
      else state
  | _, _ => state
  end.

(** [...(payload.diagnosticCode ? { diagnosticCode: payload.diagnosticCode } : {})]. *)
Definition diagnosticField (payload : obj) (entry : obj) : obj :=
  if truthy (get payload "diagnosticCode")
  then oset "diagnosticCode" (get payload "diagnosticCode") entry else entry.

Definition provider_admission_required (state : AgentState) (payload : obj) : AgentState :=
  match nonEmptyStringField payload "interactionId", nonEmptyStringField payload "providerId",
        (match interactions state with
         | idle | awaiting_provider_admission _ _ _ _ _ _ => true | _ => false end),
        booleanField payload "retryable" with
  | Some interactionId, Some providerId, true, Some retryable =>
      let pending := pa_pending (providerAdmission state) in
      if ohas providerId (pa_waivers (providerAdmission state))
         || existsb (fun entry => opt_str_eqb (stringField entry "providerId") (Some providerId))
              pending
      then state
      else
        let record : obj :=
          diagnosticField payload
            [("interactionId", VStr interactionId); ("providerId", VStr providerId);
             ("source", get payload "source"); ("providerStatus", get payload "providerStatus")]
          ++ [("retryable", VBool retryable)] in
        state
          <| providerAdmission := (providerAdmission state) <| pa_pending := pending ++ [record] |> |>
          <| interactions := match interactions state with
                             | idle => admissionInteraction record
                             | shown => shown
                             end |>
  | _, _, _, _ => state
  end.

Definition provider_admission_retry_failed (state : AgentState) (payload : obj) : AgentState :=
  match nonEmptyStringField payload "interactionId" with
  | Some interactionId =>
      if showsAdmission state (Some interactionId) None then
        let pending := List.map (fun entry =>
            if entryOf interactionId entry
            then diagnosticField payload
                   (oset "providerStatus" (get payload "providerStatus") entry)
            else entry) (pa_pending (providerAdmission state)) in
        match List.find (entryOf interactionId) pending with
        | Some current =>
            state <| providerAdmission := (providerAdmission state) <| pa_pending := pending |> |>
              <| interactions := admissionInteraction current |>
        | None => state
        end
      else state
  | None => state
  end.

Definition provider_admission_satisfied (state : AgentState) (payload : obj) : AgentState :=
  match nonEmptyStringField payload "interactionId" with
  | Some interactionId =>
      if showsAdmission state (Some interactionId) None
      then settleProviderAdmission state interactionId None else state
  | None => state
  end.

Definition provider_admission_cancelled (state : AgentState) (payload : obj) : AgentState :=
  match nonEmptyStringField payload "interactionId" with
  | Some interactionId =>
      if showsAdmission state (Some interactionId) (Some (nonEmptyStringField payload "providerId"))
      then settleProviderAdmission state interactionId None else state
  | None => state
  end.

Definition waiverMessage (state : AgentState) (interactionId providerId waivedAt : string) : obj :=
  [("kind", VStr "runtime"); ("messageId", VStr ("provider-admission-waiver-" +:+ interactionId));
   ("turnId", VStr (turnId (turn state)));
   ("ordinal", VNum (Fin (Z.of_nat (length (messages (transcript state))))));
   ("createdAt", VStr waivedAt);
   ("content", VStr ("Required MCP provider '" +:+ providerId +:+ "' is unavailable. "
      +:+ "The user waived it for this session; its capabilities remain unavailable."))].

Definition provider_admission_waived (state : AgentState) (payload : obj) : AgentState :=
  match nonEmptyStringField payload "interactionId", nonEmptyStringField payload "providerId",
        nonEmptyStringField payload "waivedAt" with
  | Some interactionId, Some providerId, Some waivedAt =>
      if showsAdmission state (Some interactionId) (Some (Some providerId))
         && truthy (get payload "source") && truthy (get payload "reason") && isTimestamp waivedAt
      then
        let waiver : obj :=
          [("providerId", VStr providerId); ("source", get payload "source");
           ("reason", get payload "reason"); ("waivedAt", VStr waivedAt)] in
        let settled := settleProviderAdmission state interactionId (Some (providerId, waiver)) in
        settled
          <| providerAdmission := (providerAdmission settled)
               <| pa_waivers := oset providerId waiver (pa_waivers (providerAdmission settled)) |> |>
          <| transcript := (transcript settled)
               <| messages := messages (transcript settled)
                    ++ [waiverMessage settled interactionId providerId waivedAt] |> |>
      else state
  | _, _, _ => state
  end.

Definition interaction_turn_aborted (state : AgentState) (payload : obj) : AgentState :=
  match nonEmptyStringField payload "turnId", pa_pending (providerAdmission state) with
  | Some id, _ :: _ =>
      if id =s turnId (turn state) then
        state <| providerAdmission := (providerAdmission state) <| pa_pending := [] |> |>
          <| interactions := match interactions state with
                             | awaiting_provider_admission _ _ _ _ _ _ => idle
                             | shown => shown
                             end |>
      else state
  | _, _ => state
  end.

(** User, plan-review, and provider admission interactions share one reducer. *)
Definition reduceInteractionState (state : AgentState) (event : obj) : AgentState :=
  let type := ev_type event in
  let isType t := type =s t in
  if isType "user_input.requested" then user_input_requested state event
  else if isType "user_input.answered" || isType "user_input.cancelled"
  then user_input_closed state event
  else if isType "plan.review_requested" then interaction_review_requested state event
  else if isType "plan.approved" then interaction_plan_approved state event
  else if isType "plan.revision_requested" then interaction_review_declined state event "feedback"
  else if isType "plan.review_cancelled" then interaction_review_declined state event "reason"
  else if isType "provider.action_required" then provider_action_required state event
  else if isType "provider.action_started" then provider_action_started state event
  else if isType "provider.action_completed" || isType "provider.action_deferred"
          || isType "provider.action_failed"
  then provider_action_ended state type event
  else if isType "provider.admission_required" then provider_admission_required state event
  else if isType "provider.admission_retry_failed" then provider_admission_retry_failed state event
  else if isType "provider.admission_satisfied" then provider_admission_satisfied state event
  else if isType "provider.admission_cancelled" then provider_admission_cancelled state event
  else if isType "provider.admission_waived" then provider_admission_waived state event
  else if isType "turn.aborted" then interaction_turn_aborted state event
  else state.

(** ** Queued siblings of a plan review ([interaction-governance.ts]) *)

Definition PLAN_REVIEW_SIBLING_CANCELLATION_REASON_ : string :=
  "Cancelled because an earlier tool call opened an interaction.".

(** The calls to cancel, each with the one reason. *)
Definition decidePlanReviewSiblingCancellations (state : AgentState) (openingToolCallId : string)
  : list (string * string) :=
  match oget openingToolCallId (calls (tools state)) with
  | None => []
  | Some opening =>
      let openingOrdinal := default 0 (tc_ordinal opening) in
      List.map (fun candidate =>
          (tc_toolCallId candidate, PLAN_REVIEW_SIBLING_CANCELLATION_REASON_))
        (List.filter (fun candidate =>
             negb (tc_toolCallId candidate =s openingToolCallId)
             && bool_decide (tc_status candidate = t_queued)
             && (tc_modelMessageId candidate =s tc_modelMessageId opening)
             && (openingOrdinal <? default 0 (tc_ordinal candidate))) (callsOf state))
  end.
