(* ===== verification/InteractionClaims.v ===== *)
(** * What the interaction reducer promises

    Its plan branches never act after the lifecycle reducer, and the queue of
    provider admissions stays consistent with the waivers and with the admission
    that is shown. *)

From S2P Require Import Prelude Js Hash State Sample GrantKey Json Recovery Scheduler Completion CompletionReducer CompletionProps CompletionClaims Intent Lifecycle LifecycleProps LifecycleClaims Interaction.
From stdpp Require Import prelude strings list.
From Stdlib Require Import ZArith Lia Permutation.
Open Scope Z_scope.

(** ** Plan events *)

Section Host.
Context `{JsHost}.
Implicit Types (state : AgentState) (event : obj).

(** A transport the interaction reducer accepts, the lifecycle reducer accepts. *)
Lemma transport_matches value document : distinctKeys value = true ->
  planTransportMatchesDocument value document = true ->
  agentPlanTransportMatchesDocument value document = true.
Proof.
  intros Hd. unfold planTransportMatchesDocument, agentPlanTransportMatchesDocument, isPlanTransport,
    isAgentPlanTransport. destruct value as [| | | | | |plan]; try done. simpl isRecord. cbv iota.
  simpl jsonRecord.
  rewrite !andb_true_iff. intros; destruct_and!. split_and!; try done.
  - rewrite exactKeys_agree; [|apply (bool_decide_unpack (NoDup _)); vm_compute; reflexivity
                              |by eapply distinct_object].
    unfold Completion.hasExactKeys. apply andb_true_iff. by split.
  - unfold planStatus, isText, is_str in *. destruct (get plan "status"); try done. by bool_hyps; subst.
Qed.

Lemma interaction_review_cases state event : interaction_review_requested state event = state
  \/ exists ids taskId task document, reviewIdentity event = Some ids
       /\ nonEmptyStringField event "taskId" = Some taskId /\ activeTaskId state = Some taskId
       /\ oget taskId (tasks state) = Some task /\ draftOf (task_planning task) = Some document
       /\ namesDocument (pe_planId ids) (pe_version ids) (pe_structuralDigest ids) document = true
       /\ planTransportMatchesDocument (get event "plan") document = true.
Proof.
  unfold interaction_review_requested.
  destruct (reviewIdentity event) as [ids|]; [|by left].
  destruct (nonEmptyStringField event "taskId") as [taskId|]; [|by left].
  destruct (oget taskId (tasks state)) as [task|] eqn:Eo; [|by left].
  destruct (draftOf (task_planning task)) as [d|] eqn:Ed; [|by left].
  destruct (oget (pe_toolCallId ids) _); [|by left].
  match goal with |- context [if ?c then _ else _] => destruct c eqn:Ec end; [|by left].
  right. rewrite !andb_true_iff in Ec. destruct_and!. bool_hyps.
  exists ids, taskId, task, d. split_and!; try done.
Qed.

(** Under those conditions the lifecycle reducer opens the review. *)
Lemma lifecycle_opens_review state event ids taskId task document : plans_wf state ->
  distinctKeys (get event "plan") = true -> reviewIdentity event = Some ids ->
  nonEmptyStringField event "taskId" = Some taskId -> activeTaskId state = Some taskId ->
  oget taskId (tasks state) = Some task -> draftOf (task_planning task) = Some document ->
  namesDocument (pe_planId ids) (pe_version ids) (pe_structuralDigest ids) document = true ->
  planTransportMatchesDocument (get event "plan") document = true ->
  oget taskId (tasks (plan_review_requested state event))
  = Some (task <| task_planning := plan_awaiting_review document (pe_interactionId ids)
                                     (pe_toolCallId ids) |>).
Proof.
  intros [Hk Hv] Hd Hids Ht Ha Ho Hdr Hn Hm.
  assert (Hat : activeTask state = Some task).
  { apply nonEmptyStringField_some in Ht as [_ Hne]. unfold activeTask. rewrite Ha. simpl.
    by destruct taskId. }
  unfold plan_review_requested. rewrite Hat, Ht, Hdr, Hids, (Hk _ _ Ho). simpl opt_str_eqb.
  rewrite String.eqb_refl. cbn [negb].
  assert (isPlanDocument document = true) as ->.
  { destruct (Hv _ _ Ho) as [Hdoc _]. apply Hdoc. by destruct (task_planning task). }
  rewrite Hn, (transport_matches _ _ Hd Hm). simpl.
  unfold updateTask. rewrite Ho. simpl. apply oget_oset_eq.
Qed.

Lemma submitted_cases state event : tasks_keyed state -> plan_review_requested state event = state
  \/ exists taskId task, nonEmptyStringField event "taskId" = Some taskId
       /\ oget taskId (tasks (plan_review_requested state event)) = Some task
       /\ draftOf (task_planning task) = None.
Proof.
  intros Hk. unfold plan_review_requested.
  destruct (activeTask state) as [task|] eqn:Ea; [|by left].
  destruct (negb _) eqn:Et; [by left|]. destruct (draftOf _) as [d|]; [|by left].
  destruct (reviewIdentity event) as [ids|]; [|by left].
  destruct (isPlanDocument d && _ && _); [|by left]. right.
  apply negb_false_iff, opt_str_eqb_true in Et. destruct (activeTask_keyed _ _ Hk Ea) as [_ Ho].
  do 2 eexists. split; [done|]. split.
  - simpl. rewrite (updateTask_tasks _ _ _ _ Ho). apply oget_oset_eq.
  - done.
Qed.

Lemma review_requested_settled state event : plans_wf state ->
  distinctKeys (get event "plan") = true ->
  interaction_review_requested (plan_review_requested state event) event
  = plan_review_requested state event.
Proof.
  intros Hw Hd.
  destruct (interaction_review_cases (plan_review_requested state event) event)
    as [Hi|(ids & taskId & task & d & Hids & Ht & Ha & Ho & Hdr & Hn & Hm)]; [done|].
  destruct (submitted_cases state event (proj1 Hw)) as [Hs|(taskId' & task' & Ht' & Ho' & Hd')].
  - rewrite Hs in Ha, Ho.
    pose proof (lifecycle_opens_review _ _ _ _ _ _ Hw Hd Hids Ht Ha Ho Hdr Hn Hm) as Hx.
    rewrite Hs, Ho in Hx. injection Hx as Hx. rewrite Hx in Hdr. done.
  - assert (taskId' = taskId) as -> by congruence. congruence.
Qed.

(** The interaction reducer's test of the open review is the lifecycle's. *)
Lemma identity_matches state event : reviewIdentityMatches state event = true ->
  exists ids, reviewIdentity event = Some ids /\ answersReview ids (interactions state) = true.
Proof.
  unfold reviewIdentityMatches, reviewIdentity.
  destruct (interactions state); try done. rewrite !andb_true_iff. intros; destruct_and!.
  repeat match goal with E : opt_str_eqb _ _ = true |- _ => apply opt_str_eqb_true in E; rewrite E end.
  destruct (numberField event "version") as [v|]; [|done]. eexists. split; [done|].
  simpl. rewrite !String.eqb_refl. by simpl; rewrite andb_true_r.
Qed.

Lemma idle_matches state event : interactions state = idle -> reviewIdentityMatches state event = false.
Proof. unfold reviewIdentityMatches. by intros ->. Qed.

Lemma approved_settled state event :
  interaction_plan_approved (plan_approved state event) event = plan_approved state event.
Proof.
  unfold interaction_plan_approved.
  destruct (reviewIdentityMatches (plan_approved state event) event) eqn:Em; [|done].
  destruct (activeTask (plan_approved state event)) as [task|] eqn:Ea; [|done].
  destruct (task_status task), (task_planning task) eqn:Ep; try done.
  destruct (reviewMode event) as [m|] eqn:Er; [|done]. exfalso.
  destruct (identity_matches _ _ Em) as (ids & Hids & Hans).
  destruct (approved_cases state event) as [Hs|(t & d & i & c & ids' & m' & Ha & Hp & Hi & Hm & Hans')].
  - rewrite Hs in Ea, Hans. unfold plan_approved in Hs. rewrite Ea, Ep, Hids, Er, Hans in Hs.
    apply (f_equal interactions) in Hs. simpl in Hs. by rewrite <- Hs in Hans.
  - unfold plan_approved in Hans. rewrite Ha, Hp, Hi, Hm, Hans' in Hans. done.
Qed.

Lemma declined_settled state event field :
  interaction_review_declined (plan_review_declined state event field) event field
  = plan_review_declined state event field.
Proof.
  unfold interaction_review_declined.
  destruct (reviewIdentityMatches (plan_review_declined state event field) event) eqn:Em; [|done].
  destruct (activeTask (plan_review_declined state event field)) as [task|] eqn:Ea; [|done].
  destruct (task_status task), (task_planning task) eqn:Ep; try done.
  destruct (stringField event field) as [f|] eqn:Er; [|done]. exfalso.
  destruct (identity_matches _ _ Em) as (ids & Hids & Hans).
  unfold plan_review_declined in Ea, Hans.
  destruct (activeTask state) as [t|] eqn:Ea0; [|congruence].
  destruct (task_planning t) eqn:Ep0; try congruence.
  rewrite Hids, Er in Ea, Hans. destruct (answersReview ids (interactions state)) eqn:E.
  - done.
  - congruence.
Qed.

Definition PLAN_REVIEW_EVENTS : list string :=
  ["plan.review_requested"; "plan.approved"; "plan.revision_requested"; "plan.review_cancelled"].

(** Plan events are settled by the lifecycle reducer.  The interaction reducer
    repeats the four review events of a plan; on the state the lifecycle reducer
    leaves, with valid documents, it never changes anything, so the lifecycle
    reducer alone decides what a review event does. *)
Theorem plan_reviews_are_settled_once state event : plans_wf state ->
  distinctKeys (get event "plan") = true -> In (ev_type event) PLAN_REVIEW_EVENTS ->
  reduceInteractionState (reduceLifecycleState state event) event
  = reduceLifecycleState state event.
Proof.
  intros Hw Hd Hin. unfold reduceInteractionState, reduceLifecycleState.
  destruct Hin as [<-|[<-|[<-|[<-|[]]]]]; simpl.
  - by apply review_requested_settled.
  - apply approved_settled.
  - apply declined_settled.
  - apply declined_settled.
Qed.
End Host.

(** ** Provider admissions *)

Definition providerOf (entry : obj) : string := textOf entry "providerId".

(** A record as the reducer builds it. *)
Definition admission_entry (entry : obj) : Prop :=
  (exists i, stringField entry "interactionId" = Some i /\ i <> "")
  /\ (exists p, stringField entry "providerId" = Some p /\ p <> "").

Record admissions_inv (state : AgentState) : Prop := {
  ai_entries : Forall admission_entry (pa_pending (providerAdmission state));
  ai_distinct : NoDup (List.map providerOf (pa_pending (providerAdmission state)));
  ai_unwaived : Forall (fun entry => ohas (providerOf entry) (pa_waivers (providerAdmission state))
                                     = false) (pa_pending (providerAdmission state));
  ai_shown : forall i p source status diagnostic retryable,
    interactions state = awaiting_provider_admission i p source status diagnostic retryable ->
    exists entry, In entry (pa_pending (providerAdmission state))
      /\ textOf entry "interactionId" = i /\ providerOf entry = p }.

(** No admission is shown. *)
Definition shows_none (interaction : AgentInteractionState) : Prop :=
  match interaction with awaiting_provider_admission _ _ _ _ _ _ => False | _ => True end.

Section Admissions.
Implicit Types (state : AgentState) (event : obj).

Lemma admissions_frame state state' : providerAdmission state' = providerAdmission state ->
  interactions state' = interactions state \/ shows_none (interactions state') ->
  admissions_inv state -> admissions_inv state'.
Proof.
  intros Hp Hi [He Hd Hu Hs]. split; rewrite ?Hp; [done..|]. intros i p s st dg r E.
  destruct Hi as [Hi|Hi]; [|by rewrite E in Hi]. eapply Hs. by rewrite <- Hi.
Qed.

(** A filtered queue shows one of its entries or nothing. *)
Lemma filtered_inv state state' (keep : obj -> bool) (waivers : ordmap obj) :
  admissions_inv state ->
  providerAdmission state'
  = {| pa_pending := List.filter keep (pa_pending (providerAdmission state));
       pa_waivers := waivers |} ->
  (forall entry, In entry (pa_pending (providerAdmission state)) -> keep entry = true ->
     ohas (providerOf entry) waivers = false) ->
  interactions state' = match List.filter keep (pa_pending (providerAdmission state)) with
                        | next :: _ => admissionInteraction next | [] => idle end ->
  admissions_inv state'.
Proof.
  intros [He Hd Hu Hs] Hp Hw Hi. split; rewrite Hp; simpl.
  - rewrite Forall_forall in *. intros x [Hx _]%list_elem_of_In%filter_In. by apply He, list_elem_of_In.
  - clear -Hd. induction (pa_pending (providerAdmission state)) as [|e l IH]; simpl in *; [done|].
    apply NoDup_cons in Hd as [Hn Hd]. destruct (keep e); simpl; [|by apply IH].
    apply NoDup_cons. split; [|by apply IH]. intros Hin. apply Hn.
    apply list_elem_of_In, in_map_iff in Hin as (x & Hx & [Hin _]%filter_In).
    apply list_elem_of_In, in_map_iff. eauto.
  - apply Forall_forall. intros x [Hx Hk]%list_elem_of_In%filter_In. by apply Hw.
  - intros i p s st dg r E. rewrite Hi in E. destruct (List.filter _ _) as [|next l] eqn:Ef; [done|].
    injection E as <- <- _ _ _ _. exists next. split; [by left|done].
Qed.

Lemma entryOf_text i entry : admission_entry entry -> entryOf i entry = (textOf entry "interactionId" =s i).
Proof. intros [(j & Hj & _) _]. unfold entryOf, textOf. by rewrite Hj. Qed.

Lemma settle_inv state i waiver : admissions_inv state ->
  match waiver with
  | Some (p, _) => exists source status diagnostic retryable,
      interactions state = awaiting_provider_admission i p source status diagnostic retryable
  | None => True
  end -> admissions_inv (settleProviderAdmission state i waiver).
Proof.
  intros Hinv Hw. eapply filtered_inv; [exact Hinv|reflexivity| |reflexivity].
  intros entry Hin Hk. destruct Hinv as [He Hd Hu Hs]. rewrite Forall_forall in He, Hu.
  assert (Hun := Hu _ (proj2 (list_elem_of_In _ _) Hin)).
  destruct waiver as [[p w]|]; [|done]. destruct Hw as (s & st & dg & r & Hi).
  destruct (Hs _ _ _ _ _ _ Hi) as (shown & Hsin & Hid & Hpr).
  unfold ohas in *. rewrite oget_oset_ne; [done|]. intros Heq.
  assert (entry = shown) as ->.
  { clear -Hd Hin Hsin Heq Hpr. induction (pa_pending (providerAdmission state)) as [|e l IH]; [done|].
    simpl in Hd. apply NoDup_cons in Hd as [Hn Hd].
    destruct Hin as [->|Hin], Hsin as [->|Hsin]; try done; [| |by apply IH];
      destruct Hn; apply list_elem_of_In, in_map_iff; [exists shown|exists entry]; split; congruence. }
  rewrite entryOf_text in Hk by (by apply He, list_elem_of_In).
  by rewrite Hid, String.eqb_refl in Hk.
Qed.

Lemma shows_cases state i q : showsAdmission state (Some i) q = true ->
  exists p source status diagnostic retryable,
    interactions state = awaiting_provider_admission i p source status diagnostic retryable
    /\ match q with Some o => o = Some p | None => True end.
Proof.
  unfold showsAdmission. destruct (interactions state); try done.
  intros [Hi Hp]%andb_true_iff. apply opt_str_eqb_true in Hi as [= ->].
  do 5 eexists. split; [done|]. destruct q; [|done]. by apply opt_str_eqb_true in Hp.
Qed.

Lemma required_inv state event : admissions_inv state ->
  admissions_inv (provider_admission_required state event).
Proof.
  intros Hinv. unfold provider_admission_required.
  destruct (nonEmptyStringField event "interactionId") as [i|] eqn:Ei; [|done].
  destruct (nonEmptyStringField event "providerId") as [p|] eqn:Ep; [|done].
  match goal with |- context [match ?c with true => _ | false => _ end] => destruct c eqn:Ek end; [|done].
  destruct (booleanField event "retryable") as [r|]; [|done].
  destruct (ohas p _ || _) eqn:Ew; [done|]. apply orb_false_iff in Ew as [Hw Hx].
  apply nonEmptyStringField_some in Ei as [_ Hi], Ep as [_ Hp].
  set (record := (_ ++ [("retryable", _)]) : obj).
  assert (Hri : stringField record "interactionId" = Some i)
    by (unfold record, diagnosticField; by destruct (truthy _)).
  assert (Hrp : stringField record "providerId" = Some p)
    by (unfold record, diagnosticField; by destruct (truthy _)).
  assert (Hrpt : providerOf record = p) by (unfold providerOf, textOf; by rewrite Hrp).
  destruct Hinv as [He Hd Hu Hs]. split; simpl.
  - apply Forall_app. split; [done|]. apply Forall_singleton. split; eauto.
  - rewrite map_app. simpl. apply NoDup_app. split; [done|]. split; [|apply NoDup_singleton].
    intros x Hin%list_elem_of_In Hx'%list_elem_of_singleton. apply in_map_iff in Hin as (e & He' & Hin).
    pose proof (existsb_none _ _ _ Hx Hin) as Hne. cbv beta in Hne.
    rewrite Forall_forall in He. destruct (He e (proj2 (list_elem_of_In _ _) Hin)) as [_ (pe & Hpe & _)].
    rewrite Hpe in Hne. apply not_true_iff_false in Hne. apply Hne, opt_str_eqb_true. f_equal.
    assert (providerOf e = pe) by (unfold providerOf, textOf; by rewrite Hpe). congruence.
  - apply Forall_app. split; [done|]. apply Forall_singleton. by rewrite Hrpt.
  - intros i' p' s st dg r'. destruct (interactions state) eqn:Eint; try done.
    + intros [= <- <- _ _ _ _]. exists record. split; [apply in_or_app; right; by left|]. done.
    + intros [= <- <- _ _ _ _]. destruct (Hs _ _ _ _ _ _ eq_refl) as (e & Hin & ? & ?).
      exists e. split; [apply in_or_app; by left|done].
Qed.

Lemma diagnostic_frame event entry f : f <> "diagnosticCode" -> f <> "providerStatus" ->
  get (diagnosticField event (oset "providerStatus" (get event "providerStatus") entry)) f = get entry f.
Proof. intros ? ?. unfold diagnosticField. case_match; by rewrite !get_oset_ne. Qed.

Lemma retry_failed_inv state event : admissions_inv state ->
  admissions_inv (provider_admission_retry_failed state event).
Proof.
  intros Hinv. unfold provider_admission_retry_failed.
  destruct (nonEmptyStringField event "interactionId") as [i|]; [|done].
  destruct (showsAdmission _ _ _); [|done].
  set (g := fun entry => if entryOf i entry then _ else entry).
  destruct (List.find _ _) as [cur|] eqn:Ef; [|done]. apply find_some in Ef as [Hin _].
  assert (Hg : forall entry f, f <> "diagnosticCode" -> f <> "providerStatus" ->
    stringField (g entry) f = stringField entry f).
  { intros entry f ? ?. unfold g, stringField. destruct (entryOf i entry); [|done].
    by rewrite diagnostic_frame. }
  assert (Hgp : forall entry, providerOf (g entry) = providerOf entry)
    by (intros; unfold providerOf, textOf; by rewrite Hg).
  destruct Hinv as [He Hd Hu Hs]. split; simpl.
  - rewrite Forall_forall in *. intros x (e & <- & Hx)%list_elem_of_In%in_map_iff.
    unfold admission_entry. rewrite !Hg by done. by apply He, list_elem_of_In.
  - by rewrite map_map, (map_ext _ _ Hgp).
  - rewrite Forall_forall in *. intros x (e & <- & Hx)%list_elem_of_In%in_map_iff. rewrite Hgp.
    by apply Hu, list_elem_of_In.
  - intros i' p' s st dg r [= <- <- _ _ _ _]. exists cur. done.
Qed.

Lemma waived_inv state event : admissions_inv state ->
  admissions_inv (provider_admission_waived state event).
Proof.
  intros Hinv. unfold provider_admission_waived.
  destruct (nonEmptyStringField event "interactionId") as [i|]; [|done].
  destruct (nonEmptyStringField event "providerId") as [p|]; [|done].
  destruct (nonEmptyStringField event "waivedAt") as [at_|]; [|done].
  destruct (showsAdmission _ _ _ && _ && _ && _) eqn:Eg; [|done].
  apply andb_true_iff in Eg as [[[Hsh _]%andb_true_iff _]%andb_true_iff _].
  apply shows_cases in Hsh as (p' & s & st & dg & r & Hi & [= <-]).
  set (w := [("providerId", VStr p); _; _; _] : obj).
  assert (Hinv' : admissions_inv (settleProviderAdmission state i (Some (p, w))))
    by (apply settle_inv; eauto 8).
  destruct Hinv' as [He Hd Hu Hs]. split; simpl in *; try done.
  rewrite Forall_forall in *. intros x Hx. specialize (Hu x Hx). unfold ohas in *.
  rewrite oget_oset in Hu |- *. rewrite oget_oset. by destruct (providerOf x =s p).
Qed.

Lemma aborted_inv state event : admissions_inv state ->
  admissions_inv (interaction_turn_aborted state event).
Proof.
  intros Hinv. unfold interaction_turn_aborted.
  destruct (nonEmptyStringField event "turnId") as [id|]; [|done].
  destruct (pa_pending (providerAdmission state)); [done|]. case_match; [|done].
  split; simpl; try constructor. intros i p s st dg r. by destruct (interactions state).
Qed.

Lemma updateToolCall_plans state id f : providerAdmission (updateToolCall state id f) = providerAdmission state.
Proof. unfold updateToolCall. by case_match. Qed.

Lemma satisfied_inv state event : admissions_inv state ->
  admissions_inv (provider_admission_satisfied state event).
Proof.
  intros Hinv. unfold provider_admission_satisfied. repeat case_match; try done.
  by apply settle_inv.
Qed.

Lemma cancelled_inv state event : admissions_inv state ->
  admissions_inv (provider_admission_cancelled state event).
Proof.
  intros Hinv. unfold provider_admission_cancelled. repeat case_match; try done.
  by apply settle_inv.
Qed.

(** The other events show no admission and leave the queue alone. *)
Ltac other_event :=
  repeat case_match; try done;
  (eapply admissions_frame; [| |eassumption]; simpl;
   [first [done | apply updateToolCall_plans] | first [by right | by left]]).

Lemma interaction_keeps_admissions state event : admissions_inv state ->
  admissions_inv (reduceInteractionState state event).
Proof.
  intros Hinv. unfold reduceInteractionState.
  repeat match goal with |- context [if ?c then _ else _] => destruct c eqn:?E end;
    auto using required_inv, retry_failed_inv, waived_inv, aborted_inv, satisfied_inv, cancelled_inv.
  - unfold user_input_requested. other_event.
  - unfold user_input_closed. other_event.
  - unfold interaction_review_requested. other_event.
  - unfold interaction_plan_approved. other_event.
  - unfold interaction_review_declined. other_event.
  - unfold interaction_review_declined. other_event.
  - unfold provider_action_required. other_event.
  - unfold provider_action_started. other_event.
  - unfold provider_action_ended. other_event.
Qed.

(** Provider admissions stay consistent.  In every history of the interaction
    reducer each provider waits for admission at most once, no provider waits that
    the user has waived, and the admission shown to the user is one that waits, so
    an answer to it always settles something. *)
Theorem provider_admissions_are_consistent state events :
  admissions_inv state -> admissions_inv (fold_left reduceInteractionState events state).
Proof.
  intros Hinv. apply fold_left_inv; [done|]. intros s e _. apply interaction_keeps_admissions.
Qed.
End Admissions.

(** ** Instances *)

Lemma reviewedPlan_wf : plans_wf reviewedPlan.
Proof.
  split; [by eapply one_task_keyed|]. intros id t. simpl. destruct (id =s "task"); [|done].
  intros [= <-]. split; [|constructor]. intros d [= <-]. vm_compute. reflexivity.
Qed.

Lemma plan_reviews_are_settled_once_witness :
  reduceInteractionState (@reduceLifecycleState host0 reviewedPlan approveEvent) approveEvent
  = approvedPlan.
Proof.
  rewrite (@plan_reviews_are_settled_once host0 reviewedPlan approveEvent reviewedPlan_wf).
  - vm_compute. reflexivity.
  - reflexivity.
  - vm_compute. auto.
Defined.

Definition admissionEvent (type provider interaction : string) (rest : obj) : obj :=
  [("type", VStr type); ("interactionId", VStr interaction); ("providerId", VStr provider);
   ("source", VStr "project")] ++ rest.

(** Two providers ask, the first is waived. *)
Definition admissionEvents : list obj :=
  [admissionEvent "provider.admission_required" "p1" "i1"
     [("providerStatus", VStr "failed"); ("retryable", VBool true)];
   admissionEvent "provider.admission_required" "p2" "i2"
     [("providerStatus", VStr "failed"); ("retryable", VBool false)];
   admissionEvent "provider.admission_waived" "p1" "i1"
     [("reason", VStr "user_waived"); ("waivedAt", VStr "2026-01-02T03:04:05Z")]].

Lemma demo_admissions : admissions_inv demo.
Proof. split; [constructor..|done]. Qed.

Lemma provider_admissions_are_consistent_witness :
  admissions_inv (fold_left reduceInteractionState admissionEvents demo)
  /\ interactions (fold_left reduceInteractionState admissionEvents demo)
     = awaiting_provider_admission "i2" "p2" "project" "failed" None false
  /\ ohas "p1" (pa_waivers (providerAdmission (fold_left reduceInteractionState admissionEvents demo)))
     = true.
Proof.
  split; [|split; vm_compute; reflexivity].
  apply provider_admissions_are_consistent. exact demo_admissions.
Defined.
