(* ===== verification/Capability.v ===== *)
(** * The capability reducer ([domains/capability/reducer.ts])

    What the model may call (bindings, disclosures, loaded capabilities, the
    pending search) and the record of every external invocation: its attempts, the
    filesystem intent, the sandbox from preparation to disposal, the subagent from
    dispatch to cleanup, and its outcome.  An invocation is the JSON object the
    reducer builds by object spread; an optional member that the source sets to
    [undefined] keeps its key.  Reading a property of an absent member throws, as
    in the source. *)

From S2P Require Import Prelude Js Hash State Completion Verification Lifecycle.
From stdpp Require Import prelude strings list pretty.
From Stdlib Require Import ZArith Lia.
Open Scope Z_scope.

(** ** Catalogues *)

(** [Array.isArray(value) ? value : Object.values(recordField({ value }, 'value') ?? {})]. *)
Definition entriesOf (value : val) : list val :=
  match value with VArr l => l | VObj o => ovalues o | _ => [] end.

(** The entries whose fields are all non-empty texts, keyed by the first field; each
    keeps just those fields. *)
Definition keyedBy (fields : list string) (value : val) : ordmap obj :=
  List.fold_left (fun result entry =>
      let candidate := jsonRecord entry in
      if forallb (fun f => is_some (nonEmptyStringField candidate f)) fields
      then oset (textOf candidate (hd "" fields))
             (List.map (fun f => (f, VStr (textOf candidate f))) fields) result
      else result) (entriesOf value) [].

Definition keyedBindings (value : val) : ordmap obj :=
  keyedBy ["bindingId"; "capabilityId"; "capabilityRevision"; "exposedToolName"; "schemaDigest";
           "issuedForTurnId"] value.
Definition keyedDisclosures (value : val) : ordmap obj :=
  keyedBy ["capabilityId"; "capabilityRevision"; "issuedForTurnId"] value.
Definition keyedLoadedCapabilities (value : val) : ordmap obj :=
  keyedBy ["capabilityId"; "capabilityRevision"; "firstLoadedAtTurnId"] value.

Definition CAPABILITY_EVENTS : list string :=
  ["capability.bindings_issued"; "capability.search_completed"; "capability.invocation_recorded";
   "capability.execution_started"; "capability.filesystem_intent_recorded";
   "capability.filesystem_mutation_ready"; "capability.sandbox_preparation_intent_recorded";
   "capability.sandbox_preparation_ready";
   "capability.sandbox_execution_dispatch_intent_recorded";
   "capability.sandbox_execution_supervisor_started"; "capability.sandbox_disposal_started";
   "capability.sandbox_disposal_completed"; "capability.sandbox_preparation_abandonment_started";
   "capability.sandbox_preparation_abandonment_completed";
   "capability.subagent_dispatch_intent_recorded"; "capability.subagent_handle_recorded";
   "capability.subagent_observation_recorded"; "capability.subagent_cleanup_started";
   "capability.subagent_cleanup_completed"; "capability.execution_result_recorded";
   "capability.execution_succeeded"; "capability.execution_failed";
   "capability.execution_unknown"; "capability.reconciliation_resolved"].

Definition isCapabilityEvent (type : string) : bool := str_in type CAPABILITY_EVENTS.

Definition updateCapabilityInvocation (state : AgentState) (invocationId : string)
    (update : obj -> res obj) : res AgentState :=
  match oget invocationId (cap_invocations (capabilities state)) with
  | None => Ok state
  | Some invocation =>
      let* next := update invocation in
      Ok (state <| capabilities := (capabilities state)
            <| cap_invocations := oset invocationId next
                                    (cap_invocations (capabilities state)) |> |>)
  end.

(** ** Reading and building objects *)

(** [v?.k]. *)
Definition optProp (v : val) (k : string) : val :=
  match v with VObj o => get o k | _ => VUndef end.

(** [a && b] where reading [b] may throw. *)
Definition and_then (a : bool) (b : res bool) : res bool := if a then b else Ok false.

(** [v.k === payload[f]]. *)
Definition sameProp (v : val) (k : string) (expected : val) : res bool :=
  let* x := propOf v k in Ok (sameValue x expected).

(** [{ f1: payload.f1, f2: payload.f2, ... }]. *)
Definition copied (fields : list string) (payload : obj) : obj :=
  List.map (fun f => (f, get payload f)) fields.

(** [...(payload[f] ? { [f]: payload[f] } : {})]. *)
Definition copiedIf (f : string) (payload : obj) : obj :=
  if truthy (get payload f) then [(f, get payload f)] else [].

(** [{ ...invocation, ...fields }]. *)
Definition spread (invocation fields : obj) : obj :=
  List.fold_left (fun o '(k, v) => oset k v o) fields invocation.

Definition numVal (z : Z) : val := VNum (Fin z).

(** [v + 1] of a counter. *)
Definition succNum (v : val) : num :=
  match v with VNum n => nadd n (Fin 1) | _ => NaN end.

Definition statusIs (v : val) (s : string) : bool := is_str (optProp v "status") s.

(** ** Invocations *)

Definition recordedInvocation (invocationId : string) (payload : obj) : obj :=
  [("invocationId", VStr invocationId)]
  ++ copied ["toolCallId"; "capabilityId"; "capabilityRevision"] payload
  ++ copiedIf "taskId" payload ++ copiedIf "planId" payload ++ copiedIf "planStepId" payload
  ++ copied ["argumentsDigest"; "authorizationDigest"] payload
  ++ copiedIf "admissionDigest" payload
  ++ copied ["effectiveEffectsDigest"] payload
  ++ copiedIf "receiptRequirement" payload ++ copiedIf "retryEligibility" payload
  ++ [("status", VStr "recorded")]
  ++ copied ["recordedAt"] payload
  ++ copiedIf "idempotencyKey" payload.

(** What an attempt acquired is not yet released. *)
Definition holdsResources (invocation : obj) : bool :=
  (truthy (get invocation "sandboxPreparationReady")
   && negb (statusIs (get invocation "sandboxDisposal") "completed"))
  || (truthy (get invocation "sandboxPreparationIntent")
      && negb (truthy (get invocation "sandboxPreparationReady"))
      && negb (statusIs (get invocation "sandboxPreparationAbandonment") "completed"))
  || (truthy (get invocation "subagentProviderLifecycle")
      && negb (statusIs (get invocation "subagentProviderLifecycle") "cleanup_completed")).

(** The members of an attempt. *)
Definition ATTEMPT_MEMBERS : list string :=
  ["filesystemIntent"; "filesystemMutationReady"; "sandboxPreparationIntent";
   "sandboxPreparationReady"; "sandboxExecutionDispatch"; "sandboxDisposal";
   "sandboxPreparationAbandonment"; "subagentProviderLifecycle"].

Definition hasStatus (invocation : obj) (s : string) : bool := is_str (get invocation "status") s.

(** [invocation.attemptsStarted ?? 0]. *)
Definition priorAttempt (invocation : obj) : num :=
  match nullish (get invocation "attemptsStarted") (numVal 0) with VNum n => n | _ => NaN end.

Definition execution_started (payload invocation : obj) : obj :=
  let eventAttempt := numberField payload "attempt" in
  if negb (hasStatus invocation "recorded") && negb (hasStatus invocation "running")
  then invocation
  else if holdsResources invocation then invocation
  else
    let prior := priorAttempt invocation in
    let attemptsStarted := match eventAttempt with
                           | Some a => nmax prior (Fin a) | None => prior end in
    let attemptAdvanced := nltb prior attemptsStarted in
    spread invocation
      ([("status", VStr "running");
        ("startedAt", nullish (get invocation "startedAt") (get payload "startedAt"))]
       ++ match eventAttempt with
          | Some _ => [("attemptsStarted", VNum attemptsStarted)] | None => [] end
       ++ if attemptAdvanced then List.map (fun f => (f, VUndef)) ATTEMPT_MEMBERS else []).

(** [invocation.attemptsStarted === attempt]. *)
Definition inAttempt (invocation : obj) (attempt : Z) : bool :=
  is_num (get invocation "attemptsStarted") attempt.

Definition filesystem_intent_recorded (payload invocation : obj) (attempt : Z) : res obj :=
  Ok (if hasStatus invocation "running" && inAttempt invocation attempt then
        spread invocation
          [("filesystemIntent", VObj (("attempt", numVal attempt) :: copied
              ["capabilityRevision"; "argumentsDigest"; "admissionDigest"; "operationDigest";
               "searchBoundaryDigest"; "lexicalTargetDigest"; "canonicalWorkspaceDigest";
               "protectedPathRevision"; "approvalSummaryDigest"; "effectiveEffectsDigest";
               "intentDigest"; "recordedAt"] payload));
           ("filesystemMutationReady", VUndef)]
      else invocation).

Definition filesystem_mutation_ready (payload invocation : obj) (attempt : Z) : res obj :=
  let intent := get invocation "filesystemIntent" in
  let* ok := and_then (hasStatus invocation "running" && inAttempt invocation attempt
                       && is_num (optProp intent "attempt") attempt)
               (sameProp intent "intentDigest" (get payload "intentDigest")) in
  Ok (if ok then
        spread invocation
          [("filesystemMutationReady", VObj (("attempt", numVal attempt) :: copied
              ["intentDigest"; "operationDigest"; "targetIdentityDigest"; "preimageDigest";
               "preimageArtifact"; "readyDigest"; "readyAt"] payload))]
      else invocation).

(** [invocation[f] === payload[f]]. *)
Definition sameField (payload invocation : obj) (f : string) : bool :=
  sameValue (get invocation f) (get payload f).

Definition sandbox_preparation_intent_recorded (payload invocation : obj) (attempt : Z)
  : res obj :=
  Ok (if hasStatus invocation "running"
         && is_str (get invocation "capabilityId") "builtin:shell_execute"
         && inAttempt invocation attempt
         && forallb (sameField payload invocation)
              ["toolCallId"; "capabilityId"; "capabilityRevision"; "effectiveEffectsDigest";
               "admissionDigest"]
      then
        spread invocation
          [("sandboxPreparationIntent", VObj (("attempt", numVal attempt) :: copied
              ["toolCallId"; "capabilityId"; "capabilityRevision"; "canonicalWorkspace";
               "effectiveEffectsDigest"; "admissionDigest"; "preparationDigest"; "commandDigest";
               "executionBoundaryDigest"; "resourceSemantics"; "intentDigest"; "recordedAt"]
              payload));
           ("sandboxPreparationReady", VUndef)]
      else invocation).

Definition sandbox_preparation_ready (payload invocation : obj) (attempt : Z) : res obj :=
  Ok (if hasStatus invocation "running"
         && is_str (get invocation "capabilityId") "builtin:shell_execute"
         && inAttempt invocation attempt
         && sameValue (optProp (get invocation "sandboxPreparationIntent") "intentDigest")
              (get payload "intentDigest")
      then
        spread invocation
          [("sandboxPreparationReady", VObj (("attempt", numVal attempt) :: copied
              ["intentDigest"; "preparationDigest"; "commandDigest"; "planDigest"; "backend";
               "backendCapabilitiesDigest"; "enforcement"; "resourceSemantics"; "cleanupDigest";
               "preparationArtifact"; "readyDigest"; "readyAt"] payload))]
      else invocation).

Definition sandbox_execution_dispatch_intent_recorded (payload invocation : obj) (attempt : Z)
  : res obj :=
  let ready := get invocation "sandboxPreparationReady" in
  let* ok := and_then (hasStatus invocation "running" && inAttempt invocation attempt
                       && sameValue (optProp ready "readyDigest") (get payload "readyDigest"))
               (sameProp ready "planDigest" (get payload "planDigest")) in
  Ok (if ok && is_undef (get invocation "sandboxExecutionDispatch") then
        spread invocation
          [("sandboxExecutionDispatch", VObj (("attempt", numVal attempt) :: copied
              ["readyDigest"; "planDigest"; "dispatchId"; "supervisorNonce";
               "dispatchIntentDigest"] payload
              ++ [("status", VStr "intent_recorded"); ("recordedAt", get payload "recordedAt")]))]
      else invocation).

Definition sandbox_execution_supervisor_started (payload invocation : obj) (attempt : Z)
  : res obj :=
  let dispatch := get invocation "sandboxExecutionDispatch" in
  Ok (if statusIs dispatch "intent_recorded" && is_num (optProp dispatch "attempt") attempt
         && sameValue (optProp dispatch "dispatchId") (get payload "dispatchId")
         && sameValue (optProp dispatch "dispatchIntentDigest")
              (get payload "dispatchIntentDigest")
      then
        spread invocation
          [("sandboxExecutionDispatch", VObj (spread (jsonRecord dispatch)
              ([("status", VStr "supervisor_started")]
               ++ copied ["supervisorPid"; "processGroupId"; "processStartIdentity"] payload
               ++ [("supervisorStartedAt", get payload "startedAt")])))]
      else invocation).

Definition sandbox_disposal_started (payload invocation : obj) (attempt : Z) : res obj :=
  let ready := get invocation "sandboxPreparationReady" in
  let* ok := and_then (sameValue (optProp ready "readyDigest") (get payload "readyDigest"))
               (sameProp ready "attempt" (numVal attempt)) in
  Ok (if ok && is_undef (get invocation "sandboxDisposal") then
        spread invocation
          [("sandboxDisposal", VObj (("attempt", numVal attempt)
              :: copied ["readyDigest"; "lifecycleIntentDigest"] payload
              ++ [("status", VStr "pending"); ("startedAt", get payload "startedAt");
                  ("attempts", numVal 0)]))]
      else invocation).

(** The result of one try to release a sandbox, of a disposal or an abandonment. *)
Definition cleanupTried (record payload : obj) : obj :=
  let disposed := truthy (get payload "disposed") in
  spread record
    [("status", VStr (if disposed then "completed" else "pending"));
     ("attempts", VNum (succNum (get record "attempts")));
     ("disposedAt", if disposed then get payload "disposedAt" else VUndef);
     ("lastFailureAt", if disposed then VUndef else get payload "disposedAt")].

(** The try the event reports is the next one of this record. *)
Definition nextCleanup (record : val) (digestField : string) (payload : obj)
    (attempt cleanupAttempt : Z) : bool :=
  statusIs record "pending"
  && sameValue (optProp record digestField) (get payload digestField)
  && is_num (optProp record "attempt") attempt
  && sameValue (optProp record "lifecycleIntentDigest") (get payload "lifecycleIntentDigest")
  && neqb (Fin cleanupAttempt) (succNum (optProp record "attempts")).

Definition sandbox_disposal_completed (payload invocation : obj) (attempt cleanupAttempt : Z)
  : res obj :=
  let disposal := get invocation "sandboxDisposal" in
  Ok (if nextCleanup disposal "readyDigest" payload attempt cleanupAttempt
      then spread invocation
             [("sandboxDisposal", VObj (cleanupTried (jsonRecord disposal) payload))]
      else invocation).

Definition sandbox_preparation_abandonment_started (payload invocation : obj) (attempt : Z)
  : res obj :=
  let intent := get invocation "sandboxPreparationIntent" in
  let* ok := and_then (sameValue (optProp intent "intentDigest") (get payload "intentDigest"))
               (sameProp intent "attempt" (numVal attempt)) in
  Ok (if ok && is_undef (get invocation "sandboxPreparationReady")
         && is_undef (get invocation "sandboxPreparationAbandonment")
      then
        spread invocation
          [("sandboxPreparationAbandonment", VObj (("attempt", numVal attempt)
              :: copied ["intentDigest"; "lifecycleIntentDigest"] payload
              ++ [("status", VStr "pending"); ("startedAt", get payload "startedAt");
                  ("attempts", numVal 0)]))]
      else invocation).

Definition sandbox_preparation_abandonment_completed (payload invocation : obj)
    (attempt cleanupAttempt : Z) : res obj :=
  let abandonment := get invocation "sandboxPreparationAbandonment" in
  Ok (if nextCleanup abandonment "intentDigest" payload attempt cleanupAttempt
      then spread invocation
             [("sandboxPreparationAbandonment",
                VObj (cleanupTried (jsonRecord abandonment) payload))]
      else invocation).

(** ** Subagents *)

Definition subagent_dispatch_intent_recorded (payload invocation : obj) (attempt : Z) : res obj :=
  Ok (if hasStatus invocation "running" && inAttempt invocation attempt
         && (is_str (get invocation "capabilityId") "builtin:task"
             || is_str (get invocation "capabilityId") "builtin:activate_skill")
         && is_undef (get invocation "subagentProviderLifecycle")
      then
        spread invocation
          [("subagentProviderLifecycle", VObj (("attempt", numVal attempt) :: copied
              ["purpose"; "childInvocationId"; "taskArtifact"; "dispatchIntentDigest"] payload
              ++ [("status", VStr "intent_recorded"); ("recordedAt", get payload "recordedAt")]))]
      else invocation).

(** The event is about this dispatch. *)
Definition ofDispatch (lifecycle : val) (payload : obj) (attempt : Z) : bool :=
  is_num (optProp lifecycle "attempt") attempt
  && sameValue (optProp lifecycle "dispatchIntentDigest") (get payload "dispatchIntentDigest").

Definition withLifecycle (invocation : obj) (fields : obj) : obj :=
  spread invocation
    [("subagentProviderLifecycle",
       VObj (spread (jsonRecord (get invocation "subagentProviderLifecycle")) fields))].

Definition subagent_handle_recorded (payload invocation : obj) (attempt : Z) : res obj :=
  let lifecycle := get invocation "subagentProviderLifecycle" in
  Ok (if statusIs lifecycle "intent_recorded" && ofDispatch lifecycle payload attempt
      then withLifecycle invocation
             ([("status", VStr "handle_recorded")]
              ++ copied ["handleArtifact"; "handleIntegrityIdentifier"] payload
              ++ [("handleRecordedAt", get payload "recordedAt")])
      else invocation).

Definition subagent_observation_recorded (payload invocation : obj) (attempt : Z) : res obj :=
  let lifecycle := get invocation "subagentProviderLifecycle" in
  Ok (if statusIs lifecycle "handle_recorded" && ofDispatch lifecycle payload attempt
      then withLifecycle invocation
             [("status", VStr "observed"); ("observationStatus", get payload "status");
              ("observedAt", get payload "observedAt")]
      else invocation).

Definition subagent_cleanup_started (payload invocation : obj) (attempt cleanupAttempt : Z)
  : res obj :=
  let lifecycle := get invocation "subagentProviderLifecycle" in
  Ok (if truthy lifecycle && ofDispatch lifecycle payload attempt
         && neqb (Fin cleanupAttempt)
              (succNum (nullish (optProp lifecycle "cleanupAttempt") (numVal 0)))
      then withLifecycle invocation
             [("status", VStr "cleanup_pending"); ("cleanupAttempt", numVal cleanupAttempt);
              ("cleanupKind", get payload "cleanupKind");
              ("cleanupStartedAt", get payload "startedAt"); ("cleanupConfirmed", VUndef);
              ("cleanupCompletedAt", VUndef)]
      else invocation).

Definition subagent_cleanup_completed (payload invocation : obj) (attempt cleanupAttempt : Z)
  : res obj :=
  let lifecycle := get invocation "subagentProviderLifecycle" in
  Ok (if statusIs lifecycle "cleanup_pending" && ofDispatch lifecycle payload attempt
         && is_num (optProp lifecycle "cleanupAttempt") cleanupAttempt
         && sameValue (optProp lifecycle "cleanupKind") (get payload "cleanupKind")
      then withLifecycle invocation
             [("status", VStr (if truthy (get payload "cleanupConfirmed") then "cleanup_completed"
                               else "cleanup_pending"));
              ("cleanupConfirmed", get payload "cleanupConfirmed");
              ("cleanupCompletedAt", get payload "completedAt")]
      else invocation).

(** ** Outcomes *)

Definition execution_result_recorded (payload invocation : obj) : res obj :=
  Ok (if hasStatus invocation "running"
      then spread invocation (copied ["resultDigest"; "evidenceDigest"; "artifact"] payload
                              ++ copiedIf "externalReferences" payload)
      else invocation).

Definition execution_succeeded (payload invocation : obj) : res obj :=
  Ok (spread (odelete "error" invocation)
        ([("status", VStr "succeeded")]
         ++ copied ["finishedAt"; "resultDigest"; "evidenceDigest"] payload
         ++ copiedIf "artifact" payload ++ copiedIf "externalReferences" payload
         ++ copiedIf "filesystemObservation" payload)).

Definition execution_failed (payload invocation : obj) : res obj :=
  Ok (spread invocation
        ([("status", VStr "failed")] ++ copied ["finishedAt"; "error"] payload
         ++ copiedIf "resultDigest" payload ++ copiedIf "evidenceDigest" payload
         ++ copiedIf "artifact" payload)).

Definition execution_unknown (payload invocation : obj) : res obj :=
  Ok (spread invocation
        [("status", VStr "unknown"); ("finishedAt", get payload "finishedAt");
         ("error", get payload "reason")]).

Definition reconciliation_resolved (payload invocation : obj) : res obj :=
  let confirmed := is_str (get payload "decision") "confirmed_success" in
  Ok (spread invocation
        [("status", VStr (if confirmed then "succeeded" else "failed"));
         ("finishedAt", get payload "reconciledAt"); ("reconciliation", get payload "decision");
         ("reconciledAt", get payload "reconciledAt");
         ("error", if confirmed then VUndef
                   else nullish (get payload "reason")
                          (VStr "External invocation outcome was not confirmed."))]).

(** ** The reducer *)

Definition bindings_issued (state : AgentState) (payload : obj) : AgentState :=
  match nonEmptyStringField payload "catalogRevision" with
  | None => state
  | Some catalogRevision =>
      let caps := capabilities state in
      let searchId := match cap_pendingSearch caps with
                      | Some s => get s "searchId" | None => VUndef end in
      state <| capabilities :=
        {| cap_catalogRevision := catalogRevision;
           cap_bindings := keyedBindings (get payload "bindings");
           cap_disclosures := keyedDisclosures (get payload "disclosures");
           cap_pendingSearch :=
             if sameValue (of_opt_str (stringField payload "searchId")) searchId then None
             else cap_pendingSearch caps;
           cap_loadedCapabilities :=
             match get payload "loadedCapabilities" with
             | VUndef | VNull => cap_loadedCapabilities caps
             | v => keyedLoadedCapabilities v
             end;
           cap_invocations := cap_invocations caps |} |>
  end.

Definition search_completed (state : AgentState) (payload : obj) : AgentState :=
  state <| capabilities := (capabilities state)
    <| cap_pendingSearch := recordField payload "result" |> |>.

Definition invocation_recorded (state : AgentState) (payload : obj) : AgentState :=
  match nonEmptyStringField payload "invocationId" with
  | None => state
  | Some invocationId =>
      if ohas invocationId (cap_invocations (capabilities state)) then state
      else state <| capabilities := (capabilities state)
             <| cap_invocations := oset invocationId (recordedInvocation invocationId payload)
                                     (cap_invocations (capabilities state)) |> |>
  end.

(** The update of an event about one invocation; [None] when the event lacks a
    number it needs or is of no such type. *)
Definition invocationUpdate (type : string) (payload : obj) : option (obj -> res obj) :=
  let isType t := type =s "capability." +:+ t in
  let attempt := numberField payload "attempt" in
  let cleanupAttempt := numberField payload "cleanupAttempt" in
  let with_attempt f := option_map (fun a invocation => f payload invocation a) attempt in
  let with_cleanup f := match attempt, cleanupAttempt with
                        | Some a, Some c => Some (fun invocation => f payload invocation a c)
                        | _, _ => None
                        end in
  if isType "execution_started" then Some (fun i => Ok (execution_started payload i))
  else if isType "filesystem_intent_recorded" then with_attempt filesystem_intent_recorded
  else if isType "filesystem_mutation_ready" then with_attempt filesystem_mutation_ready
  else if isType "sandbox_preparation_intent_recorded"
  then with_attempt sandbox_preparation_intent_recorded
  else if isType "sandbox_preparation_ready" then with_attempt sandbox_preparation_ready
  else if isType "sandbox_execution_dispatch_intent_recorded"
  then with_attempt sandbox_execution_dispatch_intent_recorded
  else if isType "sandbox_execution_supervisor_started"
  then with_attempt sandbox_execution_supervisor_started
  else if isType "sandbox_disposal_started" then with_attempt sandbox_disposal_started
  else if isType "sandbox_disposal_completed" then with_cleanup sandbox_disposal_completed
  else if isType "sandbox_preparation_abandonment_started"
  then with_attempt sandbox_preparation_abandonment_started
  else if isType "sandbox_preparation_abandonment_completed"
  then with_cleanup sandbox_preparation_abandonment_completed
  else if isType "subagent_dispatch_intent_recorded"
  then with_attempt subagent_dispatch_intent_recorded
  else if isType "subagent_handle_recorded" then with_attempt subagent_handle_recorded
  else if isType "subagent_observation_recorded" then with_attempt subagent_observation_recorded
  else if isType "subagent_cleanup_started" then with_cleanup subagent_cleanup_started
  else if isType "subagent_cleanup_completed" then with_cleanup subagent_cleanup_completed
  else if isType "execution_result_recorded" then Some (execution_result_recorded payload)
  else if isType "execution_succeeded" then Some (execution_succeeded payload)
  else if isType "execution_failed" then Some (execution_failed payload)
  else if isType "execution_unknown" then Some (execution_unknown payload)
  else if isType "reconciliation_resolved" then Some (reconciliation_resolved payload)
  else None.

(** Capability intent/receipt facts are reduced by this fixed domain owner. *)
Definition reduceCapabilityState (state : AgentState) (event : obj) : res AgentState :=
  let type := ev_type event in
  if negb (isCapabilityEvent type) then Ok state
  else if type =s "capability.bindings_issued" then Ok (bindings_issued state event)
  else if type =s "capability.search_completed" then Ok (search_completed state event)
  else if type =s "capability.invocation_recorded" then Ok (invocation_recorded state event)
  else
    match nonEmptyStringField event "invocationId", invocationUpdate type event with
    | Some invocationId, Some update => updateCapabilityInvocation state invocationId update
    | _, _ => Ok state
    end.
