(* ===== verification/CapabilityClaims.v ===== *)
(** * What the capability reducer promises

    Every event moves the record of an invocation along one protocol: its identity
    never changes, a settled invocation never runs again, an attempt starts only
    when the one before has released its sandbox and its subagent, and each attempt
    dispatches at most once. *)

From S2P Require Import Prelude Js Hash State Sample Completion Verification Lifecycle Capability.
From stdpp Require Import prelude strings list pretty.
From Stdlib Require Import ZArith Lia.
Open Scope Z_scope.

(** ** The protocol *)

Definition IDENTITY_FIELDS : list string :=
  ["invocationId"; "toolCallId"; "capabilityId"; "capabilityRevision"; "taskId"; "planId";
   "planStepId"; "argumentsDigest"; "authorizationDigest"; "admissionDigest";
   "effectiveEffectsDigest"; "receiptRequirement"; "retryEligibility"; "recordedAt";
   "idempotencyKey"].

Definition DISPATCH_FIELDS : list string :=
  ["attempt"; "readyDigest"; "planDigest"; "dispatchId"; "supervisorNonce";
   "dispatchIntentDigest"].

Definition SUBAGENT_FIELDS : list string :=
  ["attempt"; "purpose"; "childInvocationId"; "taskArtifact"; "dispatchIntentDigest"].

(** The invocation can no longer run. *)
Definition settled (invocation : obj) : bool :=
  negb (hasStatus invocation "recorded") && negb (hasStatus invocation "running").

(** The member is there, with the fields it had. *)
Definition keeps (fields : list string) (v v' : val) : Prop :=
  v <> VUndef -> v' <> VUndef /\ forall f, In f fields -> optProp v' f = optProp v f.

(** The attempt goes on. *)
Record same_attempt (i i' : obj) : Prop := {
  sa_attempt : priorAttempt i' = priorAttempt i;
  sa_dispatch : keeps DISPATCH_FIELDS (get i "sandboxExecutionDispatch")
                  (get i' "sandboxExecutionDispatch");
  sa_subagent : keeps SUBAGENT_FIELDS (get i "subagentProviderLifecycle")
                  (get i' "subagentProviderLifecycle");
  sa_disposed : statusIs (get i "sandboxDisposal") "completed" = true ->
                statusIs (get i' "sandboxDisposal") "completed" = true;
  sa_abandoned : statusIs (get i "sandboxPreparationAbandonment") "completed" = true ->
                 statusIs (get i' "sandboxPreparationAbandonment") "completed" = true }.

(** A new attempt starts: the one before held nothing any more, and the new one
    starts with nothing. *)
Record next_attempt (i i' : obj) : Prop := {
  na_advanced : nltb (priorAttempt i) (priorAttempt i') = true;
  na_running : hasStatus i' "running" = true;
  na_released : holdsResources i = false;
  na_clean : forall f, In f ATTEMPT_MEMBERS -> get i' f = VUndef }.

Record invocation_step (i i' : obj) : Prop := {
  is_identity : forall f, In f IDENTITY_FIELDS -> get i' f = get i f;
  is_settled : settled i = true -> settled i' = true;
  is_attempt : same_attempt i i' \/ next_attempt i i' }.

(** ** Lemmas on spreads *)

#[local] Arguments spread : simpl never.
#[local] Arguments copied : simpl never.

Lemma get_spread_ne fields o f : ~ In f (List.map fst fields) -> get (spread o fields) f = get o f.
Proof.
  unfold spread. revert o. induction fields as [|[k v] l IH]; intros o Hn; [done|]. simpl in *.
  rewrite IH by tauto. apply get_oset_ne. intros ->. tauto.
Qed.

Lemma get_spread_app l r o f : get (spread o (l ++ r)) f = get (spread (spread o l) r) f.
Proof. unfold spread. by rewrite fold_left_app. Qed.

Lemma get_spread_last l k v o : get (spread o (l ++ [(k, v)])) k = v.
Proof. rewrite get_spread_app. unfold spread. simpl. apply get_oset_eq. Qed.

Lemma get_spread_one k v o : get (spread o [(k, v)]) k = v.
Proof. unfold spread. simpl. apply get_oset_eq. Qed.

(** The members and counters a step may set without touching the protocol. *)
Lemma keeps_refl fields v : keeps fields v v.
Proof. intros Hv. by split. Qed.

Lemma keeps_undef fields v : keeps fields VUndef v.
Proof. by intros []. Qed.

#[local] Hint Resolve keeps_refl keeps_undef : core.

Definition PROTOCOL_FIELDS : list string :=
  ["status"; "attemptsStarted"; "sandboxExecutionDispatch"; "subagentProviderLifecycle";
   "sandboxDisposal"; "sandboxPreparationAbandonment"].

(** An update that leaves identity and protocol alone. *)
Lemma unchanged_step i i' :
  (forall f, In f (IDENTITY_FIELDS ++ PROTOCOL_FIELDS) -> get i' f = get i f) -> invocation_step i i'.
Proof.
  intros Hf.
  assert (Hp : forall f, In f PROTOCOL_FIELDS -> get i' f = get i f)
    by (intros; apply Hf, in_or_app; auto).
  split.
  - intros f Hin. apply Hf, in_or_app. auto.
  - unfold settled, hasStatus. rewrite (Hp "status") by (simpl; tauto). done.
  - left. split; rewrite ?Hp by (simpl; tauto); auto.
    unfold priorAttempt. by rewrite (Hp "attemptsStarted") by (simpl; tauto).
Qed.

Lemma refl_step i : invocation_step i i.
Proof. by apply unchanged_step. Qed.

(** Fields outside a list are kept by a spread over it. *)
Lemma spread_frame_step i fields :
  (forall f, In f (IDENTITY_FIELDS ++ PROTOCOL_FIELDS) -> ~ In f (List.map fst fields)) ->
  invocation_step i (spread i fields).
Proof. intros Hf. apply unchanged_step. intros f Hin. apply get_spread_ne. by apply Hf. Qed.

Lemma copied_keys fields o : List.map fst (copied fields o) = fields.
Proof. unfold copied. rewrite map_map. simpl. apply map_id. Qed.

Lemma copiedIf_keys f o k : In k (List.map fst (copiedIf f o)) -> k = f.
Proof. unfold copiedIf. case_match; simpl; intuition congruence. Qed.

(** Decide that a concrete list of names is disjoint from another. *)
Definition disjointNames (l r : list string) : bool := forallb (fun f => negb (str_in f r)) l.

Lemma disjointNames_spec l r : disjointNames l r = true -> forall f, In f l -> ~ In f r.
Proof.
  unfold disjointNames. rewrite forallb_forall. intros Hd f Hf Hr.
  specialize (Hd f Hf). apply negb_true_iff in Hd. apply str_in_true in Hr. congruence.
Qed.

Ltac names := apply disjointNames_spec; vm_compute; reflexivity.

(** One member is set; the others of the protocol are kept. *)
Lemma member_step i k v : In k ATTEMPT_MEMBERS ->
  (k = "sandboxExecutionDispatch" -> keeps DISPATCH_FIELDS (get i k) v) ->
  (k = "subagentProviderLifecycle" -> keeps SUBAGENT_FIELDS (get i k) v) ->
  (k = "sandboxDisposal" \/ k = "sandboxPreparationAbandonment" ->
     statusIs (get i k) "completed" = true -> statusIs v "completed" = true) ->
  invocation_step i (spread i [(k, v)]).
Proof.
  intros Hk Hd Hs Hc.
  assert (Hne : forall f, f <> k -> get (spread i [(k, v)]) f = get i f).
  { intros f Hf. apply get_spread_ne. simpl. intuition congruence. }
  assert (Hid : forall f, In f ("status" :: "attemptsStarted" :: IDENTITY_FIELDS) -> f <> k).
  { intros f Hf ->. revert Hf Hk. apply (disjointNames_spec ("status" :: "attemptsStarted" :: IDENTITY_FIELDS)).
    vm_compute. reflexivity. }
  assert (Hget : forall f, get (spread i [(k, v)]) f = if f =s k then v else get i f).
  { intros f. destruct (f =s k) eqn:E; bool_hyps; [subst; apply get_spread_one|by apply Hne]. }
  split.
  - intros f Hf. apply Hne, Hid. by do 2 right.
  - unfold settled, hasStatus. rewrite (Hne "status") by (apply Hid; by left). done.
  - left. split.
    + unfold priorAttempt. by rewrite (Hne "attemptsStarted") by (apply Hid; right; by left).
    + rewrite Hget. case_match; bool_hyps; subst; auto.
    + rewrite Hget. case_match; bool_hyps; subst; auto.
    + rewrite Hget. case_match; bool_hyps; subst; auto.
    + rewrite Hget. case_match; bool_hyps; subst; auto.
Qed.

(** ** Every update is a step *)

Lemma settle_step i i' :
  (forall f, In f (IDENTITY_FIELDS ++ tail PROTOCOL_FIELDS) -> get i' f = get i f) ->
  settled i' = true -> invocation_step i i'.
Proof.
  intros Hf Hs.
  assert (Hp : forall f, In f (tail PROTOCOL_FIELDS) -> get i' f = get i f)
    by (intros; apply Hf, in_or_app; auto).
  split; [|done|].
  - intros f Hin. apply Hf, in_or_app. auto.
  - left. split; rewrite ?Hp by (simpl; tauto); auto.
    unfold priorAttempt. by rewrite (Hp "attemptsStarted") by (simpl; tauto).
Qed.

(** The fields of an outcome, all but the status. *)
Lemma outcome_step i base s fields :
  (forall f, In f (IDENTITY_FIELDS ++ tail PROTOCOL_FIELDS) -> get base f = get i f) ->
  disjointNames ("status" :: IDENTITY_FIELDS ++ tail PROTOCOL_FIELDS) (List.map fst fields) = true ->
  s <> "recorded" -> s <> "running" ->
  invocation_step i (spread base (("status", VStr s) :: fields)).
Proof.
  intros Hb Hd H1 H2. pose proof (disjointNames_spec _ _ Hd) as Hn.
  apply settle_step.
  - intros f Hf. rewrite get_spread_ne; [by apply Hb|]. simpl. intros [<-|Hin].
    + revert Hf. vm_compute. intuition discriminate.
    + revert Hin. apply Hn. by right.
  - unfold settled, hasStatus. change (("status", VStr s) :: fields) with ([("status", VStr s)] ++ fields).
    rewrite get_spread_app, get_spread_ne by (apply Hn; by left). rewrite get_spread_one. simpl.
    apply eqb_false in H1, H2. by rewrite H1, H2.
Qed.

Lemma copiedIf_names f o : List.map fst (copiedIf f o) = [] \/ List.map fst (copiedIf f o) = [f].
Proof. unfold copiedIf. case_match; auto. Qed.

(** Evaluate the names of a spread built from [copied] and [copiedIf]. *)
Ltac field_names :=
  repeat (progress (rewrite ?map_app, ?copied_keys; cbn [List.map fst app]));
  repeat match goal with |- context [List.map fst (copiedIf ?f ?o)] =>
    destruct (copiedIf_names f o) as [-> | ->] end;
  first [names | vm_compute; reflexivity].

Lemma succeeded_step payload i i' : execution_succeeded payload i = Ok i' -> invocation_step i i'.
Proof.
  intros [= <-]. apply outcome_step; [|field_names|done..].
  intros f Hf. unfold get. rewrite oget_odelete_ne; [done|]. intros ->. revert Hf.
  vm_compute. intuition discriminate.
Qed.

Lemma failed_step payload i i' : execution_failed payload i = Ok i' -> invocation_step i i'.
Proof. intros [= <-]. apply outcome_step; [done|field_names|done..]. Qed.

Lemma unknown_step payload i i' : execution_unknown payload i = Ok i' -> invocation_step i i'.
Proof. intros [= <-]. apply outcome_step; [done|field_names|done..]. Qed.

Lemma resolved_step payload i i' : reconciliation_resolved payload i = Ok i' -> invocation_step i i'.
Proof.
  intros [= <-]. apply outcome_step; [done|field_names|..]; by destruct (is_str _ _).
Qed.

Lemma result_step payload i i' : execution_result_recorded payload i = Ok i' -> invocation_step i i'.
Proof.
  intros [= <-]. case_match; [|apply refl_step]. apply spread_frame_step. field_names.
Qed.

Lemma filesystem_intent_step payload i a i' :
  filesystem_intent_recorded payload i a = Ok i' -> invocation_step i i'.
Proof. intros [= <-]. case_match; [|apply refl_step]. apply spread_frame_step. names. Qed.

Lemma filesystem_ready_step payload i a i' :
  filesystem_mutation_ready payload i a = Ok i' -> invocation_step i i'.
Proof.
  intros (ok & _ & [= <-])%bind_ok. case_match; [|apply refl_step]. apply spread_frame_step. names.
Qed.

Lemma preparation_intent_step payload i a i' :
  sandbox_preparation_intent_recorded payload i a = Ok i' -> invocation_step i i'.
Proof. intros [= <-]. case_match; [|apply refl_step]. apply spread_frame_step. names. Qed.

Lemma preparation_ready_step payload i a i' :
  sandbox_preparation_ready payload i a = Ok i' -> invocation_step i i'.
Proof. intros [= <-]. case_match; [|apply refl_step]. apply spread_frame_step. names. Qed.

Ltac member := apply member_step; [vm_compute; tauto|..]; try done; try (by intros [?|?]).

Lemma undef_keeps fields v v' : is_undef v = true -> keeps fields v v'.
Proof. by destruct v. Qed.

Lemma undef_status v s : is_undef v = true -> statusIs v s = false.
Proof. by destruct v. Qed.

Lemma dispatch_step payload i a i' :
  sandbox_execution_dispatch_intent_recorded payload i a = Ok i' -> invocation_step i i'.
Proof.
  intros (ok & _ & [= <-])%bind_ok.
  destruct (ok && is_undef (get i "sandboxExecutionDispatch")) eqn:E; [|apply refl_step].
  apply andb_true_iff in E as [_ E]. member. intros _. by apply undef_keeps.
Qed.

(** A member that is an object keeps the fields a spread does not name. *)
Lemma spread_keeps fields v news : (exists o, v = VObj o) ->
  disjointNames fields (List.map fst news) = true ->
  keeps fields v (VObj (spread (jsonRecord v) news)).
Proof.
  intros [o ->] Hd _. split; [done|]. intros f Hf. simpl. apply get_spread_ne.
  by apply (disjointNames_spec _ _ Hd).
Qed.

Lemma statusIs_object v s : statusIs v s = true -> exists o, v = VObj o.
Proof. unfold statusIs, optProp. destruct v; try done. eauto. Qed.

Lemma supervisor_step payload i a i' :
  sandbox_execution_supervisor_started payload i a = Ok i' -> invocation_step i i'.
Proof.
  intros [= <-]. match goal with |- context [if ?c then _ else _] => destruct c eqn:E end; [|apply refl_step].
  rewrite !andb_true_iff in E. destruct_and!. member. intros _.
  apply spread_keeps; [by eapply statusIs_object|]. field_names.
Qed.

Lemma disposal_started_step payload i a i' :
  sandbox_disposal_started payload i a = Ok i' -> invocation_step i i'.
Proof.
  intros (ok & _ & [= <-])%bind_ok.
  destruct (ok && is_undef (get i "sandboxDisposal")) eqn:E; [|apply refl_step].
  apply andb_true_iff in E as [_ E]. member. intros _. by rewrite undef_status.
Qed.

Lemma abandonment_started_step payload i a i' :
  sandbox_preparation_abandonment_started payload i a = Ok i' -> invocation_step i i'.
Proof.
  intros (ok & _ & [= <-])%bind_ok.
  destruct (ok && _ && is_undef (get i "sandboxPreparationAbandonment")) eqn:E; [|apply refl_step].
  apply andb_true_iff in E as [_ E]. member. intros _. by rewrite undef_status.
Qed.

Lemma pending_not_completed v : statusIs v "pending" = true -> statusIs v "completed" = false.
Proof. unfold statusIs, is_str. destruct (optProp v "status"); try done. by intros ->%eqb_true. Qed.

Lemma nextCleanup_open v f payload a c : nextCleanup v f payload a c = true ->
  statusIs v "completed" = false.
Proof.
  unfold nextCleanup. rewrite !andb_true_iff. intros; destruct_and!. by apply pending_not_completed.
Qed.

Lemma disposal_completed_step payload i a c i' :
  sandbox_disposal_completed payload i a c = Ok i' -> invocation_step i i'.
Proof.
  intros [= <-]. destruct (nextCleanup _ _ _ _ _) eqn:E; [|apply refl_step]. member.
  intros _. by rewrite (nextCleanup_open _ _ _ _ _ E).
Qed.

Lemma abandonment_completed_step payload i a c i' :
  sandbox_preparation_abandonment_completed payload i a c = Ok i' -> invocation_step i i'.
Proof.
  intros [= <-]. destruct (nextCleanup _ _ _ _ _) eqn:E; [|apply refl_step]. member.
  intros _. by rewrite (nextCleanup_open _ _ _ _ _ E).
Qed.

Lemma subagent_intent_step payload i a i' :
  subagent_dispatch_intent_recorded payload i a = Ok i' -> invocation_step i i'.
Proof.
  intros [= <-].
  destruct (_ && _ && _ && is_undef (get i "subagentProviderLifecycle")) eqn:E; [|apply refl_step].
  apply andb_true_iff in E as [_ E]. member. intros _. by apply undef_keeps.
Qed.

Lemma lifecycle_member_step i fields : (exists o, get i "subagentProviderLifecycle" = VObj o) ->
  disjointNames SUBAGENT_FIELDS (List.map fst fields) = true ->
  invocation_step i (withLifecycle i fields).
Proof. intros Ho Hd. unfold withLifecycle. member. intros _. by apply spread_keeps. Qed.

Lemma handle_step payload i a i' :
  subagent_handle_recorded payload i a = Ok i' -> invocation_step i i'.
Proof.
  intros [= <-]. destruct (statusIs _ _ && _) eqn:E; [|apply refl_step].
  apply andb_true_iff in E as [E _].
  apply lifecycle_member_step; [by eapply statusIs_object|field_names].
Qed.

Lemma observation_step payload i a i' :
  subagent_observation_recorded payload i a = Ok i' -> invocation_step i i'.
Proof.
  intros [= <-]. destruct (statusIs _ _ && _) eqn:E; [|apply refl_step].
  apply andb_true_iff in E as [E _].
  apply lifecycle_member_step; [by eapply statusIs_object|field_names].
Qed.

Lemma cleanup_started_step payload i a c i' :
  subagent_cleanup_started payload i a c = Ok i' -> invocation_step i i'.
Proof.
  intros [= <-]. destruct (truthy _ && _ && _) eqn:E; [|apply refl_step].
  apply andb_true_iff in E as [[_ [E _]%andb_true_iff]%andb_true_iff _].
  apply lifecycle_member_step; [|field_names].
  unfold optProp in E. destruct (get i "subagentProviderLifecycle"); try done. eauto.
Qed.

Lemma cleanup_completed_step payload i a c i' :
  subagent_cleanup_completed payload i a c = Ok i' -> invocation_step i i'.
Proof.
  intros [= <-]. destruct (statusIs _ _ && _ && _ && _) eqn:E; [|apply refl_step].
  rewrite !andb_true_iff in E. destruct_and!.
  apply lifecycle_member_step; [by eapply statusIs_object|field_names].
Qed.

Lemma get_spread_undef names o f : In f names ->
  get (spread o (List.map (fun f => (f, VUndef)) names)) f = VUndef.
Proof.
  induction names as [|n names IH] using rev_ind; [done|]. rewrite map_app, get_spread_app.
  unfold spread at 1. simpl.
  intros Hin. destruct (decide (f = n)) as [->|Hne]; [apply get_oset_eq|].
  rewrite get_oset_ne by done. apply IH. apply in_app_iff in Hin as [|[->|[]]]; done.
Qed.

Lemma nmax_not_above x y : nltb x (nmax x (Fin y)) = false -> nmax x (Fin y) = x.
Proof. destruct x; simpl; try done. intros. bool_hyps. f_equal. lia. Qed.

(** The fields every start writes. *)
Definition startFields (payload invocation : obj) (attemptsStarted : num) : obj :=
  [("status", VStr "running");
   ("startedAt", nullish (get invocation "startedAt") (get payload "startedAt"))]
  ++ match numberField payload "attempt" with
     | Some _ => [("attemptsStarted", VNum attemptsStarted)] | None => [] end.

Lemma startFields_frame payload i n f : f <> "status" -> f <> "startedAt" ->
  f <> "attemptsStarted" -> get (spread i (startFields payload i n)) f = get i f.
Proof.
  intros. apply get_spread_ne. unfold startFields. destruct (numberField _ _); simpl; intuition congruence.
Qed.

Lemma startFields_running payload i n :
  get (spread i (startFields payload i n)) "status" = VStr "running".
Proof.
  unfold startFields. destruct (numberField _ _);
    unfold spread; cbn [app fold_left]; rewrite !get_oset_ne by done; apply get_oset_eq.
Qed.

Lemma startFields_attempt payload i n :
  n = match numberField payload "attempt" with
      | Some a => nmax (priorAttempt i) (Fin a) | None => priorAttempt i end ->
  priorAttempt (spread i (startFields payload i n)) = n.
Proof.
  unfold startFields. destruct (numberField _ _) as [a|] eqn:E; intros Hn.
  - unfold priorAttempt. rewrite get_spread_last. done.
  - rewrite app_nil_r, Hn. unfold priorAttempt. rewrite get_spread_ne; [done|].
    simpl. intuition discriminate.
Qed.

Lemma identity_plain f : In f IDENTITY_FIELDS ->
  f <> "status" /\ f <> "startedAt" /\ f <> "attemptsStarted" /\ ~ In f ATTEMPT_MEMBERS.
Proof.
  intros Hf.
  assert (Hn : ~ In f (["status"; "startedAt"; "attemptsStarted"] ++ ATTEMPT_MEMBERS))
    by (revert f Hf; names).
  rewrite in_app_iff in Hn. simpl in *. intuition.
Qed.

Lemma undefined_names names : List.map fst (List.map (fun f : string => (f, VUndef)) names) = names.
Proof. rewrite map_map. apply map_id. Qed.

Lemma start_step payload i : invocation_step i (execution_started payload i).
Proof.
  unfold execution_started. rewrite <- negb_orb.
  destruct (negb (hasStatus i "recorded" || hasStatus i "running")) eqn:Hopen; [apply refl_step|].
  destruct (holdsResources i) eqn:Hheld; [apply refl_step|].
  set (n := match numberField payload "attempt" with
            | Some a => nmax (priorAttempt i) (Fin a) | None => priorAttempt i end).
  rewrite app_assoc. fold (startFields payload i n).
  assert (Hopen' : settled i = false) by (unfold settled; by rewrite <- negb_orb).
  assert (Hatt : priorAttempt (spread i (startFields payload i n)) = n) by by apply startFields_attempt.
  destruct (nltb (priorAttempt i) n) eqn:Hadv.
  - set (members := List.map _ _).
    assert (Hout : forall f, ~ In f ATTEMPT_MEMBERS ->
      get (spread i (startFields payload i n ++ members)) f = get (spread i (startFields payload i n)) f).
    { intros f Hf. rewrite get_spread_app. apply get_spread_ne. by unfold members; rewrite undefined_names. }
    split; [|congruence|right; split].
    + intros f Hf. destruct (identity_plain f Hf) as (?&?&?&?). by rewrite Hout, startFields_frame.
    + unfold priorAttempt at 2. rewrite Hout by (vm_compute; intuition discriminate).
      fold (priorAttempt (spread i (startFields payload i n))). by rewrite Hatt.
    + unfold hasStatus. rewrite Hout by (vm_compute; intuition discriminate).
      by rewrite startFields_running.
    + done.
    + intros f Hf. rewrite get_spread_app. by apply get_spread_undef.
  - rewrite app_nil_r.
    assert (Hn : n = priorAttempt i).
    { unfold n in *. destruct (numberField payload "attempt"); [by apply nmax_not_above|done]. }
    split; [|congruence|left; split; rewrite ?startFields_frame by done; auto; congruence].
    intros f Hf. destruct (identity_plain f Hf) as (?&?&?&?). by rewrite startFields_frame.
Qed.

(** ** The theorem *)

Lemma option_map_inv {A B} (f : A -> B) x y : option_map f x = Some y -> exists a, f a = y.
Proof. destruct x as [a|]; [|done]. intros [= <-]. eauto. Qed.

Lemma update_step type payload f i i' : invocationUpdate type payload = Some f ->
  f i = Ok i' -> invocation_step i i'.
Proof.
  unfold invocationUpdate. intros Hu Hf.
  repeat (case_match; [first
    [apply option_map_inv in Hu as [a <-]
    |destruct (numberField payload "attempt") as [a|] eqn:?;
      [destruct (numberField payload "cleanupAttempt") eqn:?|]; [injection Hu as <-|discriminate Hu..]
    |injection Hu as <-]; cbv beta in Hf;
    first [injection Hf as <-; apply start_step
          |eauto using succeeded_step, failed_step, unknown_step, resolved_step, result_step,
            filesystem_intent_step, filesystem_ready_step, preparation_intent_step,
            preparation_ready_step, dispatch_step, supervisor_step, disposal_started_step,
            disposal_completed_step, abandonment_started_step, abandonment_completed_step,
            subagent_intent_step, handle_step, observation_step, cleanup_started_step,
            cleanup_completed_step]|]).
  discriminate Hu.
Qed.

Lemma reduce_invocations state event state' : reduceCapabilityState state event = Ok state' ->
  let before := cap_invocations (capabilities state) in
  let after := cap_invocations (capabilities state') in
  after = before
  \/ (exists k i i', oget k before = Some i /\ after = oset k i' before /\ invocation_step i i')
  \/ (ev_type event = "capability.invocation_recorded"
      /\ exists k, k <> "" /\ oget k before = None
                   /\ after = oset k (recordedInvocation k event) before).
Proof.
  unfold reduceCapabilityState. simpl. case_match; [intros [= <-]; auto|].
  destruct (ev_type event =s "capability.bindings_issued").
  { intros [= <-]. unfold bindings_issued. case_match; auto. }
  destruct (ev_type event =s "capability.search_completed"); [intros [= <-]; auto|].
  destruct (ev_type event =s "capability.invocation_recorded") eqn:Ht.
  { intros [= <-]. bool_hyps. unfold invocation_recorded. case_match; [|auto].
    case_match eqn:Hh; [auto|]. right; right. split; [done|]. eexists. split_and!; [| |done].
    - match goal with H : nonEmptyStringField _ _ = Some _ |- _ =>
        apply nonEmptyStringField_some in H as [_ H] end. by intros ->.
    - unfold ohas in Hh. by destruct (oget _ _). }
  destruct (nonEmptyStringField event "invocationId") as [k|]; [|intros [= <-]; auto].
  destruct (invocationUpdate _ _) as [f|] eqn:Hu; [|intros [= <-]; auto].
  unfold updateCapabilityInvocation. destruct (oget k _) as [i|] eqn:Hi; [|intros [= <-]; auto].
  intros (i' & Hf & [= <-])%bind_ok. right; left. exists k, i, i'. eauto using update_step.
Qed.


(** ** A sandboxed shell call, tried twice *)

Definition invocationEvent (type : string) (rest : obj) : obj :=
  [("type", VStr ("capability." +:+ type)); ("invocationId", VStr "inv1")] ++ rest.

Definition shellRecorded : obj :=
  invocationEvent "invocation_recorded"
    [("toolCallId", VStr "call1"); ("capabilityId", VStr "builtin:shell_execute");
     ("capabilityRevision", VStr "1"); ("argumentsDigest", VStr "a"); ("authorizationDigest", VStr "b");
     ("admissionDigest", VStr "c"); ("effectiveEffectsDigest", VStr "d"); ("recordedAt", VStr "t0")].

Definition startAttempt (n : Z) : obj :=
  invocationEvent "execution_started" [("attempt", numVal n); ("startedAt", VStr "t1")].

Definition preparation : list obj :=
  [invocationEvent "sandbox_preparation_intent_recorded"
     [("attempt", numVal 1); ("toolCallId", VStr "call1"); ("capabilityId", VStr "builtin:shell_execute");
      ("capabilityRevision", VStr "1"); ("effectiveEffectsDigest", VStr "d");
      ("admissionDigest", VStr "c"); ("intentDigest", VStr "i")];
   invocationEvent "sandbox_preparation_ready"
     [("attempt", numVal 1); ("intentDigest", VStr "i"); ("readyDigest", VStr "r");
      ("planDigest", VStr "p")]].

Definition disposal : list obj :=
  [invocationEvent "sandbox_disposal_started"
     [("attempt", numVal 1); ("readyDigest", VStr "r"); ("lifecycleIntentDigest", VStr "l")];
   invocationEvent "sandbox_disposal_completed"
     [("attempt", numVal 1); ("cleanupAttempt", numVal 1); ("readyDigest", VStr "r");
      ("lifecycleIntentDigest", VStr "l"); ("disposed", VBool true); ("disposedAt", VStr "t2")]].

Definition runCapability (state : AgentState) (events : list obj) : AgentState :=
  List.fold_left (fun s e => match reduceCapabilityState s e with Ok s' => s' | Throw _ => s end)
    events state.

Definition attemptOf (state : AgentState) : option num :=
  option_map priorAttempt (oget "inv1" (cap_invocations (capabilities state))).

Definition heldShell : AgentState := runCapability demo ([shellRecorded; startAttempt 1] ++ preparation).
Definition releasedShell : AgentState := runCapability heldShell disposal.

(** The second attempt waits for the sandbox of the first. *)
Lemma second_attempt_waits :
  attemptOf (runCapability heldShell [startAttempt 2]) = Some (Fin 1)
  /\ attemptOf (runCapability releasedShell [startAttempt 2]) = Some (Fin 2).
Proof. vm_compute. split; reflexivity. Qed.


Definition invocationStatus (state : AgentState) : option val :=
  option_map (fun i => get i "status") (oget "inv1" (cap_invocations (capabilities state))).

(** An outcome event overwrites a reconciled outcome: the reducer looks at no status
    before it writes one. *)
Lemma reconciled_outcome_is_overwritten :
  let reconciled := runCapability demo [shellRecorded; startAttempt 1;
    invocationEvent "execution_unknown" [("finishedAt", VStr "t2"); ("reason", VStr "lost")];
    invocationEvent "reconciliation_resolved"
      [("decision", VStr "confirmed_success"); ("reconciledAt", VStr "t3")]] in
  invocationStatus reconciled = Some (VStr "succeeded")
  /\ invocationStatus (runCapability reconciled
       [invocationEvent "execution_unknown" [("finishedAt", VStr "t4"); ("reason", VStr "late")]])
     = Some (VStr "unknown").
Proof. vm_compute. split; reflexivity. Qed.
