(* ===== verification/Context.v ===== *)
(** * The context reducer ([domains/context/reducer.ts]) and [context-normalization.ts]

    The compaction of the model's context with the guard that stops automatic
    compactions, hard blocks, the messages of users and models, and the record of
    every model invocation.  Checkpoints, failures, blocks and invocations are the
    JSON objects the reducer builds; the reduction ratio of a compaction is the
    double the source computes, in the binary64 format of [SpecFloat]. *)

From S2P Require Import Prelude Js Hash State Recovery RecoveryReducer Completion Verification Lifecycle Interaction Capability.
From stdpp Require Import prelude strings list.
From Stdlib Require Import ZArith Lia SpecFloat.
Open Scope Z_scope.

Definition MAX_AUTO_COMPACTIONS_PER_WINDOW : nat := 3.
Definition AUTO_COMPACTION_WINDOW_TURNS : Z := 10.
Definition MAX_CONSECUTIVE_LOW_GAIN : Z := 2.

Definition COMPACTION_ERROR_KINDS : list string :=
  ["unsafe_boundary"; "oversized_turn"; "summary_model_failed"; "summary_aborted";
   "empty_summary"; "truncated_summary"; "unexpected_tool_call"; "stale_context";
   "invalid_candidate"; "insufficient_reduction"].

Definition HARD_BLOCK_REASONS : list string :=
  ["unsafe_context_projection"; "corrupted_runtime_state"; "corrupted_event_tail";
   "unrecoverable_checkpoint"; "runtime_invariant_violation"].

(** ** Reading fields *)

(** The text of a field that is one of a list. *)
Definition oneOf (texts : list string) (v : val) : option string :=
  match v with VStr s => if str_in s texts then Some s else None | _ => None end.

Definition isCompactionReason (v : val) : option string := oneOf ["manual"; "auto"] v.
Definition isHardBlockReason (v : val) : option string := oneOf HARD_BLOCK_REASONS v.
Definition isCompactionErrorKind (v : val) : option string := oneOf COMPACTION_ERROR_KINDS v.

(** A field that holds a safe integer of at least [low]. *)
Definition safeIntegerFrom (low : Z) (o : obj) (f : string) : option Z :=
  match numberField o f with
  | Some z => if isSafeInteger z && (low <=? z) then Some z else None
  | None => None
  end.

Definition safeNonNegativeField : obj -> string -> option Z := safeIntegerFrom 0.

(** A text with something besides white space. *)
Definition textField (o : obj) (f : string) : option string :=
  match stringField o f with
  | Some s => if str_nonempty (trim s) then Some s else None
  | None => None
  end.

(** [hasOwn(payload, 'createdAt') ? stringField(payload, 'createdAt') : EPOCH], a timestamp. *)
Definition createdAtOf (payload : obj) : option string :=
  let createdAt := if ohas "createdAt" payload then stringField payload "createdAt"
                   else Some EPOCH_CREATED_AT in
  match createdAt with
  | Some t => if isTimestamp t then Some t else None
  | None => None
  end.

Definition ESTIMATE_FIELDS : list string :=
  ["systemTokens"; "toolSchemaTokens"; "transcriptTokens"; "summaryTokens";
   "dynamicRuntimeTokens"; "framingTokens"; "totalInputTokens"].

Definition contextEstimate (value : val) : option obj :=
  candidate ← isRecord value;
  mapM (fun f => z ← safeNonNegativeField candidate f; Some (f, numVal z)) ESTIMATE_FIELDS.

(** [...(x ? { [k]: x } : {})] of an optional text. *)
Definition optionalText (k : string) (v : option string) : obj :=
  match v with Some s => [(k, VStr s)] | None => [] end.

Definition parseCheckpoint (value : val) : option obj :=
  candidate ← isRecord value;
  compactionId ← nonEmptyStringField candidate "compactionId";
  _ ← guard (is_num (get candidate "version") 1);
  sourceRevision ← safeNonNegativeField candidate "sourceRevision";
  sourceDigest ← nonEmptyStringField candidate "sourceDigest";
  coveredThroughMessageId ← nonEmptyStringField candidate "coveredThroughMessageId";
  coveredThroughTurnId ← nonEmptyStringField candidate "coveredThroughTurnId";
  summary ← textField candidate "summary";
  inputTokensBefore ← safeNonNegativeField candidate "inputTokensBefore";
  inputTokensAfter ← safeNonNegativeField candidate "inputTokensAfter";
  _ ← guard (inputTokensAfter < inputTokensBefore);
  _ ← guard (1024 <= inputTokensBefore - inputTokensAfter);
  reason ← isCompactionReason (get candidate "reason");
  createdAt ← stringField candidate "createdAt";
  _ ← guard (isTimestamp createdAt);
  Some ([("compactionId", VStr compactionId); ("version", numVal 1);
         ("sourceRevision", numVal sourceRevision); ("sourceDigest", VStr sourceDigest);
         ("coveredThroughMessageId", VStr coveredThroughMessageId);
         ("coveredThroughTurnId", VStr coveredThroughTurnId); ("summary", VStr summary);
         ("inputTokensBefore", numVal inputTokensBefore);
         ("inputTokensAfter", numVal inputTokensAfter); ("reason", VStr reason);
         ("createdAt", VStr createdAt)]
        ++ optionalText "modelInvocationId" (nonEmptyStringField candidate "modelInvocationId")
        ++ optionalText "baseCheckpointId" (nonEmptyStringField candidate "baseCheckpointId")).

(** ** The guard of automatic compactions *)

(** A binary64 number. *)
Definition double (z : Z) : spec_float := binary_normalize 53 1024 z 0 false.

(** [before > 0 ? 1 - after / before : 0]. *)
Definition reductionRatio (inputTokensBefore inputTokensAfter : Z) : spec_float :=
  if 0 <? inputTokensBefore
  then SFsub 53 1024 (double 1) (SFdiv 53 1024 (double inputTokensAfter) (double inputTokensBefore))
  else double 0.

Inductive AutoGuardEvent : Type :=
| guard_completed (turnIndex : Z) (ratio : spec_float) (tokensAfter : Z)
| guard_low_gain
| guard_manual_reset.

(** [recent[recent.length - 2]!.turnIndex >= turnIndex - 1], of two entries or more. *)
Definition refilledFast (recent : list ContextAutoGuardEntry) (turnIndex : Z) : bool :=
  match rev recent with
  | _ :: previous :: _ => turnIndex - 1 <=? ge_turnIndex previous
  | _ => false
  end.

Definition updateAutoGuard (guard : ContextAutoGuard) (event : AutoGuardEvent) : ContextAutoGuard :=
  match event with
  | guard_manual_reset =>
      {| recentAutomaticCompactions := []; consecutiveLowGain := 0;
         disabledUntilManualAction := false; recoveryAttempted := false |}
  | guard_low_gain =>
      let low := fadd (consecutiveLowGain guard) 1 in
      guard <| consecutiveLowGain := low |>
            <| disabledUntilManualAction := MAX_CONSECUTIVE_LOW_GAIN <=? low |>
  | guard_completed turnIndex ratio tokensAfter =>
      let recent := List.filter
        (fun entry => turnIndex - ge_turnIndex entry <=? AUTO_COMPACTION_WINDOW_TURNS)
        (recentAutomaticCompactions guard ++
           [{| ge_turnIndex := turnIndex; ge_reductionRatio := ratio;
               ge_tokensAfter := tokensAfter |}]) in
      {| recentAutomaticCompactions := recent; consecutiveLowGain := 0;
         disabledUntilManualAction :=
           Nat.leb MAX_AUTO_COMPACTIONS_PER_WINDOW (length recent) || refilledFast recent turnIndex;
         recoveryAttempted := false |}
  end.

(** ** Transcript and model calls *)

Definition appendTranscript (state : AgentState) (message : obj) : AgentState :=
  state <| transcript := (transcript state)
    <| messages := messages (transcript state) ++ [message] |> |>.

Definition parseModelToolCall (value : val) : option obj :=
  candidate ← isRecord value;
  id ← nonEmptyStringField candidate "id";
  name ← nonEmptyStringField candidate "name";
  _ ← guard (ohas "args" candidate);
  Some ([("id", VStr id); ("name", VStr name); ("args", get candidate "args")]
        ++ optionalText "canonicalInvocationFingerprint"
             (nonEmptyStringField candidate "canonicalInvocationFingerprint")).

Definition parseModelToolCalls (payload : obj) : option (list obj) :=
  if negb (ohas "toolCalls" payload) then Some []
  else match get payload "toolCalls" with
       | VArr raw => mapM parseModelToolCall raw
       | _ => None
       end.

Definition modelPurpose (v : val) : option string :=
  oneOf ["primary_agent"; "context_compaction"; "auto_review"; "subagent"] v.
Definition modelFinishReason (v : val) : option string :=
  oneOf ["stop"; "length"; "content_filter"; "tool_calls"; "error"; "other"; "unknown"] v.
Definition modelDispatchCertainty (v : val) : option string :=
  oneOf ["none"; "attempted"; "unknown"] v.
Definition modelInterruptionReason (v : val) : option string :=
  oneOf ["runtime_restored"; "attempts_exhausted"; "cancelled"; "cancelled_before_dispatch";
         "attempt_timeout"; "provider_failure"; "surface_identity_changed";
         "persistence_unavailable"] v.
Definition modelEvidenceReason (v : val) : option string :=
  oneOf ["artifact_missing"; "artifact_corrupt"] v.

Definition privateArtifact (value : val) (kind : string) : option obj :=
  candidate ← isRecord value;
  _ ← guard (is_str (get candidate "kind") kind);
  artifactId ← nonEmptyStringField candidate "artifactId";
  integrityIdentifier ← nonEmptyStringField candidate "integrityIdentifier";
  byteLength ← safeNonNegativeField candidate "byteLength";
  Some [("kind", VStr kind); ("artifactId", VStr artifactId);
        ("integrityIdentifier", VStr integrityIdentifier); ("byteLength", numVal byteLength)].

(** [value === null || typeof value === 'string']. *)
Definition nullOrText (v : val) : bool :=
  match v with VNull | VStr _ => true | _ => false end.

Definition modelBudget (value : val) : option obj :=
  candidate ← isRecord value;
  if is_str (get candidate "kind") "no_budget"
     && is_str (get candidate "reason") "resource_budget_disabled"
  then Some [("kind", VStr "no_budget"); ("reason", VStr "resource_budget_disabled")]
  else
    _ ← guard (is_str (get candidate "kind") "reservation");
    reservationId ← nonEmptyStringField candidate "reservationId";
    _ ← guard (nullOrText (get candidate "parentReservationId"));
    Some [("kind", VStr "reservation"); ("reservationId", VStr reservationId);
          ("parentReservationId", get candidate "parentReservationId")].

Definition modelLimits (value : val) : option obj :=
  candidate ← isRecord value;
  maxAttempts ← safeIntegerFrom 1 candidate "maxAttempts";
  perAttemptTimeoutMs ← safeNonNegativeField candidate "perAttemptTimeoutMs";
  totalTimeBudgetMs ← safeNonNegativeField candidate "totalTimeBudgetMs";
  Some [("maxAttempts", numVal maxAttempts); ("perAttemptTimeoutMs", numVal perAttemptTimeoutMs);
        ("totalTimeBudgetMs", numVal totalTimeBudgetMs)].

(** ** Compactions *)

Definition withContext (state : AgentState) (context' : AgentContextState) : AgentState :=
  state <| context := context' |>.

Definition addHistory (ctx : AgentContextState) (entry : obj) : list obj :=
  sliceTail 128 (history ctx ++ [entry]).

(** A field of an optional record of the state. *)
Definition fieldOf (record : option obj) (f : string) : val :=
  match record with Some o => get o f | None => VUndef end.

(** The last failure is an automatic one of an earlier turn that may be retried. *)
Definition consumesRecovery (ctx : AgentContextState) (reason requestedAtTurnId : string) : bool :=
  (reason =s "auto") && is_str (fieldOf (lastFailure ctx) "reason") "auto"
  && truthy (fieldOf (lastFailure ctx) "retryable")
  && negb (is_str (fieldOf (lastFailure ctx) "requestedAtTurnId") requestedAtTurnId).

(** No compaction is pending, or the one with this identity. *)
Definition freeFor (ctx : AgentContextState) (compactionId : string) : bool :=
  match pendingCompaction ctx with
  | Some pending => is_str (get pending "compactionId") compactionId
  | None => true
  end.

Definition compaction_requested (state : AgentState) (payload : obj) : option AgentState :=
  let ctx := context state in
  compactionId ← nonEmptyStringField payload "compactionId";
  _ ← guard (freeFor ctx compactionId);
  reason ← isCompactionReason (get payload "reason");
  requestedAtRevision ← safeNonNegativeField payload "requestedAtRevision";
  requestedAtTurnId ← nonEmptyStringField payload "requestedAtTurnId";
  estimate ← contextEstimate (get payload "estimate");
  Some (withContext state (ctx
    <| pendingCompaction := Some (
         [("compactionId", VStr compactionId); ("reason", VStr reason);
          ("requestedAtRevision", numVal requestedAtRevision);
          ("requestedAtTurnId", VStr requestedAtTurnId); ("force", VBool false);
          ("estimate", VObj estimate)]
         ++ optionalText "customInstructions" (nonEmptyStringField payload "customInstructions")) |>
    <| lastFailure := None |>
    <| autoGuard := if consumesRecovery ctx reason requestedAtTurnId
                    then (autoGuard ctx) <| recoveryAttempted := true |> else autoGuard ctx |>)).

Definition compaction_completed (state : AgentState) (payload : obj) : option AgentState :=
  let ctx := context state in
  compactionId ← nonEmptyStringField payload "compactionId";
  pending ← pendingCompaction ctx;
  _ ← guard (is_str (get pending "compactionId") compactionId);
  sourceRevision ← safeNonNegativeField payload "sourceRevision";
  checkpoint ← parseCheckpoint (get payload "checkpoint");
  _ ← guard (is_str (get checkpoint "compactionId") compactionId);
  _ ← guard (is_num (get checkpoint "sourceRevision") sourceRevision);
  before ← numberField checkpoint "inputTokensBefore";
  after ← numberField checkpoint "inputTokensAfter";
  Some (withContext state (ctx
    <| activeCheckpoint := Some checkpoint |> <| pendingCompaction := None |>
    <| lastFailure := None |>
    <| history := addHistory ctx [("kind", VStr "completed"); ("checkpoint", VObj checkpoint)] |>
    <| lastCompactionTurnIndex := Some (turnIndex (turn state)) |>
    <| autoGuard := updateAutoGuard (autoGuard ctx)
         (if is_str (get checkpoint "reason") "auto"
          then guard_completed (turnIndex (turn state)) (reductionRatio before after) after
          else guard_manual_reset) |>)).

(** [hasOwn(payload, f) ? nonEmptyStringField(payload, f) : undefined]; an empty text
    refuses the event. *)
Definition ownNonEmptyText (payload : obj) (f : string) : option (option string) :=
  if ohas f payload
  then s ← nonEmptyStringField payload f; Some (Some s)
  else Some None.

Definition compaction_failed (state : AgentState) (payload : obj) : option AgentState :=
  let ctx := context state in
  compactionId ← nonEmptyStringField payload "compactionId";
  pending ← pendingCompaction ctx;
  _ ← guard (is_str (get pending "compactionId") compactionId);
  sourceRevision ← safeNonNegativeField payload "sourceRevision";
  errorKind ← isCompactionErrorKind (get payload "errorKind");
  message ← textField payload "message";
  retryable ← booleanField payload "retryable";
  requestedAtTurnId ← ownNonEmptyText payload "requestedAtTurnId";
  let failure : obj :=
    [("compactionId", VStr compactionId); ("sourceRevision", numVal sourceRevision);
     ("errorKind", VStr errorKind); ("message", VStr message); ("retryable", VBool retryable);
     ("reason", get pending "reason");
     ("requestedAtTurnId", match requestedAtTurnId with
                           | Some t => VStr t | None => get pending "requestedAtTurnId" end)] in
  let isAutoLowGain := is_str (get pending "reason") "auto"
                       && (errorKind =s "insufficient_reduction") in
  Some (withContext state (ctx
    <| pendingCompaction := None |> <| lastFailure := Some failure |>
    <| autoGuard := if isAutoLowGain then updateAutoGuard (autoGuard ctx) guard_low_gain
                    else autoGuard ctx |>
    <| history := addHistory ctx [("kind", VStr "failed"); ("failure", VObj failure)] |>)).

Definition compaction_reset (state : AgentState) (payload : obj) : option AgentState :=
  let ctx := context state in
  checkpointId ← nonEmptyStringField payload "checkpointId";
  _ ← guard (is_str (get payload "reason") "manual");
  _ ← guard (is_str (fieldOf (activeCheckpoint ctx) "compactionId") checkpointId);
  Some (withContext state (ctx
    <| activeCheckpoint := None |>
    <| autoGuard := updateAutoGuard (autoGuard ctx) guard_manual_reset |>
    <| history := addHistory ctx [("kind", VStr "reset"); ("compactionId", VStr checkpointId);
                                  ("reason", VStr "manual")] |>)).

Definition hard_blocked (state : AgentState) (payload : obj) : option AgentState :=
  reason ← isHardBlockReason (get payload "reason");
  sourceDigest ← nonEmptyStringField payload "sourceDigest";
  message ← textField payload "message";
  createdAtTurnId ← nonEmptyStringField payload "createdAtTurnId";
  Some (withContext state ((context state)
    <| hardBlock := Some [("reason", VStr reason); ("sourceDigest", VStr sourceDigest);
                          ("message", VStr (trim message));
                          ("createdAtTurnId", VStr createdAtTurnId)] |>)).

Definition hard_block_cleared (state : AgentState) (payload : obj) : option AgentState :=
  reason ← isHardBlockReason (get payload "reason");
  sourceDigest ← nonEmptyStringField payload "sourceDigest";
  block ← hardBlock (context state);
  _ ← guard (is_str (get block "reason") reason);
  _ ← guard (is_str (get block "sourceDigest") sourceDigest);
  Some (withContext state ((context state) <| hardBlock := None |>)).

(** ** Messages *)

(** The first message of a session opens the task the host allocated. *)
Definition openAllocatedTask (state : AgentState) (facts : AgentReducerFacts) (userGoal : string)
  : AgentState :=
  match activeTaskId state, opt_nonempty (allocatedTaskId facts) with
  | None, Some taskId =>
      state <| activeTaskId := Some taskId |>
            <| tasks := oset taskId
                 {| task_taskId := taskId; task_userGoal := userGoal; task_status := task_active;
                    task_startedAtTurnId := turnId (turn state); task_completedAtTurnId := None;
                    task_sideEffectsStarted := false; task_planning := building_without_plan;
                    task_executionMode := None; task_planHistory := [] |} (tasks state) |>
  | _, _ => state
  end.

Definition setUserGoal (state : AgentState) (userGoal : string) : AgentState :=
  match activeTaskId state with
  | None => state
  | Some taskId =>
      match oget taskId (tasks state) with
      | Some activeTask =>
          if str_nonempty userGoal
          then state <| tasks := oset (task_taskId activeTask)
                         (activeTask <| task_userGoal := userGoal |>) (tasks state) |>
          else state
      | None => state
      end
  end.

Definition user_message_appended (state : AgentState) (payload : obj) (facts : AgentReducerFacts)
  : option AgentState :=
  messageId ← nonEmptyStringField payload "messageId";
  content ← stringField payload "content";
  createdAt ← createdAtOf payload;
  let userGoal := default content (stringField payload "userGoal") in
  let next := setUserGoal (openAllocatedTask state facts userGoal) userGoal in
  Some (appendTranscript
    (next <| completionGuard := {| correctionAttempts := 0; guardVersion := None;
                                   planIdentity := None |} |>
          <| terminalOutcome := None |>
          <| transcript := (transcript next) <| final := None |> |>)
    [("kind", VStr "user"); ("messageId", VStr messageId); ("turnId", VStr (turnId (turn next)));
     ("ordinal", numVal (Z.of_nat (length (messages (transcript next)))));
     ("createdAt", VStr createdAt); ("content", VStr content)]).

(** [hasOwn(payload, f) ? stringField(payload, f) : undefined]; another type refuses the
    event. *)
Definition ownText (payload : obj) (f : string) : option (option string) :=
  if ohas f payload then s ← stringField payload f; Some (Some s) else Some None.

Definition model_responded (state : AgentState) (payload : obj) : option AgentState :=
  messageId ← nonEmptyStringField payload "messageId";
  toolCalls ← parseModelToolCalls payload;
  text ← ownText payload "text";
  reasoningText ← ownText payload "reasoningText";
  createdAt ← createdAtOf payload;
  let recovered := advanceToolRecoveryResponse (toolRecovery state)
    {| rp_taskId := activeTaskId state; rp_turnId := Some (turnId (turn state));
       rp_modelMessageId := messageId;
       rp_toolCalls := List.map (fun c => (textOf c "id", textOf c "name")) toolCalls |} in
  Some (appendTranscript
    (state <| toolRecovery := recovered |>
           <| transcript := (transcript state)
                <| final := match toolCalls, text with
                            | _ :: _, _ => None
                            | [], Some t => Some t
                            | [], None => final (transcript state)
                            end |> |>)
    ([("kind", VStr "assistant"); ("messageId", VStr messageId);
      ("turnId", VStr (turnId (turn state)));
      ("ordinal", numVal (Z.of_nat (length (messages (transcript state)))));
      ("createdAt", VStr createdAt)]
     ++ optionalText "content" text ++ optionalText "reasoningText" reasoningText
     ++ [("toolCalls", VArr (List.map VObj toolCalls))])).

(** ** Model invocations *)

Definition putInvocation (state : AgentState) (invocationId : string) (invocation : obj)
  : AgentState :=
  state <| modelInvocations := oset invocationId invocation (modelInvocations state) |>.

Definition invocation_prepared (state : AgentState) (payload : obj) : option AgentState :=
  invocationId ← nonEmptyStringField payload "invocationId";
  _ ← guard (negb (ohas invocationId (modelInvocations state)));
  purpose ← modelPurpose (get payload "purpose");
  surfaceArtifact ← privateArtifact (get payload "surfaceArtifact") "model_surface";
  surfaceIntegrityIdentifier ← nonEmptyStringField payload "surfaceIntegrityIdentifier";
  routeFingerprint ← nonEmptyStringField payload "routeFingerprint";
  budget ← modelBudget (get payload "budget");
  limits ← modelLimits (get payload "limits");
  preparedStateRevision ← safeNonNegativeField payload "preparedStateRevision";
  _ ← guard (nullOrText (get payload "parentInvocationId"));
  _ ← guard (nullOrText (get payload "parentToolCallId"));
  Some (putInvocation state invocationId
    [("invocationId", VStr invocationId); ("purpose", VStr purpose); ("status", VStr "prepared");
     ("surfaceArtifact", VObj surfaceArtifact);
     ("surfaceIntegrityIdentifier", VStr surfaceIntegrityIdentifier);
     ("routeFingerprint", VStr routeFingerprint); ("budget", VObj budget);
     ("limits", VObj limits); ("preparedStateRevision", numVal preparedStateRevision);
     ("parentInvocationId", get payload "parentInvocationId");
     ("parentToolCallId", get payload "parentToolCallId"); ("attempts", numVal 0)]).

(** The recorded invocation an event names. *)
Definition namedInvocation (state : AgentState) (payload : obj) : option (string * obj) :=
  invocationId ← nonEmptyStringField payload "invocationId";
  invocation ← oget invocationId (modelInvocations state);
  Some (invocationId, invocation).

Definition isOpen (invocation : obj) : bool :=
  hasStatus invocation "prepared" || hasStatus invocation "dispatching".

Definition invocation_attempt_started (state : AgentState) (payload : obj) : res AgentState :=
  match namedInvocation state payload, safeIntegerFrom 1 payload "attempt",
        safeNonNegativeField payload "maxAttempts" with
  | Some (invocationId, invocation), Some attempt, Some maxAttempts =>
      if isOpen invocation then
        let* limit := propOf (get invocation "limits") "maxAttempts" in
        Ok (if is_num limit maxAttempts
               && neqb (Fin attempt) (succNum (get invocation "attempts"))
               && (attempt <=? maxAttempts)
            then putInvocation state invocationId
                   (spread invocation [("status", VStr "dispatching"); ("attempts", numVal attempt);
                                       ("dispatchCertainty", VStr "attempted")])
            else state)
      else Ok state
  | _, _, _ => Ok state
  end.

(** [invocation.attempts < 1]. *)
Definition neverAttempted (invocation : obj) : bool :=
  match get invocation "attempts" with VNum n => nltb n (Fin 1) | _ => false end.

Definition invocation_completed (state : AgentState) (payload : obj) : option AgentState :=
  '(invocationId, invocation) ← namedInvocation state payload;
  responseArtifact ← privateArtifact (get payload "responseArtifact") "model_response";
  finishReason ← modelFinishReason (get payload "finishReason");
  _ ← guard (hasStatus invocation "dispatching");
  _ ← guard (negb (neverAttempted invocation));
  Some (putInvocation state invocationId
    (spread invocation [("status", VStr "completed"); ("responseArtifact", VObj responseArtifact);
                        ("finishReason", VStr finishReason)])).

Definition invocation_interrupted (state : AgentState) (payload : obj) : option AgentState :=
  '(invocationId, invocation) ← namedInvocation state payload;
  dispatchCertainty ← modelDispatchCertainty (get payload "dispatchCertainty");
  interruptionReason ← modelInterruptionReason (get payload "reasonCode");
  _ ← guard (isOpen invocation);
  Some (putInvocation state invocationId
    (spread invocation [("status", VStr "interrupted");
                        ("dispatchCertainty", VStr dispatchCertainty);
                        ("interruptionReason", VStr interruptionReason)])).

Definition invocation_evidence_unavailable (state : AgentState) (payload : obj)
  : option AgentState :=
  '(invocationId, invocation) ← namedInvocation state payload;
  reasonCode ← modelEvidenceReason (get payload "reasonCode");
  _ ← guard (hasStatus invocation "completed");
  Some (putInvocation state invocationId
    (spread invocation [("modelEvidenceUnavailable", VStr reasonCode)])).

(** ** The reducer *)

(** An event that is refused leaves the state. *)
Definition reduceContextState (state : AgentState) (event : obj) (facts : AgentReducerFacts)
  : res AgentState :=
  let type := ev_type event in
  let orKept (next : option AgentState) := Ok (default state next) in
  if type =s "context.compaction_requested" then orKept (compaction_requested state event)
  else if type =s "context.compaction_completed" then orKept (compaction_completed state event)
  else if type =s "context.compaction_failed" then orKept (compaction_failed state event)
  else if type =s "context.compaction_reset" then orKept (compaction_reset state event)
  else if type =s "context.hard_blocked" then orKept (hard_blocked state event)
  else if type =s "context.hard_block_cleared" then orKept (hard_block_cleared state event)
  else if type =s "user.message_appended" then orKept (user_message_appended state event facts)
  else if type =s "model.responded" then orKept (model_responded state event)
  else if type =s "model.invocation_prepared" then orKept (invocation_prepared state event)
  else if type =s "model.invocation_attempt_started" then invocation_attempt_started state event
  else if type =s "model.invocation_completed" then orKept (invocation_completed state event)
  else if type =s "model.invocation_interrupted" then orKept (invocation_interrupted state event)
  else if type =s "model.invocation_evidence_unavailable"
  then orKept (invocation_evidence_unavailable state event)
  else Ok state.

(** ** Restored contexts ([context-normalization.ts])

    A restored context is JSON of the shape its type declares, with members that may
    not satisfy the schema. *)

Definition normalizeContextCompactionReason (value : val) : option string :=
  oneOf ["manual"; "auto"] value.

Definition isContextHardBlockReason (value : val) : bool := is_some (oneOf HARD_BLOCK_REASONS value).

Definition createContextCorrectnessBlock `{JsHost} (failure : obj) : res obj :=
  throw "Unsupported context correctness failure: " +:+ js_string (get failure "reason")
    when negb (isContextHardBlockReason (get failure "reason")) in
  throw "Context correctness failures require digest, turn, and message evidence."
    when negb (truthy (get failure "sourceDigest")) || negb (truthy (get failure "createdAtTurnId"))
      || negb (str_nonempty (trim (textOf failure "message"))) in
  Ok (spread failure [("message", VStr (trim (textOf failure "message")))]).

(** [Number.isInteger(v)] and [Number.isFinite(v)] of the numbers of JSON. *)
Definition finiteNumber (v : val) : option Z := match v with VNum (Fin z) => Some z | _ => None end.

Definition validEnvelope (checkpoint : val) : bool :=
  is_num (optProp checkpoint "version") 1
  && truthy (optProp checkpoint "compactionId")
  && match finiteNumber (optProp checkpoint "sourceRevision") with
     | Some r => 0 <=? r | None => false end
  && truthy (optProp checkpoint "sourceDigest")
  && truthy (optProp checkpoint "coveredThroughMessageId")
  && truthy (optProp checkpoint "coveredThroughTurnId")
  && match finiteNumber (optProp checkpoint "inputTokensBefore"),
           finiteNumber (optProp checkpoint "inputTokensAfter") with
     | Some before, Some after => (after <? before) && (0 <=? after)
     | _, _ => false
     end
  && truthy (optProp checkpoint "createdAt").

Definition normalizeCheckpoint (checkpoint : val) : option obj :=
  if negb (truthy checkpoint) then None
  else
    match normalizeContextCompactionReason (optProp checkpoint "reason"),
          optProp checkpoint "summary" with
    | Some reason, VStr summary =>
        if validEnvelope checkpoint && str_nonempty (trim summary)
        then Some (spread (jsonRecord checkpoint)
                     [("summary", VStr (trim summary)); ("reason", VStr reason)])
        else None
    | _, _ => None
    end.

Definition normalizeFailure (failure : val) : option obj :=
  if negb (truthy failure) then None
  else Some (spread (jsonRecord failure)
               [("reason", of_opt_str (normalizeContextCompactionReason (optProp failure "reason")))]).

Definition normalizePending (pending : val) : option obj :=
  if negb (truthy pending) then None
  else
    match normalizeContextCompactionReason (optProp pending "reason") with
    | Some reason => Some (spread (jsonRecord pending)
                             [("reason", VStr reason); ("force", VBool false)])
    | None => None
    end.

Definition of_opt_obj (o : option obj) : val := match o with Some o => VObj o | None => VUndef end.

Definition normalizeHistoryEntry (entry : val) : list val :=
  if is_str (optProp entry "kind") "completed" then
    match normalizeCheckpoint (optProp entry "checkpoint") with
    | Some checkpoint => [VObj [("kind", VStr "completed"); ("checkpoint", VObj checkpoint)]]
    | None => []
    end
  else if is_str (optProp entry "kind") "failed" then
    match normalizeFailure (optProp entry "failure") with
    | Some failure => [VObj [("kind", VStr "failed"); ("failure", VObj failure)]]
    | None => []
    end
  else [VObj [("kind", VStr "reset"); ("compactionId", optProp entry "compactionId");
              ("reason", VStr "manual")]].

(** The block a checkpoint that fails validation leaves. *)
Definition corruptedCheckpointBlock `{JsHost} (checkpoint : val) : obj :=
  [("reason", VStr "unrecoverable_checkpoint");
   ("sourceDigest",
     match optProp checkpoint "sourceDigest" with
     | VStr s => if str_nonempty s then VStr s
                 else VStr ("checkpoint:" +:+ js_string (nullish (optProp checkpoint "compactionId")
                                                            (VStr "unknown")))
     | _ => VStr ("checkpoint:" +:+ js_string (nullish (optProp checkpoint "compactionId")
                                                 (VStr "unknown")))
     end);
   ("message", VStr "The persisted context checkpoint failed validation.");
   ("createdAtTurnId", if truthy (optProp checkpoint "coveredThroughTurnId")
                       then optProp checkpoint "coveredThroughTurnId" else VStr "unknown")].

Definition normalizeHardBlock (block : val) : val :=
  if truthy block && isContextHardBlockReason (optProp block "reason")
  then VObj [("reason", optProp block "reason"); ("sourceDigest", optProp block "sourceDigest");
             ("message", match optProp block "message" with
                         | VStr s => VStr s | _ => VStr "Runtime correctness failure." end);
             ("createdAtTurnId", optProp block "createdAtTurnId")]
  else VUndef.

Definition fallbackGuard : obj :=
  [("recentAutomaticCompactions", VArr []); ("consecutiveLowGain", numVal 0);
   ("disabledUntilManualAction", VBool false); ("recoveryAttempted", VBool false)].

Definition normalizeContextRuntimeState `{JsHost} (context : option obj) : obj :=
  match context with
  | None => [("history", VArr []); ("autoGuard", VObj fallbackGuard)]
  | Some ctx =>
      let active := get ctx "activeCheckpoint" in
      let normalized := normalizeCheckpoint active in
      spread ctx
        [("activeCheckpoint", of_opt_obj normalized);
         ("pendingCompaction", of_opt_obj (normalizePending (get ctx "pendingCompaction")));
         ("lastFailure", of_opt_obj (normalizeFailure (get ctx "lastFailure")));
         ("history", VArr (flat_map normalizeHistoryEntry (default [] (arrayField ctx "history"))));
         ("hardBlock", if truthy active && negb (is_some normalized)
                       then VObj (corruptedCheckpointBlock active)
                       else normalizeHardBlock (get ctx "hardBlock"));
         ("autoGuard", VObj (spread fallbackGuard (jsonRecord (get ctx "autoGuard"))))]
  end.
