(* ===== verification/ContextClaims.v ===== *)
(** * What the context reducer promises

    Contexts stay well formed and survive a restoration; model invocations follow a
    bounded retry protocol; and the guard of automatic compactions counts the ones
    of a sliding window. *)

From S2P Require Import Prelude Js Hash State Sample Recovery Completion Verification Lifecycle Interaction Capability CapabilityClaims Context.
From stdpp Require Import prelude strings list.
From Stdlib Require Import ZArith Lia SpecFloat Sorting.Sorted.
Open Scope Z_scope.

(** ** Reading *)

#[local] Arguments spread : simpl never.

Lemma guard_bool (b : bool) x : guard b = Some x -> b = true.
Proof. intros _. by apply Is_true_eq_true. Qed.

Lemma nonEmpty_text o f s : nonEmptyStringField o f = Some s -> str_nonempty s = true.
Proof. intros [_ Hs]%opt_nonempty_some. by destruct s. Qed.

Lemma safe_range low o f z : safeIntegerFrom low o f = Some z -> isSafeInteger z = true /\ low <= z.
Proof.
  unfold safeIntegerFrom. repeat case_match; try done. intros [= ->].
  apply andb_true_iff in H0 as [? ?]. by bool_hyps.
Qed.

Lemma oneOf_text texts v s : oneOf texts v = Some s -> v = VStr s /\ str_in s texts = true.
Proof. unfold oneOf. destruct v; try done. case_match; [|done]. by intros [= ->]. Qed.

Lemma textField_text o f s : textField o f = Some s -> str_nonempty (trim s) = true.
Proof. unfold textField. repeat case_match; congruence. Qed.

(** Take an optional computation apart. *)
Ltac opt_inv := repeat match goal with
  | H : mbind _ ?x = Some _ |- _ => apply bind_Some in H as (? & ? & H)
  | H : Some _ = Some _ |- _ => injection H as H
  | H : guard (Is_true _) = Some _ |- _ => apply guard_bool in H
  | H : guard _ = Some ?p |- _ => clear H; pose proof p as H; clear p
  | H : nonEmptyStringField _ _ = Some _ |- _ => apply nonEmpty_text in H
  | H : safeNonNegativeField _ _ = Some _ |- _ => apply safe_range in H as [? ?]
  | H : safeIntegerFrom _ _ _ = Some _ |- _ => apply safe_range in H as [? ?]
  | H : textField _ _ = Some _ |- _ => apply textField_text in H
  | H : isCompactionReason _ = Some _ |- _ => apply oneOf_text in H as [_ H]
  end.

(** Read back the fields of an object just built. *)
Lemma bind_guard {A} (P : Prop) `{Decision P} (f : P -> option A) y :
  P -> (forall p, f p = Some y) -> mbind f (guard P) = Some y.
Proof. intros Hp Hf. unfold guard. destruct (decide P); [apply Hf|done]. Qed.

Lemma bind_back {A B} (x : option A) (f : A -> option B) a y :
  x = Some a -> f a = Some y -> mbind f x = Some y.
Proof. by intros ->. Qed.

Lemma oneOf_back texts s : str_in s texts = true -> oneOf texts (VStr s) = Some s.
Proof. simpl. by intros ->. Qed.

Definition checkpoint_ok (checkpoint : obj) : Prop := parseCheckpoint (VObj checkpoint) = Some checkpoint.

Lemma safe_back low k z o : get o k = numVal z -> isSafeInteger z = true -> low <= z ->
  safeIntegerFrom low o k = Some z.
Proof.
  intros Hg Hs Hl. unfold safeIntegerFrom, numberField. rewrite Hg. simpl.
  apply Z.leb_le in Hl. by rewrite Hs, Hl.
Qed.

Lemma nonEmpty_back k s o : get o k = VStr s -> str_nonempty s = true -> nonEmptyStringField o k = Some s.
Proof.
  intros Hg Hs. unfold nonEmptyStringField, stringField. rewrite Hg. simpl. destruct s; done.
Qed.

Lemma text_back k s o : get o k = VStr s -> str_nonempty (trim s) = true -> textField o k = Some s.
Proof. intros Hg Hs. unfold textField, stringField. rewrite Hg. simpl. by rewrite Hs. Qed.

Ltac opt_run := repeat first
  [ apply bind_guard; [first [lia|by apply Is_true_eq_left|exact I]|intros _]
  | eapply bind_back; [first
      [ reflexivity
      | apply nonEmpty_back; [reflexivity|eassumption]
      | apply safe_back; [reflexivity|eassumption|lia]
      | apply text_back; [reflexivity|eassumption]
      | apply oneOf_back; eassumption]|] ].

(** A checkpoint the reducer reads is one it would read again. *)
Lemma parse_stable v cp : parseCheckpoint v = Some cp -> checkpoint_ok cp.
Proof.
  unfold parseCheckpoint. intros Hp. opt_inv. subst cp. unfold checkpoint_ok, parseCheckpoint.
  destruct (nonEmptyStringField x "modelInvocationId") as [m|] eqn:Hm;
    destruct (nonEmptyStringField x "baseCheckpointId") as [b|] eqn:Hb; opt_inv; opt_run; cbn.
  all: by rewrite ?Hm, ?Hb.
Qed.

(** What a checkpoint is worth. *)
Lemma checkpoint_saves cp : checkpoint_ok cp -> exists before after,
  get cp "inputTokensBefore" = numVal before /\ get cp "inputTokensAfter" = numVal after
  /\ 0 <= after /\ after + 1024 <= before.
Proof.
  unfold checkpoint_ok, parseCheckpoint. intros Hp. opt_inv. subst cp.
  eexists _, _. split; [reflexivity|]. split; [reflexivity|]. lia.
Qed.

(** ** Well-formed contexts *)

Definition historyEntry_ok (entry : obj) : Prop :=
  (exists cp, entry = [("kind", VStr "completed"); ("checkpoint", VObj cp)] /\ checkpoint_ok cp)
  \/ (exists failure, entry = [("kind", VStr "failed"); ("failure", VObj failure)])
  \/ (exists id, entry = [("kind", VStr "reset"); ("compactionId", VStr id); ("reason", VStr "manual")]).

Definition block_ok (block : obj) : Prop := exists reason digest message turn,
  block = [("reason", VStr reason); ("sourceDigest", VStr digest); ("message", VStr message);
           ("createdAtTurnId", VStr turn)]
  /\ str_in reason HARD_BLOCK_REASONS = true.

Record context_ok (c : AgentContextState) : Prop := {
  co_bound : (length (history c) <= 128)%nat;
  co_history : Forall historyEntry_ok (history c);
  co_active : forall cp, activeCheckpoint c = Some cp -> checkpoint_ok cp;
  co_pending : forall p, pendingCompaction c = Some p ->
    (exists id, get p "compactionId" = VStr id /\ str_nonempty id = true)
    /\ (get p "reason" = VStr "manual" \/ get p "reason" = VStr "auto");
  co_block : forall b, hardBlock c = Some b -> block_ok b }.

Lemma Forall_sliceTail {A} (P : A -> Prop) n l : Forall P l -> Forall P (sliceTail n l).
Proof. apply Forall_drop. Qed.

Lemma addHistory_ok c entry : Forall historyEntry_ok (history c) -> historyEntry_ok entry ->
  Forall historyEntry_ok (addHistory c entry).
Proof. intros Hh He. apply Forall_sliceTail, Forall_app. auto. Qed.

Lemma compaction_reason s : str_in s ["manual"; "auto"] = true -> VStr s = VStr "manual" \/ VStr s = VStr "auto".
Proof. intros [<-|[<-|[]]]%str_in_true; auto. Qed.

(** One step of the context proper. *)
Lemma compaction_requested_ok s e s' : context_ok (context s) -> compaction_requested s e = Some s' ->
  context_ok (context s').
Proof.
  intros [Hb Hh Ha Hp Hk] H. unfold compaction_requested in H. opt_inv. subst s'.
  split; try done. intros p [= <-]. split; [by eexists|]. by apply compaction_reason.
Qed.

Lemma compaction_completed_ok s e s' : context_ok (context s) -> compaction_completed s e = Some s' ->
  context_ok (context s').
Proof.
  intros [Hb Hh Ha Hp Hk] H. unfold compaction_completed in H.
  apply bind_Some in H as (id & _ & H). opt_inv. subst s'.
  match goal with H : parseCheckpoint _ = Some _ |- _ => apply parse_stable in H; rename H into Hcp end.
  split; simpl; try done.
  - apply sliceTail_length.
  - apply addHistory_ok; [done|]. left. eauto.
  - intros cp [= <-]. done.
Qed.

Lemma compaction_failed_ok s e s' : context_ok (context s) -> compaction_failed s e = Some s' ->
  context_ok (context s').
Proof.
  intros [Hb Hh Ha Hp Hk] H. unfold compaction_failed in H. opt_inv. subst s'.
  split; simpl; try done.
  - apply sliceTail_length.
  - apply addHistory_ok; [done|]. right; left. eauto.
Qed.

Lemma compaction_reset_ok s e s' : context_ok (context s) -> compaction_reset s e = Some s' ->
  context_ok (context s').
Proof.
  intros [Hb Hh Ha Hp Hk] H. unfold compaction_reset in H. opt_inv. subst s'.
  split; simpl; try done.
  - apply sliceTail_length.
  - apply addHistory_ok; [done|]. right; right. eauto.
Qed.

Lemma hard_blocked_ok s e s' : context_ok (context s) -> hard_blocked s e = Some s' ->
  context_ok (context s').
Proof.
  intros [Hb Hh Ha Hp Hk] H. unfold hard_blocked in H. apply bind_Some in H as (r & Hr & H).
  apply oneOf_text in Hr as [_ Hr]. opt_inv. subst s'.
  split; try done. intros b [= <-]. by eexists _, _, _, _.
Qed.

Lemma hard_block_cleared_ok s e s' : context_ok (context s) -> hard_block_cleared s e = Some s' ->
  context_ok (context s').
Proof.
  intros [Hb Hh Ha Hp Hk] H. unfold hard_block_cleared in H. opt_inv. subst s'. by split.
Qed.

(** The other events leave the context alone. *)
Lemma openAllocatedTask_context s f g : context (openAllocatedTask s f g) = context s.
Proof. unfold openAllocatedTask. by repeat case_match. Qed.

Lemma setUserGoal_context s g : context (setUserGoal s g) = context s.
Proof. unfold setUserGoal. by repeat case_match. Qed.

Lemma user_message_context s e f s' : user_message_appended s e f = Some s' -> context s' = context s.
Proof.
  unfold user_message_appended. intros H. opt_inv. subst s'. simpl.
  by rewrite setUserGoal_context, openAllocatedTask_context.
Qed.

Lemma model_responded_context s e s' : model_responded s e = Some s' -> context s' = context s.
Proof. unfold model_responded. intros H. opt_inv. by subst s'. Qed.

(** An invocation event leaves the context alone. *)
Lemma attempt_started_shape s e s' : invocation_attempt_started s e = Ok s' ->
  s' = s \/ exists k i, s' = putInvocation s k i.
Proof.
  unfold invocation_attempt_started.
  destruct (namedInvocation s e) as [[k i]|]; [|intros [= <-]; auto].
  destruct (safeIntegerFrom 1 e "attempt"); [|intros [= <-]; auto].
  destruct (safeNonNegativeField e "maxAttempts"); [|intros [= <-]; auto].
  destruct (isOpen i); [|intros [= <-]; auto].
  intros (limit & _ & [= <-])%bind_ok. case_match; eauto.
Qed.

Lemma kept_or (s s' : AgentState) x : Ok (default s x) = Ok s' -> s' = s \/ x = Some s'.
Proof. intros [= <-]. destruct x; auto. Qed.

Ltac putInvocation_shape := intros; unfold invocation_prepared, invocation_completed,
  invocation_interrupted, invocation_evidence_unavailable in *;
  repeat match goal with
  | H : mbind _ _ = Some _ |- _ => apply bind_Some in H as (? & ? & H)
  | H : (let '(_, _) := ?p in _) = Some _ |- _ => destruct p
  end; simplify_eq; eauto.

Lemma invocation_prepared_shape s e s' : invocation_prepared s e = Some s' -> exists k i, s' = putInvocation s k i.
Proof. putInvocation_shape. Qed.
Lemma invocation_completed_shape s e s' : invocation_completed s e = Some s' -> exists k i, s' = putInvocation s k i.
Proof. putInvocation_shape. Qed.
Lemma invocation_interrupted_shape s e s' : invocation_interrupted s e = Some s' -> exists k i, s' = putInvocation s k i.
Proof. putInvocation_shape. Qed.
Lemma invocation_evidence_shape s e s' : invocation_evidence_unavailable s e = Some s' ->
  exists k i, s' = putInvocation s k i.
Proof. putInvocation_shape. Qed.

(** What an event can change: the context, one invocation, or a message is appended. *)
Lemma context_effect s e f s' : reduceContextState s e f = Ok s' ->
  s' = s \/ (exists c, s' = withContext s c) \/ (exists k i, s' = putInvocation s k i)
  \/ user_message_appended s e f = Some s' \/ model_responded s e = Some s'.
Proof.
  unfold reduceContextState. cbv zeta.
  repeat (case_match; [first
    [ intros [->|Hs]%kept_or; [by left|];
      first [ by do 3 right; left | by do 4 right
            | by (right; right; left; eauto using invocation_prepared_shape, invocation_completed_shape,
                    invocation_interrupted_shape, invocation_evidence_shape)
            | right; left; unfold compaction_requested, compaction_completed, compaction_failed,
                compaction_reset, hard_blocked, hard_block_cleared in Hs;
              repeat (apply bind_Some in Hs as (? & ? & Hs)); injection Hs as <-; eauto ]
    | intros [->|(? & ? & ->)]%attempt_started_shape; [by left|right; right; left; eauto]]|]).
  intros [= <-]. by left.
Qed.

(** The context after an event, by the kind of event. *)
Lemma reduce_context_ok s e f s' : context_ok (context s) -> reduceContextState s e f = Ok s' ->
  context_ok (context s').
Proof.
  intros Hc. unfold reduceContextState. cbv zeta.
  repeat (case_match; [first
    [ intros [->|Hs]%kept_or; [done|];
      first [by eapply compaction_requested_ok|by eapply compaction_completed_ok
            |by eapply compaction_failed_ok|by eapply compaction_reset_ok|by eapply hard_blocked_ok
            |by eapply hard_block_cleared_ok
            |by (apply user_message_context in Hs as ->)
            |by (apply model_responded_context in Hs as ->)
            |by (apply invocation_prepared_shape in Hs as (? & ? & ->))
            |by (apply invocation_completed_shape in Hs as (? & ? & ->))
            |by (apply invocation_interrupted_shape in Hs as (? & ? & ->))
            |by (apply invocation_evidence_shape in Hs as (? & ? & ->))]
    | intros [->|(? & ? & ->)]%attempt_started_shape; done]|]).
  by intros [= <-].
Qed.

(** ** Restoration *)

Lemma checkpoint_normalized cp : checkpoint_ok cp -> exists summary reason,
  get cp "summary" = VStr summary /\ get cp "reason" = VStr reason
  /\ normalizeCheckpoint (VObj cp)
     = Some (spread cp [("summary", VStr (trim summary)); ("reason", VStr reason)]).
Proof.
  unfold checkpoint_ok, parseCheckpoint. intros Hp. cbn [isRecord mbind option_bind] in Hp.
  apply bind_Some in Hp as (id & Hid & Hp). apply nonEmpty_text in Hid.
  opt_inv.
  assert (Hg : forall k v, get (("compactionId", VStr id) :: ("version", numVal 1) :: _) k = v -> get cp k = v)
    by (intros k v <-; by rewrite Hp).
  exists x4, x9. split; [by apply Hg|]. split; [by apply Hg|].
  unfold normalizeCheckpoint, normalizeContextCompactionReason, validEnvelope. cbn [truthy negb optProp].
  rewrite (Hg "reason" (VStr x9)), (Hg "summary" (VStr x4)), (Hg "version" (numVal 1)),
    (Hg "compactionId" (VStr id)), (Hg "sourceRevision" (numVal x0)), (Hg "sourceDigest" (VStr x1)),
    (Hg "coveredThroughMessageId" (VStr x2)), (Hg "coveredThroughTurnId" (VStr x3)),
    (Hg "inputTokensBefore" (numVal x5)), (Hg "inputTokensAfter" (numVal x6)),
    (Hg "createdAt" (VStr x10)) by reflexivity.
  rewrite oneOf_back by done. cbn -[trim Z.leb Z.ltb].
  assert (str_nonempty x10 = true) by (by destruct x10).
  repeat match goal with H : str_nonempty _ = true |- _ => rewrite H; clear H end.
  rewrite !(proj2 (Z.leb_le _ _)), (proj2 (Z.ltb_lt _ _)) by lia. done.
Qed.

Lemma block_normalized b : block_ok b -> normalizeHardBlock (VObj b) = VObj b.
Proof.
  intros (r & d & m & t & -> & Hr). unfold normalizeHardBlock, isContextHardBlockReason.
  cbn -[oneOf HARD_BLOCK_REASONS]. by rewrite oneOf_back.
Qed.

Lemma entry_normalized e : historyEntry_ok e -> length (normalizeHistoryEntry (VObj e)) = 1%nat.
Proof.
  intros [(cp & -> & Hcp)|[(fl & ->)|(id & ->)]]; try done.
  unfold normalizeHistoryEntry. cbn -[normalizeCheckpoint].
  by destruct (checkpoint_normalized cp Hcp) as (? & ? & _ & _ & ->).
Qed.

(** Read a field of a spread of named fields. *)
Ltac spread_get := unfold spread; cbn [fold_left]; rewrite ?get_oset_ne by done; rewrite ?get_oset_eq.

(** ** Claims *)

(** The JSON of a context, as the state codec stores it. *)
Record context_json (c : AgentContextState) (json : obj) : Prop := {
  cj_active : get json "activeCheckpoint" = of_opt_obj (activeCheckpoint c);
  cj_block : get json "hardBlock" = of_opt_obj (hardBlock c);
  cj_history : get json "history" = VArr (List.map VObj (history c)) }.

(** The events of a run, reduced in turn. *)
Fixpoint runContext (s : AgentState) (events : list (obj * AgentReducerFacts)) : res AgentState :=
  match events with
  | [] => Ok s
  | (e, f) :: rest => let* next := reduceContextState s e f in runContext next rest
  end.


(** *** Model invocations *)

(** The phases of an invocation, with the attempts dispatched so far. *)
Inductive Phase : Type :=
| ph_prepared
| ph_dispatching (attempts : Z)
| ph_completed (attempts : Z)
| ph_interrupted (attempts : Z).

(** The retry protocol with at most [limit] attempts. *)
Inductive phase_step (limit : Z) : Phase -> Phase -> Prop :=
| ps_first : 1 <= limit -> phase_step limit ph_prepared (ph_dispatching 1)
| ps_retry n : 1 <= n < limit -> phase_step limit (ph_dispatching n) (ph_dispatching (n + 1))
| ps_complete n : 1 <= n <= limit -> phase_step limit (ph_dispatching n) (ph_completed n)
| ps_withdraw : phase_step limit ph_prepared (ph_interrupted 0)
| ps_interrupt n : 1 <= n <= limit -> phase_step limit (ph_dispatching n) (ph_interrupted n).

(** An invocation on the state is in a phase. *)
Inductive in_phase (limit : Z) (i : obj) : Phase -> Prop :=
| ip_prepared : get i "status" = VStr "prepared" -> get i "attempts" = numVal 0 ->
    in_phase limit i ph_prepared
| ip_dispatching n : get i "status" = VStr "dispatching" -> get i "attempts" = numVal n ->
    1 <= n <= limit -> in_phase limit i (ph_dispatching n)
| ip_completed n : get i "status" = VStr "completed" -> get i "attempts" = numVal n ->
    1 <= n <= limit -> in_phase limit i (ph_completed n)
| ip_interrupted n : get i "status" = VStr "interrupted" -> get i "attempts" = numVal n ->
    0 <= n <= limit -> in_phase limit i (ph_interrupted n).

Definition limit_of (i : obj) (limit : Z) : Prop :=
  exists o, get i "limits" = VObj o /\ get o "maxAttempts" = numVal limit
            /\ 1 <= limit <= MAX_SAFE_INTEGER.

Definition invocation_ok (i : obj) : Prop := exists limit phase, limit_of i limit /\ in_phase limit i phase.

(** The fields an invocation is prepared with. *)
Definition PREPARED_FIELDS : list string :=
  ["invocationId"; "purpose"; "surfaceArtifact"; "surfaceIntegrityIdentifier"; "routeFingerprint";
   "budget"; "limits"; "preparedStateRevision"; "parentInvocationId"; "parentToolCallId"].

(** One event: the prepared fields stay, and the phase makes at most one step. *)
Definition follows (i i' : obj) : Prop :=
  (forall f, In f PREPARED_FIELDS -> get i' f = get i f)
  /\ exists limit p p', limit_of i limit /\ in_phase limit i p /\ in_phase limit i' p'
     /\ (p' = p \/ phase_step limit p p').

Definition invocations_ok (s : AgentState) : Prop :=
  forall k i, oget k (modelInvocations s) = Some i -> invocation_ok i.

Lemma follows_refl i : invocation_ok i -> follows i i.
Proof. intros (l & p & Hl & Hp). split; [done|]. exists l, p, p. auto. Qed.

Lemma follows_ok i i' : follows i i' -> invocation_ok i'.
Proof.
  intros (Hf & l & p & p' & (o & Ho & Hm) & _ & Hp' & _). exists l, p'. split; [|done].
  exists o. rewrite Hf by (simpl; tauto). auto.
Qed.

Lemma spread_prepared i fields : disjointNames PREPARED_FIELDS (List.map fst fields) = true ->
  forall f, In f PREPARED_FIELDS -> get (spread i fields) f = get i f.
Proof. intros Hd f Hf. apply get_spread_ne. by eapply disjointNames_spec. Qed.

Lemma named_ok s e k i : invocations_ok s -> namedInvocation s e = Some (k, i) ->
  oget k (modelInvocations s) = Some i /\ invocation_ok i.
Proof. unfold namedInvocation. intros Hs H. opt_inv. simplify_eq. eauto. Qed.

(** A change of status and attempts is a step of the phases. *)
Lemma status_step i limit p p' status attempts fields :
  limit_of i limit -> in_phase limit i p -> phase_step limit p p' ->
  disjointNames PREPARED_FIELDS (List.map fst fields) = true ->
  get (spread i fields) "status" = VStr status -> get (spread i fields) "attempts" = numVal attempts ->
  match p' with
  | ph_prepared => False
  | ph_dispatching n => status = "dispatching"%string /\ attempts = n
  | ph_completed n => status = "completed"%string /\ attempts = n
  | ph_interrupted n => status = "interrupted"%string /\ attempts = n
  end -> follows i (spread i fields).
Proof.
  intros Hl Hp Hst Hd Hs Ha Hp'. split; [by apply spread_prepared|].
  exists limit, p, p'. split_and!; auto. destruct Hl as (_ & _ & _ & Hl).
  destruct p'; [done| | |]; destruct Hp' as [-> ->]; inversion Hst; subst; constructor;
    first [assumption|lia].
Qed.

(** What an invocation event does. *)
Definition invocations_step (s s' : AgentState) : Prop :=
  s' = s \/ exists k i i', oget k (modelInvocations s) = Some i /\ follows i i' /\ s' = putInvocation s k i'.

Lemma attempt_started_step s e : invocations_ok s ->
  exists s', invocation_attempt_started s e = Ok s' /\ invocations_step s s'.
Proof.
  intros Hs. unfold invocation_attempt_started.
  destruct (namedInvocation s e) as [[k i]|] eqn:En; [|eexists; split; [done|by left]].
  destruct (safeIntegerFrom 1 e "attempt") as [a|] eqn:Ea; [|eexists; split; [done|by left]].
  destruct (safeNonNegativeField e "maxAttempts") as [m|] eqn:Em; [|eexists; split; [done|by left]].
  destruct (named_ok s e k i Hs En) as (Hi & limit & p & (o & Ho & Hm & Hlim) & Hp).
  destruct (isOpen i) eqn:Eo; [|eexists; split; [done|by left]].
  unfold propOf. rewrite Ho. cbn [res_bind]. rewrite Hm.
  eexists. split; [done|].
  destruct (_ && _ && _) eqn:Ec; [|by left]. right. exists k, i. eexists. split; [done|]. split; [|done].
  rewrite !andb_true_iff in Ec. destruct Ec as [[E1 E2] E3]. bool_hyps.
  apply safe_range in Ea as [Ha1 Ha2]. apply isSafeInteger_true in Ha1.
  assert (m = limit) as -> by (by simpl in E1; bool_hyps).
  assert (exists p', phase_step limit p p' /\ p' = ph_dispatching a) as (p' & Hst & ->).
  { eexists. split; [|done]. inversion Hp as [Hst Hat|n Hst Hat Hn|n Hst Hat Hn|n Hst Hat Hn]; subst p.
    - rewrite Hat in E2. apply Z.eqb_eq in E2. rewrite E2. constructor. lia.
    - rewrite Hat in E2. simpl in E2. unfold MAX_SAFE_INTEGER in *.
      rewrite fadd_succ in E2 by lia. apply Z.eqb_eq in E2. subst a. constructor. lia.
    - unfold isOpen, hasStatus in Eo. by rewrite Hst in Eo.
    - unfold isOpen, hasStatus in Eo. by rewrite Hst in Eo. }
  eapply (status_step i limit p _ "dispatching" a); [by exists o|done|done|done|by spread_get..|done].
Qed.

Lemma response_step s e s' : invocations_ok s -> invocation_completed s e = Some s' -> invocations_step s s'.
Proof.
  intros Hs H. unfold invocation_completed in H. apply bind_Some in H as ([k i] & En & H).
  destruct (named_ok s e k i Hs En) as (Hi & limit & p & Hl & Hp). opt_inv. subst s'.
  right. exists k, i. eexists. split; [done|]. split; [|done].
  inversion Hp as [Hst Hat|n Hst Hat Hn|n Hst Hat Hn|n Hst Hat Hn]; subst p;
    match goal with H : hasStatus i "dispatching" = true |- _ =>
      unfold hasStatus in H; rewrite Hst in H; try done end.
  eapply (status_step i limit _ (ph_completed n) "completed" n);
    [done|done|by constructor|done|by spread_get..|done].
Qed.

Lemma interrupted_step s e s' : invocations_ok s -> invocation_interrupted s e = Some s' -> invocations_step s s'.
Proof.
  intros Hs H. unfold invocation_interrupted in H. apply bind_Some in H as ([k i] & En & H).
  destruct (named_ok s e k i Hs En) as (Hi & limit & p & Hl & Hp). opt_inv. subst s'.
  right. exists k, i. eexists. split; [done|]. split; [|done].
  inversion Hp as [Hst Hat|n Hst Hat Hn|n Hst Hat Hn|n Hst Hat Hn]; subst p;
    match goal with H : isOpen i = true |- _ =>
      unfold isOpen, hasStatus in H; rewrite Hst in H; try done end.
  - eapply (status_step i limit _ (ph_interrupted 0) "interrupted" 0);
      [done|done|by constructor|done|by spread_get..|done].
  - eapply (status_step i limit _ (ph_interrupted n) "interrupted" n);
      [done|done|by constructor|done|by spread_get..|done].
Qed.

Lemma evidence_step s e s' : invocations_ok s -> invocation_evidence_unavailable s e = Some s' ->
  invocations_step s s'.
Proof.
  intros Hs H. unfold invocation_evidence_unavailable in H. apply bind_Some in H as ([k i] & En & H).
  destruct (named_ok s e k i Hs En) as (Hi & limit & p & Hl & Hp). opt_inv. subst s'.
  right. exists k, i. eexists. split; [done|]. split; [|done].
  split; [by apply spread_prepared|]. exists limit, p, p. split_and!; auto.
  inversion Hp; subst p; constructor; try done; by rewrite get_spread_ne by (simpl; intuition discriminate).
Qed.

Lemma prepared_step s e s' : invocation_prepared s e = Some s' ->
  exists k i limit, oget k (modelInvocations s) = None /\ s' = putInvocation s k i
    /\ limit_of i limit /\ in_phase limit i ph_prepared.
Proof.
  unfold invocation_prepared. intros H. apply bind_Some in H as (k & Hk & H).
  apply bind_Some in H as (Hnew & _ & H).
  destruct (modelLimits (get e "limits")) as [limits|] eqn:El;
    [|exfalso; repeat (apply bind_Some in H as (? & ? & H)); congruence].
  unfold modelLimits in El.
  apply bind_Some in El as (c & _ & (m & Hm & (t & _ & (b & _ & [= <-])%bind_Some)%bind_Some)%bind_Some).
  apply safe_range in Hm as [Hm1 Hm2]. apply isSafeInteger_true in Hm1.
  repeat (apply bind_Some in H as (? & ? & H)). injection H as <-. simplify_eq.
  exists k. eexists _, m. split_and!; [|done| |by constructor].
  - apply Is_true_eq_true, negb_true_iff in Hnew. unfold ohas in Hnew. by destruct (oget k _).
  - eexists. split; [reflexivity|]. split; [done|]. lia.
Qed.

Lemma withContext_invocations s s' : (exists c, s' = withContext s c) ->
  modelInvocations s' = modelInvocations s.
Proof. by intros [c ->]. Qed.

Lemma setUserGoal_invocations s g : modelInvocations (setUserGoal s g) = modelInvocations s.
Proof. unfold setUserGoal. by repeat case_match. Qed.

Lemma openAllocatedTask_invocations s f g : modelInvocations (openAllocatedTask s f g) = modelInvocations s.
Proof. unfold openAllocatedTask. by repeat case_match. Qed.

(** The other events leave the invocations alone. *)
Lemma other_events_invocations s e f s' :
  compaction_requested s e = Some s' \/ compaction_completed s e = Some s'
  \/ compaction_failed s e = Some s' \/ compaction_reset s e = Some s' \/ hard_blocked s e = Some s'
  \/ hard_block_cleared s e = Some s' \/ user_message_appended s e f = Some s'
  \/ model_responded s e = Some s' -> modelInvocations s' = modelInvocations s.
Proof.
  unfold compaction_requested, compaction_completed, compaction_failed, compaction_reset, hard_blocked,
    hard_block_cleared, user_message_appended, model_responded.
  intros [H|[H|[H|[H|[H|[H|[H|H]]]]]]];
    repeat (apply bind_Some in H as (? & ? & H)); injection H as <-; try done.
  simpl. by rewrite setUserGoal_invocations, openAllocatedTask_invocations.
Qed.

(** The invocations after an event. *)
Lemma reduce_invocations_cases s e f : invocations_ok s ->
  exists s', reduceContextState s e f = Ok s'
    /\ (modelInvocations s' = modelInvocations s \/ invocations_step s s'
        \/ ev_type e = "model.invocation_prepared"%string /\
           exists k i limit, oget k (modelInvocations s) = None /\ s' = putInvocation s k i
             /\ limit_of i limit /\ in_phase limit i ph_prepared).
Proof.
  intros Hs. unfold reduceContextState. cbv zeta.
  repeat (case_match; [first
    [ destruct (attempt_started_step s e Hs) as (s' & ? & ?); exists s'; split; [assumption|];
      right; left; assumption
    | eexists; split; [reflexivity|];
      match goal with |- context [default s ?x] => destruct x as [s'|] eqn:Hx; [simpl default|by left] end;
      first [ left; eapply (other_events_invocations s e f); tauto
            | right; left; eauto using response_step, interrupted_step, evidence_step; fail
            | right; right; bool_hyps; split; [done|by eapply prepared_step] ]]|]).
  exists s. auto.
Qed.

(** C21: every event finds the model invocations of the state in the phases of one
    retry protocol and leaves them so.  The reducer never throws on such a state;
    an invocation appears only by being prepared, keeps all it was prepared with
    and is never removed; each event makes at most one step of the protocol, in
    which attempts are dispatched one by one, never more than the limit, a response
    is recorded only for a dispatched attempt, and an invocation that completed or
    was interrupted stays so. *)
Theorem model_invocations_follow_protocol state event facts : invocations_ok state ->
  exists state', reduceContextState state event facts = Ok state' /\ invocations_ok state'
  /\ forall k, match oget k (modelInvocations state), oget k (modelInvocations state') with
     | Some i, Some i' => follows i i'
     | Some _, None => False
     | None, Some i' => ev_type event = "model.invocation_prepared"%string
                        /\ exists limit, limit_of i' limit /\ in_phase limit i' ph_prepared
     | None, None => True
     end.
Proof.
  intros Hs. destruct (reduce_invocations_cases state event facts Hs) as (s' & Hr & Hc).
  exists s'. split; [done|].
  match goal with |- _ /\ ?Q => assert (Hq : Q) end.
  { intros k. destruct Hc as [->|[[->|(k' & i & i' & Hi & Hf & ->)]|(Ht & k' & i & limit & Hi & -> & Hl & Hp)]].
    - destruct (oget k _) eqn:E; [by eapply follows_refl, Hs|done].
    - destruct (oget k _) eqn:E; [by eapply follows_refl, Hs|done].
    - simpl. destruct (decide (k = k')) as [->|Hne]; [by rewrite oget_oset_eq, Hi|].
      rewrite oget_oset_ne by done. destruct (oget k _) eqn:E; [by eapply follows_refl, Hs|done].
    - simpl. destruct (decide (k = k')) as [->|Hne]; [rewrite oget_oset_eq, Hi; eauto|].
      rewrite oget_oset_ne by done. destruct (oget k _) eqn:E; [by eapply follows_refl, Hs|done]. }
  split; [|exact Hq]. intros k i' Hi'. specialize (Hq k). rewrite Hi' in Hq.
  destruct (oget k (modelInvocations state)); [by eapply follows_ok|].
  destruct Hq as (_ & limit & Hl & Hp). by exists limit, ph_prepared.
Qed.

(** *** The window of automatic compactions *)

(** The compactions among the events of the guard. *)
Definition completions (events : list AutoGuardEvent) : list ContextAutoGuardEntry :=
  omap (fun e => match e with
                 | guard_completed t r k => Some {| ge_turnIndex := t; ge_reductionRatio := r;
                                                    ge_tokensAfter := k |}
                 | _ => None
                 end) events.

Definition isReset (e : AutoGuardEvent) : bool :=
  match e with guard_manual_reset => true | _ => false end.

(** The compaction is one of the last ten turns. *)
Definition within (now : Z) (e : ContextAutoGuardEntry) : bool :=
  now - ge_turnIndex e <=? AUTO_COMPACTION_WINDOW_TURNS.

Definition ordered (es : list ContextAutoGuardEntry) : Prop :=
  StronglySorted (fun a b => ge_turnIndex a <= ge_turnIndex b) es.

Lemma within_narrows now later es : now <= later ->
  List.filter (within later) (List.filter (within now) es) = List.filter (within later) es.
Proof.
  intros Hn. induction es as [|e es IH]; [done|]. simpl.
  destruct (within now e) eqn:E1; simpl; [by rewrite IH|].
  destruct (within later e) eqn:E2; [|done]. unfold within in *. bool_hyps. lia.
Qed.

Lemma ordered_snoc es e : ordered (es ++ [e]) ->
  ordered es /\ Forall (fun x => ge_turnIndex x <= ge_turnIndex e) es.
Proof.
  unfold ordered. induction es as [|x es IH]; simpl; [by split; constructor|].
  intros [Hs Hf]%StronglySorted_inv. destruct (IH Hs) as [H1 H2].
  apply Forall_app in Hf as [Hf1 Hf2]. apply Forall_cons in Hf2 as [Hf2 _]. split; constructor; auto.
Qed.

Lemma updateAutoGuard_recent g t r k : recentAutomaticCompactions (updateAutoGuard g (guard_completed t r k))
  = List.filter (within t) (recentAutomaticCompactions g ++ completions [guard_completed t r k]).
Proof. done. Qed.

(** What the guard keeps is the window that ends at the last compaction. *)
Lemma recent_is_window g events : forallb (fun e => negb (isReset e)) events = true ->
  ordered (completions events) ->
  recentAutomaticCompactions (List.fold_left updateAutoGuard events (updateAutoGuard g guard_manual_reset))
  = match last (completions events) with
    | Some e => List.filter (within (ge_turnIndex e)) (completions events)
    | None => []
    end.
Proof.
  set (reset := updateAutoGuard g guard_manual_reset). unfold completions.
  induction events as [|e events IH] using rev_ind; [done|].
  rewrite forallb_app, fold_left_app, omap_app. simpl. rewrite andb_true_r.
  intros [Hall He]%andb_true_iff. destruct e as [t r k| |]; [|rewrite app_nil_r; by apply IH|done].
  simpl. intros [Hord Hle]%ordered_snoc. rewrite last_snoc. simpl.
  rewrite IH by done. rewrite !List.filter_app. f_equal.
  destruct (last _) as [l|] eqn:El; [|by apply last_None in El as ->].
  apply within_narrows. rewrite Forall_forall in Hle. apply (Hle l). by apply last_Some_elem_of.
Qed.

(** In an ordered list the entry before the last decides. *)
Lemma refilled_is_repeated now es e : ge_turnIndex e = now -> ordered (es ++ [e]) ->
  refilledFast (List.filter (within now) (es ++ [e])) now
  = existsb (fun x => now - 1 <=? ge_turnIndex x) es.
Proof.
  intros <- Hord. rewrite List.filter_app.
  assert (within (ge_turnIndex e) e = true) as He
    by (unfold within, AUTO_COMPACTION_WINDOW_TURNS; apply Z.leb_le; lia).
  simpl. rewrite He. unfold refilledFast. rewrite rev_app_distr. simpl.
  apply ordered_snoc in Hord as [Hord Hle].
  induction es as [|x es IH] using rev_ind; [done|].
  apply ordered_snoc in Hord as [Hord Hx]. apply Forall_app in Hle as [Hle _].
  rewrite List.filter_app, existsb_app. simpl. rewrite orb_false_r.
  destruct (within (ge_turnIndex e) x) eqn:Ew.
  - rewrite rev_app_distr. simpl. destruct (_ <=? ge_turnIndex x) eqn:E; [by rewrite orb_true_r|].
    rewrite orb_false_r. symmetry. apply not_true_iff_false. intros (y & Hy & Hl)%existsb_exists.
    rewrite Forall_forall in Hx. specialize (Hx y ltac:(by apply list_elem_of_In)). bool_hyps. lia.
  - simpl. rewrite app_nil_r, IH by done. destruct (existsb _ es); [done|]. unfold within in Ew.
    unfold AUTO_COMPACTION_WINDOW_TURNS in Ew. symmetry. simpl. apply Z.leb_gt. bool_hyps. lia.
Qed.


(** ** Instances *)

Definition noFacts : AgentReducerFacts := {| allocatedTaskId := None; verificationSchemaAdmissions := VUndef |}.

Definition contextEvent (type : string) (rest : obj) : obj := ("type", VStr type) :: rest.

Definition sampleEstimate : val := VObj (List.map (fun f => (f, numVal 10)) ESTIMATE_FIELDS).

Definition sampleCheckpoint : obj :=
  [("compactionId", VStr "c1"); ("version", numVal 1); ("sourceRevision", numVal 7);
   ("sourceDigest", VStr "digest"); ("coveredThroughMessageId", VStr "m1");
   ("coveredThroughTurnId", VStr "t1"); ("summary", VStr " The work so far. ");
   ("inputTokensBefore", numVal 50000); ("inputTokensAfter", numVal 8000); ("reason", VStr "auto");
   ("createdAt", VStr "2026-01-02T03:04:05Z")].

Definition compactionEvents : list (obj * AgentReducerFacts) :=
  [(contextEvent "context.compaction_requested"
      [("compactionId", VStr "c1"); ("reason", VStr "auto"); ("requestedAtRevision", numVal 7);
       ("requestedAtTurnId", VStr "t1"); ("estimate", sampleEstimate)], noFacts);
   (contextEvent "context.compaction_completed"
      [("compactionId", VStr "c1"); ("sourceRevision", numVal 7);
       ("checkpoint", VObj sampleCheckpoint)], noFacts)].

Definition compacted : AgentState :=
  match runContext demo compactionEvents with Ok s => s | Throw _ => demo end.

Definition compactedJson : obj :=
  [("activeCheckpoint", VObj sampleCheckpoint); ("pendingCompaction", VUndef);
   ("history", VArr [VObj [("kind", VStr "completed"); ("checkpoint", VObj sampleCheckpoint)]])].

Lemma demo_context : context_ok (context demo).
Proof. split; [simpl; lia|constructor|done..]. Qed.


(** The ratio of that compaction is the double nearest to 0.84. *)
Lemma sample_ratio : List.map ge_reductionRatio (recentAutomaticCompactions (autoGuard (context compacted)))
  = [S754_finite false 7566047373982433 (-53)].
Proof. vm_compute. reflexivity. Qed.

Definition preparedEvent : obj :=
  contextEvent "model.invocation_prepared"
    [("invocationId", VStr "mi1"); ("purpose", VStr "primary_agent");
     ("surfaceArtifact", VObj [("kind", VStr "model_surface"); ("artifactId", VStr "a");
                               ("integrityIdentifier", VStr "i"); ("byteLength", numVal 3)]);
     ("surfaceIntegrityIdentifier", VStr "i"); ("routeFingerprint", VStr "r");
     ("budget", VObj [("kind", VStr "no_budget"); ("reason", VStr "resource_budget_disabled")]);
     ("limits", VObj [("maxAttempts", numVal 2); ("perAttemptTimeoutMs", numVal 5);
                      ("totalTimeBudgetMs", numVal 9)]);
     ("preparedStateRevision", numVal 0); ("parentInvocationId", VNull); ("parentToolCallId", VNull)].

Definition attemptEvent (n : Z) : obj :=
  contextEvent "model.invocation_attempt_started"
    [("invocationId", VStr "mi1"); ("attempt", numVal n); ("maxAttempts", numVal 2)].

Definition runEvents (s : AgentState) (events : list obj) : AgentState :=
  match runContext s (List.map (fun e => (e, noFacts)) events) with Ok s => s | Throw _ => s end.

Definition dispatchedOnce : AgentState :=
  Eval vm_compute in runEvents demo [preparedEvent; attemptEvent 1].

Definition attemptsOf (s : AgentState) : option val :=
  option_map (fun i => get i "attempts") (oget "mi1" (modelInvocations s)).

Lemma attempts_are_bounded : attemptsOf (runEvents dispatchedOnce [attemptEvent 2; attemptEvent 3])
  = Some (numVal 2).
Proof. vm_compute. reflexivity. Qed.

Lemma dispatchedOnce_ok : invocations_ok dispatchedOnce.
Proof.
  intros k i. simpl. case_match; [|done]. intros [= <-].
  exists 2, (ph_dispatching 1). split.
  - eexists. split; [reflexivity|]. split; [reflexivity|]. unfold MAX_SAFE_INTEGER, two53. lia.
  - constructor; [reflexivity..|lia].
Qed.

Lemma model_invocations_follow_protocol_witness :
  exists s, reduceContextState dispatchedOnce (attemptEvent 2) noFacts = Ok s /\ invocations_ok s.
Proof.
  destruct (model_invocations_follow_protocol dispatchedOnce (attemptEvent 2) noFacts dispatchedOnce_ok)
    as (s & Hr & Hok & _). by exists s.
Defined.

