(* ===== verification/Governance.v ===== *)
(** * Tool governance ([tool-governance.ts]) and automatic review ([auto-review.ts])

    Whether one proposed tool call may run: the validation of the facts the host
    supplies, the decision from policy, gates, mode and approvals, and the digest
    that binds an approval to one exact call.  Facts are JSON, read as the source
    reads them after validation; frozen copies are the values themselves.  The
    file's private copy of SHA-256 is the function of [Hash.v]: the two differ only
    on lone surrogates, which texts of code units below 256 do not have. *)

From S2P Require Import Prelude Js Hash State Recovery Scheduler Completion Verification Lifecycle Capability.
From stdpp Require Import prelude strings list pretty.
From Stdlib Require Import ZArith Lia.
Open Scope Z_scope.

Definition TOOL_GOVERNANCE_FACTS_SCHEMA_ : string := "kite.tool-governance-facts.v1".
Definition MAX_IDENTITY_LENGTH : Z := 256.

(** ** Validation of the facts *)

(** [texts.includes(String(v))]. *)
Definition includesText (texts : list string) (v : val) : bool := str_in (js_string v) texts.

(** A JSON object is a plain record. *)
Definition plainRecord (v : val) : option obj := isRecord v.

Definition exactKeys (value : obj) (required optional : list string) : bool :=
  forallb (fun key => ohas key value) required
  && forallb (fun key => str_in key (required ++ optional)) (okeys value).

Definition boundedIdentity (v : val) : bool := isText v (lengthWithin 1 MAX_IDENTITY_LENGTH).
Definition digest64 (v : val) : bool := isText v isHex64.
Definition nullableDigest (v : val) : bool := match v with VNull => true | _ => digest64 v end.

(** [value[k] === undefined || test(value[k])]. *)
Definition optionally (test : val -> bool) (v : val) : bool := is_undef v || test v.
Definition nullOr (test : val -> bool) (v : val) : bool :=
  match v with VNull => true | _ => test v end.

Definition isBoolean (v : val) : bool := match v with VBool _ => true | _ => false end.
Definition governanceTimestamp (v : val) : bool :=
  match v with VNum (Fin z) => isSafeInteger z && (0 <=? z) | _ => false end.

(** A value that is an object with these keys and satisfies the test. *)
Definition recordWith (v : val) (required optional : list string) (test : obj -> bool) : bool :=
  match plainRecord v with
  | Some o => exactKeys o required optional && test o
  | None => false
  end.

Definition EFFECT_KEYS : list string :=
  ["network"; "externalRead"; "externalWrite"; "uncertainEffects"; "sensitiveExternalAccess"].

Definition validEffects (v : val) : bool :=
  recordWith v [] EFFECT_KEYS (fun o => forallb (fun e => is_true e) (ovalues o)).

Definition INVOCATION_KEYS : list string :=
  ["workspace"; "threadId"; "turnId"; "modelMessageId"; "toolCallId"; "exposedToolName";
   "operationId"; "capabilityId"; "capabilityRevision"; "executorRevision";
   "descriptorRevision"; "parserRevision"; "schemaDigest"; "argumentsDigest";
   "effectiveEffectsDigest"; "bindingId"; "builtinCatalogRevision"; "dynamicCatalogRevision";
   "nestedCapabilityId"; "nestedCapabilityRevision"; "nestedCatalogRevision"; "commandDigest"].
Definition INVOCATION_OPTIONAL_KEYS : list string :=
  ["canonicalWorkspaceIdentity"; "cwd"; "executor"; "environmentDigest"; "scopeDigest";
   "policyParserExecutorRevision"].

(** [value.k] holds under a test, for every [k]. *)
Definition fieldsSatisfy (test : val -> bool) (o : obj) (keys : list string) : bool :=
  forallb (fun k => test (get o k)) keys.

(** The operation is the dynamic MCP tool with a capability of its own, or it is the
    capability. *)
Definition operationMatchesCapability (o : obj) : bool :=
  if is_str (get o "operationId") "mcp:dynamic_tool"
  then isText (get o "capabilityId")
         (fun c => String.prefix "mcp:" c && negb (c =s "mcp:dynamic_tool"))
  else sameValue (get o "operationId") (get o "capabilityId").

Definition validInvocation (v : val) : bool :=
  recordWith v INVOCATION_KEYS INVOCATION_OPTIONAL_KEYS (fun o =>
    fieldsSatisfy boundedIdentity o
      ["workspace"; "threadId"; "turnId"; "modelMessageId"; "toolCallId"; "exposedToolName";
       "operationId"; "capabilityId"]
    && operationMatchesCapability o
    && digest64 (get o "capabilityRevision")
    && nullOr digest64 (get o "executorRevision")
    && fieldsSatisfy digest64 o
         ["descriptorRevision"; "parserRevision"; "schemaDigest"; "argumentsDigest";
          "effectiveEffectsDigest"]
    && fieldsSatisfy nullableDigest o
         ["bindingId"; "builtinCatalogRevision"; "dynamicCatalogRevision"]
    && nullOr boundedIdentity (get o "nestedCapabilityId")
    && fieldsSatisfy nullableDigest o
         ["nestedCapabilityRevision"; "nestedCatalogRevision"; "commandDigest"]
    && fieldsSatisfy (optionally boundedIdentity) o
         ["cwd"; "canonicalWorkspaceIdentity"; "executor"; "environmentDigest"; "scopeDigest"]
    && optionally digest64 (get o "policyParserExecutorRevision")).

Definition POLICY_KEYS : list string :=
  ["operationId"; "capabilityRevision"; "parserRevision"; "effectiveEffectsDigest";
   "minimumApproval"; "fullAccessMayBypassApproval"; "sameCommandMayBypassApproval"; "decision";
   "allowed"; "requiresApproval"; "risk"; "reason"; "expectedEffects"].
Definition POLICY_OPTIONAL_KEYS : list string := ["effects"; "requiresSandbox"; "phaseConstraint"].

Definition APPROVALS : list string := ["none"; "auto_review"; "user"].
Definition DECISIONS : list string := ["allow"; "ask"; "deny"].
Definition RISKS : list string :=
  ["read"; "plan"; "write_file"; "execute_code"; "destructive"; "network"; "vcs_mutation"; "mcp";
   "unknown"].

(** The decision agrees with what it allows. *)
Definition consistentDecision (o : obj) : bool :=
  let allowed := truthy (get o "allowed") in
  let requiresApproval := truthy (get o "requiresApproval") in
  negb (is_str (get o "decision") "allow" && (negb allowed || requiresApproval))
  && negb (is_str (get o "decision") "ask" && (negb allowed || negb requiresApproval))
  && negb (is_str (get o "decision") "deny" && (allowed || requiresApproval)).

Definition nonEmptyIdentities (v : val) : bool :=
  match v with
  | VArr [] => false
  | VArr l => forallb boundedIdentity l
  | _ => false
  end.

Definition validPolicy (v : val) : bool :=
  recordWith v POLICY_KEYS POLICY_OPTIONAL_KEYS (fun o =>
    boundedIdentity (get o "operationId")
    && fieldsSatisfy digest64 o ["capabilityRevision"; "parserRevision"; "effectiveEffectsDigest"]
    && includesText APPROVALS (get o "minimumApproval")
    && fieldsSatisfy isBoolean o ["fullAccessMayBypassApproval"; "sameCommandMayBypassApproval"]
    && includesText DECISIONS (get o "decision")
    && fieldsSatisfy isBoolean o ["allowed"; "requiresApproval"]
    && includesText RISKS (get o "risk")
    && boundedIdentity (get o "reason")
    && nonEmptyIdentities (get o "expectedEffects")
    && consistentDecision o
    && optionally validEffects (get o "effects")
    && optionally isBoolean (get o "requiresSandbox")
    && optionally (fun v => is_str v "planning") (get o "phaseConstraint")).

Definition validApproval (v : val) : bool :=
  recordWith v ["status"; "grant"; "approvedToolCallId"; "approvalBindingDigest"] [] (fun o =>
    includesText ["queued"; "approved"] (get o "status")
    && includesText ["none"; "approve_once"; "same_command"] (get o "grant")
    && nullOr boundedIdentity (get o "approvedToolCallId")
    && nullableDigest (get o "approvalBindingDigest")
    && let absent k := match get o k with VNull => true | _ => false end in
       if is_str (get o "status") "queued"
       then is_str (get o "grant") "none" && absent "approvedToolCallId"
            && absent "approvalBindingDigest"
       else negb (is_str (get o "grant") "none") && negb (absent "approvedToolCallId")
            && negb (absent "approvalBindingDigest")).

Definition GRANT_KEYS : list string :=
  ["workspace"; "threadId"; "canonicalWorkspaceIdentity"; "cwd"; "executor"; "environmentDigest";
   "scopeDigest"; "effectsDigest"; "parserRevision"; "executorRevision"; "commandDigest";
   "grantedAt"].

(** The number of a value, for comparisons. *)
Definition numOf (v : val) : num := match v with VNum n => n | _ => NaN end.

Definition validSameCommandGrant (v : val) : bool :=
  recordWith v GRANT_KEYS ["expiresAt"] (fun o =>
    fieldsSatisfy boundedIdentity o
      ["workspace"; "threadId"; "canonicalWorkspaceIdentity"; "cwd"; "executor";
       "environmentDigest"; "scopeDigest"]
    && fieldsSatisfy digest64 o ["effectsDigest"; "parserRevision"]
    && nullOr digest64 (get o "executorRevision")
    && digest64 (get o "commandDigest")
    && governanceTimestamp (get o "grantedAt")
    && optionally (fun v => governanceTimestamp v && nltb (numOf (get o "grantedAt")) (numOf v))
         (get o "expiresAt")).

Definition validDynamicMcp (v : val) : bool :=
  recordWith v ["minimumApproval"; "readOnly"] [] (fun o =>
    includesText APPROVALS (get o "minimumApproval") && isBoolean (get o "readOnly")).

Definition validNestedSkill (v : val) : bool :=
  recordWith v ["decision"; "minimumApproval"] [] (fun o =>
    includesText DECISIONS (get o "decision") && includesText APPROVALS (get o "minimumApproval")).

Definition GATES : list string :=
  ["recoveryAdmission"; "boundedCancellation"; "executionBoundary"; "skillCapabilityCeiling"].

Definition validGates (v : val) : bool :=
  recordWith v GATES [] (fun o =>
    forallb (fun e => is_str e "admitted" || is_str e "blocked") (ovalues o)).

Definition validContext (v : val) : bool :=
  recordWith v ["phase"; "interactionMode"; "sandboxAvailable"; "circuitBreakerTripped";
                "executionMechanism"; "gates"] ["observedAt"] (fun o =>
    (is_str (get o "phase") "planning" || is_str (get o "phase") "building")
    && includesText ["auto"; "accept_edits"; "full"] (get o "interactionMode")
    && fieldsSatisfy isBoolean o ["sandboxAvailable"; "circuitBreakerTripped"]
    && includesText ["user_input"; "shell"; "other"] (get o "executionMechanism")
    && validGates (get o "gates")
    && optionally governanceTimestamp (get o "observedAt")).

Definition validAdmission (v : val) : bool :=
  recordWith v ["freshness"; "reservationRequired"; "reservationIds"] [] (fun o =>
    includesText ["current"; "stale"] (get o "freshness")
    && isBoolean (get o "reservationRequired")
    && match get o "reservationIds" with VArr l => forallb boundedIdentity l | _ => false end).

Definition isDynamicInvocation (invocation : obj) : bool :=
  is_str (get invocation "operationId") "mcp:dynamic_tool".

Definition IDENTITY_KEYS : list string :=
  ["operationId"; "capabilityRevision"; "parserRevision"; "effectiveEffectsDigest"].

Definition isNull (v : val) : bool := match v with VNull => true | _ => false end.

Definition toolGovernanceFactsInvalidReason (value : val) : option string :=
  match plainRecord value with
  | None => Some "envelope"
  | Some o =>
      let invocation := jsonRecord (get o "invocation") in
      let policy := jsonRecord (get o "policy") in
      let has k := negb (is_undef (get o k)) in
      let named k := negb (isNull (get invocation k)) in
      let dynamic := isDynamicInvocation invocation in
      if negb (exactKeys o ["schema"; "invocation"; "policy"; "context"; "admission"; "approval"]
                 ["sameCommandGrant"; "dynamicMcp"; "nestedSkill"]) then Some "envelope"
      else if negb (is_str (get o "schema") TOOL_GOVERNANCE_FACTS_SCHEMA_) then Some "envelope"
      else if negb (validInvocation (get o "invocation")) then Some "invocation"
      else if negb (validPolicy (get o "policy")) then Some "policy"
      else if negb (validContext (get o "context")) then Some "context"
      else if negb (validAdmission (get o "admission")) then Some "admission"
      else if negb (validApproval (get o "approval")) then Some "approval"
      else if has "sameCommandGrant" && negb (validSameCommandGrant (get o "sameCommandGrant"))
      then Some "same_command_grant"
      else if has "dynamicMcp" && negb (validDynamicMcp (get o "dynamicMcp")) then Some "dynamic_mcp"
      else if has "nestedSkill" && negb (validNestedSkill (get o "nestedSkill"))
      then Some "nested_skill"
      else if has "nestedSkill" && negb (is_str (get invocation "operationId") "builtin:activate_skill")
      then Some "nested_skill"
      else if negb (Bool.eqb (has "nestedSkill")
                      (named "nestedCapabilityId" && named "nestedCapabilityRevision"
                       && named "nestedCatalogRevision")) then Some "identity"
      else if negb (forallb (fun k => sameValue (get policy k) (get invocation k)) IDENTITY_KEYS)
      then Some "identity"
      else if negb (Bool.eqb dynamic (isText (get invocation "exposedToolName")
                                        (String.prefix "mcp__"))) then Some "identity"
      else if negb (Bool.eqb dynamic (has "dynamicMcp")) then Some "identity"
      else if (if dynamic
               then isNull (get invocation "builtinCatalogRevision") && named "dynamicCatalogRevision"
               else named "builtinCatalogRevision" && isNull (get invocation "dynamicCatalogRevision"))
      then None else Some "identity"
  end.

Definition isValidToolGovernanceFacts (value : val) : bool :=
  negb (is_some (toolGovernanceFactsInvalidReason value)).

Definition isValidToolApprovalBindingFacts (value : val) : bool :=
  recordWith value ["invocation"; "policy"] [] (fun o =>
    validInvocation (get o "invocation") && validPolicy (get o "policy")
    && forallb (fun k => sameValue (get (jsonRecord (get o "policy")) k)
                           (get (jsonRecord (get o "invocation")) k)) IDENTITY_KEYS).

(** ** The digest of an approval *)

(** The errors of a list of results, the first one in order. *)
Fixpoint sequence {A} (l : list (res A)) : res (list A) :=
  match l with
  | [] => Ok []
  | r :: rest => let* a := r in let* others := sequence rest in Ok (a :: others)
  end.

(** Keys in code-unit order, members that are [undefined] left out. *)
Fixpoint stableSerialize (value : val) : res string :=
  match value with
  | VNull => Ok "null"
  | VStr s => Ok (json_quote s)
  | VBool b => Ok (if b then "true" else "false")
  | VNum (Fin z) => Ok (pretty z)
  | VNum NaN => Throw "Cannot serialize non-finite number."
  | VArr l =>
      let* items := sequence (List.map stableSerialize l) in
      Ok ("[" +:+ js_join "," items +:+ "]")
  | VObj o =>
      let* members := sequence (List.map
        (fun '(key, text) => let* t := text in Ok (json_quote key +:+ ":" +:+ t))
        (sort_by (fun a b => str_leb (fst a) (fst b))
           ((fix defined (o : list (string * val)) : list (string * res string) :=
               match o with
               | [] => []
               | (key, x) :: rest =>
                   match x with
                   | VUndef => defined rest
                   | _ => (key, stableSerialize x) :: defined rest
                   end
               end) o))) in
      Ok ("{" +:+ js_join "," members +:+ "}")
  | VUndef => Throw "Cannot serialize unsupported approval binding value."
  end.

Definition bindingSubject (invocation policy : val) : val :=
  VObj [("schema", VStr "kite.tool-approval-binding.v1"); ("invocation", invocation);
        ("policy", policy)].

Definition createToolApprovalBindingDigest (invocation policy : val) : res string :=
  let* text := stableSerialize (bindingSubject invocation policy) in Ok (sha256Hex text).

Definition createToolGovernanceCommandDigest (command : string) : option string :=
  let canonicalCommand := trim command in
  if str_nonempty canonicalCommand then Some (sha256Hex (json_quote canonicalCommand)) else None.

(** ** Decisions *)

Inductive AuthorizationKind : Set := policy_allow | approved_call.

Record RejectDecision := {
  rj_failureKind : string;
  rj_reason : string;
  rj_code : option string }.

Inductive ToolGovernanceAuthorizationDecision : Type :=
| ga_authorized (kind : AuthorizationKind) (grantUsed : val)
| ga_reject (r : RejectDecision)
| ga_request_approval (policy : obj)
| ga_request_auto_review (policy : obj)
| ga_request_user_input.

Inductive ToolGovernanceDecision : Type :=
| gd_allow (kind : AuthorizationKind) (grantUsed : val) (reservationIds : list string)
| gd_reject (r : RejectDecision)
| gd_request_approval (policy : obj)
| gd_request_auto_review (policy : obj)
| gd_request_user_input.

Definition reject (failureKind reason : string) (code : option string) : RejectDecision :=
  {| rj_failureKind := failureKind; rj_reason := reason; rj_code := code |}.

(** [effects?.k], where the effects are absent or all [true]. *)
Definition hasEffect (policy : obj) (keys : list string) : bool :=
  existsb (fun k => truthy (optProp (get policy "effects") k)) keys.

Definition hasAuthorizationReviewEffect (policy : obj) : bool :=
  hasEffect policy ["network"; "externalWrite"; "uncertainEffects"].
Definition hasModeReviewEffect (policy : obj) : bool :=
  hasEffect policy ["network"; "externalRead"; "externalWrite"; "uncertainEffects"].

Inductive ModeDecision : Set := mode_allow | mode_deny | mode_approval | mode_auto_review.

Definition riskIs (policy : obj) (risks : list string) : bool :=
  existsb (is_str (get policy "risk")) risks.

Definition decideAcceptEdits (policy : obj) : ModeDecision :=
  if riskIs policy ["destructive"] then mode_deny
  else if hasModeReviewEffect policy then mode_approval
  else if riskIs policy ["write_file"; "read"; "plan"] then mode_allow
  else mode_approval.

Definition decideMode (ctx policy : obj) : ModeDecision :=
  if is_str (get ctx "interactionMode") "full" then
    if riskIs policy ["destructive"] then mode_deny
    else if riskIs policy ["read"; "plan"] then mode_allow else mode_approval
  else
    let acceptEdits := decideAcceptEdits policy in
    if is_str (get ctx "interactionMode") "accept_edits" then acceptEdits
    else match acceptEdits with
         | mode_deny | mode_allow => acceptEdits
         | _ => if truthy (get ctx "circuitBreakerTripped") then mode_approval else mode_auto_review
         end.

Definition approvalIdentityMatches (approval : obj) (invocation policy : val) : res bool :=
  and_then (is_str (get approval "status") "approved" && negb (is_str (get approval "grant") "none")
            && sameValue (get approval "approvedToolCallId")
                 (get (jsonRecord invocation) "toolCallId"))
    (let* digest := createToolApprovalBindingDigest invocation policy in
     Ok (is_str (get approval "approvalBindingDigest") digest)).

(** The fields a grant for the same command shares with the call, by their names in
    the grant and in the invocation. *)
Definition GRANT_FIELDS : list (string * string) :=
  [("workspace", "workspace"); ("threadId", "threadId");
   ("canonicalWorkspaceIdentity", "canonicalWorkspaceIdentity"); ("cwd", "cwd");
   ("executor", "executor"); ("environmentDigest", "environmentDigest");
   ("scopeDigest", "scopeDigest"); ("effectsDigest", "effectiveEffectsDigest");
   ("executorRevision", "executorRevision"); ("commandDigest", "commandDigest")].

Definition sameCommandGrantMatches (facts : obj) : bool :=
  let invocation := jsonRecord (get facts "invocation") in
  let observedAt := get (jsonRecord (get facts "context")) "observedAt" in
  match isRecord (get facts "sameCommandGrant") with
  | None => false
  | Some grant =>
      truthy (get (jsonRecord (get facts "policy")) "sameCommandMayBypassApproval")
      && truthy (get invocation "commandDigest")
      && forallb (fun '(g, i) => sameValue (get grant g) (get invocation i)) GRANT_FIELDS
      && sameValue (get grant "parserRevision")
           (nullish (get invocation "policyParserExecutorRevision") (get invocation "parserRevision"))
      && negb (is_undef observedAt)
      && negb (nltb (numOf observedAt) (numOf (get grant "grantedAt")))
      && (is_undef (get grant "expiresAt")
          || negb (nleb (numOf (get grant "expiresAt")) (numOf observedAt)))
  end.

(** Constraints no mode and no grant may lift. *)
Record Constraints := {
  activationRequiresManual : bool;
  nestedSkillRequiresManual : bool;
  nestedSkillRequiresAutoReview : bool;
  dynamicMcpRequiresManual : bool;
  dynamicMcpRequiresAutoReview : bool;
  uncertainShellRequiresManual : bool }.

Definition constraintsOf (facts : obj) : Constraints :=
  let invocation := jsonRecord (get facts "invocation") in
  let policy := jsonRecord (get facts "policy") in
  let ctx := jsonRecord (get facts "context") in
  let nested k := optProp (get facts "nestedSkill") k in
  let dynamic := optProp (get facts "dynamicMcp") "minimumApproval" in
  let activation := is_str (get invocation "operationId") "builtin:activate_skill" in
  {| activationRequiresManual := activation && is_str (get policy "minimumApproval") "user";
     nestedSkillRequiresManual :=
       activation && (is_str (nested "decision") "ask" || is_str (nested "minimumApproval") "user");
     nestedSkillRequiresAutoReview := activation && is_str (nested "minimumApproval") "auto_review";
     dynamicMcpRequiresManual := is_str dynamic "user";
     dynamicMcpRequiresAutoReview := is_str dynamic "auto_review";
     uncertainShellRequiresManual :=
       is_str (get ctx "executionMechanism") "shell"
       && is_true (optProp (get policy "effects") "uncertainEffects") |}.

Definition forceManualApproval (c : Constraints) : bool :=
  activationRequiresManual c || nestedSkillRequiresManual c || dynamicMcpRequiresManual c
  || uncertainShellRequiresManual c.
Definition forceAutoReview (c : Constraints) : bool :=
  dynamicMcpRequiresAutoReview c || nestedSkillRequiresAutoReview c.

(** A gate that is not open, with the rejection it gives. *)
Definition gateRejection (facts : obj) : option RejectDecision :=
  let ctx := jsonRecord (get facts "context") in
  let policy := jsonRecord (get facts "policy") in
  let gates := jsonRecord (get ctx "gates") in
  let closed gate := negb (is_str (get gates gate) "admitted") in
  let planning := is_str (get policy "phaseConstraint") "planning" in
  let deferred := is_str (get ctx "executionMechanism") "shell" && planning in
  if closed "recoveryAdmission"
  then Some (reject "loop_exhausted" "Runtime recovery guard blocked this invocation." None)
  else if closed "boundedCancellation"
  then Some (reject "mandatory_policy_unavailable"
               "Bounded cancellation is required before production writer/child dispatch." None)
  else if closed "executionBoundary"
  then Some (reject "mandatory_policy_unavailable"
               "Provider access is unavailable under the sealed execution boundary." None)
  else if closed "skillCapabilityCeiling"
  then Some (reject "policy_denied" "Active Skill capability ceiling blocked this tool." None)
  else if negb (truthy (get policy "allowed")) then
    Some (reject (if deferred then "phase_deferred"
                  else if planning then "phase_denied" else "policy_denied")
            (if deferred then "Deferred shell_execute until building phase."
             else textOf policy "reason") None)
  else if truthy (get policy "requiresSandbox") && negb (truthy (get ctx "sandboxAvailable"))
  then Some (reject "mandatory_policy_unavailable"
               "This capability requires an available workspace sandbox."
               (Some "authorization_elevation_denied"))
  else None.

(** The decision for a call that was not approved before. *)
Definition authorizeQueued (facts : obj) : ToolGovernanceAuthorizationDecision :=
  let ctx := jsonRecord (get facts "context") in
  let policy := jsonRecord (get facts "policy") in
  let c := constraintsOf facts in
  let forced := forceManualApproval c || forceAutoReview c in
  let full := is_str (get ctx "interactionMode") "full" in
  let requiresEffectReview :=
    negb full && negb (truthy (optProp (get facts "dynamicMcp") "readOnly"))
    && hasAuthorizationReviewEffect policy in
  let requiresApproval :=
    truthy (get policy "requiresApproval") || requiresEffectReview || activationRequiresManual c
    || dynamicMcpRequiresManual c || dynamicMcpRequiresAutoReview c
    || nestedSkillRequiresManual c || nestedSkillRequiresAutoReview c in
  let allowed := ga_authorized policy_allow (VStr "none") in
  if full && truthy (get policy "fullAccessMayBypassApproval") && negb forced then allowed
  else if negb forced && sameCommandGrantMatches facts
  then ga_authorized approved_call (VStr "same_command")
  else if negb requiresApproval then allowed
  else if forceManualApproval c then ga_request_approval policy
  else if forceAutoReview c then ga_request_auto_review policy
  else match decideMode ctx policy with
       | mode_deny => ga_reject (reject "policy_denied" (textOf policy "reason") None)
       | mode_allow => allowed
       | mode_auto_review => ga_request_auto_review policy
       | mode_approval => ga_request_approval policy
       end.

Definition authorizeValidToolGovernanceFacts (facts : obj)
  : res ToolGovernanceAuthorizationDecision :=
  let invocation := jsonRecord (get facts "invocation") in
  let approval := jsonRecord (get facts "approval") in
  let approved := is_str (get approval "status") "approved" in
  match gateRejection facts with
  | Some r => Ok (ga_reject r)
  | None =>
      if is_str (get (jsonRecord (get facts "context")) "executionMechanism") "user_input"
      then Ok ga_request_user_input
      else if is_str (optProp (get facts "nestedSkill") "decision") "deny"
              && is_str (get invocation "operationId") "builtin:activate_skill"
      then Ok (ga_reject (reject "policy_denied" "Nested Skill policy denied activation." None))
      else if approved then
        let* matches := approvalIdentityMatches approval (get facts "invocation") (get facts "policy") in
        Ok (if matches then ga_authorized approved_call (get approval "grant")
            else ga_reject (reject "policy_denied"
                   "Approved call identity does not match the exact invocation and policy."
                   (Some "approval_identity_mismatch")))
      else Ok (authorizeQueued facts)
  end.

Definition malformed : RejectDecision :=
  reject "mandatory_policy_unavailable" "Tool governance facts are malformed." (Some "invalid_facts").

Definition authorizeToolGovernance (value : val) : res ToolGovernanceAuthorizationDecision :=
  if isValidToolGovernanceFacts value then authorizeValidToolGovernanceFacts (jsonRecord value)
  else Ok (ga_reject malformed).

Definition admitToolGovernance (authorization : ToolGovernanceAuthorizationDecision)
    (admission : val) : ToolGovernanceDecision :=
  match authorization with
  | ga_reject r => gd_reject r
  | ga_request_approval p => gd_request_approval p
  | ga_request_auto_review p => gd_request_auto_review p
  | ga_request_user_input => gd_request_user_input
  | ga_authorized kind grantUsed =>
      let o := jsonRecord admission in
      let reservationIds :=
        sort_strings (dedupe (stringsIn (default [] (arrayField o "reservationIds")))) in
      if negb (validAdmission admission) then
        gd_reject (reject "mandatory_policy_unavailable"
                     "Tool governance admission facts are malformed." (Some "invalid_facts"))
      else if negb (is_str (get o "freshness") "current") then
        gd_reject (reject "mandatory_policy_unavailable" "Admission facts became stale."
                     (Some "admission_stale"))
      else if existsb (fun id => negb (boundedIdentity (VStr id))) reservationIds
              || (truthy (get o "reservationRequired")
                  && match reservationIds with [] => true | _ => false end)
      then gd_reject (reject "mandatory_policy_unavailable"
                        "A current Runtime reservation is required before admission."
                        (Some "reservation_invalid"))
      else gd_allow kind grantUsed reservationIds
  end.

Definition decideToolGovernance (value : val) : res ToolGovernanceDecision :=
  if isValidToolGovernanceFacts value then
    let facts := jsonRecord value in
    let* authorization := authorizeValidToolGovernanceFacts facts in
    Ok (admitToolGovernance authorization (get facts "admission"))
  else Ok (gd_reject malformed).

(** [{ ...value, context: { ...value.context, interactionMode: 'full' } }]. *)
Definition underFullMode (facts : obj) : obj :=
  oset "context" (VObj (oset "interactionMode" (VStr "full") (jsonRecord (get facts "context"))))
    facts.

Definition canAuthorizeToolGovernanceInFullMode (value : val) : res bool :=
  if isValidToolGovernanceFacts value then
    let* decision := decideToolGovernance (VObj (underFullMode (jsonRecord value))) in
    Ok match decision with
       | gd_allow policy_allow grant _ => is_str grant "none"
       | _ => false
       end
  else Ok false.

(** ** Automatic review ([auto-review.ts]) *)

Record CircuitBreakerConfig := { maxRejections : Z; windowMs : Z; maxTotalBlocks : Z }.

Definition DEFAULT_CIRCUIT_BREAKER_CONFIG_ : CircuitBreakerConfig :=
  {| maxRejections := 3; windowMs := 30000; maxTotalBlocks := 20 |}.

Record AutoReviewRejectionEntry := {
  re_timestamp : Z; re_toolName : string; re_reason : string }.

Record CircuitBreakerResult := {
  cb_tripped : bool;
  cb_reason : option string;
  cb_newConsecutiveRejects : Z;
  cb_newRejectionHistory : list AutoReviewRejectionEntry }.

(** [newStatus] is open exactly when the breaker trips. *)
Definition cb_open (r : CircuitBreakerResult) : bool := cb_tripped r.

Definition evaluateAutoReviewCircuitBreaker (consecutiveRejects : Z)
    (rejectionHistory : list AutoReviewRejectionEntry) (config : CircuitBreakerConfig)
    (isRejection : bool) (rejectionEntry : option AutoReviewRejectionEntry) (observedAt : option Z)
  : CircuitBreakerResult :=
  let now := match observedAt, rejectionEntry with
             | Some t, _ => t
             | None, Some e => re_timestamp e
             | None, None => 0
             end in
  let windowStart := fadd now (- windowMs config) in
  let pruned := List.filter (fun e => windowStart <=? re_timestamp e) rejectionHistory in
  if negb isRejection then
    {| cb_tripped := false; cb_reason := None; cb_newConsecutiveRejects := 0;
       cb_newRejectionHistory := pruned |}
  else
    let rejects := fadd consecutiveRejects 1 in
    let history := match rejectionEntry with Some e => pruned ++ [e] | None => pruned end in
    let blocks := Z.of_nat (length history) in
    let result tripped reason :=
      {| cb_tripped := tripped; cb_reason := reason; cb_newConsecutiveRejects := rejects;
         cb_newRejectionHistory := history |} in
    if maxRejections config <=? rejects then
      result true (Some ("Circuit breaker tripped: " +:+ pretty rejects
        +:+ " consecutive rejections (threshold: " +:+ pretty (maxRejections config) +:+ ")"))
    else if maxTotalBlocks config <=? blocks then
      result true (Some ("Circuit breaker tripped: " +:+ pretty blocks +:+ " rejections within "
        +:+ pretty (windowMs config) +:+ "ms (limit: " +:+ pretty (maxTotalBlocks config) +:+ ")"))
    else result false None.

Definition MAX_REASON_LENGTH : Z := 4096.
Definition INVALID_FACTS_REASON : string :=
  "Auto-review facts are malformed; user approval is required.".
Definition REVIEWER_FAILURE_REASON : string :=
  "Auto-review could not produce a valid reviewer decision.".
Definition REVIEWER_REJECTION_REASON : string := "Auto-review did not approve this operation.".

Definition isValidAutoReviewFacts (value : val) : bool :=
  recordWith value ["reviewId"; "toolCallId"; "ok"; "approved"]
    ["grant"; "reason"; "failureType"; "requiresUserApproval"] (fun o =>
    fieldsSatisfy boundedIdentity o ["reviewId"; "toolCallId"]
    && fieldsSatisfy isBoolean o ["ok"; "approved"]
    && optionally (fun v => is_true v) (get o "requiresUserApproval")
    && negb (truthy (get o "approved") && is_true (get o "requiresUserApproval"))
    && optionally (fun v => is_str v "approve_once") (get o "grant")
    && optionally (fun v => isText v (lengthWithin 1 MAX_REASON_LENGTH)) (get o "reason")
    && optionally (fun v => is_str v "technical" || is_str v "invalid_response")
         (get o "failureType")).

Inductive AutoReviewDecision : Type :=
| ar_accepted_approval (reviewId toolCallId grant : string) (reason : option string)
| ar_rejected (reviewId toolCallId reason : string)
| ar_request_user_approval (reviewId toolCallId : option string) (reason : string)
    (failureType : option string).

Definition safeIdentity (v : val) : option string :=
  match v with VStr s => if boundedIdentity v then Some s else None | _ => None end.

Definition requestUserApproval (input : option obj) (reason : string) (failureType : option string)
  : AutoReviewDecision :=
  let o := default [] input in
  ar_request_user_approval (safeIdentity (get o "reviewId")) (safeIdentity (get o "toolCallId"))
    reason failureType.

Definition decideAutoReview (value : val) : AutoReviewDecision :=
  let o := jsonRecord value in
  let reason fallback := default fallback (stringField o "reason") in
  if negb (isValidAutoReviewFacts value)
  then requestUserApproval (plainRecord value) INVALID_FACTS_REASON (Some "invalid_response")
  else if negb (truthy (get o "ok"))
  then requestUserApproval (Some o) (reason REVIEWER_FAILURE_REASON)
         (Some (default "technical" (stringField o "failureType")))
  else if negb (is_undef (get o "failureType"))
  then requestUserApproval (Some o)
         (reason "Auto-review result carried contradictory failure facts.") (Some "invalid_response")
  else if negb (truthy (get o "approved")) then
    if is_true (get o "requiresUserApproval")
    then requestUserApproval (Some o) (reason "Auto-review requested user approval.") None
    else ar_rejected (textOf o "reviewId") (textOf o "toolCallId") (reason REVIEWER_REJECTION_REASON)
  else if negb (is_str (get o "grant") "approve_once")
  then requestUserApproval (Some o)
         "Auto-review can only issue approve_once; user approval is required for another grant."
         (Some "invalid_response")
  else ar_accepted_approval (textOf o "reviewId") (textOf o "toolCallId") "approve_once"
         (stringField o "reason").
