(* ===== verification/GovernanceClaims.v ===== *)
(** * Tool governance: what an admitted call is entitled to

    The decision is compared with a specification that knows no order of checks:
    the gates that must be open ([gates_open]), the authorities a call may run on
    ([authority]) and the admission it needs ([admissible]).  The digest of an
    approval determines the call and the policy it was given for, up to the order
    of their members. *)

From S2P Require Import Prelude Js Json Hash State Recovery RecoveryProps Scheduler Completion CompletionProps Verification Lifecycle LifecycleProps Capability Governance.
From stdpp Require Import prelude strings list pretty.
From Stdlib Require Import ZArith Lia Permutation Sorted.
From Hammer Require Import Tactics.
Open Scope Z_scope.

(** ** The specification *)

Section Spec.
Variable facts : obj.

Definition g_invocation : obj := jsonRecord (get facts "invocation").
Definition g_policy : obj := jsonRecord (get facts "policy").
Definition g_context : obj := jsonRecord (get facts "context").
Definition g_approval : obj := jsonRecord (get facts "approval").
Definition g_admission : obj := jsonRecord (get facts "admission").

Definition activates_skill : Prop := get g_invocation "operationId" = VStr "builtin:activate_skill".
Definition nested_is (k t : string) : Prop := optProp (get facts "nestedSkill") k = VStr t.
Definition mcp_demands (t : string) : Prop :=
  optProp (get facts "dynamicMcp") "minimumApproval" = VStr t.
Definition in_full_mode : Prop := get g_context "interactionMode" = VStr "full".

Record gates_open : Prop := {
  go_gates : forall gate, In gate GATES ->
    get (jsonRecord (get g_context "gates")) gate = VStr "admitted";
  go_allowed : truthy (get g_policy "allowed") = true;
  go_sandbox : truthy (get g_policy "requiresSandbox") = true ->
    truthy (get g_context "sandboxAvailable") = true;
  go_mechanism : get g_context "executionMechanism" <> VStr "user_input";
  go_nested : activates_skill -> ~ nested_is "decision" "deny" }.

(** Only the user may decide, whatever the mode and the grants. *)
Definition demands_user : Prop :=
  activates_skill /\ (get g_policy "minimumApproval" = VStr "user"
                      \/ nested_is "decision" "ask" \/ nested_is "minimumApproval" "user")
  \/ mcp_demands "user".

Definition demands_review : Prop :=
  mcp_demands "auto_review" \/ activates_skill /\ nested_is "minimumApproval" "auto_review".

Definition uncertain_shell : Prop :=
  get g_context "executionMechanism" = VStr "shell"
  /\ optProp (get g_policy "effects") "uncertainEffects" = VBool true.

Definition unconstrained : Prop := ~ demands_user /\ ~ demands_review /\ ~ uncertain_shell.

(** The user approved this call under this policy. *)
Definition approved_exactly : Prop :=
  get g_approval "status" = VStr "approved" /\ get g_approval "grant" <> VStr "none"
  /\ (exists id, get g_approval "approvedToolCallId" = VStr id
                 /\ get g_invocation "toolCallId" = VStr id)
  /\ exists digest,
       createToolApprovalBindingDigest (get facts "invocation") (get facts "policy") = Ok digest
       /\ get g_approval "approvalBindingDigest" = VStr digest.

(** Effects that need a review outside the full mode, a read-only dynamic tool
    excepted. *)
Definition effects_need_review : Prop :=
  ~ in_full_mode /\ truthy (optProp (get facts "dynamicMcp") "readOnly") = false
  /\ hasAuthorizationReviewEffect g_policy = true.

Inductive authority : AuthorizationKind -> val -> Prop :=
| by_exact_approval : approved_exactly -> authority approved_call (get g_approval "grant")
| by_full_access : get g_approval "status" <> VStr "approved" -> unconstrained -> in_full_mode ->
    truthy (get g_policy "fullAccessMayBypassApproval") = true ->
    authority policy_allow (VStr "none")
| by_same_command : get g_approval "status" <> VStr "approved" -> unconstrained ->
    sameCommandGrantMatches facts = true -> authority approved_call (VStr "same_command")
| by_policy : get g_approval "status" <> VStr "approved" -> ~ demands_user -> ~ demands_review ->
    truthy (get g_policy "requiresApproval") = false -> ~ effects_need_review ->
    authority policy_allow (VStr "none")
| by_mode : get g_approval "status" <> VStr "approved" -> unconstrained ->
    decideMode g_context g_policy = mode_allow -> authority policy_allow (VStr "none").

Definition reservations : list string :=
  stringsIn (default [] (arrayField g_admission "reservationIds")).

Definition admissible : Prop :=
  get g_admission "freshness" = VStr "current"
  /\ (truthy (get g_admission "reservationRequired") = true -> reservations <> []).

(** The reservations of the call, each once and in order. *)
Definition reserved (ids : list string) : Prop :=
  NoDup ids /\ StronglySorted (fun a b => str_leb a b = true) ids
  /\ forall id, In id ids <-> In id reservations.
End Spec.

(** ** The decision meets it *)

Lemma is_str_false v s : is_str v s = false <-> v <> VStr s.
Proof. rewrite <- not_true_iff_false, is_str_true. done. Qed.

(** The boolean constraints are the specification's. *)
Lemma constraints_user facts : let c := constraintsOf facts in
  activationRequiresManual c || nestedSkillRequiresManual c || dynamicMcpRequiresManual c = true
  <-> demands_user facts.
Proof.
  cbn. unfold demands_user, activates_skill, nested_is, mcp_demands, g_invocation, g_policy.
  rewrite !orb_true_iff, !andb_true_iff, !orb_true_iff, !is_str_true. tauto.
Qed.

Lemma constraints_review facts : forceAutoReview (constraintsOf facts) = true <-> demands_review facts.
Proof.
  unfold forceAutoReview, demands_review, activates_skill, nested_is, mcp_demands, g_invocation. cbn.
  rewrite !orb_true_iff, !andb_true_iff, !is_str_true. tauto.
Qed.

Lemma constraints_shell facts :
  uncertainShellRequiresManual (constraintsOf facts) = true <-> uncertain_shell facts.
Proof.
  unfold uncertain_shell, g_context, g_policy. cbn.
  rewrite andb_true_iff, is_str_true, is_true_true. tauto.
Qed.

Lemma not_true_neg b (P : Prop) : (b = true <-> P) -> (b = false <-> ~ P).
Proof. rewrite <- not_true_iff_false. tauto. Qed.

Lemma not_forced facts : let c := constraintsOf facts in
  forceManualApproval c || forceAutoReview c = false <-> unconstrained facts.
Proof.
  unfold unconstrained, forceManualApproval. rewrite !orb_false_iff.
  rewrite <- (not_true_neg _ _ (constraints_user facts)), <- (not_true_neg _ _ (constraints_review facts)),
    <- (not_true_neg _ _ (constraints_shell facts)), !orb_false_iff. tauto.
Qed.

Lemma review_effects facts :
  negb (is_str (get (g_context facts) "interactionMode") "full")
  && negb (truthy (optProp (get facts "dynamicMcp") "readOnly"))
  && hasAuthorizationReviewEffect (g_policy facts) = true <-> effects_need_review facts.
Proof.
  unfold effects_need_review, in_full_mode.
  rewrite !andb_true_iff, !negb_true_iff, is_str_false. tauto.
Qed.

Lemma gates_spec facts : gateRejection facts = None <->
  Forall (fun gate => get (jsonRecord (get (g_context facts) "gates")) gate = VStr "admitted") GATES
  /\ truthy (get (g_policy facts) "allowed") = true
  /\ (truthy (get (g_policy facts) "requiresSandbox") = true ->
      truthy (get (g_context facts) "sandboxAvailable") = true).
Proof.
  unfold gateRejection, GATES. rewrite !Forall_cons, Forall_nil, <- !is_str_true.
  unfold g_context, g_policy.
  repeat match goal with |- context [is_str ?v "admitted"] => destruct (is_str v "admitted") end;
    cbn [negb]; try (split; [discriminate|intuition discriminate]).
  destruct (truthy (get (jsonRecord (get facts "policy")) "allowed")),
    (truthy (get (jsonRecord (get facts "policy")) "requiresSandbox")),
    (truthy (get (jsonRecord (get facts "context")) "sandboxAvailable")); cbn; intuition congruence.
Qed.

(** What remains of the gates before an authority is sought. *)
Lemma authorized_gates facts kind grant :
  authorizeValidToolGovernanceFacts facts = Ok (ga_authorized kind grant) ->
  gates_open facts
  /\ (get (g_approval facts) "status" = VStr "approved"
      /\ approvalIdentityMatches (g_approval facts) (get facts "invocation") (get facts "policy")
         = Ok true /\ kind = approved_call /\ grant = get (g_approval facts) "grant"
      \/ get (g_approval facts) "status" <> VStr "approved"
         /\ authorizeQueued facts = ga_authorized kind grant).
Proof.
  unfold authorizeValidToolGovernanceFacts.
  destruct (gateRejection facts) eqn:Hg; [discriminate|]. apply gates_spec in Hg.
  destruct Hg as (Hgates & Hallowed & Hsandbox).
  destruct (is_str _ "user_input") eqn:Hm; [discriminate|]. apply is_str_false in Hm.
  destruct (_ && _) eqn:Hn; [discriminate|]. intros H. split.
  { split; try done; [by apply List.Forall_forall|].
    intros Ha Hd. apply is_str_true in Ha, Hd. unfold g_invocation in Ha. rewrite Hd, Ha in Hn. done. }
  fold (g_approval facts) in H.
  destruct (is_str (get (g_approval facts) "status") "approved") eqn:Hs;
    [apply is_str_true in Hs; left|apply is_str_false in Hs; right; split; [done|congruence]].
  split; [done|]. destruct (approvalIdentityMatches _ _ _) as [[]|]; cbn in H; naive_solver.
Qed.

Lemma exact_approval facts id : get (g_invocation facts) "toolCallId" = VStr id ->
  approvalIdentityMatches (g_approval facts) (get facts "invocation") (get facts "policy") = Ok true
  <-> approved_exactly facts.
Proof.
  intros Hid. unfold approvalIdentityMatches, approved_exactly, and_then.
  fold (g_invocation facts). rewrite Hid. split.
  - destruct (_ && _) eqn:Hb; [|discriminate]. bool_hyps.
    destruct (createToolApprovalBindingDigest _ _) as [digest|]; cbn; [|discriminate].
    intros [= Hd%is_str_true]. repeat split; [by apply is_str_true| |by eauto using sameValue_str|by eauto].
    by apply is_str_false.
  - intros (Hs & Hg & (id' & Ha & [= <-]) & digest & Hd & Hb).
    apply is_str_true in Hs. apply is_str_false in Hg. rewrite Hs, Hg, Ha, Hd, Hb. cbn.
    by rewrite !String.eqb_refl.
Qed.

(** When nothing constrains the call, approval is needed for the policy or for its
    effects. *)
Lemma queued_free facts : unconstrained facts ->
  let full := is_str (get (g_context facts) "interactionMode") "full" in
  let asked := truthy (get (g_policy facts) "requiresApproval")
               || negb full && negb (truthy (optProp (get facts "dynamicMcp") "readOnly"))
                  && hasAuthorizationReviewEffect (g_policy facts) in
  authorizeQueued facts =
    if full && truthy (get (g_policy facts) "fullAccessMayBypassApproval")
    then ga_authorized policy_allow (VStr "none")
    else if sameCommandGrantMatches facts then ga_authorized approved_call (VStr "same_command")
    else if negb asked then ga_authorized policy_allow (VStr "none")
    else match decideMode (g_context facts) (g_policy facts) with
         | mode_deny => ga_reject (reject "policy_denied" (textOf (g_policy facts) "reason") None)
         | mode_allow => ga_authorized policy_allow (VStr "none")
         | mode_auto_review => ga_request_auto_review (g_policy facts)
         | mode_approval => ga_request_approval (g_policy facts)
         end.
Proof.
  intros Hu%not_forced. cbn zeta. unfold authorizeQueued. rewrite Hu.
  apply orb_false_iff in Hu as [Hm Hr]. rewrite Hm, Hr.
  unfold forceManualApproval in Hm. unfold forceAutoReview in Hr.
  rewrite !orb_false_iff in Hm. apply orb_false_iff in Hr.
  destruct Hm as (((Ha & Hn) & Hd) & _), Hr as (Hd' & Hn'). rewrite Ha, Hn, Hd, Hd', Hn'.
  rewrite !orb_false_r, !andb_true_r. done.
Qed.

(** A constrained call runs unapproved only as a shell call with uncertain effects
    whose policy asks for nothing. *)
Lemma queued_forced facts : ~ unconstrained facts ->
  authorizeQueued facts = ga_authorized policy_allow (VStr "none")
    /\ ~ demands_user facts /\ ~ demands_review facts
    /\ truthy (get (g_policy facts) "requiresApproval") = false /\ ~ effects_need_review facts
  \/ (forall kind grant, authorizeQueued facts <> ga_authorized kind grant)
     /\ (demands_user facts \/ demands_review facts
         \/ truthy (get (g_policy facts) "requiresApproval") = true \/ effects_need_review facts).
Proof.
  intros Hu. pose proof (not_forced facts) as Hf. cbn zeta in Hf.
  destruct (forceManualApproval (constraintsOf facts) || forceAutoReview (constraintsOf facts)) eqn:E;
    [clear Hf Hu|exfalso; tauto].
  rewrite <- constraints_user, <- constraints_review, <- review_effects. cbn zeta.
  unfold authorizeQueued. fold (g_context facts) (g_policy facts). rewrite E, andb_false_r. cbn [negb andb].
  apply orb_true_iff in E. unfold forceManualApproval in *. unfold forceAutoReview in *.
  destruct (truthy (get (g_policy facts) "requiresApproval")),
    (negb (is_str (get (g_context facts) "interactionMode") "full")
     && negb (truthy (optProp (get facts "dynamicMcp") "readOnly"))
     && hasAuthorizationReviewEffect (g_policy facts)),
    (activationRequiresManual (constraintsOf facts)), (nestedSkillRequiresManual (constraintsOf facts)),
    (dynamicMcpRequiresManual (constraintsOf facts)), (dynamicMcpRequiresAutoReview (constraintsOf facts)),
    (nestedSkillRequiresAutoReview (constraintsOf facts)),
    (uncertainShellRequiresManual (constraintsOf facts)); cbn in *;
  first [ right; split; [discriminate|tauto] | left; intuition discriminate | exfalso; intuition discriminate ].
Qed.

Lemma queued_sound facts kind grant : get (g_approval facts) "status" <> VStr "approved" ->
  authorizeQueued facts = ga_authorized kind grant -> authority facts kind grant.
Proof.
  intros Hs H. destruct (forceManualApproval (constraintsOf facts) || forceAutoReview (constraintsOf facts))
    eqn:E; [|apply not_forced in E].
  - destruct (queued_forced facts) as [(Hq & ? & ? & ? & ?)|[Hq _]];
      [intros Hu%not_forced; cbn zeta in Hu; congruence| |by destruct (Hq kind grant)].
    rewrite Hq in H. injection H as <- <-. by apply by_policy.
  - rewrite (queued_free _ E) in H. cbn zeta in H.
    pose proof (review_effects facts) as Hr. pose proof E as (Hu & Hv & _).
    destruct (is_str _ "full" && truthy _) eqn:Hfull.
    { bool_hyps. injection H as <- <-. apply by_full_access; try done. by apply is_str_true. }
    destruct (sameCommandGrantMatches facts) eqn:Hg;
      [injection H as <- <-; by apply by_same_command|].
    destruct (negb _) eqn:Ha.
    { injection H as <- <-. bool_hyps. apply by_policy; try done. intros Hx%Hr. congruence. }
    destruct (decideMode _ _) eqn:Hd; try discriminate. injection H as <- <-. by apply by_mode.
Qed.

Lemma queued_complete facts kind grant : get (g_approval facts) "status" <> VStr "approved" ->
  authority facts kind grant -> exists kind' grant', authorizeQueued facts = ga_authorized kind' grant'.
Proof.
  intros Hs Ha. destruct (forceManualApproval (constraintsOf facts) || forceAutoReview (constraintsOf facts))
    eqn:E; [|apply not_forced in E].
  - assert (Hn : ~ unconstrained facts) by (intros Hu%not_forced; cbn zeta in Hu; congruence).
    destruct (queued_forced facts Hn) as [(Hq & _)|[_ Hq]]; [by eexists _, _|].
    destruct Ha as [[Hx _]| | |_ Hu Hr Hp He|]; try done.
    destruct Hq as [|[|[|]]]; try done. congruence.
  - rewrite (queued_free _ E). cbn zeta. pose proof (review_effects facts) as Hr.
    destruct (is_str _ "full" && truthy _) eqn:Hfull; [by eexists _, _|].
    destruct (sameCommandGrantMatches facts) eqn:Hg; [by eexists _, _|].
    destruct (negb (_ || _)) eqn:Hneg; [by eexists _, _|].
    destruct Ha as [[Hx _]|_ _ Hm Hb|_ _ Hb|_ _ _ Hp He|_ _ Hm]; try done.
    + apply is_str_true in Hm. rewrite Hm, Hb in Hfull. done.
    + congruence.
    + apply negb_false_iff in Hneg. rewrite Hp in Hneg. by apply Hr in Hneg.
    + rewrite Hm. by eexists _, _.
Qed.

Lemma authorization_spec facts id : get (g_invocation facts) "toolCallId" = VStr id ->
  (exists kind grant, authorizeValidToolGovernanceFacts facts = Ok (ga_authorized kind grant))
  <-> gates_open facts /\ exists kind grant, authority facts kind grant.
Proof.
  intros Hid. split.
  - intros (kind & grant & H). apply authorized_gates in H as [Hg [(Hs & Hm & -> & ->)|[Hs Hq]]];
      (split; [done|]); do 2 eexists; [apply by_exact_approval; by eapply exact_approval|].
    by apply queued_sound.
  - intros ([Hgates Hallowed Hsandbox Hmech Hnested] & kind & grant & Ha).
    unfold authorizeValidToolGovernanceFacts.
    replace (gateRejection facts) with (@None RejectDecision)
      by (symmetry; apply gates_spec; by rewrite List.Forall_forall).
    apply is_str_false in Hmech. unfold g_context in Hmech. rewrite Hmech.
    destruct (_ && _) eqn:Hn.
    { bool_hyps. exfalso. apply Hnested; by apply is_str_true. }
    fold (g_approval facts). destruct (is_str _ "approved") eqn:Hs.
    + apply is_str_true in Hs. destruct Ha as [Ha| | | |]; try done.
      eapply exact_approval in Ha; [|done]. rewrite Ha. cbn. by eexists _, _.
    + apply is_str_false in Hs. edestruct queued_complete as (k & g & ->); [done..|]. by eexists _, _.
Qed.

(** ** Valid facts *)

Lemma recordWith_spec v required optional test : recordWith v required optional test = true ->
  exists o, v = VObj o /\ exactKeys o required optional = true /\ test o = true.
Proof.
  unfold recordWith, plainRecord, isRecord. destruct v; try discriminate. intros H. bool_hyps. eauto.
Qed.

Lemma fieldsSatisfy_spec test o keys k : fieldsSatisfy test o keys = true -> In k keys ->
  test (get o k) = true.
Proof. unfold fieldsSatisfy. rewrite forallb_forall. auto. Qed.

Lemma boundedIdentity_text v : boundedIdentity v = true -> exists s, v = VStr s.
Proof. destruct v; try discriminate. eauto. Qed.

Lemma valid_parts value : isValidToolGovernanceFacts value = true ->
  exists facts, value = VObj facts /\ validInvocation (get facts "invocation") = true
    /\ validPolicy (get facts "policy") = true /\ validAdmission (get facts "admission") = true.
Proof.
  unfold isValidToolGovernanceFacts, toolGovernanceFactsInvalidReason.
  destruct value as [| | | | | |facts]; try discriminate. cbn [plainRecord isRecord].
  intros H. exists facts. repeat (case_match; [discriminate|]). bool_hyps. done.
Qed.

Lemma valid_toolCallId facts : validInvocation (get facts "invocation") = true ->
  exists id, get (g_invocation facts) "toolCallId" = VStr id.
Proof.
  intros (o & Ho & _ & Ht)%recordWith_spec. unfold g_invocation. rewrite Ho. cbn [jsonRecord].
  bool_hyps. eapply boundedIdentity_text, fieldsSatisfy_spec; [eassumption|]. cbn. tauto.
Qed.

(** ** Admission *)

Lemma reservations_bounded facts : validAdmission (get facts "admission") = true ->
  Forall (fun id => boundedIdentity (VStr id) = true) (reservations facts).
Proof.
  intros (o & Ho & _ & Ht)%recordWith_spec. unfold reservations, g_admission, arrayField.
  rewrite Ho. cbn [jsonRecord]. bool_hyps.
  destruct (get o "reservationIds") as [| | | | |l|]; try discriminate. cbn [default].
  apply List.Forall_forall. intros id (v & Hv & Hin)%in_map_iff.
  rewrite forallb_forall in *. match goal with H : forall x, In x l -> _ |- _ => specialize (H v Hin) as Hb end.
  pose proof (boundedIdentity_text _ Hb) as [s ->]. by subst.
Qed.

Lemma reserved_sorted facts :
  reserved facts (sort_strings (dedupe (reservations facts))).
Proof.
  destruct (dedupe_spec (reservations facts)) as [Hn Hi].
  repeat split.
  - apply NoDup_ListNoDup. eapply Permutation_NoDup; [apply sort_by_perm|by apply NoDup_ListNoDup].
  - apply sort_by_sorted; [|apply str_leb_trans].
    intros a b. destruct (str_leb a b) eqn:E; [by left|right; by apply str_leb_total].
  - intros Hin. apply Hi. by apply In_sort_by in Hin.
  - intros Hin. apply In_sort_by. by apply Hi.
Qed.

Lemma admit_spec facts kind grant decision : validAdmission (get facts "admission") = true ->
  admitToolGovernance (ga_authorized kind grant) (get facts "admission") = decision ->
  admissible facts /\ decision = gd_allow kind grant (sort_strings (dedupe (reservations facts)))
  \/ ~ admissible facts /\ exists r, decision = gd_reject r.
Proof.
  intros Hv. pose proof (reservations_bounded _ Hv) as Hb. unfold admitToolGovernance, admissible.
  rewrite Hv. fold (g_admission facts) (reservations facts). cbn zeta.
  destruct (reserved_sorted facts) as (_ & _ & Hin).
  set (ids := sort_strings (dedupe (reservations facts))) in *.
  assert (Hex : existsb (fun id => negb (boundedIdentity (VStr id))) ids = false).
  { apply not_true_iff_false. rewrite existsb_exists. intros (id & Hid & Hn).
    rewrite List.Forall_forall in Hb. rewrite Hb in Hn; [done|by apply Hin]. }
  rewrite Hex. cbn [negb orb].
  destruct (is_str _ "current") eqn:Hc; [apply is_str_true in Hc|apply is_str_false in Hc]; cbn [negb];
    intros <-; [|right; split; [tauto|eauto]].
  destruct (truthy _) eqn:Hr; cbn [andb]; [|left; repeat split; done].
  destruct ids as [|x ids']; [right; split; [|eauto]|left; repeat split; try done].
  - intros [_ Hne]. apply Hne; [done|]. destruct (reservations facts) as [|y ys]; [done|].
    by destruct (proj2 (Hin y) (or_introl eq_refl)).
  - intros _ E. rewrite E in Hin. by apply (Hin x); left.
Qed.

Lemma decide_parts value kind grant ids :
  decideToolGovernance value = Ok (gd_allow kind grant ids) ->
  exists facts, value = VObj facts /\ validInvocation (get facts "invocation") = true
    /\ authorizeValidToolGovernanceFacts facts = Ok (ga_authorized kind grant)
    /\ admissible facts /\ reserved facts ids.
Proof.
  unfold decideToolGovernance. destruct (isValidToolGovernanceFacts value) eqn:Hv; [|discriminate].
  apply valid_parts in Hv as (facts & -> & Hinv & _ & Hadm). cbn [jsonRecord].
  destruct (authorizeValidToolGovernanceFacts facts) as [a|] eqn:Ha; cbn; [|discriminate].
  intros [= Hok]. exists facts. destruct a as [k g| | | |]; try discriminate.
  apply admit_spec in Hok as [[Hadms [= -> -> ->]]|[_ [r [=]]]]; [|done].
  pose proof (reserved_sorted facts). done.
Qed.

(** ** Properties *)


