(* ===== verification/GovernanceBinding.v ===== *)
(** * The digest that binds an approval

    [canon] sorts the members of every object and drops the undefined ones; the
    serialization of a value is the JSON text of its canonical form, so the text
    determines the value up to the order of members.  Valid facts always have a
    text, so governance decides on every input. *)

From S2P Require Import Prelude Js GrantKey Json Hash State Recovery RecoveryProps RecoveryInvariant RecoveryClaims Scheduler Completion CompletionProps Verification Lifecycle LifecycleProps Capability Governance GovernanceClaims.
From stdpp Require Import prelude strings list pretty.
From Stdlib Require Import ZArith Lia Permutation Sorted.
Open Scope Z_scope.

Definition keyLe {A} (a b : string * A) : bool := str_leb (fst a) (fst b).

Definition onMember {A B} (f : A -> B) (kv : string * A) : string * B := (kv.1, f kv.2).

Definition definedMembers (o : obj) : obj := List.filter (fun kv => negb (is_undef kv.2)) o.

Fixpoint canon (v : val) : val :=
  match v with
  | VArr l => VArr (List.map canon l)
  | VObj o =>
      VObj (sort_by keyLe
              ((fix members (o : list (string * val)) : list (string * val) :=
                  match o with
                  | [] => []
                  | (k, x) :: rest =>
                      if is_undef x then members rest else (k, canon x) :: members rest
                  end) o))
  | _ => v
  end.

Lemma insert_onMember {A B} (f : A -> B) x l :
  insert_by keyLe (onMember f x) (List.map (onMember f) l) = List.map (onMember f) (insert_by keyLe x l).
Proof.
  induction l as [|y l IH]; [done|]. cbn.
  unfold keyLe at 1 3. cbn. destruct (str_leb x.1 y.1); [done|]. cbn. by rewrite IH.
Qed.

Lemma sort_onMember {A B} (f : A -> B) l :
  sort_by keyLe (List.map (onMember f) l) = List.map (onMember f) (sort_by keyLe l).
Proof.
  induction l as [|x l IH]; [done|]. unfold sort_by in *. cbn [List.map List.fold_right].
  by rewrite IH, insert_onMember.
Qed.

Lemma canon_object o : canon (VObj o) = VObj (List.map (onMember canon) (sort_by keyLe (definedMembers o))).
Proof.
  rewrite <- sort_onMember. cbn [canon]. do 2 f_equal.
  induction o as [|[k x] o IH]; [done|]. cbn. destruct (is_undef x); [done|]. cbn. by rewrite IH.
Qed.

Lemma serialize_object o : stableSerialize (VObj o) =
  let* members := sequence (List.map
    (fun kv => let* t := stableSerialize kv.2 in Ok (json_quote kv.1 +:+ ":" +:+ t))
    (sort_by keyLe (definedMembers o))) in
  Ok ("{" +:+ js_join "," members +:+ "}").
Proof.
  cbn [stableSerialize]. f_equal.
  transitivity (sequence (List.map
    (fun '(key, text) => let* t := text in Ok (json_quote key +:+ ":" +:+ t))
    (sort_by keyLe (List.map (onMember stableSerialize) (definedMembers o))))).
  - do 3 f_equal. induction o as [|[k x] o IH]; [done|]. rewrite IH. by destruct x.
  - rewrite sort_onMember, map_map. done.
Qed.

Lemma sequence_map {A B} (f : A -> res B) l bs :
  sequence (List.map f l) = Ok bs <-> Forall2 (fun a b => f a = Ok b) l bs.
Proof.
  revert bs. induction l as [|a l IH]; intros bs; cbn.
  - split; [intros [= <-]; constructor|by inversion 1].
  - destruct (f a) as [b|] eqn:E; cbn; [|split; [discriminate|inversion 1; congruence]].
    destruct (sequence (List.map f l)) as [cs|] eqn:E'; cbn.
    + split; [intros [= <-]; constructor; [done|by apply IH]|].
      inversion 1 as [|? ? ? ? Hb Hrest]; subst. apply IH in Hrest. congruence.
    + split; [discriminate|]. inversion 1 as [|? ? ? ? Hb Hrest]; subst. apply IH in Hrest. congruence.
Qed.

(** The serialization of a value is the JSON text of its canonical form. *)
Definition has_text (v : val) : Prop :=
  forall t, stableSerialize v = Ok t -> isCanonicalJsonValue (canon v) = true /\ text (canon v) = t.

Lemma Forall2_texts {A} (f : A -> res string) (g : A -> val) l ts :
  Forall2 (fun a t => f a = Ok t) l ts ->
  Forall (fun a => forall t, f a = Ok t -> isCanonicalJsonValue (g a) = true /\ text (g a) = t) l ->
  Forall (fun v => isCanonicalJsonValue v = true) (List.map g l) /\ List.map text (List.map g l) = ts.
Proof.
  induction 1 as [|a t l ts Ha _ IH]; [done|]. intros [Hx Hl]%Forall_cons. cbn.
  destruct (Hx t Ha) as [Hc Ht], (IH Hl) as [Hcs Hts]. rewrite Ht, Hts. split; [by constructor|done].
Qed.

Lemma serialize_text v : has_text v.
Proof.
  induction v as [| | |[]| |l IH|o IH] using val_nested_ind; intros t H; try (injection H as <-; done);
    try discriminate.
  - cbn [stableSerialize] in H. destruct (sequence _) as [ts|] eqn:E; [|discriminate].
    injection H as <-. apply sequence_map in E. cbn [canon].
    destruct (Forall2_texts _ canon _ _ E IH) as [Hc <-].
    split; [by apply canonical_array|]. by rewrite text_array, <- join_items.
  - rewrite serialize_object in H. destruct (sequence _) as [ts|] eqn:E; [|discriminate].
    injection H as <-. apply sequence_map in E. rewrite canon_object.
    assert (Hm : Forall (fun kv => has_text kv.2) (sort_by keyLe (definedMembers o))).
    { apply List.Forall_forall. intros kv [Hkv _]%In_sort_by%filter_In.
      rewrite List.Forall_forall in IH. by apply IH. }
    clear IH. set (ms := sort_by keyLe (definedMembers o)) in *. clearbody ms.
    enough (Forall (fun kv => isCanonicalJsonValue kv.2 = true) (List.map (onMember canon) ms)
            /\ List.map field_text (List.map (onMember canon) ms) = ts) as [Hc <-].
    { split; [by apply canonical_object|]. by rewrite text_object, <- join_items. }
    induction E as [|kv t ms ts Hkv _ IH]; [done|]. apply Forall_cons in Hm as [Hx Hms].
    destruct (stableSerialize kv.2) as [u|] eqn:Eu; [|discriminate]. injection Hkv as <-.
    destruct (Hx u Eu) as [Hc Hu], (IH Hms) as [Hcs <-]. cbn [List.map onMember]. unfold field_text at 1. cbn [fst snd onMember].
    rewrite Hu. split; [by constructor|done].
Qed.

Lemma serialize_inj v w t : stableSerialize v = Ok t -> stableSerialize w = Ok t -> canon v = canon w.
Proof.
  intros [Hv Ht]%serialize_text [Hw Ht']%serialize_text. apply json_stringify_inj; [done..|].
  rewrite !canonical_defined by done. congruence.
Qed.

(** ** Members of canonical forms *)

Lemma is_undef_canon v : is_undef (canon v) = is_undef v.
Proof. by destruct v. Qed.

Lemma get_member o k x : NoDup (okeys o) -> x <> VUndef ->
  get o k = x <-> In (k, x) (definedMembers o).
Proof.
  intros Hn Hx. unfold definedMembers. rewrite filter_In. cbn. split.
  - unfold get. destruct (oget k o) as [y|] eqn:E; [|congruence]. intros ->.
    split; [by apply oget_In|]. by destruct x.
  - intros [Hin _]. unfold get. by rewrite (In_oget _ _ _ Hn Hin).
Qed.

(** Equal canonical forms have equal members. *)
Lemma canon_member o o' k : NoDup (okeys o) -> NoDup (okeys o') ->
  canon (VObj o) = canon (VObj o') -> get o k <> VUndef -> canon (get o' k) = canon (get o k).
Proof.
  intros Hn Hn' E Hk. rewrite !canon_object in E. injection E as E.
  pose proof (proj1 (get_member o k (get o k) Hn Hk) eq_refl) as Hin.
  apply (In_sort_by keyLe) in Hin. apply (in_map (onMember canon)) in Hin. rewrite E in Hin.
  apply in_map_iff in Hin as ([k' y] & [= -> Hy] & Hin). apply In_sort_by in Hin.
  pose proof Hin as [_ Hu]%filter_In.
  apply get_member in Hin; [by rewrite Hin|done|by destruct y].
Qed.

Lemma canon_members o o' k : NoDup (okeys o) -> NoDup (okeys o') ->
  canon (VObj o) = canon (VObj o') -> canon (get o k) = canon (get o' k).
Proof.
  intros Hn Hn' E. destruct (is_undef (get o k)) eqn:Hk.
  - destruct (is_undef (get o' k)) eqn:Hk'; [by destruct (get o k), (get o' k)|].
    apply (canon_member o' o k); [done..|by symmetry|by destruct (get o' k)].
  - symmetry. apply (canon_member o o' k); [done..|by destruct (get o k)].
Qed.

(** ** Valid facts have a text *)

Definition serializable (v : val) : Prop := exists t, stableSerialize v = Ok t.

Lemma sequence_total {A B} (f : A -> res B) l :
  Forall (fun a => exists b, f a = Ok b) l -> exists bs, sequence (List.map f l) = Ok bs.
Proof.
  induction 1 as [|a l [b Hb] _ [bs IH]]; [by exists []|]. exists (b :: bs). cbn. by rewrite Hb, IH.
Qed.

Lemma serializable_array l : Forall serializable l -> serializable (VArr l).
Proof. intros [ts H]%sequence_total. eexists. cbn [stableSerialize]. by rewrite H. Qed.

Lemma serializable_object o :
  (forall k x, In (k, x) o -> x <> VUndef -> serializable x) -> serializable (VObj o).
Proof.
  intros Ho. unfold serializable. rewrite serialize_object.
  match goal with |- context [sequence (List.map ?f ?l)] =>
    destruct (sequence_total f l) as [ts ->]; [|by eexists] end.
  apply List.Forall_forall. intros [k x] [Hin Hu]%In_sort_by%filter_In. cbn in *.
  destruct (Ho k x Hin) as [t Ht]; [by destruct x|]. rewrite Ht. by eexists.
Qed.

(** Every member is under a known key, and what is under a known key has a text. *)
Lemma serializable_record o required optional : NoDup (okeys o) ->
  exactKeys o required optional = true ->
  Forall (fun k => get o k = VUndef \/ serializable (get o k)) (required ++ optional) ->
  serializable (VObj o).
Proof.
  intros Hn [_ Hk]%andb_true_iff Hall. apply serializable_object. intros k x Hin Hx.
  assert (get o k = x) as <- by (unfold get; by rewrite (In_oget _ _ _ Hn Hin)).
  rewrite List.Forall_forall in Hall. rewrite forallb_forall in Hk. destruct (Hall k); [|done|done].
  apply str_in_true, Hk. apply in_map_iff. by exists (k, get o k).
Qed.

(** Texts that only a string, perhaps inside arrays, has. *)
Definition plainText (s : string) : bool :=
  str_nonempty s && negb (has_comma s || str_in s ["NaN"; "undefined"; "[object Object]"]).

Lemma plain_serializable : forall v, plainText (js_string v) = true -> serializable v.
Proof.
  induction v as [| | |[]| |l IH|o _] using val_nested_ind; intros Hp; try discriminate;
    try (by eexists).
  apply serializable_array. destruct l as [|x [|y l]]; [constructor| |].
  - apply Forall_cons in IH as [IH _]. repeat constructor. apply IH.
    destruct x; try discriminate; exact Hp.
  - unfold plainText in Hp. rewrite array_has_comma, andb_false_r in Hp. discriminate.
Qed.

Lemma includes_serializable texts v : forallb plainText texts = true -> includesText texts v = true ->
  serializable v.
Proof.
  unfold includesText. rewrite forallb_forall. intros Ht Hin%str_in_true.
  by apply plain_serializable, Ht.
Qed.

(** Tests that only values with a text, or an absent one, pass. *)
Definition textual (test : val -> bool) : Prop :=
  forall v, test v = true -> v = VUndef \/ serializable v.

Lemma textual_identity : textual boundedIdentity.
Proof. intros v [s ->]%boundedIdentity_text. right. by eexists. Qed.
Lemma textual_digest : textual digest64.
Proof. intros v. destruct v; try discriminate. right. by eexists. Qed.
Lemma textual_boolean : textual isBoolean.
Proof. intros v. destruct v; try discriminate. right. by eexists. Qed.
Lemma textual_nullOr test : textual test -> textual (nullOr test).
Proof. intros Ht v. destruct v; try apply Ht. right. by eexists. Qed.
Lemma textual_nullable : textual nullableDigest.
Proof. apply (textual_nullOr _ textual_digest). Qed.
Lemma textual_optionally test : textual test -> textual (optionally test).
Proof. intros Ht v [Hu|H]%orb_true_iff; [left; by destruct v|by apply Ht]. Qed.
Lemma textual_includes texts : forallb plainText texts = true -> textual (includesText texts).
Proof. intros Ht v H. right. by eapply includes_serializable. Qed.
Lemma textual_is s : textual (fun v => is_str v s).
Proof. intros v ->%is_str_true. right. by eexists. Qed.

Create HintDb texts.
#[export] Hint Resolve textual_identity textual_digest textual_boolean textual_nullOr textual_nullable
  textual_optionally textual_is : texts.
#[export] Hint Extern 1 (textual (includesText _)) => by apply textual_includes : texts.

Lemma textual_fields test o keys : textual test -> fieldsSatisfy test o keys = true ->
  Forall (fun k => get o k = VUndef \/ serializable (get o k)) keys.
Proof. intros Ht Hf. apply List.Forall_forall. intros k Hk. eapply Ht, fieldsSatisfy_spec; eauto. Qed.

Lemma textual_field test o k : textual test -> test (get o k) = true ->
  Forall (fun k => get o k = VUndef \/ serializable (get o k)) [k].
Proof. intros Ht Hk. apply (textual_fields test); [done|]. cbn. by rewrite Hk. Qed.

(** The fields under tests, one group after the other. *)
Ltac textual_groups o :=
  repeat match goal with
  | H : fieldsSatisfy ?test o _ = true |- _ => apply (textual_fields test) in H; [|by auto with texts]
  | H : ?test (get o _) = true |- _ => apply (textual_field test) in H; [|by auto with texts]
  end.

Lemma Forall_subset (P : string -> Prop) (small large : list string) :
  forallb (fun k => str_in k large) small = true -> Forall P large -> Forall P small.
Proof.
  rewrite forallb_forall, !List.Forall_forall. intros Hs Hl k Hk. by apply Hl, str_in_true, Hs.
Qed.

(** One group of fields out of all of them. *)
Ltac gather_fields :=
  repeat match goal with
  | H : Forall ?P ?l, H' : Forall ?P ?l' |- Forall ?P _ =>
      let G := fresh in pose proof (Forall_app_2 _ _ _ H H') as G; clear H H'
  end;
  eapply Forall_subset; [|eassumption]; vm_compute; reflexivity.

Lemma invocation_serializable v : distinctKeys v = true -> validInvocation v = true -> serializable v.
Proof.
  intros Hd (o & -> & Hk & Ht)%recordWith_spec. apply distinct_object in Hd as [Hn _].
  eapply serializable_record; [done..|]. bool_hyps. textual_groups o. gather_fields.
Qed.

Lemma textual_effects v : distinctKeys v = true -> optionally validEffects v = true ->
  v = VUndef \/ serializable v.
Proof.
  intros Hd [Hu|He]%orb_true_iff; [left; by destruct v|right].
  apply recordWith_spec in He as (o & -> & _ & Hall). apply serializable_object.
  intros k x Hin _. rewrite forallb_forall in Hall.
  assert (In x (ovalues o)) as Hx by (apply in_map_iff; by exists (k, x)).
  specialize (Hall x Hx). destruct x; try discriminate. by eexists.
Qed.

Lemma textual_identities : textual nonEmptyIdentities.
Proof.
  intros v H. right. destruct v as [| | | | |l|]; try discriminate. apply serializable_array.
  destruct l as [|x l]; [discriminate|]. cbn [nonEmptyIdentities] in H.
  apply List.Forall_forall. intros y Hy. rewrite forallb_forall in H.
  destruct (boundedIdentity_text y (H y Hy)) as [s ->]. by eexists.
Qed.
#[export] Hint Resolve textual_identities : texts.

Lemma policy_serializable v : distinctKeys v = true -> validPolicy v = true -> serializable v.
Proof.
  intros Hd (o & -> & Hk & Ht)%recordWith_spec.
  pose proof (distinct_get o "effects" Hd) as He. apply distinct_object in Hd as [Hn _].
  eapply serializable_record; [done..|]. bool_hyps.
  match goal with H : optionally validEffects _ = true |- _ => apply textual_effects in H; [|done] end.
  assert (Forall (fun k => get o k = VUndef \/ serializable (get o k)) ["effects"])
    by (by apply Forall_singleton).
  textual_groups o. gather_fields.
Qed.

Lemma binding_total invocation policy :
  distinctKeys invocation = true -> validInvocation invocation = true ->
  distinctKeys policy = true -> validPolicy policy = true ->
  exists digest, createToolApprovalBindingDigest invocation policy = Ok digest.
Proof.
  intros Hd Hi Hd' Hp. unfold createToolApprovalBindingDigest, bindingSubject.
  destruct (serializable_object [("schema", VStr "kite.tool-approval-binding.v1");
    ("invocation", invocation); ("policy", policy)]) as [t Ht]; [|rewrite Ht; by eexists].
  intros k x [[= <- <-]|[[= <- <-]|[[= <- <-]|[]]]] _;
    [by eexists|by apply invocation_serializable|by apply policy_serializable].
Qed.

(** ** Properties *)

Lemma decide_total facts :
  distinctKeys (get facts "invocation") = true -> distinctKeys (get facts "policy") = true ->
  exists decision, decideToolGovernance (VObj facts) = Ok decision.
Proof.
  intros Hi Hp. unfold decideToolGovernance.
  destruct (isValidToolGovernanceFacts (VObj facts)) eqn:Hv; [|by eexists].
  apply valid_parts in Hv as (f & [= <-] & Hvi & Hvp & _). cbn [jsonRecord].
  destruct (binding_total _ _ Hi Hvi Hp Hvp) as [digest Hd].
  unfold authorizeValidToolGovernanceFacts, approvalIdentityMatches, and_then. rewrite Hd. cbn [res_bind].
  repeat case_match; simplify_eq/=; by eexists.
Qed.

Lemma subject_members a b a' b' : canon (bindingSubject a b) = canon (bindingSubject a' b') ->
  canon a = canon a' /\ canon b = canon b'.
Proof.
  unfold bindingSubject. intros E.
  assert (forall x y, NoDup (okeys [("schema", VStr "kite.tool-approval-binding.v1");
    ("invocation", x); ("policy", y)])) as Hn by (intros; by apply (bool_decide_unpack _)).
  split; [apply (canon_members _ _ "invocation") in E|apply (canon_members _ _ "policy") in E]; done.
Qed.

(** A value with the canonical form of an object has its members. *)
Lemma canon_fields v o k : distinctKeys v = true -> distinctKeys (VObj o) = true ->
  canon v = canon (VObj o) -> canon (get (jsonRecord v) k) = canon (get o k).
Proof.
  intros Hv Ho E. destruct v as [| | | | | |o']; try discriminate. cbn [jsonRecord].
  apply distinct_object in Hv as [Hv _], Ho as [Ho _]. by apply canon_members.
Qed.


(** C5: A call that runs on an approval is the call the approval was given for: when
    the digest was made for another call and policy, either every member of both
    agrees (up to the order of members inside it) or their two texts are a collision
    of SHA-256. *)
Theorem approval_binds_one_call (facts invocation policy : obj) (kind : AuthorizationKind)
    (grant : val) (ids : list string) (digest : string) :
  distinctKeys (VObj facts) = true -> distinctKeys (VObj invocation) = true ->
  distinctKeys (VObj policy) = true ->
  decideToolGovernance (VObj facts) = Ok (gd_allow kind grant ids) ->
  get (g_approval facts) "status" = VStr "approved" ->
  get (g_approval facts) "approvalBindingDigest" = VStr digest ->
  createToolApprovalBindingDigest (VObj invocation) (VObj policy) = Ok digest ->
  (forall k, canon (get (g_invocation facts) k) = canon (get invocation k)
             /\ canon (get (g_policy facts) k) = canon (get policy k))
  \/ exists t t', stableSerialize (bindingSubject (get facts "invocation") (get facts "policy")) = Ok t
       /\ stableSerialize (bindingSubject (VObj invocation) (VObj policy)) = Ok t'
       /\ t <> t' /\ sha256Hex t = sha256Hex t'.
Proof.
  intros Hd Hdi Hdp (f & [= <-] & Hvi & Ha & _)%decide_parts Hs Hb Hdig.
  apply authorized_gates in Ha as [_ [(_ & Hm & _)|[? _]]]; [|done].
  destruct (valid_toolCallId _ Hvi) as [id Hid]. eapply exact_approval in Hm; [|done].
  destruct Hm as (_ & _ & _ & d & Hd' & Hb'). rewrite Hb in Hb'. injection Hb' as <-.
  unfold createToolApprovalBindingDigest in *.
  destruct (stableSerialize (bindingSubject (get facts "invocation") _)) as [t|] eqn:Et; [|discriminate].
  destruct (stableSerialize (bindingSubject (VObj invocation) _)) as [t'|] eqn:Et'; [|discriminate].
  injection Hd' as Hh. injection Hdig as Hh'.
  destruct (decide (t = t')) as [<-|Hne]; [left|right; exists t, t'; repeat split; congruence].
  pose proof (serialize_inj _ _ _ Et Et') as E.
  pose proof (subject_members _ _ _ _ E) as [Ei Ep].
  pose proof (distinct_get facts "invocation" Hd) as Hni. pose proof (distinct_get facts "policy" Hd) as Hnp.
  unfold g_invocation, g_policy. intros k. split; by apply canon_fields.
Qed.

(** ** Instances *)

Definition hexText : string := String.concat "" (repeat "a" 64).

Definition shellInvocation : obj := Eval vm_compute in
  List.map (fun k => (k, VStr hexText))
    ["capabilityRevision"; "descriptorRevision"; "parserRevision"; "schemaDigest"; "argumentsDigest";
     "effectiveEffectsDigest"; "builtinCatalogRevision"]
  ++ List.map (fun k => (k, VNull))
       ["executorRevision"; "bindingId"; "dynamicCatalogRevision"; "nestedCapabilityId";
        "nestedCapabilityRevision"; "nestedCatalogRevision"; "commandDigest"]
  ++ [("operationId", VStr "builtin:shell_execute"); ("capabilityId", VStr "builtin:shell_execute");
      ("exposedToolName", VStr "shell_execute"); ("workspace", VStr "w"); ("threadId", VStr "t");
      ("turnId", VStr "u"); ("modelMessageId", VStr "m"); ("toolCallId", VStr "call-1")].

Definition shellPolicy (decision : string) (effects : obj) : obj :=
  [("operationId", VStr "builtin:shell_execute"); ("capabilityRevision", VStr hexText);
   ("parserRevision", VStr hexText); ("effectiveEffectsDigest", VStr hexText);
   ("minimumApproval", VStr "none"); ("fullAccessMayBypassApproval", VBool false);
   ("sameCommandMayBypassApproval", VBool false); ("decision", VStr decision);
   ("allowed", VBool true); ("requiresApproval", VBool (decision =s "ask"));
   ("risk", VStr "execute_code"); ("reason", VStr "policy"); ("expectedEffects", VArr [VStr "runs"]);
   ("effects", VObj effects)].

Definition factsOf (invocation policy approval : obj) (mode : string) (extra : obj) : obj :=
  [("schema", VStr TOOL_GOVERNANCE_FACTS_SCHEMA_); ("invocation", VObj invocation);
   ("policy", VObj policy);
   ("context", VObj [("phase", VStr "building"); ("interactionMode", VStr mode);
                     ("sandboxAvailable", VBool true); ("circuitBreakerTripped", VBool false);
                     ("executionMechanism", VStr "shell");
                     ("gates", VObj (List.map (fun g => (g, VStr "admitted")) GATES))]);
   ("admission", VObj [("freshness", VStr "current"); ("reservationRequired", VBool true);
                       ("reservationIds", VArr [VStr "r2"; VStr "r1"; VStr "r2"])]);
   ("approval", VObj approval)] ++ extra.

Definition queuedApproval : obj :=
  [("status", VStr "queued"); ("grant", VStr "none"); ("approvedToolCallId", VNull);
   ("approvalBindingDigest", VNull)].

Definition shellDigest : string := Eval vm_compute in
  match createToolApprovalBindingDigest (VObj shellInvocation) (VObj (shellPolicy "ask" [])) with
  | Ok d => d | Throw _ => "" end.

Definition approvedFacts : obj := Eval vm_compute in
  factsOf shellInvocation (shellPolicy "ask" [])
    [("status", VStr "approved"); ("grant", VStr "approve_once");
     ("approvedToolCallId", VStr "call-1"); ("approvalBindingDigest", VStr shellDigest)] "auto" [].

Lemma approved_facts_run :
  decideToolGovernance (VObj approvedFacts) = Ok (gd_allow approved_call (VStr "approve_once") ["r1"; "r2"]).
Proof. vm_compute. reflexivity. Qed.




Lemma approval_binds_one_call_witness :
  (forall k, canon (get (g_invocation approvedFacts) k) = canon (get shellInvocation k)
             /\ canon (get (g_policy approvedFacts) k) = canon (get (shellPolicy "ask" []) k))
  \/ exists t t', stableSerialize (bindingSubject (get approvedFacts "invocation") (get approvedFacts "policy")) = Ok t
       /\ stableSerialize (bindingSubject (VObj shellInvocation) (VObj (shellPolicy "ask" []))) = Ok t'
       /\ t <> t' /\ sha256Hex t = sha256Hex t'.
Proof.
  apply (approval_binds_one_call approvedFacts shellInvocation (shellPolicy "ask" []) approved_call
           (VStr "approve_once") ["r1"; "r2"] shellDigest);
    try (vm_compute; reflexivity).
Defined.

(** In full mode a shell call whose effects are uncertain runs without an approval
    when its policy decides [allow], although full access may not bypass approvals. *)
Lemma uncertain_shell_runs_in_full_mode :
  let facts := factsOf shellInvocation (shellPolicy "allow" [("uncertainEffects", VBool true)])
                 queuedApproval "full" [] in
  uncertain_shell facts
  /\ decideToolGovernance (VObj facts) = Ok (gd_allow policy_allow (VStr "none") ["r1"; "r2"]).
Proof. vm_compute. repeat split; reflexivity. Qed.

(** A demand for the user written as a list of one text passes the validation and is
    then not recognized. *)
Lemma listed_demand_is_missed :
  let invocation := spread shellInvocation
    [("operationId", VStr "mcp:dynamic_tool"); ("capabilityId", VStr "mcp:server");
     ("exposedToolName", VStr "mcp__server"); ("builtinCatalogRevision", VNull);
     ("dynamicCatalogRevision", VStr hexText)] in
  let policy := spread (shellPolicy "allow" []) [("operationId", VStr "mcp:dynamic_tool")] in
  let demand v := factsOf invocation policy queuedApproval "auto"
    [("dynamicMcp", VObj [("minimumApproval", v); ("readOnly", VBool false)])] in
  decideToolGovernance (VObj (demand (VStr "user"))) = Ok (gd_request_approval policy)
  /\ decideToolGovernance (VObj (demand (VArr [VStr "user"])))
     = Ok (gd_allow policy_allow (VStr "none") ["r1"; "r2"]).
Proof. vm_compute. split; reflexivity. Qed.

(** ** Automatic review *)

(** A review settles a call only on a valid, successful verdict of the reviewer
    that names the call; it approves that call once, and only without a demand for
    the user; everything else goes to the user. *)
Theorem reviews_approve_once (value : val) :
  match decideAutoReview value with
  | ar_accepted_approval reviewId toolCallId grant _ =>
      exists o, value = VObj o /\ get o "reviewId" = VStr reviewId /\ get o "toolCallId" = VStr toolCallId
        /\ get o "ok" = VBool true /\ get o "approved" = VBool true /\ grant = "approve_once"
        /\ get o "grant" = VStr "approve_once" /\ get o "failureType" = VUndef
        /\ get o "requiresUserApproval" = VUndef
  | ar_rejected reviewId toolCallId _ =>
      exists o, value = VObj o /\ get o "reviewId" = VStr reviewId /\ get o "toolCallId" = VStr toolCallId
        /\ get o "ok" = VBool true /\ get o "approved" = VBool false
        /\ get o "failureType" = VUndef /\ get o "requiresUserApproval" = VUndef
  | ar_request_user_approval _ _ _ _ =>
      isValidAutoReviewFacts value = false
      \/ get (jsonRecord value) "ok" = VBool false
      \/ get (jsonRecord value) "failureType" <> VUndef
      \/ get (jsonRecord value) "requiresUserApproval" = VBool true
      \/ get (jsonRecord value) "approved" = VBool true
         /\ get (jsonRecord value) "grant" <> VStr "approve_once"
  end.
Proof.
  unfold decideAutoReview. destruct (isValidAutoReviewFacts value) eqn:Hv; [|by left].
  apply recordWith_spec in Hv as (o & -> & _ & Ht). cbn [jsonRecord negb]. bool_hyps.
  unfold fieldsSatisfy, forallb in *. bool_hyps.
  repeat match goal with H : boundedIdentity _ = true |- _ => apply boundedIdentity_text in H as [? H] end.
  assert (forall k y, get o k = VStr y -> textOf o k = y) as Htext
    by (intros k y E; unfold textOf, stringField; by rewrite E).
  destruct (get o "ok") as [| |[]| | | |] eqn:Eok; try discriminate; cbn; [|tauto].
  destruct (get o "failureType") eqn:Ef; cbn; try (right; right; left; congruence).
  destruct (get o "approved") as [| |[]| | | |] eqn:Ea; try discriminate; cbn in *.
  - destruct (get o "requiresUserApproval") as [| |[]| | | |] eqn:Eu; try discriminate.
    destruct (is_str (get o "grant") "approve_once") eqn:Eg; cbn.
    + apply is_str_true in Eg. exists o. repeat split; try done; by erewrite Htext.
    + apply is_str_false in Eg. tauto.
  - destruct (get o "requiresUserApproval") as [| |[]| | | |] eqn:Eu; try discriminate; cbn; [|tauto].
    exists o. repeat split; try done; by erewrite Htext.
Qed.

Lemma reviewed_once :
  decideAutoReview (VObj [("reviewId", VStr "v"); ("toolCallId", VStr "c"); ("ok", VBool true);
                          ("approved", VBool true); ("grant", VStr "approve_once")])
  = ar_accepted_approval "v" "c" "approve_once" None.
Proof. reflexivity. Qed.
