(* ===== verification/JsonParse.v ===== *)
(** * [JSON.parse]

    The grammar of JSON on texts of code units below 256 (an escape of a higher unit is
    outside the model and is refused).  A duplicate key takes the last value, at the
    place of the first.  A numeral with a fraction or an exponent is the engine's.  The
    parser runs on fuel; [parse_fuel] shows that the fuel of [json_parse] is enough. *)

From S2P Require Import Prelude Js.
From stdpp Require Import prelude strings list pretty.
From Stdlib Require Import ZArith Lia Ascii.
Open Scope Z_scope.

(** Space, tab, line feed and carriage return. *)
Definition json_space (c : ascii) : bool :=
  let n := nat_of_ascii c in (n =? 32)%nat || (n =? 9)%nat || (n =? 10)%nat || (n =? 13)%nat.

Fixpoint skip (s : string) : string :=
  match s with String c r => if json_space c then skip r else s | EmptyString => s end.

(** ** Strings *)

Definition hex_value (c : ascii) : option nat :=
  let n := nat_of_ascii c in
  if (48 <=? n)%nat && (n <=? 57)%nat then Some (n - 48)%nat
  else if (97 <=? n)%nat && (n <=? 102)%nat then Some (n - 87)%nat
  else if (65 <=? n)%nat && (n <=? 70)%nat then Some (n - 55)%nat else None.

(** The unit a single-letter escape stands for. *)
Definition escape_value (c : ascii) : option ascii :=
  match nat_of_ascii c with
  | 34%nat => Some (ascii_of_nat 34) | 92%nat => Some (ascii_of_nat 92)
  | 47%nat => Some (ascii_of_nat 47) | 98%nat => Some (ascii_of_nat 8)
  | 102%nat => Some (ascii_of_nat 12) | 110%nat => Some (ascii_of_nat 10)
  | 114%nat => Some (ascii_of_nat 13) | 116%nat => Some (ascii_of_nat 9)
  | _ => None
  end.

Definition unit_value (a b c d : ascii) : option ascii :=
  match hex_value a, hex_value b, hex_value c, hex_value d with
  | Some O, Some O, Some h, Some l => Some (ascii_of_nat (16 * h + l))
  | _, _, _, _ => None
  end.

Definition prepend (c : option ascii) (rest : option (string * string)) : option (string * string) :=
  match c, rest with Some c, Some (s, r) => Some (String c s, r) | _, _ => None end.

(** The rest of a string literal, after the opening quote. *)
Fixpoint parse_chars (s : string) : option (string * string) :=
  match s with
  | EmptyString => None
  | String c r =>
      if (nat_of_ascii c =? 34)%nat then Some (EmptyString, r)
      else if (nat_of_ascii c =? 92)%nat then
        match r with
        | String e r1 =>
            if (nat_of_ascii e =? 117)%nat then
              match r1 with
              | String h1 (String h2 (String h3 (String h4 r2))) =>
                  prepend (unit_value h1 h2 h3 h4) (parse_chars r2)
              | _ => None
              end
            else prepend (escape_value e) (parse_chars r1)
        | EmptyString => None
        end
      else if (nat_of_ascii c <? 32)%nat then None
      else prepend (Some c) (parse_chars r)
  end.

(** ** Numbers *)

Fixpoint parse_digits (acc : Z) (s : string) : Z * string :=
  match s with
  | String c r => match digit c with Some d => parse_digits (acc * 10 + d) r | None => (acc, s) end
  | EmptyString => (acc, s)
  end.

Definition char_is (n : nat) (c : ascii) : bool := (nat_of_ascii c =? n)%nat.

Definition starts (p : ascii -> bool) (s : string) : bool :=
  match s with String c _ => p c | EmptyString => false end.

Definition digit_char (c : ascii) : bool := is_some (digit c).

Definition rest_of (s : string) : string := match s with String _ r => r | EmptyString => s end.

(** The integer part, without superfluous zeros. *)
Definition parse_integer (s : string) : option (Z * string) :=
  if starts (char_is 48) s then Some (0, rest_of s)
  else if starts digit_char s then Some (parse_digits 0 s) else None.

(** [(\.[0-9]+)?]. *)
Definition parse_fraction (s : string) : option (bool * string) :=
  if starts (char_is 46) s then
    if starts digit_char (rest_of s) then Some (true, (parse_digits 0 (rest_of s)).2) else None
  else Some (false, s).

(** [([eE][+-]?[0-9]+)?]. *)
Definition parse_exponent (s : string) : option (bool * string) :=
  if starts (fun c => char_is 101 c || char_is 69 c) s then
    let t := rest_of s in
    let u := if starts (fun c => char_is 43 c || char_is 45 c) t then rest_of t else t in
    if starts digit_char u then Some (true, (parse_digits 0 u).2) else None
  else Some (false, s).

Section Parse.
Context `{JsHost}.

Definition parse_number (s : string) : option (num * string) :=
  let negative := starts (char_is 45) s in
  match parse_integer (if negative then rest_of s else s) with
  | Some (z, r1) =>
      match parse_fraction r1 with
      | Some (fractional, r2) =>
          match parse_exponent r2 with
          | Some (exponential, r3) =>
              Some (if fractional || exponential
                    then engineToNumber (String.substring 0 (String.length s - String.length r3) s)
                    else Fin (fl (if negative then - z else z)), r3)
          | None => None
          end
      | None => None
      end
  | None => None
  end.

(** ** Values *)

(** [s] without the literal it begins with. *)
Fixpoint after_literal (literal s : string) : option string :=
  match literal, s with
  | EmptyString, _ => Some s
  | String c l, String d r => if Ascii.eqb c d then after_literal l r else None
  | _, _ => None
  end.

Definition literal_value (literal : string) (v : val) (s : string) : option (val * string) :=
  match after_literal literal s with Some r => Some (v, r) | None => None end.

Fixpoint parse_value (fuel : nat) (s : string) {struct fuel} : option (val * string) :=
  match fuel with
  | O => None
  | S n =>
      let t := skip s in
      if starts (char_is 110) t then literal_value "null" VNull t
      else if starts (char_is 116) t then literal_value "true" (VBool true) t
      else if starts (char_is 102) t then literal_value "false" (VBool false) t
      else if starts (char_is 34) t then
        match parse_chars (rest_of t) with Some (text, r) => Some (VStr text, r) | None => None end
      else if starts (char_is 91) t then
        let u := skip (rest_of t) in
        if starts (char_is 93) u then Some (VArr [], rest_of u)
        else match parse_items n u with Some (l, r) => Some (VArr l, r) | None => None end
      else if starts (char_is 123) t then
        let u := skip (rest_of t) in
        if starts (char_is 125) u then Some (VObj [], rest_of u)
        else match parse_members n [] u with Some (o, r) => Some (VObj o, r) | None => None end
      else match parse_number t with Some (x, r) => Some (VNum x, r) | None => None end
  end
with parse_items (fuel : nat) (s : string) {struct fuel} : option (list val * string) :=
  match fuel with
  | O => None
  | S n =>
      match parse_value n s with
      | Some (v, r) =>
          let t := skip r in
          if starts (char_is 44) t then
            match parse_items n (rest_of t) with Some (l, r') => Some (v :: l, r') | None => None end
          else if starts (char_is 93) t then Some ([v], rest_of t) else None
      | None => None
      end
  end
with parse_members (fuel : nat) (o : obj) (s : string) {struct fuel} : option (obj * string) :=
  match fuel with
  | O => None
  | S n =>
      let t := skip s in
      if starts (char_is 34) t then
        match parse_chars (rest_of t) with
        | Some (key, r) =>
            let u := skip r in
            if starts (char_is 58) u then
              match parse_value n (rest_of u) with
              | Some (v, r') =>
                  let w := skip r' in
                  if starts (char_is 44) w then parse_members n (oset key v o) (rest_of w)
                  else if starts (char_is 125) w then Some (oset key v o, rest_of w) else None
              | None => None
              end
            else None
        | None => None
        end
      else None
  end.

Definition json_parse (s : string) : option val :=
  match parse_value (2 * String.length s + 2) s with
  | Some (v, r) => match skip r with EmptyString => Some v | _ => None end
  | None => None
  end.
End Parse.
