(* ===== verification/JsonRoundtrip.v ===== *)
(** * [JSON.parse] reads what [JSON.stringify] writes

    A value without [undefined] and [NaN], whose objects have distinct keys and whose
    numbers are doubles, is read back from its text; and the fuel of the parser never
    runs out. *)

From S2P Require Import Prelude Js GrantKey Json JsonParse.
From stdpp Require Import prelude strings list pretty.
From Stdlib Require Import ZArith Lia Ascii.
Open Scope Z_scope.

(** ** Strings *)

Lemma parse_one_char c t :
  parse_chars (json_char c +:+ t) = prepend (Some c) (parse_chars t).
Proof. by destruct c as [[] [] [] [] [] [] [] []]. Qed.

Lemma parse_chars_text s r : parse_chars (json_chars s +:+ dquote +:+ r) = Some (s, r).
Proof.
  induction s as [|c s IH]; [done|]. cbn [json_chars]. rewrite string_app_assoc, parse_one_char, IH. done.
Qed.

(** ** Numbers *)

Lemma digit_pretty n : (n < 10)%N -> digit (pretty_N_char n) = Some (Z.of_N n).
Proof. destruct n as [|[[[|[]|]|[|[]|]|]|[[|[]|]|[|[]|]|]|]]; intros; try done; lia. Qed.

Lemma digits_go n s : parse_digits 0 (pretty_N_go n s) = parse_digits (Z.of_N n) s.
Proof.
  revert s. induction (N.lt_wf_0 n) as [n _ IH]; intros s.
  destruct (decide (n = 0%N)) as [->|Hn]; [by rewrite pretty_N_go_0|].
  rewrite pretty_N_go_step by lia. rewrite IH by (apply N.div_lt; lia). cbn [parse_digits].
  rewrite digit_pretty by (apply N.mod_lt; lia). f_equal. pose proof (N.div_mod n 10). lia.
Qed.

Lemma go_head n s : (0 < n)%N -> starts digit_char (pretty_N_go n s) = true
  /\ starts (char_is 48) (pretty_N_go n s) = false.
Proof.
  revert s. induction (N.lt_wf_0 n) as [n _ IH]; intros s Hn. rewrite pretty_N_go_step by lia.
  destruct (decide (n `div` 10 = 0)%N) as [E|E]; [|apply IH; [apply N.div_lt; lia|by apply N.neq_0_lt_0]].
  rewrite E, pretty_N_go_0. assert (Hs : (n < 10)%N) by (by apply N.div_small_iff in E).
  rewrite N.mod_small by done. cbn [starts]. unfold digit_char. rewrite digit_pretty by done. split; [done|].
  destruct n as [|[[[|[]|]|[|[]|]|]|[[|[]|]|[|[]|]|]|]]; try done; lia.
Qed.

Lemma go_app n s r : pretty_N_go n s +:+ r = pretty_N_go n (s +:+ r).
Proof.
  revert s. induction (N.lt_wf_0 n) as [n _ IH]; intros s.
  destruct (decide (n = 0%N)) as [->|Hn]; [by rewrite !pretty_N_go_0|].
  rewrite !(pretty_N_go_step n) by lia. by rewrite IH by (apply N.div_lt; lia).
Qed.

(** A delimiter continues no numeral. *)
Lemma delimited_stop p r : delimited r -> forallb (fun c => negb (is_delim c && p c)) all_chars = true ->
  starts p r = false.
Proof.
  intros Hr Hp. destruct r as [|c r]; [done|]. cbn in Hr |- *. rewrite forallb_forall in Hp.
  specialize (Hp c (all_chars_complete c)). rewrite Hr in Hp. by destruct (p c).
Qed.

Lemma digits_stop acc r : delimited r -> parse_digits acc r = (acc, r).
Proof.
  intros Hr. pose proof (delimited_stop digit_char r Hr eq_refl) as Hd. destruct r as [|c r]; [done|].
  cbn in *. unfold digit_char in Hd. by destruct (digit c).
Qed.

Lemma numeral_ends r : delimited r -> parse_fraction r = Some (false, r) /\ parse_exponent r = Some (false, r).
Proof. intros Hr. unfold parse_fraction, parse_exponent. by rewrite !(delimited_stop _ r Hr) by reflexivity. Qed.

Lemma parse_positive p r : delimited r -> parse_integer (pretty (N.pos p) +:+ r) = Some (Z.pos p, r).
Proof.
  intros Hr. unfold pretty, pretty_N. rewrite decide_False by done. rewrite go_app. unfold parse_integer.
  destruct (go_head (N.pos p) ("" +:+ r)) as [-> ->]; [lia|]. rewrite digits_go. by rewrite digits_stop.
Qed.

Section Host.
Context `{JsHost}.

Lemma parse_positive_number p r : delimited r ->
  parse_number (pretty (N.pos p) +:+ r) = Some (Fin (fl (Z.pos p)), r).
Proof.
  intros Hr. unfold parse_number. pose proof (parse_positive p r Hr) as Hp.
  assert (starts (char_is 45) (pretty (N.pos p) +:+ r) = false) as ->.
  { unfold pretty, pretty_N. rewrite decide_False, go_app by done.
    destruct (go_head (N.pos p) ("" +:+ r)) as [Hd _]; [lia|].
    destruct (pretty_N_go _ _) as [|c s]; [done|]. cbn in *. unfold digit_char in Hd.
    destruct (char_is 45 c) eqn:E; [|done]. apply Nat.eqb_eq in E. unfold digit in Hd. by rewrite E in Hd. }
  rewrite Hp. destruct (numeral_ends r Hr) as [-> ->]. done.
Qed.

Lemma parse_number_text z r : delimited r -> parse_number (pretty z +:+ r) = Some (Fin (fl z), r).
Proof.
  intros Hr. destruct z as [|p|p].
  - change (pretty 0 +:+ r) with (String "0" r). unfold parse_number.
    change (starts (char_is 45) (String "0" r)) with false.
    change (parse_integer (if false then _ else String "0" r)) with (Some (0, r)).
    cbv beta iota. by destruct (numeral_ends r Hr) as [-> ->].
  - by apply parse_positive_number.
  - change (pretty (Z.neg p) +:+ r) with (String "-" (pretty (N.pos p) +:+ r)). unfold parse_number.
    change (starts (char_is 45) (String "-" (pretty (N.pos p) +:+ r))) with true. cbn [rest_of].
    rewrite parse_positive by done. by destruct (numeral_ends r Hr) as [-> ->].
Qed.

(** ** Values *)

(** What storage keeps exactly: numbers that are doubles, no [undefined], no [NaN] and
    distinct keys. *)
Fixpoint storable (v : val) : bool :=
  match v with
  | VUndef | VNum NaN => false
  | VNull | VBool _ | VStr _ => true
  | VNum (Fin z) => fl z =? z
  | VArr l => forallb storable l
  | VObj o =>
      bool_decide (NoDup (List.map fst o))
      && (fix fields (o : list (string * val)) : bool :=
            match o with [] => true | (_, x) :: o' => storable x && fields o' end) o
  end.

Lemma storable_array l : storable (VArr l) = true <-> Forall (fun v => storable v = true) l.
Proof. cbn. by rewrite forallb_forall, List.Forall_forall. Qed.

Lemma storable_object o : storable (VObj o) = true <->
  NoDup (okeys o) /\ Forall (fun kv => storable kv.2 = true) o.
Proof.
  cbn [storable]. rewrite andb_true_iff, bool_decide_eq_true.
  assert (Hf : (fix fields (o : list (string * val)) : bool :=
            match o with [] => true | (_, x) :: o' => storable x && fields o' end) o = true
         <-> Forall (fun kv => storable kv.2 = true) o); [|by rewrite Hf].
  induction o as [|[k x] o IH]; [done|]. rewrite andb_true_iff, Forall_cons. cbn. tauto.
Qed.

Lemma storable_canonical v : storable v = true -> isCanonicalJsonValue v = true.
Proof.
  induction v as [| |b|[z|]|s|l IH|o IH] using val_nested_ind; intros Hv; try done.
  - rewrite storable_array in Hv. rewrite canonical_array. rewrite !List.Forall_forall in *. auto.
  - apply storable_object in Hv as [_ Hv]. rewrite canonical_object. rewrite !List.Forall_forall in *. auto.
Qed.

Definition head_is (p : ascii -> bool) (s : string) : Prop := exists c r, s = String c r /\ p c = true.

Lemma skip_head s : head_is (fun c => negb (json_space c)) s -> skip s = s.
Proof. intros (c & r & -> & Hc%negb_true_iff). cbn. by rewrite Hc. Qed.

Lemma head_app p s r : head_is p s -> head_is p (s +:+ r).
Proof. intros (c & t & -> & Hc). by exists c, (t +:+ r). Qed.

Lemma char_check (p q : ascii -> bool) c : p c = true ->
  forallb (fun c => implb (p c) (q c)) all_chars = true -> q c = true.
Proof.
  intros Hp Hall. rewrite forallb_forall in Hall. specialize (Hall c (all_chars_complete c)). cbv beta in Hall.
  by rewrite Hp in Hall.
Qed.

(** A value begins with neither a space nor a delimiter. *)
Definition value_char (c : ascii) : bool := negb (json_space c) && negb (is_delim c).

Lemma pretty_head (z : Z) : head_is num_char (pretty z).
Proof.
  pose proof (all_num_pretty z) as Ha. pose proof (pretty_nonempty z) as Hn.
  destruct (pretty z) as [|c s]; [done|]. apply andb_true_iff in Ha as [Hc _]. by exists c, s.
Qed.

Lemma text_head v : storable v = true -> head_is value_char (text v).
Proof.
  destruct v as [| |[]|[z|]|s|l|o]; try done; intros _; try (by eexists _, _).
  destruct (pretty_head z) as (c & s & E & Hc). change (text (VNum (Fin z))) with (pretty z).
  exists c, s. split; [done|]. by apply (char_check num_char).
Qed.

Lemma length_append a b : String.length (a +:+ b) = (String.length a + String.length b)%nat.
Proof. induction a as [|c a IH]; [done|].
  change (S (String.length (a +:+ b)) = S (String.length a + String.length b)). by rewrite IH.
Qed.

(** A value is read back, with the fuel its text gives. *)
Definition read_back (v : val) : Prop := forall n r, (2 * String.length (text v) + 2 <= n)%nat ->
  delimited r -> parse_value n (text v +:+ r) = Some (v, r).

Lemma start_false p c r : char_is p c = false -> starts (char_is p) (String c r) = false.
Proof. done. Qed.

Lemma read_number z : fl z = z -> read_back (VNum (Fin z)).
Proof.
  intros Hz n r Hn Hr. destruct n as [|n]; [lia|]. change (text (VNum (Fin z))) with (pretty z).
  destruct (pretty_head z) as (c & s & E & Hc). cbn [parse_value].
  rewrite (skip_head (pretty z +:+ r)).
  2:{ apply head_app. exists c, s. split; [done|]. by apply (char_check num_char (fun c => negb (json_space c))). }
  assert (Hs : forall p, forallb (fun c => implb (num_char c) (negb (char_is p c))) all_chars = true ->
    starts (char_is p) (pretty z +:+ r) = false).
  { intros p Hp. rewrite E. apply negb_true_iff. by apply (char_check num_char (fun c => negb (char_is p c))). }
  rewrite !Hs by reflexivity. rewrite parse_number_text by done. by rewrite Hz.
Qed.

Lemma read_string s : read_back (VStr s).
Proof.
  intros n r Hn Hr. destruct n as [|n]; [lia|]. change (text (VStr s)) with (json_quote s). unfold json_quote.
  rewrite !string_app_assoc. change (dquote +:+ ?t) with (String (ascii_of_nat 34) t) at 1.
  cbn [parse_value]. rewrite skip_head by (by eexists _, _).
  change (starts (char_is 34) (String (ascii_of_nat 34) ?t)) with true. cbn [starts rest_of].
  cbn [char_is nat_of_ascii]. cbn. by rewrite parse_chars_text.
Qed.

Lemma value_array n t : parse_value (S n) (String "[" t)
  = if starts (char_is 93) (skip t) then Some (VArr [], rest_of (skip t))
    else match parse_items n (skip t) with Some (l, r) => Some (VArr l, r) | None => None end.
Proof. reflexivity. Qed.

Lemma value_object n t : parse_value (S n) (String "{" t)
  = if starts (char_is 125) (skip t) then Some (VObj [], rest_of (skip t))
    else match parse_members n [] (skip t) with Some (o, r) => Some (VObj o, r) | None => None end.
Proof. reflexivity. Qed.

Lemma value_char_head s r : head_is value_char s ->
  skip (s +:+ r) = s +:+ r /\ starts (char_is 93) (s +:+ r) = false /\ starts (char_is 125) (s +:+ r) = false.
Proof.
  intros (c & t & -> & Hc). split_and!; [apply skip_head, head_app; exists c, t; split; [done|]|..].
  - by apply (char_check value_char (fun c => negb (json_space c))).
  - apply negb_true_iff. by apply (char_check value_char (fun c => negb (char_is 93 c))).
  - apply negb_true_iff. by apply (char_check value_char (fun c => negb (char_is 125 c))).
Qed.

Lemma items_read l x r n : Forall read_back (x :: l) ->
  (2 * String.length (items text (x :: l)) + 3 <= n)%nat ->
  parse_items n (items text (x :: l) +:+ String "]" r) = Some (x :: l, r).
Proof.
  revert x n. induction l as [|y l IH]; intros x n [Hx Hl]%Forall_cons Hn;
    (destruct n as [|n]; [lia|]); cbn [items] in *.
  - change (Json.tail text []) with "" in *. rewrite string_append_nil in *. cbn [parse_items].
    rewrite Hx; [reflexivity|lia|done].
  - change (Json.tail text (y :: l)) with ("," +:+ text y +:+ Json.tail text l) in *. rewrite !length_append in Hn. cbn [String.length] in Hn.
    rewrite !string_app_assoc. cbn [parse_items]. rewrite Hx; [|lia|done].
    change (skip ("," +:+ ?t)) with (String "," t). cbn [rest_of starts].
    change (char_is 44 ",") with true. cbv iota. rewrite <- string_app_assoc.
    rewrite (IH y n Hl); [done|]. rewrite length_append. lia.
Qed.

Lemma read_array l : Forall read_back l -> Forall (fun v => storable v = true) l -> read_back (VArr l).
Proof.
  intros Hl Hs n r Hn Hr. destruct n as [|n]; [lia|].
  rewrite text_array in * by (eapply Forall_impl; [exact Hs|]; intros; by apply storable_canonical).
  rewrite !string_app_assoc. change ("[" +:+ ?t) with (String "[" t). rewrite value_array.
  destruct l as [|x l]; [reflexivity|]. apply Forall_cons in Hs as [Hx _].
  assert (Hh : head_is value_char (items text (x :: l))) by (cbn [items]; by apply head_app, text_head).
  change ("]" +:+ r) with (String "]" r).
  destruct (value_char_head _ (String "]" r) Hh) as (-> & -> & _). rewrite items_read; [done|done|].
  rewrite !length_append in Hn. cbn [String.length] in Hn. lia.
Qed.

Lemma members_step n acc k t : parse_members (S n) acc (json_quote k +:+ String ":" t)
  = match parse_value n t with
    | Some (v, r') =>
        if starts (char_is 44) (skip r') then parse_members n (oset k v acc) (rest_of (skip r'))
        else if starts (char_is 125) (skip r') then Some (oset k v acc, rest_of (skip r')) else None
    | None => None
    end.
Proof.
  unfold json_quote. rewrite !string_app_assoc.
  change (dquote +:+ json_chars k +:+ ?t) with (String (ascii_of_nat 34) (json_chars k +:+ t)).
  cbn [parse_members]. change (skip (String (ascii_of_nat 34) ?t)) with (String (ascii_of_nat 34) t).
  change (starts (char_is 34) (String (ascii_of_nat 34) ?t)) with true. cbv iota. cbn [rest_of].
  rewrite parse_chars_text. reflexivity.
Qed.

Lemma members_read o k v acc r n : Forall (fun kv => read_back kv.2) ((k, v) :: o) ->
  NoDup (okeys (acc ++ (k, v) :: o)) ->
  (2 * String.length (items field_text ((k, v) :: o)) + 3 <= n)%nat ->
  parse_members n acc (items field_text ((k, v) :: o) +:+ String "}" r) = Some (acc ++ (k, v) :: o, r).
Proof.
  revert k v acc n. induction o as [|[k' v'] o IH]; intros k v acc n [Hx Hl]%Forall_cons Hnd Hn;
    (destruct n as [|n]; [lia|]); cbn [items] in *;
    (assert (Ha : oset k v acc = acc ++ [(k, v)]);
      [apply okeys_oset_absent; unfold okeys in Hnd; rewrite map_app in Hnd; apply NoDup_app in Hnd as (_ & Hd & _);
       unfold ohas; destruct (oget k acc) eqn:E; [|done]; apply oget_In in E; exfalso; apply (Hd k);
       [apply list_elem_of_In; by apply (in_map fst) in E|cbn; by left]|]).
  - change (Json.tail field_text []) with "" in *. rewrite string_append_nil in *.
    unfold field_text in *. cbn [fst snd] in *. rewrite !string_app_assoc. rewrite !length_append in Hn.
    change (":" +:+ ?t) with (String ":" t). rewrite members_step, Hx, Ha; [reflexivity|cbn [snd]; lia|done].
  - change (Json.tail field_text ((k', v') :: o))
      with ("," +:+ field_text (k', v') +:+ Json.tail field_text o) in *.
    rewrite !length_append in Hn. unfold field_text in Hn at 1. rewrite !length_append in Hn. cbn [fst snd String.length] in Hn.
    unfold field_text at 1. cbn [fst snd]. rewrite !string_app_assoc. change (":" +:+ ?t) with (String ":" t) at 1.
    rewrite members_step, Hx; [|cbn [snd]; lia|done]. cbn [snd].
    change (skip ("," +:+ ?t)) with (String "," t). cbn [rest_of starts].
    change (char_is 44 ",") with true. cbv iota. rewrite Ha, <- string_app_assoc.
    rewrite (IH k' v' (acc ++ [(k, v)]) n Hl); [by rewrite <- app_assoc|by rewrite <- app_assoc|].
    rewrite length_append. lia.
Qed.

Lemma read_object o : Forall (fun kv => read_back kv.2) o -> storable (VObj o) = true -> read_back (VObj o).
Proof.
  intros Hl [Hnd Hs]%storable_object n r Hn Hr. destruct n as [|n]; [lia|].
  rewrite text_object in * by (eapply Forall_impl; [exact Hs|]; intros kv Hkv; by apply storable_canonical).
  rewrite !string_app_assoc. change ("{" +:+ ?t) with (String "{" t). rewrite value_object.
  destruct o as [|[k v] o]; [reflexivity|]. change ("}" +:+ r) with (String "}" r).
  assert (Hh : head_is value_char (items field_text ((k, v) :: o))) by (by eexists _, _).
  destruct (value_char_head _ (String "}" r) Hh) as (-> & _ & ->). rewrite members_read; [done|done|done|].
  rewrite !length_append in Hn. cbn [String.length] in Hn. lia.
Qed.

Lemma storable_reads v : storable v = true -> read_back v.
Proof.
  induction v as [| |[]|[z|]|s|l IH|o IH] using val_nested_ind; intros Hv; try done.
  - intros [|n] r Hn Hr; [lia|reflexivity].
  - intros [|n] r Hn Hr; [lia|reflexivity].
  - intros [|n] r Hn Hr; [lia|reflexivity].
  - apply read_number. by apply Z.eqb_eq.
  - apply read_string.
  - apply storable_array in Hv. apply read_array; [|done]. rewrite !List.Forall_forall in *. auto.
  - pose proof Hv as [_ Hs]%storable_object. apply read_object; [|done]. rewrite !List.Forall_forall in *. auto.
Qed.

(** Parsing the text of a value gives the value. *)
Lemma json_parse_stringify v : storable v = true ->
  exists s, json_stringify v = Some s /\ json_parse s = Some v.
Proof.
  intros Hv. exists (text v). split; [by apply canonical_defined, storable_canonical|].
  unfold json_parse. pose proof (storable_reads v Hv (2 * String.length (text v) + 2)%nat "") as Hr.
  rewrite string_append_nil in Hr. by rewrite Hr.
Qed.

(** ** The fuel is enough *)

Abbreviation len := String.length.

Lemma skip_len s : (len (skip s) <= len s)%nat.
Proof. induction s as [|c s IH]; cbn; [done|]. destruct (json_space c); cbn; lia. Qed.

Lemma starts_len p s : starts p s = true -> (len (rest_of s) < len s)%nat.
Proof. destruct s; cbn; [done|lia]. Qed.

Lemma digits_len acc s : (len (parse_digits acc s).2 <= len s)%nat.
Proof.
  revert acc. induction s as [|c s IH]; intros acc; cbn; [done|]. destruct (digit c); cbn; [|lia].
  specialize (IH (acc * 10 + z)). lia.
Qed.

Lemma digits_progress s : starts digit_char s = true -> (len (parse_digits 0 s).2 < len s)%nat.
Proof.
  destruct s as [|c s]; [done|]. cbn. unfold digit_char. destruct (digit c); [|done]. intros _.
  match goal with |- context [parse_digits ?a s] => pose proof (digits_len a s) end. lia.
Qed.

Lemma chars_len s t r : parse_chars s = Some (t, r) -> (len r < len s)%nat.
Proof.
  assert (Hall : forall n s t r, (len s <= n)%nat -> parse_chars s = Some (t, r) -> (len r < len s)%nat);
    [|by apply (Hall (len s))]. clear s t r.
  assert (Hpre : forall c o t r, prepend c o = Some (t, r) -> exists t', o = Some (t', r)).
  { intros [c|] [[t' r']|] t r; try done. intros [= <- <-]. eauto. }
  induction n as [|n IH]; intros [|c s] t r Hn; try done; [cbn in Hn; lia|]. cbn in Hn. cbn [parse_chars].
  destruct (nat_of_ascii c =? 34)%nat; [intros [= <- <-]; cbn; lia|].
  destruct (nat_of_ascii c =? 92)%nat.
  - destruct s as [|e s1]; [done|]. destruct (nat_of_ascii e =? 117)%nat.
    + destruct s1 as [|h1 [|h2 [|h3 [|h4 s2]]]]; try done. intros (t' & Ht)%Hpre.
      apply IH in Ht; cbn in *; lia.
    + intros (t' & Ht)%Hpre. apply IH in Ht; cbn in *; lia.
  - destruct (nat_of_ascii c <? 32)%nat; [done|]. intros (t' & Ht)%Hpre. apply IH in Ht; cbn; lia.
Qed.

Lemma integer_len s z r : parse_integer s = Some (z, r) -> (len r < len s)%nat.
Proof.
  unfold parse_integer. destruct (starts (char_is 48) s) eqn:E; [intros [= <- <-]; by eapply starts_len|].
  destruct (starts digit_char s) eqn:Ed; [|done]. intros Hp. injection Hp as Hp.
  pose proof (digits_progress s Ed) as Hl. by rewrite Hp in Hl.
Qed.

Lemma fraction_len s b r : parse_fraction s = Some (b, r) -> (len r <= len s)%nat.
Proof.
  unfold parse_fraction. destruct (starts (char_is 46) s) eqn:E; [|by intros [= <- <-]].
  destruct (starts digit_char _); [|done]. intros [= <- <-].
  pose proof (starts_len _ _ E). pose proof (digits_len 0 (rest_of s)). lia.
Qed.

Lemma exponent_len s b r : parse_exponent s = Some (b, r) -> (len r <= len s)%nat.
Proof.
  unfold parse_exponent. destruct (starts _ s) eqn:E; [|by intros [= <- <-]]. apply starts_len in E.
  destruct (starts digit_char _) eqn:Ed; [|done]. intros [= <- <-].
  match goal with |- (len (parse_digits 0 ?u).2 <= _)%nat => pose proof (digits_len 0 u) as Hu end.
  destruct (starts _ (rest_of s)) eqn:Es; [apply starts_len in Es|]; lia.
Qed.

Lemma number_len s x r : parse_number s = Some (x, r) -> (len r < len s)%nat.
Proof.
  unfold parse_number. destruct (parse_integer _) as [[z r1]|] eqn:E1; [|done].
  destruct (parse_fraction r1) as [[f r2]|] eqn:E2; [|done].
  destruct (parse_exponent r2) as [[e r3]|] eqn:E3; [|done]. intros [= _ <-].
  apply integer_len in E1. apply fraction_len in E2. apply exponent_len in E3.
  destruct (starts (char_is 45) s) eqn:E; [apply starts_len in E|]; lia.
Qed.

Lemma literal_len literal v s w r : literal <> "" -> literal_value literal v s = Some (w, r) -> (len r < len s)%nat.
Proof.
  assert (Hle : forall l s t, after_literal l s = Some t -> (len t <= len s)%nat).
  { induction l as [|c l IH]; intros [|d t] u; cbn; try done; try (by intros [= <-]).
    destruct (Ascii.eqb c d); [|done]. intros Hu%IH. lia. }
  unfold literal_value. destruct literal as [|c l]; [done|]. intros _. destruct s as [|d s]; [done|]. cbn.
  destruct (Ascii.eqb c d); [|done]. destruct (after_literal l s) eqn:E; [|done]. intros [= _ <-].
  apply Hle in E. lia.
Qed.

(** Every parser consumes something. *)
Lemma parse_progress n :
  (forall s v r, parse_value n s = Some (v, r) -> (len r < len s)%nat)
  /\ (forall s l r, parse_items n s = Some (l, r) -> (len r < len s)%nat)
  /\ (forall acc s o r, parse_members n acc s = Some (o, r) -> (len r < len s)%nat).
Proof.
  induction n as [|n (IHv & IHi & IHm)]; [done|]. split_and!.
  - intros s v r. cbn [parse_value]. pose proof (skip_len s) as Hs. set (t := skip s) in *.
    destruct (starts (char_is 110) t); [intros Hl%literal_len; [lia|done]|].
    destruct (starts (char_is 116) t); [intros Hl%literal_len; [lia|done]|].
    destruct (starts (char_is 102) t); [intros Hl%literal_len; [lia|done]|].
    destruct (starts (char_is 34) t) eqn:E34.
    { apply starts_len in E34. destruct (parse_chars _) as [[x y]|] eqn:E; [|done]. intros [= _ <-].
      apply chars_len in E. lia. }
    pose proof (skip_len (rest_of t)) as Hu. set (u := skip (rest_of t)) in *.
    destruct (starts (char_is 91) t) eqn:E91; [apply starts_len in E91|].
    { destruct (starts (char_is 93) u) eqn:E; [apply starts_len in E; intros [= _ <-]; lia|].
      destruct (parse_items n u) as [[l y]|] eqn:Ei; [|done]. intros [= _ <-]. apply IHi in Ei. lia. }
    destruct (starts (char_is 123) t) eqn:E123; [apply starts_len in E123|].
    { destruct (starts (char_is 125) u) eqn:E; [apply starts_len in E; intros [= _ <-]; lia|].
      destruct (parse_members n [] u) as [[l y]|] eqn:Ei; [|done]. intros [= _ <-]. apply IHm in Ei. lia. }
    destruct (parse_number t) as [[x y]|] eqn:E; [|done]. intros [= _ <-]. apply number_len in E. lia.
  - intros s l r. cbn [parse_items]. destruct (parse_value n s) as [[v y]|] eqn:Ev; [|done]. apply IHv in Ev.
    pose proof (skip_len y) as Hy. destruct (starts (char_is 44) (skip y)) eqn:E; [apply starts_len in E|].
    + destruct (parse_items n _) as [[k z]|] eqn:Ei; [|done]. intros [= _ <-]. apply IHi in Ei. lia.
    + destruct (starts (char_is 93) (skip y)) eqn:E'; [|done]. apply starts_len in E'. intros [= _ <-]. lia.
  - intros acc s o r. cbn [parse_members]. pose proof (skip_len s) as Hs.
    destruct (starts (char_is 34) (skip s)) eqn:E; [apply starts_len in E|done].
    destruct (parse_chars _) as [[k y]|] eqn:Ec; [|done]. apply chars_len in Ec. pose proof (skip_len y) as Hy.
    destruct (starts (char_is 58) (skip y)) eqn:E58; [apply starts_len in E58|done].
    destruct (parse_value n _) as [[v z]|] eqn:Ev; [|done]. apply IHv in Ev. pose proof (skip_len z) as Hz.
    destruct (starts (char_is 44) (skip z)) eqn:E44; [apply starts_len in E44; intros Hm%IHm; lia|].
    destruct (starts (char_is 125) (skip z)) eqn:E125; [|done]. apply starts_len in E125. intros [= _ <-]. lia.
Qed.

(** With the fuel of [json_parse], or any more, the result is the same. *)
Lemma parse_fuel n :
  (forall s m, (2 * len s + 2 <= n)%nat -> (2 * len s + 2 <= m)%nat -> parse_value n s = parse_value m s)
  /\ (forall s m, (2 * len s + 3 <= n)%nat -> (2 * len s + 3 <= m)%nat -> parse_items n s = parse_items m s)
  /\ (forall acc s m, (2 * len s + 3 <= n)%nat -> (2 * len s + 3 <= m)%nat ->
        parse_members n acc s = parse_members m acc s).
Proof.
  induction n as [|n (IHv & IHi & IHm)]; [split_and!; intros; lia|].
  split_and!; [intros s m Hn Hm|intros s m Hn Hm|intros acc s m Hn Hm]; (destruct m as [|m]; [lia|]).
  - cbn [parse_value]. pose proof (skip_len s) as Hs. set (t := skip s) in *.
    pose proof (skip_len (rest_of t)) as Hu. set (u := skip (rest_of t)) in *.
    destruct (starts (char_is 91) t) eqn:E91; [apply starts_len in E91; rewrite (IHi u m) by lia; done|].
    destruct (starts (char_is 123) t) eqn:E123; [apply starts_len in E123; rewrite (IHm [] u m) by lia; done|done].
  - cbn [parse_items]. rewrite (IHv s m) by lia. destruct (parse_value m s) as [[v y]|] eqn:Ev; [|done].
    apply parse_progress in Ev. pose proof (skip_len y) as Hy.
    destruct (starts (char_is 44) (skip y)) eqn:E; [apply starts_len in E|done]. by rewrite (IHi _ m) by lia.
  - cbn [parse_members]. pose proof (skip_len s) as Hs.
    destruct (starts (char_is 34) (skip s)) eqn:E; [apply starts_len in E|done].
    destruct (parse_chars _) as [[k y]|] eqn:Ec; [|done]. apply chars_len in Ec. pose proof (skip_len y) as Hy.
    destruct (starts (char_is 58) (skip y)) eqn:E58; [apply starts_len in E58|done].
    rewrite (IHv _ m) by lia. destruct (parse_value m _) as [[v z]|] eqn:Ev; [|done].
    apply parse_progress in Ev. pose proof (skip_len z) as Hz.
    destruct (starts (char_is 44) (skip z)) eqn:E44; [apply starts_len in E44|done]. by rewrite (IHm _ _ m) by lia.
Qed.
End Host.
