(* ===== verification/Events.v ===== *)
(** * The events of the kernel ([events.ts])

    Every event type with the members it must have, and the two lists of types that
    no reducer projects. *)

From S2P Require Import Prelude Js.
From stdpp Require Import prelude strings list.

Definition CURRENT_RUNTIME_EVENT_REQUIRED_FIELDS : ordmap (list string) := [
  ("approval.command_replaced", ["interactionId"; "command"]);
  ("approval.granted", ["interactionId"; "toolCallId"; "grant"; "receiptId"; "generation";
      "owner"]);
  ("approval.batch_released", ["interactionId"; "toolCallId"; "grant"; "grantKey";
      "sessionRevision"; "generation"; "commandIdentity"; "owner"; "matches"; "createdAt"]);
  ("approval.session_grants_cleared", ["sessionId"; "sessionRevision"; "generation";
      "clearedAt"]);
  ("approval.rejected", ["interactionId"; "toolCallId"; "generation"; "reason"; "owner"]);
  ("approval.requested", ["interactionId"; "toolCallId"; "approval"; "fullModeBypassEligible";
      "fullModePolicyBypassAllowed"; "owner"]);
  ("auto_review.completed", ["reviewId"; "toolCallId"; "result"; "owner"]);
  ("auto_review.requested", ["reviewId"; "toolCallId"; "toolName"; "reason"; "approval";
      "fullModeBypassEligible"; "fullModePolicyBypassAllowed"; "owner"]);
  ("capability.bindings_issued", ["catalogRevision"; "bindings"]);
  ("capability.execution_failed", ["invocationId"; "error"; "finishedAt"]);
  ("capability.execution_started", ["invocationId"; "startedAt"]);
  ("capability.execution_result_recorded", ["invocationId"; "resultDigest"; "evidenceDigest";
      "recordedAt"; "artifact"]);
  ("capability.execution_succeeded", ["invocationId"; "resultDigest"; "evidenceDigest";
      "finishedAt"]);
  ("capability.execution_unknown", ["invocationId"; "reason"; "finishedAt"]);
  ("capability.filesystem_mutation_ready", ["invocationId"; "attempt"; "intentDigest";
      "operationDigest"; "targetIdentityDigest"; "preimageDigest"; "preimageArtifact";
      "readyDigest"; "readyAt"]);
  ("capability.filesystem_intent_recorded", ["invocationId"; "attempt"; "capabilityRevision";
      "argumentsDigest"; "admissionDigest"; "operationDigest"; "searchBoundaryDigest";
      "lexicalTargetDigest"; "canonicalWorkspaceDigest"; "protectedPathRevision";
      "approvalSummaryDigest"; "effectiveEffectsDigest"; "intentDigest"; "recordedAt"]);
  ("capability.sandbox_preparation_intent_recorded", ["invocationId"; "attempt"; "toolCallId";
      "capabilityId"; "capabilityRevision"; "canonicalWorkspace"; "effectiveEffectsDigest";
      "admissionDigest"; "preparationDigest"; "commandDigest"; "executionBoundaryDigest";
      "resourceSemantics"; "intentDigest"; "recordedAt"]);
  ("capability.sandbox_preparation_ready", ["invocationId"; "attempt"; "intentDigest";
      "preparationDigest"; "commandDigest"; "planDigest"; "backend";
      "backendCapabilitiesDigest"; "enforcement"; "resourceSemantics"; "cleanupDigest";
      "preparationArtifact"; "readyDigest"; "readyAt"]);
  ("capability.sandbox_execution_dispatch_intent_recorded", ["invocationId"; "attempt";
      "readyDigest"; "planDigest"; "dispatchId"; "supervisorNonce"; "dispatchIntentDigest";
      "recordedAt"]);
  ("capability.sandbox_execution_supervisor_started", ["invocationId"; "attempt"; "dispatchId";
      "dispatchIntentDigest"; "supervisorPid"; "processGroupId"; "processStartIdentity";
      "startedAt"]);
  ("capability.sandbox_disposal_started", ["invocationId"; "attempt"; "readyDigest";
      "lifecycleIntentDigest"; "startedAt"]);
  ("capability.sandbox_disposal_completed", ["invocationId"; "attempt"; "readyDigest";
      "lifecycleIntentDigest"; "cleanupAttempt"; "disposed"; "disposedAt"]);
  ("capability.sandbox_preparation_abandonment_started", ["invocationId"; "attempt";
      "intentDigest"; "lifecycleIntentDigest"; "startedAt"]);
  ("capability.sandbox_preparation_abandonment_completed", ["invocationId"; "attempt";
      "intentDigest"; "lifecycleIntentDigest"; "cleanupAttempt"; "disposed"; "disposedAt"]);
  ("capability.subagent_dispatch_intent_recorded", ["invocationId"; "attempt"; "purpose";
      "childInvocationId"; "taskArtifact"; "dispatchIntentDigest"; "recordedAt"]);
  ("capability.subagent_handle_recorded", ["invocationId"; "attempt"; "dispatchIntentDigest";
      "handleArtifact"; "handleIntegrityIdentifier"; "recordedAt"]);
  ("capability.subagent_observation_recorded", ["invocationId"; "attempt";
      "dispatchIntentDigest"; "status"; "observedAt"]);
  ("capability.subagent_cleanup_started", ["invocationId"; "attempt"; "dispatchIntentDigest";
      "cleanupAttempt"; "cleanupKind"; "startedAt"]);
  ("capability.subagent_cleanup_completed", ["invocationId"; "attempt"; "dispatchIntentDigest";
      "cleanupAttempt"; "cleanupKind"; "cleanupConfirmed"; "completedAt"]);
  ("capability.invocation_recorded", ["invocationId"; "toolCallId"; "capabilityId";
      "capabilityRevision"; "argumentsDigest"; "authorizationDigest"; "effectiveEffectsDigest";
      "effectiveEffects"; "recordedAt"]);
  ("capability.reconciliation_resolved", ["invocationId"; "decision"; "reconciledAt"]);
  ("capability.search_completed", ["result"]);
  ("completion.blocked", ["turnId"; "guardVersion"; "code"; "nextAction"; "planning";
      "correctionAttempt"]);
  ("context.compaction_completed", ["compactionId"; "sourceRevision"; "checkpoint"]);
  ("context.compaction_failed", ["compactionId"; "sourceRevision"; "errorKind"; "message";
      "retryable"]);
  ("context.compaction_requested", ["compactionId"; "reason"; "requestedAtRevision";
      "requestedAtTurnId"; "force"; "estimate"]);
  ("context.compaction_reset", ["checkpointId"; "reason"]);
  ("context.hard_block_cleared", ["reason"; "sourceDigest"]);
  ("context.hard_blocked", ["reason"; "sourceDigest"; "message"; "createdAtTurnId"]);
  ("interaction_mode.changed", ["mode"; "source"; "changedAt"]);
  ("model.cache_metrics", ["inputTokens"; "cacheHitTokens"; "cacheMissTokens"; "hitRate"]);
  ("model.context_metrics", ["modelName"; "totalInputTokens"; "status"; "estimate"]);
  ("model.invocation_attempt_started", ["invocationId"; "attempt"; "maxAttempts"]);
  ("model.invocation_completed", ["invocationId"; "responseArtifact"; "finishReason"]);
  ("model.invocation_evidence_unavailable", ["invocationId"; "reasonCode"]);
  ("model.invocation_interrupted", ["invocationId"; "dispatchCertainty"; "reasonCode"]);
  ("model.invocation_prepared", ["invocationId"; "purpose"; "surfaceArtifact";
      "surfaceIntegrityIdentifier"; "routeFingerprint"; "budget"; "limits";
      "preparedStateRevision"; "parentInvocationId"; "parentToolCallId"]);
  ("model.reasoning_completed", ["requestId"; "segmentId"; "text"]);
  ("model.reasoning_delta", ["requestId"; "text"]);
  ("model.requested", ["requestId"]);
  ("model.responded", ["messageId"]);
  ("model.retry", ["invocationId"; "attempt"; "maxAttempts"; "error"; "delayMs"]);
  ("model.text_delta", ["requestId"; "text"]);
  ("network.admission_decided", ["toolCallId"; "decision"]);
  ("plan.approved", ["interactionId"; "toolCallId"; "planId"; "version"; "structuralDigest";
      "executionMode"]);
  ("plan.completed", ["toolCallId"; "taskId"; "plan"; "planId"; "version"; "structuralDigest";
      "completionEvidence"]);
  ("plan.drafted", ["toolCallId"; "taskId"; "plan"; "structuralHash"; "planId"; "version";
      "planSchemaVersion"; "artifact"]);
  ("plan.progress_updated", ["toolCallId"; "taskId"; "plan"; "planId"; "version";
      "structuralDigest"; "completionEvidence"]);
  ("plan.replan_requested", ["toolCallId"; "reason"; "supersedesPlanVersion"]);
  ("plan.review_cancelled", ["interactionId"; "toolCallId"; "planId"; "version";
      "structuralDigest"; "reason"]);
  ("plan.review_requested", ["interactionId"; "toolCallId"; "taskId"; "plan"; "planSummary";
      "planId"; "version"; "structuralDigest"; "artifact"]);
  ("plan.revision_requested", ["interactionId"; "toolCallId"; "planId"; "version";
      "structuralDigest"; "feedback"]);
  ("planning.entered", ["taskId"; "source"]);
  ("planning.exited", ["taskId"]);
  ("provider.action_completed", ["interactionId"; "originatingToolCallId"]);
  ("provider.action_deferred", ["interactionId"; "originatingToolCallId"]);
  ("provider.action_failed", ["interactionId"; "originatingToolCallId"; "failureCode"]);
  ("provider.action_required", ["interactionId"; "providerId"; "action";
      "originatingToolCallId"]);
  ("provider.action_started", ["interactionId"]);
  ("provider.admission_cancelled", ["interactionId"; "providerId"]);
  ("provider.admission_required", ["interactionId"; "providerId"; "source"; "providerStatus";
      "retryable"]);
  ("provider.admission_retry_failed", ["interactionId"; "providerStatus"]);
  ("provider.admission_retry_requested", ["interactionId"]);
  ("provider.admission_satisfied", ["interactionId"; "providerDirectoryRevision"]);
  ("provider.admission_waived", ["interactionId"; "providerId"; "source"; "reason"; "waivedAt"]);
  ("provider.admission_status", ["status"; "reason"]);
  ("provider.readiness_attempt_started", ["readinessKey"; "lifecycleId"; "attempt";
      "maxAttempts"; "startedAt"]);
  ("provider.readiness_failed", ["readinessKey"; "lifecycleId"; "failure"; "dispatchCertainty";
      "failedAt"]);
  ("provider.readiness_intent_recorded", ["readinessKey"; "lifecycleId"; "providerId";
      "routeRevision"; "executionBoundaryDigest"; "requestedAt"; "expiresAt"; "maxAttempts"]);
  ("provider.readiness_succeeded", ["readinessKey"; "lifecycleId"; "providerDirectoryRevision";
      "readyAt"; "expiresAt"]);
  ("provider.readiness_waiter_registered", ["readinessKey"; "lifecycleId"; "waiterId";
      "toolCallId"; "registeredAt"]);
  ("resource_budget.configured", ["runId"; "startedAt"; "deadlineAt"; "budget"]);
  ("resource_budget.dispatch_started", ["reservationId"]);
  ("resource_budget.reconciled", ["reservationId"; "actual"]);
  ("resource_budget.released", ["reservationId"]);
  ("resource_budget.reserved", ["reservation"]);
  ("resource_budget.unknown", ["reservationId"]);
  ("resource_budget.waiter_cancelled", ["invocationId"]);
  ("resource_budget.waiter_enqueued", ["waiter"]);
  ("resource_budget.waiter_promoted", ["invocationId"]);
  ("resource_budget.waiter_timed_out", ["invocationId"]);
  ("run.completed", ["turnId"; "output"]);
  ("run.error", ["message"; "recoverable"]);
  ("runtime.action_ignored", ["reason"]);
  ("runtime.cancellation_diagnostic", ["toolCallId"; "failure"; "unconfirmedDescendantCount"]);
  ("skill.activation_started", ["activation"]);
  ("skill.catalog_refreshed", ["catalogRevision"]);
  ("skill.frame_closed", ["activationId"; "status"; "reason"; "closedAt"]);
  ("session.rewind_requested", ["rewindId"; "commandId"; "sourceSessionId"; "targetSessionId";
      "checkpointId"; "scope"]);
  ("session.rewind_completed", ["rewindId"; "commandId"; "sourceSessionId"; "targetSessionId";
      "checkpointId"; "scope"]);
  ("session.rewind_failed", ["rewindId"; "commandId"; "sourceSessionId"; "targetSessionId";
      "checkpointId"; "scope"; "failureCode"]);
  ("subagent.approval_deferred", ["toolCallId"; "subagentId"; "parentToolCallId"]);
  ("subagent.cache_metrics", ["subagent"]);
  ("subagent.completed", ["subagent"]);
  ("subagent.failed", ["subagent"]);
  ("subagent.recovery_journal_merged", ["toolCallId"; "journal"]);
  ("subagent.started", ["subagent"]);
  ("subagent.step", ["subagent"]);
  ("subagent.suspended", ["toolCallId"; "snapshot"]);
  ("subagent.tool_result", ["subagent"]);
  ("task.cancelled", ["taskId"; "reason"]);
  ("task.completed", ["taskId"; "turnId"]);
  ("task.started", ["taskId"; "userGoal"; "turnId"]);
  ("tool.cancelled", ["toolCallId"; "reason"]);
  ("tool.failed", ["toolCallId"; "failure"]);
  ("tool.file_change", ["toolCallId"; "path"; "kind"]);
  ("tool.finished", ["toolCallId"; "name"; "result"]);
  ("tool.progress", ["toolCallId"; "chunk"; "stream"]);
  ("tool.queued", ["toolCallId"; "name"; "args"]);
  ("tool.rejected", ["toolCallId"; "reason"]);
  ("tool.retry_recorded", ["toolCallId"; "failure"; "outcome"; "recoveryOf"; "retryAttempt"]);
  ("tool.started", ["toolCallId"]);
  ("turn.aborted", ["turnId"; "reason"]);
  ("turn.completed", ["turnId"]);
  ("turn.started", ["turnId"]);
  ("user.command_invoked", ["commandId"; "command"]);
  ("user.message_appended", ["messageId"; "content"]);
  ("user_input.answered", ["interactionId"; "toolCallId"; "answer"]);
  ("user_input.cancelled", ["interactionId"; "toolCallId"; "reason"]);
  ("user_input.requested", ["interactionId"; "toolCallId"; "request"]);
  ("verification.check_completed", ["verificationId"; "result"]);
  ("verification.compensation_completed", ["verificationId"; "outcome"; "summary";
      "completedAt"]);
  ("verification.compensation_requested", ["verificationId"; "requestedAt"]);
  ("verification.completed", ["verificationId"; "outcome"; "completedAt"]);
  ("verification.repair_requested", ["verificationId"; "repairAttempt"; "instruction";
      "requestedAt"]);
  ("verification.replan_requested", ["verificationId"; "instruction"; "requestedAt"]);
  ("verification.requested", ["verificationId"; "mode"; "spec"; "requestedAt"]);
  ("verification.started", ["verificationId"; "attempt"; "startedAt"]);
  ("verification.waived", ["verificationId"; "actor"; "reason"; "waivedAt"])].

Definition CURRENT_RUNTIME_EVENT_TYPE_COUNT : nat := 139.

Definition STATE_DIAGNOSTIC_EVENT_TYPES : list string :=
  ["approval.command_replaced"; "model.cache_metrics"; "model.context_metrics";
   "model.reasoning_completed"; "model.reasoning_delta"; "model.requested"; "model.retry";
   "model.text_delta"; "planning.exited"; "provider.admission_retry_requested";
   "provider.admission_status"; "runtime.action_ignored"; "runtime.cancellation_diagnostic";
   "subagent.cache_metrics"; "subagent.completed"; "subagent.failed"; "subagent.started";
   "subagent.step"; "subagent.tool_result"; "tool.file_change"; "tool.progress";
   "user.command_invoked"].

Definition STATE_DEFAULT_EVENT_TYPES : list string :=
  ["runtime.cancellation_diagnostic"; "session.rewind_requested"; "session.rewind_completed";
   "session.rewind_failed"; "subagent.cache_metrics"; "subagent.completed"; "subagent.failed";
   "subagent.started"; "subagent.step"; "subagent.tool_result"].

(** The check the module makes when it is loaded. *)
Lemma event_types_counted :
  length (okeys CURRENT_RUNTIME_EVENT_REQUIRED_FIELDS) = CURRENT_RUNTIME_EVENT_TYPE_COUNT
  /\ NoDup (okeys CURRENT_RUNTIME_EVENT_REQUIRED_FIELDS).
Proof. split; [reflexivity|]. apply (bool_decide_unpack _). vm_compute. exact I. Qed.
