(* ===== verification/Evidence.v ===== *)
(** * Evidence records ([invariants.ts], the validators the codec uses)

    Filesystem and sandbox records carry a digest of themselves; a validator checks the
    members and recomputes the digest. *)

From S2P Require Import Prelude Js Hash Recovery Completion Governance.
From stdpp Require Import prelude strings list pretty.
From Stdlib Require Import ZArith Lia Ascii.
Open Scope Z_scope.

Definition exactShape (value : obj) (keys : list string) : bool :=
  (length (okeys value) =? length (dedupe keys))%nat
  && forallb (fun key => str_in key keys) (okeys value).

(** [Number.isSafeInteger(v) && v >= lo]. *)
Definition safeFrom (lo : Z) (v : val) : bool :=
  match v with VNum (Fin z) => isSafeInteger z && (lo <=? z) | _ => false end.

(** [/^<prefix>[a-f0-9]{64}$/u.test(s)]. *)
Definition prefixedHex64 (prefix s : string) : bool :=
  String.prefix prefix s
  && isHex64 (String.substring (String.length prefix) (String.length s) s).

Definition isoTimestamp (v : val) : bool := isText v (fun s => is_some (iso_fields s)).

Definition noNul (s : string) : bool :=
  forallb (fun c => negb (nat_of_ascii c =? 0)%nat) (String.list_ascii_of_string s).

Definition validString (v : val) : bool := isText v (fun s => lengthWithin 1 4096 s && noNul s).
Definition validBareDigest (v : val) : bool := isText v isHex64.
Definition validPrefixedDigest (v : val) : bool := isText v (prefixedHex64 "sha256:").

Definition validPrivateArtifact (value : val) (kind : string) : bool :=
  match isRecord value with
  | None => false
  | Some artifact =>
      exactShape artifact ["artifactId"; "kind"; "integrityIdentifier"; "byteLength"]
      && is_str (get artifact "kind") kind
      && prefixedHex64 "pa_" (textOf artifact "artifactId")
      && prefixedHex64 "sha256:" (textOf artifact "integrityIdentifier")
      && safeFrom 1 (get artifact "byteLength")
  end.

Section Digests.
Context `{JsHost}.

(** [stableStringify] of this file: members in the order of [localeCompare]; [undefined] throws. *)
Fixpoint evidenceStringify (value : val) : res string :=
  match value with
  | VArr l =>
      let* items := sequence (List.map evidenceStringify l) in
      Ok ("[" +:+ js_join "," items +:+ "]")
  | VObj o =>
      let* members := sequence (List.map
        (fun '(key, text) => let* t := text in Ok (json_quote key +:+ ":" +:+ t))
        (sort_by (fun a b => match localeCompare (fst a) (fst b) with Gt => false | _ => true end)
           ((fix entries (o : list (string * val)) : list (string * res string) :=
               match o with
               | [] => []
               | (key, x) :: rest => (key, evidenceStringify x) :: entries rest
               end) o))) in
      Ok ("{" +:+ js_join "," members +:+ "}")
  | _ => match json_stringify value with
         | Some s => Ok s
         | None => Throw "value is not JSON serializable."
         end
  end%string.

Definition digestValue (value : val) : res string :=
  let* text := evidenceStringify value in Ok (sha256Hex text).

(** [value.field === `<prefix>${digestValue(unsigned)}`]. *)
Definition signed (value : obj) (field prefix : string) (unsigned : obj) : res bool :=
  let* digest := digestValue (VObj unsigned) in Ok (is_str (get value field) (prefix +:+ digest)).

Definition isValidFilesystemIntent (value : val) : res bool :=
  match isRecord value with
  | None => Ok false
  | Some intent =>
      if exactShape intent
           ["attempt"; "capabilityRevision"; "argumentsDigest"; "admissionDigest"; "operationDigest";
            "searchBoundaryDigest"; "lexicalTargetDigest"; "canonicalWorkspaceDigest";
            "protectedPathRevision"; "approvalSummaryDigest"; "effectiveEffectsDigest";
            "intentDigest"; "recordedAt"]
         && safeFrom 1 (get intent "attempt")
         && validBareDigest (get intent "capabilityRevision")
         && validBareDigest (get intent "argumentsDigest")
         && validBareDigest (get intent "admissionDigest")
         && validPrefixedDigest (get intent "operationDigest")
         && (match get intent "searchBoundaryDigest" with VNull => true | v => validPrefixedDigest v end)
         && validPrefixedDigest (get intent "lexicalTargetDigest")
         && validPrefixedDigest (get intent "canonicalWorkspaceDigest")
         && validString (get intent "protectedPathRevision")
         && validPrefixedDigest (get intent "approvalSummaryDigest")
         && validBareDigest (get intent "effectiveEffectsDigest")
         && validPrefixedDigest (get intent "intentDigest")
         && isoTimestamp (get intent "recordedAt")
      then signed intent "intentDigest" "sha256:" (odelete "intentDigest" intent)
      else Ok false
  end.

Definition isValidFilesystemReady (value : val) : res bool :=
  match isRecord value with
  | None => Ok false
  | Some ready =>
      if exactShape ready
           ["attempt"; "intentDigest"; "operationDigest"; "targetIdentityDigest"; "preimageDigest";
            "preimageArtifact"; "readyDigest"; "readyAt"]
         && safeFrom 1 (get ready "attempt")
         && validPrefixedDigest (get ready "intentDigest")
         && validPrefixedDigest (get ready "operationDigest")
         && validPrefixedDigest (get ready "targetIdentityDigest")
         && (match get ready "preimageDigest" with VNull => true | v => validPrefixedDigest v end)
         && validPrivateArtifact (get ready "preimageArtifact") "filesystem_preimage"
         && validPrefixedDigest (get ready "readyDigest")
         && isoTimestamp (get ready "readyAt")
      then signed ready "readyDigest" "sha256:" (odelete "readyDigest" ready)
      else Ok false
  end.

Definition isValidFilesystemObservation (value : val) : bool :=
  match isRecord value with
  | None => false
  | Some observation =>
      exactShape observation
        ["actorIdentityDigest"; "lexicalTargetDigest"; "canonicalTargetDigest";
         "targetIdentityDigest"; "contentDigest"]
      && validBareDigest (get observation "actorIdentityDigest")
      && validPrefixedDigest (get observation "lexicalTargetDigest")
      && validPrefixedDigest (get observation "canonicalTargetDigest")
      && validPrefixedDigest (get observation "targetIdentityDigest")
      && validPrefixedDigest (get observation "contentDigest")
  end.

Definition isValidSandboxIntent (value : val) : res bool :=
  match isRecord value with
  | None => Ok false
  | Some intent =>
      if exactShape intent
           ["attempt"; "toolCallId"; "capabilityId"; "capabilityRevision"; "canonicalWorkspace";
            "effectiveEffectsDigest"; "admissionDigest"; "preparationDigest"; "commandDigest";
            "executionBoundaryDigest"; "resourceSemantics"; "intentDigest"; "recordedAt"]
         && safeFrom 1 (get intent "attempt")
         && validString (get intent "toolCallId") && validString (get intent "capabilityId")
         && validString (get intent "capabilityRevision")
         && validString (get intent "canonicalWorkspace")
         && validString (get intent "effectiveEffectsDigest")
         && validString (get intent "admissionDigest")
         && validString (get intent "preparationDigest")
         && validString (get intent "commandDigest")
         && validString (get intent "executionBoundaryDigest")
         && is_str (get intent "resourceSemantics") "allocating"
         && validBareDigest (get intent "intentDigest")
         && isoTimestamp (get intent "recordedAt")
      then signed intent "intentDigest" "" (odelete "recordedAt" (odelete "intentDigest" intent))
      else Ok false
  end.

Definition isValidSandboxReady (value : val) : res bool :=
  match isRecord value with
  | None => Ok false
  | Some ready =>
      if exactShape ready
           ["attempt"; "intentDigest"; "preparationDigest"; "commandDigest"; "planDigest"; "backend";
            "backendCapabilitiesDigest"; "enforcement"; "resourceSemantics"; "cleanupDigest";
            "preparationArtifact"; "readyDigest"; "readyAt"]
         && safeFrom 1 (get ready "attempt")
         && validString (get ready "intentDigest") && validString (get ready "preparationDigest")
         && validString (get ready "commandDigest") && validString (get ready "planDigest")
         && str_in (textOf ready "backend") ["seatbelt"; "bubblewrap"; "windows_restricted_token"; "none"]
         && validString (get ready "backendCapabilitiesDigest")
         && str_in (textOf ready "enforcement") ["full"; "partial"]
         && str_in (textOf ready "resourceSemantics") ["pure"; "allocating"]
         && validString (get ready "cleanupDigest")
         && validPrivateArtifact (get ready "preparationArtifact") "sandbox_preparation"
         && validBareDigest (get ready "readyDigest")
         && isoTimestamp (get ready "readyAt")
      then signed ready "readyDigest" "" (odelete "readyAt" (odelete "readyDigest" ready))
      else Ok false
  end.
End Digests.
