(* ===== verification/Invariants.v ===== *)
(** * The state checker ([invariants.ts])

    [assertAgentStateInvariants] reads a whole State 27 snapshot and throws at the first
    fact that does not hold; the host runs it on every decision before it is stored.
    Each [assert...] function of the source is one definition here, a list of conditions
    with their messages.  The parts of the state that are typed records have the members
    and enumerations their type declares, so the source's tests that such a member is
    present, is a string or is one of the listed words hold by construction and are left
    out; everything kept as a JSON object is tested member by member, as in the source. *)

From S2P Require Import Prelude Js Hash State ApprovalQueue Authorization Recovery Normalization Completion Lease Governance Evidence.
From stdpp Require Import prelude strings list pretty.
From Stdlib Require Import ZArith Lia SpecFloat.
Open Scope Z_scope.

(** ** Assertions *)

(** A condition and the message of the error thrown when it does not hold. *)
Definition check : Type := bool * string.

Definition assertAll (checks : list check) : res unit :=
  res_iter (fun c : check => if fst c then Ok tt else Throw (snd c)) checks.

Definition assertUnique (values : list string) (label : string) : res unit :=
  assertAll [((length (dedupe values) =? length values)%nat,
              label +:+ " contains duplicate ids.")].

(** [numberValue(o, f)], a missing object included. *)
Definition numberValue (o : option obj) (f : string) : option num :=
  match o with
  | Some o => match get o f with VNum n => Some n | _ => None end
  | None => None
  end.

Definition stringValue (o : option obj) (f : string) : option string :=
  match o with Some o => stringField o f | None => None end.

Definition recordValue (o : option obj) (f : string) : option obj :=
  match o with Some o => recordField o f | None => None end.

(** [Number.isSafeInteger(n) && n >= lo]. *)
Definition safeNumber (lo : Z) (n : option num) : bool :=
  match n with Some (Fin z) => isSafeInteger z && (lo <=? z) | _ => false end.

Definition numOr (d : Z) (n : option num) : num := default (Fin d) n.

(** [numberValue(a, f) === numberValue(b, g)]. *)
Definition sameNumber (a b : option num) : bool :=
  match a, b with Some x, Some y => neqb x y | None, None => true | _, _ => false end.

(** [words.includes(text ?? '')]. *)
Definition amongWords (text : option string) (words : list string) : bool :=
  str_in (default "" text) words.

Definition safeNatural0 (z : Z) : bool := isSafeInteger z && (0 <=? z).

(** Every member of a dictionary, in the order of its keys. *)
Definition forEntries {A} (m : ordmap A) (f : string -> A -> res unit) : res unit :=
  res_iter (fun '(k, v) => f k v) m.

(** ** The resource budget *)

Definition USAGE_FIELDS : list string := COUNTER_FIELDS ++ GAUGE_FIELDS.

Definition assertUsage (value : option obj) (label source : string) : res unit :=
  match value with
  | None => Throw (label +:+ " shape is invalid.")
  | Some v =>
      let counters := recordField v "counters" in
      let gauges := recordField v "gauges" in
      let amountOf f := match numberValue counters f with
                        | Some n => Some n | None => numberValue gauges f end in
      assertAll
        ([(exactShape v ["counters"; "gauges"; "source"]
           || exactShape v ["counters"; "gauges"; "source"; "estimatorVersion"],
           label +:+ " shape is invalid.");
          (opt_str_eqb (stringField v "source") (Some source), label +:+ " source is invalid.");
          (is_some counters && is_some gauges, label +:+ " counters/gauges are required.")]
         ++ List.map (fun f => (safeNumber 0 (amountOf f), label +:+ " has invalid " +:+ f +:+ "."))
              USAGE_FIELDS
         ++ [if source =s "versioned_upper_bound"
             then (isText (get v "estimatorVersion") str_nonempty,
                   label +:+ " estimator version is required.")
             else (is_undef (get v "estimatorVersion"),
                   label +:+ " actual usage cannot have estimator version.")])
  end%string.

Definition assertUsageWithin (actual upper : option obj) (message : string) : res unit :=
  let within group f :=
    (nleb (numOr 0 (numberValue (recordValue actual group) f))
          (numOr (-1) (numberValue (recordValue upper group) f)), message) in
  assertAll ((is_some actual && is_some upper, message)
             :: List.map (within "counters"%string) COUNTER_FIELDS
             ++ List.map (within "gauges"%string) GAUGE_FIELDS).

(** The object a typed usage record stands for. *)
Definition usageRecord (u : ResourceUsage) : obj :=
  let c := counters u in let g := gauges u in
  [("counters", VObj [("turns", VNum (turns c)); ("modelRequests", VNum (modelRequests c));
                      ("toolInvocations", VNum (toolInvocations c));
                      ("inputTokens", VNum (inputTokens c));
                      ("outputTokens", VNum (outputTokens c));
                      ("artifactBytes", VNum (artifactBytes c))]);
   ("gauges", VObj [("elapsedRunMs", VNum (elapsedRunMs g));
                    ("activeSubagents", VNum (activeSubagents g));
                    ("activeWriters", VNum (activeWriters g));
                    ("activeToolInvocations", VNum (activeToolInvocations g));
                    ("activeShellInvocations", VNum (activeShellInvocations g))]);
   ("source", VStr (usage_source u))]%string
  ++ match estimatorVersion u with
     | Some v => [("estimatorVersion"%string, VStr v)] | None => [] end.

Definition counterLimits : list (string * string) :=
  [("turns", "maxTurns"); ("modelRequests", "maxModelRequests");
   ("toolInvocations", "maxToolInvocations"); ("inputTokens", "maxRunInputTokens");
   ("outputTokens", "maxRunOutputTokens"); ("artifactBytes", "maxArtifactBytes")]%string.

Definition gaugeLimits : list (string * string) :=
  [("elapsedRunMs", "maxRunDurationMs"); ("activeSubagents", "maxConcurrentSubagents");
   ("activeWriters", "maxConcurrentWriters");
   ("activeToolInvocations", "maxConcurrentToolInvocations");
   ("activeShellInvocations", "maxConcurrentShellInvocations")]%string.

(** The usages the checker adds: what was reconciled and the bound of every reservation
    that is still open. *)
Definition checkedUsages (active : AgentResourceBudgetActiveState) : list obj :=
  usageRecord (rb_reconciledUsage active)
  :: omap (fun r => recordField r "executableUpperBound")
       (List.filter (fun r => amongWords (stringField r "state")
                                ["reserved"; "dispatch_started"; "unknown"]%string)
          (ovalues (rb_reservations active))).

(** One of the sums; every field is added, [elapsedRunMs] too. *)
Definition usageSum (usages : list obj) (group f : string) : num :=
  fold_left (fun sum u => nadd sum (numOr 0 (numberValue (recordField u group) f))) usages (Fin 0).

Definition committedUsageWithinBudget (active : AgentResourceBudgetActiveState) : bool :=
  let within group '(f, limit) :=
    nleb (usageSum (checkedUsages active) group f)
         (numOr (-1) (numberValue (Some (rb_budget active)) limit)) in
  forallb (within "counters"%string) counterLimits && forallb (within "gauges"%string) gaugeLimits.

Definition assertBudgetReservation (active : AgentResourceBudgetActiveState)
    (reservationId : string) (r : obj) : res unit :=
  let bound := recordField r "executableUpperBound" in
  let* _ := assertAll
    [(forallb (fun key => str_in key
        ["version"; "reservationId"; "runId"; "invocationId"; "parentReservationId";
         "resourceKind"; "executableUpperBound"; "actual"; "state"]) (okeys r)
      && forallb (fun key => ohas key r)
           ["version"; "reservationId"; "runId"; "invocationId"; "resourceKind";
            "executableUpperBound"; "state"],
      "resource reservation shape is invalid.");
     (is_str (get r "reservationId") reservationId && is_str (get r "runId") (rb_runId active)
      && is_some (stringField r "invocationId"), "resource reservation identity is invalid.");
     (is_num (get r "version") 1 && amongWords (stringField r "resourceKind") RESOURCE_KINDS,
      "resource reservation metadata is invalid.");
     (amongWords (stringField r "state")
        ["reserved"; "dispatch_started"; "reconciled"; "released"; "unknown"],
      "resource reservation state is invalid.")]%string in
  let* _ := assertUsage bound "reservation upper bound" "versioned_upper_bound" in
  let* _ := match recordField r "actual" with
            | Some actual =>
                let* _ := assertUsage (Some actual) "reservation actual usage" "actual" in
                assertUsageWithin (Some actual) bound
                  "reservation actual exceeds executable upper bound."
            | None => Ok tt
            end in
  match opt_nonempty (stringField r "parentReservationId") with
  | Some parent =>
      assertAll [(negb (parent =s reservationId) && ohas parent (rb_reservations active),
                  "resource reservation parent is invalid."%string)]
  | None => Ok tt
  end.

(** [waiter.sequence], when it is a safe natural number not seen before. *)
Definition freshSequence (seen : list Z) (waiter : obj) : option Z :=
  match get waiter "sequence" with
  | VNum (Fin z) => if safeNatural0 z && negb (existsb (Z.eqb z) seen) then Some z else None
  | _ => None
  end.

Definition validPermits (v : val) : bool :=
  match v with
  | VArr [p] => is_str p "tool"
  | VArr [p; q] => is_str p "tool" && is_str q "shell_invocation"
  | _ => false
  end.

Definition assertBudgetWaiter (active : AgentResourceBudgetActiveState) (seen : list Z)
    (waiterId : string) (waiter : obj) : res (list Z) :=
  let* _ := assertAll
    [(exactShape waiter ["version"; "runId"; "invocationId"; "requiredPermits"; "sequence";
                         "enqueuedAt"; "deadlineAt"; "state"], "resource waiter shape is invalid.");
     (is_str (get waiter "invocationId") waiterId && is_str (get waiter "runId") (rb_runId active)
      && is_num (get waiter "version") 1, "resource waiter identity is invalid.")]%string in
  match freshSequence seen waiter with
  | None => Throw "resource waiter sequence is invalid."
  | Some sequence =>
      let* _ := assertAll
        [(validPermits (get waiter "requiredPermits"), "resource waiter permits are invalid.");
         (isoTimestamp (get waiter "enqueuedAt") && isoTimestamp (get waiter "deadlineAt")
          && negb (str_leb (textOf waiter "deadlineAt") (textOf waiter "enqueuedAt"))
          && amongWords (stringField waiter "state") ["waiting"; "promoted"; "cancelled"; "timed_out"],
          "resource waiter timing/state is invalid.")]%string in
      Ok (seen ++ [sequence])
  end.

Definition assertResourceBudgetState (state : AgentState) : res unit :=
  match resourceBudget state with
  | budget_unconfigured => Ok tt
  | budget_active active =>
      let budget := rb_budget active in
      let limit f := numberValue (Some budget) f in
      let* _ := assertAll
        [(str_nonempty (rb_runId active) && isoTimestamp (VStr (rb_startedAt active))
          && isoTimestamp (VStr (rb_deadlineAt active)),
          "active resource budget identity/timestamps are invalid.");
         (is_num (get budget "version") 1, "resource budget version is invalid.");
         (forallb (fun f => safeNumber 1 (limit f)) BUDGET_FIELDS,
          "resource budget limits are invalid.");
         (nleb (numOr 0 (limit "maxConcurrentShellInvocations"))
               (numOr (-1) (limit "maxConcurrentToolInvocations")),
          "shell concurrency exceeds tool concurrency.");
         (nleb (numOr 0 (limit "maxConcurrentWriters"))
               (numOr (-1) (limit "maxConcurrentToolInvocations")),
          "writer concurrency exceeds tool concurrency.")]%string in
      let* _ := assertUsage (Some (usageRecord (rb_reconciledUsage active)))
                  "reconciled usage" "actual" in
      let* _ := assertAll [(safeNatural0 (rb_nextWaiterSequence active),
                            "resource budget waiter sequence is invalid."%string)] in
      let* _ := forEntries (rb_reservations active) (assertBudgetReservation active) in
      let* _ := res_fold (fun seen '(k, w) => assertBudgetWaiter active seen k w)
                  (rb_waiters active) [] in
      assertAll [(committedUsageWithinBudget active,
                  "committed resource usage exceeds the effective budget."%string)]
  end.

Section Checker.
Context `{JsHost}.

(** ** The recovery journal *)

(** The text a failure instance is identified by. *)
Definition failureMaterial (failure : ToolRecoveryFailure) : val :=
  let outcome := Some (rf_outcome failure) in
  VObj [("detailCode", VStr (default "success"
                               (stringValue (recordValue outcome "failure") "detailCode")));
        ("invocationFingerprint", VStr (rf_invocationFingerprint failure));
        ("status", of_opt_str (stringValue outcome "status"));
        ("toolCallId", VStr (rf_toolCallId failure))]%string.

Definition assertRecoveryFailure (failures : ordmap ToolRecoveryFailure) (failureId : string)
  : res unit :=
  let named text := "recovery failure " +:+ failureId +:+ text in
  match oget failureId failures with
  | None => Throw (named " is missing.")
  | Some failure =>
      let* _ := assertAll
        [(rf_failureInstanceId failure =s failureId, named " identity is invalid.");
         (str_nonempty (rf_invocationFingerprint failure),
          named " invocation fingerprint is required.");
         (isToolOutcome (VObj (rf_outcome failure)), named " has an invalid canonical ToolOutcome.")] in
      let* digest := digestValue (failureMaterial failure) in
      let* _ := assertAll
        [(digest =s failureId, named " does not match its canonical material.");
         (safeNatural0 (rf_modelCorrectionAttempts failure), named " correction count is invalid.");
         (safeNatural0 (rf_automaticRetryAttempts failure), named " retry count is invalid.");
         (safeNatural0 (rf_progressRevision failure), named " progress revision is invalid.")] in
      match opt_nonempty (stringValue (recordField (rf_outcome failure) "lineage") "recoveryOf") with
      | None => Ok tt
      | Some recoveryOf =>
          match oget recoveryOf failures with
          | None => Throw (named " lineage is dangling.")
          | Some parent =>
              assertAll
                [(negb (recoveryOf =s failureId), named " lineage is dangling.");
                 (Z.leb (rf_modelCorrectionAttempts parent) (rf_modelCorrectionAttempts failure)
                  && Z.leb (rf_automaticRetryAttempts parent) (rf_automaticRetryAttempts failure),
                  named " attempt counters regress across lineage.")]
          end
      end
  end%string.

Definition assertRecoveryJournal (state : AgentState) : res unit :=
  let* _ := assertAll
    [(match recoveryState state with
      | recovery_normal => true | _ => bool_decide (turn_status (turn state) = State.turn_aborted) end,
      "recovery state must be normal before execution."%string)] in
  res_iter (assertRecoveryFailure (j_failures (toolRecovery state))) (j_order (toolRecovery state)).

(** ** Model invocations *)

Definition MODEL_INVOCATION_KEYS : list string :=
  ["attempts"; "admission"; "budget"; "dispatchCertainty"; "finishReason"; "interruptionReason";
   "invocationId"; "limits"; "modelEvidenceUnavailable"; "parentInvocationId"; "parentToolCallId";
   "preparedStateRevision"; "purpose"; "responseArtifact"; "routeFingerprint"; "status";
   "surfaceArtifact"; "surfaceIntegrityIdentifier"]%string.

Definition validRetiredAdmission (admission : obj) : bool :=
  (js_join "," (sort_strings (okeys admission))
   =s "admitted,payloadClassificationDigest,providerAdmissionRevision,routeIdentityDigest")
  && match get admission "providerAdmissionRevision" with VNull | VStr _ => true | _ => false end
  && prefixedHex64 "sha256:" (textOf admission "routeIdentityDigest")
  && prefixedHex64 "sha256:" (textOf admission "payloadClassificationDigest")
  && match get admission "admitted" with VBool _ => true | _ => false end.

Definition assertModelInvocation (invocationId : string) (invocation : obj) : res unit :=
  let status := stringField invocation "status" in
  let statusIs s := opt_str_eqb status (Some s) in
  let attempts := numberValue (Some invocation) "attempts" in
  let limits := recordField invocation "limits" in
  let model text := "model invocation " +:+ invocationId +:+ text in
  assertAll
    [(forallb (fun key => str_in key MODEL_INVOCATION_KEYS) (okeys invocation),
      model " contains an unknown current-format field.");
     (match recordField invocation "admission" with
      | Some admission => validRetiredAdmission admission | None => true end,
      model " legacy admission evidence is invalid.");
     (is_str (get invocation "invocationId") invocationId, "model invocation identity is invalid.");
     (amongWords status ["prepared"; "dispatching"; "completed"; "interrupted"],
      model " status is invalid.");
     (safeNumber 0 attempts
      && match numberValue limits "maxAttempts" with
         | Some (Fin z) => isSafeInteger z | _ => false end,
      model " attempt evidence is invalid.");
     (nleb (numOr 0 attempts) (numOr (-1) (numberValue limits "maxAttempts")),
      model " exceeds max attempts.");
     (negb (statusIs "prepared") || is_num (get invocation "attempts") 0,
      "prepared " +:+ model " has attempts.");
     (negb (statusIs "dispatching" || statusIs "completed") || nltb (Fin 0) (numOr 0 attempts),
      "dispatched " +:+ model " lacks attempt.");
     (negb (statusIs "completed")
      || opt_str_eqb (stringValue (recordField invocation "responseArtifact") "kind")
                     (Some "model_response"),
      "completed " +:+ model " lacks response artifact.");
     (negb (statusIs "interrupted")
      || amongWords (stringField invocation "dispatchCertainty") ["none"; "attempted"; "unknown"],
      "interrupted " +:+ model " certainty is invalid.")]%string.

Definition assertModelInvocations (state : AgentState) : res unit :=
  forEntries (modelInvocations state) assertModelInvocation.

(** ** Capability invocations *)

(** [o.f !== undefined || ...]. *)
Definition anyDefined (o : obj) (fields : list string) : bool :=
  existsb (fun f => negb (is_undef (get o f))) fields.

Definition sameStringField (a : option obj) (f : string) (b : option obj) (g : string) : bool :=
  opt_str_eqb (stringValue a f) (stringValue b g).

Definition lifecycleHandle (lifecycle : obj) : bool :=
  validPrivateArtifact (get lifecycle "handleArtifact") "subagent_handle"
  && prefixedHex64 "sha256:" (textOf lifecycle "handleIntegrityIdentifier")
  && isoTimestamp (get lifecycle "handleRecordedAt").

Definition lifecycleObservation (lifecycle : obj) : bool :=
  amongWords (stringField lifecycle "observationStatus")
    ["completed"; "failed"; "cancelled"; "exhausted"; "blocked"]%string
  && isoTimestamp (get lifecycle "observedAt").

Definition lifecycleCleanup (lifecycle : obj) : bool :=
  safeFrom 1 (get lifecycle "cleanupAttempt")
  && amongWords (stringField lifecycle "cleanupKind") ["undispatched"; "handle_reconcile"]%string
  && isoTimestamp (get lifecycle "cleanupStartedAt").

Definition assertCapabilityLifecycleEvidence (invocationId : string) (invocation : obj)
    (status : option string) : res unit :=
  match recordField invocation "subagentProviderLifecycle" with
  | None => Ok tt
  | Some lifecycle =>
      let message := ("governed Subagent invocation " +:+ invocationId
                      +:+ " has invalid Provider lifecycle evidence.")%string in
      let handlePresent := anyDefined lifecycle
        ["handleArtifact"; "handleIntegrityIdentifier"; "handleRecordedAt"]%string in
      let observationPresent := anyDefined lifecycle ["observationStatus"; "observedAt"]%string in
      let cleanupPresent := anyDefined lifecycle
        ["cleanupAttempt"; "cleanupKind"; "cleanupStartedAt"; "cleanupConfirmed";
         "cleanupCompletedAt"]%string in
      let hasHandle := lifecycleHandle lifecycle in
      let hasObservation := lifecycleObservation lifecycle in
      let hasCleanup := lifecycleCleanup lifecycle in
      let confirmed := is_true (get lifecycle "cleanupConfirmed") in
      let at_ s := opt_str_eqb (stringField lifecycle "status") (Some s) in
      assertAll (List.map (fun condition => (condition, message))
        [amongWords (stringField invocation "capabilityId") ["builtin:task"; "builtin:activate_skill"]
         && amongWords status ["running"; "succeeded"; "failed"; "unknown"];
         safeFrom 1 (get lifecycle "attempt")
         && sameNumber (numberValue (Some lifecycle) "attempt")
                       (numberValue (Some invocation) "attemptsStarted")
         && amongWords (stringField lifecycle "purpose") ["start"; "resume"]
         && validString (get lifecycle "childInvocationId")
         && prefixedHex64 "sha256:" (textOf lifecycle "dispatchIntentDigest")
         && isoTimestamp (get lifecycle "recordedAt")
         && validPrivateArtifact (get lifecycle "taskArtifact") "subagent_task";
         (negb handlePresent || hasHandle) && (negb observationPresent || hasObservation)
         && (negb cleanupPresent || hasCleanup);
         amongWords (stringField lifecycle "status")
           ["intent_recorded"; "handle_recorded"; "observed"; "cleanup_pending";
            "cleanup_completed"];
         negb (at_ "intent_recorded")
         || (negb handlePresent && negb observationPresent && negb cleanupPresent);
         negb (at_ "handle_recorded")
         || (hasHandle && negb observationPresent && negb cleanupPresent);
         negb (at_ "observed") || (hasHandle && hasObservation && negb cleanupPresent);
         negb (at_ "cleanup_pending") || (hasCleanup && negb confirmed);
         negb (at_ "cleanup_completed")
         || (hasCleanup && confirmed && isoTimestamp (get lifecycle "cleanupCompletedAt"))]%string)
  end.

(** The effect a filesystem observation stands for. *)
Definition expectedEffect (capabilityId : option string) : option string :=
  if opt_str_eqb capabilityId (Some "builtin:read_file") then Some "read"
  else if opt_str_eqb capabilityId (Some "builtin:write_file")
          || opt_str_eqb capabilityId (Some "builtin:edit_file") then Some "write"
  else None%string.

Definition assertFilesystemObservation (invocationId : string) (invocation : obj)
    (status : option string) (intent ready : option obj) (observation : obj) : res unit :=
  let filesystem text := "filesystem invocation " +:+ invocationId +:+ text in
  let* _ := assertAll
    [(isValidFilesystemObservation (VObj observation) && opt_str_eqb status (Some "succeeded")
      && is_some (recordField invocation "artifact") && is_some intent,
      filesystem " observation evidence is invalid.")] in
  match expectedEffect (stringField invocation "capabilityId") with
  | None => Throw (filesystem " has an unsupported observation capability.")
  | Some effect =>
      let* authority := digestValue (VObj [("filesystem", VStr effect); ("network", VStr "none");
                                           ("externalState", VStr "none")]) in
      assertAll
        [(is_str (get invocation "effectiveEffectsDigest") authority,
          filesystem " observation effect authority is invalid.");
         (is_str (get invocation "receiptRequirement")
            (if effect =s "read" then "observation_receipt" else "effect_receipt"),
          filesystem " observation receipt authority is invalid.");
         (sameStringField intent "lexicalTargetDigest" (Some observation) "lexicalTargetDigest",
          filesystem " observation target is inconsistent.");
         if effect =s "read"
         then (negb (is_some ready),
               "filesystem read invocation " +:+ invocationId
               +:+ " cannot carry mutation-ready evidence.")
         else (is_some ready
               && sameNumber (numberValue ready "attempt")
                             (numberValue (Some invocation) "attemptsStarted")
               && sameNumber (numberValue ready "attempt") (numberValue intent "attempt")
               && sameStringField ready "intentDigest" intent "intentDigest"
               && sameStringField ready "operationDigest" intent "operationDigest",
               filesystem " observation lacks mutation-ready authority.")]
  end%string.

(** The evidence of the filesystem tools on one invocation. *)
Definition assertFilesystemEvidence (invocationId : string) (invocation : obj)
    (status : option string) : res unit :=
  let recorded := opt_str_eqb status (Some "recorded") in
  let intent := recordField invocation "filesystemIntent" in
  let ready := recordField invocation "filesystemMutationReady" in
  let own f := sameStringField intent f (Some invocation) f in
  let* _ := match intent with
            | None => Ok tt
            | Some i =>
                let* valid := isValidFilesystemIntent (VObj i) in
                assertAll
                  [(valid && negb recorded
                    && sameNumber (numberValue intent "attempt")
                                  (numberValue (Some invocation) "attemptsStarted")
                    && own "capabilityRevision" && own "argumentsDigest"
                    && own "admissionDigest" && own "effectiveEffectsDigest",
                    "filesystem invocation " +:+ invocationId +:+ " intent evidence is invalid.")]
            end in
  let* _ := match ready with
            | None => Ok tt
            | Some r =>
                let* valid := isValidFilesystemReady (VObj r) in
                assertAll
                  [(valid && is_some intent && negb recorded
                    && sameNumber (numberValue ready "attempt") (numberValue intent "attempt")
                    && sameStringField ready "intentDigest" intent "intentDigest",
                    "filesystem invocation " +:+ invocationId +:+ " ready evidence is invalid.")]
            end in
  match recordField invocation "filesystemObservation" with
  | None => Ok tt
  | Some observation =>
      assertFilesystemObservation invocationId invocation status intent ready observation
  end%string.

(** The evidence of the sandbox preparation on one invocation. *)
Definition assertSandboxEvidence (invocationId : string) (invocation : obj)
    (status : option string) : res unit :=
  let recorded := opt_str_eqb status (Some "recorded") in
  let intent := recordField invocation "sandboxPreparationIntent" in
  let ready := recordField invocation "sandboxPreparationReady" in
  let own f := sameStringField intent f (Some invocation) f in
  let* _ := match intent with
            | None => Ok tt
            | Some i =>
                let* valid := isValidSandboxIntent (VObj i) in
                assertAll
                  [(valid && negb recorded
                    && sameNumber (numberValue intent "attempt")
                                  (numberValue (Some invocation) "attemptsStarted")
                    && own "toolCallId" && own "capabilityId" && own "capabilityRevision"
                    && own "effectiveEffectsDigest" && own "admissionDigest",
                    "sandbox invocation " +:+ invocationId +:+ " intent evidence is invalid.")]
            end in
  match ready with
  | None => Ok tt
  | Some r =>
      let* valid := isValidSandboxReady (VObj r) in
      assertAll
        [(valid && negb recorded && is_some intent
          && sameNumber (numberValue ready "attempt") (numberValue intent "attempt")
          && sameStringField ready "intentDigest" intent "intentDigest",
          "sandbox invocation " +:+ invocationId +:+ " ready evidence is invalid.")]
  end%string.

Definition assertCapabilityInvocation (toolCalls : ordmap AgentToolCallState)
    (invocationId : string) (invocation : obj) : res unit :=
  let capability text := "capability invocation " +:+ invocationId +:+ text in
  let status := stringField invocation "status" in
  let statusIs s := opt_str_eqb status (Some s) in
  let artifactKind := stringValue (recordField invocation "artifact") "kind" in
  let* _ := assertAll
    [(is_str (get invocation "invocationId") invocationId,
      "capability invocation identity is invalid.");
     (amongWords status ["recorded"; "running"; "succeeded"; "failed"; "unknown"],
      capability " status is invalid.")] in
  match opt_nonempty (stringField invocation "receiptRequirement") with
  | None =>
      assertAll [(negb (is_some (recordField invocation "subagentProviderLifecycle")),
                  "governed Subagent invocation " +:+ invocationId
                  +:+ " has invalid Provider lifecycle evidence.")]
  | Some receiptRequirement =>
      let* _ := assertAll
        [(str_in receiptRequirement
            ["observation_receipt"; "effect_receipt"; "control_receipt"; "not_applicable"],
          capability " receipt requirement is invalid.");
         (statusIs "recorded" || safeFrom 1 (get invocation "attemptsStarted"),
          capability " lacks attempt evidence.");
         (validString (get invocation "admissionDigest"), capability " lacks admission digest.");
         (negb (is_some (nonEmptyStringField invocation "resultDigest")
                || is_some (recordField invocation "artifact"))
          || (is_some (stringField invocation "resultDigest")
              && is_some (stringField invocation "evidenceDigest")
              && opt_str_eqb artifactKind (Some "capability_result")),
          capability " result evidence is incomplete.")] in
      let* _ := assertFilesystemEvidence invocationId invocation status in
      let* _ := assertSandboxEvidence invocationId invocation status in
      let* _ := assertCapabilityLifecycleEvidence invocationId invocation status in
      let call := match nonEmptyStringField invocation "toolCallId" with
                  | Some id => oget id toolCalls | None => None end in
      assertAll
        [(negb (statusIs "recorded" || statusIs "running")
          || match call with Some c => negb (terminalToolStatus (tc_status c)) | None => true end,
          capability " outlives terminal Tool.");
         (negb ((statusIs "succeeded" || statusIs "failed")
                && negb (is_some (nonEmptyStringField invocation "reconciliation")))
          || opt_str_eqb artifactKind (Some "capability_result"),
          "terminal " +:+ capability " lacks result artifact.")]
  end%string.

Definition assertCapabilityInvocations (state : AgentState) : res unit :=
  forEntries (cap_invocations (capabilities state))
    (assertCapabilityInvocation (calls (tools state))).

(** ** Provider readiness *)

Definition assertReadiness (readinessKey : string) (readiness : AgentProviderReadinessState)
  : res unit :=
  let attempts := Some (rd_attempts readiness) in
  let maxAttempts := Some (rd_maxAttempts readiness) in
  let* _ := assertAll
    [(rd_readinessKey readiness =s readinessKey, "provider readiness identity is invalid.");
     (safeNumber 1 maxAttempts && safeNumber 0 attempts
      && nleb (rd_attempts readiness) (rd_maxAttempts readiness),
      "provider readiness attempt evidence is invalid.");
     (negb (readiness_is readiness rd_prepared) || neqb (rd_attempts readiness) (Fin 0),
      "prepared provider readiness has attempts.");
     (negb (readiness_is readiness rd_attempted) || nltb (Fin 0) (rd_attempts readiness),
      "attempted provider readiness lacks attempts.");
     (negb (readiness_is readiness rd_failed) || is_some (isRecord (rd_failure readiness)),
      "failed provider readiness lacks failure.")]%string in
  forEntries (rd_waiters readiness) (fun waiterId waiter =>
    assertAll [(rw_waiterId waiter =s waiterId, "provider readiness waiter is invalid."%string)]).

Definition assertProviderReadiness (state : AgentState) : res unit :=
  forEntries (providerReadiness state) assertReadiness.

(** ** Context *)

(** The checkpoint ends at a message of the turn it names. *)
Definition checkpointBoundary (messages : list obj) (checkpoint : obj) : bool :=
  match List.find (fun message => sameStringField (Some message) "messageId"
                                    (Some checkpoint) "coveredThroughMessageId") messages with
  | Some boundary =>
      sameStringField (Some boundary) "turnId" (Some checkpoint) "coveredThroughTurnId"
  | None => false
  end.

Definition savesEnough (checkpoint : obj) : bool :=
  match get checkpoint "inputTokensBefore", get checkpoint "inputTokensAfter" with
  | VNum (Fin before), VNum (Fin after) =>
      isSafeInteger before && isSafeInteger after && (after <? before)
      && (1024 <=? fl (before - after))
  | _, _ => false
  end.

(** [recordValue] gives nothing for an array, so the two tests of [history] hold whatever
    the array holds. *)
Definition assertContextState (state : AgentState) : res unit :=
  let context := context state in
  let history := isRecord (VArr (List.map VObj (history context))) in
  let* _ := assertAll
    [(safeNatural0 (consecutiveLowGain (autoGuard context)),
      "context autoGuard low-gain counter is invalid.");
     (negb (is_some history), "context compaction history is invalid.");
     (nleb (numOr 0 (numberValue history "length")) (Fin 128),
      "context compaction history exceeds its bound.")]%string in
  let* _ := match pendingCompaction context with
            | None => Ok tt
            | Some pending =>
                assertAll
                  [(validString (get pending "compactionId")
                    && safeFrom 0 (get pending "requestedAtRevision")
                    && validString (get pending "requestedAtTurnId"),
                    "pending compaction identity is invalid.");
                   (nleb (Fin 0) (numOr (-1) (numberValue (recordField pending "estimate")
                                                "totalInputTokens")),
                    "pending compaction token estimate is invalid.")]%string
            end in
  match activeCheckpoint context with
  | None => Ok tt
  | Some checkpoint =>
      assertAll
        [(is_num (get checkpoint "version") 1 && validString (get checkpoint "summary")
          && validString (get checkpoint "compactionId")
          && validString (get checkpoint "sourceDigest"),
          "active context checkpoint identity is invalid.");
         (savesEnough checkpoint, "active context checkpoint must save at least 1024 tokens.");
         (checkpointBoundary (messages (transcript state)) checkpoint,
          "active context checkpoint boundary is inconsistent.")]%string
  end.

(** ** Provider admission and skills *)

Definition assertProviderAdmission (state : AgentState) : res unit :=
  let pending := pa_pending (providerAdmission state) in
  let providerIds := List.map (fun entry => textOf entry "providerId") pending in
  let* _ := assertUnique providerIds "pending provider admissions" in
  let* _ := res_iter (fun providerId =>
      assertAll [(negb (ohas providerId (pa_waivers (providerAdmission state))),
                  "provider " +:+ providerId +:+ " cannot be pending and waived.")]) providerIds in
  match interactions state with
  | awaiting_provider_admission interactionId providerId _ _ _ _ =>
      assertAll [(match pending with
                  | first :: _ => is_str (get first "interactionId") interactionId
                                  && is_str (get first "providerId") providerId
                  | [] => false
                  end, "provider admission interaction must match the first pending provider.")]
  | _ =>
      assertAll [((length pending =? 0)%nat,
                  "pending provider admission requires an active admission interaction.")]
  end%string.

Definition assertSkillFrame (tasks : ordmap AgentTaskState) (activationId : string) (frame : obj)
  : res unit :=
  assertAll
    [(is_str (get frame "activationId") activationId && ohas (textOf frame "taskId") tasks,
      "Skill frame " +:+ activationId +:+ " references an invalid task.");
     if is_str (get frame "status") "active"
     then (is_undef (get frame "closedAt") && is_undef (get frame "closeReason"),
           "Active Skill frame " +:+ activationId +:+ " is closed.")
     else (amongWords (stringField frame "status") ["closed"; "invalidated"]
           && validString (get frame "closedAt") && validString (get frame "closeReason"),
           "Closed Skill frame " +:+ activationId +:+ " lacks closure facts.")]%string.

Definition assertSkillFrames (state : AgentState) : res unit :=
  forEntries (sk_frames (skills state)) (assertSkillFrame (tasks state)).

(** ** Verification *)

Definition validCheck (c : obj) : bool :=
  let type_ := textOf c "type" in
  let texts fields := forallb (fun f => validString (get c f)) fields in
  str_in type_ ["file_assertion"; "command"; "schema"; "mcp_read_after_write";
                "external_reference"; "receipt"; "reviewer"]
  && (negb (type_ =s "file_assertion")
      || (texts ["path"] && (negb (is_str (get c "assertion") "sha256_equals")
                             || texts ["expectedDigest"])))
  && (negb (type_ =s "command") || texts ["command"])
  && (negb (type_ =s "mcp_read_after_write")
      || texts ["invocationId"; "capabilityId"; "capabilityRevision"])
  && (negb (type_ =s "external_reference") || texts ["invocationId"])
  && (negb (type_ =s "receipt") || texts ["invocationId"])
  && (negb (type_ =s "reviewer") || texts ["instructions"])%string.

Fixpoint validChecks (ids : list string) (checks : list val) : bool :=
  match checks with
  | [] => true
  | raw :: rest =>
      match isRecord raw with
      | None => false
      | Some c =>
          validString (get c "checkId") && negb (str_in (textOf c "checkId") ids) && validCheck c
          && validChecks (ids ++ [textOf c "checkId"]) rest
      end
  end.

Definition verificationSpecValid (spec : obj) : bool :=
  is_num (get spec "schemaVersion") 1 && validString (get spec "verificationId")
  && validString (get spec "subject")
  && safeNumber 0 (numberValue (recordField spec "repair") "maxAttempts")
  && match get spec "checks" with
     | VArr (c :: rest) => validChecks [] (c :: rest)
     | _ => false
     end.

Definition assertVerificationRecord (verificationId : string) (record : obj) : res unit :=
  let named text := "verification " +:+ verificationId +:+ text in
  let status := stringField record "status" in
  let spec := recordField record "spec" in
  let filled v := match v with VArr (_ :: _) => true | _ => false end in
  assertAll
    [(is_str (get record "verificationId") verificationId, "verification identity is invalid.");
     (sameNumber (numberValue spec "schemaVersion") (Some (Fin 1))
      && opt_str_eqb (stringValue spec "verificationId") (Some verificationId)
      && is_some (stringValue spec "subject"), named " spec is invalid.");
     (filled (get (default [] spec) "checks"), named " needs checks.");
     (safeFrom 0 (get record "attempts") && safeFrom 0 (get record "repairAttempts"),
      named " counters are invalid.");
     (amongWords status ["pending"; "running"; "passed"; "failed"; "inconclusive"; "repair_pending";
                    "waived"; "budget_exhausted"; "compensating"; "compensated"],
      named " status is invalid.");
     ((opt_str_eqb status (Some "budget_exhausted") && filled (get record "diagnostics"))
      || verificationSpecValid (default [] spec), named " spec is invalid.");
     (negb (opt_str_eqb status (Some "waived"))
      || opt_str_eqb (stringValue (recordField record "waiver") "actor") (Some "user"),
      named " waiver is invalid.")]%string.

Definition assertVerificationRecords (state : AgentState) : res unit :=
  forEntries (verification state) assertVerificationRecord.

(** ** Interactions *)

(** The call an interaction is about, and the status that call waits in. *)
Definition interactionCall (i : AgentInteractionState) : option (string * ToolCallStatus) :=
  match i with
  | awaiting_user_input _ id _ => Some (id, t_awaiting_user_input)
  | awaiting_review _ id _ _ _ _ _ _ => Some (id, t_awaiting_review)
  | awaiting_tool_approval _ id _ => Some (id, t_awaiting_approval)
  | awaiting_auto_review _ id _ _ _ => Some (id, t_awaiting_auto_review)
  | idle | awaiting_provider_action _ _ _ _ _ | awaiting_provider_admission _ _ _ _ _ _ => None
  end.

Definition interactionKind (i : AgentInteractionState) : string :=
  match i with
  | idle => "idle"
  | awaiting_user_input _ _ _ => "awaiting_user_input"
  | awaiting_review _ _ _ _ _ _ _ _ => "awaiting_review"
  | awaiting_tool_approval _ _ _ => "awaiting_tool_approval"
  | awaiting_auto_review _ _ _ _ _ => "awaiting_auto_review"
  | awaiting_provider_action _ _ _ _ _ => "awaiting_provider_action"
  | awaiting_provider_admission _ _ _ _ _ _ => "awaiting_provider_admission"
  end.

Definition call_is (s : ToolCallStatus) (call : option AgentToolCallState) : bool :=
  match call with Some c => bool_decide (tc_status c = s) | None => false end.

Definition wrongStatus (i : AgentInteractionState) : string :=
  "interaction " +:+ interactionKind i +:+ " references a tool with the wrong status.".

Definition assertProviderAndInteractionLinks (state : AgentState) : res unit :=
  let i := interactions state in
  let toolCalls := calls (tools state) in
  let* _ := match interactionCall i with
            | Some (toolCallId, required) =>
                if str_nonempty toolCallId then
                  assertAll
                    [(match oget toolCallId toolCalls with
                      | Some call => negb (terminalToolStatus (tc_status call))
                      | None => false
                      end, "interaction references terminal or missing tool "
                           +:+ toolCallId +:+ ".");
                     (call_is required (oget toolCallId toolCalls), wrongStatus i)]
                else Ok tt
            | None => Ok tt
            end in
  match i with
  | awaiting_provider_action _ _ _ originating _ =>
      assertAll
        [(str_nonempty originating && call_is t_failed (oget originating toolCalls),
          "provider action must reference a terminal failed tool.");
         (negb (str_in originating (queue (tools state)))
          && negb (str_in originating (active (tools state))),
          "provider action must not requeue its originating tool.")]
  | _ => Ok tt
  end%string.

(** ** Suspended subagents *)

Definition validOpaquePrivateRef (value : val) (kind : string) : bool :=
  match isRecord value with
  | None => false
  | Some candidate =>
      (js_join "," (sort_strings (okeys candidate))
       =s "artifactId,byteLength,integrityIdentifier,kind")
      && is_str (get candidate "kind") kind
      && prefixedHex64 "pa_" (textOf candidate "artifactId")
      && prefixedHex64 "sha256:" (textOf candidate "integrityIdentifier")
      && safeFrom 1 (get candidate "byteLength")
  end.

(** The keys a blocked tool may have, sorted. *)
Definition blockedToolKeys (blockedTool : obj) : list string :=
  sort_strings ("reasonCode" :: "toolCallId"
                :: (if is_undef (get blockedTool "runtimeToolCallId") then []
                    else ["runtimeToolCallId"%string])
                ++ ["toolName"%string]).

Definition assertSuspendedSubagent (toolCallId : string) (suspended : obj) : res unit :=
  assertAll
    [(is_str (get suspended "storage") "private_artifact_v1"
      && (length (okeys suspended) =? 9)%nat
      && is_some (stringField suspended "subagentId")
      && amongWords (stringField suspended "role") ["explore"; "plan"; "code"; "review"]
      && prefixedHex64 "continuation-" (textOf suspended "continuationId")
      && safeFrom 0 (get suspended "modelInvocationOrdinal")
      && is_some (stringField suspended "parentInvocationId")
      && safeFrom 1 (get suspended "parentAttempt")
      && validOpaquePrivateRef (get suspended "continuationArtifact") "subagent_continuation"
      && match recordField suspended "blockedTool" with
         | None => false
         | Some blockedTool =>
             bool_decide (sort_strings (okeys blockedTool) = blockedToolKeys blockedTool)
             && is_some (stringField blockedTool "toolCallId")
             && is_some (stringField blockedTool "toolName")
             && amongWords (stringField blockedTool "reasonCode")
                  ["SUBAGENT_TOOL_REQUIRES_APPROVAL"; "SUBAGENT_TOOL_REQUIRES_AUTO_REVIEW"]
         end,
      "private suspended subagent " +:+ toolCallId
      +:+ " has invalid continuation evidence.")]%string.

Definition assertSuspendedSubagents (state : AgentState) : res unit :=
  forEntries (suspendedSubagents state) assertSuspendedSubagent.

(** ** The approval queue *)

(** [typeof s === 'string' && s.length > 0]. *)
Definition presentText (s : option string) : bool := is_some (opt_nonempty s).

Definition assertPendingApproval (seen : list Z) (id : string) (pending : AgentPendingApproval)
  : res (list Z) :=
  let owned := is_some (childSubagentId pending) || is_some (parentToolCallId pending)
               || is_some (childToolCallId pending) in
  let* _ := assertAll
    [(str_nonempty id && (interactionId pending =s id), "approval identity is invalid.");
     (str_nonempty (toolCallId pending), "approval tool identity is required.");
     (negb owned || presentText (parentToolCallId pending),
      "subagent approval parent owner identity is required.");
     (negb owned || presentText (childSubagentId pending),
      "subagent approval child identity is required.");
     (negb owned || presentText (childToolCallId pending),
      "subagent approval child tool owner identity is required.");
     (safeNatural0 (State.sequence pending), "approval sequence is invalid.");
     (negb (existsb (Z.eqb (State.sequence pending)) seen), "approval queue sequence is duplicated.");
     (safeNatural0 (generation pending), "approval generation is invalid.");
     (str_nonempty (createdAt pending), "approval createdAt is invalid.")]%string in
  Ok (seen ++ [State.sequence pending]).

Definition assertSessionGrant (grantKey : string) (grant : AgentSessionCommandGrant) : res unit :=
  let i := g_identity grant in
  assertAll
    [(str_nonempty grantKey && (g_grantKey grant =s grantKey), "session grant key is invalid.");
     (bool_decide (g_grant grant = same_command), "session grant kind is invalid.");
     (forallb str_nonempty
        [ci_sessionId i; ci_threadId i; ci_workspace i; ci_canonicalWorkspaceIdentity i; ci_cwd i;
         ci_executor i; ci_environment i; ci_scope i; ci_effects i; ci_parserRevision i;
         ci_commandDigest i; g_createdAt grant], "session grant subject is incomplete.")]%string.

Definition assertApprovalReceipt (id : string) (receipt : AgentApprovalReceipt) : res unit :=
  assertAll
    [(str_nonempty id && (rc_receiptId receipt =s id), "approval receipt identity is invalid.");
     (str_nonempty (rc_interactionId receipt) && str_nonempty (rc_toolCallId receipt),
      "approval receipt binding is invalid.");
     (safeNatural0 (rc_generation receipt), "approval receipt generation is invalid.")]%string.

Definition assertApprovalQueue (state : AgentState) : res unit :=
  let* _ := assertAll
    [(match activeApprovalId state with
      | None => true | Some id => ohas id (pendingApprovals state) end,
      "active approval focus must identify a queued approval.");
     (safeNatural0 (nextQueueSequence state), "approval queue sequence is invalid.");
     (safeNatural0 (approvalGeneration state), "approval generation is invalid.")]%string in
  let* _ := res_fold (fun seen '(id, p) => assertPendingApproval seen id p)
              (pendingApprovals state) [] in
  let* _ := forEntries (sessionCommandGrants state) assertSessionGrant in
  forEntries (approvalReceipts state) assertApprovalReceipt.

(** ** Canonical data *)

(** [undefined] members are canonical here: they are left out when the state is stored.
    The values are trees, so the ancestor set never meets a value again. *)
Fixpoint isCanonicalValue (value : val) : bool :=
  match value with
  | VUndef | VNull | VStr _ | VBool _ => true
  | VNum n => nfinite n
  | VArr l => forallb isCanonicalValue l
  | VObj o =>
      (fix fields (o : list (string * val)) : bool :=
         match o with
         | [] => true
         | (_, x) :: o' => isCanonicalValue x && fields o'
         end) o
  end.

Fixpoint nonCanonicalPath (value : val) (path : string) : option string :=
  match value with
  | VUndef | VNull | VStr _ | VBool _ => None
  | VNum n => if nfinite n then None else Some path
  | VArr l =>
      (fix entries (index : Z) (l : list val) : option string :=
         match l with
         | [] => None
         | x :: l' =>
             match opt_nonempty (nonCanonicalPath x (path +:+ "[" +:+ pretty index +:+ "]")) with
             | Some invalid => Some invalid
             | None => entries (index + 1) l'
             end
         end) 0 l
  | VObj o =>
      (fix fields (o : list (string * val)) : option string :=
         match o with
         | [] => None
         | (key, x) :: o' =>
             match opt_nonempty (nonCanonicalPath x (path +:+ "." +:+ key)) with
             | Some invalid => Some invalid
             | None => fields o'
             end
         end) o
  end%string.

(** A double that is finite and not the negative zero. *)
Definition doubleVal (x : spec_float) : val :=
  match x with
  | S754_finite _ _ _ | S754_zero false => VNum (Fin 0)
  | _ => VNum NaN
  end.

Definition optObj (o : option obj) : val := match o with Some o => VObj o | None => VUndef end.
Definition objs (l : list obj) : val := VArr (List.map VObj l).
Definition dict {A} (f : A -> val) (m : ordmap A) : val := VObj (List.map (fun '(k, v) => (k, f v)) m).

Definition planningData (p : PlanningState) : val :=
  match p with
  | building_without_plan | planning_empty => VUndef
  | planning_draft document _ | replanning_draft document _ _ _
  | plan_awaiting_review document _ _ | plan_executing document _ _
  | plan_completed document _ => VObj [("document"%string, VObj document)]
  | plan_cancelled document _ _ => VObj [("document"%string, optObj document)]
  end.

Definition approvalData (a : AgentToolApprovalPayload) : val :=
  VObj [("plan"%string, default VUndef (ap_plan a))].

Definition interactionData (i : AgentInteractionState) : val :=
  match i with
  | awaiting_user_input _ _ request => VObj [("request", VObj request)]
  | awaiting_review _ _ _ _ _ plan _ artifact =>
      VObj [("plan", VObj plan); ("artifact", optObj artifact)]
  | awaiting_tool_approval _ _ approval | awaiting_auto_review _ _ _ _ approval =>
      VObj [("approval", approvalData approval)]
  | _ => VUndef
  end%string.

Definition budgetData (b : AgentResourceBudgetState) : val :=
  match b with
  | budget_unconfigured => VUndef
  | budget_active b =>
      VObj [("budget", VObj (rb_budget b));
            ("reconciledUsage", VObj (usageRecord (rb_reconciledUsage b)));
            ("reservations", dict VObj (rb_reservations b)); ("waiters", dict VObj (rb_waiters b))]
  end%string.

Definition readinessData (r : AgentProviderReadinessState) : val :=
  VObj [("maxAttempts", VNum (rd_maxAttempts r)); ("attempts", VNum (rd_attempts r));
        ("failure", rd_failure r)]%string.

Definition callData (c : AgentToolCallState) : val :=
  VObj [("args", tc_args c); ("result", optObj (tc_result c)); ("failure", optObj (tc_failure c));
        ("outcome", optObj (tc_outcome c)); ("unknownFields", optObj (tc_unknownFields c));
        ("networkDecisions", match tc_networkDecisions c with
                             | Some l => objs l | None => VUndef end)]%string.

Definition contextData (c : AgentContextState) : val :=
  VObj [("activeCheckpoint", optObj (activeCheckpoint c));
        ("pendingCompaction", optObj (pendingCompaction c));
        ("lastFailure", optObj (lastFailure c)); ("history", objs (history c));
        ("hardBlock", optObj (hardBlock c));
        ("autoGuard", VObj [("recentAutomaticCompactions",
           VArr (List.map (fun e => VObj [("reductionRatio", doubleVal (ge_reductionRatio e))])
                   (recentAutomaticCompactions (autoGuard c))))])]%string.

(** The members of a state that can hold a value that is not canonical: JSON the kernel
    stores as it received it, and numbers that are not integers by type. *)
Definition openData (state : AgentState) : val :=
  VObj
    [("tasks", dict (fun t => VObj [("planning", planningData (task_planning t));
                                    ("planHistory", objs (task_planHistory t))]) (tasks state));
     ("transcript", VObj [("messages", objs (messages (transcript state)))]);
     ("context", contextData (context state));
     ("resourceBudget", budgetData (resourceBudget state));
     ("modelInvocations", dict VObj (modelInvocations state));
     ("providerReadiness", dict readinessData (providerReadiness state));
     ("interactions", interactionData (interactions state));
     ("tools", VObj [("calls", dict callData (calls (tools state)))]);
     ("toolRecovery", VObj [("failures",
        dict (fun f => VObj [("outcome", VObj (rf_outcome f))])
          (j_failures (toolRecovery state)))]);
     ("capabilities", VObj [("bindings", dict VObj (cap_bindings (capabilities state)));
        ("disclosures", dict VObj (cap_disclosures (capabilities state)));
        ("pendingSearch", optObj (cap_pendingSearch (capabilities state)));
        ("loadedCapabilities", dict VObj (cap_loadedCapabilities (capabilities state)));
        ("invocations", dict VObj (cap_invocations (capabilities state)))]);
     ("skills", VObj [("frames", dict VObj (sk_frames (skills state)))]);
     ("verification", VObj [("records", dict VObj (verification state))]);
     ("providerAdmission", VObj [("pending", objs (pa_pending (providerAdmission state)));
        ("waivers", dict VObj (pa_waivers (providerAdmission state)))]);
     ("suspendedSubagents", dict VObj (suspendedSubagents state));
     ("pendingApprovals", dict (fun p => VObj [("approval", approvalData (approval p))])
        (pendingApprovals state))]%string.

(** ** The complete state *)

Definition assertIdentity (state : AgentState) : res unit :=
  let* _ := assertUnique (appliedEventIds state) "applied event ids" in
  assertAll
    [((length (appliedEventIds state) <=? APPLIED_EVENT_ID_TAIL_LIMIT)%nat,
      "applied event id tail exceeds 4096 entries.");
     (match lastAppliedEventId state with
      | Some id => str_in id (appliedEventIds state) | None => true end,
      "lastAppliedEventId must be present in the bounded tail.");
     (str_nonempty (threadId (session state)), "session threadId is required.");
     (str_nonempty (userId (session state)), "session userId is required.");
     (str_nonempty (workspace (session state)), "session workspace is required.");
     (str_nonempty (turnId (turn state)), "turnId is required.");
     (safeNatural0 (turnIndex (turn state)), "turn index is invalid.");
     (negb (bool_decide (turn_status (turn state) = State.turn_aborted))
      || presentText (abortReason (turn state)), "aborted turn reason is required.")]%string.

Definition assertMessage (message : obj) : res unit :=
  assertAll
    [(is_some (stringField message "messageId"), "transcript message identity is required.");
     (is_some (stringField message "turnId"), "transcript message turn identity is required.");
     (safeFrom 0 (get message "ordinal"), "transcript message ordinal is invalid.");
     (isoTimestamp (get message "createdAt"), "transcript message timestamp is invalid.")]%string.

Definition assertCounters (state : AgentState) : res unit :=
  let journal := toolRecovery state in
  let* _ := assertAll
    [(match resourceBudget state with
      | budget_unconfigured => true
      | budget_active b => safeNatural0 (rb_nextWaiterSequence b) end,
      "resource budget shape is invalid.");
     (isHex64 (j_identityKey journal), "recovery identity key is invalid.")]%string in
  let* _ := assertUnique (j_order journal) "tool recovery order" in
  assertAll
    [((length (j_order journal) <=? 128)%nat, "tool recovery order exceeds its bound.");
     (safeNatural0 (j_progressRevision journal), "recovery progress revision is invalid.");
     (safeNatural0 (qg_observedFailures (j_qualityGuard journal)),
      "recovery quality guard is invalid.");
     (safeNatural0 (consecutiveRejects (autoReview state)),
      "auto-review reject count is invalid.");
     (forallb (fun entry => safeNatural0 (rej_timestamp entry) && str_nonempty (rej_toolName entry)
                            && str_nonempty (rej_reason entry))
        (rejectionHistory (autoReview state)), "auto-review rejection history is invalid.")]%string.

Definition assertTask (taskId : string) (task : AgentTaskState) : res unit :=
  assertAll
    [(task_taskId task =s taskId, "task map key does not match task identity.");
     (str_nonempty (task_startedAtTurnId task), "task start turn identity is required.")]%string.

Definition activeTaskIds (state : AgentState) : list string :=
  List.map task_taskId
    (List.filter (fun task => bool_decide (task_status task = task_active)) (ovalues (tasks state))).

Definition assertTasks (state : AgentState) : res unit :=
  let* _ := forEntries (tasks state) assertTask in
  assertAll
    [(match activeTaskId state with Some id => ohas id (tasks state) | None => true end,
      "active task must exist in task map.");
     ((length (activeTaskIds state) <=? 1)%nat, "runtime may contain only one active task.");
     (match activeTaskId state with
      | None => (length (activeTaskIds state) =? 0)%nat
      | Some id => opt_str_eqb (head (activeTaskIds state)) (Some id)
      end, "activeTaskId must identify the unique active task.")]%string.

Definition assertScheduledCall (tools : AgentToolsState) (toolCallId : string) : res unit :=
  match oget toolCallId (calls tools) with
  | None => Throw ("tool " +:+ toolCallId +:+ " is referenced but has no call record.")
  | Some call =>
      assertAll
        [(negb (terminalToolStatus (tc_status call)),
          "terminal tool " +:+ toolCallId +:+ " remains scheduled.");
         (negb (str_in toolCallId (active tools) && str_in toolCallId (queue tools)),
          "tool " +:+ toolCallId +:+ " is queued and active.")]
  end%string.

Definition assertCall (failures : ordmap ToolRecoveryFailure) (call : AgentToolCallState)
  : res unit :=
  assertAll
    [(str_nonempty (tc_toolCallId call) && str_nonempty (tc_name call),
      "tool call identity is invalid.");
     (match tc_outcome call with Some outcome => isToolOutcome (VObj outcome) | None => true end,
      "tool " +:+ tc_toolCallId call +:+ " has an invalid canonical ToolOutcome.");
     (match opt_nonempty (tc_recoveryOf call) with
      | Some failureId => ohas failureId failures || terminalToolStatus (tc_status call)
      | None => true
      end, "tool " +:+ tc_toolCallId call +:+ " recovery lineage is missing.")]%string.

Definition assertTools (state : AgentState) : res unit :=
  let* _ := res_iter (assertScheduledCall (tools state))
              (queue (tools state) ++ active (tools state)) in
  res_iter (assertCall (j_failures (toolRecovery state))) (ovalues (calls (tools state))).

Definition assertInteraction (state : AgentState) : res unit :=
  match interactionCall (interactions state) with
  | Some (toolCallId, required) =>
      if str_nonempty toolCallId then
        let call := oget toolCallId (calls (tools state)) in
        assertAll
          [(is_some call, "interaction references missing tool " +:+ toolCallId +:+ ".");
           (call_is required call, wrongStatus (interactions state))]
      else Ok tt
  | None => Ok tt
  end%string.

Definition assertCanonical (state : AgentState) : res unit :=
  let data := openData state in
  let invalidPath := nonCanonicalPath data "state" in
  assertAll
    [(isCanonicalValue data && negb (is_some invalidPath),
      "state contains non-canonical or executable data at "
      +:+ default "undefined" invalidPath +:+ ".")]%string.

Definition assertAgentStateInvariants (state : AgentState) : res unit :=
  let* _ := assertAll
    [(Z.eqb (schemaVersion state) RUNTIME_STATE_SCHEMA_VERSION
      && (formatEpoch state =s RUNTIME_STATE_FORMAT_EPOCH),
      "runtime state format must match State 27 and the current epoch.");
     (safeNatural0 (revision state), "revision is invalid.");
     (safeNatural0 (interactionModeRevision state), "interaction mode revision is invalid.")
    ]%string in
  let* _ := assertApprovalQueue state in
  let* _ := assertIdentity state in
  let* _ := assertResourceBudgetState state in
  let* _ := assertRecoveryJournal state in
  let* _ := assertModelInvocations state in
  let* _ := assertCapabilityInvocations state in
  let* _ := assertProviderReadiness state in
  let* _ := assertContextState state in
  let* _ := assertVerificationRecords state in
  let* _ := assertProviderAdmission state in
  let* _ := assertSkillFrames state in
  let* _ := assertProviderAndInteractionLinks state in
  let* _ := assertSuspendedSubagents state in
  let* _ := res_iter assertMessage (messages (transcript state)) in
  let* _ := assertCounters state in
  let* _ := assertUnique (queue (tools state)) "tool queue" in
  let* _ := assertUnique (active (tools state)) "active tools" in
  let* _ := assertTasks state in
  let* _ := assertTools state in
  let* _ := assertInteraction state in
  assertCanonical state.
End Checker.
