(* ===== verification/Codec.v ===== *)
(** * The event codec ([codec.ts])

    What an event must look like to be read ([assertCurrentRuntimeEvent]) and to be
    written ([assertCurrentRuntimeEventForWrite]).  One definition per group of cases;
    a case is the list of its checks, and the first that fails is the error. *)

From S2P Require Import Prelude Js Hash Recovery Completion Normalization Lifecycle Governance JsonParse Events Evidence.
From stdpp Require Import prelude strings list pretty.
From Stdlib Require Import ZArith Lia Ascii.
Open Scope Z_scope.

(** ** Checks *)

Fixpoint firstError (checks : list (res unit)) : res unit :=
  match checks with
  | [] => Ok tt
  | check :: rest => let* _ := check in firstError rest
  end.

(** [if (!condition) throw new Error(message)]. *)
Definition ensure (condition : bool) (message : string) : res unit :=
  if condition then Ok tt else Throw message.

Definition nonEmptyText (v : val) : bool := isText v str_nonempty.

Definition requireNonEmptyString (event : obj) (field : string) : res unit :=
  ensure (nonEmptyText (get event field))
    ("Runtime event " +:+ js_string (get event "type") +:+ " requires " +:+ field +:+ ".").

Definition exactEventKeys (event : obj) (fields : list string) : res unit :=
  ensure (exactShape event ("type" :: fields))
    ("Runtime event " +:+ js_string (get event "type") +:+ " has an invalid shape.").

Definition requiredFields (type : string) : list string :=
  default [] (oget type CURRENT_RUNTIME_EVENT_REQUIRED_FIELDS).

(** The required fields, and an optional one when it is given. *)
Definition withOptional (event : obj) (type : string) (optional : list string) : list string :=
  requiredFields type ++ List.filter (fun f => negb (is_undef (get event f))) optional.

Definition validPrivateRef (value : val) (kind : string) : bool :=
  match isRecord value with
  | None => false
  | Some o =>
      bool_decide (sort_strings (okeys o) = ["artifactId"; "byteLength"; "integrityIdentifier"; "kind"])
      && is_str (get o "kind") kind
      && isText (get o "artifactId") (prefixedHex64 "pa_")
      && isText (get o "integrityIdentifier") (prefixedHex64 "sha256:")
      && safeFrom 1 (get o "byteLength")
  end.

Definition COMMAND_IDENTITY : list string :=
  ["sessionId"; "threadId"; "workspace"; "canonicalWorkspaceIdentity"; "cwd"; "executor";
   "environment"; "scope"; "effects"; "parserRevision"; "commandDigest"].

Definition validApprovalCommandIdentity (value : val) : bool :=
  match isRecord value with
  | None => false
  | Some o =>
      forallb (fun field => nonEmptyText (get o field)) COMMAND_IDENTITY
      && forallb (fun field => str_in field COMMAND_IDENTITY || (field =s "executorRevision")) (okeys o)
      && (is_undef (get o "executorRevision") || nonEmptyText (get o "executorRevision"))
  end.

Definition validInteractionOwner (value : val) : bool :=
  match isRecord value with
  | None => false
  | Some o =>
      match get o "kind" with
      | VStr kind =>
          if kind =s "root_tool" then
            (length (okeys o) =? 2)%nat && forallb (fun key => str_in key ["kind"; "toolCallId"]) (okeys o)
            && nonEmptyText (get o "toolCallId")
          else
            (kind =s "subagent_tool") && (length (okeys o) =? 4)%nat
            && forallb (fun key => str_in key ["kind"; "toolCallId"; "subagentId"; "parentToolCallId"]) (okeys o)
            && nonEmptyText (get o "toolCallId") && nonEmptyText (get o "subagentId")
            && nonEmptyText (get o "parentToolCallId")
      | _ => false
      end
  end.

Definition validToolPresentation (value : val) : bool :=
  isText value (fun s => str_in s ["exploration"; "standalone"; "hidden"]).

Definition controlChar (c : ascii) : bool :=
  let n := nat_of_ascii c in (n <=? 31)%nat || ((127 <=? n)%nat && (n <=? 159)%nat).

Definition validToolDisplayLabel (value : val) : bool :=
  isText value (fun s => lengthWithin 1 512 s
                         && forallb (fun c => negb (controlChar c)) (String.list_ascii_of_string s)).

(** An absent member, or one that passes the test. *)
Definition absentOr (test : val -> bool) (v : val) : bool := is_undef v || test v.

Definition anyText (v : val) : bool := isText v (fun _ => true).

Definition stableIdentity (o : obj) : bool :=
  nonEmptyText (get o "stepId") && nonEmptyText (get o "toolCallId").

Definition validSubagentStepPayload (value : val) (allowLegacyIdentity : bool) : bool :=
  match isRecord value with
  | None => false
  | Some o =>
      (allowLegacyIdentity || stableIdentity o)
      && nonEmptyText (get o "id") && nonEmptyText (get o "toolName")
      && is_some (isRecord (get o "toolArgs"))
      && absentOr nonEmptyText (get o "modelInvocationId")
      && absentOr (safeFrom 0) (get o "durationMs")
  end.

Definition validSubagentToolResultPayload (value : val) (allowLegacyIdentity : bool) : bool :=
  match isRecord value with
  | None => false
  | Some o =>
      (allowLegacyIdentity || stableIdentity o)
      && nonEmptyText (get o "id") && nonEmptyText (get o "toolName")
      && isText (get o "status") (fun s => str_in s ["completed"; "failed"; "cancelled"])
      && negb (ohas "ok" o)
      && absentOr anyText (get o "summary")
      && absentOr (safeFrom 0) (get o "totalLines")
      && absentOr (safeFrom 0) (get o "toolTokenCount")
      && absentOr (safeFrom 0) (get o "durationMs")
      && absentOr anyText (get o "failureReason")
  end.

Definition assertPositiveAttempt (event : obj) : res unit :=
  ensure (safeFrom 1 (get event "attempt"))
    ("Runtime event " +:+ js_string (get event "type") +:+ " requires a positive attempt.").

(** [/^<prefix>[0-9a-f]{64}$/u.test(String(v))]. *)
Definition textIsDigest (prefix : string) (v : val) : bool := prefixedHex64 prefix (js_string v).

Definition oneOf (v : val) (l : list string) : bool := str_in (js_string v) l.

Definition validBoolean (v : val) : bool := match v with VBool _ => true | _ => false end.

Section Codec.
Context `{JsHost}.

Definition validTimestamp (v : val) : bool := isText v (fun s => nfinite (dateParse s)).

(** ** Cases *)

Definition checkPresentation (e : obj) (type : string) : res unit :=
  firstError
    [ensure (absentOr validToolPresentation (get e "presentation"))
       (type +:+ " presentation classification is invalid.");
     ensure (absentOr validToolDisplayLabel (get e "displayLabel")) (type +:+ " display label is invalid.")].

Definition checkRewind (e : obj) (type : string) : res unit :=
  firstError (exactEventKeys e (requiredFields type)
    :: List.map (requireNonEmptyString e)
         ["rewindId"; "commandId"; "sourceSessionId"; "targetSessionId"; "checkpointId"]
    ++ [ensure (isText (get e "scope") (fun s => str_in s
                  ["conversation_only"; "conversation_and_workspace"; "code_only"]))
          (type +:+ " scope is invalid.");
        ensure (negb (type =s "session.rewind_failed")
                || isText (get e "failureCode") (fun s => str_in s
                     ["checkpoint_unavailable"; "execution_failed"]))
          "session.rewind_failed failureCode is invalid."]).

(** The streams of the model and the status of a provider. *)
Definition checkTexts (e : obj) (type : string) (texts optional : list string) : res unit :=
  firstError (exactEventKeys e (withOptional e type optional)
    :: List.map (requireNonEmptyString e)
         (texts ++ List.filter (fun f => negb (is_undef (get e f))) optional)).

Definition checkDecision (e : obj) (type : string) : res unit :=
  let granted := type =s "approval.granted" in
  firstError
    [requireNonEmptyString e "interactionId"; requireNonEmptyString e "toolCallId";
     ensure (validInteractionOwner (get e "owner")) (type +:+ " owner binding is invalid.");
     ensure (negb granted || is_str (get e "grant") "approve_once")
       "approval.granted may only issue approve_once.";
     ensure (safeFrom 0 (get e "generation") && (negb granted || nonEmptyText (get e "receiptId")))
       (type +:+ " receipt/generation is invalid.")].

(** One match of a release; [seen] are the receipts before it. *)
Definition validMatch (seen : list string) (value : val) : bool :=
  match isRecord value with
  | None => false
  | Some o =>
      exactShape o (["interactionId"; "toolCallId"; "receiptId"; "generation"; "owner"]
        ++ (if is_undef (get o "bindingDigest") then [] else ["bindingDigest"]))
      && nonEmptyText (get o "interactionId") && nonEmptyText (get o "toolCallId")
      && nonEmptyText (get o "receiptId") && negb (str_in (textOf o "receiptId") seen)
      && safeFrom 0 (get o "generation") && validInteractionOwner (get o "owner")
      && absentOr nonEmptyText (get o "bindingDigest")
  end.

Fixpoint checkMatches (seen : list string) (matches : list val) : res unit :=
  match matches with
  | [] => Ok tt
  | value :: rest =>
      let* _ := ensure (validMatch seen value) "approval.batch_released match is invalid." in
      checkMatches (textOf (jsonRecord value) "receiptId" :: seen) rest
  end.

Definition validReviewIds (v : val) : bool :=
  match v with
  | VArr l => forallb nonEmptyText l
              && (length (dedupe (List.map js_string l)) =? length l)%nat
  | _ => false
  end.

Definition checkBatchRelease (e : obj) : res unit :=
  firstError
    [exactEventKeys e (withOptional e "approval.batch_released" ["cancelledReviewIds"]);
     requireNonEmptyString e "interactionId"; requireNonEmptyString e "toolCallId";
     requireNonEmptyString e "grantKey";
     ensure (validInteractionOwner (get e "owner")) "approval.batch_released owner binding is invalid.";
     ensure (is_str (get e "grant") "same_command") "approval.batch_released requires same_command.";
     ensure (validApprovalCommandIdentity (get e "commandIdentity"))
       "approval.batch_released command identity is invalid.";
     ensure (safeFrom 0 (get e "sessionRevision")) "approval.batch_released sessionRevision is invalid.";
     ensure (safeFrom 0 (get e "generation")) "approval.batch_released generation is invalid.";
     ensure (match get e "matches" with VArr (_ :: _) => true | _ => false end)
       "approval.batch_released matches are required.";
     checkMatches [] (default [] (arrayField e "matches"));
     ensure (absentOr validReviewIds (get e "cancelledReviewIds"))
       "approval.batch_released cancelled review identities are invalid.";
     ensure (validTimestamp (get e "createdAt")) "approval.batch_released createdAt is invalid."].

Definition checkRequest (e : obj) (type : string) : res unit :=
  firstError
    [ensure (absentOr validApprovalCommandIdentity (get e "commandIdentity"))
       (type +:+ " command identity is invalid.");
     ensure (validBoolean (get e "fullModeBypassEligible")
             && validBoolean (get e "fullModePolicyBypassAllowed"))
       (type +:+ " Full-mode eligibility is invalid.");
     ensure (validInteractionOwner (get e "owner")) (type +:+ " owner binding is invalid.")].

Definition checkGrantsCleared (e : obj) : res unit :=
  firstError
    [exactEventKeys e (requiredFields "approval.session_grants_cleared");
     requireNonEmptyString e "sessionId";
     ensure (safeFrom 0 (get e "sessionRevision"))
       "approval.session_grants_cleared sessionRevision is invalid.";
     ensure (safeFrom 0 (get e "generation")) "approval.session_grants_cleared generation is invalid.";
     ensure (validTimestamp (get e "clearedAt")) "approval.session_grants_cleared clearedAt is invalid."].

Definition checkReviewCompleted (e : obj) : res unit :=
  firstError
    [ensure (validInteractionOwner (get e "owner")) "auto_review.completed owner binding is invalid.";
     ensure (is_some (isRecord (get e "result"))) "auto_review.completed result is invalid.";
     ensure (match get (jsonRecord (get e "result")) "escalatedToUser" with
             | VUndef | VBool true => true | _ => false end)
       "auto_review.completed escalation disposition is invalid."].

Definition checkDeferred (e : obj) : res unit :=
  firstError
    [exactEventKeys e (withOptional e "subagent.approval_deferred" ["interactionId"; "approvalState"]);
     requireNonEmptyString e "toolCallId"; requireNonEmptyString e "subagentId";
     requireNonEmptyString e "parentToolCallId";
     if is_undef (get e "interactionId") then Ok tt else requireNonEmptyString e "interactionId";
     ensure (absentOr (fun v => oneOf v ["queued_auto_review"; "auto_reviewing"; "queued_user_approval";
                                         "awaiting_user"; "authorized_queued"]) (get e "approvalState"))
       "subagent.approval_deferred approval state is invalid."].

Definition validLegacyAdmission (v : val) : bool :=
  match isRecord v with
  | None => false
  | Some o =>
      (js_join "," (sort_strings (okeys o))
       =s "admitted,payloadClassificationDigest,providerAdmissionRevision,routeIdentityDigest")
      && (match get o "providerAdmissionRevision" with VNull | VStr _ => true | _ => false end)
      && textIsDigest "sha256:" (get o "routeIdentityDigest")
      && textIsDigest "sha256:" (get o "payloadClassificationDigest")
      && validBoolean (get o "admitted")
  end.

Definition checkPrepared (e : obj) : res unit :=
  firstError
    [exactEventKeys e (withOptional e "model.invocation_prepared" ["admission"]);
     requireNonEmptyString e "invocationId"; requireNonEmptyString e "routeFingerprint";
     ensure (absentOr validLegacyAdmission (get e "admission"))
       "Legacy model invocation admission evidence is invalid."].

(** [const { type: _type, invocationId: _invocationId, ...record } = value]. *)
Definition recordOf (e : obj) : val := VObj (odelete "invocationId" (odelete "type" e)).

Definition ensureRes (condition : res bool) (message : string) : res unit :=
  let* ok := condition in ensure ok message.

Definition checkSigned (e : obj) (type : string) (condition : res bool) (message : string) : res unit :=
  firstError [exactEventKeys e (requiredFields type); requireNonEmptyString e "invocationId";
              ensureRes condition message].

Definition checkMutationReady (e : obj) : res unit :=
  firstError
    [exactEventKeys e (requiredFields "capability.filesystem_mutation_ready");
     requireNonEmptyString e "invocationId";
     ensure (match isRecord (get e "preimageArtifact") with
             | Some artifact => safeFrom 0 (get artifact "byteLength")
             | None => true end) "Invalid Artifact byteLength.";
     ensure (validTimestamp (get e "readyAt")) "Invalid readyAt.";
     ensureRes (isValidFilesystemReady (recordOf e)) "Invalid ready intentDigest."].

Definition checkSupervised (e : obj) (type : string) : res unit :=
  firstError
    ([exactEventKeys e (requiredFields type); requireNonEmptyString e "invocationId";
      requireNonEmptyString e "dispatchId"; requireNonEmptyString e "dispatchIntentDigest";
      assertPositiveAttempt e]
     ++ (if type =s "capability.sandbox_execution_dispatch_intent_recorded" then
           List.map (requireNonEmptyString e) ["readyDigest"; "planDigest"; "supervisorNonce"; "recordedAt"]
           ++ [ensure (validTimestamp (get e "recordedAt"))
                 "Sandbox dispatch intent requires a valid timestamp."]
         else
           List.map (requireNonEmptyString e) ["processStartIdentity"; "startedAt"]
           ++ [ensure (safeFrom 1 (get e "supervisorPid")
                       && sameValue (get e "processGroupId") (get e "supervisorPid")
                       && validTimestamp (get e "startedAt"))
                 "Sandbox supervisor start evidence is invalid."])).

(** Disposal and abandonment; [digest] names what is disposed of. *)
Definition checkDisposal (e : obj) (type digest : string) (completed : bool) (message : string) : res unit :=
  let timestamp := if completed then "disposedAt" else "startedAt" in
  firstError
    [exactEventKeys e (requiredFields type); requireNonEmptyString e "invocationId";
     requireNonEmptyString e digest; requireNonEmptyString e "lifecycleIntentDigest";
     ensure (safeFrom 1 (get e "attempt")) ("Runtime event " +:+ type +:+ " requires a positive attempt.");
     requireNonEmptyString e timestamp;
     ensure (validTimestamp (get e timestamp))
       ("Runtime event " +:+ type +:+ " requires a valid timestamp.");
     ensure (negb completed || (validBoolean (get e "disposed") && safeFrom 1 (get e "cleanupAttempt")))
       message].

(** The evidence of a subagent: the digest of its dispatch and what each event adds. *)
Definition checkSubagent (e : obj) (type : string) (texts : list string) (evidence : bool)
    (message : string) : res unit :=
  firstError
    ([exactEventKeys e (requiredFields type); requireNonEmptyString e "invocationId";
      assertPositiveAttempt e]
     ++ List.map (requireNonEmptyString e) texts
     ++ [ensure (safeFrom 1 (get e "attempt") && textIsDigest "sha256:" (get e "dispatchIntentDigest")
                 && evidence) message]).

Definition checkDispatchIntent (e : obj) (type : string) : res unit :=
  checkSubagent e type ["childInvocationId"; "dispatchIntentDigest"; "recordedAt"]
    (oneOf (get e "purpose") ["start"; "resume"] && validPrivateRef (get e "taskArtifact") "subagent_task"
     && validTimestamp (get e "recordedAt")) "Subagent dispatch intent evidence is invalid.".

Definition checkHandle (e : obj) (type : string) : res unit :=
  checkSubagent e type ["dispatchIntentDigest"; "handleIntegrityIdentifier"; "recordedAt"]
    (validPrivateRef (get e "handleArtifact") "subagent_handle"
     && textIsDigest "sha256:" (get e "handleIntegrityIdentifier") && validTimestamp (get e "recordedAt"))
    "Subagent handle-ready evidence is invalid.".

Definition checkObservation (e : obj) (type : string) : res unit :=
  checkSubagent e type ["dispatchIntentDigest"; "observedAt"]
    (oneOf (get e "status") ["completed"; "failed"; "cancelled"; "exhausted"; "blocked"]
     && validTimestamp (get e "observedAt")) "Subagent observation evidence is invalid.".

Definition checkCleanup (e : obj) (type : string) (completed : bool) : res unit :=
  let timestamp := if completed then "completedAt" else "startedAt" in
  checkSubagent e type ["dispatchIntentDigest"; "cleanupKind"; timestamp]
    (safeFrom 1 (get e "cleanupAttempt") && oneOf (get e "cleanupKind") ["undispatched"; "handle_reconcile"]
     && validTimestamp (get e timestamp) && (negb completed || validBoolean (get e "cleanupConfirmed")))
    "Subagent cleanup evidence is invalid.".

Definition validSuspension (s : obj) : bool :=
  bool_decide (sort_strings (okeys s)
    = sort_strings ["blockedTool"; "continuationArtifact"; "continuationId"; "modelInvocationOrdinal";
                    "parentAttempt"; "parentInvocationId"; "role"; "storage"; "subagentId"])
  && is_str (get s "storage") "private_artifact_v1"
  && nonEmptyText (get s "subagentId")
  && validPrivateRef (get s "continuationArtifact") "subagent_continuation"
  && textIsDigest "continuation-" (get s "continuationId")
  && oneOf (get s "role") ["explore"; "plan"; "code"; "review"]
  && safeFrom 0 (get s "modelInvocationOrdinal")
  && nonEmptyText (get s "parentInvocationId")
  && safeFrom 1 (get s "parentAttempt")
  && is_some (isRecord (get s "blockedTool")).

Definition validBlockedTool (b : obj) : bool :=
  (js_join "," (sort_strings (okeys b))
   =s js_join "," (sort_strings
        (["reasonCode"] ++ (if is_undef (get b "runtimeToolCallId") then [] else ["runtimeToolCallId"])
         ++ ["toolCallId"; "toolName"])))
  && oneOf (get b "reasonCode") ["SUBAGENT_TOOL_REQUIRES_APPROVAL"; "SUBAGENT_TOOL_REQUIRES_AUTO_REVIEW"]
  && nonEmptyText (get b "toolCallId") && nonEmptyText (get b "toolName").

Definition checkSuspended (e : obj) : res unit :=
  let snapshot := jsonRecord (get e "snapshot") in
  firstError
    [exactEventKeys e (requiredFields "subagent.suspended"); requireNonEmptyString e "toolCallId";
     ensure (is_some (isRecord (get e "snapshot")) && validSuspension snapshot)
       "Private Subagent suspension evidence is invalid.";
     ensure (validBlockedTool (jsonRecord (get snapshot "blockedTool")))
       "Private Subagent blocked-tool evidence is invalid."].

Definition checkPlanDecision (e : obj) (type : string) : res unit :=
  firstError
    (List.map (requireNonEmptyString e) ["interactionId"; "toolCallId"; "planId"; "structuralDigest"]
     ++ [ensure (match get e "version" with VNum (Fin z) => 1 <=? z | _ => false end)
           ("Runtime event " +:+ type +:+ " requires a positive version.")]).

(** ** The [switch] *)

Definition checkCase (e : obj) (type : string) : res unit :=
  let isType t := type =s t in
  if isType "session.rewind_requested" || isType "session.rewind_completed" || isType "session.rewind_failed"
  then checkRewind e type
  else if isType "model.text_delta" then checkTexts e type ["requestId"; "text"] []
  else if isType "model.reasoning_delta" then checkTexts e type ["requestId"; "text"] ["segmentId"]
  else if isType "model.reasoning_completed" then checkTexts e type ["requestId"; "segmentId"; "text"] []
  else if isType "provider.admission_status" then checkTexts e type ["status"; "reason"] ["admissionRevision"]
  else if isType "approval.granted" || isType "approval.rejected" then checkDecision e type
  else if isType "approval.batch_released" then checkBatchRelease e
  else if isType "approval.requested" || isType "auto_review.requested" then checkRequest e type
  else if isType "approval.session_grants_cleared" then checkGrantsCleared e
  else if isType "auto_review.completed" then checkReviewCompleted e
  else if isType "subagent.step"
  then ensure (validSubagentStepPayload (get e "subagent") true) "subagent.step payload is invalid."
  else if isType "subagent.tool_result"
  then ensure (validSubagentToolResultPayload (get e "subagent") true)
         "subagent.tool_result payload is invalid."
  else if isType "subagent.approval_deferred" then checkDeferred e
  else if isType "capability.execution_succeeded"
  then ensure (absentOr isValidFilesystemObservation (get e "filesystemObservation"))
         "Filesystem observation evidence is invalid."
  else if isType "model.invocation_prepared" then checkPrepared e
  else if isType "capability.filesystem_intent_recorded"
  then checkSigned e type (isValidFilesystemIntent (recordOf e))
         "Filesystem intent evidence digest mismatch or identity invalid."
  else if isType "capability.filesystem_mutation_ready" then checkMutationReady e
  else if isType "capability.sandbox_preparation_intent_recorded"
  then checkSigned e type (isValidSandboxIntent (recordOf e)) "Sandbox preparation intent is invalid."
  else if isType "capability.sandbox_preparation_ready"
  then checkSigned e type (isValidSandboxReady (recordOf e)) "Sandbox preparation ready record is invalid."
  else if isType "capability.sandbox_execution_dispatch_intent_recorded"
          || isType "capability.sandbox_execution_supervisor_started" then checkSupervised e type
  else if isType "capability.sandbox_disposal_started" || isType "capability.sandbox_disposal_completed"
  then checkDisposal e type "readyDigest" (isType "capability.sandbox_disposal_completed")
         "Sandbox disposal completion requires a boolean disposed receipt."
  else if isType "capability.sandbox_preparation_abandonment_started"
          || isType "capability.sandbox_preparation_abandonment_completed"
  then checkDisposal e type "intentDigest" (isType "capability.sandbox_preparation_abandonment_completed")
         "Sandbox preparation abandonment requires a boolean disposed receipt."
  else if isType "capability.subagent_dispatch_intent_recorded" then checkDispatchIntent e type
  else if isType "capability.subagent_handle_recorded" then checkHandle e type
  else if isType "capability.subagent_observation_recorded" then checkObservation e type
  else if isType "capability.subagent_cleanup_started" || isType "capability.subagent_cleanup_completed"
  then checkCleanup e type (isType "capability.subagent_cleanup_completed")
  else if isType "subagent.suspended" then checkSuspended e
  else if isType "provider.action_completed" || isType "provider.action_deferred" || isType "provider.action_failed"
  then firstError [requireNonEmptyString e "interactionId"; requireNonEmptyString e "originatingToolCallId"]
  else if isType "plan.approved" || isType "plan.revision_requested" || isType "plan.review_cancelled"
  then checkPlanDecision e type
  else if isType "plan.drafted" || isType "plan.progress_updated" || isType "plan.completed"
  then firstError (List.map (requireNonEmptyString e) ["toolCallId"; "taskId"; "planId"])
  else if isType "tool.failed"
  then firstError [requireNonEmptyString e "toolCallId";
                   ensure (is_some (isRecord (get e "failure")))
                     "Runtime event tool.failed requires structured failure."]
  else Ok tt.

Definition PRESENTED_EVENTS : list string :=
  ["tool.queued"; "tool.finished"; "tool.failed"; "tool.rejected"; "tool.cancelled"].

Definition requireField (e : obj) (type field : string) : res unit :=
  ensure (ohas field e) ("Runtime event " +:+ type +:+ " requires " +:+ field +:+ ".").

Definition assertCurrentRuntimeEvent (value : val) : res unit :=
  match value with
  | VObj e =>
      match get e "type" with
      | VStr type =>
          match oget type CURRENT_RUNTIME_EVENT_REQUIRED_FIELDS with
          | None => Throw ("Runtime event type " +:+ type +:+ " is not part of the current format.")
          | Some fields =>
              let* _ := firstError (List.map (requireField e type) fields) in
              let* _ := (if str_in type PRESENTED_EVENTS then checkPresentation e type else Ok tt) in
              checkCase e type
          end
      | _ => Throw "Runtime event must be an object with a string type."
      end
  | _ => Throw "Runtime event must be an object with a string type."
  end.

(** ** Writing *)

Definition fullAccess (e : obj) : bool :=
  let approval := jsonRecord (get e "approval") in
  is_str (get approval "recommendedGrant") "full_access"
  || existsb (fun grant => is_str grant "full_access") (default [] (arrayField approval "grantOptions")).

Definition reviewerCheck (e : obj) : bool :=
  existsb (fun check => is_str (get (jsonRecord check) "type") "reviewer")
    (default [] (arrayField (jsonRecord (get e "spec")) "checks")).

(** Retired shapes, which are read but no longer written. *)
Definition checkWritten (e : obj) (type : string) : res unit :=
  let isType t := type =s t in
  firstError
    [ensure (negb (isType "provider.admission_status"))
       "Retired provider admission status is read-only compatibility data.";
     ensure (negb (isType "model.invocation_prepared"
                   && (ohas "admission" e || is_str (get e "purpose") "verification_review")))
       "Retired model invocation evidence is read-only compatibility data.";
     ensure (negb (isType "verification.requested" && reviewerCheck e))
       "Retired verification reviewer checks are read-only compatibility data.";
     ensure (negb (isType "approval.requested" && fullAccess e))
       "Legacy full_access approval data is read-only compatibility data.";
     ensure (negb (isType "approval.rejected" && ohas "outcomeV1" e))
       "Legacy approval rejection data is read-only compatibility data.";
     ensure (negb (isType "auto_review.requested" && fullAccess e))
       "Legacy full_access review data is read-only compatibility data.";
     ensure (negb (isType "auto_review.completed"
                   && (ohas "outcomeV1" e
                       || negb (absentOr (fun v => is_str v "approve_once")
                                  (get (jsonRecord (get e "result")) "grant")))))
       "Legacy auto-review data is read-only compatibility data.";
     ensure (negb (isType "subagent.started"
                   && negb (is_some (isRecord (get e "subagent"))
                            && nonEmptyText (get (jsonRecord (get e "subagent")) "name")
                            && negb (ohas "task" (jsonRecord (get e "subagent"))))))
       "Retired subagent task titles are read-only compatibility data.";
     ensure (negb (isType "subagent.step" && negb (validSubagentStepPayload (get e "subagent") false)))
       "Legacy Subagent step identity is read-only compatibility data.";
     ensure (negb (isType "subagent.tool_result"
                   && negb (validSubagentToolResultPayload (get e "subagent") false)))
       "Legacy Subagent tool-result identity is read-only compatibility data."].

Definition assertCurrentRuntimeEventForWrite (value : val) : res unit :=
  let* _ := assertCurrentRuntimeEvent value in
  checkWritten (jsonRecord value) (textOf (jsonRecord value) "type").

Definition encodeCurrentRuntimeEventJson (event : val) : res string :=
  let* _ := assertCurrentRuntimeEvent event in
  match json_stringify event with
  | Some encoded => Ok encoded
  | None => Throw "Runtime event could not be encoded."
  end.

(** The message of a [SyntaxError] is the engine's. *)
Definition decodeCurrentRuntimeEventJson (serialized : string) : res val :=
  match json_parse serialized with
  | Some value => let* _ := assertCurrentRuntimeEvent value in Ok value
  | None => Throw "SyntaxError"
  end.
End Codec.
