(* ===== verification/PlanCommand.v ===== *)
(** * Admission of plan commands ([plan-command.ts])

    Whether a [read_plan], [write_plan] or [update_plan] request fits the plan of the
    active task.  Commands are the JSON objects of the tool calls; the plan is the
    typed planning state of the task. *)

From S2P Require Import Prelude Js State Normalization Recovery Completion Lifecycle Governance.
From stdpp Require Import prelude strings list pretty.
From Stdlib Require Import ZArith Lia.
Open Scope Z_scope.

Inductive PlanCommandPhase : Set := phase_planning | phase_building.
#[export] Instance PlanCommandPhase_eq_dec : EqDecision PlanCommandPhase.
Proof. solve_decision. Defined.

Record PlanCommandStateFacts := {
  pf_taskId : option string;
  pf_planning : PlanningState;
  pf_phase : option PlanCommandPhase;
  pf_sideEffectsStarted : bool }.

Inductive PlanDecision (M : Type) : Type :=
| pd_accepted (mode : M)
| pd_rejected (code diagnostic : string).
Arguments pd_accepted {M}.
Arguments pd_rejected {M}.

Inductive WritePlanDecisionMode : Set :=
| auto_enter | draft_save | replan_save | replanning_save | submit_existing.

Inductive UpdatePlanDecisionMode : Set := progress_update | complete_update.

Definition documentForPlanning (planning : PlanningState) : option obj :=
  match planning with
  | planning_draft d _ | replanning_draft d _ _ _ | plan_awaiting_review d _ _
  | plan_executing d _ _ | plan_completed d _ => Some d
  | _ => None
  end.

Definition activeWriteDocument (planning : PlanningState) : option obj :=
  match planning with
  | planning_draft d _ | replanning_draft d _ _ _ | plan_executing d _ _ => Some d
  | _ => None
  end.

Definition phaseForPlanning (planning : PlanningState) : PlanCommandPhase :=
  match planning with
  | planning_empty | planning_draft _ _ | replanning_draft _ _ _ _ | plan_awaiting_review _ _ _ =>
      phase_planning
  | _ => phase_building
  end.

Definition given (command : obj) (f : string) : bool := negb (is_undef (get command f)).

(** [command.f === document.g]. *)
Definition namesField (command document : obj) (f g : string) : bool :=
  sameValue (get command f) (get document g).

Definition namesPlan (command document : obj) : bool :=
  namesField command document "plan_id" "planId" && namesField command document "version" "version"
  && namesField command document "structural_digest" "structuralDigest".

Definition identityError (command document : obj) : option string :=
  if negb (given command "plan_id") || negb (given command "version")
     || negb (given command "structural_digest") then Some "plan_identity_required"
  else if namesPlan command document then None else Some "plan_identity_mismatch".

(** ** Reading *)

Definition decideReadPlanCommand (facts : PlanCommandStateFacts) (command : obj) : PlanDecision unit :=
  let mismatch := pd_rejected "read_plan_identity_mismatch"
    "read_plan must reference the active Task plan and its current version." in
  match pf_taskId facts with
  | None => pd_rejected "task_required" "No active Task owns this Plan."
  | Some _ =>
      match documentForPlanning (pf_planning facts) with
      | None => mismatch
      | Some document =>
          let version := nullish (get command "version") (get document "version") in
          if negb (namesField command document "plan_id" "planId")
             || negb (sameValue version (get document "version")) then mismatch
          else if given command "structural_digest"
                  && negb (namesField command document "structural_digest" "structuralDigest")
          then pd_rejected "read_plan_structural_digest_mismatch"
                 "read_plan structural_digest does not match the active Artifact."
          else pd_accepted tt
      end
  end.

(** ** Writing *)

Definition actionOf (command : obj) : val := nullish (get command "action") (VStr "save").

Definition hasDocument (command : obj) : bool :=
  given command "title" && given command "body_markdown" && given command "steps".
Definition hasArtifact (command : obj) : bool :=
  given command "plan_id" && given command "version" && given command "structural_digest".

Definition saves (command : obj) : bool := is_str (actionOf command) "save".
Definition submitsExisting (command : obj) : bool :=
  is_str (actionOf command) "submit" && hasArtifact command && negb (hasDocument command).

(** The draft of a replanning is a revision that was saved for it. *)
Definition savedRevision (planning : PlanningState) : bool :=
  match planning with
  | replanning_draft d supersedes reason _ =>
      nltb (Fin supersedes) (numOf (get d "version"))
      && is_num (get d "supersedesPlanVersion") supersedes
      && is_str (get d "replanReason") reason
  | _ => false
  end.

(** The five ways a write may go, in the order in which the mode is chosen. *)
Definition autoEnters (facts : PlanCommandStateFacts) (phase : PlanCommandPhase) (command : obj) : bool :=
  match pf_planning facts with
  | building_without_plan =>
      bool_decide (phase = phase_building) && saves command && negb (pf_sideEffectsStarted facts)
  | _ => false
  end.

Definition writesDraft (facts : PlanCommandStateFacts) (command : obj) : bool :=
  match pf_planning facts with
  | planning_empty | planning_draft _ _ =>
      hasDocument command && saves command && negb (pf_sideEffectsStarted facts)
  | _ => false
  end.

Definition redrafts (facts : PlanCommandStateFacts) (command : obj) : bool :=
  match pf_planning facts with
  | replanning_draft _ _ _ _ =>
      (submitsExisting command && savedRevision (pf_planning facts))
      || (hasDocument command && saves command)
  | _ => false
  end.

Definition replans (facts : PlanCommandStateFacts) (phase : PlanCommandPhase) (command : obj) : bool :=
  match pf_planning facts with
  | plan_executing _ _ _ =>
      bool_decide (phase = phase_building) && hasDocument command && saves command
  | _ => false
  end.

Definition submits (facts : PlanCommandStateFacts) (command : obj) : bool :=
  submitsExisting command
  && match pf_planning facts with
     | planning_draft d _ => namesPlan command d
     | replanning_draft d _ _ _ => savedRevision (pf_planning facts) && namesPlan command d
     | _ => false
     end.

(** A version the command expects and the draft does not have. *)
Definition versionConflict (planning : PlanningState) (command : obj) : option string :=
  match planning with
  | planning_draft d _ | replanning_draft d _ _ _ =>
      if negb (is_nullish (get command "expected_version"))
         && negb (namesField command d "expected_version" "version")
      then Some ("Version conflict: expected v" +:+ js_string (get command "expected_version")
                 +:+ ", current is v" +:+ js_string (get d "version") +:+ ".")
      else None
  | _ => None
  end.

Definition writeRefusal (submitExisting sideEffectsBlock : bool) : PlanDecision WritePlanDecisionMode :=
  if submitExisting then
    pd_rejected "write_plan_submit_identity_mismatch"
      "submit must reference the current saved plan_id, version, and structural_digest."
  else if sideEffectsBlock then
    pd_rejected "write_plan_side_effects_started"
      "write_plan cannot save a new plan after side effects have started."
  else
    pd_rejected "write_plan_document_required"
      "write_plan requires a complete plan document when saving.".

Definition staleIdentity (facts : PlanCommandStateFacts) (command : obj) : option string :=
  match activeWriteDocument (pf_planning facts) with
  | Some d => if hasDocument command || submitsExisting command then identityError command d else None
  | None => None
  end.

Definition decideWritePlanCommand (facts : PlanCommandStateFacts) (command : obj)
  : PlanDecision WritePlanDecisionMode :=
  let planning := pf_planning facts in
  let phase := default (phaseForPlanning planning) (pf_phase facts) in
  let enters := autoEnters facts phase command in
  let draft := writesDraft facts command in
  let redraft := redrafts facts command in
  let replan := replans facts phase command in
  let submit := submits facts command in
  let sideEffectsBlock :=
    negb replan && hasDocument command && saves command && pf_sideEffectsStarted facts in
  match pf_taskId facts with
  | None => pd_rejected "task_required" "write_plan requires an active Task."
  | Some _ =>
      match staleIdentity facts command with
      | Some code => pd_rejected code code
      | None =>
          if negb draft && negb redraft && negb enters && negb replan && negb submit
          then writeRefusal (submitsExisting command) sideEffectsBlock
          else match (if submit then None else versionConflict planning command) with
               | Some diagnostic => pd_rejected "write_plan_version_conflict" diagnostic
               | None => pd_accepted (if enters then auto_enter else if draft then draft_save
                                      else if redraft then replanning_save
                                      else if replan then replan_save else submit_existing)
               end
      end
  end.

(** ** Progress *)

Record UpdatePlanCommand := {
  up_identity : obj;
  up_updates : list obj;
  up_completePlan : bool }.

Definition updateNames (update step : obj) : bool := sameValue (get step "id") (get update "step_id").

(** [updates.find((candidate) => candidate.step_id === step.id)]. *)
Definition updateFor (updates : list obj) (step : obj) : option obj :=
  List.find (fun update => updateNames update step) updates.

Definition nextPlanStep (updates : list obj) (step : obj) : obj :=
  match updateFor updates step with
  | None => oset "status" (get step "status") step
  | Some update =>
      let moved := oset "status" (nullish (get update "status") (get step "status")) step in
      if is_undef (get update "note") then moved else oset "note" (get update "note") moved
  end.

(** An update of a finished step to another status. *)
Definition rollsBack (steps : list obj) (update : obj) : bool :=
  match List.find (updateNames update) steps with
  | Some current => terminalStep current && negb (sameValue (get update "status") (get current "status"))
  | None => false
  end.

Definition planBlockerText (blocker : PlanCompletionBlocker) : string :=
  match blocker with
  | plan_verification_required => "plan_verification_required"
  | plan_effect_evidence_required => "plan_effect_evidence_required"
  | plan_unresolved_blocker => "plan_unresolved_blocker"
  | plan_skipped_reason_required => "plan_skipped_reason_required"
  end.

Definition decideUpdatePlanCommand (facts : PlanCommandStateFacts)
    (completionBlocker : option PlanCompletionBlocker) (command : UpdatePlanCommand) : PlanDecision (UpdatePlanDecisionMode * list obj) :=
  match pf_taskId facts with
  | None => pd_rejected "task_required" "No active Task owns this Plan."
  | Some _ =>
      if negb (bool_decide (pf_phase facts = Some phase_building))
      then pd_rejected "update_plan_phase"
             "update_plan is only available in building phase after plan approval."
      else match pf_planning facts with
      | plan_executing document _ _ =>
          let steps := stepsOf document in
          let updates := up_updates command in
          let ids := List.map (fun u => textOf u "step_id") updates in
          let nextSteps := List.map (nextPlanStep updates) steps in
          match identityError (up_identity command) document with
          | Some code => pd_rejected code code
          | None =>
              if negb (length (dedupe ids) =? length ids)%nat
              then pd_rejected "plan_duplicate_step_update" "plan_duplicate_step_update"
              else match List.find (fun u => negb (existsb (updateNames u) steps)) updates with
              | Some u => pd_rejected "plan_unknown_step"
                            ("Unknown plan step ID: " +:+ textOf u "step_id" +:+ ".")
              | None =>
                  if existsb (rollsBack steps) updates
                  then pd_rejected "plan_terminal_step_rollback" "plan_terminal_step_rollback"
                  else if up_completePlan command && existsb unfinishedStep nextSteps
                  then pd_rejected "plan_pending_steps"
                         "Cannot complete plan while steps are pending or in progress."
                  else if up_completePlan command
                          && forallb (fun step => is_str (get step "status") "skipped") nextSteps
                  then pd_rejected "plan_all_steps_skipped" "plan_all_steps_skipped"
                  else match (if up_completePlan command then completionBlocker else None) with
                       | Some blocker => pd_rejected (planBlockerText blocker) (planBlockerText blocker)
                       | None => pd_accepted (if up_completePlan command then complete_update
                                              else progress_update, nextSteps)
                       end
              end
          end
      | _ => pd_rejected "update_plan_requires_executing" "No executing plan. Wait for plan approval first."
      end
  end.

Definition planCommandPhase (planning : PlanningState) : PlanCommandPhase := phaseForPlanning planning.
