(* ===== verification/PlanCommandClaims.v ===== *)
(** * Plan commands: what an admitted command does to the plan

    An admitted write names the plan it continues; an admitted update moves the plan
    that is executed, step by step, to a plan the lifecycle reducer takes. *)

From S2P Require Import Prelude Js State Normalization Recovery RecoveryProps RecoveryInvariant Completion Lifecycle LifecycleProps LifecycleClaims Governance PlanCommand.
From stdpp Require Import prelude strings list pretty.
From Stdlib Require Import ZArith Lia.
Open Scope Z_scope.

Lemma identity_named command document : identityError command document = None ->
  namesPlan command document = true.
Proof. unfold identityError. repeat case_match; done. Qed.

(** What a mode of writing tells about the plan and the command. *)
Definition write_fits (facts : PlanCommandStateFacts) (command : obj) (mode : WritePlanDecisionMode) : Prop :=
  match mode with
  | auto_enter => pf_planning facts = building_without_plan /\ saves command = true
                  /\ pf_sideEffectsStarted facts = false
  | draft_save => (pf_planning facts = planning_empty \/ exists d f, pf_planning facts = planning_draft d f)
                  /\ hasDocument command = true /\ saves command = true
                  /\ pf_sideEffectsStarted facts = false
  | replanning_save => exists d v r f, pf_planning facts = replanning_draft d v r f
                  /\ (hasDocument command = true /\ saves command = true
                      \/ submitsExisting command = true /\ savedRevision (pf_planning facts) = true)
  | replan_save => exists d m t, pf_planning facts = plan_executing d m t
                  /\ hasDocument command = true /\ saves command = true
  | submit_existing => exists d f, pf_planning facts = planning_draft d f
                  /\ submitsExisting command = true
  end.

(** Every way of writing to an open document names it. *)
Lemma stale_named facts command d : staleIdentity facts command = None ->
  activeWriteDocument (pf_planning facts) = Some d ->
  hasDocument command || submitsExisting command = true -> namesPlan command d = true.
Proof. unfold staleIdentity. intros H E Hc. rewrite E, Hc in H. by apply identity_named. Qed.

Lemma document_not_submit command : hasDocument command = true -> submitsExisting command = false.
Proof. intros H. unfold submitsExisting. rewrite H. apply andb_false_r. Qed.

(** Each way of writing fits its mode, and names the document it touches. *)
Definition way (facts : PlanCommandStateFacts) (command : obj) (mode : WritePlanDecisionMode) : Prop :=
  write_fits facts command mode
  /\ (activeWriteDocument (pf_planning facts) = None
      \/ hasDocument command || submitsExisting command = true).

Lemma way_enter facts phase command : autoEnters facts phase command = true -> way facts command auto_enter.
Proof.
  unfold autoEnters, way, write_fits. destruct (pf_planning facts); try discriminate. intros H.
  bool_hyps. split; [done|by left].
Qed.

Lemma way_draft facts command : writesDraft facts command = true -> way facts command draft_save.
Proof.
  unfold writesDraft, way, write_fits. destruct (pf_planning facts) as [| |d f| | | | |]; try discriminate;
    intros H; bool_hyps; split_and!; try done; [by left|by left|right; by exists d, f|right].
  by apply orb_true_iff; left.
Qed.

Lemma way_redraft facts command : redrafts facts command = true -> way facts command replanning_save.
Proof.
  unfold redrafts, way, write_fits. destruct (pf_planning facts) as [| | |d v r f| | | |]; try discriminate.
  intros H. apply orb_true_iff in H. rewrite orb_true_iff. split; [exists d, v, r, f; split; [done|]|right];
    destruct H as [H|H]; bool_hyps; tauto.
Qed.

Lemma way_replan facts phase command : replans facts phase command = true -> way facts command replan_save.
Proof.
  unfold replans, way, write_fits. destruct (pf_planning facts) as [| | | | |d m t| |]; try discriminate.
  intros H. bool_hyps. rewrite orb_true_iff. split; [by exists d, m, t|]. right. by left.
Qed.

Lemma way_submit facts command : submits facts command = true -> redrafts facts command = false ->
  way facts command submit_existing.
Proof.
  unfold submits, redrafts, way, write_fits. intros [Hs H]%andb_true_iff.
  destruct (pf_planning facts) as [| |d f|d v r f| | | |]; try discriminate; rewrite Hs, ?orb_true_r.
  - intros _. split; [by exists d, f|by right].
  - apply andb_true_iff in H as [H _]. intros [Hr _]%orb_false_iff. by rewrite H in Hr.
Qed.

(** C28: An admitted write fits its mode: a plan is entered or drafted only before side
    effects, a draft is submitted, a replanning saved and an executed plan replanned;
    the plan that is open is named by identity, version and digest, and a version the
    command expects is the one it has.  A plan under review, completed or cancelled is
    never written. *)
Theorem admitted_writes_fit_the_plan (facts : PlanCommandStateFacts) (command : obj)
    (mode : WritePlanDecisionMode) :
  decideWritePlanCommand facts command = pd_accepted mode ->
  is_some (pf_taskId facts) = true /\ write_fits facts command mode
  /\ (forall d, activeWriteDocument (pf_planning facts) = Some d -> namesPlan command d = true)
  /\ (mode = draft_save \/ mode = replanning_save ->
      hasDocument command = true -> versionConflict (pf_planning facts) command = None).
Proof.
  unfold decideWritePlanCommand. destruct (pf_taskId facts) as [id|]; [|discriminate].
  destruct (staleIdentity facts command) eqn:Hs; [discriminate|].
  set (phase := default _ _).
  assert (Hway : way facts command mode ->
    (hasDocument command = true -> versionConflict (pf_planning facts) command = None) ->
    is_some (Some id) = true /\ write_fits facts command mode
    /\ (forall d, activeWriteDocument (pf_planning facts) = Some d -> namesPlan command d = true)
    /\ (mode = draft_save \/ mode = replanning_save ->
        hasDocument command = true -> versionConflict (pf_planning facts) command = None)).
  { intros [Hfit Hdoc] Hv. split_and!; [done|done| |done]. intros d Hd.
    destruct Hdoc as [Hno|Hdoc]; [congruence|by eapply stale_named]. }
  destruct (_ && _ && _) eqn:Hnone; [unfold writeRefusal; by repeat case_match|].
  destruct (if submits facts command then None else _) eqn:Hv; [discriminate|]. intros [= <-].
  apply Hway.
  - destruct (autoEnters facts phase command) eqn:E1; [by eapply way_enter|].
    destruct (writesDraft facts command) eqn:E2; [by eapply way_draft|].
    destruct (redrafts facts command) eqn:E3; [by eapply way_redraft|].
    destruct (replans facts phase command) eqn:E4; [by eapply way_replan|].
    destruct (submits facts command) eqn:E5; [by eapply way_submit|discriminate].
  - intros Hd. apply document_not_submit in Hd. unfold submits in Hv. by rewrite Hd in Hv.
Qed.

(** What an admitted update has passed. *)
Record update_passed (facts : PlanCommandStateFacts) (blocker : option PlanCompletionBlocker)
    (command : UpdatePlanCommand) (document : obj) (steps : list obj) : Prop := {
  upd_task : is_some (pf_taskId facts) = true;
  upd_executing : exists mode since, pf_planning facts = plan_executing document mode since;
  upd_named : namesPlan (up_identity command) document = true;
  upd_once : (length (dedupe (List.map (fun u => textOf u "step_id") (up_updates command)))
              =? length (List.map (fun u => textOf u "step_id") (up_updates command)))%nat = true;
  upd_known : Forall (fun u => existsb (updateNames u) (stepsOf document) = true) (up_updates command);
  upd_forward : existsb (rollsBack (stepsOf document)) (up_updates command) = false;
  upd_steps : steps = List.map (nextPlanStep (up_updates command)) (stepsOf document);
  upd_complete : up_completePlan command = true ->
    existsb unfinishedStep steps = false
    /\ forallb (fun step => is_str (get step "status") "skipped") steps = false
    /\ blocker = None }.

Lemma update_admitted facts blocker command mode steps :
  decideUpdatePlanCommand facts blocker command = pd_accepted (mode, steps) ->
  exists document, update_passed facts blocker command document steps.
Proof.
  unfold decideUpdatePlanCommand. destruct (pf_taskId facts) eqn:Et; [|discriminate].
  destruct (negb (bool_decide _)); [discriminate|].
  destruct (pf_planning facts) as [| | | | |document m since| |] eqn:Ep; try discriminate.
  destruct (identityError _ _) eqn:Ei; [discriminate|]. destruct (negb (_ =? _)%nat) eqn:Eo; [discriminate|].
  destruct (List.find _ _) eqn:Ef; [discriminate|]. destruct (existsb (rollsBack _) _) eqn:Er; [discriminate|].
  destruct (_ && existsb _ _) eqn:Eu; [discriminate|]. destruct (_ && forallb _ _) eqn:Es; [discriminate|].
  destruct (if up_completePlan command then _ else _) eqn:Eb; [discriminate|]. intros [= _ <-].
  exists document. split; rewrite ?Et; try done.
  - by eexists _, _.
  - by apply identity_named.
  - by apply negb_false_iff.
  - apply List.Forall_forall. intros u Hu. pose proof (find_none _ _ Ef u Hu) as Hx. by apply negb_false_iff.
  - intros Hc. by rewrite Hc in Eu, Es, Eb.
Qed.

(** ** An instance: a draft is submitted by its identity *)

Definition draftFacts : PlanCommandStateFacts :=
  {| pf_taskId := Some "task";
     pf_planning := planning_draft [("planId", VStr "plan"); ("version", VNum (Fin 2));
                                    ("structuralDigest", VStr "digest")] None;
     pf_phase := None; pf_sideEffectsStarted := false |}.

Definition submitCommand : obj :=
  [("action", VStr "submit"); ("plan_id", VStr "plan"); ("version", VNum (Fin 2));
   ("structural_digest", VStr "digest")].

Lemma admitted_writes_fit_the_plan_witness :
  decideWritePlanCommand draftFacts submitCommand = pd_accepted submit_existing
  /\ write_fits draftFacts submitCommand submit_existing.
Proof.
  assert (E : decideWritePlanCommand draftFacts submitCommand = pd_accepted submit_existing) by reflexivity.
  split; [exact E|]. apply (admitted_writes_fit_the_plan draftFacts submitCommand submit_existing E).
Defined.
