(* ===== verification/PlanRuntime.v ===== *)
(** * The [update_plan] tool: from the command to the events ([plan-runtime.ts])

    The service joins the kernel's admission, the evidence the kernel projects and the
    events it submits.  [runtimeHostStatePlanCommandFacts] is the adapter of the
    runtime host that supplies the facts; [updateSchema] is what the tool's schema has
    checked of every update before the action runs. *)

From S2P Require Import Prelude Js State Normalization Recovery Completion Lifecycle Governance PlanCommand.
From stdpp Require Import prelude strings list pretty.
From Stdlib Require Import ZArith Lia.
Open Scope Z_scope.

Inductive RuntimeActionEmission : Type :=
| action_rejected (stderr : string)
| action_accepted (stdout : string) (runtimeEvents : list obj).

(** [BUILTIN_UPDATE_PLAN_SCHEMA_], the updates. *)
Definition updateSchema (update : obj) : bool :=
  hasOnlyKeys update ["step_id"; "status"; "note"; "reason_code"]
  && isText (get update "step_id") str_nonempty
  && planStatus (get update "status")
  && optionally (fun v => isText v (lengthWithin 0 500)) (get update "note")
  && optionally (fun v => isText v SAFE_REASON_CODE) (get update "reason_code")
  && negb (is_str (get update "status") "skipped" && is_undef (get update "reason_code")).

(** The facts of the active task; a task identity without a task throws. *)
Definition runtimeHostStatePlanCommandFacts (state : AgentState) : res PlanCommandStateFacts :=
  match activeTaskId state with
  | None => Ok {| pf_taskId := None; pf_planning := building_without_plan;
                  pf_phase := Some (planCommandPhase building_without_plan);
                  pf_sideEffectsStarted := false |}
  | Some id =>
      match oget id (tasks state) with
      | None => Throw "Cannot read properties of undefined (reading 'planning')"
      | Some task => Ok {| pf_taskId := Some id; pf_planning := task_planning task;
                           pf_phase := Some (planCommandPhase (task_planning task));
                           pf_sideEffectsStarted := task_sideEffectsStarted task |}
      end
  end.

(** [Object.fromEntries] of the reasons given. *)
Definition reasonCodesOf (updates : list obj) : obj :=
  List.fold_left (fun m u => if is_undef (get u "reason_code") then m
                             else oset (textOf u "step_id") (get u "reason_code") m) updates [].

Definition publicStep (step : obj) : obj :=
  [("step", get step "title"); ("id", get step "id"); ("status", get step "status")]
  ++ noteField (get step "note").

Definition publicPlan (document : obj) (complete : bool) (steps : list obj) : obj :=
  [("name", get document "title"); ("description", get document "bodyMarkdown");
   ("status", VStr (if complete then "completed" else "in_progress"));
   ("steps", VArr (List.map (fun step => VObj (publicStep step)) steps))].

Definition planEvent (type toolCallId taskId : string) (document plan evidence : obj) : obj :=
  [("type", VStr type); ("toolCallId", VStr toolCallId); ("plan", VObj plan);
   ("taskId", VStr taskId); ("planId", get document "planId"); ("version", get document "version");
   ("structuralDigest", get document "structuralDigest"); ("completionEvidence", VObj evidence)].

Definition updateEvents (toolCallId taskId : string) (document evidence : obj) (complete : bool)
    (steps : list obj) : list obj :=
  let plan := publicPlan document complete steps in
  planEvent "plan.progress_updated" toolCallId taskId document plan evidence
  :: (if complete then [planEvent "plan.completed" toolCallId taskId document plan evidence] else []).

Definition updateStdout (document : obj) (command : UpdatePlanCommand) : string :=
  default "" (json_stringify (VObj
    [("ok", VBool true); ("plan_id", get document "planId");
     ("updated_steps", VArr (List.map (fun u => get u "step_id") (up_updates command)));
     ("plan_completed", VBool (up_completePlan command))])).

Section Runtime.
Context `{JsHost}.

Definition updatePlanAction (state : AgentState) (toolCallId : string) (command : UpdatePlanCommand)
  : res RuntimeActionEmission :=
  let* facts := runtimeHostStatePlanCommandFacts state in
  match decideUpdatePlanCommand facts None command with
  | pd_rejected _ diagnostic => Ok (action_rejected diagnostic)
  | pd_accepted (_, nextSteps) =>
      let evidence := Completion.projectPlanCompletionEvidence state nextSteps
                        (reasonCodesOf (up_updates command)) in
      let blocker := if up_completePlan command
                     then Completion.planCompletionBlocker state evidence else None in
      match decideUpdatePlanCommand facts blocker command with
      | pd_rejected _ diagnostic => Ok (action_rejected diagnostic)
      | pd_accepted (_, steps) =>
          match getActiveTask state, getActivePlanning state with
          | Some task, plan_executing document _ _ =>
              Ok (action_accepted (updateStdout document command)
                    (updateEvents toolCallId (task_taskId task) document evidence
                       (up_completePlan command) steps))
          | _, _ => Ok (action_rejected "No executing plan. Wait for plan approval first.")
          end
      end
  end.
End Runtime.
