(* ===== verification/PlanRuntimeProps.v ===== *)
(** * Plan updates: lemmas

    The steps of an admitted update travel through the public plan, are read back by
    the reducer, merged into the document and compared with the evidence: nothing is
    lost on the way, and the document that results is valid. *)

From S2P Require Import Prelude Js State Sample Normalization Recovery RecoveryProps RecoveryInvariant Completion CompletionProps CompletionClaims Lifecycle LifecycleProps LifecycleClaims Governance GovernanceClaims PlanCommand PlanCommandClaims PlanRuntime.
From stdpp Require Import prelude strings list pretty.
From Stdlib Require Import ZArith Lia Permutation.
Open Scope Z_scope.

Lemma isText_inv v test : isText v test = true -> exists s, v = VStr s /\ test s = true.
Proof. destruct v; try discriminate. cbn. eauto. Qed.

Definition stepId (s : obj) : string := textOf s "id".
Definition stepIds (l : list obj) : list string := List.map stepId l.

(** ** Steps *)

(** What a valid step has. *)
Record step_ok (s : obj) : Prop := {
  so_id : exists id, get s "id" = VStr id /\ SAFE_STEP_ID id = true;
  so_title : isText (get s "title") (fun t => (t =s trim t) && lengthWithin 1 160 t
                                          && negb (hasLineBreak t)) = true;
  so_status : planStatus (get s "status") = true;
  so_note : get s "note" = VUndef \/ exists n, get s "note" = VStr n }.

Lemma isPlanStep_ok s : isPlanStep s = true -> step_ok s.
Proof.
  unfold isPlanStep. intros H. bool_hyps. split; try done.
  - match goal with H : isText (get s "id") _ = true |- _ => apply isText_inv in H as (x & ? & ?) end. eauto.
  - destruct (get s "note"); try discriminate; eauto.
Qed.

(** An object with the members of a step, and no others, is one. *)
Lemma step_ok_isPlanStep s :
  step_ok s -> hasExactKeys s (if ohas "note" s then ["id"; "title"; "status"; "note"]
                               else ["id"; "title"; "status"]) = true -> isPlanStep s = true.
Proof.
  intros [(id & Hi & Hs) Ht Hst Hn] Hk. unfold isPlanStep. rewrite Hk, Ht, Hst, Hi. cbn. rewrite Hs. cbn. by destruct Hn as [->|[n ->]].
Qed.

Section Steps.
Variable updates : list obj.
Hypothesis Hschema : Forall (fun u => updateSchema u = true) updates.

Lemma updateFor_some s u : updateFor updates s = Some u ->
  In u updates /\ updateSchema u = true /\ updateNames u s = true.
Proof using Hschema.
  intros H. apply find_some in H as [Hin Hn]. rewrite List.Forall_forall in Hschema. auto.
Qed.

Lemma next_frame s f : f <> "status" -> f <> "note" -> get (nextPlanStep updates s) f = get s f.
Proof.
  intros ? ?. unfold nextPlanStep. destruct (updateFor updates s); [case_match|]; by rewrite !get_oset_ne.
Qed.

Lemma next_status s : get (nextPlanStep updates s) "status"
  = match updateFor updates s with Some u => nullish (get u "status") (get s "status")
    | None => get s "status" end.
Proof.
  unfold nextPlanStep. destruct (updateFor updates s) as [u|]; [case_match|];
    rewrite ?(get_oset_ne _ "status" "note") by done; apply get_oset_eq.
Qed.

Lemma next_note s : get (nextPlanStep updates s) "note"
  = match updateFor updates s with
    | Some u => if is_undef (get u "note") then get s "note" else get u "note"
    | None => get s "note" end.
Proof.
  unfold nextPlanStep. destruct (updateFor updates s) as [u|]; [|by rewrite get_oset_ne].
  case_match; [by rewrite get_oset_ne|apply get_oset_eq].
Qed.

Lemma next_ok s : step_ok s -> step_ok (nextPlanStep updates s).
Proof using Hschema.
  intros [Hi Ht Hs Hn]. split; rewrite ?next_frame by done; try done.
  - rewrite next_status. destruct (updateFor updates s) as [u|] eqn:E; [|done].
    apply updateFor_some in E as (_ & Hu & _). unfold updateSchema in Hu. bool_hyps.
    by destruct (get u "status").
  - rewrite next_note. destruct (updateFor updates s) as [u|] eqn:E; [|done].
    apply updateFor_some in E as (_ & Hu & _). unfold updateSchema, optionally in Hu. bool_hyps.
    destruct (get u "note"); cbn in *; try discriminate; eauto.
Qed.
End Steps.

(** ** The public plan and its reading *)

(** The step the reducer reads back. *)
Definition incomingStep (n : obj) : obj := stepOfCandidate (get n "id") (publicStep n).

Lemma public_get n f : In f ["id"; "status"; "note"] -> get (publicStep n) f = get n f.
Proof.
  unfold publicStep, noteField. intros Hf. destruct (get n "note") eqn:E;
    cbn in Hf; destruct Hf as [<-|[<-|[<-|[]]]]; cbn; by rewrite ?E.
Qed.

Lemma incoming_get n f : In f ["id"; "title"; "status"; "note"] -> get (incomingStep n) f = get n f.
Proof.
  unfold incomingStep, stepOfCandidate. rewrite (public_get n "status"), (public_get n "note") by (cbn; tauto).
  replace (get (publicStep n) "step") with (get n "title") by done.
  unfold noteField. intros Hf. destruct (get n "note") eqn:E;
    cbn in Hf; destruct Hf as [<-|[<-|[<-|[<-|[]]]]]; cbn; by rewrite ?E.
Qed.

Lemma incoming_valid n : step_ok n -> isPlanStep (incomingStep n) = true.
Proof.
  intros Hn. apply step_ok_isPlanStep.
  - destruct Hn as [Hi Ht Hs Hnote]. split; rewrite ?incoming_get by (cbn; tauto); done.
  - destruct Hn as [_ _ _ [Hu|[t Hu]]]; unfold incomingStep, stepOfCandidate;
      rewrite (public_get n "note") by (cbn; tauto); rewrite Hu; vm_compute; reflexivity.
Qed.

Lemma sameValue_text v : (exists s, v = VStr s) -> sameValue v v = true.
Proof. intros [s ->]. apply String.eqb_refl. Qed.

Lemma title_text s : step_ok s -> exists t, get s "title" = VStr t.
Proof. intros [_ Ht _ _]. apply isText_inv in Ht as (t & -> & _). eauto. Qed.

Lemma incoming_steps l updates : Forall (fun u => updateSchema u = true) updates -> Forall step_ok l ->
  stepsOfUpdate (List.map (fun s => publicStep (nextPlanStep updates s)) l) l
  = Some (List.map (fun s => incomingStep (nextPlanStep updates s)) l).
Proof.
  intros Hu. induction 1 as [|s l Hs _ IH]; [done|]. cbn [List.map stepsOfUpdate].
  pose proof (next_ok updates Hu s Hs) as Hn. pose proof Hs as [(id & Hid & _) _ _ _].
  rewrite public_get, next_frame, Hid, IH by (cbn; tauto || done).
  assert (stepOfCandidate (VStr id) (publicStep (nextPlanStep updates s)) = incomingStep (nextPlanStep updates s)) as ->
    by (unfold incomingStep; by rewrite next_frame, Hid).
  rewrite (incoming_valid _ Hn), !incoming_get, !next_frame by (cbn; tauto || done). rewrite Hid.
  rewrite !sameValue_text; [done|by apply title_text|by eauto].
Qed.

Definition public_ok (c : obj) : bool :=
  hasOnlyKeys c ["id"; "step"; "status"; "note"] && isText (get c "step") (fun _ => true)
  && planStatus (get c "status") && textOrAbsent (get c "id") && textOrAbsent (get c "note").

Lemma public_valid n : step_ok n -> public_ok (publicStep n) = true.
Proof.
  intros [(id & Hid & _) Ht Hs Hn]. unfold public_ok.
  rewrite (public_get n "status"), (public_get n "id"), (public_get n "note") by (cbn; tauto).
  replace (get (publicStep n) "step") with (get n "title") by done.
  apply isText_inv in Ht as (t & Ht & _). rewrite Hid, Ht, Hs.
  destruct Hn as [Hn|[x Hn]]; unfold publicStep; rewrite Hn; reflexivity.
Qed.

Section Document.
Variables (document : obj) (updates : list obj).
Hypothesis Hdoc : isPlanDocument document = true.
Hypothesis Hschema : Forall (fun u => updateSchema u = true) updates.
Abbreviation steps := (stepsOf document).
Abbreviation next := (List.map (nextPlanStep updates) steps).

Lemma document_checks : documentChecks document = true.
Proof using Hdoc. unfold isPlanDocument in Hdoc. by bool_hyps. Qed.

Lemma document_steps_ok : Forall step_ok steps.
Proof using Hdoc.
  pose proof document_checks as Hc. unfold documentChecks in Hc. bool_hyps.
  match goal with H : isArrayOf _ _ = true |- _ => rename H into Ha end.
  unfold stepsOf, arrayField. destruct (get document "steps") as [| | | | |l|]; try discriminate.
  cbn in *. apply List.Forall_forall. intros s (v & <- & Hv)%in_map_iff. rewrite forallb_forall in Ha.
  specialize (Ha v Hv). destruct v; try discriminate. by apply isPlanStep_ok.
Qed.

Lemma transport_steps complete l : transportSteps (VObj (publicPlan document complete l)) = List.map publicStep l.
Proof. unfold transportSteps, stepsOf, publicPlan. cbn. rewrite map_map. done. Qed.

Lemma transport_valid complete : isAgentPlanTransport (VObj (publicPlan document complete next)) = true.
Proof using Hdoc Hschema.
  pose proof document_checks as Hc. unfold documentChecks in Hc. bool_hyps.
  unfold isAgentPlanTransport. cbn [isRecord].
  replace (get (publicPlan document complete next) "name") with (get document "title") by done.
  replace (get (publicPlan document complete next) "description") with (get document "bodyMarkdown") by done.
  repeat match goal with H : isText _ _ = true |- _ => apply isText_inv in H as (? & H & _) end.
  match goal with H : get document "title" = _ |- _ => rewrite H end.
  match goal with H : get document "bodyMarkdown" = _ |- _ => rewrite H end.
  replace (get (publicPlan document complete next) "steps")
    with (VArr (List.map (fun step => VObj (publicStep step)) next)) by done.
  rewrite (proj2 (andb_true_iff _ _)); [done|]. split.
  - destruct complete; vm_compute; reflexivity.
  - cbn [isArrayOf]. apply forallb_forall. intros v (n & <- & Hn)%in_map_iff. cbn [isRecord].
    apply public_valid. apply in_map_iff in Hn as (s & <- & Hs). apply next_ok; [done|].
    pose proof document_steps_ok as Hok. rewrite List.Forall_forall in Hok. by apply Hok.
Qed.

Abbreviation incoming := (List.map (fun s => incomingStep (nextPlanStep updates s)) steps).

Lemma incoming_id s : stepId (incomingStep (nextPlanStep updates s)) = stepId s.
Proof. unfold stepId, textOf, stringField. by rewrite incoming_get, next_frame by (cbn; tauto || done). Qed.

Lemma ids_mapped (g : obj -> obj) : (forall s, stepId (g s) = stepId s) ->
  stepIds (List.map g steps) = stepIds steps.
Proof. intros Hg. unfold stepIds. rewrite map_map. by apply map_ext. Qed.

Lemma steps_distinct : NoDup (stepIds steps).
Proof using Hdoc. by apply document_ids. Qed.

Lemma plan_read_back complete :
  planStepsFromAgentPlanUpdate (VObj (publicPlan document complete next)) document = Some incoming.
Proof using Hdoc Hschema.
  unfold planStepsFromAgentPlanUpdate. rewrite (transport_valid complete), transport_steps.
  cbn [jsonRecord].
  replace (get (publicPlan document complete next) "name") with (get document "title") by done.
  replace (get (publicPlan document complete next) "description") with (get document "bodyMarkdown") by done.
  pose proof document_checks as Hc. unfold documentChecks in Hc. bool_hyps.
  repeat match goal with H : isText _ _ = true |- _ => apply isText_inv in H as (? & H & _) end.
  rewrite !sameValue_text by eauto. rewrite !length_map, Nat.eqb_refl. cbn [andb].
  rewrite map_map, incoming_steps by (done || apply document_steps_ok).
  replace (List.map (fun step => textOf step "id") incoming) with (stepIds steps)
    by (symmetry; apply ids_mapped, incoming_id).
  rewrite length_map. unfold stepIds, stepId.
  match goal with H : (length (dedupe _) =? _)%nat = true |- _ => by rewrite H end.
Qed.

(** The merged step has the members of the admitted one. *)
Definition mergedStep (s : obj) : obj := mergePlanStep (stepsById incoming) s.

Lemma merged_update s : In s steps ->
  oget (textOf s "id") (stepsById incoming) = Some (incomingStep (nextPlanStep updates s)).
Proof using Hdoc.
  intros Hs. change (textOf s "id") with (stepId s). rewrite <- (incoming_id s). apply stepsById_get.
  - change (NoDup (stepIds incoming)). rewrite ids_mapped by apply incoming_id. apply steps_distinct.
  - by apply (in_map (fun s => incomingStep (nextPlanStep updates s))).
Qed.

Lemma merged_get s f : In s steps -> In f ["id"; "title"; "status"; "note"] ->
  get (mergedStep s) f = get (nextPlanStep updates s) f.
Proof using Hdoc Hschema.
  intros Hs Hf. unfold mergedStep, mergePlanStep. rewrite merged_update by done.
  rewrite !incoming_get by (cbn; tauto).
  destruct Hf as [<-|[<-|[<-|[<-|[]]]]]; rewrite ?get_oset_eq, ?get_oset_ne, ?get_oset_eq by done;
    rewrite ?next_frame by done; try done.
  rewrite next_note. pose proof document_steps_ok as Hok. rewrite List.Forall_forall in Hok.
  destruct (Hok s Hs) as [_ _ _ Hn]. destruct (updateFor updates s) as [u|] eqn:Eu;
    [|by destruct Hn as [->|[n ->]]].
  apply updateFor_some in Eu as (_ & Hu & _); [|done]. unfold updateSchema, optionally in Hu. bool_hyps.
  by destruct Hn as [->|[n ->]]; destruct (get u "note").
Qed.

Lemma merged_id s : stepId (mergedStep s) = stepId s.
Proof. unfold stepId, mergedStep. apply merge_id. Qed.

Abbreviation merged := (List.map mergedStep steps).

Lemma step_unique a b : In a steps -> In b steps -> stepId a = stepId b -> a = b.
Proof using Hdoc.
  intros Ha Hb E. pose proof (stepsById_get steps a steps_distinct Ha) as Ea.
  pose proof (stepsById_get steps b steps_distinct Hb) as Eb. unfold stepId in E. congruence.
Qed.

Lemma named_by_id u s : In s steps -> updateNames u s = true -> get u "step_id" = VStr (stepId s).
Proof using Hdoc.
  intros Hs Hn. pose proof document_steps_ok as Hok. rewrite List.Forall_forall in Hok.
  destruct (Hok s Hs) as [(id & Hid & _) _ _ _]. unfold updateNames in Hn.
  unfold stepId, textOf, stringField. rewrite Hid in *. cbn. destruct (get u "step_id"); try discriminate.
  cbn in Hn. by apply eqb_true in Hn as ->.
Qed.

Lemma status_text s : In s steps -> exists t, get s "status" = VStr t.
Proof using Hdoc.
  intros Hs. pose proof document_steps_ok as Hok. rewrite List.Forall_forall in Hok.
  destruct (Hok s Hs) as [_ _ Hst _]. apply isText_inv in Hst as (t & -> & _). eauto.
Qed.

(** A finished step keeps its status. *)
Lemma terminal_kept s : existsb (rollsBack steps) updates = false -> In s steps -> terminalStep s = true ->
  get (nextPlanStep updates s) "status" = get s "status".
Proof using Hdoc Hschema.
  intros Hr Hs Ht. rewrite next_status. destruct (updateFor updates s) as [u|] eqn:E; [|done].
  apply updateFor_some in E as (Hin & Hu & Hn); [|done].
  pose proof (existsb_none _ _ _ Hr Hin) as Hx. unfold rollsBack in Hx.
  destruct (List.find (updateNames u) steps) as [c|] eqn:Ef.
  - apply find_some in Ef as [Hc Hcn]. assert (c = s) as ->.
    { apply step_unique; [done..|]. apply named_by_id in Hn, Hcn; [congruence|done|done]. }
    rewrite Ht in Hx. cbn in Hx. apply negb_false_iff in Hx.
    destruct (status_text s Hs) as [t Hst]. rewrite Hst in *. by rewrite (sameValue_str _ _ Hx).
  - pose proof (find_none _ _ Ef s Hs). congruence.
Qed.

Definition forward : Prop := forall s, In s steps -> terminalStep s = true ->
  get (nextPlanStep updates s) "status" = get s "status".

Lemma no_rollback : forward -> hasTerminalStepRollback steps merged = false.
Proof using Hdoc Hschema.
  intros Hr. apply not_true_iff_false. unfold hasTerminalStepRollback. rewrite existsb_exists.
  intros (s & Hs & [Ht Hn]%andb_true_iff).
  assert (Hget : oget (textOf s "id") (stepsById merged) = Some (mergedStep s)).
  { change (textOf s "id") with (stepId s). rewrite <- (merged_id s). apply stepsById_get; [|by apply in_map].
    change (NoDup (stepIds merged)). rewrite ids_mapped by apply merged_id. apply steps_distinct. }
  rewrite Hget, merged_get, Hr in Hn by (done || cbn; tauto).
  destruct (status_text s Hs) as [t Hst]. rewrite Hst, sameValue_text in Hn by eauto. done.
Qed.
(** ** The same update once more *)

Lemma again_for s : updateFor updates (mergedStep s) = updateFor updates s.
Proof.
  assert (E : get (mergedStep s) "id" = get s "id") by (by apply merge_frame).
  unfold updateFor, updateNames. by rewrite E.
Qed.

Lemma again_get s f : In s steps -> In f ["id"; "title"; "status"; "note"] ->
  get (nextPlanStep updates (mergedStep s)) f = get (nextPlanStep updates s) f.
Proof using Hdoc Hschema.
  intros Hs Hf. pose proof (merged_get s f Hs Hf) as Hm.
  destruct Hf as [<-|[<-|[<-|[<-|[]]]]]; try (by rewrite (next_frame _ (mergedStep s)), Hm).
  - rewrite next_status, again_for, Hm, next_status. destruct (updateFor updates s) as [u|]; [|done].
    by destruct (get u "status").
  - rewrite next_note, again_for, Hm, next_note. destruct (updateFor updates s) as [u|]; [|done].
    by destruct (is_undef (get u "note")).
Qed.

Lemma again_public s : In s steps -> publicStep (nextPlanStep updates (mergedStep s)) = publicStep (nextPlanStep updates s).
Proof using Hdoc Hschema. intros Hs. unfold publicStep. by rewrite !again_get by (done || cbn; tauto). Qed.

(** ** The updated document *)

Lemma merged_ok s : In s steps -> step_ok (mergedStep s).
Proof using Hdoc Hschema.
  intros Hs. pose proof document_steps_ok as Hok. rewrite List.Forall_forall in Hok.
  destruct (next_ok updates Hschema s (Hok s Hs)) as [Hi Ht Hst Hn].
  split; rewrite merged_get by (done || cbn; tauto); done.
Qed.

Lemma has_get (o : obj) f : get o f <> VUndef -> ohas f o = true.
Proof. unfold get, ohas. by destruct (oget f o). Qed.

Lemma ohas_set_eq (o : obj) f v : ohas f (oset f v o) = true.
Proof. unfold ohas. by rewrite oget_oset_eq. Qed.

Lemma ohas_set_ne (o : obj) f g v : f <> g -> ohas f (oset g v o) = ohas f o.
Proof. intros Hne. unfold ohas. by rewrite oget_oset_ne. Qed.

Lemma merged_keys s : In s steps -> isPlanStep s = true -> hasExactKeys (mergedStep s)
  (if ohas "note" (mergedStep s) then ["id"; "title"; "status"; "note"] else ["id"; "title"; "status"]) = true.
Proof using Hdoc Hschema.
  intros Hs Hv. destruct (status_text s Hs) as [t Hst]. unfold mergedStep, mergePlanStep.
  rewrite merged_update, ohas_set_eq by done. set (x := oset "status" _ s).
  assert (Hx : okeys x = okeys s) by (apply okeys_oset_present, has_get; by rewrite Hst).
  assert (Hh : ohas "note" x = ohas "note" s) by (by apply ohas_set_ne).
  unfold isPlanStep in Hv. apply andb_true_iff in Hv as [[[[Hk _]%andb_true_iff _]%andb_true_iff _]%andb_true_iff _].
  revert Hk. unfold hasExactKeys. rewrite !bool_decide_eq_true, !sort_strings_inv. intros Hk.
  destruct (ohas "note" s); [by rewrite okeys_oset_present, Hx|].
  rewrite okeys_oset_absent by done. unfold okeys in *. rewrite map_app, Hx. by apply (Permutation_app_tail ["note"]) in Hk.
Qed.

Lemma merged_valid s : In s steps -> isPlanStep (mergedStep s) = true.
Proof using Hdoc Hschema.
  intros Hs. apply step_ok_isPlanStep; [by apply merged_ok|]. apply merged_keys; [done|].
  by apply (document_steps document).
Qed.

Lemma digest_of_texts d d' :
  textOf d' "title" = textOf d "title" -> textOf d' "bodyMarkdown" = textOf d "bodyMarkdown" ->
  List.map (fun s => (textOf s "id", textOf s "title")) (stepsOf d')
    = List.map (fun s => (textOf s "id", textOf s "title")) (stepsOf d) ->
  computePlanStructuralDigest d' = computePlanStructuralDigest d.
Proof.
  intros Ht Hb Hs. unfold computePlanStructuralDigest. rewrite Ht, Hb.
  set (g := fun p : string * string => VObj [("id", VStr p.1); ("title", VStr (trim (joinCrLf p.2)))]).
  apply (f_equal (List.map g)) in Hs. rewrite !map_map in Hs. unfold g in Hs. cbn [fst snd] in Hs. by rewrite Hs.
Qed.

Lemma merged_title s : textOf (mergedStep s) "title" = textOf s "title".
Proof. unfold textOf, stringField, mergedStep. by rewrite merge_frame. Qed.

(** A document whose steps are merged, with new evidence and a new turn, is valid. *)
Section Updated.
Variable d' : obj.
Hypothesis Hkeys : okeys d' = okeys document.
Hypothesis Hframe : forall f, f <> "steps" -> f <> "updatedAtTurnId" -> f <> "completionEvidence" ->
  get d' f = get document f.
Hypothesis Hsteps : get d' "steps" = VArr (List.map VObj merged).
Hypothesis Hturn : isText (get d' "updatedAtTurnId") str_nonempty = true.
Hypothesis Hevidence : isPlanCompletionEvidence (get d' "completionEvidence") = true.

Lemma updated_steps : stepsOf d' = merged.
Proof using Hsteps. unfold stepsOf, arrayField. rewrite Hsteps. cbn. by rewrite map_map, map_id. Qed.

Lemma updated_checks : documentChecks d' = true.
Proof using Hdoc Hschema Hkeys Hframe Hsteps Hturn Hevidence.
  pose proof document_checks as Hc. unfold documentChecks in *.
  unfold hasOnlyKeys in *. rewrite Hkeys. rewrite updated_steps, Hsteps, Hturn, Hevidence, length_map, !Hframe by done.
  bool_hyps. rewrite !andb_true_iff. split_and!; try done.
  - cbn [isArrayOf]. apply forallb_forall. intros v (m & <- & (s & <- & Hs)%in_map_iff)%in_map_iff.
    by apply merged_valid.
  - change ((length (dedupe (stepIds merged)) =? length steps)%nat = true).
    by rewrite ids_mapped by apply merged_id.
Qed.

Lemma updated_valid : isPlanDocument d' = true.
Proof using Hdoc Hschema Hkeys Hframe Hsteps Hturn Hevidence.
  unfold isPlanDocument. rewrite updated_checks. cbn [andb].
  assert (computePlanStructuralDigest d' = computePlanStructuralDigest document) as ->.
  { apply digest_of_texts; [unfold textOf, stringField; by rewrite Hframe..|].
    rewrite updated_steps, map_map. apply map_ext. intros s. f_equal; [apply merged_id|apply merged_title]. }
  unfold isPlanArtifactRef, textOf, stringField, numberField. rewrite !Hframe by done.
  unfold isPlanDocument in Hdoc. apply andb_true_iff in Hdoc as [[_ H1]%andb_true_iff H2].
  rewrite H1. cbn [andb]. exact H2.
Qed.
End Updated.
End Document.

(** ** Evidence *)

Lemma reasons_lookup l e : NoDup (List.map (fun e => textOf e "stepId") l) -> In e l ->
  get (skippedReasons l) (textOf e "stepId") = get e "reasonCode".
Proof.
  unfold skippedReasons. generalize (@nil (string * val)) as m.
  induction l as [|x l IH] using rev_ind; intros m Hn Hin; [done|].
  rewrite fold_left_app. cbn [List.fold_left]. rewrite map_app in Hn. cbn in Hn.
  apply NoDup_app in Hn as (Hn & Hd & _). apply in_app_iff in Hin as [Hin|[->|[]]].
  - rewrite get_oset_ne; [by apply IH|]. intros E. apply (Hd (textOf e "stepId")).
    + apply list_elem_of_In. by apply (in_map (fun e => textOf e "stepId")).
    + rewrite E. apply list_elem_of_singleton. done.
  - apply get_oset_eq.
Qed.

(** Steps with the same identities and statuses, given the same reasons where they are
    skipped, have the same entries. *)
Lemma skipped_same (g h : obj -> obj) (f f' : string -> val) l :
  (forall s, In s l -> stepId (g s) = stepId (h s) /\ get (g s) "status" = get (h s) "status") ->
  (forall s, In s l -> is_str (get (h s) "status") "skipped" = true -> f (stepId (h s)) = f' (stepId (h s))) ->
  List.map (fun s => [("stepId", VStr (textOf s "id")); ("reasonCode", f (textOf s "id"))])
    (List.filter (fun s => is_str (get s "status") "skipped") (List.map g l))
  = List.map (fun s => [("stepId", VStr (textOf s "id")); ("reasonCode", f' (textOf s "id"))])
      (List.filter (fun s => is_str (get s "status") "skipped") (List.map h l)).
Proof.
  induction l as [|s l IH]; intros Hg Hf; [done|]. cbn [List.map List.filter].
  specialize (IH (fun x Hx => Hg x (or_intror Hx)) (fun x Hx => Hf x (or_intror Hx))).
  destruct (Hg s (or_introl eq_refl)) as [Hi ->]. specialize (Hf s (or_introl eq_refl)).
  destruct (is_str _ _); [|done]. cbn [List.map]. rewrite IH. unfold stepId in *. by rewrite Hi, Hf.
Qed.

Section Evidence.
Context `{JsHost}.
Variables (state : AgentState) (document : obj) (updates : list obj).
Hypothesis Hdoc : isPlanDocument document = true.
Hypothesis Hschema : Forall (fun u => updateSchema u = true) updates.
Hypothesis Hprior : prior_texts state.
Abbreviation steps := (stepsOf document).
Abbreviation next := (List.map (nextPlanStep updates) steps).
Abbreviation merged := (List.map (mergedStep document updates) steps).
Abbreviation codes := (reasonCodesOf updates).

Lemma codes_text k : text_or_none (get codes k).
Proof using Hschema.
  unfold reasonCodesOf. apply (fold_left_inv _ (fun m : obj => text_or_none (get m k))); [by left|].
  intros m u Hu Hm. rewrite List.Forall_forall in Hschema. specialize (Hschema u Hu).
  unfold updateSchema, optionally in Hschema. bool_hyps. case_match eqn:E; [done|].
  destruct (decide (k = textOf u "step_id")) as [->|Hne]; [|by rewrite get_oset_ne].
  rewrite get_oset_eq. right. destruct (get u "reason_code"); cbn in *; try discriminate. eauto.
Qed.

(** The reason of a skipped step. *)
Definition reasonOf (k : string) : val :=
  nullish (get codes k) (nullish (get (priorSkipped state) k) (VStr "")).

Lemma reason_text k : exists r, reasonOf k = VStr r.
Proof using Hschema Hprior.
  unfold reasonOf. destruct (codes_text k) as [->|[r ->]]; [|by eexists]. cbn.
  destruct (Hprior k) as [->|[r ->]]; by eexists.
Qed.

Definition skippedEntry (s : obj) : obj := [("stepId", VStr (stepId s)); ("reasonCode", reasonOf (stepId s))].

Lemma skipped_entries : skippedEvidence state next codes
  = sortByText (fun e => textOf e "stepId")
      (List.map skippedEntry (List.filter (fun s => is_str (get s "status") "skipped") next)).
Proof. reflexivity. Qed.

Lemma NoDup_map_filter {A} (f : A -> string) (p : A -> bool) l :
  NoDup (List.map f l) -> NoDup (List.map f (List.filter p l)).
Proof.
  induction l as [|x l IH]; [done|]. cbn. intros [Hx Hl]%NoDup_cons. destruct (p x); [|by apply IH].
  cbn. apply NoDup_cons. split; [|by apply IH]. rewrite list_elem_of_In, in_map_iff in *.
  intros (y & E & [Hy _]%filter_In). apply Hx. by exists y.
Qed.

Abbreviation evidence := (skippedEvidence state next codes).
Abbreviation reasons := (skippedReasons evidence).

Lemma next_id s : stepId (nextPlanStep updates s) = stepId s.
Proof. unfold stepId, textOf, stringField. by rewrite next_frame. Qed.

Lemma reason_kept s : In s steps -> is_str (get (nextPlanStep updates s) "status") "skipped" = true ->
  get reasons (stepId s) = reasonOf (stepId s).
Proof using Hdoc.
  intros Hs Hk. set (e := skippedEntry (nextPlanStep updates s)).
  transitivity (get reasons (textOf e "stepId")); [f_equal; symmetry; apply next_id|].
  rewrite reasons_lookup.
  - cbn. by rewrite next_id.
  - rewrite skipped_entries. apply NoDup_ListNoDup.
    eapply Permutation_NoDup; [apply Permutation_map, sort_by_perm|].
    rewrite map_map. cbn. apply NoDup_ListNoDup, NoDup_map_filter.
    change (NoDup (stepIds next)). rewrite ids_mapped by apply next_id. by apply steps_distinct.
  - rewrite skipped_entries, In_sortByText. apply in_map, filter_In. split; [by apply in_map|done].
Qed.

(** Projecting again, from the merged steps and the reasons in the evidence, gives the
    evidence. *)
Lemma skipped_again : skippedEvidence state merged reasons = evidence.
Proof using Hdoc Hschema Hprior.
  unfold skippedEvidence. f_equal.
  apply (skipped_same _ _ (fun k => nullish (get reasons k) (nullish (get (priorSkipped state) k) (VStr "")))
    (fun k => reasonOf k)).
  - intros s Hs. rewrite merged_id, next_id. split; [done|]. apply merged_get; [done..|cbn; tauto].
  - intros s Hs Hk. rewrite next_id, (reason_kept s Hs Hk). by destruct (reason_text (stepId s)) as [t ->].
Qed.

Definition projected : obj := Completion.projectPlanCompletionEvidence state next codes.

Lemma evidence_matches : named_task state -> isPlanCompletionEvidence (VObj projected) = true ->
  planCompletionEvidenceMatchesRuntime state merged (VObj projected) = true.
Proof using Hdoc Hschema Hprior.
  intros Hn Hv. unfold planCompletionEvidenceMatchesRuntime. rewrite Hv. cbn [andb jsonRecord].
  apply opt_str_eqb_true. do 2 f_equal. rewrite projection_agree by done.
  assert (entries projected "skipped" = evidence) as -> by (by apply entries_of).
  unfold projected, Completion.projectPlanCompletionEvidence. by rewrite skipped_again.
Qed.
End Evidence.
