(* ===== verification/PlanRuntimeClaims.v ===== *)
(** * An admitted [update_plan] moves the plan

    The events the service submits for an admitted update are ones the lifecycle
    reducer takes: the document keeps its identity, every step gets the status and
    note the kernel admitted, and a completed plan is completed. *)

From S2P Require Import Prelude Js State Sample Normalization Recovery RecoveryProps RecoveryInvariant RecoveryReducerClaims Completion CompletionProps CompletionClaims Lifecycle LifecycleProps LifecycleClaims Governance GovernanceClaims Events Codec PlanCommand PlanCommandClaims PlanRuntime PlanRuntimeProps.
From stdpp Require Import prelude strings list pretty.
From Stdlib Require Import ZArith Lia Permutation.
Open Scope Z_scope.

(** ** The event of an admitted update is taken *)

Lemma text_nonempty o f s : get o f = VStr s -> str_nonempty s = true -> nonEmptyStringField o f = Some s.
Proof. intros E Hs. unfold nonEmptyStringField, stringField. rewrite E. cbn. by rewrite Hs. Qed.

Lemma hex64_nonempty s : isHex64 s = true -> str_nonempty s = true.
Proof. by destruct s. Qed.

Lemma document_named d : isPlanDocument d = true -> exists p v g,
  get d "planId" = VStr p /\ str_nonempty p = true /\ get d "version" = VNum (Fin v)
  /\ get d "structuralDigest" = VStr g /\ str_nonempty g = true.
Proof.
  intros Hd%document_checks. unfold documentChecks in Hd. bool_hyps.
  repeat match goal with H : isText (get d _) _ = true |- _ => apply isText_inv in H as (? & H & ?) end.
  destruct (get d "version") as [| | |[v|]| | |]; try discriminate. do 3 eexists. split_and!; try done.
  - match goal with H : SAFE_SEGMENT _ = true |- _ => by apply andb_true_iff in H as [H _] end.
  - by apply hex64_nonempty.
Qed.

Section Taken.
Context `{JsHost}.
Variables (state : AgentState) (task : AgentTaskState) (document : obj) (mode : InteractionMode)
  (since : string) (updates : list obj) (toolCallId : string) (complete : bool).
Hypothesis Hwf : plans_wf state.
Hypothesis Hnamed : named_task state.
Hypothesis Hturn : str_nonempty (turnId (turn state)) = true.
Hypothesis Hactive : activeTask state = Some task.
Hypothesis Hplan : task_planning task = plan_executing document mode since.
Hypothesis Hschema : Forall (fun u => updateSchema u = true) updates.
Hypothesis Hforward : forward document updates.
Abbreviation evidence := (projected state document updates).
Hypothesis Hevidence : isPlanCompletionEvidence (VObj evidence) = true.
Abbreviation next := (List.map (nextPlanStep updates) (stepsOf document)).
Abbreviation merged := (List.map (mergedStep document updates) (stepsOf document)).
Abbreviation event type :=
  (planEvent type toolCallId (task_taskId task) document (publicPlan document complete next) evidence).

Lemma executing_valid : isPlanDocument document = true.
Proof using Hwf Hactive Hplan.
  destruct (activeTask_keyed _ _ (proj1 Hwf) Hactive) as [_ Ho].
  destruct (proj2 Hwf _ _ Ho) as [Hv _]. apply Hv. by rewrite Hplan.
Qed.

Lemma task_named : activeTaskId state = Some (task_taskId task) /\ str_nonempty (task_taskId task) = true.
Proof using Hwf Hactive.
  destruct (activeTask_keyed _ _ (proj1 Hwf) Hactive) as [Ha _]. split; [done|].
  unfold activeTask in Hactive. rewrite Ha in Hactive. unfold opt_nonempty in Hactive.
  by destruct (str_nonempty (task_taskId task)).
Qed.

Lemma progress_named type :
  progressOf state (event type) = Some (task_taskId task, task, document, mode, since, merged).
Proof using Hwf Hactive Hplan Hschema Hforward.
  pose proof executing_valid as Hd. unfold progressOf. rewrite Hactive.
  rewrite (text_nonempty _ "taskId" (task_taskId task)); [|reflexivity|exact (proj2 task_named)].
  rewrite String.eqb_refl, Hplan. destruct (document_named _ Hd) as (p & v & d & Hp & Hpn & Hv & Hdg & Hdn).
  rewrite (text_nonempty _ "planId" p) by done.
  assert (numberField (event type) "version" = Some v) as ->
    by (unfold numberField; change (get (event type) "version") with (get document "version"); by rewrite Hv).
  rewrite (text_nonempty _ "structuralDigest" d) by done.
  change (get (event type) "plan") with (VObj (publicPlan document complete next)).
  rewrite plan_read_back by done. unfold namesDocument, is_str, is_num. rewrite Hp, Hv, Hdg, !String.eqb_refl, Z.eqb_refl.
  unfold mergePlanSteps. change (List.map _ (stepsOf document)) with merged at 1. rewrite no_rollback by done. done.
Qed.

(** The document after the update. *)
Definition movedDocument : obj :=
  oset "completionEvidence" (VObj evidence)
    (oset "updatedAtTurnId" (VStr (turnId (turn state)))
      (oset "steps" (VArr (List.map VObj merged)) document)).

Lemma present f : In f ["steps"; "updatedAtTurnId"; "completionEvidence"] -> ohas f document = true.
Proof using Hwf Hactive Hplan.
  pose proof (document_checks _ executing_valid) as Hc. unfold documentChecks in Hc. bool_hyps.
  intros [<-|[<-|[<-|[]]]]; apply has_get; intros E; rewrite E in *; discriminate.
Qed.

Lemma moved_valid : isPlanDocument movedDocument = true.
Proof using Hwf Hactive Hplan Hschema Hturn Hevidence.
  apply (updated_valid document updates executing_valid Hschema); unfold movedDocument.
  - rewrite !okeys_oset_present; [done|..]; rewrite ?ohas_set_ne by done; apply present; cbn; tauto.
  - intros f ? ? ?. by rewrite !get_oset_ne.
  - rewrite !get_oset_ne by done. apply get_oset_eq.
  - rewrite get_oset_ne, get_oset_eq by done. exact Hturn.
  - by rewrite get_oset_eq.
Qed.

Definition movedTask : AgentTaskState := task <| task_planning := plan_executing movedDocument mode since |>.

Lemma progress_taken : exists reference ids, reduceLifecycleState state (event "plan.progress_updated")
  = withPlanProgress state (state <| tasks := oset (task_taskId task) movedTask (tasks state) |>)
      pk_skipped reference ids.
Proof using Hwf Hnamed Hactive Hplan Hschema Hturn Hforward Hevidence.
  change (reduceLifecycleState state (event "plan.progress_updated"))
    with (plan_progress_updated state (event "plan.progress_updated")).
  unfold plan_progress_updated. rewrite progress_named.
  change (get (event "plan.progress_updated") "completionEvidence") with (VObj evidence).
  rewrite evidence_matches by (done || by apply prior_of_valid || exact executing_valid).
  fold movedDocument. rewrite moved_valid. cbn [andb]. do 2 eexists. f_equal.
  destruct (activeTask_keyed _ _ (proj1 Hwf) Hactive) as [_ Ho]. unfold updateTask, updateTasks.
  rewrite Ho, Hplan. reflexivity.
Qed.

(** *** Completion *)

Definition closedDocument : obj := withSteps document merged (VObj evidence).

Lemma closed_valid : isPlanDocument closedDocument = true.
Proof using Hwf Hactive Hplan Hschema Hevidence.
  apply (updated_valid document updates executing_valid Hschema); unfold closedDocument, withSteps.
  - rewrite !okeys_oset_present; [done|..]; rewrite ?ohas_set_ne by done; apply present; cbn; tauto.
  - intros f ? ? ?. by rewrite !get_oset_ne.
  - rewrite get_oset_ne by done. apply get_oset_eq.
  - rewrite !get_oset_ne by done. pose proof (document_checks _ executing_valid) as Hc.
    unfold documentChecks in Hc. by bool_hyps.
  - by rewrite get_oset_eq.
Qed.

(** Statuses of the merged steps are those of the admitted ones. *)
Lemma statuses_merged (p : val -> bool) :
  List.map (fun s => p (get s "status")) merged = List.map (fun s => p (get s "status")) next.
Proof using Hwf Hactive Hplan Hschema.
  rewrite !map_map. apply map_ext_in. intros s Hs.
  rewrite merged_get; [done|exact executing_valid|done..|cbn; tauto].
Qed.

Lemma forallb_as_map {A} (g : A -> bool) l : forallb g l = forallb id (List.map g l).
Proof. induction l; cbn; congruence. Qed.

Lemma existsb_as_map {A} (g : A -> bool) l : existsb g l = existsb id (List.map g l).
Proof. induction l; cbn; congruence. Qed.

Lemma unfinished_merged : existsb unfinishedStep merged = existsb unfinishedStep next.
Proof using Hwf Hactive Hplan Hschema.
  rewrite (existsb_as_map _ merged), (existsb_as_map _ next).
  f_equal. exact (statuses_merged (fun v => is_str v "pending" || is_str v "in_progress")).
Qed.

Lemma all_skipped_merged : forallb (fun s => is_str (get s "status") "skipped") merged
  = forallb (fun s => is_str (get s "status") "skipped") next.
Proof using Hwf Hactive Hplan Hschema.
  rewrite (forallb_as_map _ merged), (forallb_as_map _ next). by rewrite (statuses_merged (fun v => is_str v "skipped")).
Qed.

(** An idle session blocks neither guard. *)
Lemma unblocked_for_reducer ev : Completion.planCompletionBlocker state ev = None ->
  planCompletionBlocker state ev = None.
Proof using Hnamed.
  intros Hb. rewrite blocker_agree; [done|done|]. intros call Hin Hbelongs Hq.
  unfold Completion.planCompletionBlocker in Hb. destruct (interactions state); try done. cbn [orb] in Hb.
  destruct (relevantPendingCalls state) eqn:E; [|done].
  assert (In call (relevantPendingCalls state)) as Hc; [|by rewrite E in Hc].
  apply filter_In. split; [done|]. change (Completion.belongsToActiveTask state) with (belongsToActiveTask state).
  by rewrite Hbelongs, Hq.
Qed.

Definition closedTask : AgentTaskState :=
  task <| task_executionMode := None |> <| task_planning := plan_completed closedDocument (turnId (turn state)) |>.

Lemma completion_taken : complete = true -> existsb unfinishedStep next = false ->
  forallb (fun s => is_str (get s "status") "skipped") next = false ->
  Completion.planCompletionBlocker state evidence = None ->
  reduceLifecycleState state (event "plan.completed")
  = state <| tasks := oset (task_taskId task) closedTask (tasks state) |>.
Proof using Hwf Hnamed Hactive Hplan Hschema Hforward Hevidence.
  intros Hc Hu Hs Hb. change (reduceLifecycleState state (event "plan.completed"))
    with (plan_completed_event state (event "plan.completed")).
  unfold plan_completed_event. rewrite progress_named.
  change (get (event "plan.completed") "completionEvidence") with (VObj evidence).
  change (get (event "plan.completed") "plan") with (VObj (publicPlan document complete next)).
  cbn [isRecord jsonRecord].
  replace (is_str (get (publicPlan document complete next) "status") "completed") with true by (by rewrite Hc).
  rewrite unfinished_merged, all_skipped_merged, Hu, Hs.
  rewrite evidence_matches by (done || by apply prior_of_valid || exact executing_valid).
  rewrite unblocked_for_reducer by done. fold closedDocument. rewrite closed_valid. cbn [andb negb is_some].
  destruct (activeTask_keyed _ _ (proj1 Hwf) Hactive) as [_ Ho]. unfold updateTask, updateTasks.
  rewrite Ho, Hplan. reflexivity.
Qed.
End Taken.

(** ** The completion that follows *)

Lemma recovered_stays journal progress id failure :
  oget id (j_failures journal) = Some failure -> rf_status failure = rf_recovered ->
  oget id (j_failures (recordToolOwnedProgress journal progress)) = Some failure.
Proof.
  intros Ho Hr. unfold recordToolOwnedProgress. case_match; [done|]. case_match; [done|].
  cbn. rewrite oget_map, Ho. cbn. by rewrite Hr.
Qed.

Lemma resolved_stays state next kind reference ids call : toolRecovery next = toolRecovery state ->
  Completion.isResolvedRecoveryFailure state call = true ->
  Completion.isResolvedRecoveryFailure (withPlanProgress state next kind reference ids) call = true.
Proof.
  intros Hn. unfold withPlanProgress, Completion.isResolvedRecoveryFailure.
  destruct ids as [|i ids]; [by rewrite Hn|]. cbn [toolRecovery].
  destruct (tc_outcome call) as [o|]; [|done]. destruct (recordField o _) as [l|]; [|done].
  destruct (stringField l _) as [id|]; [|done].
  destruct (oget id (j_failures (toolRecovery state))) as [f|] eqn:Ho; [|done]. intros Hf%bool_decide_eq_true.
  change (toolRecovery (next <| toolRecovery := ?j |>)) with j.
  by erewrite recovered_stays, Hf by done.
Qed.

(** Two sessions with the same calls, of which the second has resolved no less, have
    the same evidence when nothing blocks the first. *)
Section Settled.
Context `{JsHost}.
Variables (state state' : AgentState) (evidence : obj).
Hypothesis Hactive : activeTaskId state' = activeTaskId state.
Hypothesis Htools : tools state' = tools state.
Hypothesis Hverification : verification state' = verification state.
Hypothesis Hinteractions : interactions state' = interactions state.
Hypothesis Hresolved : forall call, Completion.isResolvedRecoveryFailure state call = true ->
  Completion.isResolvedRecoveryFailure state' call = true.
Hypothesis Hblocker : Completion.planCompletionBlocker state evidence = None.

Lemma belongs_same t : Completion.belongsToActiveTask state' t = Completion.belongsToActiveTask state t.
Proof using Hactive. unfold Completion.belongsToActiveTask. by rewrite Hactive. Qed.

Lemma effects_succeeded call : In call (relevantEffectCalls state) -> is_succeeded call = true.
Proof using Hblocker.
  unfold Completion.planCompletionBlocker in Hblocker.
  repeat match type of Hblocker with (if ?c then _ else _) = None => destruct c eqn:?; [discriminate|] end.
  match goal with H : _ || existsb _ (relevantEffectCalls state) = false |- _ => apply orb_false_iff in H as [_ H];
    rename H into He end.
  intros Hin. pose proof (existsb_none _ _ _ He Hin) as Hx. cbv beta in Hx. by destruct (is_succeeded call).
Qed.

(** Whether an effect of the task counts is the same in both. *)
Lemma counts_same call : In call (callsOf state) -> hasSideEffect call = true ->
  Completion.belongsToActiveTask state (tc_taskId call) = true -> is_succeeded call = false ->
  Completion.isResolvedRecoveryFailure state call = true /\ Completion.isResolvedRecoveryFailure state' call = true.
Proof using Hblocker Hresolved.
  intros Hin He Hb Hs. destruct (Completion.isResolvedRecoveryFailure state call) eqn:Er; [by auto|].
  assert (is_succeeded call = true); [|congruence]. apply effects_succeeded, filter_In. split; [done|].
  by rewrite He, Hb, Er, orb_true_r.
Qed.

Lemma effects_same : relevantEffectCalls state' = relevantEffectCalls state.
Proof using Hactive Htools Hresolved Hblocker.
  unfold relevantEffectCalls. replace (callsOf state') with (callsOf state) by (unfold callsOf; by rewrite Htools).
  apply filter_ext_in. intros call Hin. rewrite belongs_same.
  destruct (hasSideEffect call) eqn:He; [|done]. destruct (Completion.belongsToActiveTask _ _) eqn:Hb; [|done].
  destruct (is_succeeded call) eqn:Hs; [done|]. by destruct (counts_same call) as [-> ->].
Qed.

Lemma unresolved_same : unresolvedEvidence state' = unresolvedEvidence state.
Proof using Hactive Htools Hresolved Hblocker.
  unfold unresolvedEvidence. f_equal. replace (callsOf state') with (callsOf state) by (unfold callsOf; by rewrite Htools).
  rewrite (filter_ext _ (fun call => Completion.belongsToActiveTask state (tc_taskId call)))
    by (intros; apply belongs_same).
  rewrite !flat_map_concat_map. f_equal. apply map_ext_in. intros call [Hin Hb]%filter_In.
  unfold unresolvedEntries. f_equal. destruct (unsuccessful (tc_status call)) eqn:Hu; [|done].
  destruct (hasSideEffect call) eqn:He; [|done].
  destruct (counts_same call) as [-> ->]; try done. unfold is_succeeded. by destruct (tc_status call).
Qed.

Lemma verified_same : verificationEvidence state' = verificationEvidence state.
Proof using Hactive Hverification.
  unfold verificationEvidence. do 2 f_equal. rewrite Hverification. apply filter_ext. intros r.
  unfold sameTask. by rewrite belongs_same.
Qed.

Lemma executed_same : executionEvidence state' = executionEvidence state.
Proof using Hactive Htools Hresolved Hblocker. unfold executionEvidence. by rewrite effects_same. Qed.

Lemma blocker_same : Completion.sideEffectsStarted state' = Completion.sideEffectsStarted state ->
  Completion.planCompletionBlocker state' evidence = None.
Proof using Hactive Htools Hresolved Hblocker Hverification Hinteractions.
  intros Hs. rewrite <- Hblocker. unfold Completion.planCompletionBlocker.
  rewrite Hs, effects_same, Hverification, Hinteractions.
  assert (relevantPendingCalls state' = relevantPendingCalls state) as ->.
  { unfold relevantPendingCalls, callsOf. rewrite Htools. apply filter_ext. intros c. by rewrite belongs_same. }
  assert (forall r, sameTask state' r = sameTask state r) as Hr by (intros r; apply belongs_same).
  assert (forall l, existsb (fun r => sameTask state' r && requiredUnsettled r) l
    = existsb (fun r => sameTask state r && requiredUnsettled r) l) as Hl.
  { induction l as [|r l IH]; [done|]. cbn. by rewrite Hr, IH. }
  by rewrite Hl.
Qed.
End Settled.

Section Again.
Context `{JsHost}.
Variables (state : AgentState) (task : AgentTaskState) (document : obj) (mode : InteractionMode)
  (since : string) (updates : list obj) (reference : string) (ids : list string).
Hypothesis Hwf : plans_wf state.
Hypothesis Hactive : activeTask state = Some task.
Hypothesis Hplan : task_planning task = plan_executing document mode since.
Hypothesis Hschema : Forall (fun u => updateSchema u = true) updates.
Abbreviation moved := (movedDocument state document updates).
Abbreviation after := (withPlanProgress state
  (state <| tasks := oset (task_taskId task) (movedTask state task document mode since updates) (tasks state) |>)
  pk_skipped reference ids).

Lemma after_frame : activeTaskId after = activeTaskId state /\ tools after = tools state
  /\ verification after = verification state /\ interactions after = interactions state
  /\ turn after = turn state /\ tasks after = oset (task_taskId task)
       (movedTask state task document mode since updates) (tasks state).
Proof. unfold withPlanProgress. by destruct ids. Qed.

Lemma after_task : activeTask after = Some (movedTask state task document mode since updates).
Proof using Hwf Hactive.
  destruct after_frame as (Ha & _ & _ & _ & _ & Ht). unfold activeTask. rewrite Ha, Ht.
  destruct (task_named state task Hwf Hactive) as [-> Hn]. cbn [opt_nonempty]. rewrite Hn. apply oget_oset_eq.
Qed.

Lemma moved_steps : stepsOf moved = List.map (mergedStep document updates) (stepsOf document).
Proof. unfold movedDocument. rewrite !stepsOf_frame by done. apply stepsOf_set. Qed.

Lemma after_forward : forward moved updates.
Proof using Hwf Hactive Hplan Hschema.
  intros s Hs _. rewrite moved_steps in Hs. apply in_map_iff in Hs as (x & <- & Hx).
  rewrite again_get, merged_get; try done; try (cbn; tauto); by eapply executing_valid.
Qed.

Lemma after_public complete :
  publicPlan moved complete (List.map (nextPlanStep updates) (stepsOf moved))
  = publicPlan document complete (List.map (nextPlanStep updates) (stepsOf document)).
Proof using Hwf Hactive Hplan Hschema.
  unfold publicPlan. rewrite moved_steps, !map_map.
  replace (get moved "title") with (get document "title") by (unfold movedDocument; by rewrite !get_oset_ne).
  replace (get moved "bodyMarkdown") with (get document "bodyMarkdown")
    by (unfold movedDocument; by rewrite !get_oset_ne).
  enough (List.map (fun s => VObj (publicStep (nextPlanStep updates (mergedStep document updates s)))) (stepsOf document)
    = List.map (fun s => VObj (publicStep (nextPlanStep updates s))) (stepsOf document)) as -> by done.
  apply map_ext_in. intros s Hs. f_equal. apply again_public; try done. by eapply executing_valid.
Qed.

Abbreviation codes := (reasonCodesOf updates).
Abbreviation next := (List.map (nextPlanStep updates) (stepsOf document)).

Lemma after_statuses (p : val -> bool) :
  List.map (fun s => p (get s "status")) (List.map (nextPlanStep updates) (stepsOf moved))
  = List.map (fun s => p (get s "status")) next.
Proof using Hwf Hactive Hplan Hschema.
  rewrite moved_steps, !map_map. apply map_ext_in. intros s Hs.
  rewrite again_get; [done|by eapply executing_valid|done..|cbn; tauto].
Qed.

Lemma after_unfinished : existsb unfinishedStep (List.map (nextPlanStep updates) (stepsOf moved))
  = existsb unfinishedStep next.
Proof using Hwf Hactive Hplan Hschema.
  rewrite existsb_as_map, (existsb_as_map _ next). f_equal.
  exact (after_statuses (fun v => is_str v "pending" || is_str v "in_progress")).
Qed.

Lemma after_all_skipped :
  forallb (fun s => is_str (get s "status") "skipped") (List.map (nextPlanStep updates) (stepsOf moved))
  = forallb (fun s => is_str (get s "status") "skipped") next.
Proof using Hwf Hactive Hplan Hschema.
  rewrite forallb_as_map, (forallb_as_map _ next). f_equal. exact (after_statuses (fun v => is_str v "skipped")).
Qed.

Lemma after_prior : priorSkipped after = skippedReasons (skippedEvidence state next codes).
Proof using Hwf Hactive.
  unfold priorSkipped. rewrite (activeTask_planning _ _ after_task). cbn [movedTask task_planning].
  change (task_planning (movedTask state task document mode since updates)) with (plan_executing moved mode since).
  cbv beta iota. unfold movedDocument. rewrite get_oset_eq. cbn [jsonRecord]. f_equal. by apply entries_of.
Qed.

Lemma after_skipped : skippedEvidence after (List.map (nextPlanStep updates) (stepsOf moved)) codes
  = skippedEvidence state next codes.
Proof using Hwf Hactive Hplan Hschema.
  pose proof (executing_valid _ _ _ _ _ Hwf Hactive Hplan) as Hd.
  assert (Hr : forall s, In s (stepsOf document) -> is_str (get (nextPlanStep updates s) "status") "skipped" = true ->
    get (priorSkipped after) (stepId s) = reasonOf state updates (stepId s)).
  { rewrite after_prior. by apply reason_kept. }
  unfold skippedEvidence. f_equal. rewrite moved_steps, map_map.
  apply (skipped_same _ _ (fun k => nullish (get codes k) (nullish (get (priorSkipped after) k) (VStr "")))
    (fun k => reasonOf state updates k)).
  - intros s Hs. split; [by rewrite !next_id, merged_id|]. apply again_get; [done..|cbn; tauto].
  - intros s Hs Hk. rewrite next_id, (Hr s Hs Hk). unfold reasonOf.
    destruct (codes_text updates Hschema (stepId s)) as [->|[t ->]]; [cbn|done].
    destruct (prior_of_valid _ Hwf (stepId s)) as [->|[t ->]]; done.
Qed.

Hypothesis Hblocker : Completion.planCompletionBlocker state (projected state document updates) = None.

Lemma after_resolved call : Completion.isResolvedRecoveryFailure state call = true ->
  Completion.isResolvedRecoveryFailure after call = true.
Proof. by apply resolved_stays. Qed.

Lemma after_projected : projected after moved updates = projected state document updates.
Proof using Hwf Hactive Hplan Hschema Hblocker.
  destruct after_frame as (Ha & Ht & Hv & _).
  unfold projected, Completion.projectPlanCompletionEvidence.
  rewrite (verified_same state after Ha Hv), (executed_same state after _ Ha Ht after_resolved Hblocker),
    (unresolved_same state after _ Ha Ht after_resolved Hblocker).
  by rewrite after_skipped.
Qed.

Lemma after_unblocked : Completion.planCompletionBlocker after (projected after moved updates) = None.
Proof using Hwf Hactive Hplan Hschema Hblocker.
  destruct after_frame as (Ha & Ht & Hv & Hi & _ & Hts). rewrite after_projected.
  apply (blocker_same state after); try done; [apply after_resolved|].
  destruct (activeTask_keyed _ _ (proj1 Hwf) Hactive) as [Hid Ho].
  unfold Completion.sideEffectsStarted. by rewrite Ha, Hts, Hid, oget_oset_eq, Ho.
Qed.

Lemma moved_field f : In f ["planId"; "version"; "structuralDigest"; "title"; "bodyMarkdown"] ->
  get moved f = get document f.
Proof. intros [<-|[<-|[<-|[<-|[<-|[]]]]]]; unfold movedDocument; by rewrite !get_oset_ne. Qed.

Lemma after_event type call taskId complete :
  planEvent type call taskId document (publicPlan document complete next) (projected state document updates)
  = planEvent type call taskId moved (publicPlan moved complete (List.map (nextPlanStep updates) (stepsOf moved)))
      (projected after moved updates).
Proof using Hwf Hactive Hplan Hschema Hblocker.
  rewrite after_public, after_projected. unfold planEvent. by rewrite !moved_field by (cbn; tauto).
Qed.
End Again.

(** ** The whole action *)

Section Action.
Context `{JsHost}.

Lemma facts_executing state facts document mode since :
  runtimeHostStatePlanCommandFacts state = Ok facts -> pf_planning facts = plan_executing document mode since ->
  named_task state -> exists task, activeTask state = Some task /\ task_planning task = plan_executing document mode since.
Proof.
  intros Hf Hp Hn. rewrite activeTask_named by done. unfold runtimeHostStatePlanCommandFacts in Hf.
  destruct (activeTaskId state) as [id|]; [|by injection Hf as <-].
  destruct (oget id (tasks state)) as [task|]; [|discriminate]. injection Hf as <-. eauto.
Qed.

(** What an admitted action has passed and submits. *)
Record action_passed (state : AgentState) (toolCallId : string) (command : UpdatePlanCommand)
    (events : list obj) (task : AgentTaskState) (document : obj) (mode : InteractionMode) (since : string) : Prop := {
  ap_task : activeTask state = Some task;
  ap_plan : task_planning task = plan_executing document mode since;
  ap_events : events = updateEvents toolCallId (task_taskId task) document
    (projected state document (up_updates command)) (up_completePlan command)
    (List.map (nextPlanStep (up_updates command)) (stepsOf document));
  ap_forward : existsb (rollsBack (stepsOf document)) (up_updates command) = false;
  ap_complete : up_completePlan command = true ->
    existsb unfinishedStep (List.map (nextPlanStep (up_updates command)) (stepsOf document)) = false
    /\ forallb (fun s => is_str (get s "status") "skipped")
         (List.map (nextPlanStep (up_updates command)) (stepsOf document)) = false
    /\ Completion.planCompletionBlocker state (projected state document (up_updates command)) = None }.

Lemma action_accepted_inv state toolCallId command stdout events : named_task state ->
  updatePlanAction state toolCallId command = Ok (action_accepted stdout events) ->
  exists task document mode since, action_passed state toolCallId command events task document mode since.
Proof.
  intros Hn. unfold updatePlanAction. destruct (runtimeHostStatePlanCommandFacts state) as [facts|] eqn:Hf;
    [cbn [res_bind]|discriminate].
  destruct (decideUpdatePlanCommand facts None command) as [[m1 next]|] eqn:H1; [|discriminate].
  destruct (update_admitted _ _ _ _ _ H1) as [document [_ (mode & since & Hp) _ _ _ Hr -> _]].
  destruct (facts_executing _ _ _ _ _ Hf Hp Hn) as (task & Ha & Ht).
  match goal with |- context [decideUpdatePlanCommand facts ?b command] =>
    destruct (decideUpdatePlanCommand facts b command) as [[m2 steps]|] eqn:H2; [|discriminate] end.
  destruct (update_admitted _ _ _ _ _ H2) as [d2 [_ (mo2 & s2 & Hp2) _ _ _ _ -> Hc]].
  rewrite Hp in Hp2. injection Hp2 as <- <- <-.
  change (getActiveTask state) with (activeTask state). unfold getActivePlanning.
  change (getActiveTask state) with (activeTask state). rewrite Ha, Ht. intros [= _ <-].
  exists task, document, mode, since. split; [done..|]. intros Ec. rewrite Ec in Hc.
  by destruct (Hc eq_refl) as (? & ? & ?).
Qed.

(** The events pass the codec. *)
Lemma event_writable type call taskId document plan evidence :
  type = "plan.progress_updated" \/ type = "plan.completed" ->
  str_nonempty call = true -> str_nonempty taskId = true -> isPlanDocument document = true ->
  assertCurrentRuntimeEventForWrite (VObj (planEvent type call taskId document plan evidence)) = Ok tt.
Proof.
  intros Ht Hc Hi Hd. destruct (document_named _ Hd) as (p & v & g & Hp & Hpn & _ & _ & _).
  unfold planEvent. rewrite Hp. destruct Ht as [-> | ->]; vm_compute in Hc, Hi, Hpn |- *; rewrite Hc, Hi, Hpn; reflexivity.
Qed.

Definition stepView (s : obj) : list val := List.map (get s) ["id"; "title"; "status"; "note"].

(** The same plan, with its steps moved by the updates. *)
Definition plan_moved (updates : list obj) (document document' : obj) : Prop :=
  isPlanDocument document' = true
  /\ (forall f, In f ["planId"; "version"; "structuralDigest"; "title"; "bodyMarkdown"] ->
        get document' f = get document f)
  /\ List.map stepView (stepsOf document')
     = List.map (fun s => stepView (nextPlanStep updates s)) (stepsOf document).

Section Result.
Variables (state : AgentState) (task : AgentTaskState) (document : obj) (mode : InteractionMode)
  (since : string) (updates : list obj).
Hypothesis Hwf : plans_wf state.
Hypothesis Hnamed : named_task state.
Hypothesis Hturn : str_nonempty (turnId (turn state)) = true.
Hypothesis Hactive : activeTask state = Some task.
Hypothesis Hplan : task_planning task = plan_executing document mode since.
Hypothesis Hschema : Forall (fun u => updateSchema u = true) updates.
Hypothesis Hforward : forward document updates.
Abbreviation evidence := (projected state document updates).
Hypothesis Hevidence : isPlanCompletionEvidence (VObj evidence) = true.
Abbreviation next := (List.map (nextPlanStep updates) (stepsOf document)).
Abbreviation moved := (movedDocument state document updates).

Lemma progress_moves : plan_moved updates document moved.
Proof using Hwf Hturn Hactive Hplan Hschema Hevidence.
  pose proof (executing_valid _ _ _ _ _ Hwf Hactive Hplan) as Hd.
  split_and!; [by eapply moved_valid|apply moved_field|].
  rewrite moved_steps, map_map. apply map_ext_in. intros s Hs. apply map_ext_in. intros f Hf. by apply merged_get.
Qed.

(** Reading the update again moves nothing more. *)
Lemma closing_moves after : isPlanDocument moved = true ->
  isPlanDocument (closedDocument after moved updates) = true ->
  plan_moved updates document (closedDocument after moved updates).
Proof using Hwf Hactive Hplan Hschema.
  intros Hm Hv. pose proof (executing_valid _ _ _ _ _ Hwf Hactive Hplan) as Hd. split_and!; [done|..].
  - intros f Hf. rewrite <- (moved_field state document updates f Hf). unfold closedDocument, withSteps.
    destruct Hf as [<-|[<-|[<-|[<-|[<-|[]]]]]]; by rewrite !get_oset_ne.
  - unfold closedDocument, withSteps. rewrite stepsOf_frame, stepsOf_set, moved_steps, !map_map by done.
    apply map_ext_in. intros s Hs. apply map_ext_in. intros f Hf.
    rewrite (merged_get moved updates Hm Hschema) by (done || rewrite moved_steps; by apply in_map).
    by apply again_get.
Qed.

Lemma completion_result reference ids toolCallId :
  let after := withPlanProgress state
    (state <| tasks := oset (task_taskId task) (movedTask state task document mode since updates) (tasks state) |>)
    pk_skipped reference ids in
  plans_wf after -> existsb unfinishedStep next = false ->
  forallb (fun s => is_str (get s "status") "skipped") next = false ->
  Completion.planCompletionBlocker state evidence = None ->
  exists task' document',
    activeTask (reduceLifecycleState after (planEvent "plan.completed" toolCallId (task_taskId task) document
                  (publicPlan document true next) evidence)) = Some task'
    /\ task_planning task' = plan_completed document' (turnId (turn state))
    /\ plan_moved updates document document'.
Proof using Hwf Hnamed Hturn Hactive Hplan Hschema Hforward Hevidence.
  intros after Hwf' Hu Hs Hb.
  pose proof (after_task state task document mode since updates reference ids Hwf Hactive) as Hafter.
  destruct (after_frame state task document mode since updates reference ids) as (Ha & _ & _ & _ & Ht & _).
  pose proof (after_projected _ _ _ _ _ _ reference ids Hwf Hactive Hplan Hschema Hb) as Hp.
  rewrite (after_event _ _ _ _ _ _ reference ids Hwf Hactive Hplan Hschema Hb).
  fold after in Hafter, Ha, Ht, Hp |- *. set (task1 := movedTask state task document mode since updates) in *.
  assert (Hn' : named_task after) by (unfold named_task; by rewrite Ha).
  assert (Hf' : forward moved updates) by (by eapply after_forward).
  assert (He' : isPlanCompletionEvidence (VObj (projected after moved updates)) = true) by (by rewrite Hp).
  pose proof (completion_taken after task1 moved mode since updates toolCallId true Hwf' Hn' Hafter eq_refl Hschema
    Hf' He' eq_refl) as Htaken.
  change (task_taskId task1) with (task_taskId task) in Htaken. rewrite Htaken.
  - exists (closedTask after task1 moved updates), (closedDocument after moved updates). split_and!.
    + unfold activeTask. cbn. rewrite Ha. destruct (task_named state task Hwf Hactive) as [-> Hne].
      cbn [opt_nonempty]. rewrite Hne. apply oget_oset_eq.
    + cbn. by rewrite Ht.
    + apply closing_moves; [by eapply moved_valid|by eapply closed_valid].
  - by rewrite (after_unfinished _ _ _ _ _ _ Hwf Hactive Hplan Hschema).
  - by rewrite (after_all_skipped _ _ _ _ _ _ Hwf Hactive Hplan Hschema).
  - by apply (after_unblocked _ _ _ _ _ _ reference ids Hwf Hactive Hplan Hschema Hb).
Qed.
End Result.

End Action.

(** ** Instances *)

Definition finishCommand : UpdatePlanCommand :=
  {| up_identity := [("plan_id", VStr "plan"); ("version", VNum (Fin 1));
                     ("structural_digest", VStr lifecycleDigest)];
     up_updates := [[("step_id", VStr "edit"); ("status", VStr "completed"); ("note", VStr "Edited.")]];
     up_completePlan := true |}.

Definition finishAction : res RuntimeActionEmission :=
  Eval vm_compute in @updatePlanAction host0 approvedPlan "update" finishCommand.

Definition finishEvents : list obj :=
  match finishAction with Ok (action_accepted _ events) => events | _ => [] end.

