(* ===== verification/IntentClaims.v ===== *)
(** * What the intent reducer promises

    Ended calls are final, the work lists hold open calls only, and the
    transcript reports each ending once, with the results of one model message
    in the order of their calls. *)

From S2P Require Import Prelude Js State Sample SchedulerClaims Normalization Recovery Completion CompletionProps Intent.
From stdpp Require Import prelude strings list.
From Stdlib Require Import ZArith Lia Permutation Sorted.
Open Scope Z_scope.

(** ** Finality *)

(** The call without its network decisions, which may still be appended. *)
Definition settled_part (call : AgentToolCallState) : AgentToolCallState :=
  call <| tc_networkDecisions := None |>.

Section Host.
Context `{JsHost}.

Lemma openCall_some state payload id call : openCall state payload = Some (id, call) ->
  oget id (calls (tools state)) = Some call /\ endedToolStatus (tc_status call) = false.
Proof.
  unfold openCall. destruct (nonEmptyStringField _ _) as [i|]; [|done].
  destruct (oget i _) as [c|] eqn:E; [|done]. destruct (endedToolStatus _) eqn:Et; [done|].
  by intros [= <- <-].
Qed.

Lemma tools_putCall state id call old : oget id (calls (tools state)) = Some old ->
  tools (putCall state id call) = (tools state) <| calls := oset id call (calls (tools state)) |>.
Proof. intros E. unfold putCall, updateToolCall. by rewrite E. Qed.

(** The work lists with one call moved. *)
Definition moved (t : AgentToolsState) (calls' : ordmap AgentToolCallState) (id : string)
    (active' queued : bool) : AgentToolsState :=
  {| calls := calls'; queue := replaceStringInList (queue t) id queued;
     active := replaceStringInList (active t) id active' |}.

(** The abstract life of a call: created in the queue, started, ended once, and
    annotated.  An unknown rejected call is dropped from the lists. *)
Inductive tools_step (t : AgentToolsState) : AgentToolsState -> Prop :=
| ts_same : tools_step t t
| ts_queue id call : oget id (calls t) = None -> tc_status call = t_queued ->
    tools_step t (moved t (oset id call (calls t)) id false true)
| ts_start id old call : oget id (calls t) = Some old ->
    endedToolStatus (tc_status old) = false -> tc_status call = t_running ->
    tools_step t (moved t (oset id call (calls t)) id true false)
| ts_end id old call : oget id (calls t) = Some old ->
    endedToolStatus (tc_status old) = false -> endedToolStatus (tc_status call) = true ->
    tools_step t (moved t (oset id call (calls t)) id false false)
| ts_drop id : oget id (calls t) = None -> tools_step t (moved t (calls t) id false false)
| ts_note id old call : oget id (calls t) = Some old -> tc_status call = tc_status old ->
    (endedToolStatus (tc_status old) = true -> settled_part call = settled_part old) ->
    tools_step t (t <| calls := oset id call (calls t) |>).

Lemma terminalCall_status event call st outcome :
  tc_status (terminalCall event call st outcome) = st.
Proof. unfold terminalCall. by repeat case_match. Qed.

Lemma intentTerminalStatus_terminal event outcome st :
  intentTerminalStatus event outcome = Some st -> endedToolStatus st = true.
Proof. unfold intentTerminalStatus. repeat case_match; by intros [= <-]. Qed.

Lemma queued_step state event state' : tool_queued state event = Ok state' ->
  tools_step (tools state) (tools state').
Proof.
  unfold tool_queued. destruct (nonEmptyStringField _ "toolCallId") as [id|];
    [|intros [= <-]; constructor].
  destruct (nonEmptyStringField _ "name") as [name|]; [|intros [= <-]; constructor].
  destruct (ohas id _) eqn:Eo; [intros [= <-]; constructor|].
  intros (fp & _ & [= <-])%bind_ok.
  match goal with |- context [oset id ?c _] => apply (ts_queue (tools state) id c); [|done] end.
  unfold ohas in Eo. by destruct (oget id _).
Qed.

Lemma started_step state event : tools_step (tools state) (tools (tool_call_started state event)).
Proof.
  unfold tool_call_started. destruct (openCall _ _) as [[id c]|] eqn:Eo; [|constructor].
  apply openCall_some in Eo as [Eo Et]. unfold withToolMembership. cbn [tools].
  erewrite !tools_putCall by done.
  match goal with |- context [oset id ?c' _] => by apply (ts_start (tools state) id c c') end.
Qed.

Lemma ended_step state event : tools_step (tools state) (tools (tool_ended state event)).
Proof.
  unfold tool_ended. destruct (nonEmptyStringField _ _) as [id|]; [|constructor].
  destruct (intentTerminalStatus _ _) as [st|] eqn:Es; [|constructor].
  destruct (oget id _) as [c|] eqn:Eo.
  - destruct (endedToolStatus _) eqn:Et; [constructor|].
    apply (ts_end (tools state) id c (terminalCall event c st (canonicalOutcome event))); [done..|].
    rewrite terminalCall_status. by eapply intentTerminalStatus_terminal.
  - destruct (_ =s _); [by apply (ts_drop (tools state))|constructor].
Qed.

Lemma retry_step state event : tools_step (tools state) (tools (tool_retry_recorded state event)).
Proof.
  unfold tool_retry_recorded. destruct (openCall _ _) as [[id c]|] eqn:Eo; [|constructor].
  destruct (nonEmptyStringField _ _); [|constructor].
  apply openCall_some in Eo as [Eo Et]. erewrite tools_putCall by done.
  eapply ts_note; [done..|]. by rewrite Et.
Qed.

Lemma network_step state event :
  tools_step (tools state) (tools (network_admission_decided state event)).
Proof.
  unfold network_admission_decided. destruct (nonEmptyStringField _ _) as [id|]; [|constructor].
  destruct (recordField _ _) as [d|]; [|constructor].
  destruct (oget id _) as [c|] eqn:Eo; [|constructor].
  destruct (opt_str_eqb _ _); [|constructor].
  case_match; [constructor|]. erewrite tools_putCall by done. by eapply ts_note.
Qed.

(** The reducer refines the abstract life of calls. *)
Lemma intent_step state event state' : reduceIntentState state event = Ok state' ->
  tools_step (tools state) (tools state').
Proof.
  unfold reduceIntentState. destruct (ev_type event =s "tool.queued"); [apply queued_step|].
  destruct (ev_type event =s "tool.started"); [intros [= <-]; apply started_step|].
  destruct (_ || (ev_type event =s "tool.cancelled")); [intros [= <-]; apply ended_step|].
  destruct (ev_type event =s "tool.retry_recorded"); [intros [= <-]; apply retry_step|].
  destruct (ev_type event =s "network.admission_decided"); intros [= <-];
    [apply network_step|constructor].
Qed.


(** ** Work lists *)

Definition open_call (calls' : ordmap AgentToolCallState) (id : string) : Prop :=
  exists call, oget id calls' = Some call /\ endedToolStatus (tc_status call) = false.

(** The work lists are disjoint lists of distinct open calls. *)
Record lists_ok (t : AgentToolsState) : Prop := {
  lo_queue : NoDup (queue t);
  lo_active : NoDup (active t);
  lo_disjoint : forall id, In id (queue t) -> ~ In id (active t);
  lo_open : forall id, In id (queue t) \/ In id (active t) -> open_call (calls t) id }.

Lemma replace_NoDup l s p : NoDup l -> NoDup (replaceStringInList l s p).
Proof.
  intros Hl. unfold replaceStringInList.
  assert (Hf : NoDup (List.filter (fun c => negb (c =s s)) l)).
  { apply NoDup_ListNoDup, List.NoDup_filter. by apply NoDup_ListNoDup. }
  destruct p; [|done]. apply NoDup_app. split_and!; [done| |apply NoDup_singleton].
  intros x Hx%list_elem_of_In Hs%list_elem_of_singleton. subst x.
  apply filter_In in Hx as [_ Hx]. by rewrite String.eqb_refl in Hx.
Qed.

(** Moving one call between the lists. *)
Lemma membership_ok t id a q m : lists_ok t -> a && q = false ->
  (forall id', id' <> id -> oget id' m = oget id' (calls t)) ->
  (a || q = true -> open_call m id) ->
  lists_ok (moved t m id a q).
Proof.
  intros [Hq Ha Hd Ho] Haq Hm Hid. split; cbn; [by apply replace_NoDup..| |].
  - intros x. rewrite !In_replaceStringInList. intros [[Hx Hne]|[-> ->]] [[Hy ?]|[-> ?]];
      try done. by eapply Hd.
  - intros x. rewrite !In_replaceStringInList.
    destruct (decide (x = id)) as [->|Hne].
    + intros [[[_ []]|[-> _]]|[[_ []]|[-> _]]]; try done; apply Hid; [apply orb_true_r|done].
    + intros Hx. destruct (Ho x) as (c & Hc & Ht); [intuition congruence|].
      exists c. by rewrite Hm.
Qed.

(** Rewriting a call that stays open. *)
Lemma rewrite_ok t id old call : lists_ok t -> oget id (calls t) = Some old ->
  endedToolStatus (tc_status call) = endedToolStatus (tc_status old) ->
  lists_ok (t <| calls := oset id call (calls t) |>).
Proof.
  intros [Hq Ha Hd Ho] Hold Hst. split; try done. intros x Hx.
  destruct (Ho x Hx) as (c & Hc & Ht). cbn. unfold open_call.
  destruct (decide (x = id)) as [->|Hne].
  - rewrite oget_oset_eq. eexists. split; [done|]. congruence.
  - rewrite oget_oset_ne by done. eauto.
Qed.

(** The work lists hold open calls only.  The queue and the active list are
    disjoint, without repetitions, and name calls that exist and have not ended;
    every event of the intent reducer keeps this. *)
Theorem work_lists_hold_open_calls state event state' :
  lists_ok (tools state) -> reduceIntentState state event = Ok state' -> lists_ok (tools state').
Proof.
  intros Hok Hs%intent_step.
  destruct Hs as [|i c Hn Hc|i old c Ho Hot Hc|i old c Ho Hot _|i Hn|i old c Ho Hst _]; [done|..].
  5: { eapply rewrite_ok; [done..|]. by rewrite Hst. }
  all: apply membership_ok; [done..|try done; by intros; apply oget_oset_ne|]; intros Hx; try done;
    (eexists; split; [apply oget_oset_eq|by rewrite Hc]).
Qed.
End Host.

(** ** The transcript *)

(** A message without its position. *)
Definition strip (message : obj) : obj := odelete "ordinal" message.

Lemma odelete_oset {A} k (v : A) m : odelete k (oset k v m) = odelete k m.
Proof.
  unfold odelete. induction m as [|[k' v'] m IH]; cbn; [by rewrite String.eqb_refl|].
  destruct (k =s k') eqn:E; cbn.
  - apply eqb_true in E as ->. by rewrite String.eqb_refl.
  - rewrite E. cbn. by rewrite IH.
Qed.

Lemma renumber_strip n l : List.map strip (renumberFrom n l) = List.map strip l.
Proof.
  revert n. induction l as [|m l IH]; intros n; cbn; [done|].
  f_equal; [apply odelete_oset|apply IH].
Qed.

Lemma renumber_nth n l i m : nth_error (renumberFrom n l) i = Some m ->
  get m "ordinal" = VNum (Fin (n + Z.of_nat i)).
Proof.
  revert n i. induction l as [|x l IH]; intros n [|i]; cbn; try done.
  - intros [= <-]. rewrite get_oset_eq. do 2 f_equal. lia.
  - intros Hm. rewrite (IH _ _ Hm). do 2 f_equal. lia.
Qed.

Lemma renumber_filter p n l : (forall v m, p (oset "ordinal" v m) = p m) ->
  List.map strip (List.filter p (renumberFrom n l)) = List.map strip (List.filter p l).
Proof.
  intros Hp. revert n. induction l as [|m l IH]; intros n; cbn; [done|].
  rewrite Hp. destruct (p m); cbn; rewrite IH; [|done]. f_equal. apply odelete_oset.
Qed.

(** Writing messages back in the places of those that satisfy [p]. *)
Lemma writeBack_perm p l ordered : length ordered = length (List.filter p l) ->
  Permutation (writeBack p l ordered) (ordered ++ List.filter (fun m => negb (p m)) l).
Proof.
  revert ordered. induction l as [|m l IH]; intros ordered Ho; cbn in Ho |- *.
  { by destruct ordered. }
  destruct (p m); cbn.
  - destruct ordered as [|x ordered]; [done|]. injection Ho as Ho. cbn. by constructor; apply IH.
  - rewrite IH by done. apply Permutation_middle.
Qed.

Lemma filter_split {A} (p : A -> bool) l :
  Permutation l (List.filter p l ++ List.filter (fun m => negb (p m)) l).
Proof.
  induction l as [|m l IH]; cbn; [done|]. destruct (p m); cbn; [by constructor|].
  rewrite IH at 1. apply Permutation_middle.
Qed.

Lemma filter_writeBack p l ordered : length ordered = length (List.filter p l) ->
  Forall (fun m => p m = true) ordered -> List.filter p (writeBack p l ordered) = ordered.
Proof.
  revert ordered. induction l as [|m l IH]; intros ordered Ho Hp; cbn in Ho |- *.
  { by destruct ordered. }
  destruct (p m) eqn:E; cbn; [|rewrite E; by apply IH].
  destruct ordered as [|x ordered]; [done|]. injection Ho as Ho.
  apply Forall_cons in Hp as [Hx Hp]. cbn. rewrite Hx. f_equal. by apply IH.
Qed.

Lemma writeBack_nth p l ordered i m : nth_error l i = Some m -> p m = false ->
  nth_error (writeBack p l ordered) i = Some m.
Proof.
  revert ordered i. induction l as [|x l IH]; intros ordered [|i]; cbn; try done.
  - intros [= <-] ->. done.
  - intros Hi Hm. destruct (p x); [destruct ordered|]; cbn; by apply IH.
Qed.

Lemma renumber_nth_strip n l i m : nth_error l i = Some m ->
  exists m', nth_error (renumberFrom n l) i = Some m' /\ strip m' = strip m.
Proof.
  revert n i. induction l as [|x l IH]; intros n [|i]; cbn; try done; [|by apply IH].
  intros [= ->]. eexists. split; [done|]. apply odelete_oset.
Qed.

(** *** Order *)

Lemma sorted_map {A} (R : A -> A -> Prop) f l : (forall a b, R (f a) (f b) <-> R a b) ->
  StronglySorted R (List.map f l) <-> StronglySorted R l.
Proof.
  intros Hf. induction l as [|x l IH]; cbn; [split; constructor|].
  split; intros Hs; apply StronglySorted_inv in Hs as [Hs Hx]; constructor;
    try (by apply IH); apply Forall_forall; rewrite Forall_forall in Hx;
    intros y Hy%list_elem_of_In.
  - apply Hf, Hx, list_elem_of_In, in_map_iff. by exists y.
  - apply in_map_iff in Hy as (z & <- & Hz). by apply Hf, Hx, list_elem_of_In.
Qed.

Section Transcript.
Variable state : AgentState.

Lemma messageCall_oset v m : messageCall state (oset "ordinal" v m) = messageCall state m.
Proof.
  unfold messageCall, textOf, stringField. by rewrite !get_oset_ne.
Qed.

Lemma messageCall_strip m : messageCall state (strip m) = messageCall state m.
Proof.
  unfold messageCall, textOf, stringField, strip, get. by rewrite !oget_odelete_ne.
Qed.

Lemma ordinalLe_total a b : ordinalLe state a b = true \/ ordinalLe state b a = true.
Proof.
  unfold ordinalLe. destruct (messageCall state a ≫= _), (messageCall state b ≫= _); auto.
  rewrite !Z.leb_le. lia.
Qed.

Lemma ordinalLe_trans a b c :
  ordinalLe state a b = true -> ordinalLe state b c = true -> ordinalLe state a c = true.
Proof.
  unfold ordinalLe.
  destruct (messageCall state a ≫= _), (messageCall state b ≫= _), (messageCall state c ≫= _);
    try done. rewrite !Z.leb_le. lia.
Qed.

(** What appending a tool message of a call does to the transcript. *)
Lemma appended_transcript message call :
  oget (textOf message "toolCallId") (calls (tools state)) = Some call ->
  str_nonempty (tc_modelMessageId call) = true ->
  let p := sameModelMessage state (tc_modelMessageId call) in
  let old := messages (transcript state) ++ [message] in
  let new := messages (appendToolTranscript state message) in
  Permutation (List.map strip new) (List.map strip old)
  /\ (forall i m, nth_error new i = Some m -> get m "ordinal" = VNum (Fin (Z.of_nat i)))
  /\ StronglySorted (fun a b => ordinalLe state a b = true) (List.filter p new)
  /\ (forall i m, nth_error old i = Some m -> p m = false ->
        exists m', nth_error new i = Some m' /\ strip m' = strip m).
Proof.
  intros Hc Hm p old new.
  assert (Hnew : new = renumberFrom 0 (writeBack p old (sort_by (ordinalLe state) (List.filter p old)))).
  { unfold new, appendToolTranscript. rewrite Hc, Hm. done. }
  set (ordered := sort_by _ _) in Hnew.
  assert (Hperm : Permutation (List.filter p old) ordered) by apply sort_by_perm.
  assert (Hlen : length ordered = length (List.filter p old)).
  { symmetry. by apply Permutation_length. }
  rewrite Hnew. split_and!.
  - rewrite renumber_strip. apply Permutation_map. rewrite writeBack_perm, <- Hperm by done.
    symmetry. apply filter_split.
  - intros i m Hi. by rewrite (renumber_nth _ _ _ _ Hi).
  - rewrite <- (sorted_map _ strip), renumber_filter.
    + rewrite filter_writeBack; [|done|].
      * apply sorted_map; [|apply sort_by_sorted; [apply ordinalLe_total|apply ordinalLe_trans]].
        intros a b. unfold ordinalLe. by rewrite !messageCall_strip.
      * apply Forall_forall. intros x Hx%list_elem_of_In.
        apply (Permutation_in x (Permutation_sym Hperm)) in Hx. by apply filter_In in Hx as [_ Hx].
    + intros v m. unfold p, sameModelMessage. by rewrite messageCall_oset.
    + intros a b. unfold ordinalLe. by rewrite !messageCall_strip.
  - intros i m Hi Hpm. apply renumber_nth_strip. by apply writeBack_nth.
Qed.
End Transcript.

Lemma terminalTranscript_call state event call outcome :
  textOf (terminalTranscript state event call outcome) "toolCallId" = tc_toolCallId call.
Proof. unfold terminalTranscript. by repeat case_match. Qed.

(** The transcript reports endings in order.  When an open call ends, exactly
    one message is added; apart from positions the messages are the old ones and
    it.  Every message carries its position; the results of one model message
    stand in the order of their calls; all other messages keep their places. *)
Theorem transcript_reports_endings_in_order `{JsHost} state event state' id call st :
  reduceIntentState state event = Ok state' ->
  nonEmptyStringField event "toolCallId" = Some id ->
  intentTerminalStatus event (canonicalOutcome event) = Some st ->
  oget id (calls (tools state)) = Some call -> tc_toolCallId call = id ->
  endedToolStatus (tc_status call) = false -> tc_modelMessageId call <> "" ->
  let message := terminalTranscript state event call (canonicalOutcome event) in
  let p := sameModelMessage state (tc_modelMessageId call) in
  let old := messages (transcript state) ++ [message] in
  let new := messages (transcript state') in
  Permutation (List.map strip new) (List.map strip old)
  /\ (forall i m, nth_error new i = Some m -> get m "ordinal" = VNum (Fin (Z.of_nat i)))
  /\ StronglySorted (fun a b => ordinalLe state a b = true) (List.filter p new)
  /\ (forall i m, nth_error old i = Some m -> p m = false ->
        exists m', nth_error new i = Some m' /\ strip m' = strip m).
Proof.
  intros Hr Hid Hst Hc Hkey Ht Hm.
  assert (Htype : tool_ended state event = state').
  { unfold reduceIntentState in Hr. unfold intentTerminalStatus in Hst.
    assert (Hin : In (ev_type event) ["tool.finished"; "tool.failed"; "tool.rejected"; "tool.cancelled"]).
    { cbn. repeat (match type of Hst with (if ev_type event =s ?t then _ else _) = _ =>
        destruct (ev_type event =s t) eqn:E; [apply eqb_true in E; rewrite E; tauto|clear E] end).
      done. }
    destruct Hin as [E|[E|[E|[E|[]]]]]; rewrite <- E in Hr; cbn in Hr; by simplify_eq. }
  rewrite <- Htype. unfold tool_ended. rewrite Hid, Hst, Hc, Ht.
  apply appended_transcript.
  - by rewrite terminalTranscript_call, Hkey.
  - by destruct (tc_modelMessageId call).
Qed.

(** ** Instances *)

(** Two calls of one model message; the second has ended and is reported. *)
Definition firstRead : AgentToolCallState := (demoCall "a" t_running) <| tc_ordinal := Some 0 |>.
Definition secondRead : AgentToolCallState := (demoCall "b" t_succeeded) <| tc_ordinal := Some 1 |>.
Definition reportOfSecond : obj :=
  [("kind", VStr "tool"); ("toolCallId", VStr "b"); ("ordinal", VNum (Fin 0))].

Definition halfDone : AgentState :=
  demo <| tools := {| calls := [("a", firstRead); ("b", secondRead)]; queue := []; active := ["a"] |} |>
    <| transcript := {| messages := [reportOfSecond]; final := None |} |>.

Definition cancelFirst : obj :=
  [("type", VStr "tool.cancelled"); ("toolCallId", VStr "a"); ("reason", VStr "stop")].

Definition allDone : AgentState := tool_ended halfDone cancelFirst.


Lemma work_lists_hold_open_calls_witness : lists_ok (tools halfDone) /\ lists_ok (tools allDone).
Proof.
  assert (Hok : lists_ok (tools halfDone)).
  { split; cbn; [apply NoDup_nil_2|apply NoDup_singleton|done|].
    intros id [[]|[<-|[]]]. by exists firstRead. }
  split; [done|]. by apply (@work_lists_hold_open_calls host0 halfDone cancelFirst allDone).
Defined.

(** The first call is reported before the second, though it ended later. *)
Lemma transcript_reports_endings_in_order_witness :
  List.map (fun m => get m "toolCallId") (messages (transcript allDone)) = [VStr "a"; VStr "b"]
  /\ StronglySorted (fun a b => ordinalLe halfDone a b = true)
       (List.filter (sameModelMessage halfDone "m1") (messages (transcript allDone))).
Proof.
  split; [reflexivity|].
  by apply (@transcript_reports_endings_in_order host0 halfDone cancelFirst allDone "a" firstRead
              t_cancelled).
Defined.
