(* ===== verification/VerificationClaims.v ===== *)
(** * What the verification reducer promises

    Records follow the life cycle [vstep], their contract never changes, and a
    required verification is settled only by a passing run or by the user. *)

From S2P Require Import Prelude Js State Sample Completion Verification.
From stdpp Require Import prelude strings list.
From Stdlib Require Import ZArith Lia.
Open Scope Z_scope.

(** ** The abstract life cycle *)

(** What a record was requested for. *)
Definition contract (record : obj) : list val :=
  List.map (get record) ["verificationId"; "taskId"; "mode"; "spec"; "requestedAt"].

(** The status an event may give a record. *)
Inductive vstep (event current : obj) : string -> Prop :=
| vs_keep : vstep event current (statusOf current)
| vs_start : ev_type event = "verification.started" ->
    In (statusOf current) ["pending"; "running"; "repair_pending"] -> vstep event current "running"
| vs_pass : ev_type event = "verification.completed" -> statusOf current = "running" ->
    textOf event "outcome" = "passed" -> vstep event current "passed"
| vs_fail : ev_type event = "verification.completed" -> statusOf current = "running" ->
    In (textOf event "outcome") ["failed"; "inconclusive"] -> repairsSpent current = false ->
    vstep event current (textOf event "outcome")
| vs_exhaust : ev_type event = "verification.completed" -> statusOf current = "running" ->
    In (textOf event "outcome") ["failed"; "inconclusive"] -> repairsSpent current = true ->
    vstep event current "budget_exhausted"
| vs_repair : ev_type event = "verification.repair_requested" ->
    In (statusOf current) ["failed"; "inconclusive"] -> vstep event current "repair_pending"
| vs_replan : ev_type event = "verification.replan_requested" ->
    ~ In (statusOf current) ["passed"; "waived"] -> vstep event current "repair_pending"
| vs_waive reason : ev_type event = "verification.waived" -> statusOf current <> "passed" ->
    get event "actor" = VStr "user" -> nonEmptyStringField event "reason" = Some reason ->
    vstep event current "waived"
| vs_compensate : ev_type event = "verification.compensation_requested" ->
    In (statusOf current) ["failed"; "inconclusive"; "budget_exhausted"] ->
    vstep event current "compensating"
| vs_compensated : ev_type event = "verification.compensation_completed" ->
    statusOf current = "compensating" -> vstep event current "compensated".

(** The record an event leaves in place of [current]. *)
Definition advances (event current record : obj) : Prop :=
  contract record = contract current /\ vstep event current (statusOf record).

(** The status a request may give a new record. *)
Definition opening (event record : obj) : Prop :=
  ev_type event = "verification.requested" /\ get record "mode" = get event "mode"
  /\ (statusOf record = "passed" /\ get event "mode" = VStr "not_required"
      \/ In (statusOf record) ["pending"; "budget_exhausted"]).

(** ** Frame of the updates *)

Lemma statusOf_oset_eq s record : statusOf (oset "status" (VStr s) record) = s.
Proof. unfold statusOf, textOf, stringField. by rewrite get_oset_eq. Qed.

Lemma statusOf_oset_ne k v record : k <> "status" -> statusOf (oset k v record) = statusOf record.
Proof. intros Hk. unfold statusOf, textOf, stringField. by rewrite get_oset_ne. Qed.

Lemma contract_oset k v record :
  ~ In k ["verificationId"; "taskId"; "mode"; "spec"; "requestedAt"] ->
  contract (oset k v record) = contract record.
Proof.
  intros Hk. unfold contract. apply map_ext_in. intros f Hf. apply get_oset_ne. by intros ->.
Qed.

Lemma get_withRecord state id record k :
  oget k (verification (withRecord state id record)) =
  if k =s id then Some record else oget k (verification state).
Proof. unfold withRecord. cbn. by rewrite oget_oset. Qed.

Lemma verification_append state id text :
  verification (appendInstruction state id text) = verification state.
Proof. done. Qed.

(** Either nothing changes, or this record advances. *)
Definition updated (state : AgentState) (id : string) (event current : obj) (state' : AgentState)
  : Prop :=
  verification state' = verification state
  \/ exists record, verification state' = oset id record (verification state)
       /\ advances event current record.

Ltac keep := by left.
Ltac contract_frame := repeat (rewrite contract_oset by (cbn; intuition discriminate)); reflexivity.
Ltac status_frame := rewrite ?statusOf_oset_ne by discriminate; rewrite ?statusOf_oset_eq.
Ltac advance := right; eexists; split; [reflexivity|split; [contract_frame|status_frame]].

Section Steps.
Context (state : AgentState) (id : string) (current event : obj).

Lemma started_updates : ev_type event = "verification.started" ->
  updated state id event current (verification_started state id current event).
Proof.
  intros Ht. unfold verification_started. destruct (str_in _ _) eqn:E; [|keep].
  destruct (safeNatural _ _); [|keep]. advance. apply vs_start; [done|by apply str_in_true].
Qed.

Lemma check_updates :
  updated state id event current (verification_check_completed state id current event).
Proof.
  unfold verification_check_completed. destruct (_ =s _); [|keep].
  destruct (recordField event _); [|keep]. destruct (nonEmptyStringField _ _); [|keep].
  advance. constructor.
Qed.

Lemma completed_updates : ev_type event = "verification.completed" ->
  updated state id event current (verification_completed state id current event).
Proof.
  intros Ht. unfold verification_completed. destruct (_ && _) eqn:E; [|keep].
  apply andb_true_iff in E as [Er%eqb_true Eo%str_in_true]. advance.
  destruct (textOf event "outcome" =s "passed") eqn:Ep; [apply eqb_true in Ep; by apply vs_pass|].
  assert (Hf : In (textOf event "outcome") ["failed"; "inconclusive"]).
  { apply eqb_false in Ep. cbn in Eo |- *. intuition congruence. }
  destruct (repairsSpent current) eqn:Es; [by apply vs_exhaust|].
  destruct (textOf event "outcome" =s "failed") eqn:Ef.
  - apply eqb_true in Ef. rewrite <- Ef. by apply vs_fail.
  - apply eqb_false in Ef. replace "inconclusive" with (textOf event "outcome"); [by apply vs_fail|].
    cbn in Hf. intuition congruence.
Qed.

Lemma repair_updates : ev_type event = "verification.repair_requested" ->
  updated state id event current (verification_repair_requested state id current event).
Proof.
  intros Ht. unfold verification_repair_requested. destruct (str_in _ _) eqn:E; [|keep].
  destruct (safeNatural _ _); [|keep]. destruct (stringField _ _); [|keep].
  advance. apply vs_repair; [done|by apply str_in_true].
Qed.

Lemma replan_updates : ev_type event = "verification.replan_requested" ->
  updated state id event current (verification_replan_requested state id current event).
Proof.
  intros Ht. unfold verification_replan_requested. destruct (str_in _ _) eqn:E; [keep|].
  destruct (stringField _ _); [|keep]. advance. apply vs_replan; [done|].
  intros Hin%str_in_true. congruence.
Qed.

Lemma waived_updates : ev_type event = "verification.waived" ->
  updated state id event current (verification_waived state id current event).
Proof.
  intros Ht. unfold verification_waived.
  destruct (nonEmptyStringField event "reason") as [reason|] eqn:Er; [|keep].
  destruct (nonEmptyStringField event "waivedAt"); [|keep].
  destruct (_ || _) eqn:E; [keep|].
  apply orb_false_iff in E as [Ep%eqb_false Ea%negb_false_iff%is_str_true].
  advance. by eapply vs_waive.
Qed.

Lemma compensation_requested_updates : ev_type event = "verification.compensation_requested" ->
  updated state id event current (compensation_requested state id current).
Proof.
  intros Ht. unfold compensation_requested. destruct (recordField _ _); [|keep].
  destruct (_ && _) eqn:E; [|keep]. apply andb_true_iff in E as [_ E%str_in_true].
  advance. by apply vs_compensate.
Qed.

Lemma compensation_completed_updates : ev_type event = "verification.compensation_completed" ->
  updated state id event current (compensation_completed state id current event).
Proof.
  intros Ht. unfold compensation_completed. destruct (stringField _ _); [|keep].
  destruct (stringField _ _); [|keep]. destruct (_ && _) eqn:E; [|keep].
  apply andb_true_iff in E as [E%eqb_true _]. advance. by apply vs_compensated.
Qed.
End Steps.

(** The effect of one event on the records. *)
Lemma reduce_updates state event facts state' :
  reduceVerificationState state event facts = Ok state' ->
  verification state' = verification state
  \/ exists id record, verification state' = oset id record (verification state)
       /\ match oget id (verification state) with
          | Some current => advances event current record
          | None => opening event record
          end.
Proof.
  unfold reduceVerificationState. destruct (nonEmptyStringField _ _) as [id|] eqn:Ei;
    [|intros [= <-]; by left].
  destruct (oget id (verification state)) as [current|] eqn:Ec.
  - intros [= <-]. enough (Hu : forall s, updated state id event current s ->
      verification s = verification state \/ exists id record,
        verification s = oset id record (verification state)
        /\ match oget id (verification state) with
           | Some current => advances event current record
           | None => opening event record end).
    2: { intros s [?|(r & Hr & Ha)]; [by left|right]. exists id, r. by rewrite Ec. }
    repeat match goal with
    | |- context [if ev_type event =s ?t then _ else _] =>
        let E := fresh "E" in destruct (ev_type event =s t) eqn:E; [apply eqb_true in E|clear E]
    end; [apply Hu..|by left];
    eauto using started_updates, check_updates, completed_updates, repair_updates, replan_updates,
      waived_updates, compensation_requested_updates, compensation_completed_updates.
  - destruct (_ =s _) eqn:Et; [apply eqb_true in Et|intros [= <-]; by left].
    unfold verification_requested. case_match; [intros [= <-]; by left|].
    intros (diags & _ & [= <-])%bind_ok. right. exists id. eexists. split; [reflexivity|].
    rewrite Ec. split; [done|].
    destruct (nonEmptyStringField event "taskId"); (split; [reflexivity|]); cbn;
      destruct (is_str (get event "mode") "not_required") eqn:Em;
      try (left; split; [reflexivity|by apply is_str_true]); right; cbn; destruct diags; tauto.
Qed.

(** Verification records follow their life cycle.  An event leaves every
    record's contract (identity, task, mode, specification, request time) as it
    was requested and moves its status along [vstep]; a new record starts
    pending, or refused, or passed when no verification is required. *)
Theorem verification_refines_lifecycle state event facts state' id :
  reduceVerificationState state event facts = Ok state' ->
  match oget id (verification state), oget id (verification state') with
  | Some current, Some record => advances event current record
  | None, Some record => opening event record
  | None, None => True
  | Some _, None => False
  end.
Proof.
  assert (Hrefl : forall r, advances event r r) by (intros r; split; [done|constructor]).
  intros [->|(k & record & -> & Ha)]%reduce_updates.
  - by destruct (oget id _).
  - rewrite oget_oset. destruct (id =s k) eqn:E; [apply eqb_true in E as ->|].
    + by destruct (oget k (verification state)).
    + by destruct (oget id (verification state)).
Qed.

Lemma settled_status record : passedOrWaived record = true <->
  statusOf record = "passed" \/ statusOf record = "waived".
Proof.
  unfold passedOrWaived, statusOf, textOf, stringField.
  destruct (get record "status"); cbn; rewrite ?orb_true_iff, ?eqb_true; intuition congruence.
Qed.

(** A settled status is kept. *)
Lemma settled_kept event current s : vstep event current s -> passedOrWaived current = true ->
  s = statusOf current.
Proof.
  intros Hv Hs%settled_status.
  destruct Hv; try done; destruct Hs as [Hs|Hs]; rewrite Hs in *; cbn in *;
    first [done|intuition congruence].
Qed.

(** A status that settles an open record. *)
Lemma settled_by event current s : vstep event current s -> passedOrWaived current = false ->
  s = "passed" \/ s = "waived" ->
  (ev_type event = "verification.completed" /\ textOf event "outcome" = "passed"
   /\ statusOf current = "running")
  \/ (ev_type event = "verification.waived" /\ get event "actor" = VStr "user"
      /\ exists reason, nonEmptyStringField event "reason" = Some reason).
Proof.
  intros Hv Hs Hset. destruct Hv as [|?|? ? ?|? ? Hin|?|?|?|? ? ? ? ?|?|?]; try (by destruct Hset).
  - exfalso. rewrite <- not_true_iff_false, settled_status in Hs. done.
  - left. done.
  - exfalso. cbn in Hin. destruct Hset as [Hset|Hset]; rewrite Hset in Hin; intuition congruence.
  - right. eauto.
Qed.

(** C33: a required verification is earned.  When one that was open becomes
    settled, either its run was completed as passed, or the user waived it with a
    reason; and a settled record keeps its status under every later event. *)
Theorem required_verification_is_earned state event facts state' id record record' :
  reduceVerificationState state event facts = Ok state' ->
  oget id (verification state) = Some record -> oget id (verification state') = Some record' ->
  (passedOrWaived record = true -> statusOf record' = statusOf record)
  /\ (passedOrWaived record = false -> passedOrWaived record' = true ->
      (ev_type event = "verification.completed" /\ textOf event "outcome" = "passed"
       /\ statusOf record = "running")
      \/ (ev_type event = "verification.waived" /\ get event "actor" = VStr "user"
          /\ exists reason, nonEmptyStringField event "reason" = Some reason)).
Proof.
  intros Hr H1 H2.
  assert (Ha : advances event record record').
  { apply reduce_updates in Hr as [Hr|(k & r & Hr & Ha)]; rewrite Hr in H2.
    - assert (record' = record) as -> by congruence. split; [done|constructor].
    - rewrite oget_oset in H2. destruct (id =s k) eqn:E.
      + apply eqb_true in E as ->. rewrite H1 in Ha. by simplify_eq.
      + assert (record' = record) as -> by congruence. split; [done|constructor]. }
  destruct Ha as [_ Hv]. split.
  - by eapply settled_kept.
  - intros Ho Hs%settled_status. by eapply settled_by.
Qed.

(** ** Policy *)

(** The verification mode is the strongest one asked for: it is one of the
    sources' modes, and none of them is stronger. *)
Theorem verification_mode_is_strongest facts :
  let asked := default not_required (pf_baseline facts)
               :: optional (pf_skillMode facts) ++ optional (pf_userMode facts)
               ++ match pf_capabilityEffects facts with
                  | Some effects => if kernelEffectsRequireVerification effects
                                    then [required_mode] else []
                  | None => []
                  end in
  In (resolveKernelVerificationMode facts) asked
  /\ Forall (fun mode => VERIFICATION_STRENGTH_ mode
                         <= VERIFICATION_STRENGTH_ (resolveKernelVerificationMode facts)) asked.
Proof.
  unfold resolveKernelVerificationMode. cbv zeta.
  generalize (optional (pf_skillMode facts) ++ optional (pf_userMode facts)
               ++ match pf_capabilityEffects facts with
                  | Some effects => if kernelEffectsRequireVerification effects
                                    then [required_mode] else []
                  | None => []
                  end). intros l.
  generalize (default not_required (pf_baseline facts)).
  induction l as [|m l IH]; intros b; cbn [List.fold_left].
  - split; [by left|]. by repeat constructor.
  - destruct (VERIFICATION_STRENGTH_ b <? VERIFICATION_STRENGTH_ m) eqn:E.
    + destruct (IH m) as [Hin Hle]. apply Z.ltb_lt in E. apply Forall_cons in Hle as [Hm Hle].
      split; [by right|]. repeat (constructor; [lia|]). done.
    + destruct (IH b) as [Hin Hle]. apply Z.ltb_ge in E. apply Forall_cons in Hle as [Hb Hle].
      split; [destruct Hin; [by left|by right; right]|]. repeat (constructor; [lia|]). done.
Qed.

(** ** Instances *)

Definition demoSpec : val :=
  VObj [("schemaVersion", VNum (Fin 1)); ("verificationId", VStr "v1"); ("subject", VStr "tests");
        ("repair", VObj [("maxAttempts", VNum (Fin 1))]);
        ("checks", VArr [VObj [("checkId", VStr "c1"); ("type", VStr "command");
                               ("command", VStr "make test")]])].

Definition noAdmissions : AgentReducerFacts :=
  {| allocatedTaskId := None; verificationSchemaAdmissions := VUndef |}.

Definition verificationEvent (type : string) (rest : obj) : obj :=
  ("type", VStr type) :: ("verificationId", VStr "v1") :: rest.

(** A required verification, requested and started. *)
Definition verifyingState : AgentState :=
  Eval vm_compute in
    match (let* s := reduceVerificationState demo
                       (verificationEvent "verification.requested"
                          [("mode", VStr "required"); ("spec", demoSpec)]) noAdmissions in
           reduceVerificationState s
             (verificationEvent "verification.started" [("attempt", VNum (Fin 1))]) noAdmissions) with
    | Ok s => s | Throw _ => demo end.

Definition passEvent : obj :=
  verificationEvent "verification.completed" [("outcome", VStr "passed")].

Definition verifiedState : AgentState :=
  Eval vm_compute in
    match reduceVerificationState verifyingState passEvent noAdmissions with
    | Ok s => s | Throw _ => demo end.

Lemma verification_refines_lifecycle_witness :
  exists current record, oget "v1" (verification verifyingState) = Some current
    /\ oget "v1" (verification verifiedState) = Some record /\ advances passEvent current record.
Proof.
  pose proof (verification_refines_lifecycle verifyingState passEvent noAdmissions verifiedState "v1")
    as Hv. do 2 eexists. split; [vm_compute; reflexivity|]. split; [vm_compute; reflexivity|].
  apply Hv. vm_compute. reflexivity.
Defined.

Lemma required_verification_is_earned_witness :
  exists record record', oget "v1" (verification verifyingState) = Some record
    /\ oget "v1" (verification verifiedState) = Some record'
    /\ passedOrWaived record = false /\ passedOrWaived record' = true
    /\ statusOf record = "running".
Proof.
  eexists _, _. split; [vm_compute; reflexivity|]. split; [vm_compute; reflexivity|].
  split; [reflexivity|]. split; [reflexivity|].
  edestruct (required_verification_is_earned verifyingState passEvent noAdmissions verifiedState "v1")
    as [_ He]; [vm_compute; reflexivity..|].
  destruct He as [(_ & _ & Hs)|(He & _)]; [vm_compute; reflexivity..|exact Hs|done].
Defined.
