(* ===== verification/Kernel.v ===== *)
(** * The kernel entry points ([kernel.ts], [reducer.ts])

    [decide] admits a batch of candidate events against a state: it checks the
    session, the revision and the host's facts, then normalizes, identifies,
    finalizes and reduces each event in turn.  The event codec is asked through the
    interface [KernelPorts], whose instance [codecPorts] is [codec.ts]; the normalizers, the scheduler and the eleven domain reducers are
    the ones of this development. *)

From S2P Require Import Prelude Js Hash State Authorization Normalization RecoveryReducer Lease Traits Scheduler Work CompletionReducer Verification Intent Lifecycle Interaction Capability Context Codec.
From stdpp Require Import prelude strings list pretty.
From Stdlib Require Import ZArith Lia Ascii.
Open Scope Z_scope.

(** The event codec ([codec.ts]). *)
Class KernelPorts := {
  assertCurrentRuntimeEventForWrite : obj -> res unit;
  assertCurrentRuntimeEvent : obj -> res unit }.

(** The codec of the source. *)
#[export] Instance codecPorts `{JsHost} : KernelPorts := {
  assertCurrentRuntimeEventForWrite := fun event => Codec.assertCurrentRuntimeEventForWrite (VObj event);
  assertCurrentRuntimeEvent := fun event => Codec.assertCurrentRuntimeEvent (VObj event) }.

(** ** The effect of one operation *)

Inductive OperationKind : Set := op_turn | op_compaction | op_rewind.

Record AuthorizedEffect := {
  ae_sessionId : string; ae_operationId : string; ae_operation : OperationKind;
  ae_committedRevision : Z }.

Definition authorizeEffect (input : AuthorizedEffect) : res AuthorizedEffect :=
  throw "AuthorizedEffect identity is invalid."
    when negb (str_nonempty (ae_sessionId input)) || negb (str_nonempty (ae_operationId input))
      || negb (isSafeInteger (ae_committedRevision input)) || (ae_committedRevision input <? 0) in
  Ok input.

(** ** Inputs and decisions *)

Inductive InputSource : Set := src_command | src_receipt | src_host_fact.

Record KernelInput := {
  in_source : InputSource;
  in_sessionId : string;
  in_expectedRevision : Z;
  in_events : list obj;
  in_causationId : option string }.

Record KernelEventEnvelope := {
  env_eventId : string;
  env_sessionId : string;
  env_revision : Z;
  env_occurredAt : string;
  env_causationId : option string;
  env_payload : obj }.

Inductive KernelDecision `{CompletionPort} : Type :=
| applied (events : list obj) (envelopes : list KernelEventEnvelope) (nextState : AgentState)
          (pendingEffects : list RuntimeEffect)
| rejected (code : string)
| conflict (code : string) (currentRevision : Z)
| idempotent_replay (originalRevision : Z).

Definition taskIdentityAllocationKey (eventIndex : Z) (messageId : string) : res string :=
  throw "Task identity allocation key input is invalid."
    when negb (isSafeInteger eventIndex) || (eventIndex <? 0) || negb (str_nonempty messageId) in
  Ok ("task:user-message:" +:+ pretty eventIndex +:+ ":" +:+ sha256Hex messageId).

(** ** Validation of the decision facts *)

(** A text matches a template where [d] stands for a decimal digit. *)
Fixpoint matches (template s : string) : bool :=
  match template, s with
  | EmptyString, EmptyString => true
  | String t template', String c s' =>
      (if Ascii.eqb t "d"%char then is_some (digit c) else Ascii.eqb t c) && matches template' s'
  | _, _ => false
  end.

Definition validTimestamp (value : string) : bool :=
  matches "dddd-dd-ddTdd:dd:ddZ" value || matches "dddd-dd-ddTdd:dd:dd.dddZ" value.

Definition ADMISSION_KEYS : list string :=
  ["schemaDigest"; "schemaDiagnostic"; "outputSchemaDigest"; "outputSchemaDiagnostic"]%string.

Definition validAdmissionEntry (entry : val) : bool :=
  match entry with
  | VNull => true
  | VObj o =>
      negb (match o with [] => true | _ => false end)
      && forallb (fun key => str_in key ADMISSION_KEYS) (okeys o)
      && Bool.eqb (ohas "schemaDigest" o) (ohas "schemaDiagnostic" o)
      && Bool.eqb (ohas "outputSchemaDigest" o) (ohas "outputSchemaDiagnostic" o)
      && forallb (fun key =>
           if str_in key ["schemaDigest"; "outputSchemaDigest"]%string
           then match get o key with VStr s => isHex64 s | _ => false end
           else match get o key with VNull => true | v => nonEmptyString v end) (okeys o)
  | _ => false
  end.

Definition validVerificationSchemaAdmissions (value : val) : bool :=
  match value with
  | VUndef => true
  | VArr l => forallb validAdmissionEntry l
  | _ => false
  end.

Definition validEventFact (fact : val) : bool :=
  match fact with
  | VObj o =>
      match get o "occurredAt" with VStr t => validTimestamp t | _ => false end
      && validVerificationSchemaAdmissions (get o "verificationSchemaAdmissions")
  | _ => false
  end.

Definition FACT_RECORDS : list string :=
  ["workspace"; "policy"; "provider"; "protectedPath"; "network"; "executionBoundary";
   "attempt"]%string.

Definition validDecisionFacts (facts : val) : bool :=
  match facts with
  | VObj f =>
      is_str (get f "schema") "kite.kernel-decision-facts.v1"
      && match get f "eventFacts" with VArr l => forallb validEventFact l | _ => false end
      && match get f "knownEventIds" with VArr l => forallb nonEmptyString l | _ => false end
      && match get f "allocatedIds" with
         | VObj ids => forallb (fun '(key, value) => str_nonempty key && nonEmptyString value) ids
                       && distinct (stringsIn (ovalues ids))
         | _ => false
         end
      && forallb (fun key => match get f key with
                             | VObj o => isCanonicalJsonValue (VObj o) | _ => false end)
           FACT_RECORDS
  | _ => false
  end.

(** ** Events ([reducer.ts]) *)

Definition FINALIZED_CREATED_AT_EVENTS : list string :=
  ["user.message_appended"; "model.responded"; "tool.finished"; "tool.failed"; "tool.rejected";
   "tool.cancelled"; "tool.queued"; "tool.started"; "approval.requested"; "approval.granted";
   "approval.rejected"; "auto_review.requested"; "auto_review.completed"]%string.

Definition finalizeAgentEvent (event : obj) (occurredAt : string) : obj :=
  if str_in (ev_type event) FINALIZED_CREATED_AT_EVENTS && negb (ohas "createdAt" event)
  then oset "createdAt" (VStr occurredAt) event else event.

Definition digestAgentEvent (event : obj) : res string :=
  match json_stringify (VObj event) with
  | None => Throw "Runtime event cannot be serialized."
  | Some serialized => Ok (sha256Hex serialized)
  end.

Section Kernel.
Context {ports : KernelPorts} {port : CompletionPort} {host : JsHost}.
Implicit Types (state : AgentState) (event payload : obj).

Definition normalizeAgentEvent event state (occurredAt : string) : res obj :=
  let* _ := assertCurrentRuntimeEvent event in
  Ok (normalizeAgentToolOutcomeEvent (normalizeTerminalAgentEvent event) state occurredAt).

(** The fixed order of the domains. *)
Definition FIXED_AGENT_STATE_REDUCERS
  : list (AgentState -> obj -> AgentReducerFacts -> res AgentState) :=
  [ (fun state event _ => Ok (reduceLifecycleState state event));
    (fun state event _ => Ok (reduceAuthorizationState state event));
    (fun state event _ => reduceRecoveryState state event);
    (fun state event _ => reduceIntentState state event);
    (fun state event _ => reduceLeaseState state event);
    (fun state event _ => reduceCompletionState state event);
    (fun state event _ => Ok (reduceWorkState state event));
    (fun state event _ => Ok (reduceInteractionState state event));
    (fun state event _ => reduceCapabilityState state event);
    reduceContextState;
    reduceVerificationState ].

Fixpoint applyReducers (reducers : list (AgentState -> obj -> AgentReducerFacts -> res AgentState))
    state event (facts : AgentReducerFacts) : res AgentState :=
  match reducers with
  | [] => Ok state
  | reducer :: rest => let* next := reducer state event facts in applyReducers rest next event facts
  end.

Definition reduceAgentState state event (facts : AgentReducerFacts) : res AgentState :=
  let* _ := assertCurrentRuntimeEvent event in
  let normalized := normalizeTerminalAgentEvent event in
  let* _ := assertCanonicalToolOutcomeEvent normalized in
  applyReducers FIXED_AGENT_STATE_REDUCERS state normalized facts.

(** ** The loop of [decide] *)

Record DecideLoop := {
  dl_state : AgentState;
  dl_seen : list string;
  dl_payloads : list obj;
  dl_envelopes : list KernelEventEnvelope }.

(** The Task identity the facts allocate to an opening user message: [inl] is the
    code of a rejection. *)
Definition allocateTask state payload (index : Z) (allocatedIds : obj)
  : res (string + option string) :=
  if (ev_type payload =s "user.message_appended") && negb (is_some (activeTaskId state)) then
    match get payload "messageId" with
    | VStr messageId =>
        if str_nonempty messageId then
          let* key := taskIdentityAllocationKey index messageId in
          match get allocatedIds key with
          | VStr id =>
              Ok (if negb (str_nonempty id) then inl "allocated_task_identity_missing"
                  else if ohas id (tasks state) then inl "allocated_task_identity_conflict"
                  else inr (Some id))
          | _ => Ok (inl "allocated_task_identity_missing")
          end
        else Ok (inl "allocated_task_identity_invalid")
    | _ => Ok (inl "allocated_task_identity_invalid")
    end%string
  else Ok (inr None).

(** The loop after an event is reduced: revision, journal, payload and envelope. *)
Definition admitEvent (input : KernelInput) (occurredAt eventId : string) payload
    (reduced : AgentState) (loop : DecideLoop) : DecideLoop :=
  let revision' := fadd (revision (dl_state loop)) 1 in
  {| dl_state := reduced <| revision := revision' |> <| lastAppliedEventId := Some eventId |>
       <| appliedEventIds := sliceTail 4096 (appliedEventIds reduced ++ [eventId]) |>;
     dl_seen := dl_seen loop ++ [eventId];
     dl_payloads := dl_payloads loop ++ [payload];
     dl_envelopes := dl_envelopes loop ++
       [{| env_eventId := eventId; env_sessionId := in_sessionId input;
           env_revision := revision'; env_occurredAt := occurredAt;
           env_causationId := opt_nonempty (in_causationId input);
           env_payload := payload |}] |}.

(** One iteration: [inl] returns a rejection, [inr] continues. *)
Definition decideEvent (input : KernelInput) (allocatedIds : obj) (index : Z) (candidate : obj)
    (occurredAt : string) (admissions : val) (loop : DecideLoop) : res (string + DecideLoop) :=
  let* _ := assertCurrentRuntimeEventForWrite candidate in
  let* normalized := normalizeAgentEvent candidate (dl_state loop) occurredAt in
  let* eventId := digestAgentEvent normalized in
  if str_in eventId (dl_seen loop) then Ok (inr loop)
  else
    let payload := finalizeAgentEvent normalized occurredAt in
    let requested := ev_type payload =s "verification.requested" in
    if negb requested && negb (is_undef admissions)
    then Ok (inl "unexpected_verification_schema_admission_facts"%string)
    else
      let* allocation := allocateTask (dl_state loop) payload index allocatedIds in
      match allocation with
      | inl code => Ok (inl code)
      | inr allocated =>
          let* reduced :=
            reduceAgentState (dl_state loop) payload
              {| allocatedTaskId := allocated;
                 verificationSchemaAdmissions := if requested then admissions else VUndef |} in
          if match allocated with
             | Some id => negb (opt_str_eqb (activeTaskId reduced) (Some id))
             | None => false
             end
          then Ok (inl "allocated_task_identity_not_applied"%string)
          else
            Ok (inr (admitEvent input occurredAt eventId payload reduced loop))
      end.

Fixpoint decideLoop (input : KernelInput) (allocatedIds : obj) (index : Z)
    (candidates : list obj) (eventFacts : list val) (loop : DecideLoop)
  : res (string + DecideLoop) :=
  match candidates with
  | [] => Ok (inr loop)
  | candidate :: rest =>
      let fact := jsonRecord (default VUndef (head eventFacts)) in
      let* step := decideEvent input allocatedIds index candidate
                     (default "" (stringField fact "occurredAt"))
                     (get fact "verificationSchemaAdmissions") loop in
      match step with
      | inl code => Ok (inl code)
      | inr loop' => decideLoop input allocatedIds (index + 1) rest (tail eventFacts) loop'
      end
  end%string.

Definition schedulerFacts (facts : obj) : option val :=
  match get facts "scheduler" with VUndef => None | v => Some v end.

Definition eventFactsOf (facts : obj) : list val := default [] (arrayField facts "eventFacts").
Definition knownEventIds (facts : obj) : list string :=
  stringsIn (default [] (arrayField facts "knownEventIds")).

Definition initialLoop state (facts : obj) : DecideLoop :=
  {| dl_state := state; dl_seen := appliedEventIds state ++ knownEventIds facts;
     dl_payloads := []; dl_envelopes := [] |}.

Definition decide state (input : KernelInput) (facts : val) : res KernelDecision :=
  let f := jsonRecord facts in
  if negb (in_sessionId input =s threadId (session state))
  then Ok (rejected "session_identity_mismatch")
  else if negb (in_expectedRevision input =? revision state)
  then Ok (conflict "revision_conflict" (revision state))
  else if negb (validDecisionFacts facts)
          || negb (Nat.eqb (length (eventFactsOf f)) (length (in_events input)))
  then Ok (rejected "invalid_decision_facts")
  else
    let* result := decideLoop input (jsonRecord (get f "allocatedIds")) 0 (in_events input)
                     (eventFactsOf f) (initialLoop state f) in
    match result with
    | inl code => Ok (rejected code)
    | inr loop =>
        match dl_payloads loop with
        | [] => Ok (idempotent_replay (revision state))
        | _ =>
            let* effects := selectPendingEffects (dl_state loop) (schedulerFacts f) in
            Ok (applied (dl_payloads loop) (dl_envelopes loop) (dl_state loop) effects)
        end
    end%string.

Definition noReducerFacts : AgentReducerFacts :=
  {| allocatedTaskId := None; verificationSchemaAdmissions := VUndef |}.

Fixpoint reduce state (events : list obj) : res AgentState :=
  match events with
  | [] => Ok state
  | event :: rest => let* next := reduceAgentState state event noReducerFacts in reduce next rest
  end.
End Kernel.
