(* ===== verification/EffectAdmission.v ===== *)
(** * Admission of effect batches ([effect-admission.ts])

    What a host may commit for an effect it holds a lease on: the receipts that must
    close live capability invocations together with their call, and the batches of
    concurrent shell and model effects that may still be committed although other
    events have advanced the session.  Identities of events and invocations are
    texts; the host's clock is an argument. *)

From S2P Require Import Prelude Js State Normalization Scheduler Completion Verification Lifecycle Capability Kernel.
From stdpp Require Import prelude strings list.
From Stdlib Require Import ZArith Lia.
Open Scope Z_scope.

Record SuspendedCapabilityTerminalRequirement := {
  rq_invocationId : string;
  rq_toolCallId : string }.

Definition CAPABILITY_TERMINALS : list string :=
  ["capability.execution_succeeded"; "capability.execution_failed"; "capability.execution_unknown";
   "capability.reconciliation_resolved"].
Definition TOOL_TERMINALS : list string :=
  ["tool.finished"; "tool.failed"; "tool.rejected"; "tool.cancelled"].

Definition isCapabilityTerminalEvent (event : obj) : bool := str_in (ev_type event) CAPABILITY_TERMINALS.
Definition isToolTerminalEvent (event : obj) : bool := str_in (ev_type event) TOOL_TERMINALS.

(** The text of an identity member, as a key. *)
Definition keyOf (o : obj) (f : string) : string := js_string (get o f).

Definition liveInvocation (invocation : obj) : bool :=
  hasStatus invocation "recorded" || hasStatus invocation "running".

(** An invocation of the ended call that is live and not closed yet. *)
Definition needsTerminal (event : obj) (closed : list string) (invocation : obj) : bool :=
  sameValue (get invocation "toolCallId") (get event "toolCallId") && liveInvocation invocation
  && negb (str_in (keyOf invocation "invocationId") closed).

Definition requirementOf (invocation : obj) : SuspendedCapabilityTerminalRequirement :=
  {| rq_invocationId := keyOf invocation "invocationId"; rq_toolCallId := keyOf invocation "toolCallId" |}.

Definition invocationsOf (state : AgentState) : list obj := ovalues (cap_invocations (capabilities state)).

(** The invocations closed so far, and the requirements found. *)
Definition Required : Type := list string * list SuspendedCapabilityTerminalRequirement.

Definition requireStep (event : obj) (acc : Required) (invocation : obj) : Required :=
  let '(closed, requirements) := acc in
  if needsTerminal event closed invocation
  then (closed ++ [keyOf invocation "invocationId"], requirements ++ [requirementOf invocation])
  else (closed, requirements).

Definition requireEvent (state : AgentState) (acc : Required) (event : obj) : Required :=
  if negb (isToolTerminalEvent event) then acc
  else List.fold_left (requireStep event) (invocationsOf state) acc.

Definition suspendedCapabilityTerminalRequirements (state : AgentState) (events : list obj)
  : list SuspendedCapabilityTerminalRequirement :=
  let supplied := List.map (fun e => keyOf e "invocationId")
                    (List.filter isCapabilityTerminalEvent events) in
  snd (List.fold_left (requireEvent state) events (supplied, [])).

(** [new Map(...)]: the last terminal supplied for an invocation. *)
Definition suppliedTerminals (events : list obj) : ordmap obj :=
  List.fold_left (fun m e => oset (keyOf e "invocationId") e m)
    (List.filter isCapabilityTerminalEvent events) [].

Section Admission.
Context {ports : KernelPorts} {port : CompletionPort} {host : JsHost}.

(** [value && Number.isFinite(Date.parse(value))]. *)
Definition validMoment (moment : string) : bool := str_nonempty moment && nfinite (dateParse moment).

(** [a || b]. *)
Definition orVal (a b : val) : val := if truthy a then a else b.

(** The error a capability is closed with when its call did not succeed. *)
Definition terminalError (event : obj) : res val :=
  if ev_type event =s "tool.finished" then
    let* stderr := propOf (get event "result") "stderr" in
    Ok (orVal stderr (VStr "Suspended Tool interaction did not succeed."))
  else if ev_type event =s "tool.failed" then propOf (get event "failure") "message"
  else Ok (get event "reason").

(** The terminal of a live invocation, from its own evidence and the end of its call. *)
Definition terminalFor (event invocation : obj) (finishedAt : string) : res obj :=
  let id := get invocation "invocationId" in
  if negb (truthy (get invocation "artifact")) || negb (truthy (get invocation "resultDigest"))
     || negb (truthy (get invocation "evidenceDigest")) then
    Ok [("type", VStr "capability.execution_unknown"); ("invocationId", id);
        ("reason", VStr "Suspended Tool terminal has no committed capability result evidence.");
        ("finishedAt", VStr finishedAt)]
  else
    let* succeeded := and_then (ev_type event =s "tool.finished")
                        (let* ok := propOf (get event "result") "ok" in Ok (truthy ok)) in
    if succeeded then
      Ok ([("type", VStr "capability.execution_succeeded"); ("invocationId", id);
           ("resultDigest", get invocation "resultDigest");
           ("evidenceDigest", get invocation "evidenceDigest"); ("finishedAt", VStr finishedAt);
           ("artifact", get invocation "artifact")]
          ++ (if truthy (get invocation "externalReferences")
              then [("externalReferences", get invocation "externalReferences")] else []))
    else
      let* error := terminalError event in
      Ok [("type", VStr "capability.execution_failed"); ("invocationId", id); ("error", error);
          ("resultDigest", get invocation "resultDigest");
          ("evidenceDigest", get invocation "evidenceDigest"); ("finishedAt", VStr finishedAt);
          ("artifact", get invocation "artifact")].

(** The events emitted so far, and the invocations they close. *)
Definition Emitted : Type := list obj * list string.

Definition closeInvocation (event : obj) (supplied : ordmap obj) (finishedAtById : ordmap string)
    (acc : Emitted) (invocation : obj) : res Emitted :=
  let '(output, closed) := acc in
  let id := keyOf invocation "invocationId" in
  if negb (needsTerminal event closed invocation) then Ok acc
  else match oget id supplied with
       | Some terminal => Ok (output ++ [terminal], closed ++ [id])
       | None =>
           let finishedAt := default "" (oget id finishedAtById) in
           if validMoment finishedAt then
             let* terminal := terminalFor event invocation finishedAt in
             Ok (output ++ [terminal], closed ++ [id])
           else Throw ("Suspended capability terminal " +:+ id +:+ " requires a valid Host timestamp.")
       end.

Definition attachEvent (state : AgentState) (supplied : ordmap obj) (finishedAtById : ordmap string)
    (acc : Emitted) (event : obj) : res Emitted :=
  let '(output, closed) := acc in
  if isCapabilityTerminalEvent event then
    let id := keyOf event "invocationId" in
    Ok (if str_in id closed then acc else (output ++ [event], closed ++ [id]))
  else if negb (isToolTerminalEvent event) then Ok (output ++ [event], closed)
  else
    let* next := res_fold (closeInvocation event supplied finishedAtById) (invocationsOf state) acc in
    Ok (fst next ++ [event], snd next).

Definition attachSuspendedCapabilityTerminals (state : AgentState) (events : list obj)
    (finishedAtById : ordmap string) : res (list obj) :=
  let* out := res_fold (attachEvent state (suppliedTerminals events) finishedAtById) events ([], []) in
  Ok (fst out).

(** ** Governed receipts *)

Record AgentEffectLeaseIdentity := { le_turnId : string; le_effect : RuntimeEffect }.

(** The calls of a lease that runs tools. *)
Definition leasedTools (lease : AgentEffectLeaseIdentity) : option (list string) :=
  match le_effect lease with run_tools ids => Some ids | _ => None end.

Definition invocationAt (state : AgentState) (id : string) : option obj :=
  oget id (cap_invocations (capabilities state)).

Definition governed (state : AgentState) (id : string) : option obj :=
  match invocationAt state id with
  | Some i => if truthy (get i "receiptRequirement") then Some i else None
  | None => None
  end.

Definition assertReceipt (state : AgentState) (events : list obj) (terminal : obj) : res unit :=
  match governed state (keyOf terminal "invocationId") with
  | None => Ok tt
  | Some invocation =>
      throw "Governed capability terminal requires a private result Artifact."
        when str_in (ev_type terminal) ["capability.execution_succeeded"; "capability.execution_failed"]
             && negb (is_str (optProp (get terminal "artifact") "kind") "capability_result") in
      throw "Capability receipt and Tool terminal must commit in one atomic batch."
        when negb (existsb (fun e => isToolTerminalEvent e
               && sameValue (get e "toolCallId") (get invocation "toolCallId")) events) in
      Ok tt
  end.

(** The invocation a check of a verification reads its evidence from. *)
Definition checkSource (check : val) : res (list val) :=
  let* type := propOf check "type" in
  let* subject := propOf check "subject" in
  let* artifact := and_then (is_str type "schema")
                     (let* kind := propOf subject "kind" in Ok (is_str kind "capability_artifact")) in
  if artifact then let* id := propOf subject "invocationId" in Ok [id]
  else if is_str type "mcp_read_after_write" || is_str type "external_reference"
          || is_str type "receipt"
  then let* id := propOf check "invocationId" in Ok [id]
  else Ok [].

Definition assertSource (state : AgentState) (events : list obj) (id : val) : res unit :=
  throw "Verification cannot reference an uncommitted capability receipt."
    when is_some (governed state (js_string id))
         && negb (existsb (fun e => (ev_type e =s "capability.execution_succeeded")
                                    && sameValue (get e "invocationId") id) events) in
  Ok tt.

Definition assertVerification (state : AgentState) (events : list obj) (event : obj) : res unit :=
  if ev_type event =s "verification.requested" then
    let* checks := propOf (get event "spec") "checks" in
    match checks with
    | VArr l => let* sources := res_fold (fun acc check =>
                    let* ids := checkSource check in Ok (acc ++ ids)) l [] in
                res_iter (assertSource state events) sources
    | _ => Throw "checks.flatMap is not a function"
    end
  else Ok tt.

Definition assertCapabilityToolTerminalBatch (state : AgentState) (lease : AgentEffectLeaseIdentity)
    (events : list obj) : res unit :=
  match leasedTools lease with
  | None => Ok tt
  | Some _ =>
      let* _ := res_iter (assertReceipt state events) (List.filter isCapabilityTerminalEvent events) in
      res_iter (assertVerification state events) events
  end.

Definition callAt (state : AgentState) (id : string) : option AgentToolCallState :=
  oget id (calls (tools state)).

Definition callIs (call : AgentToolCallState) (statuses : list ToolCallStatus) : bool :=
  bool_decide (tc_status call ∈ statuses).

Definition hasLateTerminalEventForCancelledTool (state : AgentState) (lease : AgentEffectLeaseIdentity)
    (events : list obj) : bool :=
  match leasedTools lease with
  | None => false
  | Some _ =>
      existsb (fun e =>
          str_in (ev_type e) ["tool.finished"; "tool.failed"; "tool.rejected"]
          && match callAt state (keyOf e "toolCallId") with
             | Some call => callIs call [t_cancelled] | None => false end) events
  end.

(** ** Concurrent shell effects *)

Definition SHELL_CAPABILITY_EVENTS : list string :=
  ["capability.execution_started"; "capability.execution_succeeded"; "capability.execution_failed";
   "capability.execution_unknown"; "capability.sandbox_preparation_intent_recorded";
   "capability.sandbox_preparation_ready";
   "capability.sandbox_execution_dispatch_intent_recorded";
   "capability.sandbox_execution_supervisor_started"; "capability.sandbox_disposal_started";
   "capability.sandbox_disposal_completed"; "capability.sandbox_preparation_abandonment_started";
   "capability.sandbox_preparation_abandonment_completed"].

Definition STARTABLE : list ToolCallStatus := [t_queued; t_approved; t_authorized_queued].
Definition OPEN_CALL : list ToolCallStatus := [t_queued; t_approved; t_authorized_queued; t_running].

Definition shellCall (call : AgentToolCallState) : bool := tc_name call =s "shell_execute".

(** The statuses of a shell call under which an event of its own is current. *)
Definition shellStatuses (type : string) : list ToolCallStatus :=
  if str_in type ["approval.requested"; "auto_review.requested"] then [t_queued]
  else if type =s "tool.started" then STARTABLE
  else if type =s "capability.invocation_recorded" then OPEN_CALL
  else if str_in type ["tool.progress"; "tool.finished"] then [t_running]
  else if str_in type ["tool.failed"; "tool.rejected"] then OPEN_CALL
  else if type =s "runtime.cancellation_diagnostic" then [t_cancelled; t_running]
  else [].

Definition isConcurrentShellEffectEventCurrent (state : AgentState) (lease : AgentEffectLeaseIdentity)
    (event : obj) : bool :=
  match leasedTools lease with
  | None => false
  | Some toolCallIds =>
      if negb (le_turnId lease =s turnId (turn state)) then false
      else if str_in (ev_type event) SHELL_CAPABILITY_EVENTS then
        match invocationAt state (keyOf event "invocationId") with
        | None => false
        | Some invocation =>
            let id := keyOf invocation "toolCallId" in
            str_in id toolCallIds
            && match callAt state id with
               | Some call => shellCall call && callIs call OPEN_CALL | None => false end
        end
      else match get event "toolCallId" with
           | VStr id =>
               str_in id toolCallIds
               && match callAt state id with
                  | Some call => shellCall call && callIs call (shellStatuses (ev_type event))
                  | None => false end
           | _ => false
           end
  end.

(** One event of a batch, checked against the state the ones before it project. *)
Definition projectEvent (current : AgentState -> obj -> nat -> res bool) (occurredAtForEvent : nat -> string)
    (state : AgentState) (event : obj) (index : nat) : res (option AgentState) :=
  let* isCurrent := current state event index in
  if isCurrent && validMoment (occurredAtForEvent index) then
    let* canonicalEvent := normalizeAgentEvent event state (occurredAtForEvent index) in
    let* next := reduce state [canonicalEvent] in
    Ok (Some next)
  else Ok None.

Fixpoint projectBatch (current : AgentState -> obj -> nat -> res bool) (occurredAtForEvent : nat -> string)
    (state : AgentState) (events : list obj) (index : nat) : res (option AgentState) :=
  match events with
  | [] => Ok (Some state)
  | event :: rest =>
      let* projected := projectEvent current occurredAtForEvent state event index in
      match projected with
      | Some next => projectBatch current occurredAtForEvent next rest (S index)
      | None => Ok None
      end
  end.

Definition isConcurrentShellEffectBatchCurrent (state : AgentState) (lease : AgentEffectLeaseIdentity)
    (events : list obj) (occurredAtForEvent : nat -> string) : res bool :=
  let* projected := projectBatch
    (fun projectedState event _ => Ok (isConcurrentShellEffectEventCurrent projectedState lease event))
    occurredAtForEvent state events 0 in
  Ok (is_some projected).

(** ** Concurrent model effects *)

Definition MODEL_STREAM_EVENTS : list string :=
  ["model.reasoning_delta"; "model.reasoning_completed"; "model.text_delta"].

Definition modelInvocationIs (state : AgentState) (id : string) (statuses : list string) : bool :=
  match oget id (modelInvocations state) with
  | Some i => existsb (hasStatus i) statuses
  | None => false
  end.

Definition modelInvocationIdForConcurrentBatch (state : AgentState) (lease : AgentEffectLeaseIdentity)
    (events : list obj) : option string :=
  let calls_model := match le_effect lease with call_model _ => true | _ => false end in
  match events with
  | [] => None
  | first :: rest =>
      let alone := match rest with [] => true | _ => false end in
      let given (b : bool) id := if b then Some id else None in
      let request := keyOf first "requestId" in
      let id := keyOf first "invocationId" in
      if negb (le_turnId lease =s turnId (turn state))
         || negb (bool_decide (turn_status (turn state) = turn_active)) || negb calls_model then None
      else if str_in (ev_type first) MODEL_STREAM_EVENTS
      then given (alone && modelInvocationIs state request ["dispatching"]) request
      else if ev_type first =s "model.retry"
      then given (alone && modelInvocationIs state id ["dispatching"]) id
      else if ev_type first =s "model.invocation_completed"
      then given (modelInvocationIs state id ["dispatching"]) id
      else if ev_type first =s "model.invocation_interrupted"
      then given (modelInvocationIs state id ["prepared"; "dispatching"]) id
      else None
  end.

(** [invocation?.budget.kind === 'reservation' && event.reservationId === invocation.budget.reservationId]. *)
Definition ofReservation (state : AgentState) (invocationId : string) (event : obj) : res bool :=
  match oget invocationId (modelInvocations state) with
  | Some i =>
      let* kind := propOf (get i "budget") "kind" in
      let* reservationId := propOf (get i "budget") "reservationId" in
      Ok (is_str kind "reservation" && sameValue (get event "reservationId") reservationId)
  | None => Ok false
  end.

Definition isConcurrentModelEffectEvent (state : AgentState) (event : obj)
    (invocationId terminalType : string) (index : nat) : res bool :=
  let type := ev_type event in
  let isType t := type =s t in
  let names f := is_str (get event f) invocationId in
  match index with
  | O =>
      Ok (if str_in terminalType MODEL_STREAM_EVENTS
          then isType terminalType && names "requestId"
          else str_in terminalType ["model.retry"; "model.invocation_completed";
                                    "model.invocation_interrupted"]
               && isType terminalType && names "invocationId")
  | S _ =>
      if terminalType =s "model.invocation_interrupted"
      then and_then (isType "resource_budget.released" || isType "resource_budget.unknown")
             (ofReservation state invocationId event)
      else if negb (terminalType =s "model.invocation_completed") then Ok false
      else if isType "model.responded" then Ok (names "invocationId")
      else if isType "tool.queued" then Ok (names "modelInvocationId")
      else if isType "model.context_metrics" || isType "model.cache_metrics" then Ok true
      else and_then (isType "resource_budget.reconciled") (ofReservation state invocationId event)
  end.

Definition isConcurrentModelEffectBatchCurrent (state : AgentState) (lease : AgentEffectLeaseIdentity)
    (events : list obj) (occurredAtForEvent : nat -> string) : res bool :=
  match modelInvocationIdForConcurrentBatch state lease events with
  | None => Ok false
  | Some invocationId =>
      if negb (str_nonempty invocationId) then Ok false
      else
        let terminalType := ev_type (hd [] events) in
        let* projected := projectBatch
          (fun projectedState event index =>
             isConcurrentModelEffectEvent projectedState event invocationId terminalType index)
          occurredAtForEvent state events 0 in
        Ok match projected with
           | None => false
           | Some final =>
               if terminalType =s "model.invocation_completed"
               then modelInvocationIs final invocationId ["completed"]
               else if terminalType =s "model.invocation_interrupted"
               then modelInvocationIs final invocationId ["interrupted"]
               else str_in terminalType ("model.retry" :: MODEL_STREAM_EVENTS)
           end
  end.
End Admission.
