(* ===== verification/EffectAdmissionClaims.v ===== *)
(** * Effect admission: receipts close with their call

    A batch that ends a tool call is completed so that every live invocation of that
    call is closed in the same batch, exactly once and before the end of the call;
    the moments the host has to supply are exactly those of the requirements. *)

From S2P Require Import Prelude Js State Sample Normalization Recovery RecoveryProps RecoveryInvariant Scheduler Completion Verification Lifecycle LifecycleProps Capability CapabilityClaims Kernel EffectAdmission.
From stdpp Require Import prelude strings list.
From Stdlib Require Import ZArith Lia.
Open Scope Z_scope.

(** The invocation an event closes. *)
Definition closes (e : obj) : string := keyOf e "invocationId".
Definition closed_by (l : list obj) : list string := List.map closes (List.filter isCapabilityTerminalEvent l).
Definition others (l : list obj) : list obj := List.filter (fun e => negb (isCapabilityTerminalEvent e)) l.

Lemma closed_by_app l l' : closed_by (l ++ l') = closed_by l ++ closed_by l'.
Proof. unfold closed_by. by rewrite List.filter_app, map_app. Qed.
Lemma others_app l l' : others (l ++ l') = others l ++ others l'.
Proof. unfold others. by rewrite List.filter_app. Qed.

Lemma closed_by_one e : closed_by [e] = if isCapabilityTerminalEvent e then [closes e] else [].
Proof. unfold closed_by. cbn [List.filter]. by destruct (isCapabilityTerminalEvent e). Qed.
Lemma others_one e : others [e] = if isCapabilityTerminalEvent e then [] else [e].
Proof. unfold others. cbn [List.filter]. by destruct (isCapabilityTerminalEvent e). Qed.

Lemma terminals_only l : Forall (fun e => isCapabilityTerminalEvent e = true) l ->
  closed_by l = List.map closes l /\ others l = [].
Proof.
  induction 1 as [|e l He _ [IH IH']]; [done|]. unfold closed_by, others in *. cbn [List.filter].
  rewrite He. cbn. by rewrite IH.
Qed.

Lemma tool_is_other e : isToolTerminalEvent e = true -> isCapabilityTerminalEvent e = false.
Proof.
  unfold isToolTerminalEvent, isCapabilityTerminalEvent. intros H%str_in_true. cbn in H.
  destruct H as [<-|[<-|[<-|[<-|[]]]]]; reflexivity.
Qed.

(** Invocations are filed under their identity. *)
Definition filed (state : AgentState) : Prop :=
  oall (fun k i => k <> "" /\ get i "invocationId" = VStr k) (cap_invocations (capabilities state)).

Lemma filed_preserved state event state' : filed state ->
  reduceCapabilityState state event = Ok state' -> filed state'.
Proof.
  intros Hf [Heq|[(k & i & i' & Hi & Heq & Hs)|(_ & k & Hk & _ & Heq)]]%reduce_invocations;
    unfold filed; rewrite Heq; [done| |].
  - apply oall_oset; [done|]. destruct (oall_oget _ _ _ _ Hf Hi) as [Hk Hid]. split; [done|].
    rewrite <- Hid. apply (is_identity _ _ Hs). by left.
  - by apply oall_oset.
Qed.

Section Attach.
Context {host : JsHost}.
Variables (state : AgentState) (events : list obj) (moments : ordmap string).
Hypothesis Hfiled : filed state.

Lemma invocation_id i : In i (invocationsOf state) -> exists id, get i "invocationId" = VStr id.
Proof using Hfiled.
  unfold invocationsOf. intros ([k x] & <- & Hin)%in_map_iff. exists k.
  by apply (Hfiled k x Hin).
Qed.

Lemma supplied_spec id e : oget id (suppliedTerminals events) = Some e ->
  In e events /\ isCapabilityTerminalEvent e = true /\ closes e = id.
Proof.
  unfold suppliedTerminals. revert id e.
  apply fold_left_inv with (P := fun m => forall id e, oget id m = Some e ->
    In e events /\ isCapabilityTerminalEvent e = true /\ closes e = id); [done|].
  intros m x [Hin Hx]%filter_In Hm id e. destruct (decide (id = keyOf x "invocationId")) as [->|Hne].
  - rewrite oget_oset_eq. intros [= <-]. done.
  - rewrite oget_oset_ne by done. apply Hm.
Qed.

Lemma terminalFor_spec event i moment t : terminalFor event i moment = Ok t ->
  isCapabilityTerminalEvent t = true /\ get t "invocationId" = get i "invocationId".
Proof.
  unfold terminalFor. intros H. destruct (_ || _); [by injection H as <-|].
  destruct (and_then _ _) as [[]|]; cbn in H; [by injection H as <-| |discriminate].
  destruct (terminalError event); cbn in H; [by injection H as <-|discriminate].
Qed.

(** ** One call ends *)

(** A terminal of the batch, or of a live invocation of a call the batch ends. *)
Definition warranted (t : obj) : Prop :=
  In t events \/ exists e i, In e events /\ isToolTerminalEvent e = true /\ In i (invocationsOf state)
    /\ liveInvocation i = true /\ sameValue (get i "toolCallId") (get e "toolCallId") = true
    /\ get t "invocationId" = get i "invocationId".

Definition new_terminal (t : obj) : Prop := isCapabilityTerminalEvent t = true /\ warranted t.

(** Terminals added: each closes another invocation, none closed before. *)
Definition adds (acc acc' : Emitted) : Prop :=
  exists new, fst acc' = fst acc ++ new /\ snd acc' = snd acc ++ List.map closes new
    /\ Forall new_terminal new
    /\ NoDup (List.map closes new) /\ (forall x, In x (List.map closes new) -> ~ In x (snd acc)).

Lemma adds_refl acc : adds acc acc.
Proof. exists []. cbn. rewrite !app_nil_r. split_and!; try done; constructor. Qed.

Lemma adds_trans a b c : adds a b -> adds b c -> adds a c.
Proof.
  intros (n & E1 & E2 & Hn & Hd & Hf) (m & E3 & E4 & Hm & Hd' & Hf'). exists (n ++ m).
  rewrite E3, E1, E4, E2, map_app, !app_assoc. split_and!; try done; [by apply Forall_app_2| |].
  - apply NoDup_app. split_and!; [done| |done]. intros x Hx Hx'. apply list_elem_of_In in Hx, Hx'.
    apply (Hf' x Hx'). rewrite E2. apply in_or_app. by right.
  - intros x [Hx|Hx]%in_app_or; [by apply Hf|]. intros Hin. apply (Hf' x Hx). rewrite E2.
    apply in_or_app. by left.
Qed.

Lemma needs_mono event closed more i :
  needsTerminal event closed i = false -> needsTerminal event (closed ++ more) i = false.
Proof.
  unfold needsTerminal. destruct (sameValue _ _ && liveInvocation i); [cbn|done]. rewrite !negb_false_iff, !str_in_true.
  intros H. apply in_or_app. by left.
Qed.

Lemma close_step event acc i acc' : In event events -> isToolTerminalEvent event = true ->
  In i (invocationsOf state) ->
  closeInvocation event (suppliedTerminals events) moments acc i = Ok acc' ->
  adds acc acc' /\ needsTerminal event (snd acc') i = false.
Proof using Hfiled.
  intros He Hte Hi. destruct acc as [output closed]. unfold closeInvocation.
  destruct (invocation_id i Hi) as [id Hid].
  destruct (needsTerminal event closed i) eqn:Hn; cbn [negb].
  2: { intros [= <-]. split; [apply adds_refl|done]. }
  assert (Hfresh : ~ In (keyOf i "invocationId") closed).
  { unfold needsTerminal in Hn. bool_hyps. intros Hin%str_in_true. congruence. }
  assert (Hdone : needsTerminal event (closed ++ [keyOf i "invocationId"]) i = false).
  { unfold needsTerminal. replace (str_in _ _) with true; [apply andb_false_r|].
    symmetry. apply str_in_true, in_or_app. right. by left. }
  assert (Hlive : liveInvocation i = true /\ sameValue (get i "toolCallId") (get event "toolCallId") = true)
    by (unfold needsTerminal in Hn; by bool_hyps).
  assert (Hone : forall t, new_terminal t -> closes t = keyOf i "invocationId" ->
    Ok (output ++ [t], closed ++ [keyOf i "invocationId"]) = Ok acc' ->
    adds (output, closed) acc' /\ needsTerminal event (snd acc') i = false).
  { intros t Ht Hc [= <-]. split; [|done]. exists [t]. cbn. rewrite Hc.
    split_and!; [done|done|by apply Forall_singleton|apply NoDup_singleton|intros x [<-|[]]; done]. }
  destruct (oget _ _) as [t|] eqn:Hs.
  - apply supplied_spec in Hs as (Hin & Ht & Hc). apply Hone; [by split; [|left]|done].
  - destruct (validMoment _); [|discriminate].
    destruct (terminalFor event i _) as [t|] eqn:Ht; cbn; [|discriminate].
    apply terminalFor_spec in Ht as [Ht Hg]. apply Hone; [|unfold closes, keyOf; by rewrite Hg].
    split; [done|]. right. exists event, i. split_and!; tauto.
Qed.

Lemma close_fold event l acc acc' : In event events -> isToolTerminalEvent event = true ->
  incl l (invocationsOf state) ->
  res_fold (closeInvocation event (suppliedTerminals events) moments) l acc = Ok acc' ->
  adds acc acc' /\ forall i, In i l -> needsTerminal event (snd acc') i = false.
Proof using Hfiled.
  intros He Hte. revert acc. induction l as [|i l IH]; intros acc Hl; cbn [res_fold].
  - intros [= <-]. split; [apply adds_refl|done].
  - destruct (closeInvocation _ _ _ acc i) as [mid|] eqn:E; [|discriminate]. cbn [res_bind].
    apply close_step in E as [Ha Hc]; [|done|done|apply Hl; by left]. intros Hf.
    destruct (IH mid) as [Ha' Hc']; [intros x Hx; apply Hl; by right|done|].
    split; [by eapply adds_trans|]. intros x [<-|Hx]; [|by apply Hc'].
    destruct Ha' as (n & _ & -> & _). by apply needs_mono.
Qed.

(** ** The batch *)

(** A call end is preceded by the terminals of its live invocations. *)
Definition closed_before (output : list obj) (event : obj) : Prop :=
  exists pre post, output = pre ++ event :: post
    /\ forall i, In i (invocationsOf state) -> needsTerminal event (closed_by pre) i = false.

Definition batch_inv (past : list obj) (acc : Emitted) : Prop :=
  snd acc = closed_by (fst acc) /\ NoDup (closed_by (fst acc))
  /\ others (fst acc) = others past
  /\ (forall t, In t (fst acc) -> isCapabilityTerminalEvent t = true -> warranted t)
  /\ (forall e, In e past -> isCapabilityTerminalEvent e = true -> In (closes e) (closed_by (fst acc)))
  /\ (forall e, In e past -> isToolTerminalEvent e = true -> closed_before (fst acc) e).

Lemma closed_before_app output more e : closed_before output e -> closed_before (output ++ more) e.
Proof.
  intros (pre & post & -> & H). exists pre, (post ++ more). by rewrite <- app_assoc.
Qed.

Lemma adds_inv past acc acc' : adds acc acc' -> batch_inv past acc -> batch_inv past acc'.
Proof.
  intros (n & E1 & E2 & Hn & Hd & Hf) (Hs & Hnd & Ho & Hw & Hc & Ht). unfold batch_inv.
  rewrite E1, E2, closed_by_app, others_app. destruct (terminals_only n) as [-> ->];
    [by eapply Forall_impl; [exact Hn|intros x []]|].
  rewrite app_nil_r. split_and!; [by rewrite Hs| |done| | |].
  - apply NoDup_app. split_and!; [done| |done]. intros x Hx Hx'. apply list_elem_of_In in Hx, Hx'.
    apply (Hf x Hx'). by rewrite Hs.
  - intros t [Hin|Hin]%in_app_or Hct; [by apply Hw|]. rewrite List.Forall_forall in Hn. by apply Hn.
  - intros e He Hct. apply in_or_app. left. by apply Hc.
  - intros e He Hte. by apply closed_before_app, Ht.
Qed.

Lemma pushed_inv past acc e : isCapabilityTerminalEvent e = false ->
  (isToolTerminalEvent e = true ->
   forall i, In i (invocationsOf state) -> needsTerminal e (snd acc) i = false) ->
  batch_inv past acc -> batch_inv (past ++ [e]) (fst acc ++ [e], snd acc).
Proof.
  intros He Hcov (Hs & Hnd & Ho & Hw & Hc & Ht). unfold batch_inv. cbn [fst snd].
  rewrite closed_by_app, !others_app, Ho, closed_by_one, others_one, He, app_nil_r. split_and!; [done|done|done| | |].
  - intros x [Hx|[<-|[]]]%in_app_or Hct; [by apply Hw|congruence].
  - intros x [Hx|[<-|[]]]%in_app_or Hct; [by apply Hc|congruence].
  - intros x [Hx|[<-|[]]]%in_app_or Hte; [by apply closed_before_app, Ht|].
    exists (fst acc), []. split; [done|]. rewrite <- Hs. by apply Hcov.
Qed.

Lemma supplied_inv past acc e : In e events -> isCapabilityTerminalEvent e = true -> batch_inv past acc ->
  batch_inv (past ++ [e]) (if str_in (closes e) (snd acc) then acc
                           else (fst acc ++ [e], snd acc ++ [closes e])).
Proof.
  intros Hev He Hinv.
  assert (Hgrow : forall acc', adds acc acc' -> In (closes e) (closed_by (fst acc')) ->
    batch_inv (past ++ [e]) acc').
  { intros acc' Ha Hin. destruct (adds_inv past acc acc' Ha Hinv) as (Hs & Hnd & Ho & Hw & Hc & Ht).
    unfold batch_inv. rewrite others_app, others_one, He, app_nil_r. split_and!; try done.
    - intros x [Hx|[<-|[]]]%in_app_or; [by apply Hc|done].
    - intros x [Hx|[<-|[]]]%in_app_or Hte; [by apply Ht|].
      apply tool_is_other in Hte. congruence. }
  destruct (str_in (closes e) (snd acc)) eqn:Hin.
  - apply Hgrow; [apply adds_refl|]. destruct Hinv as [<- _]. by apply str_in_true.
  - apply Hgrow.
    + exists [e]. cbn. split_and!; [done|done|by apply Forall_singleton; split; [|left]|apply NoDup_singleton|].
      intros x [<-|[]] Hx%str_in_true. congruence.
    + cbn [fst]. rewrite closed_by_app, closed_by_one, He. apply in_or_app. right. by left.
Qed.

Lemma attach_step past acc e acc' : In e events -> batch_inv past acc ->
  attachEvent state (suppliedTerminals events) moments acc e = Ok acc' -> batch_inv (past ++ [e]) acc'.
Proof using Hfiled.
  intros Hev Hinv. unfold attachEvent. destruct acc as [output closed].
  destruct (isCapabilityTerminalEvent e) eqn:He.
  { intros [= <-]. exact (supplied_inv past (output, closed) e Hev He Hinv). }
  destruct (isToolTerminalEvent e) eqn:Ht; cbn [negb].
  - destruct (res_fold _ _ _) as [mid|] eqn:E; cbn [res_bind]; [|discriminate]. intros [= <-].
    apply close_fold in E as [Ha Hc]; [|done|done|apply incl_refl].
    apply pushed_inv; [done|by intros _|by eapply adds_inv].
  - intros [= <-]. apply (pushed_inv past (output, closed)); [done|by rewrite Ht|done].
Qed.

Lemma attach_fold l past acc acc' : incl l events -> batch_inv past acc ->
  res_fold (attachEvent state (suppliedTerminals events) moments) l acc = Ok acc' ->
  batch_inv (past ++ l) acc'.
Proof using Hfiled.
  revert past acc. induction l as [|e l IH]; intros past acc Hl Hinv; cbn [res_fold].
  - intros [= <-]. by rewrite app_nil_r.
  - destruct (attachEvent _ _ _ acc e) as [mid|] eqn:E; [|discriminate]. cbn [res_bind]. intros Hf.
    replace (past ++ e :: l) with ((past ++ [e]) ++ l) by (by rewrite <- app_assoc).
    eapply IH; [|by eapply attach_step; [apply Hl; left| |]|done]. intros x Hx. apply Hl. by right.
Qed.

Lemma attach_spec output : attachSuspendedCapabilityTerminals state events moments = Ok output ->
  exists closed, batch_inv events (output, closed).
Proof using Hfiled.
  unfold attachSuspendedCapabilityTerminals.
  destruct (res_fold _ _ _) as [[out closed]|] eqn:E; [|discriminate]. intros [= <-]. exists closed.
  apply (attach_fold events [] ([], [])); [apply incl_refl| |done].
  unfold batch_inv. cbn. split_and!; try done. constructor.
Qed.

(** ** The moments the host owes *)

Definition momentOf (id : string) : string := default "" (oget id moments).

Lemma requirements_fold : suspendedCapabilityTerminalRequirements state events
  = snd (List.fold_left (requireEvent state) events (closed_by events, [])).
Proof. reflexivity. Qed.

(** The end of a call can be read: what it reports is there. *)
Definition readable (event : obj) : Prop :=
  (ev_type event = "tool.finished" -> is_nullish (get event "result") = false)
  /\ (ev_type event = "tool.failed" -> is_nullish (get event "failure") = false).

Lemma propOf_ok v k : is_nullish v = false -> exists x, propOf v k = Ok x.
Proof. destruct v; try discriminate; eexists; reflexivity. Qed.

Lemma terminalFor_total event i moment : readable event -> exists t, terminalFor event i moment = Ok t.
Proof.
  intros [Hfin Hfail]. unfold terminalFor, terminalError, and_then.
  destruct (_ || _); [by eexists|].
  destruct (ev_type event =s "tool.finished") eqn:Ef.
  - apply eqb_true in Ef. destruct (propOf_ok _ "ok" (Hfin Ef)) as [ok ->].
    destruct (propOf_ok _ "stderr" (Hfin Ef)) as [err ->]. cbn. destruct (truthy ok); by eexists.
  - cbn. destruct (ev_type event =s "tool.failed") eqn:Eq; [|by eexists].
    apply eqb_true in Eq. destruct (propOf_ok _ "message" (Hfail Eq)) as [m ->]. by eexists.
Qed.

(** The two walks agree on what is closed, the supplied terminals apart. *)
Definition lockstep (att : Emitted) (req : Required)
  : Prop :=
  incl (closed_by events) (fst req)
  /\ forall id, ~ In id (closed_by events) -> In id (snd att) <-> In id (fst req).

Definition owed (req : Required) : bool :=
  forallb (fun r => validMoment (momentOf (rq_invocationId r))) (snd req).

(** The attaching walk goes on exactly as long as the moments owed are valid. *)
Definition agrees (r : res Emitted) (req : Required)
  : Prop :=
  if owed req then exists att, r = Ok att /\ lockstep att req else exists m, r = Throw m.

Lemma supplied_keys : incl (closed_by events) (okeys (suppliedTerminals events)).
Proof.
  unfold closed_by, suppliedTerminals.
  enough (forall l (m : ordmap obj) x, In x (okeys m) \/ In x (List.map closes l) ->
    In x (okeys (List.fold_left (fun m e => oset (keyOf e "invocationId") e m) l m))) as H
    by (intros x Hx; apply H; by right).
  induction l as [|e l IH]; cbn [List.fold_left List.map]; intros m x Hx; [by destruct Hx|].
  apply IH. rewrite In_okeys_oset. destruct Hx as [Hx|[<-|Hx]]; tauto.
Qed.

Lemma supplied_none id : oget id (suppliedTerminals events) = None <-> ~ In id (closed_by events).
Proof.
  split.
  - intros Hn Hin. apply supplied_keys in Hin. by apply oget_None_keys in Hn.
  - intros Hn. destruct (oget id _) as [t|] eqn:E; [|done]. exfalso. apply Hn.
    apply supplied_spec in E as (Hin & Ht & <-). apply in_map. by apply filter_In.
Qed.

Lemma close_agrees event att req i : readable event -> lockstep att req -> owed req = true ->
  agrees (closeInvocation event (suppliedTerminals events) moments att i) (requireStep event req i).
Proof.
  intros Hr [Hincl Hl] Ho. destruct att as [output closed], req as [rclosed reqs]. cbn [fst snd] in *.
  unfold requireStep, closeInvocation. set (id := keyOf i "invocationId").
  assert (Hsame : oget id (suppliedTerminals events) = None ->
    needsTerminal event closed i = needsTerminal event rclosed i).
  { intros Hn%supplied_none. unfold needsTerminal. fold id. do 2 f_equal.
    apply eq_true_iff_eq. rewrite !str_in_true. by apply Hl. }
  destruct (oget id (suppliedTerminals events)) as [t|] eqn:Hs.
  - assert (In id (closed_by events)) as Hin.
    { apply supplied_spec in Hs as (Hin & Ht & <-). apply in_map. by apply filter_In. }
    assert (needsTerminal event rclosed i = false) as ->.
    { unfold needsTerminal. fold id. replace (str_in id rclosed) with true; [apply andb_false_r|].
      symmetry. by apply str_in_true, Hincl. }
    unfold agrees. rewrite Ho. destruct (needsTerminal event closed i); cbn [negb].
    + eexists. split; [done|]. split; [done|]. cbn. intros x Hx. rewrite in_app_iff, <- Hl by done.
      split; [|tauto]. intros [?|[<-|[]]]; [done|]. by destruct Hx.
    + eexists. split; [done|]. by split.
  - rewrite Hsame by done. destruct (needsTerminal event rclosed i); cbn [negb].
    2: { unfold agrees. rewrite Ho. eexists. split; [done|]. by split. }
    unfold agrees, owed in *. cbn [snd] in *. rewrite forallb_app, Ho. cbn [forallb requirementOf rq_invocationId].
    fold id. rewrite andb_true_r. cbn [andb]. unfold momentOf.
    destruct (validMoment (default "" (oget id moments))); [|by eexists].
    destruct (terminalFor_total event i (default "" (oget id moments)) Hr) as [t ->]. cbn [res_bind].
    eexists. split; [done|]. split; [intros x Hx; apply in_or_app; left; by apply Hincl|].
    cbn. intros x Hx. rewrite !in_app_iff, Hl by done. done.
Qed.

Lemma require_mono event req i : owed (requireStep event req i) = true -> owed req = true.
Proof.
  unfold owed, requireStep. destruct req as [c r]. destruct (needsTerminal event c i); [|done]. cbn.
  rewrite forallb_app. by intros [? _]%andb_true_iff.
Qed.

Lemma fold_mono {A} (g : Required -> A -> Required) l req :
  (forall req x, owed (g req x) = true -> owed req = true) ->
  owed (List.fold_left g l req) = true -> owed req = true.
Proof.
  intros Hg. revert req. induction l as [|x l IH]; intros req; [done|]. cbn. intros H%IH. by eapply Hg.
Qed.

Lemma event_mono req e : owed (requireEvent state req e) = true -> owed req = true.
Proof.
  unfold requireEvent. destruct (negb _); [done|]. apply fold_mono. intros. by eapply require_mono.
Qed.

Lemma agree_fold {A} (f : Emitted -> A -> res Emitted) (g : Required -> A -> Required) l att req :
  (forall att req x, In x l -> lockstep att req -> owed req = true -> agrees (f att x) (g req x)) ->
  (forall req x, owed (g req x) = true -> owed req = true) ->
  lockstep att req -> owed req = true -> agrees (res_fold f l att) (List.fold_left g l req).
Proof.
  intros Hstep Hmono. revert att req. induction l as [|x l IH]; intros att req Hl Ho; cbn.
  { unfold agrees. rewrite Ho. by exists att. }
  pose proof (Hstep att req x (or_introl eq_refl) Hl Ho) as Hx. unfold agrees in Hx.
  destruct (owed (g req x)) eqn:Hox.
  - destruct Hx as (att' & -> & Hl'). cbn. apply IH; [|done|done]. intros. apply Hstep; [by right|done..].
  - destruct Hx as [m ->]. cbn. unfold agrees.
    destruct (owed (List.fold_left g l (g req x))) eqn:Hf; [|by eexists].
    apply fold_mono in Hf; [congruence|done].
Qed.

Lemma attach_agrees att req e : In e events -> readable e -> lockstep att req -> owed req = true ->
  agrees (attachEvent state (suppliedTerminals events) moments att e) (requireEvent state req e).
Proof.
  intros Hev Hr Hl Ho. unfold attachEvent, requireEvent. destruct att as [output closed].
  destruct (isCapabilityTerminalEvent e) eqn:Hc.
  { assert (isToolTerminalEvent e = false) as -> by
      (destruct (isToolTerminalEvent e) eqn:Ht; [apply tool_is_other in Ht; congruence|done]).
    cbn [negb]. unfold agrees. rewrite Ho. eexists. split; [done|].
    destruct (str_in _ closed); [done|]. destruct Hl as [Hi Hl]. split; [done|]. cbn in *.
    intros x Hx. rewrite in_app_iff, <- Hl by done. split; [|tauto]. intros [?|[<-|[]]]; [done|].
    exfalso. apply Hx. apply (in_map closes). by apply filter_In. }
  destruct (isToolTerminalEvent e) eqn:Ht; cbn [negb].
  - pose proof (agree_fold (closeInvocation e (suppliedTerminals events) moments) (requireStep e)
      (invocationsOf state) (output, closed) req (fun a r i _ => close_agrees e a r i Hr)
      (require_mono e) Hl Ho) as H. unfold agrees in *.
    destruct (owed (List.fold_left (requireStep e) _ _)); [|destruct H as [m ->]; by eexists].
    destruct H as (att' & -> & Hl'). cbn. eexists. split; [done|]. exact Hl'.
  - unfold agrees. rewrite Ho. eexists. split; [done|]. exact Hl.
Qed.

Lemma attach_owed : Forall readable events ->
  agrees (res_fold (attachEvent state (suppliedTerminals events) moments) events ([], []))
    (List.fold_left (requireEvent state) events (closed_by events, [])).
Proof.
  intros Hr. apply agree_fold; [|apply event_mono| |done].
  - intros att req e He. rewrite List.Forall_forall in Hr. apply attach_agrees; [done|by apply Hr].
  - split; [apply incl_refl|]. cbn. tauto.
Qed.

(** Each requirement names another invocation. *)
Lemma requirements_distinct :
  NoDup (List.map rq_invocationId (suspendedCapabilityTerminalRequirements state events)).
Proof.
  rewrite requirements_fold.
  pose (P := fun req : Required => NoDup (List.map rq_invocationId (snd req))
    /\ incl (List.map rq_invocationId (snd req)) (fst req)).
  enough (P (List.fold_left (requireEvent state) events (closed_by events, []))) as [? _] by done.
  apply (fold_left_inv (requireEvent state) P); [split; [apply NoDup_nil_2|intros x []]|].
  intros req e _ Hreq. unfold requireEvent. destruct (negb _); [done|].
  apply (fold_left_inv (requireStep e) P); [done|]. intros [c r] i _ [Hn Hi]. unfold requireStep.
  destruct (needsTerminal e c i) eqn:E; [|done]. unfold P. cbn in *. rewrite map_app. cbn. split.
  - apply NoDup_app. split_and!; [done| |apply NoDup_singleton]. intros x Hx%list_elem_of_In ->%list_elem_of_singleton.
    unfold needsTerminal in E. bool_hyps. apply Hi, str_in_true in Hx. congruence.
  - apply incl_app; [by apply incl_appl|apply incl_appr, incl_refl].
Qed.
End Attach.

(** ** Properties *)

(** Completing a batch changes nothing but the capability terminals in it: every
    other event stays where it was, each invocation is closed at most once, nothing
    is closed without a supplied terminal or an ended call of its own, and before
    the end of a call stands a terminal of every live invocation of that call. *)
Theorem ended_calls_close_their_capabilities `{JsHost}
    (state : AgentState) (events output : list obj) (moments : ordmap string) :
  filed state -> attachSuspendedCapabilityTerminals state events moments = Ok output ->
  others output = others events /\ NoDup (closed_by output)
  /\ (forall t, In t output -> isCapabilityTerminalEvent t = true -> warranted state events t)
  /\ (forall e, In e events -> isCapabilityTerminalEvent e = true -> In (closes e) (closed_by output))
  /\ (forall e, In e events -> isToolTerminalEvent e = true -> closed_before state output e).
Proof. intros Hf Ho. edestruct attach_spec as (closed & _ & ? & ? & ? & ? & ?); done. Qed.

(** C19: The moments the host owes are exact: a readable batch is completed if and
    only if every requirement has a valid moment, and each invocation is required
    once. *)
Theorem requirements_are_exact `{JsHost}
    (state : AgentState) (events : list obj) (moments : ordmap string) :
  Forall readable events ->
  NoDup (List.map rq_invocationId (suspendedCapabilityTerminalRequirements state events))
  /\ ((exists output, attachSuspendedCapabilityTerminals state events moments = Ok output)
      <-> Forall (fun r => validMoment (momentOf moments (rq_invocationId r)) = true)
            (suspendedCapabilityTerminalRequirements state events)).
Proof.
  intros Hr. split; [apply requirements_distinct|]. pose proof (attach_owed state events moments Hr) as Ha.
  rewrite requirements_fold. unfold attachSuspendedCapabilityTerminals, agrees, owed in *.
  rewrite List.Forall_forall, <- forallb_forall.
  destruct (forallb _ _); [destruct Ha as (att & -> & _)|destruct Ha as [m ->]]; cbn;
    split; try done; [by eexists|by intros [? ?]].
Qed.

(** ** With the capability reducer *)

(** Terminals supplied by the host name their invocation by a text. *)
Definition named (events : list obj) : Prop :=
  forall t, In t events -> isCapabilityTerminalEvent t = true -> exists s, get t "invocationId" = VStr s.

Lemma warranted_named state events output : filed state -> named events ->
  (forall t, In t output -> isCapabilityTerminalEvent t = true -> warranted state events t) -> named output.
Proof.
  intros Hf Hn Hw t Hin Ht. destruct (Hw t Hin Ht) as [He|(e & i & _ & _ & Hi & _ & _ & ->)];
    [by apply Hn|by apply invocation_id with state].
Qed.

Lemma invocation_kept state e state' k i : reduceCapabilityState state e = Ok state' ->
  oget k (cap_invocations (capabilities state)) = Some i ->
  exists i', oget k (cap_invocations (capabilities state')) = Some i' /\ invocation_step i i'.
Proof.
  intros [Heq|[(k' & j & j' & Hj & Heq & Hs)|(_ & k' & _ & Hn & Heq)]]%reduce_invocations Hi; rewrite Heq.
  - exists i. split; [done|apply refl_step].
  - destruct (decide (k = k')) as [->|Hne]; [rewrite oget_oset_eq|rewrite oget_oset_ne by done].
    + replace i with j by congruence. eauto.
    + exists i. split; [done|apply refl_step].
  - rewrite oget_oset_ne by congruence. exists i. split; [done|apply refl_step].
Qed.

Lemma settled_live i : settled i = negb (liveInvocation i).
Proof. unfold settled, liveInvocation. by rewrite negb_orb. Qed.

Lemma settling_status i s : get i "status" = VStr s -> str_in s ["recorded"; "running"] = false ->
  settled i = true.
Proof.
  intros Hs H. unfold settled, hasStatus. rewrite Hs. cbn [is_str].
  destruct (s =s "recorded") eqn:E1; [apply eqb_true in E1 as ->; discriminate|].
  destruct (s =s "running") eqn:E2; [apply eqb_true in E2 as ->; discriminate|]. done.
Qed.

(** A terminal that names an invocation settles it. *)
Lemma terminal_settles state t state' k i : isCapabilityTerminalEvent t = true ->
  get t "invocationId" = VStr k -> k <> "" ->
  oget k (cap_invocations (capabilities state)) = Some i ->
  reduceCapabilityState state t = Ok state' ->
  exists i', oget k (cap_invocations (capabilities state')) = Some i' /\ settled i' = true.
Proof.
  intros Ht Hk Hne Hi. unfold reduceCapabilityState, nonEmptyStringField, stringField. rewrite Hk.
  unfold isCapabilityTerminalEvent in Ht. apply str_in_true in Ht. cbn [CAPABILITY_TERMINALS In] in Ht.
  assert (opt_nonempty (Some k) = Some k) as Ek by (by destruct k). rewrite Ek.
  destruct Ht as [E|[E|[E|[E|[]]]]]; rewrite <- E; cbn -[updateCapabilityInvocation oset];
    unfold updateCapabilityInvocation; rewrite Hi; cbn -[oset]; intros [= <-]; cbn -[oset];
    rewrite oget_oset_eq; eexists; (split; [done|]); eapply settling_status;
    try (unfold copiedIf; repeat case_match; cbn -[oset get]; rewrite !get_oset_ne by done;
         apply get_oset_eq); try done.
  - rewrite !get_oset_ne by done. apply get_oset_eq.
  - by destruct (is_str _ _).
Qed.

(** Once settled, settled for good. *)
Lemma settled_forever l state state' k i :
  oget k (cap_invocations (capabilities state)) = Some i -> settled i = true ->
  res_fold reduceCapabilityState l state = Ok state' ->
  exists i', oget k (cap_invocations (capabilities state')) = Some i' /\ settled i' = true.
Proof.
  revert state i. induction l as [|e l IH]; intros state i Hi Hs; cbn [res_fold].
  - intros [= <-]. eauto.
  - destruct (reduceCapabilityState state e) as [mid|] eqn:E; [|discriminate]. cbn [res_bind].
    destruct (invocation_kept state e mid k i E Hi) as (i' & Hi' & Hstep).
    eapply IH; [exact Hi'|]. by apply (is_settled _ _ Hstep).
Qed.

(** Reducing a list that closes an invocation settles it. *)
Lemma closing_settles l state state' k i :
  (forall t, In t l -> isCapabilityTerminalEvent t = true -> exists s, get t "invocationId" = VStr s) ->
  k <> "" -> oget k (cap_invocations (capabilities state)) = Some i -> In k (closed_by l) ->
  res_fold reduceCapabilityState l state = Ok state' ->
  exists i', oget k (cap_invocations (capabilities state')) = Some i' /\ settled i' = true.
Proof.
  intros Hids Hne. revert state i. induction l as [|e l IH]; intros state i Hi Hin; [done|].
  cbn [res_fold]. destruct (reduceCapabilityState state e) as [mid|] eqn:E; [|discriminate].
  cbn [res_bind]. replace (e :: l) with ([e] ++ l) in Hin by done.
  rewrite closed_by_app, closed_by_one in Hin. apply in_app_or in Hin as [Hin|Hin].
  - destruct (isCapabilityTerminalEvent e) eqn:Ht; [|done]. destruct Hin as [Hc|[]].
    destruct (Hids e (or_introl eq_refl) Ht) as [s Hs]. unfold closes, keyOf in Hc. rewrite Hs in Hc.
    cbn in Hc. subst s. destruct (terminal_settles _ _ _ _ _ Ht Hs Hne Hi E) as (i' & Hi' & Hset).
    intros Hf. by eapply settled_forever.
  - destruct (invocation_kept _ _ _ _ _ E Hi) as (i' & Hi' & _). intros Hf.
    eapply (IH (fun t Ht => Hids t (or_intror Ht))); eauto.
Qed.

(** C18: Together with the capability reducer: when a completed batch is reduced, every
    live invocation of a call the batch ends is settled in the state that results, so
    no capability outlives the call it served. *)
Theorem capabilities_end_with_their_call `{JsHost}
    (state final : AgentState) (events output : list obj) (moments : ordmap string) (event : obj)
    (k : string) (i : obj) :
  filed state -> named events ->
  attachSuspendedCapabilityTerminals state events moments = Ok output ->
  res_fold reduceCapabilityState output state = Ok final ->
  In event events -> isToolTerminalEvent event = true ->
  oget k (cap_invocations (capabilities state)) = Some i ->
  sameValue (get i "toolCallId") (get event "toolCallId") = true ->
  exists i', oget k (cap_invocations (capabilities final)) = Some i' /\ settled i' = true.
Proof.
  intros Hf Hn Hatt Hred He Ht Hi Htool.
  destruct (attach_spec state events moments Hf output Hatt) as (closed & _ & _ & _ & Hw & _ & Hb).
  destruct (Hb event He Ht) as (pre & post & Hout & Hneed). cbn [fst] in *.
  destruct (settled i) eqn:Hs; [by eapply settled_forever|].
  rewrite settled_live, negb_false_iff in Hs. destruct (oall_oget _ _ _ _ Hf Hi) as [Hne Hid].
  eapply (closing_settles output state final k i); [|done|done| |done].
  { exact (warranted_named state events output Hf Hn Hw). }
  assert (In i (invocationsOf state)) as Hiv by (apply In_ovalues; exists k; by apply oget_In).
  specialize (Hneed i Hiv). unfold needsTerminal, keyOf in Hneed.
  rewrite Htool, Hs, Hid in Hneed. cbn in Hneed. apply negb_false_iff, str_in_true in Hneed.
  rewrite Hout, closed_by_app. apply in_or_app. by left.
Qed.

(** ** A shell call that ends while its capability is running *)

Definition runningShell : AgentState := Eval vm_compute in runCapability demo [shellRecorded; startAttempt 1].

Definition toolFailed : obj :=
  [("type", VStr "tool.failed"); ("toolCallId", VStr "call1");
   ("failure", VObj [("message", VStr "interrupted")])].

Definition atEpoch : ordmap string := [("inv1", "1970-01-01T00:00:00.000Z")].

Definition completedBatch : list obj := Eval vm_compute in
  match attachSuspendedCapabilityTerminals (host := host0) runningShell [toolFailed] atEpoch with
  | Ok l => l | Throw _ => [] end.

Lemma runningShell_filed : filed runningShell.
Proof. intros k i [[= <- <-]|[]]. by split. Qed.

Lemma completed_batch : attachSuspendedCapabilityTerminals (host := host0) runningShell [toolFailed] atEpoch
  = Ok completedBatch.
Proof. vm_compute. reflexivity. Qed.

Lemma ended_calls_close_their_capabilities_witness :
  others completedBatch = others [toolFailed] /\ NoDup (closed_by completedBatch)
  /\ (forall t, In t completedBatch -> isCapabilityTerminalEvent t = true ->
        warranted runningShell [toolFailed] t)
  /\ (forall e, In e [toolFailed] -> isCapabilityTerminalEvent e = true ->
        In (closes e) (closed_by completedBatch))
  /\ (forall e, In e [toolFailed] -> isToolTerminalEvent e = true ->
        closed_before runningShell completedBatch e).
Proof.
  apply (ended_calls_close_their_capabilities (H := host0) runningShell [toolFailed] completedBatch atEpoch);
    [exact runningShell_filed|exact completed_batch].
Defined.

Lemma toolFailed_readable : Forall readable [toolFailed].
Proof. apply Forall_singleton. by split. Qed.

Lemma requirements_are_exact_witness :
  NoDup (List.map rq_invocationId (suspendedCapabilityTerminalRequirements runningShell [toolFailed]))
  /\ ((exists output, attachSuspendedCapabilityTerminals (host := host0) runningShell [toolFailed] atEpoch = Ok output)
      <-> Forall (fun r => validMoment (host := host0) (momentOf atEpoch (rq_invocationId r)) = true)
            (suspendedCapabilityTerminalRequirements runningShell [toolFailed])).
Proof. apply requirements_are_exact. exact toolFailed_readable. Defined.

Definition settledShell : AgentState := Eval vm_compute in runCapability runningShell completedBatch.

Lemma capabilities_end_with_their_call_witness :
  exists i', oget "inv1" (cap_invocations (capabilities settledShell)) = Some i' /\ settled i' = true.
Proof.
  refine (capabilities_end_with_their_call (H := host0) runningShell settledShell [toolFailed]
    completedBatch atEpoch toolFailed "inv1" _ runningShell_filed _ completed_batch _ (or_introl eq_refl)
    eq_refl eq_refl _); [|vm_compute; reflexivity|vm_compute; reflexivity].
  intros t [<-|[]]. discriminate.
Defined.
