(* ===== verification/Restart.v ===== *)
(** * Restart recovery ([restart-recovery.ts])

    The events that settle what a restart left open: capability invocations
    without a result, model invocations in flight, reservations and waiters of
    the resource ledger.  Their effect on the ledger is proved through the lease
    reducer. *)

From S2P Require Import Prelude Js Hash State Sample Lease LeaseProps Kernel.
From stdpp Require Import prelude strings list.
From Stdlib Require Import ZArith Lia.
Open Scope Z_scope.

(** The evidence the host supplies, by invocation. *)
Record StateRestartRecoveryFacts := {
  capabilityFinishedAtByInvocationId : ordmap string;
  pendingModelEvidenceFailures : ordmap string;
  completedModelEvidenceFailures : ordmap string }.

Definition textField (o : obj) (k : string) : string := default "" (stringField o k).

Definition statusIn (o : obj) (l : list string) : bool := existsb (is_str (get o "status")) l.

Definition awaitsHuman (s : ToolCallStatus) : bool :=
  match s with
  | t_awaiting_review | t_awaiting_approval | t_awaiting_auto_review | t_awaiting_user_input => true
  | _ => false
  end.

(** An invocation whose intent was persisted without a result, unless its
    provider, its suspended subagent or a human still owns it. *)
Definition restartPending (state : AgentState) (invocation : obj) : bool :=
  let lifecycle := get invocation "subagentProviderLifecycle" in
  let toolCallId := textField invocation "toolCallId" in
  statusIn invocation ["recorded"; "running"]
  && negb (truthy lifecycle && negb (statusIn (jsonRecord lifecycle) ["cleanup_completed"]))
  && negb (ohas toolCallId (suspendedSubagents state))
  && negb match oget toolCallId (calls (tools state)) with
          | Some call => awaitsHuman (tc_status call) | None => false end%string.

Definition stateRestartRecoveryCapabilityInvocationIds (state : AgentState) : list string :=
  List.map (fun i => textField i "invocationId")
    (List.filter (restartPending state) (ovalues (cap_invocations (capabilities state)))).

Definition executionUnknown (invocationId finishedAt : string) : obj :=
  [("type", VStr "capability.execution_unknown"); ("invocationId", VStr invocationId);
   ("reason", VStr "Runtime recovered after invocation intent was persisted without a terminal result.");
   ("finishedAt", VStr finishedAt)]%string.

Fixpoint capabilityEvents (facts : StateRestartRecoveryFacts) (pending : list string)
    (invocations : list obj) : res (list obj) :=
  match invocations with
  | [] => Ok []
  | i :: rest =>
      let id := textField i "invocationId" in
      if str_in id pending then
        match oget id (capabilityFinishedAtByInvocationId facts) with
        | Some finishedAt =>
            if validTimestamp finishedAt then
              let* events := capabilityEvents facts pending rest in
              Ok (executionUnknown id finishedAt :: events)
            else Throw ("State restart recovery requires a valid Host timestamp for " +:+ id +:+ ".")
        | None => Throw ("State restart recovery requires a valid Host timestamp for " +:+ id +:+ ".")
        end
      else capabilityEvents facts pending rest
  end%string.

(** The events of a model invocation. *)
Definition modelEvents (facts : StateRestartRecoveryFacts) (i : obj) : list obj :=
  let id := textField i "invocationId" in
  if statusIn i ["completed"] && negb (truthy (get i "modelEvidenceUnavailable")) then
    match opt_nonempty (oget id (completedModelEvidenceFailures facts)) with
    | Some failure =>
        [[("type", VStr "model.invocation_evidence_unavailable"); ("invocationId", VStr id);
          ("reasonCode", VStr failure)]]
    | None => []
    end
  else if statusIn i ["prepared"; "dispatching"] then
    [[("type", VStr "model.invocation_interrupted"); ("invocationId", VStr id);
      ("dispatchCertainty", VStr (if statusIn i ["prepared"] then "none" else "unknown"));
      ("reasonCode", VStr "runtime_restored")]]
  else []%string.

(** The reservation whose evidence a dispatching invocation lost. *)
Definition uncertainReservation (facts : StateRestartRecoveryFacts) (i : obj) : list string :=
  let budget := jsonRecord (get i "budget") in
  if negb (statusIn i ["completed"] && negb (truthy (get i "modelEvidenceUnavailable")))
     && statusIn i ["dispatching"]
     && is_some (opt_nonempty (oget (textField i "invocationId") (pendingModelEvidenceFailures facts)))
     && is_str (get budget "kind") "reservation"
  then [textField budget "reservationId"] else []%string.

Definition reservationEvent (type id : string) : obj :=
  [("type", VStr type); ("reservationId", VStr id)]%string.

Definition reservationEvents (uncertain : list string) (r : obj) : list obj :=
  let id := textField r "reservationId" in
  if state_is r "reserved" then
    [reservationEvent (if str_in id uncertain then "resource_budget.unknown"
                       else "resource_budget.released") id]
  else if state_is r "dispatch_started" then [reservationEvent "resource_budget.unknown" id]
  else []%string.

Definition waiterEvents (w : obj) : list obj :=
  if state_is w "waiting" then
    [[("type", VStr "resource_budget.waiter_cancelled");
      ("invocationId", VStr (textField w "invocationId"))]]
  else []%string.

Definition budgetEvents (state : AgentState) (uncertain : list string) : list obj :=
  match resourceBudget state with
  | budget_active b =>
      flat_map (reservationEvents uncertain) (ovalues (rb_reservations b))
      ++ (if bool_decide (turn_status (turn state) = turn_active) then []
          else flat_map waiterEvents (ovalues (rb_waiters b)))
  | budget_unconfigured => []
  end.

Definition uncertainReservations (state : AgentState) (facts : StateRestartRecoveryFacts)
  : list string := flat_map (uncertainReservation facts) (ovalues (modelInvocations state)).

Definition projectStateRestartRecoveryEvents (state : AgentState)
    (facts : StateRestartRecoveryFacts) : res (list obj) :=
  let* capability :=
    capabilityEvents facts (stateRestartRecoveryCapabilityInvocationIds state)
      (ovalues (cap_invocations (capabilities state))) in
  Ok (capability ++ flat_map (modelEvents facts) (ovalues (modelInvocations state))
      ++ budgetEvents state (uncertainReservations state facts)).

(** ** The ledger after a restart *)

(** What the events make of a reservation and of a waiter. *)
Definition settledReservation (uncertain : list string) (k : string) (r : obj) : obj :=
  if state_is r "reserved"
  then with_state (if str_in k uncertain then "unknown" else "released") r
  else if state_is r "dispatch_started" then with_state "unknown" r else r.

Definition settledWaiter (w : obj) : obj :=
  if state_is w "waiting" then with_state "cancelled" w else w.

Definition omap_values {A} (f : string -> A -> A) (m : ordmap A) : ordmap A :=
  List.map (fun '(k, v) => (k, f k v)) m.

(** The ledger names its entries by identities that are not blank. *)
Definition named (field : string) (m : ordmap obj) : Prop :=
  NoDup (okeys m)
  /\ oall (fun k r => get r field = VStr k /\ str_nonempty (trim k) = true) m.

Lemma oset_app {A} (pre post : ordmap A) k v v' :
  ~ In k (okeys pre) -> oset k v' (pre ++ (k, v) :: post) = pre ++ (k, v') :: post.
Proof.
  induction pre as [|[k1 v1] pre IH]; simpl; intros Hk.
  - by rewrite String.eqb_refl.
  - rewrite (proj2 (eqb_false k k1)); [|intros ->; tauto]. by rewrite IH by tauto.
Qed.

Lemma oget_app {A} (pre post : ordmap A) k v :
  ~ In k (okeys pre) -> oget k (pre ++ (k, v) :: post) = Some v.
Proof.
  induction pre as [|[k1 v1] pre IH]; simpl; intros Hk.
  - by rewrite String.eqb_refl.
  - rewrite (proj2 (eqb_false k k1)); [|intros ->; tauto]. apply IH. tauto.
Qed.

Lemma omap_values_keys {A} (f : string -> A -> A) m : okeys (omap_values f m) = okeys m.
Proof. unfold omap_values, okeys. rewrite map_map. apply map_ext. by intros [k v]. Qed.

Lemma res_fold_app {A S} (f : S -> A -> res S) l1 l2 s s' :
  res_fold f l1 s = Ok s' -> res_fold f (l1 ++ l2) s = res_fold f l2 s'.
Proof.
  revert s. induction l1 as [|x l1 IH]; intros s; simpl; [by intros [= ->]|].
  destruct (f s x) as [t|]; simpl; [apply IH|done].
Qed.

Section Ledger.
Context `{JsHost}.

Definition inert (e : obj) : Prop := forall s, reduceLeaseState s e = Ok s.

Lemma inert_fold es s : Forall inert es -> res_fold reduceLeaseState es s = Ok s.
Proof. induction 1 as [|e es He _ IH]; simpl; [done|]. by rewrite He. Qed.

Lemma capabilityEvents_inert facts pending l es :
  capabilityEvents facts pending l = Ok es -> Forall inert es.
Proof.
  revert es. induction l as [|i l IH]; intros es; simpl; [by intros [= <-]|].
  destruct (str_in _ pending); [|apply IH]. destruct (oget _ _) as [at_|]; [|done].
  destruct (validTimestamp at_); [|done]. intros (es' & He & [= <-])%bind_ok.
  constructor; [done|by apply IH].
Qed.

Lemma modelEvents_inert facts l : Forall inert (flat_map (modelEvents facts) l).
Proof.
  induction l as [|i l IH]; simpl; [constructor|]. apply Forall_app. split; [|done].
  unfold modelEvents. repeat case_match; repeat constructor.
Qed.

(** One reservation of the ledger. *)
Lemma reservation_event_settles state b uncertain k r :
  resourceBudget state = budget_active b -> oget k (rb_reservations b) = Some r ->
  get r "reservationId" = VStr k -> str_nonempty (trim k) = true ->
  res_fold reduceLeaseState (reservationEvents uncertain r) state
  = Ok (state <| resourceBudget := budget_active
          (b <| rb_reservations := oset k (settledReservation uncertain k r) (rb_reservations b) |>) |>).
Proof.
  intros Hb Hk Hid Hne. unfold reservationEvents, settledReservation, textField, stringField.
  rewrite Hid. change (default ""%string (Some k)) with k.
  assert (oset k r (rb_reservations b) = rb_reservations b) as Hsame.
  { clear -Hk. induction (rb_reservations b) as [|[k1 v1] m IH]; simpl in *; [done|].
    destruct (String.eqb_spec k k1) as [->|]; [by injection Hk as ->|by rewrite IH]. }
  assert (state <| resourceBudget := budget_active (b <| rb_reservations := rb_reservations b |>) |>
    = state) as Hid'. { destruct state, b. simpl in *. by subst. }
  assert (forall target (type : string), reduceLeaseState state (reservationEvent type k)
      = Ok (setReservation state b r target) ->
      res_fold reduceLeaseState [reservationEvent type k] state
      = Ok (state <| resourceBudget := budget_active
          (b <| rb_reservations := oset k (with_state target r) (rb_reservations b) |>) |>)) as Hone.
  { intros target type Hr. simpl. rewrite Hr. simpl. unfold setReservation.
    rewrite (replace_key _ k); [done|]. by rewrite get_oset_ne. }
  assert (nonEmpty (VStr k) "reservationId" = Ok k) as Hn by (unfold nonEmpty; by rewrite Hne).
  destruct (state_is r "reserved") eqn:Er.
  - assert (state_is r "unknown" = false /\ state_is r "released" = false) as [Hu Hrl].
    { unfold state_is in *. apply is_str_true in Er. rewrite Er. done. }
    destruct (str_in k uncertain); apply Hone; unfold reduceLeaseState, reduceBudget, reservationEvent;
      cbn -[nonEmpty]; rewrite Hb; cbn -[nonEmpty]; rewrite Hn; cbn; rewrite Hk; cbn;
      unfold reservation_unknown, reservation_released; by rewrite ?Hu, ?Hrl, Er, ?andb_false_r.
  - destruct (state_is r "dispatch_started") eqn:Ed; [|by simpl; rewrite Hsame, Hid'].
    assert (state_is r "unknown" = false) as Hu.
    { unfold state_is in *. apply is_str_true in Ed. by rewrite Ed. }
    apply Hone; unfold reduceLeaseState, reduceBudget, reservationEvent;
      cbn -[nonEmpty]; rewrite Hb; cbn -[nonEmpty]; rewrite Hn; cbn; rewrite Hk; cbn;
      unfold reservation_unknown. by rewrite Hu, Ed.
Qed.

(** One waiter of the ledger. *)
Lemma waiter_event_settles state b k w :
  resourceBudget state = budget_active b -> oget k (rb_waiters b) = Some w ->
  get w "invocationId" = VStr k -> str_nonempty (trim k) = true ->
  res_fold reduceLeaseState (waiterEvents w) state
  = Ok (state <| resourceBudget := budget_active
          (b <| rb_waiters := oset k (settledWaiter w) (rb_waiters b) |>) |>).
Proof.
  intros Hb Hk Hid Hne. unfold waiterEvents, settledWaiter, textField, stringField. rewrite Hid.
  destruct (state_is w "waiting") eqn:Ew.
  - assert (nonEmpty (VStr k) "invocationId" = Ok k) as Hn by (unfold nonEmpty; by rewrite Hne).
    assert (state_is w "cancelled" = false) as Hc.
    { unfold state_is in *. apply is_str_true in Ew. by rewrite Ew. }
    unfold reduceLeaseState, reduceBudget. cbn -[nonEmpty]. rewrite Hb. cbn -[nonEmpty].
    unfold waiter_settled. cbn -[nonEmpty]. rewrite Hn. cbn. rewrite Hk, Hc, Ew. done.
  - simpl. assert (oset k w (rb_waiters b) = rb_waiters b) as ->.
    { clear -Hk. induction (rb_waiters b) as [|[k1 v1] m IH]; simpl in *; [done|].
      destruct (String.eqb_spec k k1) as [->|]; [by injection Hk as ->|by rewrite IH]. }
    f_equal. destruct state, b. simpl in *. by subst.
Qed.

(** Settling the entries of a map one by one settles the map. *)
Lemma entries_settle (field : string) (events : obj -> list obj) (settle : string -> obj -> obj)
    (put : ordmap obj -> AgentState) pre post :
  (forall k r, get (settle k r) field = get r field) ->
  (forall m k r, oget k m = Some r -> get r field = VStr k -> str_nonempty (trim k) = true ->
     res_fold reduceLeaseState (events r) (put m) = Ok (put (oset k (settle k r) m))) ->
  named field (pre ++ post) ->
  res_fold reduceLeaseState (flat_map events (ovalues post)) (put (pre ++ post))
  = Ok (put (pre ++ omap_values settle post)).
Proof.
  intros Hf Hstep. revert pre. induction post as [|[k r] post IH]; intros pre [Hnd Hall]; [done|].
  assert (~ In k (okeys pre)) as Hpre.
  { unfold okeys in *. rewrite map_app in Hnd. simpl in Hnd. apply NoDup_app in Hnd as (_ & Hd & _).
    intros Hin. apply (Hd k); [by apply list_elem_of_In|by left]. }
  destruct (Hall k r) as [Hid Hne]; [apply in_app_iff; right; by left|]. simpl.
  erewrite res_fold_app; [|apply (Hstep _ k r); try done; by apply oget_app].
  rewrite oset_app by done.
  change (pre ++ (k, settle k r) :: post) with (pre ++ [(k, settle k r)] ++ post).
  rewrite app_assoc, IH; [by rewrite <- app_assoc|]. split.
  - unfold okeys in *. rewrite !map_app in *. simpl in *. by rewrite <- app_assoc.
  - intros x y Hin. rewrite <- app_assoc in Hin. apply in_app_iff in Hin as [Hin|[[= <- <-]|Hin]].
    + apply Hall, in_app_iff. by left.
    + split; [by rewrite Hf|done].
    + apply Hall, in_app_iff. right. by right.
Qed.

Lemma settled_reservation_id uncertain k r :
  get (settledReservation uncertain k r) "reservationId" = get r "reservationId".
Proof. unfold settledReservation. repeat case_match; by rewrite ?with_state_get. Qed.

Lemma settled_waiter_id w : get (settledWaiter w) "invocationId" = get w "invocationId".
Proof. unfold settledWaiter. case_match; by rewrite ?with_state_get. Qed.

Lemma capabilityEvents_total facts pending l :
  (forall id, In id pending -> exists at_,
     oget id (capabilityFinishedAtByInvocationId facts) = Some at_ /\ validTimestamp at_ = true) ->
  exists es, capabilityEvents facts pending l = Ok es.
Proof.
  intros Ht. induction l as [|i l [es IH]]; simpl; [by eexists|].
  destruct (str_in _ pending) eqn:Ep; [|by eexists].
  destruct (Ht _ (proj1 (str_in_true _ _) Ep)) as (at_ & -> & ->). rewrite IH. by eexists.
Qed.

End Ledger.

(** ** A concrete restart *)

(** One reservation held, one dispatched, one waiter. *)
Definition openLedger : AgentResourceBudgetActiveState :=
  {| rb_runId := "run"; rb_startedAt := ""; rb_deadlineAt := ""; rb_budget := [];
     rb_reconciledUsage := zeroUsage;
     rb_reservations := [("r1", [("reservationId", VStr "r1"); ("state", VStr "reserved")]);
                         ("r2", [("reservationId", VStr "r2"); ("state", VStr "dispatch_started")])];
     rb_waiters := [("i3", [("invocationId", VStr "i3"); ("state", VStr "waiting")])];
     rb_nextWaiterSequence := 1 |}%string.

Definition interrupted : AgentState := demo <| resourceBudget := budget_active openLedger |>.

Definition noFacts : StateRestartRecoveryFacts :=
  {| capabilityFinishedAtByInvocationId := []; pendingModelEvidenceFailures := [];
     completedModelEvidenceFailures := [] |}.

