(* ===== verification/KernelClaims.v ===== *)
(** * What [decide] guarantees

    Revisions, event identities and the journal of applied events, for every event
    codec.  The theorems on the journal rest on a lemma per domain reducer: none of
    the eleven touches it. *)

From S2P Require Import Prelude Js Hash State Sample Authorization AuthorizationProps AuthorizationSafety Normalization RecoveryReducer Lease LeaseProps Traits Scheduler Work SchedulerProps CompletionReducer Verification Intent Lifecycle Interaction Capability CapabilityClaims Context ContextClaims Kernel.
From stdpp Require Import prelude strings list pretty.
From Stdlib Require Import ZArith Lia.
Open Scope Z_scope.

(** ** Reducers leave the journal alone *)

Definition journal (s : AgentState) : AgentSessionState * list string :=
  (session s, appliedEventIds s).

Definition keeps_journal (r : AgentState -> obj -> AgentReducerFacts -> res AgentState) : Prop :=
  forall s e f s', r s e f = Ok s' -> journal s' = journal s.

Lemma authorization_keeps_journal `{JsHost} :
  keeps_journal (fun s e _ => Ok (reduceAuthorizationState s e)).
Proof.
  intros s e f s' [= <-]. unfold journal. by rewrite session_kept, appliedEventIds_kept.
Qed.

Lemma lease_keeps_journal `{JsHost} : keeps_journal (fun s e _ => reduceLeaseState s e).
Proof.
  intros s e f s'. unfold reduceLeaseState. case_match.
  - intros [->|[(_ & b & -> & _)|(b & b' & _ & -> & _)]]%reduceBudget_effect; done.
  - case_match; intros [= <-]; [|done].
    unfold reduceReadiness, readiness_intent_recorded, readiness_waiter_registered,
      readiness_attempt_started, readiness_succeeded, readiness_failed, putReadiness.
    by repeat case_match.
Qed.

Lemma work_keeps_journal : keeps_journal (fun s e _ => Ok (reduceWorkState s e)).
Proof.
  intros s e f s' [= <-]. unfold reduceWorkState, work_tool_started, skill_catalog_refreshed,
    skill_activation_started, skill_frame_closed, putFrame, updateTasks.
  by repeat case_match.
Qed.

Lemma recovery_keeps_journal `{JsHost} : keeps_journal (fun s e _ => reduceRecoveryState s e).
Proof.
  intros s e f s'. unfold reduceRecoveryState, reduceSubagentSuspended, reduceSubagentDeferred,
    reduceSubagentMerged, reduceToolOutcome.
  repeat case_match; intros; res_inv; try done; repeat case_match; simplify_eq; done.
Qed.

Lemma completion_keeps_journal `{JsHost} : keeps_journal (fun s e _ => reduceCompletionState s e).
Proof.
  intros s e f s'. unfold reduceCompletionState, turn_completed_event, turn_aborted_event,
    run_completed_event, run_error_event, completion_blocked_event.
  repeat case_match; intros; res_inv; try done; repeat case_match; simplify_eq; done.
Qed.

Lemma verification_keeps_journal : keeps_journal reduceVerificationState.
Proof.
  intros s e f s'. unfold reduceVerificationState, verification_requested, verification_started,
    verification_check_completed, verification_completed, verification_repair_requested,
    verification_replan_requested, verification_waived, compensation_requested,
    compensation_completed, appendInstruction, withRecord.
  repeat case_match; intros; res_inv; try done; repeat case_match; simplify_eq; done.
Qed.

Lemma intent_keeps_journal `{JsHost} : keeps_journal (fun s e _ => reduceIntentState s e).
Proof.
  intros s e f s'. unfold reduceIntentState, tool_queued, tool_call_started, tool_ended,
    tool_retry_recorded, network_admission_decided, putCall, updateToolCall, withToolMembership.
  repeat case_match; intros; res_inv; try done; repeat case_match; simplify_eq; done.
Qed.

(** What the reducers of lifecycle, capability and lease facts all leave alone. *)
Definition frame (s : AgentState) := (journal s, transcript s).

Lemma updateTask_kept s k f : frame (updateTask s k f) = frame s.
Proof. unfold updateTask. by case_match. Qed.

Lemma withPlanProgress_frame s next kind r ids : frame (withPlanProgress s next kind r ids) = frame next.
Proof. unfold withPlanProgress. by case_match. Qed.

Lemma lifecycle_frame `{JsHost} s e : frame (reduceLifecycleState s e) = frame s.
Proof.
  unfold reduceLifecycleState, task_started, task_completed_event, task_cancelled_event, turn_started,
    planning_entered, plan_review_requested, plan_approved, plan_review_declined, plan_replan_requested,
    plan_drafted, plan_progress_updated, plan_completed_event.
  repeat (case_match; try done; rewrite ?withPlanProgress_frame, ?updateTask_kept; try done).
  all: unfold updateTask; by repeat case_match.
Qed.

Lemma lifecycle_keeps_journal `{JsHost} : keeps_journal (fun s e _ => Ok (reduceLifecycleState s e)).
Proof. intros s e f s' [= <-]. exact (f_equal fst (lifecycle_frame s e)). Qed.

Lemma capability_frame s e s' : reduceCapabilityState s e = Ok s' -> frame s' = frame s.
Proof.
  unfold reduceCapabilityState, bindings_issued, search_completed, invocation_recorded,
    updateCapabilityInvocation.
  repeat case_match; intros; res_inv; try done; repeat case_match; simplify_eq; done.
Qed.

Lemma capability_keeps_journal : keeps_journal (fun s e _ => reduceCapabilityState s e).
Proof. intros s e f s' Hr. exact (f_equal fst (capability_frame s e s' Hr)). Qed.

Lemma context_keeps_journal : keeps_journal reduceContextState.
Proof.
  intros s e f s' [->|[(c & ->)|[(k & i & ->)|[Hu|Hm]]]]%context_effect; try done.
  - unfold user_message_appended in Hu. opt_inv. subst s'. unfold setUserGoal, openAllocatedTask.
    by repeat case_match.
  - unfold model_responded in Hm. opt_inv. by subst s'.
Qed.

Lemma interaction_keeps_journal : keeps_journal (fun s e _ => Ok (reduceInteractionState s e)).
Proof.
  intros s e f s' [= <-]. unfold reduceInteractionState, user_input_requested, user_input_closed,
    interaction_review_requested, interaction_plan_approved, interaction_review_declined,
    provider_action_required, provider_action_started, provider_action_ended,
    provider_admission_required, provider_admission_retry_failed, provider_admission_satisfied,
    provider_admission_cancelled, provider_admission_waived, interaction_turn_aborted.
  repeat (case_match; try done). all: unfold updateToolCall; by case_match.
Qed.

Section Journal.
Context {ports : KernelPorts} {host : JsHost}.

Lemma applyReducers_keeps rs :
  Forall keeps_journal rs -> keeps_journal (fun s e f => applyReducers rs s e f).
Proof.
  induction 1 as [|r rs Hr Hrs IH]; intros s e f s'; simpl; [by intros [= <-]|].
  intros (next & Hn & Ha)%bind_ok. transitivity (journal next); [by eapply IH|by eapply Hr].
Qed.

Lemma reduceAgentState_keeps : keeps_journal reduceAgentState.
Proof using All.
  intros s e f s'. unfold reduceAgentState.
  intros (_ & _ & (_ & _ & Ha)%bind_ok)%bind_ok.
  eapply applyReducers_keeps; [|exact Ha].
  repeat apply Forall_cons_2; try apply Forall_nil_2.
  - apply lifecycle_keeps_journal.
  - apply authorization_keeps_journal.
  - apply recovery_keeps_journal.
  - apply intent_keeps_journal.
  - apply lease_keeps_journal.
  - apply completion_keeps_journal.
  - apply work_keeps_journal.
  - apply interaction_keeps_journal.
  - apply capability_keeps_journal.
  - apply context_keeps_journal.
  - apply verification_keeps_journal.
Qed.
End Journal.

(** ** The loop *)

Section Loop.
Context {ports : KernelPorts} {port : CompletionPort} {host : JsHost}.
Implicit Types (loop : DecideLoop) (input : KernelInput) (e : KernelEventEnvelope).

Lemma decideEvent_cases input alloc i cand at_ adm loop loop' :
  decideEvent input alloc i cand at_ adm loop = Ok (inr loop') ->
  exists normalized id, assertCurrentRuntimeEventForWrite cand = Ok tt
    /\ normalizeAgentEvent cand (dl_state loop) at_ = Ok normalized
    /\ digestAgentEvent normalized = Ok id
    /\ (In id (dl_seen loop) /\ loop' = loop
        \/ ~ In id (dl_seen loop)
           /\ exists payload rf reduced, payload = finalizeAgentEvent normalized at_
                /\ allocateTask (dl_state loop) payload i alloc = Ok (inr (allocatedTaskId rf))
                /\ (forall task, allocatedTaskId rf = Some task -> activeTaskId reduced = Some task)
                /\ reduceAgentState (dl_state loop) payload rf = Ok reduced
                /\ loop' = admitEvent input at_ id payload reduced loop).
Proof.
  unfold decideEvent. intros ([] & Hw & (n & Hn & (id & Hi & Hd)%bind_ok)%bind_ok)%bind_ok.
  exists n, id. split_and!; try done.
  destruct (str_in id (dl_seen loop)) eqn:Es.
  { apply str_in_true in Es. left. by injection Hd as <-. }
  right. split. { rewrite <- str_in_true, Es. done. }
  destruct (_ && _); [done|]. apply bind_ok in Hd as ([code|al] & Hal & Hd); [done|].
  apply bind_ok in Hd as (red & Hr & Hd).
  destruct (match al with Some _ => _ | None => false end) eqn:Et; [done|].
  injection Hd as <-. eexists _, _, red.
  split; [reflexivity|]. split; [|split; [|split; [exact Hr|done]]]; [done|].
  intros task Htask. simpl in Htask. subst al. apply negb_false_iff, opt_str_eqb_true in Et. done.
Qed.

Definition ids_of (es : list KernelEventEnvelope) : list string := List.map env_eventId es.

(** The revisions after [r], one per event. *)
Definition revisions (r : Z) (n : nat) : list Z := seqZ (r + 1) (Z.of_nat n).

(** What a run of the loop adds. *)
Record grows input loop (es : list KernelEventEnvelope) loop' : Prop := {
  gr_envelopes : dl_envelopes loop' = dl_envelopes loop ++ es;
  gr_payloads : dl_payloads loop' = dl_payloads loop ++ List.map env_payload es;
  gr_seen : dl_seen loop' = dl_seen loop ++ ids_of es;
  gr_NoDup : NoDup (ids_of es);
  gr_fresh : Forall (fun id => ~ In id (dl_seen loop)) (ids_of es);
  gr_session : Forall (fun e => env_sessionId e = in_sessionId input) es;
  gr_last : lastAppliedEventId (dl_state loop')
            = match last (ids_of es) with
              | Some id => Some id | None => lastAppliedEventId (dl_state loop) end;
  gr_revision : 0 <= revision (dl_state loop) ->
    revision (dl_state loop) + Z.of_nat (length es) <= two53 ->
    revision (dl_state loop') = revision (dl_state loop) + Z.of_nat (length es)
    /\ List.map env_revision es = revisions (revision (dl_state loop)) (length es) }.

Lemma grows_nil input loop : grows input loop [] loop.
Proof.
  split; simpl; rewrite ?app_nil_r; try done; try apply NoDup_nil_2.
  intros _ _. split; [lia|done].
Qed.

Lemma grows_admit input loop at_ id payload reduced es loop' :
  ~ In id (dl_seen loop) ->
  grows input (admitEvent input at_ id payload reduced loop) es loop' ->
  grows input loop
    ({| env_eventId := id; env_sessionId := in_sessionId input;
        env_revision := fadd (revision (dl_state loop)) 1; env_occurredAt := at_;
        env_causationId := opt_nonempty (in_causationId input); env_payload := payload |} :: es)
    loop'.
Proof.
  intros Hid [He Hp Hs Hn Hf Hse Hl Hr]. unfold admitEvent in *. simpl in *.
  rewrite <- app_assoc in He, Hp, Hs. split; simpl; try done.
  - constructor; [|done]. intros Hin. rewrite Forall_forall in Hf. apply (Hf id Hin).
    apply in_or_app. right. by left.
  - constructor; [done|]. eapply Forall_impl; [exact Hf|]. intros x Hx Hin. apply Hx.
    apply in_or_app. by left.
  - by constructor.
  - rewrite Hl. fold (ids_of es). change (_ :: List.map env_eventId es) with (id :: ids_of es).
    rewrite (last_cons id). by destruct (last (ids_of es)).
  - intros H0 H1. destruct Hr as [-> Hm]; rewrite ?fadd_succ in * by lia; [lia..|].
    split; [lia|]. rewrite Hm. unfold revisions.
    rewrite (seqZ_cons (revision (dl_state loop) + 1)) by lia. f_equal; f_equal; lia.
Qed.

Lemma decideLoop_grows input alloc i cands facts loop loop' :
  decideLoop input alloc i cands facts loop = Ok (inr loop') ->
  exists es, grows input loop es loop' /\ (length es <= length cands)%nat.
Proof.
  revert i facts loop. induction cands as [|c cands IH]; intros i facts loop; simpl.
  { intros [= <-]. exists []. split; [apply grows_nil|done]. }
  intros ([code|loop1] & Hs & Hd)%bind_ok; [done|].
  destruct (IH _ _ _ Hd) as (es & Hg & Hl).
  apply decideEvent_cases in Hs as (n & id & _ & _ & _ & [[_ ->]|(Hid & p & rf & red & _ & _ & _ & _ & ->)]).
  - exists es. split; [done|lia].
  - eexists. split; [by eapply grows_admit|simpl; lia].
Qed.

Lemma decide_inv state input facts d :
  Kernel.decide state input facts = Ok d ->
  (exists code, d = rejected code)
  \/ (d = conflict "revision_conflict" (revision state)
      /\ in_expectedRevision input <> revision state)
  \/ (in_sessionId input = threadId (session state)
      /\ in_expectedRevision input = revision state /\ validDecisionFacts facts = true
      /\ length (eventFactsOf (jsonRecord facts)) = length (in_events input)
      /\ exists loop, decideLoop input (jsonRecord (get (jsonRecord facts) "allocatedIds")) 0
             (in_events input) (eventFactsOf (jsonRecord facts))
             (initialLoop state (jsonRecord facts)) = Ok (inr loop)
           /\ (dl_payloads loop = [] /\ d = idempotent_replay (revision state)
               \/ dl_payloads loop <> []
                  /\ exists effects, selectPendingEffects (dl_state loop)
                         (schedulerFacts (jsonRecord facts)) = Ok effects
                       /\ d = applied (dl_payloads loop) (dl_envelopes loop) (dl_state loop) effects)).
Proof.
  unfold Kernel.decide. destruct (_ =s _) eqn:E1; simpl; [|intros [= <-]; eauto].
  apply eqb_true in E1.
  destruct (_ =? _) eqn:E2; simpl; [apply Z.eqb_eq in E2|].
  2: { apply Z.eqb_neq in E2. intros [= <-]. by right; left. }
  destruct (validDecisionFacts facts); simpl; [|intros [= <-]; eauto].
  destruct (Nat.eqb _ _) eqn:E3; simpl; [apply Nat.eqb_eq in E3|intros [= <-]; eauto].
  intros ([code|loop] & Hl & Hd)%bind_ok; [injection Hd as <-; eauto|].
  right. right. split_and!; try done. exists loop. split; [done|].
  destruct (dl_payloads loop) eqn:Ep; [injection Hd as <-; by left|].
  apply bind_ok in Hd as (effects & He & [= <-]). right. split; [done|]. by exists effects.
Qed.
End Loop.

(** ** Claims *)

Section Claims.
Context {ports : KernelPorts} {port : CompletionPort} {host : JsHost}.
Implicit Types (state next : AgentState) (input : KernelInput) (facts : val).

(** C9: an applied decision is a contiguous extension of the history.  It exists
    only for the session and the revision the caller expected and for valid
    facts; each admitted event has its envelope, the envelopes carry the
    consecutive revisions that follow the state's and the next state carries the
    last one; no event identity occurs twice or was seen before; and the effects
    are the scheduler's decision on the next state. *)
Theorem decisions_are_contiguous state input facts events envelopes next effects :
  Kernel.decide state input facts = Ok (applied events envelopes next effects) ->
  0 <= revision state ->
  revision state + Z.of_nat (length (in_events input)) <= two53 ->
  in_sessionId input = threadId (session state)
  /\ in_expectedRevision input = revision state /\ validDecisionFacts facts = true
  /\ events <> [] /\ List.map env_payload envelopes = events
  /\ List.map env_revision envelopes = revisions (revision state) (length events)
  /\ revision next = revision state + Z.of_nat (length events)
  /\ NoDup (ids_of envelopes)
  /\ Forall (fun id => ~ In id (appliedEventIds state)
                       /\ ~ In id (knownEventIds (jsonRecord facts))) (ids_of envelopes)
  /\ lastAppliedEventId next = last (ids_of envelopes)
  /\ selectPendingEffects next (schedulerFacts (jsonRecord facts)) = Ok effects.
Proof.
  intros Hd H0 H1. apply decide_inv in Hd as [(? & ?)|[[? _]|(Hs & He & Hv & Hlen & loop & Hl & Hc)]];
    [done..|].
  destruct Hc as [[_ ?]|(Hne & eff & Heff & [= -> -> -> ->])]; [done|].
  apply decideLoop_grows in Hl as (es & [Ge Gp Gs Gn Gf _ Gl Gr] & Hes). simpl in *.
  rewrite Gp in Hne |- *. rewrite Ge, length_map.
  destruct Gr as [-> ->]; [done|lia|]. split_and!; try done.
  - eapply Forall_impl; [exact Gf|]. intros x Hx. split; intros Hin; apply Hx, in_or_app; auto.
  - rewrite Gl. destruct es as [|e es]; [done|]. by destruct (last _) eqn:E; [|apply last_None in E].
Qed.

Lemma decideLoop_journal input alloc i cands fs loop loop' es :
  decideLoop input alloc i cands fs loop = Ok (inr loop') ->
  (length (appliedEventIds (dl_state loop)) <= 4096)%nat ->
  dl_envelopes loop' = dl_envelopes loop ++ es ->
  journal (dl_state loop')
  = (session (dl_state loop), sliceTail 4096 (appliedEventIds (dl_state loop) ++ ids_of es)).
Proof.
  revert i fs loop es. induction cands as [|c cands IH]; intros i fs loop es; simpl.
  { intros [= <-] Hl Hes. rewrite <- (app_nil_r (dl_envelopes loop)) in Hes at 1.
    apply app_inv_head in Hes as <-. simpl. by rewrite app_nil_r, sliceTail_short. }
  intros ([code|loop1] & Hs & Hd)%bind_ok Hl Hes; [done|].
  apply decideEvent_cases in Hs
    as (n & id & _ & _ & _ & [[_ ->]|(Hid & p & rf & red & _ & _ & _ & Hr & ->)]);
    [by eapply IH|].
  apply reduceAgentState_keeps in Hr as [= Hse Hap].
  pose proof (decideLoop_grows _ _ _ _ _ _ _ Hd) as (es' & Hg & _).
  pose proof (gr_envelopes _ _ _ _ Hg) as Ge. simpl in Ge. rewrite Hes, <- app_assoc in Ge.
  apply app_inv_head in Ge as ->.
  rewrite (IH _ _ _ es' Hd); simpl.
  - by rewrite Hse, Hap, sliceTail_app, <- app_assoc.
  - apply sliceTail_length.
  - by rewrite Hes, <- app_assoc.
Qed.

Lemma journal_of_decision state input facts events envelopes next effects :
  Kernel.decide state input facts = Ok (applied events envelopes next effects) ->
  (length (appliedEventIds state) <= 4096)%nat ->
  journal next = (session state, sliceTail 4096 (appliedEventIds state ++ ids_of envelopes)).
Proof.
  intros Hd Hl. apply decide_inv in Hd as [(? & ?)|[[? _]|(_ & _ & _ & _ & loop & Hr & Hc)]];
    [done..|].
  destruct Hc as [[_ ?]|(_ & eff & _ & [= -> -> -> ->])]; [done|].
  by apply decideLoop_journal with (es := dl_envelopes loop) in Hr.
Qed.

(** The journal of an applied decision is the last 4096 identities of the old
    journal followed by the admitted ones, it never exceeds that length, and the
    session is unchanged, given that the domain reducers behind the interface
    leave both alone. *)
Theorem journal_is_bounded_tail state input facts events envelopes next effects :
  Kernel.decide state input facts = Ok (applied events envelopes next effects) ->
  (length (appliedEventIds state) <= 4096)%nat ->
  session next = session state
  /\ appliedEventIds next = sliceTail 4096 (appliedEventIds state ++ ids_of envelopes)
  /\ (length (appliedEventIds next) <= 4096)%nat.
Proof.
  intros Hd Hl. pose proof (journal_of_decision _ _ _ _ _ _ _ Hd Hl) as [= -> ->]. split_and!; try done. apply sliceTail_length.
Qed.

(** The events whose outcome depends on the call the state records. *)
Definition outcome_event (e : obj) : bool :=
  str_in (ev_type e) ("approval.rejected" :: "auto_review.completed" :: TERMINAL_TOOL_EVENTS)%string.

Lemma ev_type_terminal e : ev_type (normalizeTerminalAgentEvent e) = ev_type e.
Proof.
  unfold normalizeTerminalAgentEvent. repeat case_match; try done;
    unfold ev_type, stringField; by rewrite !get_oset_ne by done.
Qed.

(** Any other event has the same form in every state. *)
Lemma normalization_stable e s s' at_ :
  outcome_event e = false -> normalizeAgentEvent e s at_ = normalizeAgentEvent e s' at_.
Proof.
  intros He. unfold normalizeAgentEvent, normalizeAgentToolOutcomeEvent. rewrite ev_type_terminal.
  unfold outcome_event, str_in in He. simpl existsb in He. bool_hyps.
  destruct (str_in (ev_type e) TERMINAL_TOOL_EVENTS) eqn:Et.
  { apply str_in_true in Et. simpl in Et. intuition congruence. }
  by rewrite !(proj2 (eqb_false _ _)) by done.
Qed.

Lemma replay_loop input input' alloc i cands fs loop loop' loop2 :
  decideLoop input alloc i cands fs loop = Ok (inr loop') ->
  Forall (fun e => outcome_event e = false) cands ->
  (forall id, In id (dl_seen loop') -> In id (dl_seen loop2)) ->
  decideLoop input' alloc i cands fs loop2 = Ok (inr loop2).
Proof.
  revert i fs loop. induction cands as [|c cands IH]; intros i fs loop; simpl; [done|].
  intros ([code|loop1] & Hs & Hd)%bind_ok Hst Hin; [done|].
  apply Forall_cons in Hst as [Hc Hst].
  pose proof (decideLoop_grows _ _ _ _ _ _ _ Hd) as (es & Hg & _).
  apply decideEvent_cases in Hs as (n & id & Hw & Hn & Hi & Hcase).
  assert (In id (dl_seen loop1)) as Hid.
  { destruct Hcase as [[? ->]|(_ & p & rf & red & _ & _ & _ & _ & ->)]; [done|].
    simpl. apply in_or_app. right. by left. }
  assert (In id (dl_seen loop2)) as Hid2.
  { apply Hin. rewrite (gr_seen _ _ _ _ Hg). apply in_or_app. by left. }
  unfold decideEvent at 1. rewrite Hw. cbn [res_bind].
  rewrite (normalization_stable _ _ (dl_state loop) _ Hc), Hn. cbn [res_bind]. rewrite Hi. cbn [res_bind].
  rewrite (proj2 (str_in_true id (dl_seen loop2)) Hid2). cbn [res_bind]. by eapply IH.
Qed.


(** The message that opens a task opens exactly the task the host allocated.
    When an iteration admits a user message while no task is active, the facts
    allocate, under the key of this event and message, an identity no task has
    yet, and it is the active task afterwards. *)
Theorem opening_message_opens_allocated_task input alloc index cand at_ adm loop loop' payload :
  decideEvent input alloc index cand at_ adm loop = Ok (inr loop') ->
  dl_payloads loop' = dl_payloads loop ++ [payload] ->
  ev_type payload = "user.message_appended"%string -> activeTaskId (dl_state loop) = None ->
  exists messageId key task, get payload "messageId" = VStr messageId
    /\ taskIdentityAllocationKey index messageId = Ok key
    /\ get alloc key = VStr task /\ task <> ""%string
    /\ ohas task (tasks (dl_state loop)) = false /\ activeTaskId (dl_state loop') = Some task.
Proof.
  intros Hd Hp Ht Hn.
  apply decideEvent_cases in Hd as (n & id & _ & _ & _ & [[_ ->]|(_ & p & rf & red & _ & Ha & Hact & _ & ->)]).
  { rewrite <- (app_nil_r (dl_payloads loop)) in Hp at 1. by apply app_inv_head in Hp. }
  simpl in Hp. apply app_inv_head in Hp as [= ->]. simpl.
  unfold allocateTask in Ha. rewrite Ht, Hn in Ha. simpl in Ha.
  destruct (get payload "messageId") as [| | | |mid| |]; try done.
  destruct (str_nonempty mid); [|done]. apply bind_ok in Ha as (key & Hk & Ha).
  destruct (get alloc key) as [| | | |task| |] eqn:Eg; try done.
  destruct (str_nonempty task) eqn:Et; [|done]. destruct (ohas task _) eqn:Eo; [done|].
  injection Ha as Ha. exists mid, key, task. split_and!; try done; [by intros ->|by apply Hact].
Qed.
End Claims.

(** ** Instances *)

(** The instances run the codec of the source. *)
Definition ports0 : KernelPorts := @codecPorts host0.

Definition portAccepts : CompletionPort :=
  {| GuardBlocked := unit; guardCompletion := fun _ => Ok None |}.

Definition demoMessage : obj :=
  [("type", VStr "user.message_appended"); ("messageId", VStr "m1"); ("content", VStr "hello")]%string.
Definition demoNote : obj := [("type", VStr "model.requested"); ("requestId", VStr "r1")]%string.

Definition demoKey : string :=
  Eval vm_compute in match taskIdentityAllocationKey 0 "m1" with Ok k => k | Throw _ => "" end.

Definition demoEventFact : val := VObj [("occurredAt", VStr "2026-01-02T03:04:05Z")]%string.

Definition demoDecisionFacts : val :=
  VObj ([("schema", VStr "kite.kernel-decision-facts.v1");
         ("eventFacts", VArr [demoEventFact; demoEventFact]); ("knownEventIds", VArr []);
         ("allocatedIds", VObj [(demoKey, VStr "task-1")])]%string
        ++ List.map (fun k => (k, VObj [])) FACT_RECORDS).

Definition demoKernelInput : KernelInput :=
  {| in_source := src_command; in_sessionId := "thread"; in_expectedRevision := 0;
     in_events := [demoMessage; demoNote]; in_causationId := None |}%string.

(** The first event admitted, then the second. *)
Definition demoLoop : DecideLoop := initialLoop demo (jsonRecord demoDecisionFacts).
Definition demoAt : string := "2026-01-02T03:04:05Z".
Definition demoPayload : obj := finalizeAgentEvent demoMessage demoAt.
Definition idOf (e : obj) : string := match digestAgentEvent e with Ok i => i | Throw _ => "" end.
Definition messageEventId : string := Eval vm_compute in idOf demoMessage.
Definition noteEventId : string := Eval vm_compute in idOf demoNote.
Definition demoLoop1 : DecideLoop :=
  admitEvent demoKernelInput demoAt messageEventId demoPayload
    (match reduceContextState demo demoPayload
             {| allocatedTaskId := Some "task-1"%string; verificationSchemaAdmissions := VUndef |} with
     | Ok s => s | Throw _ => demo end) demoLoop.
Definition demoLoop2 : DecideLoop :=
  admitEvent demoKernelInput demoAt noteEventId demoNote (dl_state demoLoop1) demoLoop1.

Definition decidedEvents : list obj := dl_payloads demoLoop2.
Definition decidedEnvelopes : list KernelEventEnvelope := dl_envelopes demoLoop2.
Definition decidedState : AgentState := dl_state demoLoop2.
Definition decidedEffects : list (@RuntimeEffect portAccepts) := [call_model None].

Lemma demo_decide :
  @Kernel.decide ports0 portAccepts host0 demo demoKernelInput demoDecisionFacts
  = Ok (applied decidedEvents decidedEnvelopes decidedState decidedEffects).
Proof. vm_compute. reflexivity. Qed.

Lemma decisions_are_contiguous_witness :
  length decidedEvents = 2%nat /\ List.map env_revision decidedEnvelopes = [1; 2]
  /\ revision decidedState = revision demo + Z.of_nat (length decidedEvents).
Proof.
  split; [reflexivity|]. split; [reflexivity|].
  destruct (@decisions_are_contiguous ports0 portAccepts host0 demo demoKernelInput
    demoDecisionFacts decidedEvents decidedEnvelopes decidedState decidedEffects)
    as (_ & _ & _ & _ & _ & _ & Hr & _); [apply demo_decide|by vm_compute|by vm_compute|exact Hr].
Defined.

Lemma journal_is_bounded_tail_witness :
  appliedEventIds decidedState = sliceTail 4096 (appliedEventIds demo ++ ids_of decidedEnvelopes).
Proof.
  destruct (@journal_is_bounded_tail ports0 portAccepts host0 demo demoKernelInput
    demoDecisionFacts decidedEvents decidedEnvelopes decidedState decidedEffects)
    as (_ & Hj & _); [apply demo_decide|simpl; lia|exact Hj].
Defined.


Lemma opening_message_opens_allocated_task_witness :
  exists task, task <> ""%string /\ activeTaskId (dl_state demoLoop1) = Some task.
Proof.
  destruct (@opening_message_opens_allocated_task ports0 host0 demoKernelInput
    [(demoKey, VStr "task-1")] 0 demoMessage demoAt VUndef demoLoop demoLoop1 demoPayload)
    as (mid & key & task & _ & _ & _ & Hn & _ & Ha); [vm_compute; reflexivity|reflexivity..|].
  by exists task.
Defined.
