(* ===== verification/TranscriptClaims.v ===== *)
(** * What the kernel guarantees of the transcript

    Six of the eleven domain reducers write transcript messages, each in its own
    way.  One relation says what all of them do; it is reflexive and transitive,
    so it holds of the whole reducer list, and of every decision. *)

From S2P Require Import Prelude Js Hash State Sample Authorization AuthorizationProps AuthorizationSafety Normalization RecoveryReducer Lease LeaseProps Traits Scheduler Work CompletionReducer CompletionProps Verification Intent Lifecycle Interaction Capability CapabilityClaims Context ContextClaims IntentClaims Kernel KernelClaims.
From stdpp Require Import prelude strings list pretty.
From Stdlib Require Import ZArith Lia Permutation.
Open Scope Z_scope.

(** ** Growing transcripts *)

Definition placed (i : nat) (m : obj) : Prop := get m "ordinal" = VNum (Fin (Z.of_nat i)).

(** Every message carries its position. *)
Definition numbered (ms : list obj) : Prop := forall i m, nth_error ms i = Some m -> placed i m.

(** Apart from positions, the old messages are all there. *)
Definition retains (old new : list obj) : Prop :=
  exists added, Permutation (List.map strip new) (List.map strip old ++ List.map strip added).

Record grown (old new : list obj) : Prop := {
  gw_retains : retains old new;
  gw_numbered : numbered old -> numbered new }.

#[export] Instance grown_preorder : PreOrder grown.
Proof.
  split.
  - intros l. split; [|done]. exists []. by rewrite app_nil_r.
  - intros l1 l2 l3 [(a & Ha) Hn] [(b & Hb) Hn']. split; [|auto].
    exists (a ++ b). rewrite Hb, Ha, map_app. by rewrite app_assoc.
Qed.

Lemma numbered_snoc ms m : numbered ms -> placed (length ms) m -> numbered (ms ++ [m]).
Proof.
  intros Hn Hm i x Hi. destruct (Nat.lt_ge_cases i (length ms)) as [Hlt|Hge].
  - rewrite nth_error_app1 in Hi by done. by apply Hn.
  - rewrite nth_error_app2 in Hi by done. destruct (i - length ms)%nat as [|k] eqn:E; simpl in Hi.
    + injection Hi as <-. by replace i with (length ms) by lia.
    + by destruct k.
Qed.

Lemma grown_snoc ms m : placed (length ms) m -> grown ms (ms ++ [m]).
Proof.
  intros Hm. split; [|intros; by apply numbered_snoc]. exists [m]. by rewrite map_app.
Qed.

(** Messages in any order, numbered anew. *)
Lemma grown_renumbered ms m new : Permutation new (ms ++ [m]) -> grown ms (renumberFrom 0 new).
Proof.
  intros Hp. split.
  - exists [m]. by rewrite renumber_strip, Hp, map_app.
  - intros _ i x Hi. unfold placed. by rewrite (renumber_nth _ _ _ _ Hi).
Qed.

Lemma arranged_perm p (le : obj -> obj -> bool) l :
  Permutation (writeBack p l (sort_by le (List.filter p l))) l.
Proof.
  assert (Hp : Permutation (List.filter p l) (sort_by le (List.filter p l))) by apply sort_by_perm.
  rewrite writeBack_perm, <- Hp; [symmetry; apply filter_split|].
  symmetry. by apply Permutation_length.
Qed.

Lemma renumber_is_renumberFrom l : renumber l = renumberFrom 0 l.
Proof.
  unfold renumber.
  enough (Hn : forall n, imap (fun i m => oset "ordinal" (VNum (Fin (Z.of_nat (n + i)))) m) l
                         = renumberFrom (Z.of_nat n) l) by exact (Hn 0%nat).
  induction l as [|m l IH]; intros n; [done|]. simpl. rewrite Nat.add_0_r. f_equal.
  replace (Z.of_nat n + 1) with (Z.of_nat (S n)) by lia. rewrite <- IH.
  apply imap_ext. intros. simpl. do 4 f_equal. lia.
Qed.

(** ** Every reducer *)

Definition grows_transcript (r : AgentState -> obj -> AgentReducerFacts -> res AgentState) : Prop :=
  forall s e f s', r s e f = Ok s' -> grown (messages (transcript s)) (messages (transcript s')).

Lemma same_transcript s s' : transcript s' = transcript s ->
  grown (messages (transcript s)) (messages (transcript s')).
Proof. by intros ->. Qed.

Lemma same_messages s s' : messages (transcript s') = messages (transcript s) ->
  grown (messages (transcript s)) (messages (transcript s')).
Proof. by intros ->. Qed.

Lemma lifecycle_grows `{JsHost} : grows_transcript (fun s e _ => Ok (reduceLifecycleState s e)).
Proof. intros s e f s' [= <-]. apply same_transcript. exact (f_equal snd (lifecycle_frame s e)). Qed.

Lemma capability_grows : grows_transcript (fun s e _ => reduceCapabilityState s e).
Proof.
  intros s e f s' Hr. apply same_transcript. exact (f_equal snd (capability_frame s e s' Hr)).
Qed.

Lemma lease_grows `{JsHost} : grows_transcript (fun s e _ => reduceLeaseState s e).
Proof.
  intros s e f s' Hr. apply same_transcript. revert Hr. unfold reduceLeaseState. case_match.
  - intros [->|[(_ & b & -> & _)|(b & b' & _ & -> & _)]]%reduceBudget_effect; done.
  - case_match; intros [= <-]; [|done].
    unfold reduceReadiness, readiness_intent_recorded, readiness_waiter_registered,
      readiness_attempt_started, readiness_succeeded, readiness_failed, putReadiness.
    by repeat case_match.
Qed.

Lemma work_grows : grows_transcript (fun s e _ => Ok (reduceWorkState s e)).
Proof.
  intros s e f s' [= <-]. apply same_transcript.
  unfold reduceWorkState, work_tool_started, skill_catalog_refreshed,
    skill_activation_started, skill_frame_closed, putFrame, updateTasks.
  by repeat case_match.
Qed.

Lemma completion_grows `{JsHost} : grows_transcript (fun s e _ => reduceCompletionState s e).
Proof.
  intros s e f s' Hr. apply same_messages. revert Hr.
  unfold reduceCompletionState, turn_completed_event, turn_aborted_event,
    run_completed_event, run_error_event, completion_blocked_event.
  repeat case_match; intros; res_inv; try done; repeat case_match; simplify_eq; done.
Qed.

Lemma authorization_grows `{JsHost} : grows_transcript (fun s e _ => Ok (reduceAuthorizationState s e)).
Proof. intros s e f s' [= <-]. apply same_transcript, transcript_kept. Qed.

Lemma supplemental_grown s call e o :
  grown (messages (transcript s)) (messages (appendSupplementalToolTranscript s call e o)).
Proof.
  unfold appendSupplementalToolTranscript. case_match; [done|]. simpl.
  rewrite renumber_is_renumberFrom. by eapply grown_renumbered.
Qed.

Lemma recovery_grows `{JsHost} : grows_transcript (fun s e _ => reduceRecoveryState s e).
Proof.
  intros s e f s'. unfold reduceRecoveryState, reduceSubagentSuspended, reduceSubagentDeferred,
    reduceSubagentMerged, reduceToolOutcome.
  repeat case_match; intros; res_inv; try done; repeat case_match; simplify_eq; try done.
  apply supplemental_grown.
Qed.

Lemma toolTranscript_grown s m :
  grown (messages (transcript s)) (messages (appendToolTranscript s m)).
Proof.
  unfold appendToolTranscript. simpl. apply (grown_renumbered _ m).
  repeat case_match; try done. apply arranged_perm.
Qed.

Lemma intent_grows `{JsHost} : grows_transcript (fun s e _ => reduceIntentState s e).
Proof.
  intros s e f s'. unfold reduceIntentState, tool_queued, tool_call_started, tool_ended,
    tool_retry_recorded, network_admission_decided, putCall, updateToolCall, withToolMembership.
  repeat case_match; intros; res_inv; try done; repeat case_match; simplify_eq; try done;
    apply toolTranscript_grown.
Qed.

Lemma verification_grows : grows_transcript reduceVerificationState.
Proof.
  intros s e f s'. unfold reduceVerificationState, verification_requested, verification_started,
    verification_check_completed, verification_completed, verification_repair_requested,
    verification_replan_requested, verification_waived, compensation_requested,
    compensation_completed, appendInstruction, withRecord.
  repeat case_match; intros; res_inv; try done; repeat case_match; simplify_eq; try done;
    by apply grown_snoc.
Qed.

Lemma context_grows : grows_transcript reduceContextState.
Proof.
  intros s e f s' [->|[(c & ->)|[(k & i & ->)|[Hu|Hm]]]]%context_effect; try done.
  - unfold user_message_appended in Hu. opt_inv. subst s'.
    assert (Hk : forall g, transcript (setUserGoal (openAllocatedTask s f g) g) = transcript s)
      by (intros g; unfold setUserGoal, openAllocatedTask; by repeat case_match).
    simpl. rewrite Hk. by apply grown_snoc.
  - unfold model_responded in Hm. opt_inv. subst s'. by apply grown_snoc.
Qed.

Lemma failedToolTranscript_grown s call :
  grown (messages (transcript s)) (messages (transcript (appendFailedToolTranscript s call))).
Proof.
  unfold appendFailedToolTranscript. simpl. eapply grown_renumbered.
  case_match; [apply arranged_perm|done].
Qed.

Lemma interaction_grows : grows_transcript (fun s e _ => Ok (reduceInteractionState s e)).
Proof.
  intros s e f s' [= <-]. unfold reduceInteractionState, user_input_requested, user_input_closed,
    interaction_review_requested, interaction_plan_approved, interaction_review_declined,
    provider_action_required, provider_action_started, provider_action_ended,
    provider_admission_required, provider_admission_retry_failed, provider_admission_satisfied,
    provider_admission_cancelled, provider_admission_waived, interaction_turn_aborted, updateToolCall.
  repeat (case_match; try done); try (by apply grown_snoc).
  match goal with |- context [appendFailedToolTranscript ?next ?call] =>
    exact (failedToolTranscript_grown next call) end.
Qed.

(** ** The kernel *)

Section Kernel.
Context {ports : KernelPorts} {port : CompletionPort} {host : JsHost}.

Lemma applyReducers_grows rs :
  Forall grows_transcript rs -> grows_transcript (fun s e f => applyReducers rs s e f).
Proof.
  induction 1 as [|r rs Hr Hrs IH]; intros s e f s'; simpl; [by intros [= <-]|].
  intros (next & Hn & Ha)%bind_ok. etransitivity; [by eapply Hr|by eapply IH].
Qed.

Lemma reduceAgentState_grows : grows_transcript reduceAgentState.
Proof using All.
  intros s e f s'. unfold reduceAgentState.
  intros (_ & _ & (_ & _ & Ha)%bind_ok)%bind_ok.
  eapply applyReducers_grows; [|exact Ha].
  repeat apply Forall_cons_2; try apply Forall_nil_2.
  - apply lifecycle_grows.
  - apply authorization_grows.
  - apply recovery_grows.
  - apply intent_grows.
  - apply lease_grows.
  - apply completion_grows.
  - apply work_grows.
  - apply interaction_grows.
  - apply capability_grows.
  - apply context_grows.
  - apply verification_grows.
Qed.

Lemma decideLoop_transcript input alloc i cands fs loop loop' :
  decideLoop input alloc i cands fs loop = Ok (inr loop') ->
  grown (messages (transcript (dl_state loop))) (messages (transcript (dl_state loop'))).
Proof using All.
  revert i fs loop. induction cands as [|c cands IH]; intros i fs loop; simpl.
  { by intros [= <-]. }
  intros ([code|loop1] & Hs & Hd)%bind_ok; [done|]. etransitivity; [|by eapply IH].
  apply decideEvent_cases in Hs
    as (n & id & _ & _ & _ & [[_ ->]|(_ & p & rf & red & _ & _ & _ & Hr & ->)]); [done|].
  exact (reduceAgentState_grows _ _ _ _ Hr).
Qed.

(** C14: no decision loses or rewrites a message.  Whatever events are admitted, and
    whichever of the eleven domains write to the transcript, the messages after
    the decision are the messages before it and some added ones, up to their order
    and positions; and if every message carried its position before, every message
    carries its position after. *)
Theorem decisions_keep_the_transcript state input facts events envelopes next effects :
  Kernel.decide state input facts = Ok (applied events envelopes next effects) ->
  (exists added, Permutation (List.map strip (messages (transcript next)))
      (List.map strip (messages (transcript state)) ++ List.map strip added))
  /\ (numbered (messages (transcript state)) -> numbered (messages (transcript next))).
Proof using All.
  intros Hd. apply decide_inv in Hd as [(? & ?)|[[? _]|(_ & _ & _ & _ & loop & Hl & Hc)]]; [done..|].
  destruct Hc as [[_ ?]|(_ & eff & _ & [= -> -> -> ->])]; [done|].
  by destruct (decideLoop_transcript _ _ _ _ _ _ _ Hl) as [Hr Hn].
Qed.
End Kernel.

Lemma decisions_keep_the_transcript_witness :
  numbered (messages (transcript decidedState)) /\ length (messages (transcript decidedState)) = 1%nat.
Proof.
  destruct (@decisions_keep_the_transcript ports0 portAccepts host0 demo demoKernelInput
    demoDecisionFacts decidedEvents decidedEnvelopes decidedState decidedEffects demo_decide) as [_ Hn].
  split; [|reflexivity]. apply Hn. intros [|i] m; simpl; done.
Defined.
