(* ===== verification/CodecClaims.v ===== *)
(** * The event codec: what it promises the rest of the kernel

    Events that are written can be read again; the kernel admits only events that pass
    the codec, so its history survives storage; and the event types that are listed as
    not projected change nothing in any reducer. *)

From S2P Require Import Prelude Js Sample State Json JsonParse JsonRoundtrip Normalization Events Evidence Codec Scheduler Authorization Lifecycle RecoveryReducer Intent Lease CompletionReducer Work Interaction Capability Context Verification Kernel KernelClaims.
From stdpp Require Import prelude strings list pretty.
From Stdlib Require Import ZArith Lia.
Open Scope Z_scope.

(** ** Reading what was written *)

Section Codec.
Context `{JsHost}.

Lemma written_is_readable value : Codec.assertCurrentRuntimeEventForWrite value = Ok tt ->
  Codec.assertCurrentRuntimeEvent value = Ok tt.
Proof. unfold Codec.assertCurrentRuntimeEventForWrite. by intros ([] & Hr & _)%bind_ok. Qed.

Lemma encoded_decodes value : storable value = true -> Codec.assertCurrentRuntimeEvent value = Ok tt ->
  exists s, encodeCurrentRuntimeEventJson value = Ok s /\ decodeCurrentRuntimeEventJson s = Ok value.
Proof.
  intros Hs Ha. destruct (json_parse_stringify value Hs) as (s & He & Hp). exists s.
  unfold encodeCurrentRuntimeEventJson, decodeCurrentRuntimeEventJson. by rewrite Ha, He, Hp; cbn; rewrite Ha.
Qed.
End Codec.

(** ** The events of a decision *)

Section Decision.
Context {port : CompletionPort} {host : JsHost}.

Definition codec_passed (e : KernelEventEnvelope) : Prop :=
  Codec.assertCurrentRuntimeEvent (VObj (env_payload e)) = Ok tt.

Lemma loop_passes input alloc i cands fs loop loop' : Forall codec_passed (dl_envelopes loop) ->
  decideLoop input alloc i cands fs loop = Ok (inr loop') -> Forall codec_passed (dl_envelopes loop').
Proof.
  revert i fs loop. induction cands as [|c cands IH]; intros i fs loop Hl; cbn [decideLoop].
  { by intros [= <-]. }
  intros ([code|loop1] & Hs & Hd)%bind_ok; [done|]. eapply IH; [|exact Hd].
  apply decideEvent_cases in Hs as (n & id & _ & _ & _ & [[_ ->]|(_ & p & rf & red & _ & _ & _ & Hr & ->)]); [done|].
  apply Forall_app. split; [done|]. apply Forall_singleton. unfold reduceAgentState in Hr.
  apply bind_ok in Hr as ([] & Ha & _). exact Ha.
Qed.

(** C10: What the kernel admits can be stored.  Every event of an applied decision passes
    the codec; when it is a value that JSON has a text for (no [undefined] or [NaN], keys
    distinct, numbers doubles), encoding it succeeds and decoding the text gives back the
    very same event, so a stored history is the history that was decided. *)
Theorem admitted_events_survive_storage state input facts events envelopes state' effects :
  Kernel.decide state input facts = Ok (applied events envelopes state' effects) ->
  Forall (fun e => codec_passed e
    /\ (storable (VObj (env_payload e)) = true ->
        exists s, encodeCurrentRuntimeEventJson (VObj (env_payload e)) = Ok s
          /\ decodeCurrentRuntimeEventJson s = Ok (VObj (env_payload e)))) envelopes.
Proof.
  unfold Kernel.decide. repeat (case_match; try discriminate). intros (result & Hl & Hd)%bind_ok.
  destruct result as [code|loop]; [done|]. apply loop_passes in Hl; [|constructor].
  destruct (dl_payloads loop); [done|]. apply bind_ok in Hd as (eff & _ & [= _ <- _ _]).
  eapply Forall_impl; [exact Hl|]. intros e He. split; [done|]. intros Hs. by apply encoded_decodes.
Qed.
End Decision.

(** ** Event types that no reducer projects *)

Definition unprojected : list string := STATE_DIAGNOSTIC_EVENT_TYPES ++ STATE_DEFAULT_EVENT_TYPES.

Section Unprojected.
Context `{JsHost}.
Variables (state : AgentState) (event : obj) (facts : AgentReducerFacts).
Hypothesis Htype : In (ev_type event) unprojected.

(** A function of the event that looks at its type first. *)
Ltac by_type :=
  generalize Htype; cbn [In unprojected STATE_DIAGNOSTIC_EVENT_TYPES STATE_DEFAULT_EVENT_TYPES app];
  repeat (intros [E|Ht]; [rewrite <- E; reflexivity|revert Ht]); intros [].

Lemma unprojected_lifecycle : reduceLifecycleState state event = state.
Proof using Htype. unfold reduceLifecycleState; by_type. Qed.

Lemma unprojected_authorization : reduceAuthorizationState state event = state.
Proof using Htype. unfold reduceAuthorizationState; by_type. Qed.

Lemma unprojected_recovery : reduceRecoveryState state event = Ok state.
Proof using Htype. unfold reduceRecoveryState; by_type. Qed.

Lemma unprojected_intent : reduceIntentState state event = Ok state.
Proof using Htype. unfold reduceIntentState; by_type. Qed.

Lemma unprojected_lease : reduceLeaseState state event = Ok state.
Proof using Htype. unfold reduceLeaseState; by_type. Qed.

Lemma unprojected_completion : reduceCompletionState state event = Ok state.
Proof using Htype. unfold reduceCompletionState; by_type. Qed.

Lemma unprojected_work : reduceWorkState state event = state.
Proof using Htype. unfold reduceWorkState; by_type. Qed.

Lemma unprojected_interaction : reduceInteractionState state event = state.
Proof using Htype. unfold reduceInteractionState; by_type. Qed.

Lemma unprojected_capability : reduceCapabilityState state event = Ok state.
Proof using Htype. unfold reduceCapabilityState; by_type. Qed.

Lemma unprojected_context : reduceContextState state event facts = Ok state.
Proof using Htype. unfold reduceContextState; by_type. Qed.

Lemma unprojected_verification : reduceVerificationState state event facts = Ok state.
Proof using Htype.
  unfold reduceVerificationState. destruct (nonEmptyStringField event _) as [id|]; [|done].
  destruct (oget id (verification state)); by_type.
Qed.

Lemma unprojected_normal : normalizeTerminalAgentEvent event = event
  /\ assertCanonicalToolOutcomeEvent event = Ok tt.
Proof using Htype. split; [unfold normalizeTerminalAgentEvent; by_type|unfold assertCanonicalToolOutcomeEvent; by_type]. Qed.

(** C36: The event types that [events.ts] lists as diagnostics or as left to the default
    branch change nothing: an event of such a type that passes the codec is reduced
    without error, by all eleven domains, to the very state it met. *)
Theorem unprojected_events_keep_the_state :
  Codec.assertCurrentRuntimeEvent (VObj event) = Ok tt -> reduceAgentState state event facts = Ok state.
Proof using Htype.
  intros Ha. unfold reduceAgentState. cbn [assertCurrentRuntimeEvent codecPorts]. rewrite Ha. cbn [res_bind].
  destruct unprojected_normal as [-> ->]. cbn [res_bind FIXED_AGENT_STATE_REDUCERS applyReducers].
  rewrite unprojected_lifecycle, unprojected_authorization, unprojected_recovery. cbn [res_bind].
  rewrite unprojected_intent. cbn [res_bind]. rewrite unprojected_lease. cbn [res_bind].
  rewrite unprojected_completion. cbn [res_bind]. rewrite unprojected_work, unprojected_interaction.
  rewrite unprojected_capability. cbn [res_bind]. rewrite unprojected_context. cbn [res_bind].
  by rewrite unprojected_verification.
Qed.
End Unprojected.

(** ** Instances *)

Lemma admitted_events_survive_storage_witness :
  Forall (fun e => exists s, @encodeCurrentRuntimeEventJson host0 (VObj (env_payload e)) = Ok s
    /\ @decodeCurrentRuntimeEventJson host0 s = Ok (VObj (env_payload e))) decidedEnvelopes
  /\ length decidedEnvelopes = 2%nat.
Proof.
  split; [|reflexivity].
  pose proof (@admitted_events_survive_storage portAccepts host0 demo demoKernelInput demoDecisionFacts
    decidedEvents decidedEnvelopes decidedState decidedEffects demo_decide) as Hall.
  inversion Hall as [|e1 l1 [_ H1] Hl]; inversion Hl as [|e2 l2 [_ H2] _]; subst.
  constructor; [apply H1; vm_compute; reflexivity|]. constructor; [apply H2; vm_compute; reflexivity|constructor].
Defined.

Lemma unprojected_events_keep_the_state_witness :
  @reduceAgentState (@codecPorts host0) host0 demo demoNote noReducerFacts = Ok demo.
Proof.
  apply (@unprojected_events_keep_the_state host0).
  - vm_compute. tauto.
  - vm_compute. reflexivity.
Defined.
