(* ===== verification/InvariantsClaims.v ===== *)
(** * What the state checker establishes

    A state the checker accepts has coherent work: one active task, tool lists without
    overlap whose calls are open, an interaction that waits for the call it names.  On the
    ledgers the lease reducer reaches, the checker's own budget test can fail for one
    quantity only, the elapsed time, which it adds where the reducer takes the maximum. *)

From S2P Require Import Prelude Js Hash State ApprovalQueue Authorization Recovery RecoveryInvariant Normalization Completion Lease LeaseProps LeaseClaims SchedulerClaims Governance Evidence Invariants Sample.
From stdpp Require Import prelude strings list pretty.
From Stdlib Require Import ZArith Lia.
Open Scope Z_scope.

(** ** Reading a list of checks *)

Lemma assertAll_ok checks : assertAll checks = Ok tt <-> Forall (fun c => fst c = true) checks.
Proof.
  unfold assertAll. induction checks as [|[c m] l IH]; simpl; [split; [constructor|done]|].
  destruct c; simpl; [rewrite IH|]; split; try (by constructor); inversion 1; done.
Qed.

Lemma assertAll_In checks c m : assertAll checks = Ok tt -> In (c, m) checks -> c = true.
Proof. intros Ha%assertAll_ok Hin. rewrite List.Forall_forall in Ha. exact (Ha _ Hin). Qed.

Lemma forEntries_ok {A} (m : ordmap A) f k v :
  forEntries m f = Ok tt -> In (k, v) m -> f k v = Ok tt.
Proof. intros Hm Hin. exact (res_iter_ok _ _ (k, v) Hm Hin). Qed.

Lemma assertUnique_ok l label : assertUnique l label = Ok tt -> NoDup l.
Proof.
  unfold assertUnique. intros Ha. apply dedupe_NoDup. apply Nat.eqb_eq.
  eapply assertAll_In; [exact Ha|]. by left.
Qed.

(** Opens a sequence of assertions into one hypothesis each. *)
Ltac open_asserts H :=
  repeat lazymatch type of H with
  | res_bind _ _ = Ok _ => let E := fresh "A" in apply bind_ok in H as ([] & E & H)
  end.

(** The conditions of a list of checks. *)
Ltac open_checks H :=
  apply assertAll_ok in H; repeat (apply Forall_cons in H as [? H]); simpl in *; bool_hyps.

(** ** Coherence of the parts *)

Lemma tasks_coherent s :
  assertTasks s = Ok tt ->
  (forall k t, In (k, t) (tasks s) -> task_status t = task_active -> activeTaskId s = Some k)
  /\ (forall k, activeTaskId s = Some k -> exists t, In (k, t) (tasks s) /\ task_status t = task_active).
Proof.
  unfold assertTasks. intros Ha. open_asserts Ha. open_checks Ha.
  assert (Hid : forall k t, In (k, t) (tasks s) -> task_taskId t = k).
  { intros k t Hin. pose proof (forEntries_ok _ _ k t A Hin) as Ht. unfold assertTask in Ht.
    open_checks Ht. done. }
  assert (Hact : forall k, In k (activeTaskIds s) <->
                   exists t, In (k, t) (tasks s) /\ task_status t = task_active).
  { intros k. unfold activeTaskIds. rewrite in_map_iff. setoid_rewrite filter_In.
    setoid_rewrite In_ovalues. split.
    - intros (t & <- & (k' & Hin) & Hst). apply bool_decide_eq_true in Hst.
      rewrite (Hid _ _ Hin). by exists t.
    - intros (t & Hin & Hst). exists t. split_and!; [by apply Hid|by exists k|].
      by apply bool_decide_eq_true. }
  split.
  - intros k t Hin Hst. assert (Hk : In k (activeTaskIds s)) by (apply Hact; by exists t).
    destruct (activeTaskIds s) as [|x [|y l]]; simpl in *; [done| |lia].
    destruct Hk as [->|[]]. destruct (activeTaskId s); bool_hyps; [by subst|done].
  - intros k Hk. rewrite Hk in *. apply Hact.
    destruct (activeTaskIds s) as [|x l]; simpl in *; [done|]. bool_hyps. subst. by left.
Qed.

Lemma tools_coherent s :
  assertUnique (queue (tools s)) "tool queue" = Ok tt ->
  assertUnique (active (tools s)) "active tools" = Ok tt -> assertTools s = Ok tt ->
  NoDup (queue (tools s) ++ active (tools s))
  /\ forall id, In id (queue (tools s) ++ active (tools s)) ->
       exists c, oget id (calls (tools s)) = Some c /\ terminalToolStatus (tc_status c) = false.
Proof.
  intros Hq%assertUnique_ok Hr%assertUnique_ok Ht. unfold assertTools in Ht. open_asserts Ht.
  assert (Hcall : forall id, In id (queue (tools s) ++ active (tools s)) ->
    exists c, oget id (calls (tools s)) = Some c /\ terminalToolStatus (tc_status c) = false
      /\ str_in id (active (tools s)) && str_in id (queue (tools s)) = false).
  { intros id Hin. pose proof (res_iter_ok _ _ id A Hin) as Hc. unfold assertScheduledCall in Hc.
    destruct (oget id _) as [c|]; [|done]. exists c. apply assertAll_ok in Hc.
    do 2 (apply Forall_cons in Hc as [? Hc]). simpl in *.
    split_and!; [done|by apply negb_true_iff|by apply negb_true_iff]. }
  split; [|intros id Hin; destruct (Hcall id Hin) as (c & ? & ? & _); by exists c].
  apply NoDup_app. split_and!; [done| |done]. intros id H1 H2.
  apply list_elem_of_In in H1, H2. destruct (Hcall id) as (_ & _ & _ & Hboth).
  { apply in_app_iff. by left. }
  apply str_in_true in H1, H2. rewrite H1, H2 in Hboth. done.
Qed.

Lemma interaction_coherent s id st :
  assertInteraction s = Ok tt -> interactionCall (interactions s) = Some (id, st) ->
  id <> EmptyString -> exists c, oget id (calls (tools s)) = Some c /\ tc_status c = st.
Proof.
  unfold assertInteraction. intros Ha Hi Hne. rewrite Hi in Ha. destruct id as [|x y]; [done|].
  simpl in Ha. open_checks Ha. destruct (oget _ _) as [c|]; [|done]. exists c.
  split; [done|]. by apply (bool_decide_eq_true (tc_status c = st)).
Qed.

(** The sequence numbers collected along the queue. *)
Lemma queue_sequences (m : ordmap AgentPendingApproval) seen out :
  res_fold (fun seen '(id, p) => assertPendingApproval seen id p) m seen = Ok out -> NoDup seen ->
  out = seen ++ List.map State.sequence (ovalues m) /\ NoDup out.
Proof.
  revert seen. induction m as [|[id p] m IH]; intros seen; simpl.
  { intros [= <-] ?. by rewrite app_nil_r. }
  intros Hf Hn. apply bind_ok in Hf as (next & Hp & Hf). unfold assertPendingApproval in Hp.
  apply bind_ok in Hp as ([] & Hc & [= <-]).
  assert (Hfresh : existsb (Z.eqb (State.sequence p)) seen = false).
  { apply negb_true_iff. eapply assertAll_In; [exact Hc|]. simpl. tauto. }
  destruct (IH _ Hf) as [-> Hd].
  - apply NoDup_app. split_and!; [done| |apply NoDup_singleton].
    intros x Hx Hx'. apply list_elem_of_singleton in Hx' as ->. apply list_elem_of_In in Hx.
    assert (existsb (Z.eqb (State.sequence p)) seen = true); [|congruence].
    apply existsb_exists. exists (State.sequence p). split; [done|apply Z.eqb_refl].
  - split; [|done]. by rewrite <- (assoc_L app).
Qed.

Lemma approvals_coherent s :
  assertApprovalQueue s = Ok tt -> NoDup (List.map State.sequence (ovalues (pendingApprovals s))).
Proof.
  unfold assertApprovalQueue. intros Ha. apply bind_ok in Ha as ([] & _ & Ha).
  apply bind_ok in Ha as (out & Hf & _).
  destruct (queue_sequences _ _ _ Hf) as [-> Hd]; [apply NoDup_nil_2|done].
Qed.

(** An invocation that can still run is not ahead of a call that has ended. *)
Lemma capability_coherent `{JsHost} toolCalls k invocation id c :
  assertCapabilityInvocation toolCalls k invocation = Ok tt ->
  is_some (nonEmptyStringField invocation "receiptRequirement") = true ->
  amongWords (stringField invocation "status") ["recorded"; "running"]%string = true ->
  nonEmptyStringField invocation "toolCallId" = Some id -> oget id toolCalls = Some c ->
  terminalToolStatus (tc_status c) = false.
Proof.
  unfold assertCapabilityInvocation. intros Ha Hr Hst Hid Hc.
  apply bind_ok in Ha as ([] & _ & Ha). unfold nonEmptyStringField in Hr.
  destruct (opt_nonempty (stringField invocation "receiptRequirement")) as [r|]; [|done].
  do 4 (apply bind_ok in Ha as ([] & _ & Ha)). apply assertAll_ok in Ha.
  apply Forall_cons in Ha as [Ha _]. rewrite Hid, Hc in Ha. simpl in Ha.
  unfold amongWords in Hst. destruct (stringField invocation "status") as [st|]; [|done].
  simpl in Hst, Ha. rewrite orb_false_r in Hst. rewrite Hst in Ha. by apply negb_true_iff.
Qed.

(** ** The sums of the ledger *)

(** What a usage object adds to a sum. *)
Definition shareOf (group f : string) (u : obj) : num := numOr 0 (numberValue (recordField u group) f).

Definition exactShare (group f : string) (u : obj) : Z :=
  match shareOf group f u with Fin z => z | NaN => 0 end.

Definition counts (group f : string) (u : obj) : Prop :=
  exists z, shareOf group f u = Fin z /\ 0 <= z.

Lemma counts_exact group f u : counts group f u -> shareOf group f u = Fin (exactShare group f u) /\ 0 <= exactShare group f u.
Proof. intros (z & Hz & Hp). unfold exactShare. by rewrite Hz. Qed.

(** On counted usages the checker folds the double addition over the shares. *)
Lemma usageSum_fold us group f :
  Forall (counts group f) us ->
  usageSum us group f = Fin (fold_left fadd (List.map (exactShare group f) us) 0).
Proof.
  unfold usageSum. generalize 0 at 2 3 as z. induction us as [|u us IH]; intros z Hu; [done|].
  apply Forall_cons in Hu as [H1 Hu]. simpl. apply counts_exact in H1 as [H1 _].
  unfold shareOf in H1. rewrite H1. simpl. by apply IH.
Qed.

Lemma shares_nonneg us group f :
  Forall (counts group f) us -> Forall (fun z => 0 <= z) (List.map (exactShare group f) us).
Proof.
  intros Hu. induction Hu as [|u us H1 _ IH]; simpl; constructor; [|done].
  by apply counts_exact.
Qed.

Lemma usage_counter u label source f :
  assertUsage (Some u) label source = Ok tt -> In f COUNTER_FIELDS -> counts "counters" f u.
Proof.
  unfold assertUsage, counts, shareOf. intros Ha Hf. apply assertAll_ok in Ha.
  assert (Hin : In f USAGE_FIELDS) by (unfold USAGE_FIELDS; apply in_app_iff; by left).
  do 3 (apply Forall_cons in Ha as [_ Ha]). apply Forall_app in Ha as [Ha _].
  rewrite List.Forall_forall in Ha. specialize (Ha _ (in_map _ _ _ Hin)). simpl in Ha.
  destruct (numberValue (recordField u "counters") f) as [n|]; simpl; [|by exists 0].
  destruct n as [z|]; simpl in Ha; [|done]. bool_hyps. exists z. split; [done|lia].
Qed.

(** Every usage the checker adds was checked itself. *)
Lemma checked_usages_valid s b u :
  assertResourceBudgetState s = Ok tt -> resourceBudget s = budget_active b ->
  In u (checkedUsages b) -> exists label source, assertUsage (Some u) label source = Ok tt.
Proof.
  unfold assertResourceBudgetState. intros Ha Hb. rewrite Hb in Ha.
  apply bind_ok in Ha as ([] & _ & Ha). apply bind_ok in Ha as ([] & Hu & Ha).
  apply bind_ok in Ha as ([] & _ & Ha). apply bind_ok in Ha as ([] & Hr & _).
  intros [<-|Hin]; [by do 2 eexists|].
  apply list_elem_of_In, list_elem_of_omap in Hin as (r & Hin & Hrec).
  apply list_elem_of_In, filter_In in Hin as [Hin _]. apply In_ovalues in Hin as [k Hin].
  pose proof (forEntries_ok _ _ k r Hr Hin) as Hk. unfold assertBudgetReservation in Hk.
  apply bind_ok in Hk as ([] & _ & Hk). apply bind_ok in Hk as ([] & Hk & _).
  rewrite Hrec in Hk. by do 2 eexists.
Qed.

Lemma budget_limit s b f :
  assertResourceBudgetState s = Ok tt -> resourceBudget s = budget_active b -> In f BUDGET_FIELDS ->
  exists z, numberValue (Some (rb_budget b)) f = Some (Fin z) /\ 0 < z <= MAX_SAFE_INTEGER.
Proof.
  unfold assertResourceBudgetState. intros Ha Hb Hf. rewrite Hb in Ha.
  apply bind_ok in Ha as ([] & Hl & _). apply assertAll_ok in Hl.
  do 2 (apply Forall_cons in Hl as [_ Hl]). apply Forall_cons in Hl as [Hl _]. unfold fst in Hl.
  pose proof (proj1 (forallb_forall _ _) Hl f Hf) as Hs. unfold safeNumber in Hs.
  destruct (numberValue _ f) as [[z|]|]; try done. bool_hyps.
  apply isSafeInteger_true in H. exists z. split; [done|lia].
Qed.

Lemma counter_limits f limit :
  In (f, limit) counterLimits -> In f COUNTER_FIELDS /\ In limit BUDGET_FIELDS.
Proof. intros Hin. simpl in Hin. repeat destruct Hin as [[= <- <-]|Hin]; simpl; tauto. Qed.

Lemma budget_coherent s b f limit :
  assertResourceBudgetState s = Ok tt -> resourceBudget s = budget_active b ->
  In (f, limit) counterLimits ->
  exists z, numAt (rb_budget b) limit = Fin z /\ 0 < z
    /\ zsum (List.map (exactShare "counters" f) (checkedUsages b)) <= z.
Proof.
  intros Ha Hb Hin. destruct (counter_limits _ _ Hin) as [Hf Hl].
  destruct (budget_limit s b limit Ha Hb Hl) as (z & Hz & Hr).
  assert (Hc : Forall (counts "counters" f) (checkedUsages b)).
  { apply List.Forall_forall. intros u Hu.
    destruct (checked_usages_valid s b u Ha Hb Hu) as (label & source & Hv).
    by apply (usage_counter u label source). }
  exists z. split_and!; [|lia|].
  { unfold numAt. simpl in Hz. destruct (get _ _); by simplify_eq. }
  unfold assertResourceBudgetState in Ha. rewrite Hb in Ha.
  do 5 (apply bind_ok in Ha as (? & _ & Ha)). apply assertAll_ok, Forall_cons in Ha as [Ha _].
  simpl fst in Ha. unfold committedUsageWithinBudget in Ha. bool_hyps.
  pose proof (proj1 (forallb_forall _ _) H _ Hin) as Hw. cbn beta iota in Hw.
  rewrite usageSum_fold in Hw by done. rewrite Hz in Hw. cbn [numOr default nleb] in Hw.
  apply Z.leb_le in Hw.
  apply fold_fadd_exact in Hw as [_ Hw]; [lia|lia|by apply shares_nonneg|lia].
Qed.

(** ** The checker against the reducer *)

(** Where each additive quantity of the reducer is read by the checker. *)
Definition quantityFields : list (string * string * string * (ResourceUsage -> num)) :=
  [("counters", "turns", "maxTurns", fun u => turns (counters u));
   ("counters", "modelRequests", "maxModelRequests", fun u => modelRequests (counters u));
   ("counters", "toolInvocations", "maxToolInvocations", fun u => toolInvocations (counters u));
   ("counters", "inputTokens", "maxRunInputTokens", fun u => inputTokens (counters u));
   ("counters", "outputTokens", "maxRunOutputTokens", fun u => outputTokens (counters u));
   ("counters", "artifactBytes", "maxArtifactBytes", fun u => artifactBytes (counters u));
   ("gauges", "activeSubagents", "maxConcurrentSubagents", fun u => activeSubagents (gauges u));
   ("gauges", "activeWriters", "maxConcurrentWriters", fun u => activeWriters (gauges u));
   ("gauges", "activeToolInvocations", "maxConcurrentToolInvocations",
    fun u => activeToolInvocations (gauges u));
   ("gauges", "activeShellInvocations", "maxConcurrentShellInvocations",
    fun u => activeShellInvocations (gauges u))]%string.

Ltac each_quantity Hin := simpl in Hin; repeat destruct Hin as [[= <- <- <- <-]|Hin]; [..|done].

Lemma quantity_field_limit group f limit q :
  In (group, f, limit, q) quantityFields -> In (q, limit) quantities.
Proof. intros Hin. each_quantity Hin; simpl; tauto. Qed.

(** The typed record and the object agree on it. *)
Lemma share_of_record group f limit q u :
  In (group, f, limit, q) quantityFields -> shareOf group f (usageRecord u) = q u.
Proof. intros Hin. each_quantity Hin; reflexivity. Qed.

Lemma quantity_member group f limit q v :
  In (group, f, limit, q) quantityFields ->
  q (usageOf v) = numAt (default [] (asObject (get (default [] (asObject v)) group))) f.
Proof. intros Hin. each_quantity Hin; reflexivity. Qed.

Lemma num_of_member v f z :
  numAt (default [] (asObject v)) f = Fin z -> numOr 0 (numberValue (isRecord v) f) = Fin z.
Proof.
  unfold numAt. destruct v as [| | | | | |o]; try discriminate. cbn -[get].
  destruct (get o f); try discriminate. cbn. congruence.
Qed.

Lemma share_of_bound group f limit q v :
  In (group, f, limit, q) quantityFields -> counted q (usageOf v) ->
  exists u, isRecord v = Some u /\ shareOf group f u = q (usageOf v).
Proof.
  intros Hin (z & Hz & _). rewrite Hz. rewrite (quantity_member _ _ _ _ _ Hin) in Hz.
  destruct v as [| | | | | |o]; try discriminate Hz. exists o. split; [done|].
  by apply num_of_member.
Qed.

Lemma open_state r :
  amongWords (stringField r "state") ["reserved"; "dispatch_started"; "unknown"]%string = holdsBound r.
Proof.
  unfold amongWords, holdsBound, state_is, stringField, str_in. cbn -[get]. by destruct (get r "state").
Qed.

(** The bounds of well-formed reservations, as the checker and the reducer read them. *)
Lemma bound_shares group f limit q rs :
  In (group, f, limit, q) quantityFields -> Forall (fun r => usage_ok (bound r)) rs ->
  let us := omap (fun r => recordField r "executableUpperBound") rs in
  Forall (counts group f) us
  /\ List.map (exactShare group f) us = List.map (fun r => amount q (bound r)) rs.
Proof.
  intros Hin Hrs. induction Hrs as [|r rs Hr _ [IH1 IH2]]; [done|].
  pose proof (Hr q limit (quantity_field_limit _ _ _ _ Hin)) as Hc.
  destruct (share_of_bound _ _ _ _ _ Hin Hc) as (u & Hu & Hs).
  assert (Hb : recordField r "executableUpperBound" = Some u) by exact Hu.
  cbn -[exactShare get]. rewrite Hb. cbn -[exactShare get]. unfold bound in Hc. split.
  - constructor; [|done]. unfold counts. rewrite Hs. exact Hc.
  - rewrite <- IH2. f_equal. unfold exactShare, amount, bound. by rewrite Hs.
Qed.

(** On a ledger of the reducer every sum of the checker but the elapsed time is exact and
    is the commitment. *)
Lemma ledger_shares b group f limit q :
  ledger_inv b -> In (group, f, limit, q) quantityFields ->
  Forall (counts group f) (checkedUsages b)
  /\ zsum (List.map (exactShare group f) (checkedUsages b)) = committed q b.
Proof.
  intros Hi Hin. pose proof (quantity_field_limit _ _ _ _ Hin) as Hq.
  unfold checkedUsages. rewrite (List.filter_ext _ _ open_state).
  destruct (bound_shares _ _ _ _ (List.filter holdsBound (ovalues (rb_reservations b))) Hin)
    as [H1 H2].
  { apply List.Forall_forall. intros r [Hr _]%filter_In. apply In_ovalues in Hr as [k Hr].
    exact (ro_bound _ _ (li_reservations b Hi k r Hr)). }
  split.
  - constructor; [|done]. unfold counts. rewrite (share_of_record _ _ _ _ _ Hin).
    exact (li_usage b Hi q limit Hq).
  - cbn [List.map]. rewrite H2. unfold zsum. cbn [fold_right]. fold (zsum (List.map
      (fun r => amount q (bound r)) (List.filter holdsBound (ovalues (rb_reservations b))))).
    rewrite held_sum. unfold committed, exactShare.
    rewrite (share_of_record _ _ _ _ _ Hin). fold (amount q (rb_reconciledUsage b)).
    rewrite (li_spent b Hi q limit Hq). lia.
Qed.

Lemma numberValue_limit o f z :
  numAt o f = Fin z -> numOr (-1) (numberValue (Some o) f) = Fin z.
Proof. unfold numAt. cbn -[get]. by destruct (get o f). Qed.

Lemma ledger_quantity_fits b group f limit q :
  ledger_inv b -> In (group, f, limit, q) quantityFields ->
  nleb (usageSum (checkedUsages b) group f)
       (numOr (-1) (numberValue (Some (rb_budget b)) limit)) = true.
Proof.
  intros Hi Hin. pose proof (quantity_field_limit _ _ _ _ Hin) as Hq.
  destruct (ledger_shares _ _ _ _ _ Hi Hin) as [Hc Hs].
  destruct (li_budget b Hi limit (quantity_limit q limit Hq)) as (z & Hz & Hr).
  pose proof (li_within b Hi q limit z Hq Hz) as Hw.
  rewrite usageSum_fold, (numberValue_limit _ _ _ Hz) by done. cbn [nleb]. apply Z.leb_le.
  rewrite fold_fadd_fits; [lia|lia|by apply shares_nonneg|lia].
Qed.

Lemma committed_elapsed b :
  ledger_inv b ->
  committedUsageWithinBudget b
  = nleb (usageSum (checkedUsages b) "gauges" "elapsedRunMs")
         (numOr (-1) (numberValue (Some (rb_budget b)) "maxRunDurationMs")).
Proof.
  intros Hi. unfold committedUsageWithinBudget, counterLimits, gaugeLimits. cbn [forallb].
  repeat match goal with
  | |- context [nleb (usageSum _ ?g ?f) (numOr _ (numberValue _ ?l))] =>
      rewrite (ledger_quantity_fits b g f l _ Hi)
        by (unfold quantityFields; repeat ((left; reflexivity) || right))
  end.
  cbn [andb]. by rewrite !andb_true_r.
Qed.

Lemma ledger_sum_exact b group f limit q :
  ledger_inv b -> In (group, f, limit, q) quantityFields ->
  usageSum (checkedUsages b) group f = Fin (committed q b).
Proof.
  intros Hi Hin. pose proof (quantity_field_limit _ _ _ _ Hin) as Hq.
  destruct (ledger_shares _ _ _ _ _ Hi Hin) as [Hc Hs].
  destruct (li_budget b Hi limit (quantity_limit q limit Hq)) as (z & Hz & Hr).
  pose proof (li_within b Hi q limit z Hq Hz).
  rewrite usageSum_fold, fold_fadd_fits; [f_equal; lia|lia|by apply shares_nonneg|lia|done].
Qed.

(** ** The claims *)

(** What an accepted state promises its readers. *)
Record coherent (s : AgentState) : Prop := {
  co_one_task : forall k t, In (k, t) (tasks s) -> task_status t = task_active ->
    activeTaskId s = Some k;
  co_task : forall k, activeTaskId s = Some k ->
    exists t, In (k, t) (tasks s) /\ task_status t = task_active;
  co_scheduled_once : NoDup (queue (tools s) ++ active (tools s));
  co_scheduled_open : forall id, In id (queue (tools s) ++ active (tools s)) ->
    exists c, oget id (calls (tools s)) = Some c /\ terminalToolStatus (tc_status c) = false;
  co_interaction : forall id st, interactionCall (interactions s) = Some (id, st) ->
    id <> EmptyString -> exists c, oget id (calls (tools s)) = Some c /\ tc_status c = st;
  co_sequences : NoDup (List.map State.sequence (ovalues (pendingApprovals s)));
  co_capabilities : forall k invocation id c, In (k, invocation) (cap_invocations (capabilities s)) ->
    is_some (nonEmptyStringField invocation "receiptRequirement") = true ->
    amongWords (stringField invocation "status") ["recorded"; "running"]%string = true ->
    nonEmptyStringField invocation "toolCallId" = Some id -> oget id (calls (tools s)) = Some c ->
    terminalToolStatus (tc_status c) = false;
  co_budget : forall b f limit, resourceBudget s = budget_active b ->
    In (f, limit) counterLimits -> exists z, numAt (rb_budget b) limit = Fin z /\ 0 < z
      /\ zsum (List.map (exactShare "counters" f) (checkedUsages b)) <= z;
  co_applied : NoDup (appliedEventIds s) /\ (length (appliedEventIds s) <= 4096)%nat;
  co_last : forall id, lastAppliedEventId s = Some id -> In id (appliedEventIds s) }.

Lemma identity_coherent s :
  assertIdentity s = Ok tt ->
  (NoDup (appliedEventIds s) /\ (length (appliedEventIds s) <= 4096)%nat)
  /\ forall id, lastAppliedEventId s = Some id -> In id (appliedEventIds s).
Proof.
  unfold assertIdentity. intros Ha. open_asserts Ha. apply assertUnique_ok in A.
  apply assertAll_ok in Ha. apply Forall_cons in Ha as [Hl Ha]. apply Forall_cons in Ha as [Hm _].
  split_and!; [done|by apply Nat.leb_le|]. intros id Hid. cbn [fst] in Hm. rewrite Hid in Hm.
  by apply str_in_true.
Qed.

Section Claims.
Context `{JsHost}.


(** C20: the checker's own budget arithmetic against the reducer's.  On every ledger the
    lease reducer reaches, the checker's sums of the ten additive quantities are the exact
    commitments, which are within their limits, so that its budget test comes down to one
    comparison: it accepts exactly when the sum of the elapsed-time bounds is within
    [maxRunDurationMs]. *)
Theorem checker_agrees_on_the_ledger s es b :
  resourceBudget s = budget_unconfigured -> resourceBudget (lease_run s es) = budget_active b ->
  (forall group f limit q, In (group, f, limit, q) quantityFields ->
     usageSum (checkedUsages b) group f = Fin (committed q b))
  /\ committedUsageWithinBudget b
     = nleb (usageSum (checkedUsages b) "gauges" "elapsedRunMs")
            (numOr (-1) (numberValue (Some (rb_budget b)) "maxRunDurationMs")).
Proof.
  intros Hs Hb. pose proof (ledger_inv_history s es Hs b Hb) as Hi. split.
  - intros. by eapply ledger_sum_exact.
  - by apply committed_elapsed.
Qed.

(** A new session passes the checker. *)
Theorem initial_state_is_accepted input s :
  createInitialAgentState input = Ok s -> assertAgentStateInvariants s = Ok tt.
Proof.
  unfold createInitialAgentState. intros Hc. apply guard_ok in Hc as [Hn Hc].
  apply guard_ok in Hc as [Hk [= <-]]. destruct input as [thread user work ? ? turn key ? ?].
  cbn -[isHex64] in *. apply negb_false_iff in Hk.
  destruct thread, user, work, turn; try discriminate Hn. cbv -[isHex64]. by rewrite Hk.
Qed.

(** The bound of the compaction history is not enforced: the checker decides a state as it
    decides the same state with any other history. *)
Theorem history_bound_is_not_checked (s : AgentState) (h : list obj) :
  assertContextState (s <| context := (context s) <| history := h |> |>) = assertContextState s.
Proof. reflexivity. Qed.
End Claims.

(** ** Instances *)

(** A session at work: a task, a budget with a reconciled and an open reservation, a queued
    call and a call that waits for the user. *)
Definition busyLedger : AgentState := Eval vm_compute in
  @lease_run host0 demo [configureEvent; reserveEvent "r1" "i1"; dispatchEvent "r1";
                         reconcileEvent "r1"; reserveEvent "r2" "i2"]%string.

Definition busyTask : AgentTaskState :=
  {| task_taskId := "t1"; task_userGoal := "goal"; task_status := task_active;
     task_startedAtTurnId := "turn"; task_completedAtTurnId := None;
     task_sideEffectsStarted := false; task_planning := building_without_plan;
     task_executionMode := None; task_planHistory := [] |}%string.

Definition busyState : AgentState :=
  (busyLedger <| tasks := [("t1"%string, busyTask)] |> <| activeTaskId := Some "t1"%string |>
     <| tools := tools (demoWork [("a", t_queued); ("b", t_awaiting_user_input)]%string) |>)
    <| interactions := awaiting_user_input "i" "b" [] |>.

(** The same session, with the interaction on the call that does not wait for it. *)
Definition confusedState : AgentState := busyState <| interactions := awaiting_user_input "i" "a" [] |>.


(** A reservation whose bound allows [ms] milliseconds. *)
Definition timedReservation (k i : string) (ms : Z) : obj :=
  [("version", VNum (Fin 1)); ("reservationId", VStr k); ("runId", VStr "run");
   ("invocationId", VStr i); ("resourceKind", VStr "tool");
   ("executableUpperBound",
    VObj [("counters", VObj (List.map (fun f => (f, VNum (Fin 1))) COUNTER_FIELDS));
          ("gauges", VObj [("elapsedRunMs", VNum (Fin ms)); ("activeSubagents", VNum (Fin 0));
             ("activeWriters", VNum (Fin 0)); ("activeToolInvocations", VNum (Fin 1));
             ("activeShellInvocations", VNum (Fin 0))]);
          ("source", VStr "versioned_upper_bound"); ("estimatorVersion", VStr "v1")]);
   ("state", VStr "reserved")]%string.

Definition timedEvents : list obj :=
  [configureEvent;
   [("type", VStr "resource_budget.reserved");
    ("reservation", VObj (timedReservation "r1" "i1" 6000))];
   [("type", VStr "resource_budget.reserved");
    ("reservation", VObj (timedReservation "r2" "i2" 6000))]]%string.

Definition timedState : AgentState := Eval vm_compute in @lease_run host0 demo timedEvents.
Definition timedLedger : AgentResourceBudgetActiveState :=
  ltac:(let r := eval vm_compute in (resourceBudget timedState) in
        match r with budget_active ?b => exact b end).

Lemma checker_agrees_on_the_ledger_witness :
  resourceBudget (@lease_run host0 demo timedEvents) = budget_active timedLedger
  /\ usageSum (checkedUsages timedLedger) "counters" "turns" = Fin 2
  /\ committedUsageWithinBudget timedLedger
     = nleb (usageSum (checkedUsages timedLedger) "gauges" "elapsedRunMs")
            (numOr (-1) (numberValue (Some (rb_budget timedLedger)) "maxRunDurationMs")).
Proof.
  assert (Hb : resourceBudget (@lease_run host0 demo timedEvents) = budget_active timedLedger)
    by (vm_compute; reflexivity).
  destruct (@checker_agrees_on_the_ledger host0 demo timedEvents timedLedger eq_refl Hb) as [H1 H2].
  split_and!; [exact Hb| |exact H2].
  rewrite (H1 "counters" "turns" "maxTurns" (fun u => turns (counters u)))%string;
    [vm_compute; reflexivity|by left].
Defined.

(** Two calls that may run six seconds each, side by side, within ten: the reducer, which
    takes the longest, admits both; the checker, which adds them, refuses the state. *)
Theorem elapsed_bounds_are_added :
  @reduceLeaseState host0 (@lease_run host0 demo (firstn 2 timedEvents))
     (default [] (nth_error timedEvents 2)) = Ok timedState
  /\ @assertAgentStateInvariants host0 (@lease_run host0 demo (firstn 2 timedEvents)) = Ok tt
  /\ @assertAgentStateInvariants host0 timedState
     = Throw "committed resource usage exceeds the effective budget.".
Proof. vm_compute. done. Qed.
